(* ===== verification/_CoqProject ===== *)
-Q . S2P
Prelude.v
Text.v
Cursors.v
Routes.v
WorkerContracts.v
WorkerStore.v
WorkerStoreInv.v
WorkerStoreAdvance.v
WorkerStoreFrame.v
WorkerStoreProps.v
World.v
Consumer.v
ConsumerProps.v
Dispatcher.v
DispatcherProps.v
Pipeline.v
PipelineProps.v
RedisStreams.v
WorkerRuntime.v
Session.v
AgentTables.v
Plans.v
Templates.v
WorkflowTables.v
Admission.v
FailureStore.v
TaskProjections.v
AgentWorld.v
Executor.v
ExecutorProps.v
Effects.v
AgentConforms.v
AgentInv.v
AgentSteps.v
AgentAccept.v
AgentHistory.v
AgentProps.v
AgentDemo.v
AdmissionService.v
AdmissionServiceProps.v
AdmissionLife.v
TaskApi.v
TaskApiProps.v
ProductEvents.v
ProductEventsProps.v
EffectsProps.v
FailureService.v
FailureServiceProps.v
FailureCapture.v
FailureLife.v
FailureDemo.v
TemplatesProps.v
PlanStore.v
Workflows.v
WorkflowService.v
WorkflowsInv.v
WorkflowsSteps.v
WorkflowsRun.v
WorkflowsProps.v
WorkflowDemo.v
GraphState.v
SessionGraph.v
SessionGraphInv.v
SessionGraphProps.v
DurableEffects.v
DurableEffectsProps.v
StreamTrim.v
StreamTrimProps.v
Identity.v
IdentityProps.v
DeadLetters.v
DeadLettersProps.v
Maintenance.v
MaintenanceProps.v
Results.v
ResultsProps.v
FailureOperations.v
FailureOperationsProps.v
FailureOperationsDemo.v
