(* ===== verification/Prelude.v ===== *)
(** * ex-agent: a verification development

    ex-agent runs data-analysis tasks for users: a request starts or resumes a
    LangGraph session graph, the graph plans the work, the user approves it, an
    Executor service runs it and reports back with events. This library models
    the parts of the Python code that make that safe against crashes, lost
    replies, duplicated messages and concurrent processes, and proves that they
    do. File names below are relative to [src/src/].

    ** How the parts interact

    - The worker ([worker/]) takes the Executor's events from a Redis stream.
      Ingress stores each in the Inbox; the router turns contiguous runs of
      Inbox events into commands with an Outbox row each; the publisher puts
      claimed Outbox rows on the command stream; the dispatcher takes a command
      and calls the business handler that resumes the session graph. The three
      loops meet only in the worker's tables, so their theorems are about every
      interleaving of their transactions.
    - The agent service ([agent/]) admits API requests, invokes the session
      graph for them until the graph's checkpoint proves their acceptance,
      journals each request to the Executor before sending it, projects the
      graph's state into the task tables, and settles failed tasks through a
      durable cleanup.
    - The workflow services ([ex_agent/]) keep the plans of tasks, turn the
      verified steps of a successful task into a reusable workflow, and govern
      its versions by review and activation.
    - The task routes ([ex_agent/api/]) admit the tasks and decisions of users
      through the admission service and stream a task's events to them; the
      product event relay tells the streams that events were committed.
    - Operators retry and finalize blocked cleanups, trim streams, replay or
      discard dead letters, and read the previews of results.

    ** Files

    Shared:
    - [Prelude] (this file): identifiers, results, exceptions, JSON values,
      association lists, keyset pages, the transaction monad [tx] (a database
      transaction: state in, result and new state out, an error rolls back)
      and the coroutine monad [proc] (exceptions do not roll back) with the
      predicate transformers [preserves], [within], [wp] and [stays] that the
      proofs compose.
    - [Text]: [str(int)], [int(str)], [str(UUID)], [UUID(str)] and [str.strip],
      with their round trips.
    - [Cursors]: the opaque cursors of paged listings, and what a client gets
      that follows them while the table changes. [Routes]: replies of the HTTP
      routes.

    Worker:
    - [WorkerContracts]: [worker/contracts.py]; pydantic and json are the class
      [EventCodec].
    - [WorkerStore]: the tables of [worker_migrations/] and every method of
      [Store] ([worker/store.py]). [WorkerStoreInv] proves the invariant of the
      tables for every transaction, [WorkerStoreAdvance] what [advance] routes,
      [WorkerStoreFrame] what no transaction touches, [WorkerStoreProps] the
      theorems.
    - [World]: what a coroutine awaits, as a schedule of replies, refusals, lost
      replies and moves of other processes.
    - [Consumer]: [worker/consumer.py] (also [ex_agent/transport/consumer.py],
      the same code); [ConsumerProps] proves it against the handler interface
      [SafeHandler].
    - [Dispatcher]: [worker/guard.py] and [worker/dispatcher.py];
      [DispatcherProps] discharges [SafeHandler] and gives the case table of
      outcomes.
    - [Pipeline]: [worker/ingress.py] and [worker/outbox.py]; [PipelineProps]
      puts the four loops together.
    - [RedisStreams]: [worker/redis_streams.py] and the Lua scripts, against
      the interfaces [RedisKeys] and [RedisPel].
    - [WorkerRuntime]: [worker/config.py], [worker/runtime.py].

    Agent service:
    - [Session]: the decisions of [agent/session.py] on a snapshot of the graph.
    - [AgentTables]: the rows of tasks, requests, cleanups, locks, bindings,
      messages, events and effects, with the constraints their inserts meet.
    - [Admission]: [agent/admission/store.py]. [FailureStore]:
      [agent/failure/store.py]. [TaskProjections]: [agent/projections.py],
      [agent/effects/projections.py]. [Effects]: [agent/effects/store.py] and
      [agent/effects/journal.py].
    - [AgentWorld]: the schedule of the agent's coroutines; [AgentConforms]: the
      rules by which a coroutine moves the tables by the service's transactions
      only. [AdmissionService]:
      [agent/admission/service.py], [recovery.py] and [graph.py].
    - [TaskApi]: the task routes and the event stream
      ([ex_agent/api/routers/tasks.py]) over the admission service, and the
      client that reads the stream; [TaskApiProps].
    - [ProductEvents]: the outbox of task events and its publisher
      ([ex_agent/persistence/repositories/delivery.py],
      [ex_agent/transport/streams.py], [agent/runtime/delivery.py]);
      [ProductEventsProps].
    - [Executor]: the Executor's HTTP API ([ex_agent/executor/client.py],
      [requests.py], [contracts.py], [agent/effects/runner.py]);
      [ExecutorProps]. [FailureService]: the compensation of failed tasks
      ([agent/failure/service.py], [executor.py], [graph.py], [recovery.py]);
      [FailureServiceProps], [FailureCapture], [FailureLife], and the run
      [FailureDemo].
    - [FailureOperations]: what operators may do with blocked cleanups
      ([agent/failure/operations.py], [ex_agent/api/routers/failures.py]);
      [FailureOperationsProps], and the run [FailureOperationsDemo].
    - [AgentInv], [AgentSteps], [AgentAccept]: the invariant of the tables and
      every transaction's preservation of it. [AgentHistory]: what is never
      undone. [AgentProps], [AdmissionServiceProps], [AdmissionLife],
      [EffectsProps]: the theorems. [AgentDemo]: a run they
      are applied on.

    Session graph:
    - [GraphState]: the typed state of a task ([ex_agent/application/state.py]
      and the contracts it holds). [SessionGraph]: the nodes, routes and edges
      of the compiled graph ([ex_agent/graph/], [agent/graph/]) as a step
      relation over checkpoints. [SessionGraphInv]: what holds at each node;
      [SessionGraphProps]: the theorems and two runs.
    - [DurableEffects]: the calls the nodes make to the Executor
      ([agent/effects/execution.py], [plans.py], [reporting.py], [files.py])
      through the journal; [DurableEffectsProps].

    Plans and workflows:
    - [Plans]: plan contracts, tool registry and source compiler
      ([ex_agent/domain/contracts.py], [ex_agent/tools/]). [Templates]:
      [_template_plan] and [bind_workflow_inputs]
      ([ex_agent/application/promotions.py]); [TemplatesProps].
    - [WorkflowTables]: the tables of plans, verified steps and workflows.
      [PlanStore] and [Workflows]: their repositories
      ([ex_agent/persistence/repositories/plans.py], [promotions.py],
      [workflow_lifecycle.py], [workflows.py]). [WorkflowService]: the services
      of [ex_agent/application/promotions.py] and [workflow_lifecycle.py].
    - [WorkflowsInv], [WorkflowsSteps], [WorkflowsRun]: invariant and effect of
      every transaction. [WorkflowsProps]: the theorems. [WorkflowDemo]: a run.

    Operation:
    - [StreamTrim]: safe trimming ([ex_agent/transport/stream_maintenance.py]),
      against the interface [RedisStream]; [StreamTrimProps].
    - [Maintenance]: durable trimming jobs ([ex_agent/maintenance/]), whose
      executions call [StreamTrim]; [MaintenanceProps] composes the two.
    - [DeadLetters]: the manager of dead letters ([ex_agent/transport/dlq.py]),
      against the interface [RedisDlq]; [DeadLettersProps].
    - [Results]: the previews of result files ([ex_agent/executor/results.py]);
      [ResultsProps].
    - [Identity]: signed requests ([ex_agent/api/identity.py]), against the
      interface [RedisNonces]; [IdentityProps].

    ** How state and effects are modelled

    A table is a finite map from its primary key to its row; a transaction is a
    function on the tables, serialised as the code's row and advisory locks
    serialise it; primary keys, unique and foreign keys and integer ranges are
    guards of the inserts. A coroutine runs against a schedule: before each
    await other processes may change the tables by their own transactions, the
    awaited call succeeds, is refused, or takes effect without its reply
    arriving, and the schedule may end, which is a crash. No theorem assumes
    that calls succeed unless it is about liveness and says so. Concurrent tasks
    of one process run one after the other, each seeing the others as other
    processes. Integers are unbounded as in Python, with the database's int4 and
    int8 ranges checked where a value is stored. Times are microseconds.
    Recursion is structural on the data it reads, so no fuel is needed, except
    for [Consumer]'s endless polling loop, whose fuel is the number of turns
    looked at, for digits of a number, whose fuel is its size in bits, for
    reading an execution's events, where the limit bounds the pages
    ([events_after_total]), and for visiting all pages of a listing, whose fuel
    is more than its rows ([all_pages_complete], [listing_complete]).

    Parameters stand for code outside the repository: [uuid5], hashes,
    [json.dumps], pydantic's parsing of signals, the ast check of generated
    code, pgvector's distance, random identifiers, the resolution of paths. Laws
    they are used by are named hypotheses with concrete instances in the
    witnesses.

    ** What the theorems show

    - Nothing is lost: a message is acknowledged only when the tables hold its
      event, or its command is settled, or a dead letter took it
      ([ack_safety], [event_message_safety], [command_message_safety]).
    - Nothing is done twice: every event is routed at most once and in order
      ([routed_exactly_once], [advance_routes_longest_run]), a handler is called
      at most once per message and only when due
      ([handler_called_only_when_due]), a request is admitted once
      ([admitted_exactly_once]), the graph gets an input only until it accepted
      it ([input_sent_until_accepted], [execution_is_justified]), the Executor
      gets the recorded request only ([journal_replays_recorded]), a lifecycle
      action is applied once per key ([lifecycle_action_applied_once]).
    - The tables stay consistent over every run of transactions
      ([store_reachable_consistent], [worker_keeps_tables_consistent],
      [agent_tables_consistent], [workflow_versions_consistent]) and history is
      permanent ([history_only_grows], [agent_history_permanent]).
    - The transactions refine the abstract life of a request
      ([request_life_refined]), and a cleanup settles its task for good
      ([cleanup_owns_task], [cleanup_settles_task]).
    - Workflows do what their source did ([workflow_reproduces_source],
      [bound_workflow_compiles]), come from the promoter's own succeeded tasks
      ([promoted_from_own_verified_task]), change only by their owner
      ([only_owner_changes_workflow]) and are offered only when reviewed
      ([catalog_offers_reviewed], [review_decides]).
    - No plan is executed without the user's decision on it
      ([approved_before_execution]); events reach the graph once and in order
      ([events_applied_in_order]); a decision that was admitted is accepted
      ([admitted_decision_accepted]); a session rests exactly with a result
      ([session_rests_with_result]).
    - What users are told is so: an accepted task or decision is recorded
      ([accepted_task_is_recorded]), a decision answers the interrupt its user
      was shown ([decision_answers_shown_interrupt]), only the owner of a task
      sees it or acts on it ([only_owner_acts]), and a client of the event
      stream receives every event once and in order ([events_received_once]).
      A published event was sent and announced ([published_event_was_sent]),
      and the relay delivers what there is when nothing fails
      ([recovery_drains_outbox]).
    - What the graph asks of the Executor is recorded before it is sent, for
      ever, and was built from approved steps with the approved checksums
      ([submission_recorded_first], [submission_from_approved_steps],
      [append_follows_binding]).
    - A failed task is settled only with a proof that nothing of it runs and
      with its graph at rest ([cleanup_is_justified], [failed_command_captured],
      [failed_request_captured], [cleanup_blocks_handler]), and it is settled
      when nothing fails ([cleanup_completes]). An operator's request on a
      blocked cleanup is applied once ([operator_request_applied_once]) and an
      answered finalization is that of a settled task
      ([finalized_task_is_settled]).
    - The operator's tools lose and repeat nothing: trims are safe under the
      server's policy ([maintenance_trims_safely], [plan_announces_trim],
      [bounded_trims_reach_native]), a superseded worker settles no job
      ([claim_fencing], [job_created_once], [jobs_consistent]), a dead letter is
      acted on once ([dead_letter_acted_once], [replay_moves_entry],
      [listing_complete]), a signed request is accepted once while it is fresh
      ([signed_request_used_once], [signature_binds_request]), and previews of
      results fit and are verified ([previews_bounded_and_verified]).

    ** What modelling found

    - An event whose sequence exceeds bigint passes validation, fails in the
      INSERT and is taken for an unavailable database, so it is redelivered for
      ever ([oversized_sequence_deferred]).
    - Inputs of a workflow are named after normalised parameter names, so
      parameters that differ only by surrounding underscores share an input and
      the workflow cannot reproduce its source ([shared_input_loses_parameter]).
    - After the user sends a selected workflow back, every new plan without high
      risk is refused ([revised_workflow_refused]).
    - The timestamp of a signed request is checked before its body is awaited
      and its nonce is set after it, so a replay with a late body is accepted
      ([late_replay_accepted]).
    - A replay of a dead letter under an id without a sequence publishes it and
      leaves it ([incomplete_id_publishes_twice]), and a replay whose audit
      record cannot be written publishes it without a marker
      ([failed_audit_publishes_twice]).
    - The event stream writes U+2028 and the like unescaped, where its client
      ends a line, so the text of a payload can move the client's cursor
      ([separator_moves_cursor]); and the event that an operator's retry adds
      takes its id without the task's row lock, so the ids need not increase in
      commit order, a hypothesis of [events_received_once].
    - Malformed input that should be answered with 422 is answered with 500:
      a cursor whose identifier is no text ([cursor_identifier_not_text]), a
      malformed decision ([malformed_signal_is_internal_error]) and a
      Last-Event-ID that is no number ([bad_last_event_id_is_internal_error]).
    - Three documents say that every authenticated user may promote a task; the
      code requires its owner ([promoted_from_own_verified_task]).

    ** Not modelled, and why

    LangGraph, Redis, PostgreSQL, the Executor and the language models are
    services: what they answer comes from the schedule. Within the repository:
    connection pools, asyncio supervision, metrics, logging, settings and
    migrations only construct or forward, as do the HTTP routes of workflows,
    promotions, stream maintenance and health; prompts and their
    middleware decide by a language model; the development chat, benchmarks,
    scripts, examples and skills are tools around the service (of the chat, only
    its reading of the event stream is modelled); the cutover is a one-off
    inspection of two deployments; the command workers and repositories of the
    earlier runtime are replaced by the worker and the agent service. *)

From stdpp Require Import base gmap strings list sorting relations.
From Stdlib Require Import ZArith Lia.
Local Open Scope Z_scope.

(** ** Scalars

    [uuid] is the 128-bit number of a UUID (PostgreSQL orders UUIDs by that
    number), [timestamp] a point in time in microseconds, the resolution of
    both [timestamptz] and [datetime]. *)

Abbreviation uuid := N (only parsing).
Abbreviation timestamp := Z (only parsing).

Definition microseconds (seconds : Z) : Z := seconds * 1000000.

(** Signed [integer] and [bigint] columns: a value outside the range makes
    the statement fail, it never wraps around. *)
Definition int4_max : Z := 2 ^ 31 - 1.
Definition int8_max : Z := 2 ^ 63 - 1.
Definition fits_int4 (z : Z) : bool := (- int4_max - 1 <=? z)%Z && (z <=? int4_max)%Z.
Definition fits_int8 (z : Z) : bool := (- int8_max - 1 <=? z)%Z && (z <=? int8_max)%Z.

(** ** JSON values

    Objects are association lists with their keys in canonical order, so that
    [=] is the equality of Python dicts and of [jsonb]. *)
#[warnings="-register-all"]
Inductive json : Type :=
| JNull
| JBool (b : bool)
| JInt (z : Z)
| JFloat (repr : string)
| JStr (s : string)
| JArr (l : list json)
| JObj (l : list (string * json)).

Fixpoint json_eq_dec (a b : json) {struct a} : {a = b} + {a ≠ b}.
Proof.
  decide equality; first [apply Z.eq_dec | apply String.string_dec | apply Bool.bool_dec | idtac].
  - apply (List.list_eq_dec json_eq_dec).
  - apply List.list_eq_dec. intros x y. decide equality. apply String.string_dec.
Defined.
#[global] Instance json_eq_decision : EqDecision json := json_eq_dec.

(** ** Exceptions

    One constructor per exception class the modelled code raises or catches;
    [except] clauses are the boolean predicates below, which follow the
    Python class hierarchy. *)

Inductive exn : Type :=
| ValueError (m : string)
| KeyError (m : string)
| TypeError (m : string)
| LookupError (m : string)
| RuntimeError (m : string)
| AssertionError
| TimeoutError
| PermanentMessageError (m : string)
| SessionConflictError (m : string)
| SessionBusyError (active_task_id m : string)
| DeferEvent (m : string)
| RejectEvent (m : string)
| IgnoreEvent (m : string)
| LeaseLostError (m : string)
| StreamLeaseLostError (m : string)
| DatabaseError (m : string)
| PoolTimeout
| RedisError (m : string)
| ResponseError (m : string)
| CancelledError
| UnsafeRecoveryError (m : string)
| UnsafeCleanupError (m : string)
| FailureOperationConflict (m : string)
| WorkflowLifecycleConflictError (m : string)
| WorkflowLifecycleForbiddenError (m : string)
| ExecutorRequestError (status_code : Z) (m : string)
| HTTPException (status_code : Z) (detail : json)
| OtherException (cls m : string).

#[global] Instance exn_eq_dec : EqDecision exn.
Proof. solve_decision. Defined.

(** [isinstance(error, ValueError)]: [PermanentMessageError] and
    [SessionConflictError] derive from it. *)
Definition is_ValueError (e : exn) : bool :=
  match e with
  | ValueError _ | PermanentMessageError _ | SessionConflictError _
  | SessionBusyError _ _ => true
  | _ => false
  end.

Definition is_SessionConflictError (e : exn) : bool :=
  match e with SessionConflictError _ | SessionBusyError _ _ => true | _ => false end.

Definition is_RuntimeError (e : exn) : bool :=
  match e with
  | RuntimeError _ | LeaseLostError _ | StreamLeaseLostError _
  | UnsafeRecoveryError _ | UnsafeCleanupError _ | FailureOperationConflict _
  | WorkflowLifecycleConflictError _ | WorkflowLifecycleForbiddenError _
  | ExecutorRequestError _ _ => true
  | _ => false
  end.

(** [except RedisError]: [ResponseError] derives from it. *)
Definition is_RedisError (e : exn) : bool :=
  match e with RedisError _ | ResponseError _ => true | _ => false end.

(** [except (psycopg.Error, PoolTimeout)] *)
Definition is_database_down (e : exn) : bool :=
  match e with DatabaseError _ | PoolTimeout => true | _ => false end.

(** [except Exception]: [CancelledError] derives from [BaseException] only. *)
Definition is_Exception (e : exn) : bool :=
  match e with CancelledError => false | _ => true end.

(** [str(error)] and [type(error).__name__]; no code prints an
    [HTTPException], whose text would hold its status and detail. *)
Definition exn_str (e : exn) : string :=
  match e with
  | ValueError m | KeyError m | TypeError m | LookupError m | RuntimeError m
  | PermanentMessageError m | SessionConflictError m | SessionBusyError _ m
  | DeferEvent m | RejectEvent m | IgnoreEvent m | LeaseLostError m
  | StreamLeaseLostError m | DatabaseError m | RedisError m | ResponseError m
  | UnsafeRecoveryError m | UnsafeCleanupError m | FailureOperationConflict m
  | WorkflowLifecycleConflictError m | WorkflowLifecycleForbiddenError m
  | ExecutorRequestError _ m | OtherException _ m => m
  | AssertionError | TimeoutError | PoolTimeout | CancelledError | HTTPException _ _ => ""
  end.

Definition exn_name (e : exn) : string :=
  match e with
  | ValueError _ => "ValueError" | KeyError _ => "KeyError"
  | TypeError _ => "TypeError" | LookupError _ => "LookupError"
  | RuntimeError _ => "RuntimeError" | AssertionError => "AssertionError"
  | TimeoutError => "TimeoutError"
  | PermanentMessageError _ => "PermanentMessageError"
  | SessionConflictError _ => "SessionConflictError"
  | SessionBusyError _ _ => "SessionBusyError"
  | DeferEvent _ => "DeferEvent" | RejectEvent _ => "RejectEvent"
  | IgnoreEvent _ => "IgnoreEvent" | LeaseLostError _ => "LeaseLostError"
  | StreamLeaseLostError _ => "StreamLeaseLostError"
  | DatabaseError _ => "DatabaseError" | PoolTimeout => "PoolTimeout"
  | RedisError _ => "RedisError" | ResponseError _ => "ResponseError"
  | CancelledError => "CancelledError"
  | UnsafeRecoveryError _ => "UnsafeRecoveryError"
  | UnsafeCleanupError _ => "UnsafeCleanupError"
  | FailureOperationConflict _ => "FailureOperationConflict"
  | WorkflowLifecycleConflictError _ => "WorkflowLifecycleConflictError"
  | WorkflowLifecycleForbiddenError _ => "WorkflowLifecycleForbiddenError"
  | ExecutorRequestError _ _ => "ExecutorRequestError"
  | HTTPException _ _ => "HTTPException"
  | OtherException cls _ => cls
  end.

(** ** Results, transactions and effectful calls *)

Inductive result (A : Type) : Type :=
| Ok (a : A)
| Err (e : exn).
Arguments Ok {A} a.
Arguments Err {A} e.

#[global] Instance result_ret : MRet result := λ A a, Ok a.
#[global] Instance result_bind : MBind result := λ A B f r,
  match r with Ok a => f a | Err e => Err e end.

Definition raise_if (b : bool) (e : exn) : result unit :=
  if b then Err e else Ok tt.

Definition from_option_err {A} (e : exn) (o : option A) : result A :=
  match o with Some a => Ok a | None => Err e end.

Lemma raise_if_Ok b e : raise_if b e = Ok tt ↔ b = false.
Proof. by destruct b. Qed.
Lemma raise_if_then {B} b e (r : result B) x : (raise_if b e;; r) = Ok x ↔ b = false ∧ r = Ok x.
Proof. destruct b; unfold mbind; simpl; naive_solver. Qed.
Lemma result_bind_Ok {A B} (r : result A) (f : A → result B) b :
  r ≫= f = Ok b ↔ ∃ a, r = Ok a ∧ f a = Ok b.
Proof. destruct r; unfold mbind; simpl; naive_solver. Qed.

(** [for x in l: f(x)] with a check that may raise. *)
Fixpoint each {A} (f : A → result unit) (l : list A) : result unit :=
  match l with [] => Ok tt | x :: l' => f x;; each f l' end.

Lemma each_Ok {A} (f : A → result unit) l : each f l = Ok tt ↔ Forall (λ x, f x = Ok tt) l.
Proof.
  induction l as [|x l IH]; simpl; [split; auto|]. rewrite Forall_cons, <- IH, result_bind_Ok.
  split; [intros ([] & ? & ?); done|intros [? ?]; by exists tt].
Qed.

(** A transaction body over a database [S]: [Err] rolls everything back, so
    no new state is returned with it. *)
Definition tx (S A : Type) : Type := S → result (A * S).

#[global] Instance tx_ret S : MRet (tx S) := λ A a s, Ok (a, s).
#[global] Instance tx_bind S : MBind (tx S) := λ A B f m s,
  match m s with Ok (a, s') => f a s' | Err e => Err e end.

Definition tx_raise {S A} (e : exn) : tx S A := λ _, Err e.
Definition tx_guard {S} (ok : bool) (e : exn) : tx S unit :=
  λ s, if ok then Ok (tt, s) else Err e.
Definition tx_get {S} : tx S S := λ s, Ok (s, s).
Definition tx_put {S} (s : S) : tx S unit := λ _, Ok (tt, s).
Definition tx_modify {S} (f : S → S) : tx S unit := λ s, Ok (tt, f s).

(** A coroutine over a world [W]: the effects before an exception stay. *)
Definition proc (W A : Type) : Type := W → result A * W.

#[global] Instance proc_ret W : MRet (proc W) := λ A a w, (Ok a, w).
#[global] Instance proc_bind W : MBind (proc W) := λ A B f m w,
  match m w with (Ok a, w') => f a w' | (Err e, w') => (Err e, w') end.

Definition throw {W A} (e : exn) : proc W A := λ w, (Err e, w).
Definition guard_or {W} (ok : bool) (e : exn) : proc W unit :=
  λ w, if ok then (Ok tt, w) else (Err e, w).
Definition lift_result {W A} (r : result A) : proc W A := λ w, (r, w).
Definition gets {W A} (f : W → A) : proc W A := λ w, (Ok (f w), w).
Definition modify {W} (f : W → W) : proc W unit := λ w, (Ok tt, f w).

(** [try: m except e: h e], the handler deciding which classes it takes by
    re-raising the others. *)
Definition try_except {W A} (m : proc W A) (h : exn → proc W A) : proc W A := λ w,
  match m w with (Ok a, w') => (Ok a, w') | (Err e, w') => h e w' end.

(** [try: m finally: f]: an exception of the cleanup replaces the outcome. *)
Definition try_finally {W A} (m : proc W A) (f : proc W unit) : proc W A := λ w,
  let '(r, w') := m w in
  match f w' with
  | (Ok _, w'') => (r, w'')
  | (Err e, w'') => (Err e, w'')
  end.

(** ** JSON objects *)

Fixpoint assoc {A} (k : string) (l : list (string * A)) : option A :=
  match l with
  | [] => None
  | (k', v) :: l' => if String.eqb k k' then Some v else assoc k l'
  end.

(** [{**value, k: v}] on an object whose keys are in canonical order. *)
Fixpoint assoc_set {A} (k : string) (v : A) (l : list (string * A)) : list (string * A) :=
  match l with
  | [] => [(k, v)]
  | (k', v') :: l' =>
      match String.compare k k' with
      | Eq => (k, v) :: l'
      | Lt => (k, v) :: (k', v') :: l'
      | Gt => (k', v') :: assoc_set k v l'
      end
  end.

Lemma assoc_assoc_set {A} k k' (v : A) l :
  assoc k' (assoc_set k v l) = if String.eqb k' k then Some v else assoc k' l.
Proof.
  induction l as [|[k0 v0] l IH]; simpl; [done|]. destruct (String.compare k k0) eqn:E.
  - apply String.compare_eq_iff in E as ->. simpl. by destruct (String.eqb k' k0).
  - done.
  - simpl. rewrite IH. destruct (String.eqb_spec k' k0) as [H0|], (String.eqb_spec k' k) as [H1|]; try done.
    assert (k = k0) as -> by congruence. pose proof (String.compare_antisym k0 k0) as Ha. by rewrite E in Ha.
Qed.

(** The keys of a dict in canonical order. *)
Definition str_lt (a b : string) : Prop := String.compare a b = Lt.
Definition canonical {A} (l : list (string * A)) : Prop := StronglySorted str_lt (map fst l).

#[global] Instance str_lt_trans : Transitive str_lt.
Proof.
  unfold str_lt. intros x. induction x as [|c x IH]; intros [|d y] [|e z]; simpl; try done.
  unfold Ascii.compare.
  destruct (N.compare_spec (Ascii.N_of_ascii c) (Ascii.N_of_ascii d)), (N.compare_spec (Ascii.N_of_ascii d) (Ascii.N_of_ascii e)),
    (N.compare_spec (Ascii.N_of_ascii c) (Ascii.N_of_ascii e)); try done; try lia. apply IH.
Qed.

Lemma elem_of_assoc_set_keys {A} k (v : A) l k' : k' ∈ map fst (assoc_set k v l) → k' = k ∨ k' ∈ map fst l.
Proof.
  induction l as [|[k0 v0] l IH]; simpl; [by intros ->%list_elem_of_singleton; left|].
  destruct (String.compare k k0) eqn:E; simpl; rewrite !elem_of_cons; [tauto..|]. intros [?|?%IH]; tauto.
Qed.

Lemma assoc_set_canonical {A} k (v : A) l : canonical l → canonical (assoc_set k v l).
Proof.
  unfold canonical. induction l as [|[k0 v0] l IH]; simpl; [by repeat constructor|].
  inversion 1 as [|?? Hl Hk0]; subst. destruct (String.compare k k0) eqn:E; simpl.
  - apply String.compare_eq_iff in E as ->. by constructor.
  - constructor; [done|]. constructor; [done|]. eapply Forall_impl; [exact Hk0|]. intros x. by apply str_lt_trans.
  - constructor; [by apply IH|]. apply Forall_forall. intros x [->|Hx]%elem_of_assoc_set_keys.
    + unfold str_lt. by rewrite String.compare_antisym, E.
    + by eapply Forall_forall in Hk0.
Qed.

Lemma canonical_NoDup {A} (l : list (string * A)) : canonical l → NoDup (map fst l).
Proof.
  unfold canonical. induction (map fst l) as [|k ks IH]; [constructor|]. inversion 1 as [|?? Hl Hk]; subst.
  constructor; [|auto]. intros Hin. eapply Forall_forall in Hk; [|done]. unfold str_lt in Hk.
  pose proof (String.compare_antisym k k) as Ha. by rewrite Hk in Ha.
Qed.

Lemma assoc_set_last {A} k (v : A) l : Forall (λ k', str_lt k' k) (map fst l) → assoc_set k v l = l ++ [(k, v)].
Proof.
  induction l as [|[k0 v0] l IH]; simpl; [done|]. intros [Hk Hl]%Forall_cons.
  unfold str_lt in Hk. rewrite String.compare_antisym, Hk. simpl. by rewrite IH.
Qed.

Lemma assoc_elem {A} k (v : A) l : assoc k l = Some v → (k, v) ∈ l.
Proof.
  induction l as [|[k0 v0] l IH]; simpl; [done|].
  destruct (String.eqb_spec k k0) as [->|]; [intros [= ->]; left|right; auto].
Qed.

Lemma elem_assoc {A} k (v : A) l : NoDup (map fst l) → (k, v) ∈ l → assoc k l = Some v.
Proof.
  induction l as [|[k0 v0] l IH]; simpl; [intros _ []%not_elem_of_nil|].
  intros [Hn Hd]%NoDup_cons [[= <- <-]|Hin]%elem_of_cons; [by rewrite String.eqb_refl|].
  destruct (String.eqb_spec k k0) as [->|]; [|auto]. destruct Hn. apply list_elem_of_fmap. by exists (k0, v).
Qed.

(** [boundary.get(key)] on a JSON value that may not be a dict. *)
Definition jget (k : string) (j : json) : option json :=
  match j with JObj l => assoc k l | _ => None end.

Definition is_dict (j : json) : bool :=
  match j with JObj _ => true | _ => false end.

(** The truth value of a JSON value, and the items a [for] loop takes from it. *)
Definition json_truthy (j : json) : bool :=
  match j with
  | JNull => false
  | JBool b => b
  | JInt z => negb (z =? 0)
  | JFloat r => negb (String.eqb r "0.0" || String.eqb r "-0.0")
  | JStr s => negb (String.eqb s "")
  | JArr l => negb (bool_decide (length l = 0%nat))
  | JObj l => negb (bool_decide (length l = 0%nat))
  end.

Fixpoint chars (s : string) : list json :=
  match s with
  | EmptyString => []
  | String c s' => JStr (String c EmptyString) :: chars s'
  end.

Definition iterate (j : json) : result (list json) :=
  match j with
  | JArr l => Ok l
  | JObj l => Ok (map (λ kv, JStr kv.1) l)
  | JStr s => Ok (chars s)
  | _ => Err (TypeError "object is not iterable")
  end.

(** ** Text *)

(** [error[:2000]] *)
Definition slice_to (n : nat) (s : string) : string := String.substring 0 n s.

Definition is_space (c : Ascii.ascii) : bool :=
  let n := Ascii.N_of_ascii c in
  ((9 <=? n) && (n <=? 13) || (28 <=? n) && (n <=? 32))%N.

(** [not s.strip()] for ASCII text. *)
Fixpoint is_blank (s : string) : bool :=
  match s with
  | EmptyString => true
  | String c s' => is_space c && is_blank s'
  end.

(** [value or default] on an optional string. *)
Definition or_else (o : option string) (default : string) : string :=
  match o with Some s => if String.eqb s "" then default else s | None => default end.

(** ** ORDER BY and LIMIT

    Every ORDER BY of the modelled queries ranks rows by two numbers
    (a timestamp and a UUID, a UUID and a sequence, ...). *)

Definition sort_key : Type := Z * Z.

Definition key_lt (a b : sort_key) : Prop := a.1 < b.1 ∨ (a.1 = b.1 ∧ a.2 < b.2).
Definition key_le (a b : sort_key) : Prop := a.1 < b.1 ∨ (a.1 = b.1 ∧ a.2 ≤ b.2).

#[global] Instance key_lt_dec : RelDecision key_lt.
Proof. intros a b. unfold key_lt. apply _. Defined.
#[global] Instance key_le_dec : RelDecision key_le.
Proof. intros a b. unfold key_le. apply _. Defined.
#[global] Instance key_le_total : Total key_le.
Proof. intros [a1 a2] [b1 b2]. unfold key_le. simpl. lia. Qed.
#[global] Instance key_le_trans : Transitive key_le.
Proof. intros [] [] []. unfold key_le. simpl. lia. Qed.

Lemma key_lt_le a b : key_lt a b → key_le a b.
Proof. unfold key_lt, key_le. lia. Qed.
Lemma key_le_not a b : ¬ key_lt b a → key_le a b.
Proof. unfold key_lt, key_le. destruct a, b; simpl. lia. Qed.
Lemma key_lt_le_trans a b c : key_lt a b → key_le b c → key_lt a c.
Proof. unfold key_lt, key_le. destruct a, b, c; simpl. lia. Qed.
Lemma key_le_lt_trans a b c : key_le a b → key_lt b c → key_lt a c.
Proof. unfold key_lt, key_le. destruct a, b, c; simpl. lia. Qed.
Lemma key_le_refl a : key_le a a.
Proof. unfold key_le. lia. Qed.
Lemma key_lt_irrefl a : ¬ key_lt a a.
Proof. unfold key_lt. lia. Qed.

Lemma elem_of_take_elem {A} n (l : list A) x : x ∈ take n l → x ∈ l.
Proof. rewrite elem_of_take. intros (i & Hi & _). by eapply list_elem_of_lookup_2. Qed.

Lemma length_take_le_bound {A} n (l : list A) : (length (take n l) ≤ n)%nat.
Proof. rewrite length_take. lia. Qed.

Lemma list_fmap_compose_fst {A B C} (f : B → C) (l : list (A * B)) :
  (map (λ kr, (kr.1, f kr.2)) l).*1 = map fst l.
Proof. induction l as [|[a b] l IH]; [done|]. by f_equal/=. Qed.

Lemma filter_all {A} (P : A → Prop) `{!∀ x, Decision (P x)} (l : list A) :
  (∀ x, x ∈ l → P x) → filter P l = l.
Proof.
  induction l as [|x l IH]; intros Hall; [done|].
  rewrite filter_cons_True by (apply Hall; set_solver). f_equal. apply IH. set_solver.
Qed.

Lemma filter_none {A} (P : A → Prop) `{!∀ x, Decision (P x)} (l : list A) :
  (∀ x, x ∈ l → ¬ P x) → filter P l = [].
Proof.
  induction l as [|x l IH]; intros Hall; [done|].
  rewrite filter_cons_False by (apply Hall; set_solver). apply IH. set_solver.
Qed.

Lemma filter_length_le {A} (P : A → Prop) `{!∀ x, Decision (P x)} (l : list A) :
  (length (filter P l) ≤ length l)%nat.
Proof. induction l as [|x l IH]; [done|]. rewrite filter_cons. case_decide; simpl; lia. Qed.

Lemma omap_length_le {A B} (f : A → option B) (l : list A) : (length (omap f l) ≤ length l)%nat.
Proof. induction l as [|x l IH]; [done|]. cbn [omap list_omap length]. destruct (f x); cbn [length]; lia. Qed.

(** [SELECT f(x) FROM l] for the first row that has one. *)
Lemma head_omap_None {A B} (f : A → option B) (l : list A) :
  head (omap f l) = None ↔ ∀ x, x ∈ l → f x = None.
Proof.
  induction l as [|x l IH]; [split; [intros _ y Hy; by apply not_elem_of_nil in Hy|done]|].
  cbn [omap list_omap]. destruct (f x) eqn:E; cbn [head].
  - split; [done|]. intros H. specialize (H x (list_elem_of_here _ _)). congruence.
  - rewrite IH. split; [|intros H y Hy; apply H; by right].
    intros H y [->|Hy]%elem_of_cons; [done|by apply H].
Qed.

Lemma head_omap_Some {A B} (f : A → option B) (l : list A) b :
  head (omap f l) = Some b → ∃ x, x ∈ l ∧ f x = Some b.
Proof.
  induction l as [|x l IH]; [done|]. cbn [omap list_omap]. destruct (f x) eqn:E; cbn [head].
  - intros [= <-]. exists x. split; [left|done].
  - intros (y & Hy & Hf)%IH. exists y. split; [by right|done].
Qed.

Section OrderBy.
Context {A : Type} (key : A → sort_key).

Definition by_key (x y : A) : Prop := key_le (key x) (key y).

#[global] Instance by_key_dec : RelDecision by_key.
Proof. intros x y. unfold by_key. apply _. Defined.
#[global] Instance by_key_total : Total by_key.
Proof. intros x y. apply key_le_total. Qed.
#[global] Instance by_key_trans : Transitive by_key.
Proof. intros x y z. apply key_le_trans. Qed.

Definition order_by (l : list A) : list A := merge_sort by_key l.

(** [SELECT ... WHERE p ORDER BY key LIMIT n] *)
Definition select_page (p : A → bool) (n : nat) (l : list A) : list A :=
  take n (order_by (filter (λ x, p x = true) l)).

(** Rows are told apart by their sort key: the key of every modelled ORDER BY
    ends in (or is) a unique column. *)
Definition keys_unique (l : list A) : Prop :=
  ∀ x y, x ∈ l → y ∈ l → key x = key y → x = y.

Lemma order_by_Permutation l : order_by l ≡ₚ l.
Proof. apply merge_sort_Permutation. Qed.

Lemma elem_of_order_by l x : x ∈ order_by l ↔ x ∈ l.
Proof. by rewrite (order_by_Permutation l). Qed.

Lemma order_by_sorted l : StronglySorted by_key (order_by l).
Proof. apply StronglySorted_merge_sort; apply _. Qed.

Lemma by_key_antisym l x y :
  keys_unique l → x ∈ l → y ∈ l → by_key x y → by_key y x → x = y.
Proof.
  intros Hu Hx Hy H1 H2. apply Hu; [done..|].
  unfold by_key, key_le in *. destruct (key x), (key y); simpl in *. f_equal; lia.
Qed.

Lemma keys_unique_mono l l' : (∀ x, x ∈ l' → x ∈ l) → keys_unique l → keys_unique l'.
Proof. unfold keys_unique. naive_solver. Qed.

Lemma StronglySorted_filter_by (P : A → Prop) `{!∀ x, Decision (P x)} (l : list A) :
  StronglySorted by_key l → StronglySorted by_key (filter P l).
Proof.
  induction 1 as [|x l Hl IH Hx]; [constructor|]. rewrite filter_cons.
  case_decide; [|done]. constructor; [done|].
  apply Forall_forall. intros y [_ Hy]%list_elem_of_filter.
  rewrite Forall_forall in Hx. auto.
Qed.

(** Filtering and sorting commute when the keys are unique. *)
Lemma order_by_filter (P : A → Prop) `{!∀ x, Decision (P x)} (l : list A) :
  keys_unique l → order_by (filter P l) = filter P (order_by l).
Proof.
  intros Hu. eapply (StronglySorted_unique_strong by_key).
  - intros x y. rewrite elem_of_order_by, !list_elem_of_filter, elem_of_order_by.
    intros [_ ?] [_ ?]. by eapply by_key_antisym.
  - apply order_by_sorted.
  - apply StronglySorted_filter_by, order_by_sorted.
  - by rewrite !order_by_Permutation.
Qed.

End OrderBy.

(** ** Keyset pagination

    [WHERE p AND key > after ORDER BY key LIMIT n]: the shape of every paged
    query. A descending order is an ascending one on negated keys. *)
Section Keyset.
Context {A : Type} (key : A → sort_key) (p : A → bool).

Definition after_key (after : option sort_key) (x : A) : bool :=
  match after with
  | None => true
  | Some k => bool_decide (key_lt k (key x))
  end.

Definition keyset_page (after : option sort_key) (n : nat) (l : list A) : list A :=
  select_page key (λ x, p x && after_key after x) n l.

(** The client of a paged query: ask for the page after the last row seen
    until an empty page comes back. *)
Fixpoint all_pages (fuel : nat) (after : option sort_key) (n : nat) (l : list A) : list A :=
  match fuel with
  | O => []
  | S fuel' =>
      let page := keyset_page after n l in
      match last page with
      | None => []
      | Some x => page ++ all_pages fuel' (Some (key x)) n l
      end
  end.

Lemma keyset_page_eq after n l : keys_unique key l →
  keyset_page after n l
  = take n (filter (λ x, after_key after x = true) (order_by key (filter (λ x, p x = true) l))).
Proof.
  intros Hu. unfold keyset_page, select_page. f_equal.
  rewrite !order_by_filter by done. rewrite list_filter_filter.
  apply list_filter_iff. intros x. rewrite andb_true_iff. tauto.
Qed.

Lemma keyset_page_length after n l : (length (keyset_page after n l) ≤ n)%nat.
Proof. unfold keyset_page, select_page. rewrite length_take. lia. Qed.

Lemma keyset_page_elem after n l x : x ∈ keyset_page after n l →
  x ∈ l ∧ p x = true ∧ after_key after x = true.
Proof.
  unfold keyset_page, select_page. intros Hx%elem_of_take_elem.
  rewrite elem_of_order_by, list_elem_of_filter, andb_true_iff in Hx. tauto.
Qed.

(** In a sorted list with unique keys, the rows after the last row of a
    prefix are the rest of the list. *)
Lemma filter_after_last s n x : StronglySorted (by_key key) s → keys_unique key s → NoDup s →
  last (take n s) = Some x →
  filter (λ y, after_key (Some (key x)) y = true) s = drop n s.
Proof.
  intros Hs Hu Hnd [l' Hl']%last_Some.
  rewrite <- (take_drop n s) in Hs, Hu, Hnd. rewrite <- (take_drop n s) at 1.
  rewrite Hl' in *. rewrite filter_app.
  apply NoDup_app in Hnd as (_ & Hnd & _).
  rewrite filter_none, filter_all; [done|..].
  - intros y Hy. apply bool_decide_eq_true_2.
    assert (Hxy : by_key key x y) by (eapply StronglySorted_app_1_elem_of; set_solver).
    destruct (decide (key_lt (key x) (key y))) as [|Hn]; [done|exfalso].
    apply (Hnd x); [set_solver|]. replace x with y; [done|].
    eapply by_key_antisym; [exact Hu|set_solver..| |exact Hxy].
    unfold by_key, key_le, key_lt in *. lia.
  - intros y Hy. simpl. rewrite bool_decide_eq_true.
    assert (key_le (key y) (key x)); [|unfold key_le, key_lt in *; lia].
    apply elem_of_app in Hy as [Hy| ->%list_elem_of_singleton]; [|unfold key_le; lia].
    apply StronglySorted_app_1_l in Hs.
    eapply (StronglySorted_app_1_elem_of (by_key key)); [exact Hs|done|set_solver].
Qed.

Lemma filter_after_trans k x (s : list A) : key_lt k (key x) →
  filter (λ y, after_key (Some (key x)) y = true) (filter (λ y, after_key (Some k) y = true) s)
  = filter (λ y, after_key (Some (key x)) y = true) s.
Proof.
  intros Hk. rewrite list_filter_filter. apply list_filter_iff. intros y. simpl.
  rewrite !bool_decide_eq_true. unfold key_lt in *. lia.
Qed.

(** Following the cursors visits every selected row exactly once, in order. *)
Lemma all_pages_complete fuel after n l : keys_unique key l → NoDup l → (0 < n)%nat →
  let rest := filter (λ x, after_key after x = true) (order_by key (filter (λ x, p x = true) l)) in
  (length rest < fuel)%nat → all_pages fuel after n l = rest.
Proof.
  intros Hu Hnd Hn. revert after. induction fuel as [|fuel IH]; intros after rest Hf; [lia|].
  simpl. rewrite keyset_page_eq by done. fold rest.
  destruct (last (take n rest)) as [x|] eqn:Hlast.
  2:{ apply last_None in Hlast. destruct rest; [done|]. destruct n; [lia|done]. }
  assert (Hx : x ∈ rest) by (eapply elem_of_take_elem, last_Some_elem_of; eauto).
  assert (Hs : filter (λ y, after_key (Some (key x)) y = true) rest = drop n rest).
  { apply filter_after_last; [..|done].
    - apply StronglySorted_filter_by, order_by_sorted.
    - eapply keys_unique_mono; [|exact Hu]. intros y Hy. unfold rest in Hy.
      rewrite list_elem_of_filter, elem_of_order_by, list_elem_of_filter in Hy. tauto.
    - apply NoDup_filter. rewrite order_by_Permutation. by apply NoDup_filter. }
  rewrite <- (take_drop n rest) at 2. f_equal.
  assert (Hnext : filter (λ y, after_key (Some (key x)) y = true)
            (order_by key (filter (λ y, p y = true) l)) = drop n rest).
  { rewrite <- Hs. unfold rest. destruct after as [k|].
    - rewrite filter_after_trans; [done|]. unfold rest in Hx.
      apply list_elem_of_filter in Hx as [Hx _]. by apply bool_decide_eq_true in Hx.
    - f_equal. symmetry. by apply filter_all. }
  rewrite IH; rewrite Hnext; [done|]. rewrite length_drop.
  destruct rest; [set_solver|]. simpl in *. lia.
Qed.
End Keyset.

(** ** Reasoning about transactions and coroutines *)

Create HintDb exagent.

Section TxFacts.
Context {S : Type}.

Lemma tx_bind_Ok {A B} (m : tx S A) (f : A → tx S B) s b s2 :
  (m ≫= f) s = Ok (b, s2) ↔ ∃ a s1, m s = Ok (a, s1) ∧ f a s1 = Ok (b, s2).
Proof.
  unfold mbind, tx_bind. destruct (m s) as [[a s1]|e]; naive_solver.
Qed.

Lemma tx_guard_Ok ok e (s s' : S) u :
  tx_guard ok e s = Ok (u, s') ↔ ok = true ∧ s' = s.
Proof. unfold tx_guard. destruct ok, u; naive_solver. Qed.

(** A transaction preserves [I] when every commit does. *)
Definition preserves (I : S → Prop) {A} (m : tx S A) : Prop :=
  ∀ s a s', I s → m s = Ok (a, s') → I s'.

Lemma preserves_ret I {A} (a : A) : preserves I (mret a).
Proof. intros s x s' ? [= _ <-]. done. Qed.
Lemma preserves_raise I {A} e : preserves I (@tx_raise S A e).
Proof. intros s x s' ? [=]. Qed.
Lemma preserves_guard I ok e : preserves I (tx_guard ok e).
Proof. intros s x s' ? [_ ->]%tx_guard_Ok. done. Qed.
Lemma preserves_get I : preserves I tx_get.
Proof. intros s x s' ? [= _ <-]. done. Qed.
Lemma preserves_modify I f : (∀ s, I s → I (f s)) → preserves I (tx_modify f).
Proof. intros Hf s x s' ? [= _ <-]. auto. Qed.
Lemma preserves_bind I {A B} (m : tx S A) (f : A → tx S B) :
  preserves I m → (∀ a, preserves I (f a)) → preserves I (m ≫= f).
Proof.
  intros Hm Hf s b s' HI (a & s1 & H1 & H2)%tx_bind_Ok.
  eapply Hf; [|exact H2]. by eapply Hm.
Qed.
End TxFacts.

#[export] Hint Resolve preserves_ret preserves_raise preserves_guard preserves_get
  preserves_modify preserves_bind : exagent.

(** Every commit of [m] stays within [R]. *)
Definition within {S A} (R : relation S) (m : tx S A) : Prop :=
  ∀ d a d', m d = Ok (a, d') → R d d'.

Section Within.
Context {S : Type} (R : relation S) `{!PreOrder R}.

Lemma within_ret {A} (a : A) : within R (mret a).
Proof using Type*. intros d x d' [= _ <-]. reflexivity. Qed.
Lemma within_raise {A} e : within R (@tx_raise S A e).
Proof using Type. intros d x d' [=]. Qed.
Lemma within_guard ok e : within R (tx_guard ok e).
Proof using Type*. intros d x d' [_ ->]%tx_guard_Ok. reflexivity. Qed.
Lemma within_get : within R tx_get.
Proof using Type*. intros d x d' [= _ <-]. reflexivity. Qed.
Lemma within_modify f : (∀ d, R d (f d)) → within R (tx_modify f).
Proof using Type. intros Hf d x d' [= _ <-]. apply Hf. Qed.
Lemma within_bind {A B} (m : tx S A) (f : A → tx S B) :
  within R m → (∀ a, within R (f a)) → within R (m ≫= f).
Proof using Type*.
  intros Hm Hf d b d' (a & d1 & H1 & H2)%tx_bind_Ok.
  etransitivity; [by eapply Hm|by eapply Hf].
Qed.
Lemma within_read {A} (g : S → result (A * S)) : (∀ d a d', g d = Ok (a, d') → d' = d) → within R g.
Proof using Type*. intros Hg d a d' ->%Hg. reflexivity. Qed.
End Within.

Ltac within_split :=
  repeat first
    [ progress cbv zeta
    | lazymatch goal with
      | |- within _ (mbind _ _) => apply within_bind; [apply _| |intros ?]
      | |- within _ (match ?x with _ => _ end) => destruct x
      | |- within _ (mret _) => apply within_ret; apply _
      | |- within _ (tx_raise _) => apply within_raise
      | |- within _ (tx_guard _ _) => apply within_guard; apply _
      | |- within _ tx_get => apply within_get; apply _
      end ].

Section ProcFacts.
Context {W : Type} (R : relation W) `{!PreOrder R}.

(** Whatever a coroutine does, normally or by raising, stays within [R]. *)
Definition stays {A} (m : proc W A) : Prop := ∀ w, R w (m w).2.

Lemma stays_ret {A} (a : A) : stays (mret a).
Proof. intros w. reflexivity. Qed.
Lemma stays_throw {A} e : stays (@throw W A e).
Proof. intros w. reflexivity. Qed.
Lemma stays_guard ok e : stays (guard_or ok e).
Proof. intros w. unfold guard_or. destruct ok; reflexivity. Qed.
Lemma stays_lift {A} (r : result A) : stays (lift_result r).
Proof. intros w. reflexivity. Qed.
Lemma stays_gets {A} (f : W → A) : stays (gets f).
Proof. intros w. reflexivity. Qed.
Lemma stays_bind {A B} (m : proc W A) (f : A → proc W B) :
  stays m → (∀ a, stays (f a)) → stays (m ≫= f).
Proof.
  intros Hm Hf w. unfold mbind, proc_bind. specialize (Hm w).
  destruct (m w) as [[a|e] w'] eqn:E; simpl in *; [|done].
  etransitivity; [exact Hm|apply Hf].
Qed.
Lemma stays_try {A} (m : proc W A) h :
  stays m → (∀ e, stays (h e)) → stays (try_except m h).
Proof.
  intros Hm Hh w. unfold try_except. specialize (Hm w).
  destruct (m w) as [[a|e] w'] eqn:E; simpl in *; [done|].
  etransitivity; [exact Hm|apply Hh].
Qed.
End ProcFacts.

Lemma proc_bind_Ok {W A B} (m : proc W A) (f : A → proc W B) w b w2 :
  (m ≫= f) w = (Ok b, w2) ↔ ∃ a w1, m w = (Ok a, w1) ∧ f a w1 = (Ok b, w2).
Proof. unfold mbind, proc_bind. destruct (m w) as [[a|e] w1]; naive_solver. Qed.

(** Running the first step of a coroutine that succeeds. *)
Lemma proc_bind_run {W A B} (m : proc W A) (f : A → proc W B) w a w1 : m w = (Ok a, w1) → (m ≫= f) w = f a w1.
Proof. intros E. unfold mbind, proc_bind. by rewrite E. Qed.
Lemma try_except_run {W A} (m : proc W A) h w a w1 : m w = (Ok a, w1) → try_except m h w = (Ok a, w1).
Proof. intros E. unfold try_except. by rewrite E. Qed.

#[export] Hint Resolve stays_ret stays_throw stays_guard stays_lift stays_gets
  stays_bind stays_try : exagent.

(** Invert a run that committed, statement by statement. *)
Ltac tx_inv :=
  repeat match goal with
  | H : (_ ≫= _) _ = Ok (_, _) |- _ =>
      let a := fresh "a" in let s := fresh "s" in let H' := fresh "Hrun" in
      apply tx_bind_Ok in H as (a & s & H' & H)
  | H : tx_guard _ _ _ = Ok (_, _) |- _ => apply tx_guard_Ok in H as [? ->]
  | H : tx_get _ = Ok (_, _) |- _ => injection H as <- <-
  | H : tx_modify _ _ = Ok (_, _) |- _ => first [injection H as <- <- | injection H as <-]
  | H : mret _ _ = Ok (_, _) |- _ => inversion H; subst; clear H
  | H : tx_raise _ _ = Ok (_, _) |- _ => discriminate H
  | H : Err _ = Ok _ |- _ => discriminate H
  | H : Ok _ = Err _ |- _ => discriminate H
  end.

(** Case analysis on every [match], [if] and [decide] of a hypothesis. *)
Ltac split_run H :=
  repeat (first
    [ progress simplify_eq
    | match type of H with
      | context [match ?x with _ => _ end] =>
          lazymatch x with
          | context [match _ with _ => _ end] => fail
          | _ => destruct x eqn:?
          end
      end ]).

(** ** Tables

    A table whose rows belong to a namespace is a map from
    [(namespace, id)]; [rows] is [WHERE namespace = ns]. *)
Section Tables.
Context {V : Type}.
Implicit Types t : gmap (string * uuid) V.

Definition rows (ns : string) t : list (uuid * V) :=
  omap (λ kv, if decide (kv.1.1 = ns) then Some (kv.1.2, kv.2) else None) (map_to_list t).

Lemma elem_of_rows ns t k v : (k, v) ∈ rows ns t ↔ t !! (ns, k) = Some v.
Proof.
  unfold rows. rewrite list_elem_of_omap, <- elem_of_map_to_list. split.
  - intros ([[n k'] v'] & Hin & Heq). simpl in Heq. case_decide; naive_solver.
  - intros H. exists ((ns, k), v). simpl. rewrite decide_True by done. done.
Qed.

Lemma rows_NoDup ns t : NoDup (rows ns t).
Proof.
  unfold rows. pose proof (NoDup_map_to_list t) as H. induction H as [|[[n k] v] l Hx Hl IH]; [constructor|].
  simpl. case_decide; [|done]. subst. constructor; [|done]. intros Hin. apply Hx.
  apply list_elem_of_omap in Hin as ([[n' k'] v'] & Hin & Heq). simpl in Heq.
  case_decide; naive_solver.
Qed.

Lemma rows_id_unique ns t k v v' : (k, v) ∈ rows ns t → (k, v') ∈ rows ns t → v = v'.
Proof. rewrite !elem_of_rows. congruence. Qed.

Lemma paged_rows_length (ns : string) t (key : uuid * V → sort_key) (p : uuid * V → bool) after :
  (length (filter (λ x, after_key key after x = true)
     (order_by key (filter (λ x, p x = true) (rows ns t)))) ≤ size t)%nat.
Proof.
  etransitivity; [apply filter_length_le|]. rewrite (Permutation_length (order_by_Permutation _ _)).
  etransitivity; [apply filter_length_le|]. unfold rows. rewrite <- length_map_to_list.
  apply omap_length_le.
Qed.

(** [UPDATE t SET f WHERE p] *)
Definition update_where {K} `{Countable K} {V'} (p : K → V' → bool) (f : V' → V')
    (t : gmap K V') : gmap K V' :=
  map_imap (λ k v, Some (if p k v then f v else v)) t.

Lemma lookup_update_where {K} `{Countable K} {V'} (p : K → V' → bool) f (t : gmap K V') k :
  update_where p f t !! k = (λ v, if p k v then f v else v) <$> t !! k.
Proof. unfold update_where. rewrite map_lookup_imap. by destruct (t !! k). Qed.
End Tables.

Lemma lookup_alter_Some {K} `{Countable K} {V} (f : V → V) (t : gmap K V) i j v :
  alter f i t !! j = Some v ↔ ∃ v0, t !! j = Some v0 ∧ v = (if decide (i = j) then f v0 else v0).
Proof. rewrite lookup_alter. case_decide; subst; destruct (t !! j); naive_solver. Qed.

Lemma lookup_update_where_Some {K} `{Countable K} {V} (p : K → V → bool) f (t : gmap K V) k v :
  update_where p f t !! k = Some v ↔ ∃ v0, t !! k = Some v0 ∧ v = (if p k v0 then f v0 else v0).
Proof. rewrite lookup_update_where. destruct (t !! k); naive_solver. Qed.

(** Every row of [t] is still in [t'], related by [Q] to what it was. *)
Section Keeps.
Context {K V : Type} `{Countable K} (Q : relation V) `{!PreOrder Q}.
Implicit Types t : gmap K V.

Definition keeps (t t' : gmap K V) : Prop :=
  ∀ k v, t !! k = Some v → ∃ v', t' !! k = Some v' ∧ Q v v'.

#[global] Instance keeps_preorder : PreOrder keeps.
Proof using Type*.
  split; [intros t k v Hv; exists v; split; [done|reflexivity]|].
  intros t1 t2 t3 H12 H23 k v Hv. destruct (H12 k v Hv) as (v' & Hv' & ?).
  destruct (H23 k v' Hv') as (v'' & ? & ?). exists v''. split; [done|]. by etransitivity.
Qed.

Lemma keeps_alter f k t : (∀ v, Q v (f v)) → keeps t (alter f k t).
Proof using Type*.
  intros Hf j v Hv. exists (if decide (k = j) then f v else v).
  split; [apply lookup_alter_Some; eauto|]. case_decide; [apply Hf|reflexivity].
Qed.

Lemma keeps_insert k v t : t !! k = None → keeps t (<[k := v]> t).
Proof using Type*.
  intros Hn j w Hw. exists w. split; [|reflexivity]. rewrite lookup_insert_ne; [done|congruence].
Qed.

(** A row is replaced by a related one. *)
Lemma keeps_put k v v' t : t !! k = Some v → Q v v' → keeps t (<[k := v']> t).
Proof using Type*.
  intros Hk Hq j w Hw. rewrite lookup_insert. case_decide; subst; [|exists w; split; [done|reflexivity]].
  exists v'. split; [done|congruence].
Qed.

Lemma keeps_update_where p f t : (∀ k v, p k v = true → Q v (f v)) → keeps t (update_where p f t).
Proof using Type*.
  intros Hf k v Hv. exists (if p k v then f v else v).
  split; [apply lookup_update_where_Some; eauto|]. destruct (p k v) eqn:E; [by eapply Hf|reflexivity].
Qed.
End Keeps.

(** ** A logic for coroutines

    [wp m Q w]: running [m] from [w] ends, normally or by raising, in a state
    that satisfies [Q]. *)
Section Wp.
Context {W : Type}.

Definition wp {A} (m : proc W A) (Q : result A → W → Prop) (w : W) : Prop := Q (m w).1 (m w).2.

Lemma wp_run {A} (m : proc W A) Q w r w' : wp m Q w → m w = (r, w') → Q r w'.
Proof. unfold wp. intros HQ Hm. by rewrite Hm in HQ. Qed.

Lemma run_wp {A} (m : proc W A) Q w : (∀ r w', m w = (r, w') → Q r w') → wp m Q w.
Proof. unfold wp. intros HQ. apply HQ. by destruct (m w). Qed.

Lemma wp_mono {A} (m : proc W A) (Q Q' : result A → W → Prop) w :
  wp m Q w → (∀ r w', Q r w' → Q' r w') → wp m Q' w.
Proof. unfold wp. auto. Qed.

Lemma wp_and {A} (m : proc W A) (Q Q' : result A → W → Prop) w :
  wp m Q w → wp m Q' w → wp m (λ r w', Q r w' ∧ Q' r w') w.
Proof. unfold wp. auto. Qed.

Lemma wp_ret {A} (a : A) (Q : result A → W → Prop) w : Q (Ok a) w → wp (mret a) Q w.
Proof. done. Qed.
Lemma wp_throw {A} e (Q : result A → W → Prop) w : Q (Err e) w → wp (throw e) Q w.
Proof. done. Qed.
Lemma wp_lift {A} (x : result A) (Q : result A → W → Prop) w : Q x w → wp (lift_result x) Q w.
Proof. done. Qed.
Lemma wp_gets {A} (f : W → A) (Q : result A → W → Prop) w : Q (Ok (f w)) w → wp (gets f) Q w.
Proof. done. Qed.
Lemma wp_modify (f : W → W) (Q : result unit → W → Prop) w : Q (Ok tt) (f w) → wp (modify f) Q w.
Proof. done. Qed.
Lemma wp_guard ok e (Q : result unit → W → Prop) w :
  (ok = true → Q (Ok tt) w) → (ok = false → Q (Err e) w) → wp (guard_or ok e) Q w.
Proof. unfold wp, guard_or. destruct ok; auto. Qed.

Lemma wp_bind {A B} (m : proc W A) (f : A → proc W B) Q w :
  wp m (λ r w', match r with Ok a => wp (f a) Q w' | Err e => Q (Err e) w' end) w → wp (m ≫= f) Q w.
Proof. unfold wp, mbind, proc_bind. by destruct (m w) as [[a|e] w']. Qed.

Lemma wp_try {A} (m : proc W A) h Q w :
  wp m (λ r w', match r with Ok a => Q (Ok a) w' | Err e => wp (h e) Q w' end) w →
  wp (try_except m h) Q w.
Proof. unfold wp, try_except. by destruct (m w) as [[a|e] w']. Qed.

Lemma wp_finally {A} (m : proc W A) f Q w :
  wp m (λ r w', wp f (λ r' w'', match r' with Ok _ => Q r w'' | Err e => Q (Err e) w'' end) w') w →
  wp (try_finally m f) Q w.
Proof. unfold wp, try_finally. destruct (m w) as [r w']. simpl. by destruct (f w') as [[|] ?]. Qed.
End Wp.

(** One step of a coroutine whose head is a bind, a [try] or a pure step. *)
Ltac wp_step :=
  lazymatch goal with
  | |- wp (mbind _ _) _ _ => apply wp_bind
  | |- wp (try_except _ _) _ _ => apply wp_try
  | |- wp (try_finally _ _) _ _ => apply wp_finally
  | |- wp (mret _) _ _ => apply wp_ret
  | |- wp (throw _) _ _ => apply wp_throw
  | |- wp (lift_result _) _ _ => apply wp_lift
  | |- wp (gets _) _ _ => apply wp_gets
  | |- wp (modify _) _ _ => apply wp_modify
  | |- wp (guard_or _ _) _ _ => apply wp_guard; intros ?
  end.
