(* ===== verification/Text.v ===== *)
(** * Text encodings used on the wire

    The decimal and UUID texts that [worker/outbox.py] writes into a command
    envelope with [str] and [worker/dispatcher.py] reads back with [int] and
    [UUID] (Python's own functions). *)

From stdpp Require Import base strings list.
From Stdlib Require Import Ascii ZArith Lia.
From S2P Require Import Prelude.
Local Open Scope N_scope.

(** ** Digits *)

Definition digit_char (d : N) : Ascii.ascii :=
  if d <? 10 then Ascii.ascii_of_N (48 + d) else Ascii.ascii_of_N (87 + d).

Definition char_digit (c : Ascii.ascii) : option N :=
  let n := Ascii.N_of_ascii c in
  if (48 <=? n) && (n <=? 57) then Some (n - 48)
  else if (97 <=? n) && (n <=? 122) then Some (n - 87)
  else if (65 <=? n) && (n <=? 90) then Some (n - 55)
  else None.

(** The digits of [n], most significant first, put in front of [acc]. *)
Fixpoint put_digits (base : N) (fuel : nat) (n : N) (acc : string) : string :=
  match fuel with
  | O => acc
  | S fuel' =>
      let acc' := String (digit_char (n mod base)) acc in
      if n / base =? 0 then acc' else put_digits base fuel' (n / base) acc'
  end.

(** [str(n)] for an [int]. *)
Definition N_str (n : N) : string := put_digits 10 (S (N.to_nat (N.log2 n))) n "".
Definition int_str (z : Z) : string :=
  match z with
  | Z.neg p => String "-"%char (N_str (N.pos p))
  | _ => N_str (Z.to_N z)
  end.

(** Digits with single underscores between them, as [int] accepts. *)
Fixpoint read_digits (base v : N) (sep : bool) (s : string) : option N :=
  match s with
  | EmptyString => if sep then None else Some v
  | String c s' =>
      if decide (c = "_"%char) then (if sep then None else read_digits base v true s')
      else match char_digit c with
           | Some d => if d <? base then read_digits base (v * base + d) false s' else None
           | None => None
           end
  end.

Fixpoint lstrip_by (p : Ascii.ascii → bool) (s : string) : string :=
  match s with
  | String c s' => if p c then lstrip_by p s' else s
  | EmptyString => EmptyString
  end.
Fixpoint rstrip_by (p : Ascii.ascii → bool) (s : string) : string :=
  match s with
  | EmptyString => EmptyString
  | String c s' =>
      match rstrip_by p s' with
      | EmptyString => if p c then EmptyString else String c EmptyString
      | r => String c r
      end
  end.
(** [s.strip()] and [s.strip('{}')] *)
Definition strip_by (p : Ascii.ascii → bool) (s : string) : string := rstrip_by p (lstrip_by p s).
Definition strip : string → string := strip_by is_space.
Definition is_brace (c : Ascii.ascii) : bool := bool_decide (c = "{"%char ∨ c = "}"%char).

(** [int(s)] (base ten) for ASCII text; [None] is its [ValueError]. *)
Definition py_int (s : string) : option Z :=
  match strip s with
  | String c s' =>
      if decide (c = "-"%char) then (λ n, - Z.of_N n)%Z <$> read_digits 10 0 true s'
      else if decide (c = "+"%char) then Z.of_N <$> read_digits 10 0 true s'
      else Z.of_N <$> read_digits 10 0 true (String c s')
  | EmptyString => None
  end.

(** ** UUIDs *)

Fixpoint fixed_digits (base : N) (width : nat) (n : N) (acc : string) : string :=
  match width with
  | O => acc
  | S w => fixed_digits base w (n / base) (String (digit_char (n mod base)) acc)
  end.

(** [str(uuid)]: [%032x] cut as 8-4-4-4-12. *)
Definition uuid_str (u : uuid) : string :=
  let h := fixed_digits 16 32 u "" in
  String.substring 0 8 h +:+ "-" +:+ String.substring 8 4 h +:+ "-" +:+
  String.substring 12 4 h +:+ "-" +:+ String.substring 16 4 h +:+ "-" +:+
  String.substring 20 12 h.

Fixpoint remove_char (c : Ascii.ascii) (s : string) : string :=
  match s with
  | EmptyString => EmptyString
  | String c' s' => if decide (c = c') then remove_char c s' else String c' (remove_char c s')
  end.

(** [s.replace(pat, '')] *)
Fixpoint remove_sub (pat : string) (skip : nat) (s : string) : string :=
  match s with
  | EmptyString => EmptyString
  | String c s' =>
      match skip with
      | S k => remove_sub pat k s'
      | O => if String.prefix pat s then remove_sub pat (String.length pat - 1) s'
             else String c (remove_sub pat 0 s')
      end
  end.

(** [int(hex, 16)]: white space, a sign, an optional [0x] and underscores are
    accepted, as in base ten. *)
Definition py_int16 (s : string) : option Z :=
  let body (s : string) : option N :=
    match s with
    | String a (String b s') =>
        if decide (a = "0"%char ∧ (b = "x"%char ∨ b = "X"%char))
        then match s' with
             | String "_"%char s'' => read_digits 16 0 true s''
             | _ => read_digits 16 0 true s'
             end
        else read_digits 16 0 true s
    | _ => read_digits 16 0 true s
    end in
  match strip s with
  | String c s' =>
      if decide (c = "-"%char) then (λ n, - Z.of_N n)%Z <$> body s'
      else if decide (c = "+"%char) then Z.of_N <$> body s'
      else Z.of_N <$> body (String c s')
  | EmptyString => None
  end.

(** [UUID(s)]; [None] is its [ValueError]. *)
Definition uuid_parse (s : string) : option uuid :=
  let h := remove_char "-"%char (strip_by is_brace (remove_sub "uuid:" 0 (remove_sub "urn:" 0 s))) in
  if decide (String.length h = 32%nat) then
    match py_int16 h with
    | Some z => if (0 <=? z)%Z && (z <? 2 ^ 128)%Z then Some (Z.to_N z) else None
    | None => None
    end
  else None.

Example uuid_text : uuid_str 5 = "00000000-0000-0000-0000-000000000005" ∧
  uuid_parse (uuid_str (2 ^ 127 + 12345)) = Some (2 ^ 127 + 12345) ∧
  py_int (int_str 120) = Some 120%Z ∧ py_int " -1_0 " = Some (-10)%Z ∧ py_int "1__0" = None.
Proof. vm_compute. done. Qed.

(** ** Round trips *)

Lemma char_digit_digit_char d : d < 36 → char_digit (digit_char d) = Some d.
Proof.
  intros Hd. unfold digit_char, char_digit. destruct (N.ltb_spec d 10).
  - rewrite Ascii.N_ascii_embedding by lia.
    rewrite (proj2 (N.leb_le 48 (48 + d))), (proj2 (N.leb_le (48 + d) 57)) by lia.
    simpl. f_equal. lia.
  - rewrite Ascii.N_ascii_embedding by lia.
    rewrite (proj2 (N.leb_gt (87 + d) 57)) by lia. rewrite andb_false_r.
    rewrite (proj2 (N.leb_le 97 (87 + d))), (proj2 (N.leb_le (87 + d) 122)) by lia.
    simpl. f_equal. lia.
Qed.

(** A digit is none of the characters the parsers treat specially. *)
Lemma digit_char_neq d c : d < 36 → char_digit c = None → digit_char d ≠ c.
Proof. intros Hd Hc <-. by rewrite char_digit_digit_char in Hc. Qed.

Lemma digit_char_not_space d : d < 36 → is_space (digit_char d) = false.
Proof.
  intros Hd. unfold is_space, digit_char.
  destruct (N.ltb_spec d 10); rewrite Ascii.N_ascii_embedding by lia;
    rewrite orb_false_iff, !andb_false_iff, !N.leb_gt; lia.
Qed.

Lemma read_digit base v sep d s : base ≤ 36 → d < base →
  read_digits base v sep (String (digit_char d) s) = read_digits base (v * base + d) false s.
Proof.
  intros Hb Hd. simpl. rewrite decide_False by (apply digit_char_neq; [lia|done]).
  rewrite char_digit_digit_char by lia. by rewrite (proj2 (N.ltb_lt d base)).
Qed.

Lemma read_put_digits base fuel n acc : 1 < base → base ≤ 36 → n < 2 ^ N.of_nat fuel →
  read_digits base 0 true (put_digits base fuel n acc)
  = read_digits base n (bool_decide (fuel = 0%nat)) acc.
Proof.
  intros Hb1 Hb2. revert n acc. induction fuel as [|fuel IH]; intros n acc Hn.
  - simpl in *. replace n with 0 by lia. done.
  - cbn [put_digits]. pose proof (N.mod_lt n base). pose proof (N.div_mod n base).
    destruct (N.eqb_spec (n / base) 0) as [Hz|Hz].
    + rewrite read_digit by lia. rewrite bool_decide_eq_false_2 by done. f_equal. lia.
    + assert (n / base < 2 ^ N.of_nat fuel).
      { apply N.Div0.div_lt_upper_bound. rewrite Nat2N.inj_succ, N.pow_succ_r' in Hn. nia. }
      rewrite IH, read_digit by (done || lia).
      rewrite bool_decide_eq_false_2 by done. f_equal. lia.
Qed.

Lemma put_digits_head base fuel n acc : 1 < base → base ≤ 36 → fuel ≠ 0%nat →
  ∃ d s, d < 36 ∧ put_digits base fuel n acc = String (digit_char d) s.
Proof.
  intros Hb1 Hb2. revert n acc. induction fuel as [|fuel IH]; intros n acc Hf; [done|].
  cbn [put_digits]. pose proof (N.mod_lt n base).
  destruct (n / base =? 0); [exists (n mod base); eexists; split; [lia|done]|].
  destruct fuel; [|by apply IH]. exists (n mod base); eexists; split; [lia|done].
Qed.

Definition newline : Ascii.ascii := "010"%char.

Lemma string_app_assoc (s t u : string) : (s +:+ t) +:+ u = s +:+ (t +:+ u).
Proof. induction s as [|c s IH]; [done|]. change (String c ((s +:+ t) +:+ u) = String c (s +:+ (t +:+ u))). by rewrite IH. Qed.
Lemma string_app_nil (s : string) : s +:+ "" = s.
Proof. induction s as [|c s IH]; [done|]. change (String c (s +:+ "") = String c s). by rewrite IH. Qed.

Fixpoint string_all (P : Ascii.ascii → Prop) (s : string) : Prop :=
  match s with EmptyString => True | String c s' => P c ∧ string_all P s' end.

Lemma string_all_impl (P Q : Ascii.ascii → Prop) s :
  (∀ c, P c → Q c) → string_all P s → string_all Q s.
Proof. intros H. induction s; simpl; naive_solver. Qed.

Lemma string_all_app P s t : string_all P (s +:+ t) ↔ string_all P s ∧ string_all P t.
Proof. induction s as [|c s IH]; simpl; [naive_solver|]. change (String c s +:+ t) with (String c (s +:+ t)). simpl. naive_solver. Qed.

Lemma strip_by_id p s : string_all (λ c, p c = false) s → strip_by p s = s.
Proof.
  unfold strip_by. intros H. replace (lstrip_by p s) with s.
  - induction s as [|c s IH]; simpl in *; [done|]. destruct H as [Hc Hs].
    rewrite IH by done. destruct s; [by rewrite Hc|done].
  - destruct s as [|c s]; simpl in *; [done|]. by rewrite (proj1 H).
Qed.

Definition is_digit (base : N) (c : Ascii.ascii) : Prop := ∃ d, d < base ∧ c = digit_char d.

Lemma put_digits_all base fuel n acc : 1 < base → string_all (is_digit base) acc →
  string_all (is_digit base) (put_digits base fuel n acc).
Proof.
  intros Hb. revert n acc. induction fuel as [|fuel IH]; intros n acc Ha; [done|].
  cbn [put_digits]. pose proof (N.mod_lt n base).
  assert (string_all (is_digit base) (String (digit_char (n mod base)) acc)).
  { split; [|done]. exists (n mod base). split; [lia|done]. }
  destruct (n / base =? 0); [done|]. by apply IH.
Qed.

Lemma digits_not_space base s : base ≤ 36 → string_all (is_digit base) s → strip s = s.
Proof.
  intros Hb H. apply strip_by_id. eapply string_all_impl; [|exact H].
  intros c (d & ? & ->). apply digit_char_not_space. lia.
Qed.

Lemma py_int_N_str n : py_int (N_str n) = Some (Z.of_N n).
Proof.
  unfold py_int. rewrite (digits_not_space 10) by (try lia; by apply put_digits_all).
  unfold N_str.
  destruct (put_digits_head 10 (S (N.to_nat (N.log2 n))) n "") as (d & s & Hd & Heq); [done..|].
  pose proof (read_put_digits 10 (S (N.to_nat (N.log2 n))) n "") as Hr. rewrite Heq in *.
  rewrite !decide_False by (apply digit_char_neq; done).
  rewrite Hr; [done..|]. rewrite Nat2N.inj_succ, N2Nat.id.
  destruct (decide (n = 0)) as [->|]; [done|]. apply N.log2_spec. lia.
Qed.

(** [int(str(z)) == z] *)
Lemma py_int_int_str z : py_int (int_str z) = Some z.
Proof.
  destruct z as [|p|p]; [done|apply (py_int_N_str (N.pos p))|].
  unfold int_str. pose proof (py_int_N_str (N.pos p)) as H.
  assert (Hall : string_all (is_digit 10) (N_str (N.pos p))) by by apply put_digits_all.
  unfold py_int in *. rewrite (digits_not_space 10) in H by (done || lia).
  replace (strip (String "-" (N_str (N.pos p)))) with (String "-" (N_str (N.pos p))).
  2:{ symmetry. apply strip_by_id. split; [done|]. eapply string_all_impl; [|exact Hall].
      intros c (d & ? & ->). apply digit_char_not_space. lia. }
  rewrite decide_True by done.
  destruct (put_digits_head 10 (S (N.to_nat (N.log2 (N.pos p)))) (N.pos p) "")
    as (d & s & Hd & Heq); [done..|].
  change (N_str (N.pos p)) with (put_digits 10 (S (N.to_nat (N.log2 (N.pos p)))) (N.pos p) "") in *.
  rewrite Heq in *. rewrite !decide_False in H by (apply digit_char_neq; done).
  destruct (read_digits 10 0 true _) as [v|]; [|done]. simpl in *.
  injection H as H. f_equal. lia.
Qed.

Lemma read_fixed_digits base w n v sep acc : 1 < base → base ≤ 36 →
  read_digits base v sep (fixed_digits base w n acc)
  = read_digits base (v * base ^ N.of_nat w + n mod base ^ N.of_nat w)
      (if decide (w = 0%nat) then sep else false) acc.
Proof.
  intros Hb1 Hb2. revert n acc. induction w as [|w IH]; intros n acc.
  - simpl. rewrite N.mod_1_r, N.mul_1_r, N.add_0_r. done.
  - cbn [fixed_digits]. rewrite IH. pose proof (N.mod_lt n base).
    rewrite read_digit by lia. destruct (decide (S w = 0%nat)); [lia|]. f_equal.
    rewrite Nat2N.inj_succ, N.pow_succ_r'. rewrite N.Div0.mod_mul_r. lia.
Qed.

Lemma fixed_digits_all base w n acc : 1 < base → string_all (is_digit base) acc →
  string_all (is_digit base) (fixed_digits base w n acc).
Proof.
  intros Hb. revert n acc. induction w as [|w IH]; intros n acc Ha; [done|].
  apply IH. split; [|done]. pose proof (N.mod_lt n base).
  exists (n mod base). split; [lia|done].
Qed.

Lemma fixed_digits_length base w n acc :
  String.length (fixed_digits base w n acc) = (w + String.length acc)%nat.
Proof. revert n acc. induction w as [|w IH]; intros n acc; [done|]. simpl. rewrite IH. simpl. lia. Qed.

Lemma remove_char_app c s t : remove_char c (s +:+ t) = remove_char c s +:+ remove_char c t.
Proof.
  induction s as [|c' s IH]; [done|].
  change (String c' s +:+ t) with (String c' (s +:+ t)). simpl.
  case_decide; rewrite IH; done.
Qed.

Lemma remove_char_id c s : string_all (λ c', c ≠ c') s → remove_char c s = s.
Proof.
  induction s as [|c' s IH]; simpl; [done|]. intros [? ?].
  rewrite decide_False by done. by rewrite IH.
Qed.

Lemma remove_sub_id c pat s :
  string_all (λ c', c ≠ c') s → remove_sub (String c pat) 0 s = s.
Proof.
  induction s as [|c' s IH]; cbn [string_all remove_sub]; [done|]. intros [Hc ?].
  cbn [String.prefix]. destruct (ascii_dec c c'); [done|]. by rewrite IH.
Qed.

(** The five groups of a UUID text put together again. *)
Lemma uuid_groups h : String.length h = 32%nat →
  String.substring 0 8 h +:+ String.substring 8 4 h +:+ String.substring 12 4 h +:+
  String.substring 16 4 h +:+ String.substring 20 12 h = h.
Proof.
  intros Hl. do 32 (destruct h as [|? h]; [discriminate Hl|]).
  destruct h; [done|discriminate Hl].
Qed.

Lemma substring_all P n m h : string_all P h → string_all P (String.substring n m h).
Proof.
  revert n m. induction h as [|c h IH]; intros [|n] [|m]; simpl; naive_solver.
Qed.

Definition hex_or_dash (c : Ascii.ascii) : Prop := is_digit 16 c ∨ c = "-"%char.

Lemma uuid_str_chars u : string_all hex_or_dash (uuid_str u).
Proof.
  assert (H : string_all hex_or_dash (fixed_digits 16 32 u "")).
  { eapply string_all_impl; [|by apply fixed_digits_all]. unfold hex_or_dash. auto. }
  assert (Hd : string_all hex_or_dash "-") by (split; [right|]; done).
  unfold uuid_str. cbv zeta. rewrite !string_all_app. auto 20 using substring_all.
Qed.

Lemma hex_or_dash_neq c c' : hex_or_dash c → char_digit c' = None → c' ≠ "-"%char → c' ≠ c.
Proof. intros [(d & Hd & ->)| ->] Hc Hn; [|done]. symmetry. apply digit_char_neq; [lia|done]. Qed.

Lemma hex_not c c' : is_digit 16 c → (∀ d, d < 16 → digit_char d ≠ c') → c ≠ c'.
Proof. intros (d & Hd & ->) H. auto. Qed.

Lemma hex_digit_cases d : d < 16 → digit_char d ≠ "u"%char ∧ digit_char d ≠ "x"%char ∧ digit_char d ≠ "X"%char.
Proof.
  intros Hd. assert (Hin : d ∈ [0;1;2;3;4;5;6;7;8;9;10;11;12;13;14;15]).
  { rewrite list_elem_of_In. simpl. lia. }
  rewrite !elem_of_cons in Hin.
  repeat destruct Hin as [->|Hin]; try (vm_compute; split; [|split]; congruence).
  by apply not_elem_of_nil in Hin.
Qed.

Lemma uuid_hex u : remove_char "-"%char (strip_by is_brace
    (remove_sub "uuid:" 0 (remove_sub "urn:" 0 (uuid_str u)))) = fixed_digits 16 32 u "".
Proof.
  pose proof (uuid_str_chars u) as Hc.
  assert (Hu : string_all (λ c, "u"%char ≠ c) (uuid_str u)).
  { eapply string_all_impl; [|exact Hc]. intros c [(d & Hd & ->)| ->]; [|done].
    symmetry. by apply hex_digit_cases. }
  rewrite !(remove_sub_id "u"%char) by (rewrite ?(remove_sub_id "u"%char); done).
  rewrite strip_by_id.
  2:{ eapply string_all_impl; [|exact Hc]. intros c Hcc. apply bool_decide_eq_false_2.
      intros [->| ->]; eapply hex_or_dash_neq in Hcc; done. }
  assert (Hh : string_all (λ c', "-"%char ≠ c') (fixed_digits 16 32 u "")).
  { eapply string_all_impl; [|by apply (fixed_digits_all 16)].
    intros c (d & Hd & ->). symmetry. apply digit_char_neq; [lia|done]. }
  unfold uuid_str. rewrite !remove_char_app.
  change (remove_char "-"%char "-") with "".
  rewrite !remove_char_id by auto using substring_all.
  apply uuid_groups. by rewrite fixed_digits_length.
Qed.

(** [UUID(str(u)) == u] *)
Lemma uuid_parse_str u : u < 2 ^ 128 → uuid_parse (uuid_str u) = Some u.
Proof.
  intros Hu. unfold uuid_parse. rewrite uuid_hex.
  rewrite decide_True by by rewrite fixed_digits_length.
  assert (Hr : read_digits 16 0 true (fixed_digits 16 32 u "") = Some u).
  { rewrite read_fixed_digits by done. simpl. rewrite N.mod_small by done. done. }
  assert (Hall : string_all (is_digit 16) (fixed_digits 16 32 u "")) by by apply fixed_digits_all.
  pose proof (fixed_digits_length 16 32 u "") as Hl.
  unfold py_int16. rewrite (digits_not_space 16) by (done || lia).
  destruct (fixed_digits 16 32 u "") as [|a [|b s]]; [done..|].
  destruct Hall as (Ha & Hb & _).
  assert (∀ c, char_digit c = None → a ≠ c) as Hn.
  { intros c Hc. eapply hex_not; [exact Ha|]. intros d Hd. apply digit_char_neq; [lia|done]. }
  rewrite !(decide_False (P := a = _)) by (apply Hn; done).
  rewrite decide_False.
  2:{ intros (_ & [->| ->]); destruct Hb as (d & Hd & Hb); symmetry in Hb;
      apply hex_digit_cases in Hd; tauto. }
  rewrite Hr. cbn [fmap option_fmap option_map].
  rewrite (proj2 (Z.leb_le 0 _)), (proj2 (Z.ltb_lt _ _)) by lia. simpl. f_equal. lia.
Qed.

#[global] Arguments uuid_str : simpl never.
#[global] Arguments uuid_parse : simpl never.
#[global] Arguments int_str : simpl never.
#[global] Arguments py_int : simpl never.
