(* ===== verification/Cursors.v ===== *)
(** * Opaque cursors of the paged listings

    The text of a cursor ([_encode_cursor], [_decode_cursor] of
    [agent/failure/operations.py], [ex_agent/maintenance/operations.py] and
    [ex_agent/application/workflow_lifecycle.py]): URL-safe base64 of a JSON
    object, without its padding. Base64 is Python's, character by character;
    JSON texts and ISO timestamps are the interface [CursorCodec].

    What a client gets that follows the cursors of a keyset query while the
    table changes between the pages: [follows]. *)

From stdpp Require Import base gmap strings list sorting.
From Stdlib Require Import Ascii ZArith Lia.
From S2P Require Import Prelude Text.
Local Open Scope Z_scope.
Set Default Proof Using "Type".

(** ** Base64 *)

Definition code (c : ascii) : Z := Z.of_N (N_of_ascii c).
Definition char_of (z : Z) : ascii := ascii_of_N (Z.to_N z).

(** The URL-safe alphabet, and the value of a character. [urlsafe_b64decode]
    maps - and _ to + and / first, so those are accepted as well. *)
Definition b64_char (v : Z) : ascii :=
  if v <? 26 then char_of (65 + v) else if v <? 52 then char_of (71 + v) else if v <? 62 then char_of (v - 4)
  else if v =? 62 then "-"%char else "_"%char.
Definition b64_value (c : ascii) : option Z :=
  let n := code c in
  if (65 <=? n) && (n <=? 90) then Some (n - 65)
  else if (97 <=? n) && (n <=? 122) then Some (n - 71)
  else if (48 <=? n) && (n <=? 57) then Some (n + 4)
  else if (n =? 45) || (n =? 43) then Some 62
  else if (n =? 95) || (n =? 47) then Some 63
  else None.

(** [urlsafe_b64encode] *)
Fixpoint urlsafe_b64encode (s : string) : string :=
  match s with
  | EmptyString => EmptyString
  | String a EmptyString =>
      String (b64_char (Z.shiftr (code a) 2)) (String (b64_char (Z.shiftl (Z.land (code a) 3) 4)) "==")
  | String a (String b EmptyString) =>
      String (b64_char (Z.shiftr (code a) 2))
        (String (b64_char (Z.lor (Z.shiftl (Z.land (code a) 3) 4) (Z.shiftr (code b) 4)))
          (String (b64_char (Z.shiftl (Z.land (code b) 15) 2)) "="))
  | String a (String b (String c s')) =>
      String (b64_char (Z.shiftr (code a) 2))
        (String (b64_char (Z.lor (Z.shiftl (Z.land (code a) 3) 4) (Z.shiftr (code b) 4)))
          (String (b64_char (Z.lor (Z.shiftl (Z.land (code b) 15) 2) (Z.shiftr (code c) 6)))
            (String (b64_char (Z.land (code c) 63)) (urlsafe_b64encode s'))))
  end.

Definition is_pad (c : ascii) : bool := bool_decide (c = "="%char).

(** [binascii.a2b_base64], not strict: the position in a group of four, the
    bits kept of the last character and the pads since then. Characters outside
    the alphabet are skipped, a complete pad ends the input. *)
Fixpoint a2b (quad left pads : Z) (s : string) : result string :=
  match s with
  | EmptyString => if quad =? 0 then Ok "" else Err (ValueError "Incorrect padding")
  | String c s' =>
      if is_pad c then
        if (2 <=? quad) && (4 <=? quad + (pads + 1)) then Ok ""
        else a2b quad left (if 2 <=? quad then pads + 1 else pads) s'
      else
        match b64_value c with
        | None => a2b quad left pads s'
        | Some v =>
            if quad =? 0 then a2b 1 v 0 s'
            else if quad =? 1 then r ← a2b 2 (Z.land v 15) 0 s'; Ok (String (char_of (Z.lor (Z.shiftl left 2) (Z.shiftr v 4))) r)
            else if quad =? 2 then r ← a2b 3 (Z.land v 3) 0 s'; Ok (String (char_of (Z.lor (Z.shiftl left 4) (Z.shiftr v 2))) r)
            else r ← a2b 0 0 0 s'; Ok (String (char_of (Z.lor (Z.shiftl left 6) v)) r)
        end
  end.

Fixpoint is_ascii (s : string) : bool :=
  match s with EmptyString => true | String c s' => (code c <? 128) && is_ascii s' end.

(** [urlsafe_b64decode] of a [str] *)
Definition urlsafe_b64decode (s : string) : result string :=
  raise_if (negb (is_ascii s)) (ValueError "string argument should contain only ASCII characters");;
  a2b 0 0 0 s.

(** [urlsafe_b64encode(payload).decode().rstrip('=')] *)
Definition cursor_text (payload : string) : string := rstrip_by is_pad (urlsafe_b64encode payload).

(** ['=' * (-len(cursor) % 4)] *)
Fixpoint equals_signs (n : nat) : string := match n with O => "" | S n' => String "="%char (equals_signs n') end.
Definition padding (cursor : string) : string := equals_signs (Z.to_nat (- Z.of_nat (String.length cursor) mod 4)).
Definition cursor_payload (cursor : string) : result string := urlsafe_b64decode (cursor +:+ padding cursor).

Example hello_cursor : cursor_text "hello" = "aGVsbG8" ∧ cursor_payload "aGVsbG8" = Ok "hello" ∧
  cursor_text "hell" = "aGVsbA" ∧ cursor_payload "aGVs" = Ok "hel" ∧ cursor_text "~~?" = "fn4_" ∧ cursor_payload "fn4/" = Ok "~~?" ∧
  cursor_payload "a" = Err (ValueError "Incorrect padding") ∧ cursor_payload "aG Vs*bG8" = Ok "hello".
Proof. vm_compute. done. Qed.

(** ** The round trip of base64 *)

Lemma code_bound c : 0 ≤ code c < 256.
Proof. unfold code. pose proof (N_ascii_bounded c). lia. Qed.
Lemma char_of_code c : char_of (code c) = c.
Proof. unfold char_of, code. by rewrite N2Z.id, ascii_N_embedding. Qed.
Lemma code_char_of z : 0 ≤ z < 256 → code (char_of z) = z.
Proof. intros Hz. unfold code, char_of. rewrite N_ascii_embedding by lia. lia. Qed.

(** A bitwise or of parts that do not overlap is their sum. *)
Lemma lor_shiftl a n b : 0 ≤ n → 0 ≤ b < 2 ^ n → Z.lor (Z.shiftl a n) b = a * 2 ^ n + b.
Proof.
  intros Hn Hb. rewrite <- Z.shiftl_mul_pow2 by done. symmetry.
  assert (Hd : Z.land (Z.shiftl a n) b = 0).
  { apply Z.bits_inj'. intros m Hm. rewrite Z.land_spec, Z.bits_0. destruct (decide (m < n)).
    - by rewrite Z.shiftl_spec_low.
    - rewrite <- (Z.mod_small b (2 ^ n)), Z.mod_pow2_bits_high by lia. apply andb_false_r. }
  by rewrite Z.add_nocarry_lxor, Z.lxor_lor.
Qed.

Lemma b64_alphabet v : 0 ≤ v < 64 → b64_value (b64_char v) = Some v ∧ is_pad (b64_char v) = false ∧ is_ascii (String (b64_char v) "") = true.
Proof.
  intros Hv. unfold b64_char. repeat case_match; rewrite ?Z.ltb_lt, ?Z.ltb_ge, ?Z.eqb_eq, ?Z.eqb_neq in *; [..|by subst|by replace v with 63 by lia].
  1-3: split_and!; [|apply bool_decide_eq_false_2; intros E; apply (f_equal code) in E; rewrite code_char_of in E by lia; change (code "="%char) with 61 in E; lia|
    cbn [is_ascii]; rewrite code_char_of by lia; rewrite (proj2 (Z.ltb_lt _ 128)) by lia; done];
    unfold b64_value; rewrite code_char_of by lia;
    repeat (match goal with |- context [?x <=? ?y] => destruct (Z.leb_spec x y); try lia end; cbn [andb]); f_equal; lia.
Qed.

Local Ltac divlia := Z.div_mod_to_equations; lia.
Local Ltac powers :=
  change 15 with (Z.ones 4); change 3 with (Z.ones 2); rewrite ?Z.land_ones by lia;
  change (2 ^ 2) with 4; change (2 ^ (6 - 2)) with 16; change (2 ^ 4) with 16; change (2 ^ (6 - 4)) with 4; change (2 ^ 6) with 64.

(** The four values of a group, and the bytes read back from them. *)
Definition sextets (a b c : Z) : Z * Z * Z * Z := (a / 4, a mod 4 * 16 + b / 16, b mod 16 * 4 + c / 64, c mod 64).
Lemma sextet_bits a b c : 0 ≤ a < 256 → 0 ≤ b < 256 → 0 ≤ c < 256 →
  Z.shiftr a 2 = a / 4 ∧ Z.lor (Z.shiftl (Z.land a 3) 4) (Z.shiftr b 4) = a mod 4 * 16 + b / 16 ∧
  Z.shiftl (Z.land a 3) 4 = a mod 4 * 16 ∧ Z.shiftl (Z.land b 15) 2 = b mod 16 * 4 ∧
  Z.lor (Z.shiftl (Z.land b 15) 2) (Z.shiftr c 6) = b mod 16 * 4 + c / 64 ∧ Z.land c 63 = c mod 64.
Proof.
  intros. change 3 with (Z.ones 2). change 15 with (Z.ones 4). change 63 with (Z.ones 6).
  rewrite !Z.land_ones, !Z.shiftr_div_pow2 by lia. rewrite !lor_shiftl by (change (2 ^ 4) with 16; change (2 ^ 2) with 4; change (2 ^ 6) with 64; divlia).
  rewrite !Z.shiftl_mul_pow2 by lia. done.
Qed.
Lemma octet_bits l v k : 0 ≤ k → 0 ≤ v < 64 → 0 < 2 ^ (6 - k) → k ≤ 6 → Z.lor (Z.shiftl l k) (Z.shiftr v (6 - k)) = l * 2 ^ k + v / 2 ^ (6 - k).
Proof.
  intros Hk Hv Hp Hk6. rewrite Z.shiftr_div_pow2 by lia. rewrite lor_shiftl; [done|done|].
  split; [apply Z.div_pos; lia|]. apply Z.div_lt_upper_bound; [done|]. rewrite <- Z.pow_add_r by lia. replace (6 - k + k) with 6 by lia. lia.
Qed.

Lemma a2b_value quad left pads v s : 0 ≤ v < 64 → a2b quad left pads (String (b64_char v) s) =
  if quad =? 0 then a2b 1 v 0 s
  else if quad =? 1 then r ← a2b 2 (Z.land v 15) 0 s; Ok (String (char_of (Z.lor (Z.shiftl left 2) (Z.shiftr v 4))) r)
  else if quad =? 2 then r ← a2b 3 (Z.land v 3) 0 s; Ok (String (char_of (Z.lor (Z.shiftl left 4) (Z.shiftr v 2))) r)
  else r ← a2b 0 0 0 s; Ok (String (char_of (Z.lor (Z.shiftl left 6) v)) r).
Proof. intros Hv. destruct (b64_alphabet v Hv) as (E & P & _). cbn [a2b]. by rewrite P, E. Qed.

Lemma a2b_pads_2 left : a2b 2 left 0 "==" = Ok "".
Proof. done. Qed.
Lemma a2b_pad_3 left : a2b 3 left 0 "=" = Ok "".
Proof. done. Qed.

Lemma char_is z c : z = code c → char_of z = c.
Proof. intros ->. apply char_of_code. Qed.

Lemma string_ind3 (P : string → Prop) : P "" → (∀ a, P (String a "")) → (∀ a b, P (String a (String b ""))) →
  (∀ a b c s, P s → P (String a (String b (String c s)))) → ∀ s, P s.
Proof.
  intros H0 H1 H2 H3. fix IH 1. intros [|a [|b [|c s]]]; [exact H0|apply H1|apply H2|]. apply H3, IH.
Qed.

Lemma a2b_encode s : a2b 0 0 0 (urlsafe_b64encode s) = Ok s.
Proof.
  induction s as [|a|a b|a b c s IH] using string_ind3; [done|..]; cbn [urlsafe_b64encode];
    pose proof (code_bound a) as Ha; try pose proof (code_bound b) as Hb; try pose proof (code_bound c) as Hc.
  - destruct (sextet_bits (code a) 0 0) as (E1 & _ & E2 & _); [lia..|]. rewrite E1, E2, !a2b_value by divlia.
    cbn [Z.eqb Pos.eqb]. rewrite ?(a2b_pads_2 _), ?(a2b_pad_3 _). cbn [mbind result_bind]. rewrite (octet_bits _ _ 2) by (done || divlia).
    powers. repeat f_equal; apply char_is; divlia.
  - destruct (sextet_bits (code a) (code b) 0) as (E1 & E2 & _ & E3 & _); [lia..|]. rewrite E1, E2, E3, !a2b_value by divlia.
    cbn [Z.eqb Pos.eqb]. rewrite ?(a2b_pads_2 _), ?(a2b_pad_3 _). cbn [mbind result_bind]. rewrite (octet_bits _ _ 2), (octet_bits _ _ 4) by (done || divlia).
    powers. repeat f_equal; apply char_is; divlia.
  - destruct (sextet_bits (code a) (code b) (code c)) as (E1 & E2 & _ & _ & E3 & E4); [lia..|]. rewrite E1, E2, E3, E4, !a2b_value by divlia.
    cbn [Z.eqb Pos.eqb]. rewrite IH. cbn [mbind result_bind]. rewrite (octet_bits _ _ 2), (octet_bits _ _ 4) by (done || divlia).
    rewrite lor_shiftl by (change (2 ^ 6) with 64; divlia). powers. repeat f_equal; apply char_is; divlia.
Qed.

Lemma rstrip_kept p c s : p c = false → rstrip_by p (String c s) = String c (rstrip_by p s).
Proof. intros Hc. cbn. rewrite Hc. by destruct (rstrip_by p s). Qed.

Lemma padding_four a b c d s : padding (String a (String b (String c (String d s)))) = padding s.
Proof.
  unfold padding. f_equal. f_equal. cbn [String.length]. rewrite !Nat2Z.inj_succ.
  replace (- Z.succ (Z.succ (Z.succ (Z.succ (Z.of_nat (String.length s)))))) with (- Z.of_nat (String.length s) + (-1) * 4) by lia.
  apply Z.mod_add. done.
Qed.

(** Taking the padding off and putting it back. *)
Lemma cursor_padding s : cursor_text s +:+ padding (cursor_text s) = urlsafe_b64encode s.
Proof.
  unfold cursor_text. induction s as [|a|a b|a b c s IH] using string_ind3; [done|..]; cbn [urlsafe_b64encode];
    pose proof (code_bound a) as Ha; try pose proof (code_bound b) as Hb; try pose proof (code_bound c) as Hc.
  - destruct (sextet_bits (code a) 0 0) as (E1 & _ & E2 & _); [lia..|]. rewrite E1, E2.
    rewrite !rstrip_kept by (apply b64_alphabet; divlia). done.
  - destruct (sextet_bits (code a) (code b) 0) as (E1 & E2 & _ & E3 & _); [lia..|]. rewrite E1, E2, E3.
    rewrite !rstrip_kept by (apply b64_alphabet; divlia). done.
  - destruct (sextet_bits (code a) (code b) (code c)) as (E1 & E2 & _ & _ & E3 & E4); [lia..|]. rewrite E1, E2, E3, E4.
    rewrite !rstrip_kept by (apply b64_alphabet; divlia). rewrite padding_four.
    exact (f_equal (λ r, String _ (String _ (String _ (String _ r)))) IH).
Qed.

Lemma b64_ascii v s : 0 ≤ v < 64 → is_ascii (String (b64_char v) s) = is_ascii s.
Proof. intros (_ & _ & Hv)%b64_alphabet. cbn [is_ascii] in *. rewrite andb_true_r in Hv. by rewrite Hv. Qed.

Lemma encode_ascii s : is_ascii (urlsafe_b64encode s) = true.
Proof.
  induction s as [|a|a b|a b c s IH] using string_ind3; [done|..]; cbn [urlsafe_b64encode];
    pose proof (code_bound a) as Ha; try pose proof (code_bound b) as Hb; try pose proof (code_bound c) as Hc.
  - destruct (sextet_bits (code a) 0 0) as (E1 & _ & E2 & _); [lia..|]. rewrite E1, E2, !b64_ascii by divlia. done.
  - destruct (sextet_bits (code a) (code b) 0) as (E1 & E2 & _ & E3 & _); [lia..|]. rewrite E1, E2, E3, !b64_ascii by divlia. done.
  - destruct (sextet_bits (code a) (code b) (code c)) as (E1 & E2 & _ & _ & E3 & E4); [lia..|]. rewrite E1, E2, E3, E4, !b64_ascii by divlia. done.
Qed.

(** A payload is read back from its cursor. *)
Lemma payload_of_text s : cursor_payload (cursor_text s) = Ok s.
Proof. unfold cursor_payload, urlsafe_b64decode. rewrite cursor_padding, encode_ascii. apply a2b_encode. Qed.

(** ** Cursors *)

(** [json.dumps] and [json.loads], and [datetime.isoformat] and
    [datetime.fromisoformat] with whether the text has a time zone. The
    timestamps of the database have one. *)
Class CursorCodec := {
  json_dumps : json → string;
  json_loads : string → result json;
  isoformat : timestamp → string;
  fromisoformat : string → result (timestamp * bool);
  dumps_text j : json_dumps j ≠ "";
  loads_dumps l : canonical l → json_loads (json_dumps (JObj l)) = Ok (JObj l);
  fromisoformat_isoformat t : fromisoformat (isoformat t) = Ok (t, true)
}.

Section Cursor.
Context `{CursorCodec}.

(** [payload[key]] *)
Definition item (key : string) (l : list (string * json)) : result json := from_option_err (KeyError key) (assoc key l).

(** [datetime.fromisoformat(value)]; [UUID(value)] takes [value.replace]. *)
Definition read_time (j : json) : result (timestamp * bool) :=
  match j with JStr s => fromisoformat s | _ => Err (TypeError "fromisoformat: argument must be str") end.
Definition read_uuid (j : json) : result uuid :=
  match j with
  | JStr s => from_option_err (ValueError "badly formed hexadecimal UUID string") (uuid_parse s)
  | JNull => Err (TypeError "one of the hex, bytes, bytes_le, fields, or int arguments must be given")
  | _ => Err (OtherException "AttributeError" "no attribute 'replace'")
  end.

Definition encode_cursor (payload : list (string * json)) : string := cursor_text (json_dumps (JObj payload)).

(** [except (BinasciiError, KeyError, TypeError, ValueError, JSONDecodeError)] *)
Definition cursor_error (e : exn) : bool :=
  is_ValueError e || match e with KeyError _ | TypeError _ => true | _ => false end.
Definition or_invalid {A} (message : string) (r : result A) : result A :=
  match r with Ok a => Ok a | Err e => Err (if cursor_error e then ValueError message else e) end.

(** [_encode_cursor] and [_decode_cursor] of the cleanups and of the jobs: the
    kind, the time and the identifier of the last row. *)
Definition row_cursor (kind time_key id_key : string) (at_ : timestamp) (id : uuid) : string :=
  encode_cursor (assoc_set "kind" (JStr kind) (assoc_set time_key (JStr (isoformat at_)) [(id_key, JStr (uuid_str id))])).
Definition read_row_cursor (kind time_key id_key message cursor : string) : result (timestamp * uuid) :=
  or_invalid message (
    payload ← cursor_payload cursor;
    j ← json_loads payload;
    match j with
    | JObj l =>
        raise_if (negb (bool_decide (assoc "kind" l = Some (JStr kind)))) (ValueError "Cursor kind does not match");;
        at_ ← item time_key l;
        t ← read_time at_;
        raise_if (negb t.2) (ValueError "Cursor timestamp has no timezone");;
        id ← item id_key l;
        u ← read_uuid id;
        Ok (t.1, u)
    | _ => Err (ValueError "Cursor payload must be an object")
    end).

Lemma cursor_decodes l : canonical l → cursor_payload (encode_cursor l) ≫= json_loads = Ok (JObj l).
Proof. intros Hl. unfold encode_cursor. rewrite payload_of_text. by apply loads_dumps. Qed.

Lemma encode_cursor_text l : encode_cursor l ≠ "".
Proof.
  unfold encode_cursor. intros E. pose proof (payload_of_text (json_dumps (JObj l))) as H0. rewrite E in H0.
  injection H0 as H0. by apply (dumps_text (JObj l)).
Qed.

(** The cursor of a row is read back as its time and identifier. *)
Lemma row_cursor_reads kind time_key id_key message at_ id : (id < 2 ^ 128)%N →
  NoDup ["kind"; time_key; id_key] →
  read_row_cursor kind time_key id_key message (row_cursor kind time_key id_key at_ id) = Ok (at_, id).
Proof.
  intros Hid Hnd. unfold read_row_cursor, row_cursor.
  assert (Hc : ∀ k v, canonical [(k, v : json)]) by (intros; unfold canonical; repeat constructor).
  set (l := assoc_set _ _ _). assert (Hl : canonical l) by (unfold l; auto using assoc_set_canonical).
  pose proof (cursor_decodes l Hl) as Hd. destruct (cursor_payload (encode_cursor l)) as [p|]; [|done]. cbn [mbind result_bind] in Hd |- *. rewrite Hd. cbn [mbind result_bind].
  assert (Hk : ∀ k, k ∈ [time_key; id_key] → String.eqb "kind" k = false).
  { intros k Hin. apply String.eqb_neq. intros <-. by apply NoDup_cons in Hnd as [[] _]. }
  assert (Hti : String.eqb time_key id_key = false).
  { apply String.eqb_neq. intros ->. apply NoDup_cons in Hnd as [_ [[] _]%NoDup_cons]. left. }
  unfold l, item. rewrite !assoc_assoc_set, !String.eqb_refl, bool_decide_eq_true_2 by done. cbn [negb raise_if mbind result_bind from_option_err].
  rewrite (String.eqb_sym time_key), (String.eqb_sym id_key), !Hk by set_solver. cbn [from_option_err mbind result_bind read_time].
  rewrite fromisoformat_isoformat. cbn [fst snd negb raise_if mbind result_bind].
  rewrite (String.eqb_sym id_key), Hti. cbn [assoc]. rewrite String.eqb_refl. cbn [from_option_err mbind result_bind read_uuid].
  by rewrite uuid_parse_str.
Qed.
End Cursor.

(** ** Following the cursors of a keyset query *)

Section Follow.
Context {A : Type} (key : A → sort_key) (p : A → bool) (limit : nat).

(** The rows of a table after a position; a page asks for one row more than it
    shows, to see whether another page follows. *)
Definition rest_after (after : option sort_key) (l : list A) : list A :=
  filter (λ x, after_key key after x = true) (order_by key (filter (λ x, p x = true) l)).
Definition fetched (after : option sort_key) (l : list A) : list A := keyset_page key p after (S limit) l.

(** What a client is shown, page by page, from the tables the pages saw. *)
Inductive follows : option sort_key → list (list A) → list A → Prop :=
| follows_last after l : (length (fetched after l) ≤ limit)%nat → follows after [l] (take limit (fetched after l))
| follows_next after l x ls items : (limit < length (fetched after l))%nat → last (take limit (fetched after l)) = Some x →
    follows (Some (key x)) ls items → follows after (l :: ls) (take limit (fetched after l) ++ items).

Definition table_ok (l : list A) : Prop := keys_unique key l ∧ NoDup l.

Lemma fetched_rest after l : table_ok l → fetched after l = take (S limit) (rest_after after l).
Proof using Type. intros [Hu _]. unfold fetched. rewrite keyset_page_eq by done. done. Qed.

Lemma shown_rest after l : table_ok l → take limit (fetched after l) = take limit (rest_after after l).
Proof using Type. intros Hl. rewrite fetched_rest by done. rewrite take_take, Nat.min_l by lia. done. Qed.

Lemma rest_elem after l x : x ∈ rest_after after l ↔ x ∈ l ∧ p x = true ∧ after_key key after x = true.
Proof using Type. unfold rest_after. rewrite list_elem_of_filter, elem_of_order_by, list_elem_of_filter. tauto. Qed.

Lemma rest_ok after l : table_ok l →
  StronglySorted (by_key key) (rest_after after l) ∧ keys_unique key (rest_after after l) ∧ NoDup (rest_after after l).
Proof using Type.
  intros [Hu Hn]. split_and!.
  - apply StronglySorted_filter_by, order_by_sorted.
  - eapply keys_unique_mono; [|exact Hu]. intros x Hx. by apply rest_elem in Hx as (? & _).
  - unfold rest_after. apply NoDup_filter. rewrite order_by_Permutation. by apply NoDup_filter.
Qed.

Lemma last_page after l : table_ok l → (length (fetched after l) ≤ limit)%nat → take limit (fetched after l) = rest_after after l.
Proof using Type.
  intros Hl Hlen. rewrite shown_rest by done. rewrite fetched_rest, length_take in Hlen by done. apply take_ge. lia.
Qed.

(** What is after the last row of a page is what the page did not show. *)
Lemma next_rest after l x : table_ok l → last (take limit (fetched after l)) = Some x →
  rest_after (Some (key x)) l = drop limit (rest_after after l).
Proof using Type.
  intros Hl Hx. rewrite shown_rest in Hx by done. destruct (rest_ok after l Hl) as (Hs & Hu & Hn).
  rewrite <- (filter_after_last key p _ limit x Hs Hu Hn Hx). unfold rest_after at 2. destruct after as [k|].
  - rewrite filter_after_trans; [done|]. apply last_Some_elem_of, elem_of_take_elem, rest_elem in Hx as (_ & _ & Hx).
    by apply bool_decide_eq_true in Hx.
  - unfold rest_after. f_equal. symmetry. by apply filter_all.
Qed.

Lemma strictly_sorted s : StronglySorted (by_key key) s → keys_unique key s → NoDup s →
  StronglySorted (λ x y, key_lt (key x) (key y)) s.
Proof using Type.
  induction 1 as [|x s Hs IH Hx]; intros Hu Hn; [constructor|]. apply NoDup_cons in Hn as [Hni Hn]. constructor.
  - apply IH; [|done]. eapply keys_unique_mono; [|exact Hu]. intros; by right.
  - rewrite Forall_forall in Hx |- *. intros y Hy. destruct (decide (key_lt (key x) (key y))) as [|Hk]; [done|]. destruct Hni.
    replace x with y; [done|]. specialize (Hx y Hy). apply Hu; [by right|by left|]. unfold by_key, key_le, key_lt in *.
    destruct (key x), (key y). simpl in *. f_equal; lia.
Qed.

Lemma follows_elem after ls items x : follows after ls items → Forall table_ok ls → x ∈ items →
  p x = true ∧ after_key key after x = true ∧ ∃ l, l ∈ ls ∧ x ∈ l.
Proof using Type.
  induction 1 as [after l Hlen|after l y ls items Hlen Hy _ IH]; intros Hok Hx.
  - apply Forall_cons in Hok as [Hl _]. rewrite last_page in Hx by done. apply rest_elem in Hx as (? & ? & ?).
    split_and!; [done..|]. exists l. split; [left|done].
  - apply Forall_cons in Hok as [Hl Hok]. apply elem_of_app in Hx as [Hx|Hx].
    + rewrite shown_rest in Hx by done. apply elem_of_take_elem, rest_elem in Hx as (? & ? & ?).
      split_and!; [done..|]. exists l. split; [left|done].
    + destruct (IH Hok Hx) as (Hp & Ha & l' & ? & ?). split_and!; [done| |exists l'; split; [by right|done]].
      rewrite shown_rest in Hy by done. apply last_Some_elem_of, elem_of_take_elem, rest_elem in Hy as (_ & _ & Hy).
      destruct after as [k|]; [|done]. simpl in *. rewrite bool_decide_eq_true in *. unfold key_lt in *. lia.
Qed.

(** The rows come in strictly increasing order: none is shown twice. *)
Lemma follows_sorted after ls items : follows after ls items → Forall table_ok ls →
  StronglySorted (λ x y, key_lt (key x) (key y)) items.
Proof using Type.
  induction 1 as [after l Hlen|after l y ls items Hlen Hy Hf IH]; intros Hok; apply Forall_cons in Hok as [Hl Hok];
    destruct (rest_ok after l Hl) as (Hs & Hu & Hn).
  - rewrite last_page by done. by apply strictly_sorted.
  - rewrite shown_rest in * by done. apply StronglySorted_app_2; [|apply (StronglySorted_app_1_l _ _ (drop limit (rest_after after l)))|by apply IH].
    + intros a b Ha Hb. apply (follows_elem _ _ _ b Hf Hok) in Hb as (_ & Hb & _). simpl in Hb. apply bool_decide_eq_true in Hb.
      apply last_Some in Hy as [s Hy]. rewrite Hy in Ha. apply elem_of_app in Ha as [Ha|Ha%list_elem_of_singleton]; [|by subst].
      assert (Hay : by_key key a y); [|unfold by_key, key_le, key_lt in *; lia].
      rewrite <- (take_drop limit (rest_after after l)), Hy, <- app_assoc in Hs.
      eapply (StronglySorted_app_1_elem_of _ _ _ a y Hs); [done|]. apply elem_of_app. left. left.
    + rewrite take_drop. by apply strictly_sorted.
Qed.

(** A row that every table has is shown. *)
Lemma follows_complete after ls items x : follows after ls items → Forall table_ok ls → Forall (λ l, x ∈ l) ls →
  p x = true → after_key key after x = true → x ∈ items.
Proof using Type.
  induction 1 as [after l Hlen|after l y ls items Hlen Hy Hf IH]; intros Hok Hin Hp Ha;
    apply Forall_cons in Hok as [Hl Hok]; apply Forall_cons in Hin as [Hxl Hin].
  - rewrite last_page by done. by apply rest_elem.
  - apply elem_of_app. pose proof (next_rest after l y Hl Hy) as Hnext. rewrite shown_rest in * by done.
    assert (Hx : x ∈ rest_after after l) by by apply rest_elem.
    rewrite <- (take_drop limit (rest_after after l)) in Hx. apply elem_of_app in Hx as [Hx|Hx]; [by left|right].
    apply IH; [done..|]. rewrite <- Hnext in Hx. by apply rest_elem in Hx as (_ & _ & ?).
Qed.

(** While the table does not change the client is shown all of it, in order. *)
Lemma follows_still after l ls items : follows after ls items → table_ok l → Forall (eq l) ls → items = rest_after after l.
Proof using Type.
  induction 1 as [after l' Hlen|after l' y ls items Hlen Hy Hf IH]; intros Hl Hls; apply Forall_cons in Hls as [<- Hls].
  - by apply last_page.
  - rewrite (IH Hl Hls), (next_rest after l y Hl Hy), shown_rest by done. by rewrite take_drop.
Qed.
End Follow.

(** ** A client of a paged listing

    [page] answers a cursor with rows and the cursor of the next page; the
    client asks until there is none. [fuel] bounds the number of pages. *)

Definition out_of_pages : exn := OtherException "OutOfFuel" "".

Section Client.
Context {W V : Type} (page : option string → proc W (list V * option string)).

Fixpoint list_all (fuel : nat) (cursor : option string) : proc W (list V) :=
  match fuel with
  | O => throw out_of_pages
  | S fuel' =>
      '(items, next) ← page cursor;
      match next with
      | None => mret items
      | Some c => rest ← list_all fuel' (Some c); mret (items ++ rest)
      end
  end.

Context {A : Type} (key : A → sort_key) (p : A → bool) (limit : nat) (view : A → V) (show : A → string).

(** The cursors of the listing and the positions they stand for; the cursor of
    the next page is that of the last row shown. *)
Definition cursor_of (after : option A) : option string := show <$> after.
Definition position_of (after : option A) : option sort_key := key <$> after.
Definition next_of (after : option A) (l : list A) : option string :=
  if (limit <? length (fetched key p limit (position_of after) l))%nat
  then show <$> last (take limit (fetched key p limit (position_of after) l)) else None.

(** What one page does: the world keeps [I], the rows are those of a table
    that meets [T], and an exception is one of [E]. *)
Context (I : W → Prop) (T : list A → Prop) (E : exn → Prop).
Definition page_shows : Prop := ∀ after w, I w → (∀ x, after = Some x → ∃ l, T l ∧ x ∈ l) →
  wp (page (cursor_of after)) (λ r w', I w' ∧
    match r with
    | Ok (items, next) => ∃ l, T l ∧ items = map view (take limit (fetched key p limit (position_of after) l)) ∧ next = next_of after l
    | Err e => E e
    end) w.

Lemma list_all_follows fuel after w : (0 < limit)%nat → (∀ l, T l → table_ok key l) → page_shows →
  I w → (∀ x, after = Some x → ∃ l, T l ∧ x ∈ l) →
  wp (list_all fuel (cursor_of after)) (λ r w', I w' ∧
    match r with
    | Ok vs => ∃ ls items, follows key p limit (position_of after) ls items ∧ Forall T ls ∧ vs = map view items
    | Err e => E e ∨ e = out_of_pages ∧ ∀ l, (∀ l', T l' → l' = l) → (fuel ≤ length (rest_after key p (position_of after) l))%nat
    end) w.
Proof using Type.
  intros Hlim HT Hpage. revert after w. induction fuel as [|fuel IH]; intros after w Hw Hafter; cbn [list_all].
  { apply wp_throw. split; [done|]. right. split; [done|lia]. }
  apply wp_bind. eapply wp_mono; [by apply Hpage|]. intros [[items next]|e] w1 [Hw1 Hr]; [|split; [done|by left]].
  destruct Hr as (l & Hl & -> & ->). unfold next_of.
  destruct (Nat.ltb_spec limit (length (fetched key p limit (position_of after) l))) as [Hlt|Hge].
  - destruct (last (take limit (fetched key p limit (position_of after) l))) as [x|] eqn:Hx.
    2:{ apply last_None, (f_equal length) in Hx. rewrite length_take in Hx. simpl in Hx. lia. }
    apply wp_bind. change (Some (show x)) with (cursor_of (Some x)). eapply wp_mono; [apply (IH (Some x)); [done|]|].
    { intros y [= <-]. exists l. split; [done|]. rewrite shown_rest in Hx by auto.
      apply last_Some_elem_of, elem_of_take_elem, rest_elem in Hx as (? & _). done. }
    intros [vs|e] w2 [Hw2 Hr]; [|split; [done|]].
    + apply wp_ret. split; [done|]. destruct Hr as (ls & items & Hf & HTs & ->).
      exists (l :: ls), (take limit (fetched key p limit (position_of after) l) ++ items). split_and!; [by eapply follows_next|by constructor|by rewrite map_app].
    + destruct Hr as [?|[-> Hstill]]; [by left|right]. split; [done|]. intros l' Hl'. assert (l = l') as <- by auto.
      specialize (Hstill l Hl'). cbn [position_of fmap option_fmap option_map] in Hstill.
      rewrite (next_rest key p limit _ _ _ (HT l Hl) Hx), length_drop in Hstill.
      rewrite (fetched_rest key p limit _ _ (HT l Hl)), length_take in Hlt. lia.
  - apply wp_ret. split; [done|]. exists [l], (take limit (fetched key p limit (position_of after) l)).
    split_and!; [by constructor|by repeat constructor|done].
Qed.
End Client.
