(* ===== verification/Routes.v ===== *)
(** * Replies of the HTTP API

    A route answers with its status and body, or is refused with the status
    and detail of an [HTTPException]; FastAPI answers 500 to an exception that
    no route handles. *)

From stdpp Require Import base gmap strings list.
From Stdlib Require Import ZArith Lia.
From S2P Require Import Prelude.
Local Open Scope Z_scope.
Set Default Proof Using "Type".

Inductive reply (A : Type) : Type := Answered (status : Z) (body : A) | Refusal (status : Z) (detail : json).
Arguments Answered {A} status body.
Arguments Refusal {A} status detail.

Definition internal_error {A} : reply A := Refusal 500 (JStr "Internal Server Error").
Definition validation_error {A} : reply A := Refusal 422 (JStr "validation error").
Definition http_error (status : Z) (detail : string) : exn := HTTPException status (JStr detail).

(** A route whose body is [m] answers with [status]. *)
Definition respond {W A} (status : Z) (m : proc W A) : proc W (reply A) :=
  try_except (a ← m; mret (Answered status a)) (λ e,
    match e with
    | HTTPException code detail => mret (Refusal code detail)
    | CancelledError => throw e
    | _ => mret internal_error
    end).

(** [except E as error: raise HTTPException(status_code=code, detail=str(error))] *)
Definition handling {W A} (handled : exn → option Z) (m : proc W A) : proc W A :=
  try_except m (λ e, match handled e with Some code => throw (http_error code (exn_str e)) | None => throw e end).
