(* ===== verification/WorkerContracts.v ===== *)
(** * Event contracts of the worker ([worker/contracts.py])

    The Executor event model, the context a handler receives, and the
    interface to the validation library: what [model_validate], [model_dump]
    and [json.loads] promise about [ExecutorEvent]. *)

From stdpp Require Import base gmap strings list.
From Stdlib Require Import ZArith Lia.
From S2P Require Import Prelude Text.
Local Open Scope Z_scope.

Record ExecutorEvent := mk_event {
  event_id : uuid;
  ev_execution_id : uuid;
  event_type : string;
  event_sequence : Z;
  schema_version : string;
  occurred_at : string;
  payload : list (string * json);
  extra : list (string * json)
}.

#[global] Instance ExecutorEvent_eq_dec : EqDecision ExecutorEvent.
Proof. solve_decision. Defined.

Definition event_fields : list string :=
  ["event_id"; "execution_id"; "event_type"; "event_sequence";
   "schema_version"; "occurred_at"; "payload"].

Definition is_event_field (k : string) : bool := existsb (String.eqb k) event_fields.

(** The constraints of the class body: [min_length=1], [ge=1],
    [Literal["1.0"]]; UUIDs have 128 bits, and with [extra="allow"] the other
    keys of the input are kept beside the declared fields. *)
Definition event_valid (e : ExecutorEvent) : Prop :=
  (event_id e < 2 ^ 128)%N ∧ (ev_execution_id e < 2 ^ 128)%N ∧
  event_type e ≠ "" ∧ 1 ≤ event_sequence e ∧ schema_version e = "1.0" ∧
  (∀ k v, (k, v) ∈ extra e → is_event_field k = false).

Lemma extra_disjoint (l : list (string * json)) :
  Forall (λ kv, is_event_field kv.1 = false) l ↔ ∀ k v, (k, v) ∈ l → is_event_field k = false.
Proof.
  rewrite Forall_forall. split; intros Hl.
  - intros k v Hin. by apply (Hl (k, v)).
  - intros [k v] Hin. by apply (Hl k v).
Qed.

#[global] Instance event_valid_dec e : Decision (event_valid e).
Proof.
  unfold event_valid. repeat apply and_dec; try apply _.
  refine (cast_if (decide (Forall (λ kv : string * json, is_event_field kv.1 = false) (extra e))));
    by rewrite <- extra_disjoint.
Defined.

(** What the validation library promises; the library is not part of the
    repository, so its functions are arguments of the model. *)
Class EventCodec := {
  json_loads : string → result json;
  model_validate : json → result ExecutorEvent;
  model_dump : ExecutorEvent → json;
  json_loads_error : ∀ s e, json_loads s = Err e → ∃ m, e = ValueError m;
  model_validate_error : ∀ j e, model_validate j = Err e → ∃ m, e = ValueError m;
  model_validate_valid : ∀ j e, model_validate j = Ok e → event_valid e;
  model_validate_dump : ∀ e, event_valid e → model_validate (model_dump e) = Ok e
}.

Lemma model_dump_inj `{EventCodec} e1 e2 :
  event_valid e1 → event_valid e2 → model_dump e1 = model_dump e2 → e1 = e2.
Proof. intros H1%model_validate_dump H2%model_validate_dump He. congruence. Qed.

(** [{**fields, key: value}] *)
Fixpoint dict_set {A} (k : string) (v : A) (d : list (string * A)) : list (string * A) :=
  match d with
  | [] => [(k, v)]
  | (k', v') :: d' => if String.eqb k k' then (k, v) :: d' else (k', v') :: dict_set k v d'
  end.

(** [ExecutorEvent.from_redis] *)
Definition from_redis `{EventCodec} (fields : list (string * string)) : result ExecutorEvent :=
  text ← from_option_err (KeyError "payload") (assoc "payload" fields);
  parsed ← json_loads text;
  model_validate (JObj (dict_set "payload" parsed (map (λ kv, (kv.1, JStr kv.2)) fields))).

Record EventContext := mk_context {
  ctx_namespace : string;
  ctx_session_id : string;
  ctx_task_id : string;
  ctx_execution_id : uuid;
  ctx_command_id : uuid;
  ctx_event : ExecutorEvent
}.

(** [graph_config]: the thread of the graph is the session. *)
Definition graph_config (c : EventContext) : json :=
  JObj [("configurable", JObj [("thread_id", JStr (ctx_session_id c))])].

(** ** A concrete codec

    One implementation of the interface, used to evaluate the model on
    concrete inputs. *)
Module DemoCodec.

Definition dump (e : ExecutorEvent) : json :=
  JObj ([("event_id", JStr (uuid_str (event_id e)));
         ("execution_id", JStr (uuid_str (ev_execution_id e)));
         ("event_type", JStr (event_type e));
         ("event_sequence", JInt (event_sequence e));
         ("schema_version", JStr (schema_version e));
         ("occurred_at", JStr (occurred_at e));
         ("payload", JObj (payload e))] ++ extra e).

Definition want_str (j : option json) : option string :=
  match j with Some (JStr s) => Some s | _ => None end.
Definition want_uuid (j : option json) : option uuid :=
  match j with Some (JStr s) => uuid_parse s | _ => None end.
Definition want_int (j : option json) : option Z :=
  match j with Some (JInt z) => Some z | Some (JStr s) => py_int s | _ => None end.
Definition want_dict (j : option json) : option (list (string * json)) :=
  match j with Some (JObj l) => Some l | _ => None end.

Definition read (j : json) : option ExecutorEvent :=
  match j with
  | JObj l =>
      eid ← want_uuid (assoc "event_id" l);
      xid ← want_uuid (assoc "execution_id" l);
      ty ← want_str (assoc "event_type" l);
      sq ← want_int (assoc "event_sequence" l);
      sv ← want_str (assoc "schema_version" l);
      oc ← want_str (assoc "occurred_at" l);
      pl ← want_dict (assoc "payload" l);
      Some (mk_event eid xid ty sq sv oc pl
              (filter (λ kv, is_event_field kv.1 = false) l))
  | _ => None
  end.

Definition validate (j : json) : result ExecutorEvent :=
  match read j with
  | Some e => if decide (event_valid e) then Ok e else Err (ValueError "validation error")
  | None => Err (ValueError "validation error")
  end.

Definition loads (s : string) : result json :=
  if decide (s = "{}") then Ok (JObj []) else Err (ValueError "Expecting value").

Lemma dump_extra e : event_valid e →
  filter (λ kv, is_event_field kv.1 = false)
    ([("event_id", JStr (uuid_str (event_id e)));
      ("execution_id", JStr (uuid_str (ev_execution_id e)));
      ("event_type", JStr (event_type e));
      ("event_sequence", JInt (event_sequence e));
      ("schema_version", JStr (schema_version e));
      ("occurred_at", JStr (occurred_at e));
      ("payload", JObj (payload e))] ++ extra e) = extra e.
Proof.
  intros (_ & _ & _ & _ & _ & Hextra). rewrite filter_app, filter_none, filter_all; [done|..].
  - intros [k v] Hin. by eapply Hextra.
  - intros kv Hin. repeat (apply elem_of_cons in Hin as [->|Hin]; [done|]).
    by apply not_elem_of_nil in Hin.
Qed.

Lemma read_dump e : event_valid e → read (dump e) = Some e.
Proof.
  intros Hv. unfold read, dump. rewrite dump_extra by done.
  destruct Hv as (He & Hx & _).
  cbn [app assoc String.eqb Ascii.eqb Bool.eqb want_uuid want_str want_int want_dict].
  rewrite !uuid_parse_str by assumption. by destruct e.
Qed.

#[export] Instance codec : EventCodec.
Proof.
  refine (Build_EventCodec loads validate dump _ _ _ _).
  - intros s e. unfold loads. case_decide; naive_solver.
  - intros j e. unfold validate. repeat case_match; naive_solver.
  - intros j e. unfold validate. repeat case_match; naive_solver.
  - intros e He. unfold validate. rewrite read_dump by done. by rewrite decide_True.
Defined.

End DemoCodec.
