(* ===== verification/WorkerStore.v ===== *)
(** * The worker's tables and [Store] ([worker/store.py])

    The worker tables of [worker_migrations/versions/0001_worker_tables.py] as
    finite maps keyed by their primary keys, and every method of [Store] as a
    transaction on them. [now] is the transaction's [now()]; a violated
    constraint or an integer out of range is the [DatabaseError] that rolls
    the transaction back. [uuid5 name] stands for
    [uuid5(NAMESPACE_URL, name)]. *)

From stdpp Require Import base gmap strings list sorting relations.
From Stdlib Require Import ZArith Lia.
From S2P Require Import Prelude Text WorkerContracts.
Local Open Scope Z_scope.

(** ** Rows *)

Record audit := mk_audit {
  created_at : timestamp;
  updated_at : timestamp;
  created_by : string;
  updated_by : string
}.

Definition touched (now : timestamp) (actor : string) (a : audit) : audit :=
  mk_audit (created_at a) now (created_by a) actor.

Record binding := mk_binding {
  b_session_id : string;
  b_task_id : string;
  b_last_sequence : Z;
  b_next_scan_at : timestamp;
  b_last_error : option string;
  b_catch_up_version : Z;
  b_caught_up_version : Z;
  b_audit : audit
}.

Inductive inbox_state := RECEIVED | ROUTED | INBOX_IGNORED.

Record inbox_row := mk_inbox {
  i_execution_id : uuid;
  i_sequence : Z;
  i_event : json;
  i_state : inbox_state;
  i_audit : audit
}.

Inductive command_state := READY | RUNNING | DONE | FAILED | IGNORED.

Record command_row := mk_command {
  c_event_id : uuid;
  c_execution_id : uuid;
  c_sequence : Z;
  c_state : command_state;
  c_failure_attempts : Z;
  c_generation : Z;
  c_last_error : option string;
  c_audit : audit
}.

Inductive outbox_state := PENDING | CLAIMED | SENT.

Record outbox_row := mk_outbox {
  o_generation : Z;
  o_state : outbox_state;
  o_claim_token : option uuid;
  o_claim_until : option timestamp;
  o_audit : audit
}.

Record audit_row := mk_audit_row {
  a_namespace : string;
  a_command_id : uuid;
  a_action : string;
  a_reason : string;
  a_audit : audit
}.

#[global] Instance inbox_state_eq_dec : EqDecision inbox_state.
Proof. solve_decision. Defined.
#[global] Instance command_state_eq_dec : EqDecision command_state.
Proof. solve_decision. Defined.
#[global] Instance outbox_state_eq_dec : EqDecision outbox_state.
Proof. solve_decision. Defined.

Record db := mk_db {
  ew_bindings : gmap (string * uuid) binding;
  ew_inbox : gmap (string * uuid) inbox_row;
  ew_commands : gmap (string * uuid) command_row;
  ew_outbox : gmap (string * uuid) outbox_row;
  ew_audit : list audit_row
}.

Definition empty_db : db := mk_db ∅ ∅ ∅ ∅ [].

Definition set_bindings (f : gmap (string * uuid) binding → gmap (string * uuid) binding) (d : db) : db :=
  mk_db (f (ew_bindings d)) (ew_inbox d) (ew_commands d) (ew_outbox d) (ew_audit d).
Definition set_inbox (f : gmap (string * uuid) inbox_row → gmap (string * uuid) inbox_row) (d : db) : db :=
  mk_db (ew_bindings d) (f (ew_inbox d)) (ew_commands d) (ew_outbox d) (ew_audit d).
Definition set_commands (f : gmap (string * uuid) command_row → gmap (string * uuid) command_row) (d : db) : db :=
  mk_db (ew_bindings d) (ew_inbox d) (f (ew_commands d)) (ew_outbox d) (ew_audit d).
Definition set_outbox (f : gmap (string * uuid) outbox_row → gmap (string * uuid) outbox_row) (d : db) : db :=
  mk_db (ew_bindings d) (ew_inbox d) (ew_commands d) (f (ew_outbox d)) (ew_audit d).

Definition unique_violation : exn := DatabaseError "duplicate key value violates unique constraint".
Definition foreign_key_violation : exn := DatabaseError "insert or update violates foreign key constraint".
Definition check_violation : exn := DatabaseError "new row violates check constraint".
Definition numeric_overflow : exn := DatabaseError "integer out of range".

(** [DONE] and [IGNORED] commands release the next command of their
    execution; those and [FAILED] take no further work. *)
Definition settled (s : command_state) : bool :=
  match s with DONE | IGNORED => true | _ => false end.
Definition terminal (s : command_state) : bool :=
  match s with DONE | IGNORED | FAILED => true | _ => false end.

(** ** Operations *)

Section Store.
Context `{EventCodec} (uuid5 : string → uuid) (namespace : string).

(** [Store.register] *)
Definition register (now : timestamp) (execution_id : uuid)
    (session_id task_id actor : string) : tx db unit :=
  tx_guard (negb (String.eqb session_id "" || String.eqb task_id "" || String.eqb actor ""))
    (ValueError "session_id, task_id and actor are required");;
  (* INSERT ... ON CONFLICT DO NOTHING *)
  tx_modify (set_bindings (λ t,
    match t !! (namespace, execution_id) with
    | Some _ => t
    | None => <[(namespace, execution_id) :=
        mk_binding session_id task_id 0 now None 0 0 (mk_audit now now actor actor)]> t
    end));;
  d ← tx_get;
  tx_guard
    (bool_decide ((λ b, (b_session_id b, b_task_id b)) <$> ew_bindings d !! (namespace, execution_id)
                  = Some (session_id, task_id)))
    (ValueError "Execution binding is immutable").

(** A row that already holds the event id or the (execution, sequence) pair. *)
Definition inbox_conflict (d : db) (e : ExecutorEvent) : bool :=
  bool_decide (is_Some (ew_inbox d !! (namespace, event_id e))) ||
  existsb (λ kr, (i_execution_id kr.2 =? ev_execution_id e)%N && (i_sequence kr.2 =? event_sequence e))
    (rows namespace (ew_inbox d)).

Definition bump_catch_up (now : timestamp) (b : binding) : binding :=
  mk_binding (b_session_id b) (b_task_id b) (b_last_sequence b) (b_next_scan_at b)
    (b_last_error b) (b_catch_up_version b + 1) (b_caught_up_version b)
    (touched now "worker" (b_audit b)).

(** [Store.ingest] *)
Definition ingest (now : timestamp) (event : ExecutorEvent) (catch_up : bool) : tx db unit :=
  let data := model_dump event in
  tx_guard (fits_int8 (event_sequence event)) numeric_overflow;;
  tx_guard (0 <? event_sequence event) check_violation;;
  (* INSERT ... ON CONFLICT DO NOTHING *)
  tx_modify (λ d, if inbox_conflict d event then d
    else set_inbox <[(namespace, event_id event) :=
      mk_inbox (ev_execution_id event) (event_sequence event) data RECEIVED
        (mk_audit now now "worker" "worker")]> d);;
  d ← tx_get;
  tx_guard (bool_decide (i_event <$> ew_inbox d !! (namespace, event_id event) = Some data))
    (ValueError "Conflicting event identity or sequence");;
  if catch_up then
    tx_guard (match ew_bindings d !! (namespace, ev_execution_id event) with
              | Some b => fits_int8 (b_catch_up_version b + 1)
              | None => true
              end) numeric_overflow;;
    tx_modify (set_bindings (alter (bump_catch_up now) (namespace, ev_execution_id event)))
  else mret tt.

(** [Store.finish_catch_up] *)
Definition finish_catch_up (now : timestamp) (execution_id : uuid) (version : Z) : tx db unit :=
  tx_modify (set_bindings (alter (λ b,
    mk_binding (b_session_id b) (b_task_id b) (b_last_sequence b) (b_next_scan_at b)
      (b_last_error b) (b_catch_up_version b) (Z.max (b_caught_up_version b) version)
      (touched now "worker" (b_audit b))) (namespace, execution_id))).

(** [Store.scan_candidates] *)
Definition scan_due (d : db) (now : timestamp) (row : uuid * binding) : bool :=
  (b_next_scan_at row.2 <=? now) &&
  ((b_caught_up_version row.2 <? b_catch_up_version row.2) ||
   existsb (λ kr, (i_execution_id kr.2 =? row.1)%N && (b_last_sequence row.2 <? i_sequence kr.2))
     (rows namespace (ew_inbox d))).

Definition scan_key (row : uuid * binding) : sort_key := (b_next_scan_at row.2, Z.of_N row.1).

Definition scan_candidates (now : timestamp) (limit : nat) (d : db) : list (uuid * binding) :=
  select_page scan_key (scan_due d now) limit (rows namespace (ew_bindings d)).

(** [Store.scan_error] *)
Definition scan_error (now : timestamp) (execution_id : uuid) (error : string) : tx db unit :=
  tx_modify (set_bindings (alter (λ b,
    mk_binding (b_session_id b) (b_task_id b) (b_last_sequence b) (now + microseconds 5)
      (Some (slice_to 2000 error)) (b_catch_up_version b) (b_caught_up_version b)
      (touched now "worker" (b_audit b))) (namespace, execution_id))).

(** [uuid5(NAMESPACE_URL, f"{namespace}/event/{event_id}")] *)
Definition command_id_of (event : uuid) : uuid :=
  uuid5 (namespace +:+ "/event/" +:+ uuid_str event).

(** [INSERT INTO ew_commands] with its keys: primary, unique event, foreign. *)
Definition insert_command (now : timestamp) (command_id : uuid) (event : ExecutorEvent)
    (execution_id : uuid) : tx db unit :=
  d ← tx_get;
  tx_guard (bool_decide (ew_commands d !! (namespace, command_id) = None)) unique_violation;;
  tx_guard (negb (existsb (λ kr, (c_event_id kr.2 =? event_id event)%N)
                    (rows namespace (ew_commands d)))) unique_violation;;
  tx_guard (bool_decide (is_Some (ew_inbox d !! (namespace, event_id event)))) foreign_key_violation;;
  tx_modify (set_commands <[(namespace, command_id) :=
    mk_command (event_id event) execution_id (event_sequence event) READY 0 0 None
      (mk_audit now now "worker" "worker")]>).

Definition insert_outbox (now : timestamp) (command_id : uuid) : tx db unit :=
  d ← tx_get;
  tx_guard (bool_decide (ew_outbox d !! (namespace, command_id) = None)) unique_violation;;
  tx_guard (bool_decide (is_Some (ew_commands d !! (namespace, command_id)))) foreign_key_violation;;
  tx_modify (set_outbox <[(namespace, command_id) :=
    mk_outbox 0 PENDING None None (mk_audit now now "worker" "worker")]>).

Definition mark_inbox (now : timestamp) (routed : bool) (r : inbox_row) : inbox_row :=
  mk_inbox (i_execution_id r) (i_sequence r) (i_event r)
    (if routed then ROUTED else INBOX_IGNORED) (touched now "worker" (i_audit r)).

(** One turn of the loop of [Store.advance], after the contiguity test. *)
Definition route_event (now : timestamp) (execution_id : uuid) (event_types : gset string)
    (event : ExecutorEvent) : tx db unit :=
  let routed := bool_decide (event_type event ∈ event_types) in
  (if routed then
     let command_id := command_id_of (event_id event) in
     insert_command now command_id event execution_id;;
     insert_outbox now command_id
   else mret tt);;
  tx_modify (set_inbox (alter (mark_inbox now routed) (namespace, event_id event))).

(** The loop: (sequence reached, number advanced, gap). *)
Fixpoint advance_loop (now : timestamp) (execution_id : uuid) (event_types : gset string)
    (sequence count : Z) (events : list json) : tx db (Z * Z * option Z) :=
  match events with
  | [] => mret (sequence, count, None)
  | data :: events' =>
      event ← (λ d, match model_validate data with Ok e => Ok (e, d) | Err e => Err e end);
      if negb (event_sequence event =? sequence + 1) then mret (sequence, count, Some sequence)
      else
        route_event now execution_id event_types event;;
        advance_loop now execution_id event_types (event_sequence event) (count + 1) events'
  end.

(** [SELECT event ... WHERE sequence > s ORDER BY sequence LIMIT n] *)
Definition pending_events (d : db) (execution_id : uuid) (sequence : Z) (limit : nat) : list json :=
  map (λ kr, i_event kr.2)
    (select_page (λ kr : uuid * inbox_row, (i_sequence kr.2, 0))
      (λ kr, (i_execution_id kr.2 =? execution_id)%N && (sequence <? i_sequence kr.2))
      limit (rows namespace (ew_inbox d))).

Definition advanced (now : timestamp) (sequence : Z) (b : binding) : binding :=
  mk_binding (b_session_id b) (b_task_id b) sequence now None
    (b_catch_up_version b) (b_caught_up_version b) (touched now "worker" (b_audit b)).

(** [Store.advance]: (number advanced, gap-after-sequence). *)
Definition advance (now : timestamp) (execution_id : uuid) (event_types : gset string)
    (limit : nat) : tx db (Z * option Z) :=
  d ← tx_get;
  match ew_bindings d !! (namespace, execution_id) with
  | None => mret (0, None)
  | Some b =>
      let sequence := b_last_sequence b in
      '(sequence', count, gap) ←
        advance_loop now execution_id event_types sequence 0
          (pending_events d execution_id sequence limit);
      tx_modify (set_bindings (alter (advanced now sequence') (namespace, execution_id)));;
      mret (count, gap)
  end.

(** [o.claim_until < now()]: unknown, so not selected, when it is NULL. *)
Definition claim_expired (now : timestamp) (o : outbox_row) : bool :=
  match o_claim_until o with Some t => t <? now | None => false end.

(** The WHERE clause of [Store.claim_outbox]. [locked] are the rows that
    another transaction holds, skipped by [FOR UPDATE ... SKIP LOCKED]. *)
Definition claimable (d : db) (now : timestamp) (locked : gset uuid) (row : uuid * outbox_row) : bool :=
  match ew_commands d !! (namespace, row.1) with
  | None => false
  | Some c =>
      bool_decide (c_state c = READY) &&
      (bool_decide (o_state row.2 = PENDING) ||
       (bool_decide (o_state row.2 = CLAIMED) && claim_expired now row.2)) &&
      negb (existsb (λ kr, (c_execution_id kr.2 =? c_execution_id c)%N &&
                           (c_sequence kr.2 <? c_sequence c) && negb (settled (c_state kr.2)))
              (rows namespace (ew_commands d))) &&
      negb (bool_decide (row.1 ∈ locked))
  end.

Definition outbox_key (row : uuid * outbox_row) : sort_key :=
  (created_at (o_audit row.2), Z.of_N row.1).

Definition claim_row (now : timestamp) (token : uuid) (lease_seconds : Z) (o : outbox_row) : outbox_row :=
  mk_outbox (o_generation o) CLAIMED (Some token) (Some (now + microseconds lease_seconds))
    (touched now "worker" (o_audit o)).

(** [Store.claim_outbox]: the rows that [RETURNING] gives back, here in the
    order in which they were picked. *)
Definition claim_outbox (now : timestamp) (token : uuid) (locked : gset uuid) (limit : nat)
    (lease_seconds : Z) : tx db (list (uuid * outbox_row)) :=
  d ← tx_get;
  let picked := select_page outbox_key (claimable d now locked) limit (rows namespace (ew_outbox d)) in
  let ids := map fst picked in
  tx_modify (set_outbox (update_where
    (λ k _, bool_decide (k.1 = namespace) && bool_decide (k.2 ∈ ids))
    (claim_row now token lease_seconds)));;
  mret (map (λ kr, (kr.1, claim_row now token lease_seconds kr.2)) picked).

(** [Store.finish_publications] *)
Definition finish_publications (now : timestamp) (token : uuid) (command_ids : list uuid)
    (sent : bool) : tx db unit :=
  if bool_decide (command_ids = []) then mret tt else
  tx_modify (set_outbox (update_where
    (λ k o, bool_decide (k.1 = namespace) && bool_decide (o_claim_token o = Some token) &&
            bool_decide (k.2 ∈ command_ids))
    (λ o, mk_outbox (o_generation o) (if sent then SENT else PENDING) None None
            (touched now "worker" (o_audit o))))).

(** [Store.command]: the command joined with its event and its binding. *)
Definition command (d : db) (command_id : uuid) : option (command_row * inbox_row * binding) :=
  c ← ew_commands d !! (namespace, command_id);
  i ← ew_inbox d !! (namespace, c_event_id c);
  b ← ew_bindings d !! (namespace, c_execution_id c);
  Some (c, i, b).

Definition failed_key (row : uuid * command_row) : sort_key :=
  (Z.of_N (c_execution_id row.2), c_sequence row.2).

(** [Store.failed_page] *)
Definition failed_page (after : option (uuid * Z)) (limit : Z) (d : db)
    : result (list (uuid * command_row)) :=
  if negb ((1 <=? limit) && (limit <=? 100))
  then Err (ValueError "Failed command page size must be 1..100")
  else Ok (keyset_page failed_key
             (λ row, negb (settled (c_state row.2)) && bool_decide (c_state row.2 = FAILED))
             ((λ a, (Z.of_N a.1, a.2)) <$> after) (Z.to_nat limit)
             (rows namespace (ew_commands d))).

(** [Store.context] *)
Definition context (command_id : uuid) (row : command_row * inbox_row * binding) : result EventContext :=
  let '(c, i, b) := row in
  event ← model_validate (i_event i);
  Ok (mk_context namespace (b_session_id b) (b_task_id b) (c_execution_id c) command_id event).

Definition with_state (now : timestamp) (state : command_state) (error : option string)
    (failed_attempt : bool) (c : command_row) : command_row :=
  mk_command (c_event_id c) (c_execution_id c) (c_sequence c) state
    (c_failure_attempts c + Z.b2z failed_attempt) (c_generation c)
    (match error with
     | Some m => if String.eqb m "" then None else Some (slice_to 2000 m)
     | None => None
     end)
    (touched now "worker" (c_audit c)).

Definition sent_row (now : timestamp) (o : outbox_row) : outbox_row :=
  mk_outbox (o_generation o) SENT None None (touched now "worker" (o_audit o)).

(** [Store.set_state] *)
Definition set_state (now : timestamp) (command_id : uuid) (state : command_state)
    (error : option string) (failed_attempt : bool) : tx db unit :=
  d ← tx_get;
  tx_guard (match ew_commands d !! (namespace, command_id) with
            | Some c => fits_int4 (c_failure_attempts c + Z.b2z failed_attempt)
            | None => true
            end) numeric_overflow;;
  tx_modify (set_commands (alter (with_state now state error failed_attempt) (namespace, command_id)));;
  if terminal state
  then tx_modify (set_outbox (alter (sent_row now) (namespace, command_id)))
  else mret tt.

Definition resolved (now : timestamp) (retry : bool) (actor : string) (c : command_row) : command_row :=
  mk_command (c_event_id c) (c_execution_id c) (c_sequence c)
    (if retry then READY else IGNORED) 0 (c_generation c + 1) None
    (touched now actor (c_audit c)).

Definition requeued (now : timestamp) (generation : Z) (actor : string) (o : outbox_row) : outbox_row :=
  mk_outbox generation PENDING None None (touched now actor (o_audit o)).

(** [Store.resolve_failed] *)
Definition resolve_failed (now : timestamp) (command_id : uuid) (retry : bool)
    (actor reason : string) : tx db unit :=
  tx_guard (negb (is_blank actor || is_blank reason)) (ValueError "actor and reason are required");;
  d ← tx_get;
  match ew_commands d !! (namespace, command_id) with
  | Some c =>
      tx_guard (bool_decide (c_state c = FAILED)) (ValueError "Command is not FAILED");;
      tx_guard (fits_int4 (c_generation c + 1)) numeric_overflow;;
      tx_modify (set_commands (alter (resolved now retry actor) (namespace, command_id)));;
      (if retry
       then tx_modify (set_outbox (alter (requeued now (c_generation c + 1) actor) (namespace, command_id)))
       else mret tt);;
      tx_modify (λ d, mk_db (ew_bindings d) (ew_inbox d) (ew_commands d) (ew_outbox d)
        (ew_audit d ++ [mk_audit_row namespace command_id (if retry then "RETRY" else "SKIP") reason
                          (mk_audit now now actor actor)]))
  | None => tx_raise (ValueError "Command is not FAILED")
  end.

Definition inbox_state_str (s : inbox_state) : string :=
  match s with RECEIVED => "RECEIVED" | ROUTED => "ROUTED" | INBOX_IGNORED => "IGNORED" end.
Definition command_state_str (s : command_state) : string :=
  match s with READY => "READY" | RUNNING => "RUNNING" | DONE => "DONE" | FAILED => "FAILED"
             | IGNORED => "IGNORED" end.
Definition outbox_state_str (s : outbox_state) : string :=
  match s with PENDING => "PENDING" | CLAIMED => "CLAIMED" | SENT => "SENT" end.

(** [SELECT label, count( * ) ... GROUP BY state]: one entry per state present. *)
Definition count_groups (labels : list string) : gmap string Z :=
  foldr (λ l m, <[l := default 0 (m !! l) + 1]> m) ∅ labels.

(** [Store.counts] *)
Definition counts (d : db) : gmap string Z :=
  count_groups
    (map (λ kr, "command:" +:+ command_state_str (c_state kr.2)) (rows namespace (ew_commands d)) ++
     map (λ kr, "inbox:" +:+ inbox_state_str (i_state kr.2)) (rows namespace (ew_inbox d)) ++
     map (λ kr, "outbox:" +:+ outbox_state_str (o_state kr.2)) (rows namespace (ew_outbox d))).

End Store.
