(* ===== verification/WorkerStoreInv.v ===== *)
(** * Invariant of the worker's tables

    Every transaction of [Store] keeps the tables consistent: the Inbox holds
    validated events, the routed prefix of an execution is contiguous, each
    routed event has exactly one command and one Outbox row, and a command
    that takes no further work is never left publishable. *)

From stdpp Require Import base gmap strings list sorting relations.
From Stdlib Require Import ZArith Lia.
From S2P Require Import Prelude Text WorkerContracts WorkerStore.
Local Open Scope Z_scope.

Section Invariant.
Context `{EventCodec} (uuid5 : string → uuid).

(** The tables' consistency, seen from the sequence [last] each registered
    execution has been routed up to. *)
Record tables_ok (last : gmap (string * uuid) Z) (inbox : gmap (string * uuid) inbox_row)
    (commands : gmap (string * uuid) command_row) (outbox : gmap (string * uuid) outbox_row) : Prop := {
  ok_event : ∀ ns id r, inbox !! (ns, id) = Some r →
    ∃ e, i_event r = model_dump e ∧ event_valid e ∧ event_id e = id ∧
         ev_execution_id e = i_execution_id r ∧ event_sequence e = i_sequence r ∧
         i_sequence r ≤ int8_max;
  ok_unique : ∀ ns id1 id2 r1 r2, inbox !! (ns, id1) = Some r1 → inbox !! (ns, id2) = Some r2 →
    i_execution_id r1 = i_execution_id r2 → i_sequence r1 = i_sequence r2 → id1 = id2;
  ok_last : ∀ k s, last !! k = Some s → 0 ≤ s;
  ok_prefix : ∀ ns ex s n, last !! (ns, ex) = Some s → 1 ≤ n ≤ s →
    ∃ id r, inbox !! (ns, id) = Some r ∧ i_execution_id r = ex ∧ i_sequence r = n ∧
            i_state r ≠ RECEIVED;
  ok_tail : ∀ ns id r, inbox !! (ns, id) = Some r → i_state r ≠ RECEIVED →
    ∃ s, last !! (ns, i_execution_id r) = Some s ∧ i_sequence r ≤ s;
  ok_command : ∀ ns c r, commands !! (ns, c) = Some r →
    c = command_id_of uuid5 ns (c_event_id r) ∧
    ∃ i, inbox !! (ns, c_event_id r) = Some i ∧ i_state i = ROUTED ∧
         i_execution_id i = c_execution_id r ∧ i_sequence i = c_sequence r;
  ok_routed : ∀ ns id r, inbox !! (ns, id) = Some r → i_state r = ROUTED →
    c_event_id <$> commands !! (ns, command_id_of uuid5 ns id) = Some id;
  ok_outbox : ∀ k, is_Some (outbox !! k) ↔ is_Some (commands !! k);
  ok_generation : ∀ k o c, outbox !! k = Some o → commands !! k = Some c →
    0 ≤ o_generation o ≤ c_generation c;
  ok_claim : ∀ k o, outbox !! k = Some o →
    (o_state o = CLAIMED ↔ is_Some (o_claim_token o)) ∧
    (is_Some (o_claim_token o) ↔ is_Some (o_claim_until o));
  ok_terminal : ∀ k o c, outbox !! k = Some o → commands !! k = Some c →
    terminal (c_state c) = true → o_state o = SENT
}.

Definition store_ok (d : db) : Prop :=
  tables_ok (b_last_sequence <$> ew_bindings d) (ew_inbox d) (ew_commands d) (ew_outbox d).

(** Every way a transaction of the [Store] of namespace [ns] can change the
    tables. *)
Inductive store_step (ns : string) (d d' : db) : Prop :=
| step_register now ex sess task actor :
    register ns now ex sess task actor d = Ok (tt, d') → store_step ns d d'
| step_ingest now e cu :
    event_valid e → ingest ns now e cu d = Ok (tt, d') → store_step ns d d'
| step_finish_catch_up now ex v :
    finish_catch_up ns now ex v d = Ok (tt, d') → store_step ns d d'
| step_scan_error now ex err :
    scan_error ns now ex err d = Ok (tt, d') → store_step ns d d'
| step_advance now ex types limit r :
    advance uuid5 ns now ex types limit d = Ok (r, d') → store_step ns d d'
| step_claim now token locked limit lease r :
    claim_outbox ns now token locked limit lease d = Ok (r, d') → store_step ns d d'
| step_finish now token ids sent :
    finish_publications ns now token ids sent d = Ok (tt, d') → store_step ns d d'
| step_set_state now c st err fa :
    set_state ns now c st err fa d = Ok (tt, d') → store_step ns d d'
| step_resolve now c retry actor reason :
    resolve_failed ns now c retry actor reason d = Ok (tt, d') → store_step ns d d'.

(** Transactions of any number of workers, in any namespaces, in the order in
    which they commit. *)
Definition store_next (d d' : db) : Prop := ∃ ns, store_step ns d d'.
Definition reachable (d : db) : Prop := rtc store_next empty_db d.

(** ** Preservation *)

Lemma store_ok_empty : store_ok empty_db.
Proof.
  unfold store_ok, empty_db. simpl. rewrite fmap_empty.
  split; intros *; rewrite ?lookup_empty; try done; intros; rewrite ?is_Some_alt; naive_solver.
Qed.

(** The tables only see the bindings through [b_last_sequence]. *)
Lemma store_ok_bindings d f :
  b_last_sequence <$> f (ew_bindings d) = b_last_sequence <$> ew_bindings d →
  store_ok d → store_ok (set_bindings f d).
Proof. unfold store_ok. simpl. by intros ->. Qed.

Lemma fmap_alter_last (f : binding → binding) (k : string * uuid) (t : gmap (string * uuid) binding) :
  (∀ b, b_last_sequence (f b) = b_last_sequence b) →
  b_last_sequence <$> alter f k t = b_last_sequence <$> t.
Proof.
  intros Hf. apply map_eq. intros j. rewrite !lookup_fmap, lookup_alter.
  case_decide; subst; [|done]. destruct (t !! j); simpl; [by rewrite Hf|done].
Qed.

Lemma tables_ok_add_last last inbox cmds outbox ns ex :
  last !! (ns, ex) = None →
  tables_ok last inbox cmds outbox → tables_ok (<[(ns, ex) := 0]> last) inbox cmds outbox.
Proof.
  intros Hnone [H1 H2 H3 H4 H5 H6 H7 H8 H9 H10 H11]. split; auto.
  - intros k s. rewrite lookup_insert. case_decide; [intros [= <-]; lia|eauto].
  - intros ns' ex' s n. rewrite lookup_insert. case_decide; [intros [= <-]; lia|eauto].
  - intros ns' id r Hr Hs. destruct (H5 _ _ _ Hr Hs) as (s & Hs' & Hle).
    exists s. rewrite lookup_insert_ne; [done|]. intros [= <- ->]. congruence.
Qed.

Lemma register_ok ns now ex sess task actor :
  preserves store_ok (register ns now ex sess task actor).
Proof.
  intros d u d' Hd Hrun. unfold register in Hrun. tx_inv.
  destruct (ew_bindings d !! (ns, ex)) eqn:E.
  - unfold store_ok, set_bindings. simpl. by rewrite E.
  - unfold store_ok, set_bindings. simpl. rewrite E, fmap_insert. simpl.
    apply tables_ok_add_last; [|done]. by rewrite lookup_fmap, E.
Qed.

Lemma finish_catch_up_ok ns now ex v : preserves store_ok (finish_catch_up ns now ex v).
Proof. apply preserves_modify. intros d. by apply store_ok_bindings, fmap_alter_last. Qed.

Lemma scan_error_ok ns now ex err : preserves store_ok (scan_error ns now ex err).
Proof. apply preserves_modify. intros d. by apply store_ok_bindings, fmap_alter_last. Qed.

Lemma tables_ok_receive last inbox cmds outbox ns e a :
  event_valid e → fits_int8 (event_sequence e) = true →
  inbox !! (ns, event_id e) = None →
  (∀ id r, inbox !! (ns, id) = Some r → i_execution_id r = ev_execution_id e →
           i_sequence r ≠ event_sequence e) →
  tables_ok last inbox cmds outbox →
  tables_ok last (<[(ns, event_id e) :=
    mk_inbox (ev_execution_id e) (event_sequence e) (model_dump e) RECEIVED a]> inbox) cmds outbox.
Proof.
  intros Hv Hfit Hnone Hnew [H1 H2 H3 H4 H5 H6 H7 H8 H9 H10 H11].
  split; auto.
  - intros ns' id r. rewrite lookup_insert. case_decide as E; [|eauto].
    injection E as <- <-. intros [= <-]. exists e. simpl. do 5 (split; [done|]).
    unfold fits_int8 in Hfit. lia.
  - intros ns' id1 id2 r1 r2. rewrite !lookup_insert.
    case_decide as E1; case_decide as E2; simplify_eq; intros Hr1 Hr2; simplify_eq; simpl; eauto.
    + intros Hex Hseq. symmetry in Hex, Hseq. by destruct (Hnew _ _ Hr2 Hex).
    + intros Hex Hseq. by destruct (Hnew _ _ Hr1 Hex).
  - intros ns' ex s n Hl Hn. destruct (H4 _ _ _ _ Hl Hn) as (id & r & Hr & Hrest).
    exists id, r. rewrite lookup_insert_ne; [done|]. intros [= ? ?]; subst; congruence.
  - intros ns' id r. rewrite lookup_insert. case_decide; [|eauto]. intros [= <-]. done.
  - intros ns' c r Hc. destruct (H6 _ _ _ Hc) as (Hid & i & Hi & Hrest).
    split; [done|]. exists i. rewrite lookup_insert_ne; [done|]. intros [= ? ?]; subst; congruence.
  - intros ns' id r. rewrite lookup_insert. case_decide; [|eauto]. by intros [= <-].
Qed.

Lemma inbox_conflict_false ns d e : inbox_conflict ns d e = false →
  ew_inbox d !! (ns, event_id e) = None ∧
  (∀ id r, ew_inbox d !! (ns, id) = Some r → i_execution_id r = ev_execution_id e →
           i_sequence r ≠ event_sequence e).
Proof.
  unfold inbox_conflict. rewrite orb_false_iff, bool_decide_eq_false, <- eq_None_not_Some.
  intros [Hnone Hex]. split; [done|]. intros id r Hr He Hs.
  apply not_true_iff_false in Hex. apply Hex. apply existsb_exists.
  exists (id, r). simpl. split; [by apply list_elem_of_In, elem_of_rows|].
  rewrite andb_true_iff, N.eqb_eq, Z.eqb_eq. done.
Qed.

Lemma ingest_ok ns now e cu : event_valid e → preserves store_ok (ingest ns now e cu).
Proof.
  intros Hv d u d' Hd Hrun. unfold ingest in Hrun. tx_inv.
  set (d1 := if inbox_conflict ns d e then d else _) in *.
  assert (Hd1 : store_ok d1).
  { unfold d1. destruct (inbox_conflict ns d e) eqn:E; [done|].
    apply inbox_conflict_false in E as [? ?]. by apply tables_ok_receive. }
  destruct cu; tx_inv; [|done]. by apply store_ok_bindings; [apply fmap_alter_last|].
Qed.

(** Marking the next event of an execution moves the routed prefix by one. *)
Section Route.
Context (last : gmap (string * uuid) Z) (inbox : gmap (string * uuid) inbox_row)
  (cmds : gmap (string * uuid) command_row) (outbox : gmap (string * uuid) outbox_row).
Context (ns : string) (ex id : uuid) (s : Z) (r : inbox_row).
Context (Hok : tables_ok last inbox cmds outbox) (Hlast : last !! (ns, ex) = Some s)
  (Hr : inbox !! (ns, id) = Some r) (Hex : i_execution_id r = ex) (Hseq : i_sequence r = s + 1).

Lemma next_is_received : i_state r = RECEIVED.
Proof.
  destruct (i_state r) eqn:E; [done|exfalso..].
  all: destruct (ok_tail _ _ _ _ Hok _ _ _ Hr ltac:(by rewrite E)) as (s' & Hs' & Hle).
  all: rewrite Hex, Hlast in Hs'; injection Hs' as <-; lia.
Qed.

Lemma next_has_no_command c cr : cmds !! (ns, c) = Some cr → c_event_id cr ≠ id.
Proof.
  intros Hc Hid. destruct (ok_command _ _ _ _ Hok _ _ _ Hc) as (_ & i & Hi & Hst & _).
  pose proof next_is_received. rewrite Hid in Hi. congruence.
Qed.

Lemma mark_prefix now routed s' n : 1 ≤ n ≤ s' → s' = s + 1 →
  ∃ id' r', alter (mark_inbox now routed) (ns, id) inbox !! (ns, id') = Some r' ∧
    i_execution_id r' = ex ∧ i_sequence r' = n ∧ i_state r' ≠ RECEIVED.
Proof.
  intros Hn ->. destruct (decide (n = s + 1)) as [->|].
  - exists id, (mark_inbox now routed r). rewrite lookup_alter_eq, Hr. simpl.
    repeat split; try done. by destruct routed.
  - destruct (ok_prefix _ _ _ _ Hok ns ex s n Hlast) as (id' & r' & Hr' & He & Hs & Hst); [lia|].
    exists id', r'. rewrite lookup_alter_ne; [done|]. intros [= Heq]. rewrite <- Heq, Hr in Hr'. injection Hr' as <-. lia.
Qed.

Lemma mark_tables_ok now routed cmds' outbox' :
  (∀ ns' c cr, cmds' !! (ns', c) = Some cr → cmds !! (ns', c) = Some cr ∨
     (ns' = ns ∧ routed = true ∧ c = command_id_of uuid5 ns id ∧ c_event_id cr = id ∧
      c_execution_id cr = ex ∧ c_sequence cr = s + 1)) →
  (∀ k id', c_event_id <$> cmds !! k = Some id' → c_event_id <$> cmds' !! k = Some id') →
  (routed = true → c_event_id <$> cmds' !! (ns, command_id_of uuid5 ns id) = Some id) →
  (∀ k, is_Some (outbox' !! k) ↔ is_Some (cmds' !! k)) →
  (∀ k o c, outbox' !! k = Some o → cmds' !! k = Some c → 0 ≤ o_generation o ≤ c_generation c) →
  (∀ k o, outbox' !! k = Some o → (o_state o = CLAIMED ↔ is_Some (o_claim_token o)) ∧
      (is_Some (o_claim_token o) ↔ is_Some (o_claim_until o))) →
  (∀ k o c, outbox' !! k = Some o → cmds' !! k = Some c → terminal (c_state c) = true → o_state o = SENT) →
  tables_ok (<[(ns, ex) := s + 1]> last) (alter (mark_inbox now routed) (ns, id) inbox) cmds' outbox'.
Proof.
  intros Hc Hmono Hrouted Ho Hg Hcl Ht. pose proof next_is_received as Hrec.
  destruct Hok as [H1 H2 H3 H4 H5 H6 H7 H8 H9 H10 H11]. split; auto.
  - intros ns' id' r' (r0 & Hr0 & ->)%lookup_alter_Some.
    destruct (H1 _ _ _ Hr0) as (e & ?). exists e. by case_decide.
  - intros ns' id1 id2 r1 r2 (r1' & Hr1 & ->)%lookup_alter_Some (r2' & Hr2 & ->)%lookup_alter_Some.
    repeat case_decide; simpl; eauto.
  - intros k s'. rewrite lookup_insert. case_decide; [|eauto].
    intros [= <-]. specialize (H3 _ _ Hlast). lia.
  - intros ns' ex' s' n. rewrite lookup_insert. case_decide as E.
    + injection E as <- <-. intros [= <-] Hn. by eapply mark_prefix.
    + intros Hl Hn. destruct (H4 _ _ _ _ Hl Hn) as (id' & r' & Hr' & He & Hrest).
      exists id', r'. rewrite lookup_alter_ne; [done|]. intros [= -> ->]. simplify_eq.
  - intros ns' id' r' (r0 & Hr0 & ->)%lookup_alter_Some. case_decide as E.
    + injection E as <- <-. simplify_eq. intros _. exists (s + 1). simpl.
      rewrite lookup_insert_eq. split; [done|lia].
    + intros Hst. destruct (H5 _ _ _ Hr0 Hst) as (s' & Hs' & Hle).
      rewrite lookup_insert. case_decide as E2; [|eauto].
      injection E2 as <- E2. rewrite <- E2, Hlast in Hs'. simplify_eq. exists (s' + 1). split; [done|lia].
  - intros ns' c cr Hcr. destruct (Hc _ _ _ Hcr) as [Hold|(-> & -> & -> & <- & He & Hs)].
    + destruct (H6 _ _ _ Hold) as (Hid & i & Hi & Hst & Hrest). split; [done|].
      exists i. rewrite lookup_alter_ne; [done|]. intros [= -> ->]. congruence.
    + split; [done|]. exists (mark_inbox now true r). rewrite lookup_alter_eq, Hr. simpl.
      repeat split; congruence.
  - intros ns' id' r' (r0 & Hr0 & ->)%lookup_alter_Some. case_decide as E.
    + injection E as <- <-. simpl. destruct routed; [auto|done].
    + eauto.
Qed.
End Route.

(** What one turn of the loop commits. *)
Lemma route_event_Ok ns now ex types e d u d' :
  route_event uuid5 ns now ex types e d = Ok (u, d') →
  let c := command_id_of uuid5 ns (event_id e) in
  let routed := bool_decide (event_type e ∈ types) in
  (routed = true → ew_commands d !! (ns, c) = None ∧ ew_outbox d !! (ns, c) = None) ∧
  d' = set_inbox (alter (mark_inbox now routed) (ns, event_id e))
    (if routed then
       set_outbox <[(ns, c) := mk_outbox 0 PENDING None None (mk_audit now now "worker" "worker")]>
         (set_commands <[(ns, c) := mk_command (event_id e) ex (event_sequence e) READY 0 0 None
            (mk_audit now now "worker" "worker")]> d)
     else d).
Proof.
  intros Hrun. unfold route_event in Hrun. cbv zeta.
  destruct (bool_decide (event_type e ∈ types)).
  - unfold insert_command, insert_outbox in Hrun. tx_inv.
    repeat match goal with Hb : bool_decide _ = true |- _ => apply bool_decide_eq_true in Hb end.
    done.
  - tx_inv. done.
Qed.

Lemma route_event_ok ns now ex types e d u d' last s r :
  tables_ok last (ew_inbox d) (ew_commands d) (ew_outbox d) →
  last !! (ns, ex) = Some s → ew_inbox d !! (ns, event_id e) = Some r →
  i_execution_id r = ex → i_sequence r = event_sequence e → event_sequence e = s + 1 →
  route_event uuid5 ns now ex types e d = Ok (u, d') →
  tables_ok (<[(ns, ex) := event_sequence e]> last) (ew_inbox d') (ew_commands d') (ew_outbox d') ∧
  ew_bindings d' = ew_bindings d.
Proof.
  intros Hok Hlast Hr Hex Hsq Hs Hrun.
  apply route_event_Ok in Hrun as [Hfresh ->]. rewrite Hs in *.
  destruct (bool_decide (event_type e ∈ types)) eqn:Hrouted; (split; [|done]); simpl.
  - destruct (Hfresh eq_refl) as [Hc Ho]. clear Hfresh Hrouted.
    pose proof Hok as [H1 H2 H3 H4 H5 H6 H7 H8 H9 H10 H11].
    eapply mark_tables_ok; try done.
    + intros ns' c cr. rewrite lookup_insert. case_decide as E; [|auto].
      injection E as <- <-. intros [= <-]. right. simpl. done.
    + intros k id' Hk. rewrite lookup_insert. case_decide; [|done]. subst. by rewrite Hc in Hk.
    + intros _. by rewrite lookup_insert_eq.
    + intros k. rewrite !lookup_insert. case_decide; [split; eauto|apply H8].
    + intros k o c. rewrite !lookup_insert. case_decide; [|eauto].
      intros [= <-] [= <-]. simpl. lia.
    + intros k o. rewrite !lookup_insert. case_decide; [|eauto].
      intros [= <-]. simpl. rewrite !is_Some_alt. naive_solver.
    + intros k o c. rewrite !lookup_insert. case_decide; [|eauto].
      intros [= <-] [= <-]. done.
  - destruct Hok as [H1 H2 H3 H4 H5 H6 H7 H8 H9 H10 H11] eqn:Eok. clear Eok.
    eapply mark_tables_ok; eauto. done.
Qed.

(** The events that [advance] reads are rows of the Inbox of its execution. *)
Definition from_inbox (ns : string) (ex : uuid) (d : db) (data : json) : Prop :=
  ∃ id r, ew_inbox d !! (ns, id) = Some r ∧ i_execution_id r = ex ∧ i_event r = data.

Lemma pending_events_from_inbox ns ex d s limit data :
  data ∈ pending_events ns d ex s limit → from_inbox ns ex d data.
Proof.
  unfold pending_events. intros ([id r] & -> & Hin)%list_elem_of_fmap.
  unfold select_page in Hin. apply elem_of_take_elem in Hin.
  rewrite elem_of_order_by, list_elem_of_filter, elem_of_rows, andb_true_iff, N.eqb_eq in Hin.
  exists id, r. simpl in *. tauto.
Qed.

Lemma route_event_from_inbox ns now ex types e d u d' ex' data :
  route_event uuid5 ns now ex types e d = Ok (u, d') →
  from_inbox ns ex' d data → from_inbox ns ex' d' data.
Proof.
  intros [_ ->]%route_event_Ok (id & r & Hr & He & Hd).
  set (routed := bool_decide _).
  exists id, (if decide (event_id e = id) then mark_inbox now routed r else r).
  split; [|by case_decide].
  replace (ew_inbox (set_inbox _ _)) with (alter (mark_inbox now routed) (ns, event_id e) (ew_inbox d))
    by by destruct routed.
  apply lookup_alter_Some. exists r. split; [done|]. repeat case_decide; simplify_eq; done.
Qed.

Lemma advance_loop_ok ns now ex types events s n d s' n' gap d' last :
  (∀ data, data ∈ events → from_inbox ns ex d data) →
  tables_ok last (ew_inbox d) (ew_commands d) (ew_outbox d) → last !! (ns, ex) = Some s →
  advance_loop uuid5 ns now ex types s n events d = Ok ((s', n', gap), d') →
  tables_ok (<[(ns, ex) := s']> last) (ew_inbox d') (ew_commands d') (ew_outbox d') ∧
  ew_bindings d' = ew_bindings d ∧ s' = s + (n' - n) ∧ n ≤ n' ≤ n + Z.of_nat (length events) ∧
  (∀ g, gap = Some g → g = s').
Proof.
  revert s n d last. induction events as [|data events IH]; intros s n d last Hin Hok Hlast Hrun.
  { simpl in Hrun. tx_inv. rewrite insert_id by done. simpl. split_and!; try done; lia. }
  cbn [advance_loop] in Hrun. tx_inv.
  destruct (Hin data) as (id & r & Hr & Hex & Hdata); [set_solver|].
  destruct (ok_event _ _ _ _ Hok _ _ _ Hr) as (e & He & Hv & Hid & Hxe & Hse & _).
  rewrite Hdata in He. rewrite He, model_validate_dump in Hrun0 by done. simplify_eq.
  destruct (Z.eqb_spec (event_sequence a) (s + 1)) as [Hs|]; simpl in Hrun.
  2:{ tx_inv. rewrite insert_id by done. simpl. split_and!; first [done|lia|congruence]. }
  tx_inv. edestruct route_event_ok as [Hok' Hb]; [exact Hok|exact Hlast|exact Hr|done..|].
  edestruct IH as (H1 & H2 & H3 & H4 & H5); [|exact Hok'|apply lookup_insert_eq|exact Hrun|].
  { intros data Hd. eapply route_event_from_inbox; [done|]. apply Hin. set_solver. }
  rewrite insert_insert_eq in H1. simpl. rewrite H2, Hb.
  split_and!; try done; lia.
Qed.

Lemma advance_ok ns now ex types limit : preserves store_ok (advance uuid5 ns now ex types limit).
Proof.
  intros d res d' Hok Hrun. unfold advance in Hrun. tx_inv.
  destruct (ew_bindings d !! (ns, ex)) as [b|] eqn:Hb; [|by tx_inv].
  tx_inv. destruct a as [[s' n'] gap]. tx_inv.
  edestruct advance_loop_ok as (H1 & H2 & _); [|exact Hok| |exact Hrun0|].
  { intros data. apply pending_events_from_inbox. }
  { by rewrite lookup_fmap, Hb. }
  unfold store_ok. simpl. rewrite H2.
  replace (b_last_sequence <$> alter _ _ _)
    with (<[(ns, ex) := s']> (b_last_sequence <$> ew_bindings d)); [done|].
  apply map_eq. intros k. rewrite lookup_fmap, lookup_insert, lookup_alter.
  case_decide; subst; [by rewrite Hb|]. by rewrite lookup_fmap.
Qed.

(** ** Commands and the Outbox *)

(** Changing Outbox rows in place. *)
Lemma tables_ok_outbox last inbox cmds outbox outbox' :
  (∀ k, is_Some (outbox' !! k) ↔ is_Some (outbox !! k)) →
  (∀ k o', outbox' !! k = Some o' → ∃ o, outbox !! k = Some o ∧ o_generation o' = o_generation o ∧
     ((o_state o' = CLAIMED ↔ is_Some (o_claim_token o')) ∧
      (is_Some (o_claim_token o') ↔ is_Some (o_claim_until o'))) ∧
     (∀ c, cmds !! k = Some c → terminal (c_state c) = true → o_state o = SENT → o_state o' = SENT)) →
  tables_ok last inbox cmds outbox → tables_ok last inbox cmds outbox'.
Proof.
  intros Hdom Hrow [H1 H2 H3 H4 H5 H6 H7 H8 H9 H10 H11]. split; auto.
  - intros k. rewrite Hdom. apply H8.
  - intros k o' c Ho' Hc. destruct (Hrow _ _ Ho') as (o & Ho & -> & _). eauto.
  - intros k o' Ho'. destruct (Hrow _ _ Ho') as (o & Ho & _ & ? & _). done.
  - intros k o' c Ho' Hc Ht. destruct (Hrow _ _ Ho') as (o & Ho & _ & _ & Hs). eauto.
Qed.

Lemma claim_outbox_ok ns now token locked limit lease :
  preserves store_ok (claim_outbox ns now token locked limit lease).
Proof.
  intros d res d' Hok Hrun. unfold claim_outbox in Hrun. tx_inv.
  eapply tables_ok_outbox; [..|exact Hok]; simpl.
  - intros k. rewrite lookup_update_where. by destruct (ew_outbox d !! k).
  - intros [ns' c'] o' (o & Ho & ->)%lookup_update_where_Some. exists o. split; [done|].
    pose proof (ok_claim _ _ _ _ Hok _ _ Ho) as Hcl. simpl.
    destruct (bool_decide (ns' = ns) && _) eqn:E; simpl; [|naive_solver].
    split; [done|]. split; [rewrite !is_Some_alt; naive_solver|].
    intros c Hc Ht _. exfalso.
    apply andb_true_iff in E as [->%bool_decide_eq_true Hin%bool_decide_eq_true].
    apply list_elem_of_fmap in Hin as ([c0 o0] & -> & Hin).
    apply elem_of_take_elem in Hin.
    rewrite elem_of_order_by, list_elem_of_filter in Hin. destruct Hin as [Hcl0 _].
    unfold claimable in Hcl0. simpl in *. rewrite Hc in Hcl0.
    rewrite !andb_true_iff, bool_decide_eq_true in Hcl0. destruct Hcl0 as [[[Hst _] _] _].
    by rewrite Hst in Ht.
Qed.

Lemma finish_publications_ok ns now token ids sent :
  preserves store_ok (finish_publications ns now token ids sent).
Proof.
  intros d res d' Hok Hrun. unfold finish_publications in Hrun.
  case_bool_decide; tx_inv; [done|].
  eapply tables_ok_outbox; [..|exact Hok]; simpl.
  - intros k. rewrite lookup_update_where. by destruct (ew_outbox d !! k).
  - intros [ns' c'] o' (o & Ho & ->)%lookup_update_where_Some. exists o. split; [done|].
    pose proof (ok_claim _ _ _ _ Hok _ _ Ho) as Hcl. simpl.
    destruct (bool_decide (ns' = ns) && _ && _) eqn:E; simpl; [|naive_solver].
    split; [done|]. split; [rewrite !is_Some_alt; destruct sent; naive_solver|].
    intros c Hc Ht Hsent. exfalso.
    apply andb_true_iff in E as [[_ Htok%bool_decide_eq_true]%andb_true_iff _].
    destruct Hcl as [Hcl _]. rewrite Htok, Hsent in Hcl. destruct Hcl as [_ Hcl].
    by specialize (Hcl (ex_intro _ token eq_refl)).
Qed.

(** Changing one command and its Outbox row in place. *)
Lemma tables_ok_command last inbox cmds outbox k (f : command_row → command_row) (g : outbox_row → outbox_row) :
  (∀ c, c_event_id (f c) = c_event_id c ∧ c_execution_id (f c) = c_execution_id c ∧
        c_sequence (f c) = c_sequence c) →
  (∀ c o, cmds !! k = Some c → outbox !! k = Some o →
     0 ≤ o_generation (g o) ≤ c_generation (f c) ∧
     ((o_state (g o) = CLAIMED ↔ is_Some (o_claim_token (g o))) ∧
      (is_Some (o_claim_token (g o)) ↔ is_Some (o_claim_until (g o)))) ∧
     (terminal (c_state (f c)) = true → o_state (g o) = SENT)) →
  tables_ok last inbox cmds outbox → tables_ok last inbox (alter f k cmds) (alter g k outbox).
Proof.
  intros Hf Hg [H1 H2 H3 H4 H5 H6 H7 H8 H9 H10 H11].
  assert (Hsome : ∀ {V} (h : V → V) (t : gmap (string * uuid) V) j,
    is_Some (alter h k t !! j) ↔ is_Some (t !! j)).
  { intros V h t j. rewrite lookup_alter. case_decide; subst; [by rewrite fmap_is_Some|done]. }
  split; auto.
  - intros ns c r (r0 & Hr0 & ->)%lookup_alter_Some. specialize (Hf r0) as (E1 & E2 & E3).
    case_decide; [rewrite E1, E2, E3|]; eauto.
  - intros ns id r Hr Hst. rewrite lookup_alter. specialize (H7 _ _ _ Hr Hst).
    case_decide; [|done]. subst. destruct (cmds !! _) as [c|]; [|done]. simpl in *.
    by rewrite (proj1 (Hf c)).
  - intros j. rewrite !Hsome. apply H8.
  - intros j o c (o0 & Ho0 & ->)%lookup_alter_Some (c0 & Hc0 & ->)%lookup_alter_Some.
    case_decide; subst; [by apply Hg|eauto].
  - intros j o (o0 & Ho0 & ->)%lookup_alter_Some. case_decide; subst; [|eauto].
    destruct (proj1 (H8 j) (ex_intro _ _ Ho0)) as [c Hc]. by eapply Hg.
  - intros j o c (o0 & Ho0 & ->)%lookup_alter_Some (c0 & Hc0 & ->)%lookup_alter_Some.
    case_decide; subst; [|eauto]. intros Ht. by eapply Hg.
Qed.

Lemma alter_same {V} (k : string * uuid) (t : gmap (string * uuid) V) : alter (λ v : V, v) k t = t.
Proof.
  apply map_eq. intros j. rewrite lookup_alter. case_decide; subst; [|done]. by destruct (t !! j).
Qed.

(** A row that is not claimed has neither token nor deadline. *)
Lemma unclaimed_ok st : st ≠ CLAIMED →
  (st = CLAIMED ↔ is_Some (@None uuid)) ∧ (is_Some (@None uuid) ↔ is_Some (@None timestamp)).
Proof. intros. rewrite !is_Some_alt. tauto. Qed.

Lemma set_state_ok ns now c st err fa : preserves store_ok (set_state ns now c st err fa).
Proof.
  intros d u d' Hok Hrun. unfold set_state in Hrun. tx_inv. unfold store_ok.
  destruct (terminal st) eqn:Hst; tx_inv; simpl;
    [|rewrite <- (alter_same (ns, c) (ew_outbox d))].
  all: apply tables_ok_command; [done| |exact Hok]; intros c0 o0 Hc Ho; simpl;
    pose proof (ok_generation _ _ _ _ Hok _ _ _ Ho Hc);
    pose proof (ok_claim _ _ _ _ Hok _ _ Ho); split; [lia|split];
    [first [by apply unclaimed_ok|done]|by rewrite ?Hst].
Qed.

Lemma resolve_failed_ok ns now c retry actor reason :
  preserves store_ok (resolve_failed ns now c retry actor reason).
Proof.
  intros d u d' Hok Hrun. unfold resolve_failed in Hrun. tx_inv.
  destruct (ew_commands d !! (ns, c)) as [c0|] eqn:Hc; [|by tx_inv].
  tx_inv. unfold store_ok. destruct retry; tx_inv; simpl;
    [|rewrite <- (alter_same (ns, c) (ew_outbox d))].
  all: apply tables_ok_command; [done| |exact Hok]; intros c1 o1 Hc1 Ho; simpl;
    pose proof (ok_generation _ _ _ _ Hok _ _ _ Ho Hc1);
    pose proof (ok_claim _ _ _ _ Hok _ _ Ho); simplify_eq; split; [lia|split];
    [first [by apply unclaimed_ok|done]|try done].
  intros _. eapply (ok_terminal _ _ _ _ Hok); [exact Ho|exact Hc|].
  match goal with Hb : bool_decide (c_state _ = FAILED) = true |- _ =>
    apply bool_decide_eq_true in Hb; by rewrite Hb end.
Qed.

Lemma store_step_ok ns d d' : store_ok d → store_step ns d d' → store_ok d'.
Proof.
  intros Hd [].
  - by eapply register_ok.
  - by eapply ingest_ok.
  - by eapply finish_catch_up_ok.
  - by eapply scan_error_ok.
  - by eapply advance_ok.
  - by eapply claim_outbox_ok.
  - by eapply finish_publications_ok.
  - by eapply set_state_ok.
  - by eapply resolve_failed_ok.
Qed.

Lemma reachable_store_ok d : reachable d → store_ok d.
Proof.
  intros Hr. unfold reachable in Hr. pattern d.
  eapply (rtc_ind_r store_ok); [apply store_ok_empty| |exact Hr].
  intros y z _ [ns Hstep] Hy. by eapply store_step_ok.
Qed.

(** A command is determined by its execution and sequence. *)
Lemma command_unique d ns c1 c2 r1 r2 : store_ok d →
  ew_commands d !! (ns, c1) = Some r1 → ew_commands d !! (ns, c2) = Some r2 →
  c_execution_id r1 = c_execution_id r2 → c_sequence r1 = c_sequence r2 → c1 = c2.
Proof.
  intros Hok H1 H2 He Hs.
  destruct (ok_command _ _ _ _ Hok _ _ _ H1) as (-> & i1 & Hi1 & _ & He1 & Hs1).
  destruct (ok_command _ _ _ _ Hok _ _ _ H2) as (-> & i2 & Hi2 & _ & He2 & Hs2).
  f_equal. eapply (ok_unique _ _ _ _ Hok); eauto; congruence.
Qed.
End Invariant.
