(* ===== verification/WorkerStoreAdvance.v ===== *)
(** * What [Store.advance] routes

    [advance] takes the longest contiguous run of Inbox events after the last
    routed one, up to its limit, and reports a gap exactly when it stopped in
    front of a later event. *)

From stdpp Require Import base gmap strings list sorting relations.
From Stdlib Require Import ZArith Lia.
From S2P Require Import Prelude Text WorkerContracts WorkerStore WorkerStoreInv.
Local Open Scope Z_scope.
Set Default Proof Using "Type".

(** The Inbox rows of an execution after [s], by sequence. *)
Definition backlog (ns : string) (d : db) (ex : uuid) (s : Z) : list (uuid * inbox_row) :=
  order_by (λ kr : uuid * inbox_row, (i_sequence kr.2, 0))
    (filter (λ kr : uuid * inbox_row, (i_execution_id kr.2 =? ex)%N && (s <? i_sequence kr.2) = true)
      (rows ns (ew_inbox d))).

Lemma pending_events_backlog ns d ex s limit :
  pending_events ns d ex s limit = map (λ kr, i_event kr.2) (take limit (backlog ns d ex s)).
Proof. done. Qed.

Lemma elem_of_backlog ns d ex s id r : (id, r) ∈ backlog ns d ex s ↔
  ew_inbox d !! (ns, id) = Some r ∧ i_execution_id r = ex ∧ s < i_sequence r.
Proof.
  unfold backlog. rewrite elem_of_order_by, list_elem_of_filter, elem_of_rows, andb_true_iff,
    N.eqb_eq, Z.ltb_lt. simpl. tauto.
Qed.

Definition seq_lt (x y : uuid * inbox_row) : Prop := i_sequence x.2 < i_sequence y.2.

Lemma backlog_NoDup ns d ex s : NoDup (backlog ns d ex s).*1.
Proof.
  unfold backlog. rewrite order_by_Permutation.
  assert (Hsub : ∀ l : list (uuid * inbox_row), NoDup l →
    (∀ k v v', (k, v) ∈ l → (k, v') ∈ l → v = v') → NoDup l.*1).
  { induction 1 as [|[k v] l Hx Hl IH]; intros Hu; [constructor|]. simpl. constructor.
    - intros ([k' v'] & -> & Hin)%list_elem_of_fmap. simpl in *.
      by rewrite (Hu k' v v') in Hx by set_solver.
    - apply IH. intros k0 v0 v' ? ?. apply (Hu k0); set_solver. }
  apply Hsub; [apply NoDup_filter, rows_NoDup|].
  intros k v v'. rewrite !list_elem_of_filter. intros [_ ?] [_ ?]. by eapply rows_id_unique.
Qed.

(** Length of the contiguous run that starts right after [s]. *)
Fixpoint run_length (s : Z) (l : list (uuid * inbox_row)) : nat :=
  match l with
  | [] => 0
  | x :: l' => if i_sequence x.2 =? s + 1 then S (run_length (s + 1) l') else 0
  end.

Lemma run_length_le s l : (run_length s l ≤ length l)%nat.
Proof. revert s. induction l as [|x l IH]; intros s; simpl; [lia|]. destruct (_ =? _); [specialize (IH (s+1))|]; lia. Qed.

Lemma run_length_take s k l : run_length s (take k l) = Nat.min k (run_length s l).
Proof.
  revert s k. induction l as [|x l IH]; intros s [|k]; simpl; try done.
  destruct (_ =? _); [|done]. by rewrite IH.
Qed.

Lemma run_length_seq s l i x : take (run_length s l) l !! i = Some x →
  i_sequence x.2 = s + 1 + Z.of_nat i.
Proof.
  revert s i. induction l as [|y l IH]; intros s i; simpl; [done|].
  destruct (Z.eqb_spec (i_sequence y.2) (s + 1)); [|done].
  destruct i as [|i]; simpl; [intros [= <-]; lia|]. intros Hi%IH. lia.
Qed.

(** After the run, the next sequence number is missing. *)
Lemma run_length_stop s l x : StronglySorted seq_lt l → (∀ y, y ∈ l → s < i_sequence y.2) →
  x ∈ l → i_sequence x.2 ≠ s + Z.of_nat (run_length s l) + 1.
Proof.
  revert s. induction l as [|y l IH]; intros s Hs Hall Hx; [by apply not_elem_of_nil in Hx|].
  apply StronglySorted_inv in Hs as [Hs Hy]. rewrite Forall_forall in Hy. unfold seq_lt in Hy. simpl.
  destruct (Z.eqb_spec (i_sequence y.2) (s + 1)) as [He|He].
  - apply elem_of_cons in Hx as [->|Hx]; [lia|].
    specialize (IH (s + 1) Hs). assert (i_sequence x.2 ≠ s + 1 + Z.of_nat (run_length (s + 1) l) + 1); [|lia].
    apply IH; [|done]. intros z Hz%Hy. lia.
  - specialize (Hall y ltac:(set_solver)) as Hy'.
    apply elem_of_cons in Hx as [->|Hx]; [lia|]. apply Hy in Hx. lia.
Qed.

(** The run in terms of sequence numbers: its first [k] rows hold
    [s+1 .. s+k], and rows beyond it exist exactly when the list goes on. *)
Lemma run_prefix s l k x : (k ≤ run_length s l)%nat → x ∈ take k l →
  x ∈ l ∧ s < i_sequence x.2 ≤ s + Z.of_nat k.
Proof.
  intros Hk [i Hi]%list_elem_of_lookup.
  split; [eapply elem_of_take_elem, list_elem_of_lookup_2, Hi|].
  apply lookup_take_Some in Hi as [Hi Hik].
  assert (Hi' : take (run_length s l) l !! i = Some x) by (apply lookup_take_Some; split; [done|lia]).
  apply run_length_seq in Hi'. lia.
Qed.

Lemma run_prefix_at s l k j : (k ≤ run_length s l)%nat → s < j ≤ s + Z.of_nat k →
  ∃ x, x ∈ take k l ∧ i_sequence x.2 = j.
Proof.
  intros Hk Hj. pose proof (run_length_le s l).
  destruct (lookup_lt_is_Some_2 l (Z.to_nat (j - s - 1))) as [x Hi]; [lia|]. exists x. split.
  - eapply list_elem_of_lookup_2, lookup_take_Some. split; [exact Hi|lia].
  - assert (Hi' : take (run_length s l) l !! Z.to_nat (j - s - 1) = Some x)
      by (apply lookup_take_Some; split; [done|lia]).
    apply run_length_seq in Hi'. lia.
Qed.

Lemma run_beyond s l : StronglySorted seq_lt l → (∀ y, y ∈ l → s < i_sequence y.2) →
  (run_length s l < length l)%nat → ∃ x, x ∈ l ∧ s + Z.of_nat (run_length s l) < i_sequence x.2.
Proof.
  intros Hs Hall Hlt. destruct (lookup_lt_is_Some_2 l (run_length s l)) as [x Hx]; [lia|].
  pose proof (list_elem_of_lookup_2 _ _ _ Hx) as Hin. exists x. split; [done|].
  destruct (decide (run_length s l = 0%nat)) as [->|]; [specialize (Hall _ Hin); lia|].
  destruct (run_prefix_at s l (run_length s l) (s + Z.of_nat (run_length s l))) as (y & Hy & <-); [lia..|].
  rewrite <- (take_drop (run_length s l) l) in Hs.
  eapply (StronglySorted_app_1_elem_of seq_lt); [exact Hs|exact Hy|].
  apply list_elem_of_lookup_2 with 0%nat. by rewrite lookup_drop, Nat.add_0_r.
Qed.

Lemma beyond_run s l k x : (k ≤ run_length s l)%nat → x ∈ l → s + Z.of_nat k < i_sequence x.2 →
  (k < length l)%nat.
Proof.
  intros Hk Hx Hlt. destruct (decide (k < length l)%nat); [done|exfalso].
  destruct (run_prefix s l k x) as [_ ?]; [done| |lia]. by rewrite take_ge by lia.
Qed.

Section Advance.
Context `{EventCodec} (uuid5 : string → uuid).

Lemma sorted_increasing ns d ex l : store_ok uuid5 d →
  StronglySorted (by_key (λ kr : uuid * inbox_row, (i_sequence kr.2, 0))) l → NoDup l →
  (∀ id r, (id, r) ∈ l → ew_inbox d !! (ns, id) = Some r ∧ i_execution_id r = ex) →
  StronglySorted seq_lt l.
Proof.
  intros Hok. induction 1 as [|[id r] l Hl IH Hx]; intros Hnd Hin; [constructor|].
  apply NoDup_cons in Hnd as [Hnot Hnd]. constructor; [apply IH; [done|set_solver]|].
  rewrite Forall_forall in Hx |- *. intros [id' r'] Hy. specialize (Hx _ Hy).
  unfold by_key, key_le, seq_lt in *. simpl in *.
  assert (i_sequence r ≠ i_sequence r'); [|lia]. intros Heq. apply Hnot.
  destruct (Hin id r) as [H1 E1]; [set_solver|]. destruct (Hin id' r') as [H2 E2]; [set_solver|].
  assert (id = id') as <- by (eapply (ok_unique _ _ _ _ _ Hok); eauto; congruence).
  by simplify_eq.
Qed.

(** Sequences strictly increase along the backlog. *)
Lemma backlog_increasing ns d ex s : store_ok uuid5 d → StronglySorted seq_lt (backlog ns d ex s).
Proof.
  intros Hok. eapply (sorted_increasing ns d ex); [done|apply order_by_sorted|..].
  - unfold backlog. rewrite order_by_Permutation. apply NoDup_filter, rows_NoDup.
  - intros id r Hin. apply elem_of_backlog in Hin. tauto.
Qed.

(** [x] is row [id] of the Inbox of [d], up to its routing state. *)
Definition same_event (ns : string) (d : db) (x : uuid * inbox_row) : Prop :=
  ∃ r, ew_inbox d !! (ns, x.1) = Some r ∧ i_event r = i_event x.2 ∧
       i_execution_id r = i_execution_id x.2 ∧ i_sequence r = i_sequence x.2.

(** The state that routing gives to an event. *)
Definition routed_state (types : gset string) (data : json) : inbox_state :=
  match model_validate data with
  | Ok e => if bool_decide (event_type e ∈ types) then ROUTED else INBOX_IGNORED
  | Err _ => RECEIVED
  end.

Lemma route_event_inbox ns now ex types e d u d' :
  route_event uuid5 ns now ex types e d = Ok (u, d') →
  ew_inbox d' = alter (mark_inbox now (bool_decide (event_type e ∈ types))) (ns, event_id e) (ew_inbox d).
Proof. intros [_ ->]%route_event_Ok. by destruct (bool_decide _). Qed.

Lemma same_event_valid ns d x last :
  tables_ok uuid5 last (ew_inbox d) (ew_commands d) (ew_outbox d) → same_event ns d x →
  ∃ e, model_validate (i_event x.2) = Ok e ∧ event_id e = x.1 ∧
       event_sequence e = i_sequence x.2.
Proof.
  intros Hok (r & Hr & Hev & _ & Hsq).
  destruct (ok_event _ _ _ _ _ Hok _ _ _ Hr) as (e & He & Hv & Hid & _ & Hs & _).
  exists e. rewrite <- Hev, He, model_validate_dump by done. split_and!; congruence.
Qed.

(** The loop of [advance]: how far it gets, what it reports, what it marks. *)
Lemma advance_loop_run ns now ex types l s n d s' n' gap d' last :
  NoDup l.*1 → (∀ x, x ∈ l → same_event ns d x ∧ i_execution_id x.2 = ex) →
  tables_ok uuid5 last (ew_inbox d) (ew_commands d) (ew_outbox d) → last !! (ns, ex) = Some s →
  advance_loop uuid5 ns now ex types s n (map (λ kr, i_event kr.2) l) d = Ok ((s', n', gap), d') →
  s' = s + Z.of_nat (run_length s l) ∧ n' = n + Z.of_nat (run_length s l) ∧
  gap = (if decide (run_length s l < length l)%nat then Some s' else None) ∧
  (∀ id, id ∉ l.*1 → ew_inbox d' !! (ns, id) = ew_inbox d !! (ns, id)) ∧
  (∀ x, x ∈ take (run_length s l) l →
     i_state <$> ew_inbox d' !! (ns, x.1) = Some (routed_state types (i_event x.2))) ∧
  (∀ x, x ∈ drop (run_length s l) l → ew_inbox d' !! (ns, x.1) = ew_inbox d !! (ns, x.1)).
Proof.
  revert s n d last. induction l as [|x l IH]; intros s n d last Hnd Hin Hok Hlast Hrun.
  { simpl in Hrun. tx_inv. simpl. split_and!; try done; try lia; set_solver. }
  simpl in Hnd. apply NoDup_cons in Hnd as [Hx Hnd].
  destruct (Hin x) as [Hsame Hex]; [set_solver|].
  destruct (same_event_valid _ _ _ _ Hok Hsame) as (e & He & Hid & Hsq).
  cbn [map advance_loop] in Hrun. tx_inv. rewrite He in Hrun0. simplify_eq.
  cbn [run_length]. rewrite <- Hsq.
  destruct (Z.eqb_spec (event_sequence a) (s + 1)) as [Hs|]; simpl in Hrun.
  2:{ tx_inv. simpl. split_and!; try done; try lia; set_solver. }
  tx_inv. destruct Hsame as (r & Hr & Hev & Hxr & Hsr). rewrite <- Hid in Hr.
  edestruct route_event_ok as [Hok' _]; [exact Hok|exact Hlast|exact Hr|congruence..|exact Hrun0|].
  pose proof (route_event_inbox _ _ _ _ _ _ _ _ Hrun0) as Hib.
  rewrite Hs in Hrun, Hok'.
  edestruct IH as (H1 & H2 & H3 & H4 & H5 & H6); [done| |exact Hok'|apply lookup_insert_eq|exact Hrun|].
  { intros y Hy. destruct (Hin y) as [(r' & Hr' & Hrest) Hexy]; [set_solver|]. split; [|done].
    exists r'. rewrite Hib, lookup_alter_ne; [done|]. intros [= Heq]. apply Hx.
    replace x.1 with y.1 by congruence. apply list_elem_of_fmap. eauto. }
  split_and!.
  - lia.
  - lia.
  - rewrite H3. simpl. repeat case_decide; try done; lia.
  - intros id Hid'. rewrite H4 by set_solver. rewrite Hib, lookup_alter_ne; [done|].
    intros [= Heq]. apply Hid'. rewrite <- Heq, Hid. set_solver.
  - intros y Hy. simpl in Hy. apply elem_of_cons in Hy as [->|Hy]; [|by apply H5].
    rewrite H4 by done. rewrite Hib, <- Hid, lookup_alter_eq, Hr. simpl.
    unfold routed_state. by rewrite He.
  - intros y Hy. simpl in Hy. rewrite H6 by done. rewrite Hib, lookup_alter_ne; [done|].
    intros [= Heq]. apply Hx. replace x.1 with y.1 by congruence. apply list_elem_of_fmap. exists y. split; [done|].
    rewrite <- (take_drop (run_length (s + 1) l) l). set_solver.
Qed.

Lemma advance_Ok ns now ex types limit d n gap d' b :
  store_ok uuid5 d → ew_bindings d !! (ns, ex) = Some b →
  advance uuid5 ns now ex types limit d = Ok ((n, gap), d') →
  let s := b_last_sequence b in let l := backlog ns d ex s in
  let k := Nat.min limit (run_length s l) in
  n = Z.of_nat k ∧ b_last_sequence <$> ew_bindings d' !! (ns, ex) = Some (s + n) ∧
  gap = (if decide (run_length s l < Nat.min limit (length l))%nat then Some (s + n) else None) ∧
  (∀ x, x ∈ take k l → i_state <$> ew_inbox d' !! (ns, x.1) = Some (routed_state types (i_event x.2))) ∧
  (∀ id, (∀ x, x ∈ take k l → x.1 ≠ id) → ew_inbox d' !! (ns, id) = ew_inbox d !! (ns, id)).
Proof.
  cbv zeta. intros Hok Hb Hrun. unfold advance in Hrun. tx_inv. rewrite Hb in Hrun. tx_inv.
  destruct a as [[s' n'] gap']. tx_inv. rewrite pending_events_backlog in Hrun0.
  set (l := backlog ns d ex (b_last_sequence b)) in *.
  assert (Hin : ∀ x, x ∈ l → same_event ns d x ∧ i_execution_id x.2 = ex).
  { intros [id r] Hx. apply elem_of_backlog in Hx as (Hr & Hx & _). split; [|done]. by exists r. }
  edestruct advance_loop_run as (H1 & H2 & H3 & H4 & H5 & H6); [| |exact Hok| |exact Hrun0|].
  { rewrite fmap_take. eapply sublist_NoDup; [|apply sublist_take]. apply backlog_NoDup. }
  { intros x Hx. apply Hin. by eapply elem_of_take_elem. }
  { by rewrite lookup_fmap, Hb. }
  edestruct advance_loop_ok as (_ & Hbind & _); [|exact Hok| |exact Hrun0|].
  { intros data Hd. apply (pending_events_from_inbox uuid5 ns ex d (b_last_sequence b) limit).
    by rewrite pending_events_backlog. }
  { by rewrite lookup_fmap, Hb. }
  rewrite run_length_take in *. set (k := Nat.min limit (run_length (b_last_sequence b) l)) in *.
  assert (Hkl : Nat.min k limit = k) by lia.
  rewrite take_take, Hkl in H5.
  split_and!.
  - lia.
  - simpl. rewrite Hbind, lookup_alter_eq, Hb. simpl. f_equal. lia.
  - rewrite H3, length_take. subst k. clear -H1 H2.
    do 2 case_decide; first [f_equal; lia | done | exfalso; lia].
  - exact H5.
  - intros id Hid. simpl. destruct (decide (id ∈ (take limit l).*1)) as [Hid'|]; [|by apply H4].
    apply list_elem_of_fmap in Hid' as (x & -> & Hx). apply H6.
    rewrite <- (take_drop k (take limit l)), take_take, Hkl in Hx.
    apply elem_of_app in Hx as [Hx|Hx]; [by destruct (Hid x)|done].
Qed.

(** The names of a namespace's events hash to different command ids. *)
Definition collision_free (ns : string) (d : db) : Prop :=
  ∀ id1 id2, is_Some (ew_inbox d !! (ns, id1)) → is_Some (ew_inbox d !! (ns, id2)) →
    command_id_of uuid5 ns id1 = command_id_of uuid5 ns id2 → id1 = id2.

Lemma route_event_total ns now ex types e d last s r :
  tables_ok uuid5 last (ew_inbox d) (ew_commands d) (ew_outbox d) → collision_free ns d →
  last !! (ns, ex) = Some s → ew_inbox d !! (ns, event_id e) = Some r →
  i_execution_id r = ex → i_sequence r = s + 1 →
  ∃ d', route_event uuid5 ns now ex types e d = Ok (tt, d').
Proof.
  intros Hok Hfree Hlast Hr Hex Hsq. unfold route_event.
  destruct (bool_decide (event_type e ∈ types)); [|by eexists].
  set (c := command_id_of uuid5 ns (event_id e)).
  assert (Hc : ew_commands d !! (ns, c) = None).
  { destruct (ew_commands d !! (ns, c)) as [cr|] eqn:Hc; [exfalso|done].
    destruct (ok_command _ _ _ _ _ Hok _ _ _ Hc) as (Heq & i & Hi & _).
    eapply (next_has_no_command uuid5); [exact Hok|exact Hlast|exact Hr|done|done|exact Hc|].
    symmetry. apply Hfree; eauto. }
  assert (Ho : ew_outbox d !! (ns, c) = None).
  { rewrite eq_None_not_Some, (ok_outbox _ _ _ _ _ Hok), Hc. by intros [? [=]]. }
  assert (He : existsb (λ kr, (c_event_id kr.2 =? event_id e)%N) (rows ns (ew_commands d)) = false).
  { apply not_true_iff_false. intros ([c' cr] & Hin & Heq%N.eqb_eq)%existsb_exists.
    apply list_elem_of_In, elem_of_rows in Hin.
    eapply (next_has_no_command uuid5); [exact Hok|exact Hlast|exact Hr|done|done|exact Hin|done]. }
  unfold insert_command, insert_outbox, mbind, tx_bind, tx_guard, tx_get, tx_modify.
  rewrite bool_decide_eq_true_2 by done. rewrite He. simpl.
  rewrite bool_decide_eq_true_2 by eauto. simpl.
  rewrite bool_decide_eq_true_2 by done. rewrite bool_decide_eq_true_2; [by eexists|].
  rewrite lookup_insert_eq. eauto.
Qed.

Lemma advance_loop_total ns now ex types l s n d last :
  NoDup l.*1 → (∀ x, x ∈ l → same_event ns d x ∧ i_execution_id x.2 = ex) →
  tables_ok uuid5 last (ew_inbox d) (ew_commands d) (ew_outbox d) → collision_free ns d →
  last !! (ns, ex) = Some s →
  ∃ res d', advance_loop uuid5 ns now ex types s n (map (λ kr, i_event kr.2) l) d = Ok (res, d').
Proof.
  revert s n d last. induction l as [|x l IH]; intros s n d last Hnd Hin Hok Hfree Hlast; [by do 2 eexists|].
  simpl in Hnd. apply NoDup_cons in Hnd as [Hx Hnd].
  destruct (Hin x) as [Hsame Hex]; [set_solver|].
  destruct (same_event_valid _ _ _ _ Hok Hsame) as (e & He & Hid & Hsq).
  cbn [map advance_loop]. unfold mbind at 1, tx_bind at 1. rewrite He.
  destruct (Z.eqb_spec (event_sequence e) (s + 1)) as [Hs|]; simpl; [|by do 2 eexists].
  destruct Hsame as (r & Hr & Hev & Hxr & Hsr). rewrite <- Hid in Hr.
  destruct (route_event_total ns now ex types e d last s r) as [d1 Hd1]; [done..|congruence|congruence|].
  unfold mbind at 1, tx_bind at 1. rewrite Hd1.
  edestruct route_event_ok as [Hok' _]; [exact Hok|exact Hlast|exact Hr|congruence..|exact Hd1|].
  pose proof (route_event_inbox _ _ _ _ _ _ _ _ Hd1) as Hib.
  eapply IH; [done| |exact Hok'| |apply lookup_insert_eq].
  - intros y Hy. destruct (Hin y) as [(r' & Hr' & Hrest) Hexy]; [set_solver|]. split; [|done].
    exists r'. rewrite Hib, lookup_alter_ne; [done|]. intros [= Heq]. apply Hx.
    replace x.1 with y.1 by congruence. apply list_elem_of_fmap. eauto.
  - intros id1 id2. rewrite Hib. intros [r1 (r1' & H1 & _)%lookup_alter_Some] [r2 (r2' & H2 & _)%lookup_alter_Some].
    apply Hfree; eauto.
Qed.

Lemma advance_total ns now ex types limit d :
  store_ok uuid5 d → collision_free ns d →
  ∃ res d', advance uuid5 ns now ex types limit d = Ok (res, d').
Proof.
  intros Hok Hfree. unfold advance, mbind, tx_bind, tx_get.
  destruct (ew_bindings d !! (ns, ex)) as [b|] eqn:Hb; [|by do 2 eexists].
  rewrite pending_events_backlog.
  edestruct advance_loop_total as ([[s' n'] gap] & d' & Hrun); [..|rewrite Hrun; by do 2 eexists].
  - rewrite fmap_take. eapply sublist_NoDup; [|apply sublist_take]. apply backlog_NoDup.
  - intros [id r] Hx%elem_of_take_elem. apply elem_of_backlog in Hx as (Hr & Hx & _).
    split; [|done]. by exists r.
  - exact Hok.
  - done.
  - by rewrite lookup_fmap, Hb.
Qed.
End Advance.
