(* ===== verification/WorkerStoreFrame.v ===== *)
(** * What the transactions of [Store] never touch

    Two relations every transaction stays within: rows of another namespace
    are untouched, and the history only grows (bindings keep their session
    and task, Inbox rows keep their event, sequences and generations never go
    back). *)

From stdpp Require Import base gmap strings list sorting relations.
From Stdlib Require Import ZArith Lia.
From S2P Require Import Prelude Text WorkerContracts WorkerStore WorkerStoreInv.
Local Open Scope Z_scope.
Set Default Proof Using "Type*".

(** ** Other namespaces *)

Definition other_ns (ns : string) (d d' : db) : Prop :=
  ∀ ns' k, ns' ≠ ns →
    ew_bindings d' !! (ns', k) = ew_bindings d !! (ns', k) ∧
    ew_inbox d' !! (ns', k) = ew_inbox d !! (ns', k) ∧
    ew_commands d' !! (ns', k) = ew_commands d !! (ns', k) ∧
    ew_outbox d' !! (ns', k) = ew_outbox d !! (ns', k).

#[export] Instance other_ns_preorder ns : PreOrder (other_ns ns).
Proof.
  split; [by intros d ns' k _|]. intros d1 d2 d3 H12 H23 ns' k Hne.
  destruct (H12 ns' k Hne) as (<- & <- & <- & <-). by apply H23.
Qed.

Lemma other_ns_alter_bindings ns f k d : other_ns ns d (set_bindings (alter f (ns, k)) d).
Proof. intros ns' k' Hne. simpl. by rewrite lookup_alter_ne by congruence. Qed.
Lemma other_ns_alter_inbox ns f k d : other_ns ns d (set_inbox (alter f (ns, k)) d).
Proof. intros ns' k' Hne. simpl. by rewrite lookup_alter_ne by congruence. Qed.
Lemma other_ns_alter_commands ns f k d : other_ns ns d (set_commands (alter f (ns, k)) d).
Proof. intros ns' k' Hne. simpl. by rewrite lookup_alter_ne by congruence. Qed.
Lemma other_ns_alter_outbox ns f k d : other_ns ns d (set_outbox (alter f (ns, k)) d).
Proof. intros ns' k' Hne. simpl. by rewrite lookup_alter_ne by congruence. Qed.
Lemma other_ns_insert_inbox ns k v d : other_ns ns d (set_inbox <[(ns, k) := v]> d).
Proof. intros ns' k' Hne. simpl. by rewrite lookup_insert_ne by congruence. Qed.
Lemma other_ns_insert_commands ns k v d : other_ns ns d (set_commands <[(ns, k) := v]> d).
Proof. intros ns' k' Hne. simpl. by rewrite lookup_insert_ne by congruence. Qed.
Lemma other_ns_insert_outbox ns k v d : other_ns ns d (set_outbox <[(ns, k) := v]> d).
Proof. intros ns' k' Hne. simpl. by rewrite lookup_insert_ne by congruence. Qed.
Lemma other_ns_update_outbox ns p f d :
  other_ns ns d (set_outbox (update_where (λ k o, bool_decide (k.1 = ns) && p k o) f) d).
Proof.
  intros ns' k' Hne. simpl. rewrite lookup_update_where. simpl.
  rewrite bool_decide_eq_false_2 by done. simpl. by destruct (ew_outbox d !! _).
Qed.

#[export] Hint Resolve other_ns_alter_bindings other_ns_alter_inbox other_ns_alter_commands
  other_ns_alter_outbox other_ns_insert_inbox other_ns_insert_commands other_ns_insert_outbox : exagent.

Section Frames.
Context `{EventCodec} (uuid5 : string → uuid) (ns : string).

Lemma register_frame now ex sess task actor : within (other_ns ns) (register ns now ex sess task actor).
Proof.
  unfold register. within_split. apply within_modify. intros d ns' k Hne. simpl.
  destruct (ew_bindings d !! (ns, ex)); [done|]. by rewrite lookup_insert_ne by congruence.
Qed.

Lemma ingest_frame now e cu : within (other_ns ns) (ingest ns now e cu).
Proof.
  unfold ingest. within_split; apply within_modify; intros d; auto with exagent.
  destruct (inbox_conflict ns d e); [reflexivity|auto with exagent].
Qed.

Lemma route_event_frame now ex types e : within (other_ns ns) (route_event uuid5 ns now ex types e).
Proof.
  unfold route_event, insert_command, insert_outbox.
  within_split; apply within_modify; intros d; auto with exagent.
Qed.

Lemma advance_loop_frame now ex types s n events :
  within (other_ns ns) (advance_loop uuid5 ns now ex types s n events).
Proof.
  revert s n. induction events as [|data events IH]; intros s n; cbn [advance_loop]; within_split.
  - apply within_read; [apply _|]. intros d a d'. destruct (model_validate data); naive_solver.
  - apply route_event_frame.
  - apply IH.
Qed.

Lemma advance_frame now ex types limit : within (other_ns ns) (advance uuid5 ns now ex types limit).
Proof.
  unfold advance. within_split; [apply advance_loop_frame|].
  apply within_modify. auto with exagent.
Qed.

Lemma claim_outbox_frame now token locked limit lease :
  within (other_ns ns) (claim_outbox ns now token locked limit lease).
Proof.
  unfold claim_outbox. within_split. apply within_modify. intros d.
  apply (other_ns_update_outbox ns (λ k _, bool_decide (k.2 ∈ _))).
Qed.

Lemma finish_publications_frame now token ids sent :
  within (other_ns ns) (finish_publications ns now token ids sent).
Proof.
  unfold finish_publications. within_split. apply within_modify. intros d ns' k Hne. simpl.
  rewrite lookup_update_where. simpl. rewrite bool_decide_eq_false_2 by done.
  by destruct (ew_outbox d !! _).
Qed.

Lemma set_state_frame now c st err fa : within (other_ns ns) (set_state ns now c st err fa).
Proof. unfold set_state. within_split; apply within_modify; auto with exagent. Qed.

Lemma resolve_failed_frame now c retry actor reason :
  within (other_ns ns) (resolve_failed ns now c retry actor reason).
Proof.
  unfold resolve_failed. within_split; apply within_modify; auto with exagent; by intros d ns' k Hne.
Qed.

Lemma store_step_frame d d' : store_step uuid5 ns d d' → other_ns ns d d'.
Proof.
  intros [now ex sess task actor Hr|now e cu _ Hr|now ex v Hr|now ex err Hr|now ex types limit r Hr
    |now token locked limit lease r Hr|now token ids sent Hr|now c st err fa Hr|now c retry actor reason Hr].
  - by eapply register_frame.
  - by eapply ingest_frame.
  - refine (within_modify _ _ _ _ _ _ Hr). auto with exagent.
  - refine (within_modify _ _ _ _ _ _ Hr). auto with exagent.
  - by eapply advance_frame.
  - by eapply claim_outbox_frame.
  - by eapply finish_publications_frame.
  - by eapply set_state_frame.
  - by eapply resolve_failed_frame.
Qed.
End Frames.

(** ** History only grows *)

Definition binding_grows (b b' : binding) : Prop :=
  b_session_id b' = b_session_id b ∧ b_task_id b' = b_task_id b ∧
  b_last_sequence b ≤ b_last_sequence b' ∧
  b_catch_up_version b ≤ b_catch_up_version b' ∧ b_caught_up_version b ≤ b_caught_up_version b'.

Definition inbox_same (r r' : inbox_row) : Prop :=
  i_execution_id r' = i_execution_id r ∧ i_sequence r' = i_sequence r ∧ i_event r' = i_event r.

Definition command_grows (c c' : command_row) : Prop :=
  c_event_id c' = c_event_id c ∧ c_execution_id c' = c_execution_id c ∧
  c_sequence c' = c_sequence c ∧ c_generation c ≤ c_generation c'.

Definition grows (d d' : db) : Prop :=
  keeps binding_grows (ew_bindings d) (ew_bindings d') ∧
  keeps inbox_same (ew_inbox d) (ew_inbox d') ∧
  keeps command_grows (ew_commands d) (ew_commands d') ∧
  ew_audit d `prefix_of` ew_audit d'.

#[export] Instance binding_grows_preorder : PreOrder binding_grows.
Proof. split; unfold binding_grows; [intros b|intros b1 b2 b3]; intuition (congruence || lia). Qed.
#[export] Instance inbox_same_preorder : PreOrder inbox_same.
Proof. split; unfold inbox_same; [intros b|intros b1 b2 b3]; intuition congruence. Qed.
#[export] Instance command_grows_preorder : PreOrder command_grows.
Proof. split; unfold command_grows; [intros b|intros b1 b2 b3]; intuition (congruence || lia). Qed.
#[export] Instance grows_preorder : PreOrder grows.
Proof.
  split; [intros d; split_and!; reflexivity|].
  intros d1 d2 d3 (A1 & A2 & A3 & A4) (B1 & B2 & B3 & B4). split_and!; by etransitivity.
Qed.

Lemma grows_bindings f d : keeps binding_grows (ew_bindings d) (f (ew_bindings d)) → grows d (set_bindings f d).
Proof. intros Hf. split_and!; [done|reflexivity..]. Qed.
Lemma grows_inbox f d : keeps inbox_same (ew_inbox d) (f (ew_inbox d)) → grows d (set_inbox f d).
Proof. intros Hf. split_and!; [reflexivity|done|reflexivity..]. Qed.
Lemma grows_commands f d : keeps command_grows (ew_commands d) (f (ew_commands d)) → grows d (set_commands f d).
Proof. intros Hf. split_and!; [reflexivity|reflexivity|done|reflexivity]. Qed.
Lemma grows_outbox f d : grows d (set_outbox f d).
Proof. split_and!; reflexivity. Qed.
#[export] Hint Resolve grows_outbox : exagent.

Lemma grows_alter_binding f k d : (∀ b, binding_grows b (f b)) → grows d (set_bindings (alter f k) d).
Proof. intros Hf. by apply grows_bindings, keeps_alter; [apply _|]. Qed.
Lemma grows_alter_command f k d : (∀ b, command_grows b (f b)) → grows d (set_commands (alter f k) d).
Proof. intros Hf. by apply grows_commands, keeps_alter; [apply _|]. Qed.

Section Growth.
Context `{EventCodec} (uuid5 : string → uuid) (ns : string).

Lemma register_grows now ex sess task actor : within grows (register ns now ex sess task actor).
Proof.
  unfold register. within_split. apply within_modify. intros d. apply grows_bindings.
  destruct (ew_bindings d !! (ns, ex)) eqn:Hb; [reflexivity|]. by apply keeps_insert; [apply _|].
Qed.

Lemma ingest_grows now e cu : within grows (ingest ns now e cu).
Proof.
  unfold ingest. within_split; apply within_modify; intros d.
  - destruct (inbox_conflict ns d e) eqn:Hc; [reflexivity|]. apply grows_inbox.
    apply inbox_conflict_false in Hc as [Hn _]. by apply keeps_insert; [apply _|].
  - apply grows_alter_binding. intros b. unfold binding_grows; simpl; split_and!; (done || lia).
Qed.

Lemma insert_command_grows now c e ex : within grows (insert_command ns now c e ex).
Proof.
  intros d u d' Hrun. unfold insert_command in Hrun. tx_inv.
  repeat match goal with Hg : bool_decide _ = true |- _ => apply bool_decide_eq_true in Hg end.
  apply grows_commands. by apply keeps_insert; [apply _|].
Qed.

Lemma insert_outbox_grows now c : within grows (insert_outbox ns now c).
Proof. unfold insert_outbox. within_split. apply within_modify. auto with exagent. Qed.

Lemma route_event_grows now ex types e : within grows (route_event uuid5 ns now ex types e).
Proof.
  unfold route_event. within_split; try apply insert_command_grows; try apply insert_outbox_grows;
    apply within_modify; intros d; (apply grows_inbox, keeps_alter; [apply _|done]).
Qed.

Lemma advance_loop_grows now ex types s n events :
  within grows (advance_loop uuid5 ns now ex types s n events).
Proof.
  revert s n. induction events as [|data events IH]; intros s n; cbn [advance_loop]; within_split.
  - apply within_read; [apply _|]. intros d a d'. destruct (model_validate data); naive_solver.
  - apply route_event_grows.
  - apply IH.
Qed.

(** The loop only reads the bindings, and counts upwards. *)
Lemma advance_loop_bindings now ex types s n events d s' n' gap d' :
  advance_loop uuid5 ns now ex types s n events d = Ok ((s', n', gap), d') →
  ew_bindings d' = ew_bindings d ∧ s ≤ s'.
Proof.
  revert s n d. induction events as [|data events IH]; intros s n d Hrun; cbn [advance_loop] in Hrun; tx_inv; [done|].
  destruct (model_validate data) as [e|]; [|done]. simplify_eq.
  destruct (event_sequence a =? s + 1) eqn:Hs; simpl in Hrun; tx_inv; [|done].
  apply IH in Hrun as [-> Hle]. split; [|lia].
  match goal with Hr : route_event _ _ _ _ _ _ _ = _ |- _ =>
    unfold route_event, insert_command, insert_outbox in Hr; case_bool_decide; by tx_inv end.
Qed.

Lemma advance_grows now ex types limit : within grows (advance uuid5 ns now ex types limit).
Proof.
  intros d r d' Hrun. unfold advance in Hrun. tx_inv.
  destruct (ew_bindings d !! (ns, ex)) as [b|] eqn:Hb; tx_inv; [|reflexivity].
  destruct a as [[s' n'] gap]. tx_inv.
  destruct (advance_loop_bindings _ _ _ _ _ _ _ _ _ _ _ Hrun0) as [Hbs Hle].
  etransitivity; [by eapply advance_loop_grows|]. apply grows_bindings. rewrite Hbs.
  intros k v Hv. exists (if decide ((ns, ex) = k) then advanced now s' v else v).
  split; [apply lookup_alter_Some; eauto|]. case_decide; [|reflexivity].
  subst. simplify_eq. unfold binding_grows; simpl; split_and!; (done || lia).
Qed.

Lemma store_step_grows d d' : store_step uuid5 ns d d' → grows d d'.
Proof.
  intros [now ex sess task actor Hr|now e cu _ Hr|now ex v Hr|now ex err Hr|now ex types limit r Hr
    |now token locked limit lease r Hr|now token ids sent Hr|now c st err fa Hr|now c retry actor reason Hr].
  - by eapply register_grows.
  - by eapply ingest_grows.
  - refine (within_modify _ _ _ _ _ _ Hr). intros d0. apply grows_alter_binding. intros b. unfold binding_grows; simpl; split_and!; (done || lia).
  - refine (within_modify _ _ _ _ _ _ Hr). intros d0. apply grows_alter_binding. intros b. unfold binding_grows; simpl; split_and!; (done || lia).
  - by eapply advance_grows.
  - unfold claim_outbox in Hr. tx_inv. apply grows_outbox.
  - unfold finish_publications in Hr. case_bool_decide; tx_inv; [reflexivity|apply grows_outbox].
  - unfold set_state in Hr. destruct (terminal st); tx_inv;
      (etransitivity; [apply grows_alter_command|apply grows_outbox || reflexivity]);
      intros b; unfold command_grows; simpl; split_and!; (done || lia).
  - unfold resolve_failed in Hr. tx_inv. destruct (ew_commands _ !! _) as [cr|]; [|done].
    assert (Hc : grows d (set_commands (alter (resolved now retry actor) (ns, c)) d)).
    { apply grows_alter_command. intros b; unfold command_grows; simpl; split_and!; (done || lia). }
    destruct retry; tx_inv; (etransitivity; [exact Hc|]); split_and!; try reflexivity; by apply prefix_app_r.
Qed.

End Growth.

Lemma run_grows `{EventCodec} uuid5 d d' : rtc (store_next uuid5) d d' → grows d d'.
Proof.
  induction 1 as [|d1 d2 d3 [ns' Hs] _ IH]; [reflexivity|].
  etransitivity; [by eapply store_step_grows|exact IH].
Qed.
