(* ===== verification/WorkerStoreProps.v ===== *)
(** * Theorems about the worker's [Store]

    Routing is exactly-once and in order, claims are ordered leases fenced by
    their token, bindings and Inbox events are immutable, namespaces do not
    interfere, and the operator's paged view of failures is complete. *)

From stdpp Require Import base gmap strings list sorting relations.
From Stdlib Require Import ZArith Lia.
From S2P Require Import Prelude Text WorkerContracts WorkerStore WorkerStoreInv WorkerStoreAdvance WorkerStoreFrame.
Local Open Scope Z_scope.
Set Default Proof Using "Type".

(** ** Concrete runs, on which the theorems are instantiated *)
Module StoreDemo.
Import DemoCodec.

(** A stand-in for [uuid5]: a hash of the name. *)
Definition uuid5 (s : string) : uuid := (N.pos (encode s) mod 1009)%N.

Definition ev (n : Z) (ty : string) : ExecutorEvent :=
  mk_event (Z.to_N (100 + n)) 7 ty n "1.0" "2026-01-01T00:00:00Z" [] [].

Definition commit {A} (m : tx db A) (d : db) : db :=
  match m d with Ok (_, d') => d' | Err _ => d end.

Definition types : gset string := {["execution.completed"]}.

(** One execution registered; events 1, 2 and 4 received (3 is missing). *)
Definition d0 : db := commit (register "w" 1 7 "session" "task" "agent") empty_db.
Definition d1 : db := commit (ingest "w" 2 (ev 1 "execution.started") false) d0.
Definition d2 : db := commit (ingest "w" 3 (ev 2 "execution.completed") false) d1.
Definition d3 : db := commit (ingest "w" 4 (ev 4 "execution.completed") true) d2.
(** Events 1 and 2 routed, the command of event 2 claimed. *)
Definition d4 : db := commit (advance uuid5 "w" 5 7 types 10) d3.
Definition d5 : db := commit (claim_outbox "w" 6 55 ∅ 10 30) d4.
(** The missing event arrives; events 3 and 4 are routed. *)
Definition d6 : db := commit (ingest "w" 7 (ev 3 "execution.completed") false) d5.
Definition d7 : db := commit (advance uuid5 "w" 8 7 types 10) d6.
Definition cmd2 : uuid := command_id_of uuid5 "w" 102.
(** The command of event 2 failed for good. *)
Definition d8 : db := commit (set_state "w" 9 cmd2 FAILED (Some "boom") true) d7.

Lemma ev_valid n ty : 1 ≤ n ≤ 1000 → ty ≠ "" → event_valid (ev n ty).
Proof.
  intros Hn Hty. unfold event_valid, ev. simpl. split_and!; try done; try lia.
  intros k v Hin. by apply not_elem_of_nil in Hin.
Qed.

Lemma reach_step d d' : store_step uuid5 "w" d d' → reachable uuid5 d → reachable uuid5 d'.
Proof. intros Hs Hr. eapply rtc_r; [exact Hr|]. by exists "w". Qed.

Ltac ran := vm_compute; reflexivity.

Lemma d3_reachable : reachable uuid5 d3.
Proof.
  apply (reach_step d2). { apply (step_ingest _ _ _ _ 4 (ev 4 "execution.completed") true); [by apply ev_valid|ran]. }
  apply (reach_step d1). { apply (step_ingest _ _ _ _ 3 (ev 2 "execution.completed") false); [by apply ev_valid|ran]. }
  apply (reach_step d0). { apply (step_ingest _ _ _ _ 2 (ev 1 "execution.started") false); [by apply ev_valid|ran]. }
  apply (reach_step empty_db); [|apply rtc_refl].
  apply (step_register _ _ _ _ 1 7 "session" "task" "agent"). ran.
Qed.
Lemma d4_reachable : reachable uuid5 d4.
Proof.
  apply (reach_step d3), d3_reachable.
  apply (step_advance _ _ _ _ 5 7 types 10 (2, Some 2)). ran.
Qed.
Lemma d5_reachable : reachable uuid5 d5.
Proof.
  apply (reach_step d4), d4_reachable.
  eapply (step_claim _ _ _ _ 6 55 ∅ 10 30). ran.
Qed.
Lemma d7_reachable : reachable uuid5 d7.
Proof.
  apply (reach_step d6). { apply (step_advance _ _ _ _ 8 7 types 10 (2, None)). ran. }
  apply (reach_step d5), d5_reachable.
  apply (step_ingest _ _ _ _ 7 (ev 3 "execution.completed") false); [by apply ev_valid|ran].
Qed.
Lemma d8_reachable : reachable uuid5 d8.
Proof.
  apply (reach_step d7), d7_reachable.
  apply (step_set_state _ _ _ _ 9 cmd2 FAILED (Some "boom") true). ran.
Qed.

Lemma d3_ok : store_ok uuid5 d3.
Proof. apply reachable_store_ok, d3_reachable. Qed.
Lemma d5_ok : store_ok uuid5 d5.
Proof. apply reachable_store_ok, d5_reachable. Qed.
Lemma d8_ok : store_ok uuid5 d8.
Proof. apply reachable_store_ok, d8_reachable. Qed.
End StoreDemo.

(** What a claim tells about the tables it was taken from. *)
Lemma claim_picked ns now token locked limit lease d res d' c o :
  claim_outbox ns now token locked limit lease d = Ok (res, d') → (c, o) ∈ res →
  ∃ o0, ew_outbox d !! (ns, c) = Some o0 ∧ o = claim_row now token lease o0 ∧
        claimable ns d now locked (c, o0) = true ∧ ew_outbox d' !! (ns, c) = Some o.
Proof.
  intros Hrun Hin. unfold claim_outbox in Hrun. tx_inv.
  apply list_elem_of_fmap in Hin as ([c0 o0] & Heq & Hin). simpl in Heq. simplify_eq.
  pose proof Hin as Hin'. apply elem_of_take_elem in Hin'.
  rewrite elem_of_order_by, list_elem_of_filter, elem_of_rows in Hin'. destruct Hin' as [Hcl Ho].
  exists o0. split_and!; [done..|]. simpl. rewrite lookup_update_where, Ho. simpl.
  rewrite bool_decide_eq_true_2 by done. rewrite bool_decide_eq_true_2; [done|].
  apply list_elem_of_fmap. by exists (c0, o0).
Qed.

(** A row [claim_outbox] handed out: unlocked, leased to the token, of a READY
    command that was publishable and whose predecessors are settled. *)
Definition well_claimed ns now token (locked : gset uuid) lease (d d' : db) (c : uuid) (o : outbox_row) : Prop :=
  c ∉ locked ∧ ew_outbox d' !! (ns, c) = Some o ∧
  o_state o = CLAIMED ∧ o_claim_token o = Some token ∧
  o_claim_until o = Some (now + microseconds lease) ∧
  ∃ o0 cr, ew_outbox d !! (ns, c) = Some o0 ∧ ew_commands d !! (ns, c) = Some cr ∧
    o_generation o = o_generation o0 ∧ c_state cr = READY ∧
    (o_state o0 = PENDING ∨ (o_state o0 = CLAIMED ∧ ∃ t, o_claim_until o0 = Some t ∧ t < now)) ∧
    ∀ c' cr', ew_commands d !! (ns, c') = Some cr' → c_execution_id cr' = c_execution_id cr →
      c_sequence cr' < c_sequence cr → c_state cr' = DONE ∨ c_state cr' = IGNORED.

Lemma claimable_spec ns d now locked c o0 : claimable ns d now locked (c, o0) = true →
  c ∉ locked ∧ ∃ cr, ew_commands d !! (ns, c) = Some cr ∧ c_state cr = READY ∧
    (o_state o0 = PENDING ∨ (o_state o0 = CLAIMED ∧ ∃ t, o_claim_until o0 = Some t ∧ t < now)) ∧
    ∀ c' cr', ew_commands d !! (ns, c') = Some cr' → c_execution_id cr' = c_execution_id cr →
      c_sequence cr' < c_sequence cr → c_state cr' = DONE ∨ c_state cr' = IGNORED.
Proof.
  unfold claimable. simpl. destruct (ew_commands d !! (ns, c)) as [cr|] eqn:Hc; [|done].
  rewrite !andb_true_iff, orb_true_iff, andb_true_iff, !negb_true_iff, !bool_decide_eq_true,
    bool_decide_eq_false. intros [[[Hst Hout] Hearlier] Hlock].
  split; [done|]. exists cr. split_and!; try done.
  - unfold claim_expired in Hout. destruct (o_claim_until o0); [|by left; destruct Hout as [|[]]].
    rewrite Z.ltb_lt in Hout. naive_solver.
  - intros c' cr' Hc' He Hs. apply not_true_iff_false in Hearlier.
    destruct (c_state cr') eqn:E; try (by auto); exfalso; apply Hearlier, existsb_exists;
      exists (c', cr'); (split; [by apply list_elem_of_In, elem_of_rows|]); simpl;
      rewrite !andb_true_iff, N.eqb_eq, Z.ltb_lt, E; done.
Qed.

Lemma claim_outbox_well_claimed ns now token locked limit lease d res d' c o :
  claim_outbox ns now token locked limit lease d = Ok (res, d') → (c, o) ∈ res →
  well_claimed ns now token locked lease d d' c o.
Proof.
  intros Hrun Hin.
  destruct (claim_picked _ _ _ _ _ _ _ _ _ _ _ Hrun Hin) as (o0 & Ho & -> & Hcl & Hd').
  apply claimable_spec in Hcl as (? & cr & ?). unfold well_claimed.
  split_and!; try done. exists o0, cr. naive_solver.
Qed.

(** A lease excludes other publishers: until it expires, no other
    [claim_outbox] of the namespace returns a row it covers, and
    [finish_publications] with another token leaves the row alone. *)
Theorem claim_is_exclusive ns now token locked limit lease d res d' now' token' locked' limit' lease' res' d'' c o :
  claim_outbox ns now token locked limit lease d = Ok (res, d') → (c, o) ∈ res →
  now' ≤ now + microseconds lease → token' ≠ token →
  (claim_outbox ns now' token' locked' limit' lease' d' = Ok (res', d'') →
     (c ∉ res'.*1) ∧ ew_outbox d'' !! (ns, c) = Some o) ∧
  (∀ ids sent u, finish_publications ns now' token' ids sent d' = Ok (u, d'') →
     ew_outbox d'' !! (ns, c) = Some o).
Proof.
  intros Hrun Hin Hnow Htok.
  destruct (claim_outbox_well_claimed _ _ _ _ _ _ _ _ _ _ _ Hrun Hin)
    as (_ & Ho & Hst & Htk & Hun & _). split.
  - intros Hrun'.
    assert (Hnot : c ∉ res'.*1).
    { intros ([c' o'] & -> & Hin')%list_elem_of_fmap. simpl in *.
      destruct (claim_outbox_well_claimed _ _ _ _ _ _ _ _ _ _ _ Hrun' Hin')
        as (_ & _ & _ & _ & _ & o0 & cr & Ho0 & _ & _ & _ & [?|(_ & t & Ht & Hlt)] & _);
        simplify_eq; [congruence|lia]. }
    split; [done|]. unfold claim_outbox in Hrun'. tx_inv. simpl. rewrite lookup_update_where, Ho. simpl.
    rewrite (bool_decide_eq_false_2 (c ∈ _)); [by rewrite andb_false_r|].
    intros Hc. apply Hnot. rewrite list_fmap_compose_fst. done.
  - intros ids sent u Hf. unfold finish_publications in Hf. case_bool_decide; tx_inv; [done|].
    simpl. rewrite lookup_update_where, Ho. simpl.
    rewrite (bool_decide_eq_false_2 (o_claim_token o = _)) by congruence.
    by rewrite andb_false_r.
Qed.
Lemma inbox_conflict_iff ns d e : inbox_conflict ns d e = false ↔
  ew_inbox d !! (ns, event_id e) = None ∧
  ∀ id r, ew_inbox d !! (ns, id) = Some r → i_execution_id r = ev_execution_id e →
    i_sequence r ≠ event_sequence e.
Proof.
  split; [apply inbox_conflict_false|]. intros [Hn Hs]. unfold inbox_conflict.
  rewrite bool_decide_eq_false_2 by (rewrite Hn; by intros [? [=]]). simpl.
  apply not_true_iff_false. intros ([id r] & Hin & Heq)%existsb_exists.
  apply list_elem_of_In, elem_of_rows in Hin. simpl in Heq.
  apply andb_true_iff in Heq as [?%N.eqb_eq ?%Z.eqb_eq]. by eapply Hs.
Qed.

(** The outcomes of [ingest] without catch-up. *)
Lemma ingest_cases `{EventCodec} ns now e d : event_valid e → event_sequence e ≤ int8_max →
  (inbox_conflict ns d e = true →
     (i_event <$> ew_inbox d !! (ns, event_id e) = Some (model_dump e) → ingest ns now e false d = Ok (tt, d)) ∧
     (i_event <$> ew_inbox d !! (ns, event_id e) ≠ Some (model_dump e) →
        ingest ns now e false d = Err (ValueError "Conflicting event identity or sequence"))) ∧
  (inbox_conflict ns d e = false →
     ingest ns now e false d = Ok (tt, set_inbox <[(ns, event_id e) :=
       mk_inbox (ev_execution_id e) (event_sequence e) (model_dump e) RECEIVED
         (mk_audit now now "worker" "worker")]> d)).
Proof.
  intros (_ & _ & _ & Hge & _) Hmax.
  assert (Hfit : fits_int8 (event_sequence e) = true).
  { unfold fits_int8. rewrite andb_true_iff, !Z.leb_le. unfold int8_max in *. lia. }
  unfold ingest, mbind, tx_bind, tx_guard, tx_modify, tx_get. rewrite Hfit.
  rewrite (proj2 (Z.ltb_lt 0 (event_sequence e))) by lia.
  split; [intros Hc; split; intros Hs|intros Hc]; rewrite Hc.
  - by rewrite bool_decide_eq_true_2.
  - by rewrite bool_decide_eq_false_2.
  - rewrite bool_decide_eq_true_2; [done|]. simpl. by rewrite lookup_insert_eq.
Qed.

Lemma ingest_stored `{EventCodec} ns now e d d' : event_valid e → event_sequence e ≤ int8_max →
  ingest ns now e false d = Ok (tt, d') →
  i_event <$> ew_inbox d' !! (ns, event_id e) = Some (model_dump e) ∧
  (∀ k, k ≠ (ns, event_id e) → ew_inbox d' !! k = ew_inbox d !! k).
Proof.
  intros Hv Hmax Hrun. destruct (ingest_cases ns now e d Hv Hmax) as [Hdup Hnew].
  destruct (inbox_conflict ns d e).
  - destruct (decide (i_event <$> ew_inbox d !! (ns, event_id e) = Some (model_dump e))) as [Hs|Hs].
    + rewrite (proj1 (Hdup eq_refl) Hs) in Hrun. by simplify_eq.
    + by rewrite (proj2 (Hdup eq_refl) Hs) in Hrun.
  - rewrite Hnew in Hrun by done. simplify_eq. simpl. split; [by rewrite lookup_insert_eq|].
    intros k Hk. by rewrite lookup_insert_ne.
Qed.

(** The operator's client: page after page until one comes back empty. *)
Fixpoint visit_failed (ns : string) (fuel : nat) (after : option (uuid * Z)) (limit : Z) (d : db)
    : result (list (uuid * command_row)) :=
  match fuel with
  | O => Ok []
  | S fuel' =>
      page ← failed_page ns after limit d;
      match last page with
      | None => Ok []
      | Some x =>
          rest ← visit_failed ns fuel' (Some (c_execution_id x.2, c_sequence x.2)) limit d;
          Ok (page ++ rest)
      end
  end.

Definition failed_row (row : uuid * command_row) : bool :=
  negb (settled (c_state row.2)) && bool_decide (c_state row.2 = FAILED).

Lemma visit_failed_pages ns fuel after limit d : 1 ≤ limit ≤ 100 →
  visit_failed ns fuel after limit d = Ok (all_pages failed_key failed_row fuel
    ((λ a, (Z.of_N a.1, a.2)) <$> after) (Z.to_nat limit) (rows ns (ew_commands d))).
Proof.
  intros Hl. revert after. induction fuel as [|fuel IH]; intros after; [done|].
  cbn [visit_failed all_pages]. unfold failed_page.
  rewrite (proj2 (Z.leb_le 1 limit)), (proj2 (Z.leb_le limit 100)) by lia. cbn [negb andb].
  unfold mbind at 1, result_bind at 1. fold failed_row.
  destruct (last _) as [x|]; [|done]. by rewrite IH.
Qed.

Lemma existsb_same {A} (f : A → bool) (l l' : list A) :
  (∀ x, x ∈ l ↔ x ∈ l') → existsb f l = existsb f l'.
Proof.
  intros Hl. apply eq_true_iff_eq. rewrite !existsb_exists. setoid_rewrite <- list_elem_of_In. naive_solver.
Qed.

Lemma tx_bind_eq {S A B} (m : tx S A) (f : A → tx S B) s a s' :
  m s = Ok (a, s') → (m ≫= f) s = f a s'.
Proof. intros Hm. unfold mbind, tx_bind. by rewrite Hm. Qed.

(** An operator resolves exactly the FAILED commands: [resolve_failed]
    with a non-blank actor and reason succeeds if and only if the command is
    FAILED and its generation fits the column; the command then starts again
    as READY (retry) or is IGNORED (skip) with no attempts, no error and the
    next generation, a retry makes its Outbox row publishable under that
    generation while a skip leaves the Outbox alone, and one audit row with
    the action, the reason and the actor is appended. *)
Theorem resolve_failed_spec ns now c retry actor reason d d' :
  is_blank actor = false → is_blank reason = false →
  resolve_failed ns now c retry actor reason d = Ok (tt, d') ↔
  ∃ r, ew_commands d !! (ns, c) = Some r ∧ c_state r = FAILED ∧ fits_int4 (c_generation r + 1) = true ∧
    ew_bindings d' = ew_bindings d ∧ ew_inbox d' = ew_inbox d ∧
    ew_commands d' = <[(ns, c) := mk_command (c_event_id r) (c_execution_id r) (c_sequence r)
      (if retry then READY else IGNORED) 0 (c_generation r + 1) None (touched now actor (c_audit r))]> (ew_commands d) ∧
    ew_outbox d' = (if retry
      then alter (λ o, mk_outbox (c_generation r + 1) PENDING None None (touched now actor (o_audit o)))
             (ns, c) (ew_outbox d)
      else ew_outbox d) ∧
    ew_audit d' = ew_audit d ++ [mk_audit_row ns c (if retry then "RETRY" else "SKIP") reason
                                   (mk_audit now now actor actor)].
Proof.
  intros Ha Hr. unfold resolve_failed. rewrite Ha, Hr. cbn [negb orb].
  rewrite (tx_bind_eq _ _ _ tt d), (tx_bind_eq _ _ _ d d) by done.
  destruct (ew_commands d !! (ns, c)) as [r|] eqn:Hc; [|split; [done|naive_solver]].
  assert (Halter : alter (resolved now retry actor) (ns, c) (ew_commands d)
    = <[(ns, c) := resolved now retry actor r]> (ew_commands d)).
  { apply map_eq. intros k. destruct (decide (k = (ns, c))) as [->|].
    - by rewrite lookup_alter_eq, Hc, lookup_insert_eq.
    - by rewrite lookup_alter_ne, lookup_insert_ne. }
  split.
  - intros Hrun. exists r. destruct retry; tx_inv; simpl; rewrite ?bool_decide_eq_true in *;
      split_and!; done.
  - intros (r' & [= <-] & Hst & Hfit & Hb & Hi & Hcm & Ho & Hau).
    change (ew_commands d' = <[(ns, c) := resolved now retry actor r]> (ew_commands d)) in Hcm.
    unfold mbind, tx_bind, tx_guard. rewrite bool_decide_eq_true_2 by done. rewrite Hfit.
    destruct d' as [b' i' c' o' a']. simpl in Hb, Hi, Hcm, Ho, Hau.
    rewrite Hb, Hi, Hcm, Ho, Hau, <- Halter. by destruct retry.
Qed.

Section StoreTheorems.
Context `{EventCodec} (uuid5 : string → uuid).

(** C9. Whatever transactions the workers of all namespaces commit, in
    whatever order, the tables stay consistent: Inbox rows are validated
    events with unique sequences, the routed prefix of every execution is
    contiguous, commands and Outbox rows correspond one to one to routed
    events, claims are well formed and a terminal command is never left
    publishable. *)
Theorem store_reachable_consistent d : reachable uuid5 d → store_ok uuid5 d.
Proof. apply reachable_store_ok. Qed.

(** C10. Exactly-once routing: an Inbox event up to the execution's last
    routed sequence either is ROUTED and has exactly one command (with one
    Outbox row) or is IGNORED and has none; a later event has none. *)
Theorem routed_exactly_once d ns id r b : reachable uuid5 d →
  ew_inbox d !! (ns, id) = Some r → ew_bindings d !! (ns, i_execution_id r) = Some b →
  let has_command c := c_event_id <$> ew_commands d !! (ns, c) = Some id in
  (i_sequence r ≤ b_last_sequence b ∧ i_state r = ROUTED ∧
     ∃ c, has_command c ∧ is_Some (ew_outbox d !! (ns, c)) ∧ ∀ c', has_command c' → c' = c) ∨
  (i_sequence r ≤ b_last_sequence b ∧ i_state r = INBOX_IGNORED ∧ ∀ c, ¬ has_command c) ∨
  (b_last_sequence b < i_sequence r ∧ i_state r = RECEIVED ∧ ∀ c, ¬ has_command c).
Proof.
  intros Hok%reachable_store_ok Hr Hb has_command.
  assert (Hcmd : ∀ c, has_command c → c = command_id_of uuid5 ns id ∧ i_state r = ROUTED).
  { intros c (cr & Hc & Hid)%fmap_Some. destruct (ok_command _ _ _ _ _ Hok _ _ _ Hc) as (-> & i & Hi & Hst & _).
    subst id. simplify_eq. done. }
  assert (Hlast : i_state r ≠ RECEIVED → i_sequence r ≤ b_last_sequence b).
  { intros Hst. destruct (ok_tail _ _ _ _ _ Hok _ _ _ Hr Hst) as (s & Hs & Hle).
    rewrite lookup_fmap, Hb in Hs. simpl in Hs. by simplify_eq. }
  destruct (i_state r) eqn:Hst.
  - right. right. split_and!; [|done|intros c [_ ?]%Hcmd; done].
    destruct (decide (b_last_sequence b < i_sequence r)) as [|Hle]; [done|exfalso].
    destruct (ok_event _ _ _ _ _ Hok _ _ _ Hr) as (e & _ & (_ & _ & _ & He & _) & _ & _ & Hsq & _).
    destruct (ok_prefix _ _ _ _ _ Hok ns (i_execution_id r) (b_last_sequence b) (i_sequence r))
      as (id' & r' & Hr' & He' & Hs' & Hst'); [by rewrite lookup_fmap, Hb|lia|].
    assert (id' = id) as -> by (eapply (ok_unique _ _ _ _ _ Hok); eauto). simplify_eq.
  - left. split_and!; [by apply Hlast|done|].
    pose proof (ok_routed _ _ _ _ _ Hok _ _ _ Hr Hst) as Hc.
    exists (command_id_of uuid5 ns id). split_and!; [done| |intros c' [? _]%Hcmd; done].
    apply (ok_outbox _ _ _ _ _ Hok). by eapply fmap_is_Some, mk_is_Some.
  - right. left. split_and!; [by apply Hlast|done|intros c [_ ?]%Hcmd; done].
Qed.

(** [advance] routes the longest contiguous run of events after the last
    routed one, up to its limit: every event of the run is marked ROUTED or
    IGNORED by its type and nothing else of the Inbox changes, the binding
    moves forward by the number advanced, the next sequence number is missing
    unless the limit was reached, and a gap is reported exactly when it
    stopped in front of a later event. *)
Theorem advance_routes_longest_run ns now ex types limit d n gap d' b :
  store_ok uuid5 d → ew_bindings d !! (ns, ex) = Some b →
  advance uuid5 ns now ex types limit d = Ok ((n, gap), d') →
  let s := b_last_sequence b in
  let event_at k id r := ew_inbox d !! (ns, id) = Some r ∧ i_execution_id r = ex ∧ i_sequence r = k in
  0 ≤ n ≤ Z.of_nat limit ∧
  b_last_sequence <$> ew_bindings d' !! (ns, ex) = Some (s + n) ∧
  (∀ k, s < k ≤ s + n → ∃ id r, event_at k id r ∧
     i_state <$> ew_inbox d' !! (ns, id) = Some (routed_state types (i_event r))) ∧
  (∀ id r, ew_inbox d !! (ns, id) = Some r → i_execution_id r ≠ ex ∨ i_sequence r ≤ s ∨ s + n < i_sequence r →
     ew_inbox d' !! (ns, id) = Some r) ∧
  (n < Z.of_nat limit → ∀ id r, ¬ event_at (s + n + 1) id r) ∧
  (∀ g, gap = Some g ↔ g = s + n ∧ n < Z.of_nat limit ∧ ∃ k id r, s + n < k ∧ event_at k id r).
Proof.
  intros Hok Hb Hrun s event_at.
  destruct (advance_Ok _ _ _ _ _ _ _ _ _ _ _ Hok Hb Hrun) as (Hn & Hlast & Hgap & Hmark & Hkeep).
  fold s in Hn, Hlast, Hgap, Hmark, Hkeep.
  pose proof (backlog_increasing uuid5 ns d ex s Hok) as Hsorted.
  pose proof (λ id r, elem_of_backlog ns d ex s id r) as Hl.
  generalize dependent (backlog ns d ex s). intros l Hn Hgap Hmark Hkeep Hsorted Hl.
  assert (Hall : ∀ y, y ∈ l → s < i_sequence y.2) by (intros [] Hy; apply Hl in Hy; tauto).
  pose proof (run_length_le s l) as Hle.
  remember (Nat.min limit (run_length s l)) as k eqn:Hk.
  split_and!; [lia|lia|done|..].
  - intros j Hj. destruct (run_prefix_at s l k j) as ([id r] & Hx & Hseq); [lia..|].
    exists id, r. split; [|by apply (Hmark (id, r))].
    apply (run_prefix s) in Hx as [(H1 & H2 & _)%Hl _]; [done|lia].
  - intros id r Hr Hcase. rewrite Hkeep; [done|]. intros [id' r'] Hx <-.
    apply (run_prefix s) in Hx as [(H1 & H2 & H3)%Hl H4]; [|lia]. simpl in *. simplify_eq. lia.
  - intros Hlt id r (H1 & H2 & H3).
    eapply (run_length_stop s l (id, r)); [done..| |simpl; lia]. apply Hl. split_and!; [done..|lia].
  - intros g. rewrite Hgap. case_decide as Hd; split.
    + intros [= <-]. destruct (run_beyond s l) as ([id r] & Hin & Hlt); [done..|lia|]. simpl in Hlt.
      split_and!; [done|lia|]. exists (i_sequence r), id, r. apply Hl in Hin as (? & ? & _). split; [lia|done].
    + by intros (-> & _).
    + done.
    + intros (-> & Hlt & j & id & r & Hj & H1 & H2 & H3). exfalso. apply Hd.
      assert (k < length l)%nat; [|lia].
      eapply (beyond_run s l k (id, r)); [lia| |simpl; lia]. apply Hl. split_and!; [done..|lia].
Qed.

(** [advance] never fails on consistent tables whose event names do not
    collide under [uuid5]: no constraint is violated and every stored event
    validates. *)
Theorem advance_never_fails ns now ex types limit d :
  reachable uuid5 d → collision_free uuid5 ns d →
  ∃ res d', advance uuid5 ns now ex types limit d = Ok (res, d').
Proof. intros Hok%reachable_store_ok. by apply advance_total. Qed.

(** [claim_outbox] respects the order of an execution: a command is handed
    out only when it is READY, its Outbox row was PENDING or its lease had
    expired, and every command of the same execution with a smaller sequence
    is DONE or IGNORED; the rows handed out are leased to the token, are at
    most [limit], and no two belong to the same execution. *)
Theorem claim_outbox_in_order ns now token locked limit lease d res d' :
  reachable uuid5 d → claim_outbox ns now token locked limit lease d = Ok (res, d') →
  (length res ≤ limit)%nat ∧
  (∀ c o, (c, o) ∈ res → well_claimed ns now token locked lease d d' c o) ∧
  (∀ c1 o1 c2 o2 r1 r2, (c1, o1) ∈ res → (c2, o2) ∈ res →
     ew_commands d !! (ns, c1) = Some r1 → ew_commands d !! (ns, c2) = Some r2 →
     c_execution_id r1 = c_execution_id r2 → c1 = c2).
Proof.
  intros Hok%reachable_store_ok Hrun.
  pose proof (λ c o, claim_outbox_well_claimed _ _ _ _ _ _ _ _ _ c o Hrun) as Hrows.
  split_and!; [|done|].
  - unfold claim_outbox in Hrun. tx_inv. rewrite length_map. apply length_take_le_bound.
  - intros c1 o1 c2 o2 r1 r2 H1 H2 Hr1 Hr2 He.
    destruct (Hrows _ _ H1) as (_ & _ & _ & _ & _ & ? & ? & _ & ? & _ & Hst1 & _ & Hord1).
    destruct (Hrows _ _ H2) as (_ & _ & _ & _ & _ & ? & ? & _ & ? & _ & Hst2 & _ & Hord2). simplify_eq.
    destruct (Z.lt_trichotomy (c_sequence r1) (c_sequence r2)) as [Hlt|[Heq|Hlt]].
    + destruct (Hord2 _ _ Hr1); congruence.
    + by eapply command_unique.
    + destruct (Hord1 _ _ Hr2); congruence.
Qed.


(** Ingesting is idempotent and rejects conflicts: on consistent tables an
    event in range is accepted exactly when the Inbox already holds that very
    event or holds neither its id nor its (execution, sequence) pair; the
    stored event is then the given one, no other row changes, and a second
    delivery succeeds without changing the Inbox. *)
Theorem ingest_accepts_iff ns now e d :
  reachable uuid5 d → event_valid e → event_sequence e ≤ int8_max →
  let same := i_event <$> ew_inbox d !! (ns, event_id e) = Some (model_dump e) in
  let fresh := ew_inbox d !! (ns, event_id e) = None ∧
    ∀ id r, ew_inbox d !! (ns, id) = Some r → i_execution_id r = ev_execution_id e →
      i_sequence r ≠ event_sequence e in
  ((∃ d', ingest ns now e false d = Ok (tt, d')) ↔ same ∨ fresh) ∧
  (∀ d', ingest ns now e false d = Ok (tt, d') →
     i_event <$> ew_inbox d' !! (ns, event_id e) = Some (model_dump e) ∧
     (∀ k, k ≠ (ns, event_id e) → ew_inbox d' !! k = ew_inbox d !! k) ∧
     ∀ now', ∃ d'', ingest ns now' e false d' = Ok (tt, d'') ∧ ew_inbox d'' = ew_inbox d').
Proof.
  intros Hok%reachable_store_ok Hv Hmax same fresh.
  pose proof (ingest_cases ns now e d Hv Hmax) as [Hdup Hnew].
  assert (Hconf : inbox_conflict ns d e = false ↔ fresh) by apply inbox_conflict_iff.
  split; [split|].
  - intros [d' Hrun]. destruct (inbox_conflict ns d e) eqn:Hc; [left|right; by apply Hconf].
    destruct (decide same) as [|Hn]; [done|]. by rewrite (proj2 (Hdup eq_refl) Hn) in Hrun.
  - intros [Hs|Hf%Hconf]; [|eexists; by apply Hnew].
    destruct (inbox_conflict ns d e) eqn:Hc; [|eexists; by apply Hnew].
    exists d. by apply Hdup.
  - intros d' Hrun. destruct (ingest_stored ns now e d d' Hv Hmax Hrun) as [Hs Hk].
    split_and!; [done..|]. intros now'.
    destruct (ingest_cases ns now' e d' Hv Hmax) as [Hdup' _].
    exists d'. split; [|done]. apply Hdup'; [|done].
    unfold inbox_conflict. rewrite bool_decide_eq_true_2; [done|].
    by eapply fmap_is_Some, mk_is_Some.
Qed.

(** The operator's pages are complete: following the keyset cursor of
    [failed_page] from the start visits every FAILED command of the namespace
    exactly once, ordered by execution and sequence. *)
Theorem failed_pages_complete ns limit d fuel :
  reachable uuid5 d → 1 ≤ limit ≤ 100 →
  (size (ew_commands d) < fuel)%nat →
  ∃ visited, visit_failed ns fuel None limit d = Ok visited ∧
  NoDup visited ∧ StronglySorted (by_key failed_key) visited ∧
  (∀ c r, (c, r) ∈ visited ↔ ew_commands d !! (ns, c) = Some r ∧ c_state r = FAILED).
Proof.
  intros Hok%reachable_store_ok Hl Hf.
  assert (Hu : keys_unique failed_key (rows ns (ew_commands d))).
  { intros [c1 r1] [c2 r2] H1%elem_of_rows H2%elem_of_rows [= He%N2Z.inj Hs].
    assert (c1 = c2) as -> by by eapply command_unique. by simplify_eq. }
  eexists. split; [by apply visit_failed_pages|]. simpl.
  rewrite all_pages_complete; [|done|apply rows_NoDup|lia|].
  2:{ eapply Nat.le_lt_trans; [|exact Hf]. apply paged_rows_length. }
  rewrite filter_all by done. split_and!.
  - rewrite order_by_Permutation. apply NoDup_filter, rows_NoDup.
  - apply order_by_sorted.
  - intros c r. rewrite elem_of_order_by, list_elem_of_filter, elem_of_rows. unfold failed_row. simpl.
    rewrite andb_true_iff, negb_true_iff, bool_decide_eq_true.
    split; [tauto|]. intros [? Hst]. rewrite Hst. done.
Qed.

(** Namespaces are isolated: a transaction of the [Store] of one
    namespace leaves every binding, event, command and Outbox row of any other
    namespace as it is, so the other namespace's commands read the same and
    the same of its rows can be claimed. *)
Theorem namespaces_isolated ns d d' ns' : store_step uuid5 ns d d' → ns' ≠ ns →
  (∀ k, ew_bindings d' !! (ns', k) = ew_bindings d !! (ns', k) ∧
        ew_inbox d' !! (ns', k) = ew_inbox d !! (ns', k) ∧
        ew_commands d' !! (ns', k) = ew_commands d !! (ns', k) ∧
        ew_outbox d' !! (ns', k) = ew_outbox d !! (ns', k) ∧
        command ns' d' k = command ns' d k) ∧
  (∀ now locked row, claimable ns' d' now locked row = claimable ns' d now locked row).
Proof.
  intros Hs Hne. pose proof (λ k, store_step_frame _ _ _ _ Hs ns' k Hne) as Hf.
  assert (Hrows : ∀ kr, kr ∈ rows ns' (ew_commands d') ↔ kr ∈ rows ns' (ew_commands d)).
  { intros [k r]. rewrite !elem_of_rows. by destruct (Hf k) as (_ & _ & -> & _). }
  split.
  - intros k. destruct (Hf k) as (Hb & Hi & Hc & Ho). split_and!; try done.
    unfold command. rewrite Hc. destruct (ew_commands d !! (ns', k)) as [c|]; [|done]. simpl.
    destruct (Hf (c_event_id c)) as (_ & -> & _). by destruct (Hf (c_execution_id c)) as (-> & _).
  - intros now locked row. unfold claimable. destruct (Hf row.1) as (_ & _ & -> & _).
    destruct (ew_commands d !! (ns', row.1)); [|done]. do 3 f_equal.
    apply existsb_same. apply Hrows.
Qed.

(** History only grows: whatever transactions commit, registered
    bindings keep their session and task, received events keep their content,
    commands keep the event they came from, routed sequences, catch-up
    versions and delivery generations never go back, and audit rows are only
    appended. *)
Theorem history_only_grows d d' : rtc (store_next uuid5) d d' →
  (∀ k b, ew_bindings d !! k = Some b → ∃ b', ew_bindings d' !! k = Some b' ∧
     b_session_id b' = b_session_id b ∧ b_task_id b' = b_task_id b ∧
     b_last_sequence b ≤ b_last_sequence b' ∧
     b_catch_up_version b ≤ b_catch_up_version b' ∧ b_caught_up_version b ≤ b_caught_up_version b') ∧
  (∀ k r, ew_inbox d !! k = Some r → ∃ r', ew_inbox d' !! k = Some r' ∧
     i_execution_id r' = i_execution_id r ∧ i_sequence r' = i_sequence r ∧ i_event r' = i_event r) ∧
  (∀ k c, ew_commands d !! k = Some c → ∃ c', ew_commands d' !! k = Some c' ∧
     c_event_id c' = c_event_id c ∧ c_execution_id c' = c_execution_id c ∧
     c_sequence c' = c_sequence c ∧ c_generation c ≤ c_generation c') ∧
  ew_audit d `prefix_of` ew_audit d'.
Proof. apply run_grows. Qed.
End StoreTheorems.

(** ** The theorems at concrete tables *)
Import DemoCodec StoreDemo.

Lemma claim_is_exclusive_witness :
  cmd2 ∉ match claim_outbox "w" 7 56 ∅ 10 30 d5 with Ok (res, _) => res.*1 | Err _ => [] end.
Proof.
  refine (proj1 (proj1 (claim_is_exclusive "w" 6 55 ∅ 10 30 d4
    (match claim_outbox "w" 6 55 ∅ 10 30 d4 with Ok (res, _) => res | Err _ => [] end) d5
    7 56 ∅ 10 30 _ (commit (claim_outbox "w" 7 56 ∅ 10 30) d5)
    cmd2 (default (mk_outbox 0 PENDING None None (mk_audit 0 0 "" "")) (ew_outbox d5 !! ("w", cmd2)))
    _ _ _ _) _)); [vm_compute; reflexivity| |vm_compute; discriminate|discriminate|vm_compute; reflexivity].
  vm_compute. by left.
Defined.

Lemma resolve_failed_spec_witness :
  c_state <$> ew_commands (commit (resolve_failed "w" 10 cmd2 true "ops" "fixed") d8) !! ("w", cmd2) = Some READY.
Proof.
  destruct (proj1 (resolve_failed_spec "w" 10 cmd2 true "ops" "fixed" d8
    (commit (resolve_failed "w" 10 cmd2 true "ops" "fixed") d8) eq_refl eq_refl))
    as (r & _ & _ & _ & _ & _ & Hc & _); [vm_compute; reflexivity|].
  rewrite Hc. by rewrite lookup_insert_eq.
Defined.

Lemma store_reachable_consistent_witness : store_ok uuid5 d8.
Proof. apply (store_reachable_consistent uuid5 d8), d8_reachable. Defined.

Lemma routed_exactly_once_witness :
  ∃ c, c_event_id <$> ew_commands d8 !! ("w", c) = Some 102%N ∧
       ∀ c', c_event_id <$> ew_commands d8 !! ("w", c') = Some 102%N → c' = c.
Proof.
  destruct (ew_inbox d8 !! ("w", 102%N)) as [r|] eqn:Hr; [|vm_compute in Hr; discriminate Hr].
  assert (Hri : i_execution_id r = 7%N ∧ i_state r = ROUTED)
    by (vm_compute in Hr; injection Hr as <-; split; reflexivity).
  destruct (ew_bindings d8 !! ("w", i_execution_id r)) as [b|] eqn:Hb.
  2:{ rewrite (proj1 Hri) in Hb. vm_compute in Hb. discriminate Hb. }
  destruct (routed_exactly_once uuid5 d8 "w" 102 r b d8_reachable Hr Hb)
    as [(_ & _ & c & H1 & _ & H2)|[(_ & Hst & _)|(_ & Hst & _)]].
  - exists c. exact (conj H1 H2).
  - rewrite (proj2 Hri) in Hst. discriminate Hst.
  - rewrite (proj2 Hri) in Hst. discriminate Hst.
Defined.

Lemma advance_routes_longest_run_witness :
  b_last_sequence <$> ew_bindings d4 !! ("w", 7%N) = Some 2.
Proof.
  destruct (ew_bindings d3 !! ("w", 7%N)) as [b|] eqn:Hb; [|vm_compute in Hb; discriminate Hb].
  assert (Hs : b_last_sequence b = 0) by (vm_compute in Hb; injection Hb as <-; reflexivity).
  destruct (advance_routes_longest_run uuid5 "w" 5 7 types 10 d3 2 (Some 2) d4 b d3_ok Hb)
    as (_ & Hlast & _); [vm_compute; reflexivity|]. rewrite Hlast, Hs. reflexivity.
Defined.

Lemma advance_never_fails_witness : ∃ res d', advance uuid5 "w" 1 7 types 10 d0 = Ok (res, d').
Proof.
  apply (advance_never_fails uuid5 "w" 1 7 types 10 d0).
  - apply (reach_step empty_db); [|apply rtc_refl].
    apply (step_register _ _ _ _ 1 7 "session" "task" "agent"). vm_compute. reflexivity.
  - intros id1 id2 [r Hr]. vm_compute in Hr. discriminate Hr.
Defined.

Lemma claim_outbox_in_order_witness :
  (length (match claim_outbox "w" 6 55 ∅ 10 30 d4 with Ok (res, _) => res | Err _ => [] end) ≤ 10)%nat.
Proof.
  refine (proj1 (claim_outbox_in_order uuid5 "w" 6 55 ∅ 10 30 d4 _ d5 d4_reachable _)).
  vm_compute. reflexivity.
Defined.

Lemma ingest_accepts_iff_witness :
  ∃ d', ingest "w" 20 (ev 4 "execution.completed") false d8 = Ok (tt, d').
Proof.
  apply (proj1 (ingest_accepts_iff uuid5 "w" 20 (ev 4 "execution.completed") d8 d8_reachable
    (ev_valid 4 "execution.completed" ltac:(lia) ltac:(discriminate)) ltac:(vm_compute; discriminate))).
  left. vm_compute. reflexivity.
Defined.

Lemma failed_pages_complete_witness :
  ∃ visited, visit_failed "w" 10 None 1 d8 = Ok visited ∧ NoDup visited.
Proof.
  destruct (failed_pages_complete uuid5 "w" 1 d8 10 d8_reachable) as (v & Hv & Hnd & _).
  - lia.
  - apply Nat.ltb_lt. vm_compute. reflexivity.
  - exists v. exact (conj Hv Hnd).
Defined.

Lemma namespaces_isolated_witness :
  ew_outbox d5 !! ("other", cmd2) = ew_outbox d4 !! ("other", cmd2).
Proof.
  refine (proj1 (proj2 (proj2 (proj2 (proj1 (namespaces_isolated uuid5 "w" d4 d5 "other" _ _) cmd2)))));
    [|discriminate].
  eapply (step_claim _ _ _ _ 6 55 ∅ 10 30). vm_compute. reflexivity.
Defined.

Lemma history_only_grows_witness :
  ∃ b', ew_bindings d3 !! ("w", 7%N) = Some b' ∧ b_session_id b' = "session".
Proof.
  assert (Hs : rtc (store_next uuid5) d0 d1).
  { apply rtc_once. exists "w". apply (step_ingest _ _ _ _ 2 (ev 1 "execution.started") false).
    - apply ev_valid; [lia|discriminate].
    - vm_compute. reflexivity. }
  destruct (ew_bindings d0 !! ("w", 7%N)) as [b|] eqn:Hb; [|vm_compute in Hb; discriminate Hb].
  destruct (proj1 (history_only_grows uuid5 d0 d1 Hs) _ _ Hb) as (b' & Hb' & _).
  vm_compute in Hb'. injection Hb' as <-. eexists. split; vm_compute; reflexivity.
Defined.
