(* ===== verification/World.v ===== *)
(** * The world around a coroutine of the worker

    A coroutine awaits the database, Redis, the Executor's HTTP API and the
    business handlers. Every await is one [tick] of a schedule: other
    processes may change the tables first ([t_env]), time moves ([t_now]), a
    stop may be requested, and the call is [Done] with a reply, [Refused]
    before it took effect, or [Lost] after it took effect (the reply never
    arrives). A schedule that ends is a process that is cancelled. Theorems
    quantify over all schedules, so they hold for every crash point, fault and
    interleaving with other processes.

    Redis is a service: its replies come from the schedule and every command
    that took effect is recorded in [w_log], so no behaviour of the server is
    assumed. *)

From stdpp Require Import base gmap strings list relations.
From Stdlib Require Import ZArith Lia.
From S2P Require Import Prelude WorkerContracts WorkerStore.
Local Open Scope Z_scope.

(** What a driver raises: nothing an application raises itself. *)
Inductive driver_exn :=
| DriverDatabase (m : string)
| DriverPoolTimeout
| DriverRedis (m : string)
| DriverRedisResponse (m : string)
| DriverTimeout
| DriverCancelled
| DriverOther (cls m : string).

Definition driver_raise (e : driver_exn) : exn :=
  match e with
  | DriverDatabase m => DatabaseError m
  | DriverPoolTimeout => PoolTimeout
  | DriverRedis m => RedisError m
  | DriverRedisResponse m => ResponseError m
  | DriverTimeout => TimeoutError
  | DriverCancelled => CancelledError
  | DriverOther cls m => OtherException cls m
  end.

Abbreviation fields := (list (string * string)) (only parsing).

Inductive reply :=
| RNone
| RInt (z : Z)
| RText (s : string)
| RJson (j : json)
| RPage (cursor : string) (messages : list (string * fields))
| REntries (messages : list (string * fields))
| RIds (ids : list string)
| RConsumers (l : list (string * Z * Z))
| RPair (a b : reply)
| RResults (errors : list (option exn)).

Inductive outcome :=
| Done (r : reply)
| Refused (e : driver_exn)
| Lost (e : driver_exn).

(** The Redis commands the worker sends; [CMulti] is a MULTI/EXEC pipeline,
    [CPipe] a pipeline without a transaction. *)
Inductive redis_cmd :=
| CSetNx (key value : string) (ex : Z)
| CEvalRenew (key token : string) (ttl : Z)
| CEvalRelease (key token : string)
| CEvalIncr (key : string) (ttl : Z)
| CDel (key : string)
| CXAdd (stream : string) (entry : fields)
| CXAck (stream group message_id : string)
| CXClaim (stream group consumer message_id : string)
| CXReadGroup (stream group consumer : string) (block : option Z)
| CXAutoClaim (stream group consumer : string) (min_idle : Z) (cursor : string) (count : Z)
| CClaimPage (stream group consumer : string) (min_idle : Z) (cursor : string) (count : Z)
| CXGroupCreate (stream group id : string)
| CXInfoConsumers (stream group : string)
| CXGroupDelConsumer (stream group consumer : string)
| CMulti (l : list redis_cmd)
| CPipe (l : list redis_cmd).

Record tick := mk_tick {
  t_env : db → db;
  t_now : timestamp;
  t_stop : bool;
  t_out : outcome
}.

(** [w_seen] are the tables after each transaction of the coroutine itself,
    committed or rolled back, [w_invoked] the contexts business handlers were called with. *)
Record world := mk_world {
  w_db : db;
  w_sched : list tick;
  w_stop : bool;
  w_log : list redis_cmd;
  w_seen : list db;
  w_invoked : list EventContext
}.

Definition with_db (d : db) (w : world) : world :=
  mk_world d (w_sched w) (w_stop w) (w_log w) (w_seen w ++ [d]) (w_invoked w).
Definition logged (c : redis_cmd) (w : world) : world :=
  mk_world (w_db w) (w_sched w) (w_stop w) (w_log w ++ [c]) (w_seen w) (w_invoked w).
Definition invoked (c : EventContext) (w : world) : world :=
  mk_world (w_db w) (w_sched w) (w_stop w) (w_log w) (w_seen w) (w_invoked w ++ [c]).

(** The next tick of the schedule. *)
Definition draw : proc world tick := λ w,
  match w_sched w with
  | [] => (Ok (mk_tick id 0 true (Refused DriverCancelled)), w)
  | t :: sched =>
      (Ok t, mk_world (t_env t (w_db w)) sched (w_stop w || t_stop t) (w_log w) (w_seen w) (w_invoked w))
  end.

(** A transaction on the tables as they are now. *)
Definition run_tx {A} (m : tx db A) : proc world A := λ w,
  match m (w_db w) with
  | Ok (a, d') => (Ok a, with_db d' w)
  | Err e => (Err e, with_db (w_db w) w)
  end.

(** A transaction on a pooled connection; [Lost] commits it if it can. *)
Definition db_call {A} (m : timestamp → tx db A) : proc world A :=
  t ← draw;
  match t_out t with
  | Done _ => run_tx (m (t_now t))
  | Refused e => throw (driver_raise e)
  | Lost e => try_except (run_tx (m (t_now t));; throw (driver_raise e)) (λ _, throw (driver_raise e))
  end.

(** A read-only query. *)
Definition db_read {A} (q : timestamp → db → result A) : proc world A :=
  db_call (λ now d, match q now d with Ok a => Ok (a, d) | Err e => Err e end).

Definition redis_call (c : redis_cmd) : proc world reply :=
  t ← draw;
  match t_out t with
  | Done r => modify (logged c);; mret r
  | Refused e => throw (driver_raise e)
  | Lost e => modify (logged c);; throw (driver_raise e)
  end.

(** A call of another service, or of a concurrent task: only the reply matters. *)
Definition ask : proc world reply :=
  t ← draw;
  match t_out t with
  | Done r => mret r
  | Refused e | Lost e => throw (driver_raise e)
  end.

(** ** Rules for awaits

    [fair R w]: the other processes only change the tables within [R]. *)
Section Awaits.
Context (R : relation db) `{!PreOrder R}.

Definition fair (w : world) : Prop := Forall (λ t, ∀ d, R d (t_env t d)) (w_sched w).

(** What an await leaves as it is. *)
Definition ticked (w w' : world) : Prop :=
  fair w' ∧ R (w_db w) (w_db w') ∧ w_log w' = w_log w ∧ w_seen w' = w_seen w ∧ w_invoked w' = w_invoked w.

Lemma ticked_refl w : fair w → ticked w w.
Proof using Type*. intros Hf. split_and!; [done|reflexivity|done..]. Qed.

Lemma wp_draw Q w : fair w → (∀ t w', ticked w w' → Q (Ok t) w') → wp draw Q w.
Proof using Type*.
  intros Hf HQ. unfold wp, draw. unfold fair in Hf. destruct (w_sched w) as [|t sched] eqn:Hs.
  - apply HQ, ticked_refl. red. simpl. by rewrite Hs.
  - inversion Hf; subst. apply HQ. split_and!; simpl; auto.
Qed.

(** A transaction either ran on the tables as they were when it got its
    connection, or did not run; its result may be lost. *)
Lemma wp_db_call {A} (m : timestamp → tx db A) Q w : fair w →
  (∀ now w1, ticked w w1 → match m now (w_db w1) with
     | Ok (a, d') => Q (Ok a) (with_db d' w1) ∧ ∀ e, Q (Err (driver_raise e)) (with_db d' w1)
     | Err e => Q (Err e) (with_db (w_db w1) w1) ∧ ∀ e, Q (Err (driver_raise e)) (with_db (w_db w1) w1)
     end) →
  (∀ e w1, ticked w w1 → Q (Err (driver_raise e)) w1) →
  wp (db_call m) Q w.
Proof using Type*.
  intros Hf Hrun Hfail. apply wp_bind, wp_draw; [done|]. intros t w1 Ht.
  specialize (Hrun (t_now t) w1 Ht). destruct (t_out t) as [r|e|e].
  - unfold wp, run_tx. destruct (m _ _) as [[a d']|e]; by apply Hrun.
  - by apply Hfail.
  - apply wp_try, wp_bind. unfold wp, run_tx. destruct (m _ _) as [[a d']|e']; simpl; by apply Hrun.
Qed.

Lemma wp_db_read {A} (q : timestamp → db → result A) Q w : fair w →
  (∀ now w1, ticked w w1 → match q now (w_db w1) with
     | Ok a => Q (Ok a) (with_db (w_db w1) w1)
     | Err e => Q (Err e) (with_db (w_db w1) w1)
     end) →
  (∀ e w1, ticked w w1 → Q (Err (driver_raise e)) (with_db (w_db w1) w1)) →
  (∀ e w1, ticked w w1 → Q (Err (driver_raise e)) w1) →
  wp (db_read q) Q w.
Proof using Type*.
  intros Hf Hq Hlost Hfail. apply wp_db_call; [done| |done]. intros now w1 Ht.
  specialize (Hq now w1 Ht). destruct (q now (w_db w1)) as [a|e]; auto.
Qed.

Lemma wp_redis_call c Q w : fair w →
  (∀ r w1, ticked w w1 → Q (Ok r) (logged c w1)) →
  (∀ e w1, ticked w w1 → Q (Err (driver_raise e)) w1 ∧ Q (Err (driver_raise e)) (logged c w1)) →
  wp (redis_call c) Q w.
Proof using Type*.
  intros Hf Hok Hfail. apply wp_bind, wp_draw; [done|]. intros t w1 Ht. destruct (t_out t) as [r|e|e].
  - by apply wp_bind, wp_modify, wp_ret, Hok.
  - by apply wp_throw, Hfail.
  - by apply wp_bind, wp_modify, wp_throw, Hfail.
Qed.

Lemma wp_ask Q w : fair w →
  (∀ r w1, ticked w w1 → Q (Ok r) w1) →
  (∀ e w1, ticked w w1 → Q (Err (driver_raise e)) w1) →
  wp ask Q w.
Proof using Type*.
  intros Hf Hok Hfail. apply wp_bind, wp_draw; [done|]. intros t w1 Ht.
  destruct (t_out t); [by apply wp_ret, Hok|by apply wp_throw, Hfail..].
Qed.
End Awaits.

(** ** Coroutines that only change the tables within [R] *)
Section Conforms.
Context (R : relation db) `{!PreOrder R}.

Definition conforms {A} (m : proc world A) : Prop :=
  ∀ w, fair R w → wp m (λ _ w', fair R w' ∧ R (w_db w) (w_db w')) w.

Lemma conforms_ret {A} (a : A) : conforms (mret a).
Proof using Type*. intros w Hf. apply wp_ret. split; [done|reflexivity]. Qed.
Lemma conforms_throw {A} e : conforms (@throw world A e).
Proof using Type*. intros w Hf. apply wp_throw. split; [done|reflexivity]. Qed.
Lemma conforms_lift {A} (r : result A) : conforms (lift_result r).
Proof using Type*. intros w Hf. apply wp_lift. split; [done|reflexivity]. Qed.
Lemma conforms_gets {A} (f : world → A) : conforms (gets f).
Proof using Type*. intros w Hf. apply wp_gets. split; [done|reflexivity]. Qed.
Lemma conforms_guard ok e : conforms (guard_or ok e).
Proof using Type*. intros w Hf. apply wp_guard; intros _; (split; [done|reflexivity]). Qed.
Lemma conforms_modify f : (∀ w, w_db (f w) = w_db w ∧ w_sched (f w) = w_sched w) → conforms (modify f).
Proof using Type*.
  intros Hm w Hf. apply wp_modify. destruct (Hm w) as [Hd Hs]. unfold fair. rewrite Hd, Hs. split; [done|reflexivity].
Qed.
Lemma conforms_bind {A B} (m : proc world A) (f : A → proc world B) :
  conforms m → (∀ a, conforms (f a)) → conforms (m ≫= f).
Proof using Type*.
  intros Hm Hk w Hf. apply wp_bind. eapply wp_mono; [by apply Hm|]. intros [a|e] w1 [Hf1 H1]; [|done].
  eapply wp_mono; [by apply Hk|]. intros r w2 [Hf2 H2]. split; [done|by etransitivity].
Qed.
Lemma conforms_lift_bind {A B} (r : result A) (f : A → proc world B) :
  (∀ a, r = Ok a → conforms (f a)) → conforms (lift_result r ≫= f).
Proof using Type*. intros Hk w Hf. apply wp_bind, wp_lift. destruct r; [by apply Hk|split; [done|reflexivity]]. Qed.
Lemma conforms_try {A} (m : proc world A) h : conforms m → (∀ e, conforms (h e)) → conforms (try_except m h).
Proof using Type*.
  intros Hm Hh w Hf. apply wp_try. eapply wp_mono; [by apply Hm|]. intros [a|e] w1 [Hf1 H1]; [done|].
  eapply wp_mono; [by apply Hh|]. intros r w2 [Hf2 H2]. split; [done|by etransitivity].
Qed.
Lemma conforms_finally {A} (m : proc world A) f : conforms m → conforms f → conforms (try_finally m f).
Proof using Type*.
  intros Hm Hh w Hf. apply wp_finally. eapply wp_mono; [by apply Hm|]. intros r w1 [Hf1 H1].
  eapply wp_mono; [by apply Hh|]. intros [u|e] w2 [Hf2 H2]; (split; [done|by etransitivity]).
Qed.
Lemma conforms_draw : conforms draw.
Proof using Type*. intros w Hf. apply (wp_draw R); [done|]. by intros t w1 (? & ? & _). Qed.
Lemma conforms_redis c : conforms (redis_call c).
Proof using Type*.
  intros w Hf. apply (wp_redis_call R); [done|..]; [by intros r w1 (? & ? & _)|].
  by intros e w1 (? & ? & _).
Qed.
Lemma conforms_ask : conforms ask.
Proof using Type*. intros w Hf. apply (wp_ask R); [done|..]; by intros ? w1 (? & ? & _). Qed.
Lemma conforms_db_call {A} (op : timestamp → tx db A) :
  (∀ now d a d', op now d = Ok (a, d') → R d d') → conforms (db_call op).
Proof using Type*.
  intros Hop w Hf. apply (wp_db_call R); [done|..].
  - intros now w1 (Hf1 & H1 & _). destruct (op now (w_db w1)) as [[a d']|e] eqn:Hr; [|done].
    assert (R (w_db w) d') by (etransitivity; [exact H1|by eapply Hop]). done.
  - by intros e w1 (? & ? & _).
Qed.
Lemma conforms_db_read {A} (q : timestamp → db → result A) : conforms (db_read q).
Proof using Type*.
  apply conforms_db_call. intros now d a d'. destruct (q now d); [|done]. intros [= _ <-]. reflexivity.
Qed.
End Conforms.

(** Walk through a coroutine down to its transactions. *)
Ltac conforms_split :=
  repeat first
    [ progress cbv zeta
    | lazymatch goal with
      | |- conforms _ (mbind _ (lift_result _)) => apply conforms_lift_bind; [apply _|intros ? ?]
      | |- conforms _ (mbind _ _) => apply conforms_bind; [apply _| |intros ?]
      | |- conforms _ (try_except _ _) => apply conforms_try; [apply _| |intros ?]
      | |- conforms _ (try_finally _ _) => apply conforms_finally; [apply _| |]
      | |- conforms _ (match ?x with _ => _ end) => destruct x eqn:?
      | |- conforms _ (mret _) => apply conforms_ret; apply _
      | |- conforms _ (throw _) => apply conforms_throw; apply _
      | |- conforms _ (lift_result _) => apply conforms_lift; apply _
      | |- conforms _ (gets _) => apply conforms_gets; apply _
      | |- conforms _ (guard_or _ _) => apply conforms_guard; apply _
      | |- conforms _ draw => apply conforms_draw; apply _
      | |- conforms _ (redis_call _) => apply conforms_redis; apply _
      | |- conforms _ ask => apply conforms_ask; apply _
      | |- conforms _ (db_read _) => apply conforms_db_read; apply _
      end ].
