(* ===== verification/Consumer.v ===== *)
(** * The Redis Stream consumer ([worker/consumer.py])

    Configuration checks, acknowledgement, retry and dead-lettering of one
    message, the per-message lock and its lease, and the polling loop of a
    slot. The handler is an interface ([StreamMessageHandler]); observers only
    count and are left out. *)

From stdpp Require Import base gmap strings list relations.
From Stdlib Require Import ZArith Lia.
From S2P Require Import Prelude Text WorkerContracts WorkerStore World.
Local Open Scope Z_scope.

Inductive AckDecision := ACK | DEFER | RETRY | DEAD_LETTER.
#[global] Instance AckDecision_eq_dec : EqDecision AckDecision.
Proof. solve_decision. Defined.

Record HandlerResult := mk_result {
  decision : AckDecision;
  hr_outcome : string;
  hr_reason : option string;
  hr_error_type : option string
}.

(** [HandlerResult(decision, outcome=...)] *)
Definition handled (d : AckDecision) (outcome : string) : HandlerResult :=
  mk_result d outcome None None.

Record StreamMessage := mk_message {
  message_id : string;
  m_fields : fields;
  reclaimed : bool
}.

Record LockLease := mk_lease { l_key : string; l_value : string }.

Record StreamMessageHandler := mk_handler {
  lock_key : StreamMessage → result (option string);
  handle : StreamMessage → proc world HandlerResult
}.

Inductive stream_mode := Compat | Native | OtherMode.

Record ConsumerConfig := mk_config {
  stream : string;
  group : string;
  consumer_prefix : string;
  concurrency : Z;
  block_milliseconds : Z;
  claim_idle_milliseconds : Z;
  claim_batch_size : Z;
  group_start_id : string;
  dead_letter_stream : option string;
  lock_ttl_seconds : Z;
  lock_renew_interval_seconds : Z;
  consumer_gc_idle_milliseconds : option Z;
  max_retry_attempts : Z;
  retry_state_ttl_seconds : Z;
  retry_key_prefix : string;
  redis_stream_mode : stream_mode
}.

(** [RedisStreamConsumerConfig.__post_init__] *)
Definition post_init (c : ConsumerConfig) : result unit :=
  raise_if (match redis_stream_mode c with OtherMode => true | _ => false end)
    (ValueError "redis_stream_mode must be compat or native");;
  raise_if (concurrency c <? 1) (ValueError "concurrency must be positive");;
  raise_if (block_milliseconds c <? 1) (ValueError "block_milliseconds must be positive");;
  raise_if (claim_idle_milliseconds c <? 1) (ValueError "claim_idle_milliseconds must be positive");;
  raise_if (negb ((1 <=? claim_batch_size c) && (claim_batch_size c <=? 500)))
    (ValueError "claim_batch_size must be between 1 and 500");;
  raise_if (lock_ttl_seconds c <? 1) (ValueError "lock_ttl_seconds must be positive");;
  raise_if (lock_renew_interval_seconds c <? 1) (ValueError "lock_renew_interval_seconds must be positive");;
  raise_if (lock_ttl_seconds c <=? lock_renew_interval_seconds c)
    (ValueError "lock renewal must be faster than lock expiry");;
  raise_if (claim_idle_milliseconds c <=? lock_renew_interval_seconds c * 1000)
    (ValueError "lease renewal must be faster than claim idle");;
  raise_if (max_retry_attempts c <? 1) (ValueError "max_retry_attempts must be positive");;
  raise_if (retry_state_ttl_seconds c <=? (claim_idle_milliseconds c * max_retry_attempts c) / 1000)
    (ValueError "retry state TTL must exceed the maximum retry window");;
  raise_if (String.eqb (retry_key_prefix c) "") (ValueError "retry_key_prefix cannot be empty").

(** [int(reply)] and the truth value of a reply. *)
Definition reply_int (r : reply) : result Z :=
  match r with
  | RInt z => Ok z
  | RText s => from_option_err (ValueError "invalid literal for int()") (py_int s)
  | _ => Err (TypeError "int() argument must be a string or a number")
  end.

Definition truthy (r : reply) : bool :=
  match r with
  | RNone => false
  | RInt z => negb (z =? 0)
  | RText s => negb (String.eqb s "")
  | REntries l => negb (bool_decide (length l = 0%nat))
  | RIds l => negb (bool_decide (l = []))
  | _ => true
  end.

(** [f"{type(error).__name__}: {error}"] *)
Definition describe (e : exn) : string := exn_name e +:+ ": " +:+ exn_str e.

Definition py_bool_lower (b : bool) : string := if b then "true" else "false".

(** The character NUL that separates the parts of an identity. *)
Definition nul : string := String (Ascii.ascii_of_N 0) EmptyString.

Section Consumer.
(** [hashlib.sha256(...).hexdigest()], [json.dumps(..., sort_keys=True)],
    [datetime.now(UTC).isoformat()] and [str(uuid4())]. *)
Context (sha256_hex : string → string) (json_dumps : fields → string)
        (utc_now : world → string) (uuid4_str : world → string).
Context (cfg : ConsumerConfig).

Definition identity (id : string) : string := stream cfg +:+ nul +:+ group cfg +:+ nul +:+ id.
Definition retry_state_key (id : string) : string :=
  retry_key_prefix cfg +:+ ":" +:+ sha256_hex (identity id).
Definition failure_id (id : string) : string := sha256_hex (identity id).

(** [_ack] *)
Definition ack (m : StreamMessage) : proc world unit :=
  if negb (reclaimed m)
  then redis_call (CXAck (stream cfg) (group cfg) (message_id m));; mret tt
  else redis_call (CMulti [CDel (retry_state_key (message_id m));
                           CXAck (stream cfg) (group cfg) (message_id m)]);; mret tt.

Definition dead_entry (consumer : string) (m : StreamMessage) (reason : string)
    (retry_attempts : Z) (error_type now : string) : fields :=
  [("schema_version", "1"); ("failure_id", failure_id (message_id m));
   ("dead_lettered_at", now); ("source_stream", stream cfg); ("source_group", group cfg);
   ("source_message_id", message_id m); ("consumer", consumer); ("error_type", error_type);
   ("reason", reason); ("retry_attempts", int_str retry_attempts);
   ("reclaimed", py_bool_lower (reclaimed m)); ("fields", json_dumps (m_fields m))].

(** [_dead_letter] *)
Definition dead_letter (consumer : string) (m : StreamMessage) (reason : string)
    (retry_attempts : Z) (error_type : string) : proc world unit :=
  match dead_letter_stream cfg with
  | None => throw (RuntimeError "dead-letter stream is not configured")
  | Some dls =>
      now ← gets utc_now;
      redis_call (CMulti [CDel (retry_state_key (message_id m));
                          CXAdd dls (dead_entry consumer m reason retry_attempts error_type now);
                          CXAck (stream cfg) (group cfg) (message_id m)]);;
      mret tt
  end.

(** [_retry_or_dead_letter] *)
Definition retry_or_dead_letter (consumer : string) (m : StreamMessage) (result : HandlerResult)
    : proc world HandlerResult :=
  reply ← redis_call (CEvalIncr (retry_state_key (message_id m)) (retry_state_ttl_seconds cfg));
  attempts ← lift_result (reply_int reply);
  if attempts <? max_retry_attempts cfg then mret result
  else
    let reason := or_else (hr_reason result) "handler retry limit exhausted" in
    dead_letter consumer m reason attempts (or_else (hr_error_type result) "retry_exhausted");;
    mret (mk_result DEAD_LETTER "dead_lettered" (Some reason) None).

(** What [_handle_and_finalize] does with the handler's decision. *)
Definition finalize (consumer : string) (m : StreamMessage) (result : HandlerResult)
    : proc world HandlerResult :=
  match decision result with
  | ACK => ack m;; mret result
  | RETRY => retry_or_dead_letter consumer m result
  | DEAD_LETTER =>
      dead_letter consumer m (or_else (hr_reason result) "handler rejected message") 0
        (or_else (hr_error_type result) "handler_decision");;
      mret result
  | DEFER => mret result
  end.

(** [_handle_and_finalize]: the exceptions of the handler, then [finalize].
    The dead-lettering of a permanent error has its result at once. *)
Definition handle_and_finalize (consumer : string) (h : StreamMessageHandler) (m : StreamMessage)
    : proc world HandlerResult :=
  step ← try_except (result ← handle h m; mret (inl result)) (λ e,
    match e with
    | PermanentMessageError reason =>
        dead_letter consumer m reason 0 "PermanentMessageError";;
        mret (inr (mk_result DEAD_LETTER "dead_lettered" (Some reason) (Some "PermanentMessageError")))
    | _ =>
        if is_Exception e
        then mret (inl (mk_result RETRY "failed" (Some (describe e)) (Some (exn_name e))))
        else throw e
    end);
  match step with
  | inl result => finalize consumer m result
  | inr result => mret result
  end.

(** [_acquire_lock] and [_release_lock] *)
Definition acquire_lock (key : string) : proc world (option LockLease) :=
  value ← gets uuid4_str;
  acquired ← redis_call (CSetNx key value (lock_ttl_seconds cfg));
  mret (if truthy acquired then Some (mk_lease key value) else None).

Definition release_lock (lease : LockLease) : proc world unit :=
  redis_call (CEvalRelease (l_key lease) (l_value lease));; mret tt.

(** [_renew_lease_once] *)
Definition renew_lease_once (consumer id : string) (lease : option LockLease) : proc world unit :=
  let claim := CXClaim (stream cfg) (group cfg) consumer id in
  claimed ← match lease with
    | Some l =>
        reply ← redis_call (CPipe [CEvalRenew (l_key l) (l_value l) (lock_ttl_seconds cfg); claim]);
        match reply with
        | RPair (RInt 1) claimed => mret claimed
        | _ => throw (StreamLeaseLostError (l_key l))
        end
    | None => redis_call claim
    end;
  guard_or (truthy claimed) (StreamLeaseLostError id).

(** [_run_with_lease]: the handler's task runs to its end, or it is cancelled.
    A cancellation comes from the heartbeat when its renewal raised (that
    error is then raised), and from outside otherwise. *)
Definition run_with_lease (consumer : string) (h : StreamMessageHandler) (m : StreamMessage)
    (lease : option LockLease) : proc world HandlerResult :=
  try_except (handle_and_finalize consumer h m) (λ e,
    match e with
    | CancelledError => renew_lease_once consumer (message_id m) lease;; throw CancelledError
    | _ => throw e
    end).

(** The part of [process_message] that runs under the lock: an exception is
    logged and the message stays pending. *)
Definition run_guarded (consumer : string) (h : StreamMessageHandler) (m : StreamMessage)
    (lease : option LockLease) : proc world unit :=
  try_except (run_with_lease consumer h m lease;; mret tt)
    (λ e, if is_Exception e then mret tt else throw e).

(** [process_message] *)
Definition process_message (consumer : string) (h : StreamMessageHandler) (m : StreamMessage)
    : proc world unit :=
  match lock_key h m with
  | Err (PermanentMessageError reason) => dead_letter consumer m reason 0 "PermanentMessageError"
  | Err e => throw e
  | Ok None => run_guarded consumer h m None
  | Ok (Some key) =>
      lease ← acquire_lock key;
      match lease with
      | None => mret tt
      | Some l => try_finally (run_guarded consumer h m (Some l)) (release_lock l)
      end
  end.

(** [_autoclaim_page] and [_claim_stale] *)
Definition claim_stale (consumer cursor : string) : proc world (string * list (string * fields)) :=
  reply ← redis_call (match redis_stream_mode cfg with
    | Native => CXAutoClaim (stream cfg) (group cfg) consumer (claim_idle_milliseconds cfg) cursor (claim_batch_size cfg)
    | _ => CClaimPage (stream cfg) (group cfg) consumer (claim_idle_milliseconds cfg) cursor (claim_batch_size cfg)
    end);
  match reply with
  | RPage next messages => mret (next, messages)
  | _ => throw (TypeError "Redis XAUTOCLAIM returned an invalid response")
  end.

(** The loop over a page of messages; [true] when a stop was requested. *)
Fixpoint process_all (consumer : string) (h : StreamMessageHandler) (re : bool)
    (messages : list (string * fields)) : proc world bool :=
  match messages with
  | [] => mret false
  | (id, fs) :: rest =>
      stop ← gets w_stop;
      if (stop : bool) then mret true
      else process_message consumer h (mk_message id fs re);; process_all consumer h re rest
  end.

Inductive slot_next :=
| SlotStopped
| SlotContinues (cursor : string) (delay : Z).

(** The [except] clauses of the loop of [_consume_slot]. *)
Definition slot_error (retry_max : Z) (cursor : string) (delay : Z) (e : exn) : proc world slot_next :=
  match e with
  | CancelledError | ResponseError _ => throw e
  | _ => ask;; mret (SlotContinues cursor (Z.min (delay * 2) retry_max))
  end.

(** One turn of the loop of [_consume_slot], with the cursor and the delay the
    code has reached when an exception interrupts it. *)
Definition slot_iteration (retry_initial retry_max : Z) (consumer : string) (h : StreamMessageHandler)
    (cursor : string) (delay : Z) : proc world slot_next :=
  stop ← gets w_stop;
  if (stop : bool) then mret SlotStopped else
  page ← try_except (p ← claim_stale consumer cursor; mret (inl p))
           (λ e, next ← slot_error retry_max cursor delay e; mret (inr next));
  match page with
  | inr next => mret next
  | inl (cursor', claimed) =>
      first ← try_except (s ← process_all consumer h true claimed; mret (inl s))
                (λ e, next ← slot_error retry_max cursor' delay e; mret (inr next));
      match first with
      | inr next => mret next
      | inl true => mret SlotStopped
      | inl false =>
          let delay' := if bool_decide (length claimed = 0%nat) then delay else retry_initial in
          let block := if String.eqb cursor' "0-0" && bool_decide (length claimed = 0%nat)
                       then Some (block_milliseconds cfg) else None in
          try_except
            (reply ← redis_call (CXReadGroup (stream cfg) (group cfg) consumer block);
             s ← process_all consumer h false (match reply with REntries l => l | _ => [] end);
             mret (if (s : bool) then SlotStopped else SlotContinues cursor' retry_initial))
            (slot_error retry_max cursor' delay')
      end
  end.

(** [_consume_slot], for [fuel] turns of its endless loop. *)
Fixpoint consume_slot (fuel : nat) (retry_initial retry_max : Z) (consumer : string)
    (h : StreamMessageHandler) (cursor : string) (delay : Z) : proc world slot_next :=
  match fuel with
  | O => mret (SlotContinues cursor delay)
  | S fuel' =>
      next ← slot_iteration retry_initial retry_max consumer h cursor delay;
      match next with
      | SlotStopped => mret SlotStopped
      | SlotContinues cursor' delay' =>
          consume_slot fuel' retry_initial retry_max consumer h cursor' delay'
      end
  end.

(** [ensure_group] *)
Definition ensure_group : proc world unit :=
  try_except (redis_call (CXGroupCreate (stream cfg) (group cfg) (group_start_id cfg));; mret tt)
    (λ e, match e with
          | ResponseError m => if String.index 0 "BUSYGROUP" m then mret tt else throw e
          | _ => throw e
          end).

Definition slot_name (i : nat) : string := consumer_prefix cfg +:+ "-" +:+ int_str (Z.of_nat i).
Definition current_consumers : list string := map slot_name (seq 0 (Z.to_nat (concurrency cfg))).

(** The selection loop of [cleanup_consumers] over (name, pending, idle). *)
Definition stale_consumers (minimum_idle : Z) (consumers : list (string * Z * Z)) : list string :=
  map (λ c, c.1.1) (filter (λ c, c.1.1 ∉ current_consumers ∧ c.1.2 = 0 ∧ minimum_idle ≤ c.2) consumers).

(** [cleanup_consumers] *)
Definition cleanup_consumers : proc world unit :=
  match consumer_gc_idle_milliseconds cfg with
  | None => mret tt
  | Some minimum_idle =>
      reply ← redis_call (CXInfoConsumers (stream cfg) (group cfg));
      match stale_consumers minimum_idle (match reply with RConsumers l => l | _ => [] end) with
      | [] => mret tt
      | names => redis_call (CPipe (map (CXGroupDelConsumer (stream cfg) (group cfg)) names));; mret tt
      end
  end.

(** [is_healthy] over the slot flags and whether each slot task is done. *)
Definition is_healthy (running stop_requested : bool) (slot_health : list bool) (tasks_done : list bool) : bool :=
  running && negb stop_requested && (Z.of_nat (length slot_health) =? concurrency cfg) &&
  forallb (λ b, b) slot_health && forallb negb tasks_done.
End Consumer.
