(* ===== verification/ConsumerProps.v ===== *)
(** * Theorems about the Redis Stream consumer

    A message leaves the pending list only after the handler decided so, or
    together with its dead-letter record, whatever Redis and the schedule do;
    the interface [SafeHandler] carries what the handlers promise. *)

From stdpp Require Import base gmap strings list relations.
From Stdlib Require Import ZArith Lia.
From S2P Require Import Prelude Text WorkerContracts WorkerStore World Consumer.
Local Open Scope Z_scope.
Set Default Proof Using "Type".

(** The command acknowledges message [id] of the group. *)
Fixpoint acks (s g id : string) (c : redis_cmd) : bool :=
  match c with
  | CXAck s' g' id' => String.eqb s s' && String.eqb g g' && String.eqb id id'
  | CMulti l | CPipe l => existsb (acks s g id) l
  | _ => false
  end.

Definition acks_nothing (c : redis_cmd) : Prop := ∀ s g id, acks s g id c = false.

(** [w'] continues [w] with commands that all satisfy [P]. *)
Definition sends (P : redis_cmd → Prop) (w w' : world) : Prop :=
  ∃ calls, w_log w' = w_log w ++ calls ∧ Forall P calls.

Lemma sends_refl P w w' : w_log w' = w_log w → sends P w w'.
Proof. intros Hl. exists []. by rewrite app_nil_r. Qed.
Lemma sends_one (P : redis_cmd → Prop) w w' c : w_log w' = w_log w ++ [c] → P c → sends P w w'.
Proof. intros Hl Hc. exists [c]. auto. Qed.
Lemma sends_trans P w1 w2 w3 : sends P w1 w2 → sends P w2 w3 → sends P w1 w3.
Proof.
  intros (c1 & H1 & F1) (c2 & H2 & F2). exists (c1 ++ c2).
  rewrite H2, H1, app_assoc. split; [done|]. by apply Forall_app.
Qed.
Lemma sends_mono (P Q : redis_cmd → Prop) w w' : (∀ c, P c → Q c) → sends P w w' → sends Q w w'.
Proof. intros HPQ (c & H1 & F1). exists c. split; [done|]. by eapply Forall_impl. Qed.
Lemma sends_elem P w w' : sends P w w' → w_log w `prefix_of` w_log w' ∧
  ∀ calls c, w_log w' = w_log w ++ calls → c ∈ calls → P c.
Proof.
  intros (calls & Hl & F). split; [by exists calls|]. intros calls' c Hl' Hc.
  rewrite Hl in Hl'. apply app_inv_head in Hl' as <-. rewrite Forall_forall in F. auto.
Qed.

(** Some transaction of the run from [w] to [w'] saw or left tables with [P]. *)
Definition seen (w w' : world) (P : db → Prop) : Prop :=
  ∃ ds d, w_seen w' = w_seen w ++ ds ∧ d ∈ ds ∧ P d.

(** What the consumer needs of a handler: it never acknowledges itself; where
    it decides that a message is finished ([ACK]), one of its transactions saw
    or left the tables so; where it gives the message up ([DEAD_LETTER] or
    [PermanentMessageError]) the message is unreadable or the tables say it is
    hopeless. [R] is what other processes may do to the tables meanwhile. *)
Class SafeHandler (R : relation db) (h : StreamMessageHandler)
    (unreadable : StreamMessage → Prop) (finished hopeless : StreamMessage → db → Prop) := {
  handle_safe : ∀ m w, fair R w → wp (handle h m) (λ r w',
    fair R w' ∧ sends acks_nothing w w' ∧
    match r with
    | Ok res => (decision res = ACK → seen w w' (finished m)) ∧
                (decision res = DEAD_LETTER → seen w w' (hopeless m))
    | Err (PermanentMessageError _) => unreadable m ∨ seen w w' (hopeless m)
    | Err _ => True
    end) w
}.

Section ConsumerTheorems.
Context (sha256_hex : string → string) (json_dumps : fields → string)
        (utc_now : world → string) (uuid4_str : world → string) (cfg : ConsumerConfig).
Context (R : relation db) `{!PreOrder R}.

Local Abbreviation process := (process_message sha256_hex json_dumps utc_now uuid4_str cfg).
Local Abbreviation retry_key := (retry_state_key sha256_hex cfg).

Definition ack_cmd (m : StreamMessage) : redis_cmd :=
  if negb (reclaimed m) then CXAck (stream cfg) (group cfg) (message_id m)
  else CMulti [CDel (retry_key (message_id m)); CXAck (stream cfg) (group cfg) (message_id m)].

(** The transaction that moves a message to the dead-letter stream. *)
Definition dead_cmd (consumer dls : string) (m : StreamMessage) (reason : string) (attempts : Z)
    (error_type now : string) : redis_cmd :=
  CMulti [CDel (retry_key (message_id m));
          CXAdd dls (dead_entry sha256_hex json_dumps cfg consumer m reason attempts error_type now);
          CXAck (stream cfg) (group cfg) (message_id m)].

(** [c] acknowledges nothing, or it is [m]'s acknowledgement and [fin] holds,
    or it is [m]'s dead-letter transaction and [dead reason attempts] holds. *)
Definition permitted (consumer : string) (m : StreamMessage) (fin : Prop) (dead : string → Z → Prop)
    (c : redis_cmd) : Prop :=
  acks_nothing c ∨ (c = ack_cmd m ∧ fin) ∨
  ∃ dls reason attempts error_type now, dead_letter_stream cfg = Some dls ∧
    c = dead_cmd consumer dls m reason attempts error_type now ∧ dead reason attempts.

Lemma permitted_mono consumer m (fin fin' : Prop) (dead dead' : string → Z → Prop) c :
  (fin → fin') → (∀ s n, dead s n → dead' s n) →
  permitted consumer m fin dead c → permitted consumer m fin' dead' c.
Proof.
  intros Hf Hd [H1|[[-> H1]|(dls & re & n & et & now & H1 & H2 & H3)]]; [by left|right; left; auto|].
  right; right. exists dls, re, n, et, now. auto.
Qed.

(** One command: it was sent or it was not. *)
Lemma wp_consumer_send P c (w : world) : fair R w → P c →
  wp (redis_call c;; mret tt) (λ _ w', fair R w' ∧ sends P w w') w.
Proof using Type*.
  intros Hf Hc. apply wp_bind. apply (wp_redis_call R); [done|..].
  - intros r w1 (Hf1 & _ & Hl & _ & _). split; [done|]. eapply sends_one; [|done]. simpl. by rewrite Hl.
  - intros e w1 (Hf1 & _ & Hl & _ & _). split; (split; [done|]).
    + by apply sends_refl.
    + eapply sends_one; [|done]. simpl. by rewrite Hl.
Qed.

Lemma ack_spec consumer m (fin : Prop) dead w : fair R w → fin →
  wp (ack sha256_hex cfg m) (λ _ w', fair R w' ∧ sends (permitted consumer m fin dead) w w') w.
Proof using Type*.
  intros Hf Hfin. unfold ack. destruct (reclaimed m) eqn:Hr; simpl; apply wp_consumer_send; try done;
    right; left; unfold ack_cmd; by rewrite Hr.
Qed.

Lemma dead_letter_spec consumer m reason n et (fin : Prop) (dead : string → Z → Prop) w :
  fair R w → dead reason n →
  wp (dead_letter sha256_hex json_dumps utc_now cfg consumer m reason n et)
    (λ _ w', fair R w' ∧ sends (permitted consumer m fin dead) w w') w.
Proof using Type*.
  intros Hf Hd. unfold dead_letter. destruct (dead_letter_stream cfg) as [dls|] eqn:Hs.
  - apply wp_bind, wp_gets. apply wp_consumer_send; [done|]. right; right. by exists dls, reason, n, et, (utc_now w).
  - apply wp_throw. split; [done|]. by apply sends_refl.
Qed.

(** What the decision alone permits. *)
Definition decided (res : HandlerResult) (s : string) (n : Z) : Prop :=
  decision res = DEAD_LETTER ∨ (decision res = RETRY ∧ max_retry_attempts cfg ≤ n).

Lemma finalize_spec consumer m res w : fair R w →
  wp (finalize sha256_hex json_dumps utc_now cfg consumer m res)
    (λ _ w', fair R w' ∧ sends (permitted consumer m (decision res = ACK) (decided res)) w w') w.
Proof using Type*.
  intros Hf. unfold finalize. destruct (decision res) eqn:Hd.
  - apply wp_bind. eapply wp_mono; [by eapply (ack_spec consumer m (ACK = ACK))|].
    intros [a|e] w' HQ; [by apply wp_ret|done].
  - apply wp_ret. split; [done|by apply sends_refl].
  - unfold retry_or_dead_letter. apply wp_bind. apply (wp_redis_call R); [done|..].
    + intros r w1 (Hf1 & _ & Hl & _ & _).
      assert (Hs1 : sends (permitted consumer m (RETRY = ACK) (decided res)) w
        (logged (CEvalIncr (retry_key (message_id m)) (retry_state_ttl_seconds cfg)) w1)).
      { eapply sends_one; [simpl; by rewrite Hl|]. by left. }
      apply wp_bind, wp_lift. destruct (reply_int r) as [n|e]; [|split; done].
      destruct (Z.ltb_spec n (max_retry_attempts cfg)) as [Hlt|Hge]; [apply wp_ret; split; done|].
      apply wp_bind. eapply wp_mono.
      { apply (dead_letter_spec consumer m _ n _ (RETRY = ACK) (decided res)); [done|]. right. by rewrite Hd. }
      intros [a|e] w' [Hf' Hs]; [apply wp_ret|]; (split; [done|by eapply sends_trans]).
    + intros e w1 (Hf1 & _ & Hl & _ & _). split; (split; [done|]); [by apply sends_refl|].
      eapply sends_one; [simpl; by rewrite Hl|by left].
  - apply wp_bind. eapply wp_mono.
    { apply (dead_letter_spec consumer m _ 0 _ (DEAD_LETTER = ACK) (decided res)); [done|]. left. by rewrite Hd. }
    intros [a|e] w' HQ; [by apply wp_ret|done].
Qed.

Section WithHandler.
Context (h : StreamMessageHandler) (unreadable : StreamMessage → Prop)
        (finished hopeless : StreamMessage → db → Prop)
        `{!SafeHandler R h unreadable finished hopeless} (consumer : string) (m : StreamMessage).

Definition fin_of (w1 : world) (r : result HandlerResult) (w2 : world) : Prop :=
  ∃ res, r = Ok res ∧ decision res = ACK ∧ seen w1 w2 (finished m).
Definition dead_of (w1 w2 : world) (_ : string) (n : Z) : Prop :=
  unreadable m ∨ seen w1 w2 (hopeless m) ∨ max_retry_attempts cfg ≤ n.

(** The handler ran once, from [w1], and then only permitted commands were sent. *)
Definition ran_from (w1 w' : world) : Prop :=
  ∃ r2 w2, handle h m w1 = (r2, w2) ∧ sends acks_nothing w1 w2 ∧
    sends (permitted consumer m (fin_of w1 r2 w2) (dead_of w1 w2)) w2 w'.

Lemma sends_nothing_permitted (fin : Prop) dead w w' :
  sends acks_nothing w w' → sends (permitted consumer m fin dead) w w'.
Proof using Type*. apply sends_mono. by left. Qed.

Lemma handle_and_finalize_spec w : fair R w →
  wp (handle_and_finalize sha256_hex json_dumps utc_now cfg consumer h m)
    (λ _ w', fair R w' ∧ ran_from w w') w.
Proof using Type*.
  intros Hf. unfold handle_and_finalize. apply wp_bind, wp_try, wp_bind.
  pose proof (handle_safe m w Hf) as Hsafe. unfold wp at 1 in Hsafe. unfold wp at 1.
  destruct (handle h m w) as [r2 w2] eqn:Hrun. simpl in Hsafe |- *. destruct Hsafe as (Hf2 & Hs2 & Hr).
  assert (Hran : ∀ w', sends (permitted consumer m (fin_of w r2 w2) (dead_of w w2)) w2 w' → ran_from w w').
  { intros w' Hs. exists r2, w2. done. }
  assert (Hfin : ∀ res, r2 = Ok res ∨ decision res = RETRY →
    wp (finalize sha256_hex json_dumps utc_now cfg consumer m res) (λ _ w', fair R w' ∧ ran_from w w') w2).
  { intros res Hres. eapply wp_mono; [by apply finalize_spec|]. intros r w' [Hf' Hs]. split; [done|].
    apply Hran. revert Hs. apply sends_mono. intros c. apply permitted_mono.
    - intros Hd. destruct Hres as [->|Hd']; [|congruence]. exists res. split_and!; [done..|]. by apply Hr.
    - intros s n [Hd|[Hd Hn]]; [|by right; right]. destruct Hres as [->|Hd']; [|congruence]. right; left. by apply Hr. }
  destruct r2 as [res|e]; [apply Hfin; by left|].
  assert (Hother : (∀ s, e ≠ PermanentMessageError s) → wp (if is_Exception e
     then mret (inl (mk_result RETRY "failed" (Some (describe e)) (Some (exn_name e)))) else throw e)
    (λ (r : result (HandlerResult + HandlerResult)) w', match r with
     | Ok (inl result) => wp (finalize sha256_hex json_dumps utc_now cfg consumer m result)
                            (λ _ w', fair R w' ∧ ran_from w w') w'
     | Ok (inr result) => fair R w' ∧ ran_from w w'
     | Err _ => fair R w' ∧ ran_from w w' end) w2).
  { intros _. destruct (is_Exception e).
    - apply wp_ret, Hfin. by right.
    - apply wp_throw. split; [done|]. apply Hran. by apply sends_refl. }
  assert (Hdone : ∀ (x : result (HandlerResult + HandlerResult)) w',
     match x with
     | Ok (inl result) => wp (finalize sha256_hex json_dumps utc_now cfg consumer m result)
                            (λ _ w', fair R w' ∧ ran_from w w') w'
     | Ok (inr result) => fair R w' ∧ ran_from w w'
     | Err _ => fair R w' ∧ ran_from w w' end →
     match x with
     | Ok a => wp (match a with inl result => finalize sha256_hex json_dumps utc_now cfg consumer m result
                              | inr result => mret result end) (λ _ w', fair R w' ∧ ran_from w w') w'
     | Err _ => fair R w' ∧ ran_from w w' end) by (intros [[|]|]; auto).
  assert (Hp : (∃ reason, e = PermanentMessageError reason) ∨ ∀ reason, e ≠ PermanentMessageError reason)
    by (destruct e; try (right; discriminate); left; by eexists).
  destruct Hp as [[reason ->]|Hp]; [|destruct e; first [by edestruct Hp|by eapply wp_mono; [by apply Hother|apply Hdone]]].
  apply wp_bind. eapply wp_mono.
  { apply (dead_letter_spec consumer m reason 0 _ (fin_of w (Err (PermanentMessageError reason)) w2) (dead_of w w2)); [done|].
    destruct Hr as [Hu|Hh]; [by left|by right; left]. }
  intros [a|e] w' [Hf' Hs]; [apply wp_ret, wp_ret|]; (split; [done|by apply Hran]).
Qed.

Lemma renew_spec id lease w : fair R w →
  wp (renew_lease_once cfg consumer id lease) (λ _ w', fair R w' ∧ sends acks_nothing w w') w.
Proof using Type*.
  intros Hf. unfold renew_lease_once. apply wp_bind.
  assert (Hcall : ∀ c, acks_nothing c → wp (redis_call c) (λ _ w', fair R w' ∧ sends acks_nothing w w') w).
  { intros c Hc. apply (wp_redis_call R); [done|..].
    - intros r w1 (Hf1 & _ & Hl & _ & _). split; [done|]. eapply sends_one; [simpl; by rewrite Hl|done].
    - intros e w1 (Hf1 & _ & Hl & _ & _). split; (split; [done|]); [by apply sends_refl|].
      eapply sends_one; [simpl; by rewrite Hl|done]. }
  assert (Hend : ∀ w' (r : result reply), fair R w' ∧ sends acks_nothing w w' →
    match r with Ok claimed => wp (guard_or (truthy claimed) (StreamLeaseLostError id))
       (λ _ w', fair R w' ∧ sends acks_nothing w w') w' | Err _ => fair R w' ∧ sends acks_nothing w w' end).
  { intros w' [claimed|e] HQ; [|done]. by apply wp_guard. }
  destruct lease as [l|].
  - apply wp_bind. eapply wp_mono; [by apply Hcall|]. intros [r|e] w' HQ; [|done].
    destruct r as [|z|s|j|cu ms|ms|ids|l0|[|[]| | | | | | | |] c|errs]; try (apply wp_throw; exact HQ).
    destruct p; try (apply wp_throw; exact HQ). apply wp_ret. by apply (Hend w' (Ok c)).
  - eapply wp_mono; [by apply Hcall|]. intros r w' HQ. by apply (Hend w' r).
Qed.

Lemma ran_from_trans w1 w2 w3 : ran_from w1 w2 → sends acks_nothing w2 w3 → ran_from w1 w3.
Proof using Type*.
  intros (r & w & H1 & H2 & H3) Hs. exists r, w. split_and!; [done..|].
  eapply sends_trans; [done|by apply sends_nothing_permitted].
Qed.

Lemma run_guarded_spec lease w : fair R w →
  wp (run_guarded sha256_hex json_dumps utc_now cfg consumer h m lease)
    (λ _ w', fair R w' ∧ ran_from w w') w.
Proof using Type*.
  intros Hf. unfold run_guarded, run_with_lease. apply wp_try, wp_bind, wp_try.
  eapply wp_mono; [by apply handle_and_finalize_spec|]. intros [a|e] w1 [Hf1 Hran]; [by apply wp_ret|].
  assert (Hraise : ∀ x w', fair R w' ∧ ran_from w w' →
    wp (if is_Exception x then mret tt else throw x) (λ _ w', fair R w' ∧ ran_from w w') w').
  { intros x w' HQ. destruct (is_Exception x); [by apply wp_ret|by apply wp_throw]. }
  destruct e; try (apply wp_throw, Hraise; done).
  apply wp_bind. eapply wp_mono; [by apply renew_spec|].
  intros [b|x] w2 [Hf2 Hs]; [apply wp_throw|]; apply Hraise; (split; [done|by eapply ran_from_trans]).
Qed.

(** The handler ran during the run from [w] to [w'] and ended as [P] says. *)
Definition handler_ran (w w' : world) (P : world → result HandlerResult → world → Prop) : Prop :=
  ∃ w1 r2 w2, handle h m w1 = (r2, w2) ∧ w_log w `prefix_of` w_log w1 ∧
    w_log w2 `prefix_of` w_log w' ∧ P w1 r2 w2.

(** Why the run from [w] to [w'] may send the command [c]. *)
Definition justified (w w' : world) (c : redis_cmd) : Prop :=
  permitted consumer m (handler_ran w w' fin_of)
    (λ reason n, lock_key h m = Err (PermanentMessageError reason) ∨ unreadable m ∨
       handler_ran w w' (λ w1 _ w2, seen w1 w2 (hopeless m)) ∨
       (max_retry_attempts cfg ≤ n ∧ handler_ran w w' (λ _ _ _, True))) c.

Lemma ran_from_justified w w1 w' : sends acks_nothing w w1 → ran_from w1 w' → sends (justified w w') w w'.
Proof using Type*.
  intros H1 (r2 & w2 & Hrun & H2 & H3). pose proof (sends_trans _ _ _ _ H1 H2) as H12.
  eapply sends_trans; [by apply sends_nothing_permitted|].
  assert (Hran : ∀ P : world → result HandlerResult → world → Prop, P w1 r2 w2 → handler_ran w w' P).
  { intros P HP. exists w1, r2, w2. split_and!; [done| | |done]; eapply proj1, sends_elem; eassumption. }
  revert H3. apply sends_mono. intros c. apply permitted_mono; [by apply Hran|].
  intros s n [Hu|[Hh|Hn]]; right; [by left|right; left|right; right; split; [done|]]; by apply Hran.
Qed.

Lemma process_message_spec w : fair R w →
  wp (process consumer h m) (λ _ w', fair R w' ∧ sends (justified w w') w w') w.
Proof using Type*.
  intros Hf. unfold process_message. destruct (lock_key h m) as [[key|]|e] eqn:Hlock.
  - apply wp_bind. unfold acquire_lock. apply wp_bind, wp_gets, wp_bind. apply (wp_redis_call R); [done|..].
    + intros r w1 (Hf1 & _ & Hl & _ & _). apply wp_ret.
      assert (Hs1 : sends acks_nothing w (logged (CSetNx key (uuid4_str w) (lock_ttl_seconds cfg)) w1)).
      { eapply sends_one; [simpl; by rewrite Hl|done]. }
      destruct (truthy r); [|apply wp_ret; split; [done|by apply sends_nothing_permitted]].
      apply wp_finally. eapply wp_mono; [by apply run_guarded_spec|]. intros r2 w2 [Hf2 Hran].
      eapply wp_mono; [by apply (wp_consumer_send acks_nothing)|].
      intros [b|e] w3 [Hf3 Hs3]; (split; [done|]); (eapply ran_from_justified; [done|by eapply ran_from_trans]).
    + intros e w1 (Hf1 & _ & Hl & _ & _). split; (split; [done|]); [by apply sends_refl|].
      eapply sends_one; [simpl; by rewrite Hl|by left].
  - eapply wp_mono; [by apply run_guarded_spec|]. intros r w' [Hf' Hran]. split; [done|].
    eapply ran_from_justified; [by apply sends_refl|done].
  - assert (Hth : wp (throw e) (λ (_ : result unit) w', fair R w' ∧ sends (justified w w') w w') w).
    { apply wp_throw. split; [done|by apply sends_refl]. }
    destruct e; try exact Hth.
    apply (wp_mono _ (λ _ w', fair R w' ∧ sends (permitted consumer m False (λ s _, s = m0)) w w')).
    { by apply dead_letter_spec. }
    intros r w' [Hf' Hs]. split; [done|]. revert Hs. apply sends_mono. intros c.
    apply permitted_mono; [done|]. intros s n ->. left. exact Hlock.
Qed.
End WithHandler.

Lemma permitted_acks consumer m (fin : Prop) dead c id : permitted consumer m fin dead c →
  acks (stream cfg) (group cfg) id c = true → id = message_id m.
Proof using Type.
  intros [Hn|[[-> _]|(dls & re & n & et & now & _ & -> & _)]] Ha.
  - by rewrite Hn in Ha.
  - unfold ack_cmd in Ha. destruct (reclaimed m); simpl in Ha; rewrite ?orb_false_r, ?andb_true_iff in Ha;
      by destruct Ha as [_ ?%String.eqb_eq].
  - simpl in Ha. rewrite orb_false_r, !andb_true_iff in Ha. by destruct Ha as [_ ?%String.eqb_eq].
Qed.

(** See [ack_safety]. *)
Lemma ack_safe h unreadable finished hopeless `{!SafeHandler R h unreadable finished hopeless} consumer m w r w' calls c id :
  fair R w → process consumer h m w = (r, w') →
  w_log w' = w_log w ++ calls → c ∈ calls → acks (stream cfg) (group cfg) id c = true →
  id = message_id m ∧
  ((c = ack_cmd m ∧
      handler_ran h m w w' (λ w1 r2 w2, ∃ res, r2 = Ok res ∧ decision res = ACK ∧ seen w1 w2 (finished m))) ∨
   (∃ dls reason attempts error_type now, dead_letter_stream cfg = Some dls ∧
      c = dead_cmd consumer dls m reason attempts error_type now ∧
      (lock_key h m = Err (PermanentMessageError reason) ∨ unreadable m ∨
       handler_ran h m w w' (λ w1 _ w2, seen w1 w2 (hopeless m)) ∨
       (max_retry_attempts cfg ≤ attempts ∧ handler_ran h m w w' (λ _ _ _, True))))).
Proof using Type*.
  intros Hf Hrun Hlog Hc Ha.
  destruct (wp_run _ _ _ _ _ (process_message_spec h unreadable finished hopeless consumer m w Hf) Hrun) as [_ Hs].
  pose proof (proj2 (sends_elem _ _ _ Hs) calls c Hlog Hc) as Hj.
  split; [by eapply permitted_acks|]. destruct Hj as [Hn|Hj]; [by rewrite Hn in Ha|exact Hj].
Qed.

(** Acknowledgement safety, for every handler that keeps its promises
    and every behaviour of Redis, every fault, crash point and interleaving:
    processing a message acknowledges no other message; it acknowledges this
    one only after the handler ran and decided [ACK], having seen or left the
    tables where the message is finished, or in one transaction with the
    dead-letter record of the message, which happens only when the message is
    unreadable, its lock key or the handler rejected it for good, or the
    handler ran and the retry count reached the limit. *)
Theorem ack_safety h unreadable finished hopeless `{!SafeHandler R h unreadable finished hopeless} consumer m w r w' calls c id :
  fair R w → process consumer h m w = (r, w') →
  w_log w' = w_log w ++ calls → c ∈ calls → acks (stream cfg) (group cfg) id c = true →
  id = message_id m ∧
  ((c = ack_cmd m ∧
      handler_ran h m w w' (λ w1 r2 w2, ∃ res, r2 = Ok res ∧ decision res = ACK ∧ seen w1 w2 (finished m))) ∨
   (∃ dls reason attempts error_type now, dead_letter_stream cfg = Some dls ∧
      c = dead_cmd consumer dls m reason attempts error_type now ∧
      (lock_key h m = Err (PermanentMessageError reason) ∨ unreadable m ∨
       handler_ran h m w w' (λ w1 _ w2, seen w1 w2 (hopeless m)) ∨
       (max_retry_attempts cfg ≤ attempts ∧ handler_ran h m w w' (λ _ _ _, True))))).
Proof using Type*. by apply ack_safe. Qed.
End ConsumerTheorems.
