(* ===== verification/Dispatcher.v ===== *)
(** * The session guard and the dispatcher
    ([worker/guard.py], [worker/dispatcher.py])

    The guard is the short exclusion of invocations of one session by a Redis
    lock with a renewed lease; the dispatcher turns a command message into at
    most one call of a business handler and records its outcome. *)

From stdpp Require Import base gmap strings list relations.
From Stdlib Require Import ZArith Lia.
From S2P Require Import Prelude Text WorkerContracts WorkerStore World Consumer.
Local Open Scope Z_scope.

(** [SessionGuard.__init__] *)
Definition guard_init (ttl renew_seconds : Z) : result unit :=
  raise_if (negb ((0 <? renew_seconds * 2) && (renew_seconds * 2 <? ttl)))
    (ValueError "Renewal must precede lock expiry").

Section Guard.
Context (sha256_hex : string → string) (uuid4_str : world → string).
Context (namespace : string) (ttl : Z).

(** [SessionGuard.key] *)
Definition session_key (session_id : string) : string :=
  namespace +:+ ":session-lock:" +:+ sha256_hex session_id.

(** The heartbeat while the body ran: either no renewal was due, or its last
    renewal kept the lease ([1]) or lost it (any other reply, any error). *)
Definition heartbeat_lost (key token : string) : proc world bool :=
  t ← draw;
  match t_out t with
  | Done RNone => mret false
  | _ =>
      try_except
        (result ← redis_call (CEvalRenew key token ttl);
         mret (match result with RInt 1 => false | _ => true end))
        (λ e, mret (is_Exception e))
  end.

(** [with suppress(Exception)] around the release script. *)
Definition release_session (key token : string) : proc world unit :=
  try_except (redis_call (CEvalRelease key token);; mret tt)
    (λ e, if is_Exception e then mret tt else throw e).

(** [async with guard.hold(session_id): body] *)
Definition hold {A} (session_id : string) (body : proc world A) : proc world A :=
  let key := session_key session_id in
  token ← gets uuid4_str;
  acquired ← redis_call (CSetNx key token ttl);
  if negb (truthy acquired)
  then throw (DeferEvent "Session is being invoked by another process")
  else
    try_finally
      (try_except
        (a ← body;
         lost ← heartbeat_lost key token;
         if (lost : bool) then throw (LeaseLostError key) else mret a)
        (λ e, match e with
              | CancelledError =>
                  lost ← heartbeat_lost key token;
                  if (lost : bool) then throw (LeaseLostError key) else throw CancelledError
              | _ => throw e
              end))
      (release_session key token).
End Guard.

(** [except (DeferEvent, LeaseLostError, DatabaseError, PoolTimeout, RedisError)] *)
Definition deferrable (e : exn) : bool :=
  match e with
  | DeferEvent _ | LeaseLostError _ => true
  | _ => is_database_down e || is_RedisError e
  end.

Abbreviation business_handler := (EventContext → proc world unit) (only parsing).

Section Dispatcher.
Context `{EventCodec} (sha256_hex : string → string) (uuid4_str : world → string).
Context (namespace : string) (ttl : Z) (handlers : gmap string (EventContext → proc world unit))
        (max_attempts : Z).

(** The envelope checks at the start of [Dispatcher.handle]. *)
Definition dispatch_envelope (fs : fields) : result (uuid * Z) :=
  version ← from_option_err (KeyError "'schema_version'") (assoc "schema_version" fs);
  raise_if (negb (String.eqb version "1")) (ValueError "Unsupported command envelope");;
  ns ← from_option_err (KeyError "'namespace'") (assoc "namespace" fs);
  raise_if (negb (String.eqb ns namespace)) (ValueError "Unsupported command envelope");;
  id ← from_option_err (KeyError "'command_id'") (assoc "command_id" fs);
  command_id ← from_option_err (ValueError "badly formed hexadecimal UUID string") (uuid_parse id);
  gen ← from_option_err (KeyError "'generation'") (assoc "generation" fs);
  generation ← from_option_err (ValueError "invalid literal for int()") (py_int gen);
  Ok (command_id, generation).

(** The end of [_dispatch] when the business handler raised. *)
Definition handler_failed (command_id : uuid) (row : command_row) (error : exn)
    : proc world HandlerResult :=
  if deferrable error then throw error else
  match error with
  | CancelledError => throw error
  | IgnoreEvent m =>
      db_call (λ now, set_state namespace now command_id IGNORED (Some m) false);;
      mret (handled ACK "ignored")
  | _ =>
      let terminal := match error with RejectEvent _ => true
                      | _ => max_attempts <=? c_failure_attempts row + 1 end in
      let reason := describe error in
      db_call (λ now, set_state namespace now command_id (if terminal then FAILED else RUNNING)
                        (Some reason) true);;
      if terminal then throw (PermanentMessageError reason)
      else mret (handled DEFER "handler_retry")
  end.

(** [Dispatcher._dispatch] *)
Definition dispatch (command_id : uuid) (generation : Z) : proc world HandlerResult :=
  row ← db_read (λ _ d, Ok (command namespace d command_id));
  match row with
  | None => throw AssertionError
  | Some (c, i, b) =>
      if negb (generation =? c_generation c) then mret (handled ACK "old_generation")
      else if settled (c_state c) then mret (handled ACK "duplicate")
      else if bool_decide (c_state c = FAILED)
      then throw (PermanentMessageError (or_else (c_last_error c) "Failed command"))
      else
        ctx ← lift_result (context namespace command_id (c, i, b));
        match handlers !! event_type (ctx_event ctx) with
        | None => throw (DeferEvent "Handler registry differs from routed event")
        | Some handler =>
            db_call (λ now, set_state namespace now command_id RUNNING None false);;
            outcome ← try_except (modify (invoked ctx);; handler ctx;; mret None)
                                 (λ e, mret (Some e));
            match outcome with
            | Some e => handler_failed command_id c e
            | None =>
                db_call (λ now, set_state namespace now command_id DONE None false);;
                mret (handled ACK "succeeded")
            end
        end
  end.

(** [Dispatcher.handle] *)
Definition dispatcher_handle (m : StreamMessage) : proc world HandlerResult :=
  match dispatch_envelope (m_fields m) with
  | Err e => throw (PermanentMessageError (exn_str e))
  | Ok (command_id, generation) =>
      try_except
        (row ← db_read (λ _ d, Ok (command namespace d command_id));
         match row with
         | None => throw (PermanentMessageError "Unknown command ID")
         | Some (_, _, b) =>
             hold sha256_hex uuid4_str namespace ttl (b_session_id b) (dispatch command_id generation)
         end)
        (λ e, if deferrable e then mret (handled DEFER "deferred") else throw e)
  end.

Definition dispatcher : StreamMessageHandler := mk_handler (λ _, Ok None) dispatcher_handle.
End Dispatcher.
