(* ===== verification/DispatcherProps.v ===== *)
(** * Theorems about the session guard and the dispatcher

    The dispatcher keeps the promises of [SafeHandler]: it acknowledges only
    commands that are settled or of an old generation, and gives up only
    unreadable envelopes, unknown commands and FAILED ones; a business handler
    is called at most once per message, only for a command that is current and
    open, and every outcome is recorded as the code says. *)

From stdpp Require Import base gmap strings list relations.
From Stdlib Require Import ZArith Lia.
From S2P Require Import Prelude Text WorkerContracts WorkerStore WorkerStoreInv WorkerStoreFrame WorkerStoreProps World Consumer ConsumerProps Dispatcher.
Local Open Scope Z_scope.
Set Default Proof Using "Type".

(** Anything a part of a run may do: other processes and the part itself only
    let the tables grow, commands sent acknowledge nothing, history is kept,
    and the handlers called are [calls]. *)
Definition goes (calls : list EventContext) (w w' : world) : Prop :=
  fair grows w' ∧ grows (w_db w) (w_db w') ∧ sends acks_nothing w w' ∧
  w_seen w `prefix_of` w_seen w' ∧ w_invoked w' = w_invoked w ++ calls.

Lemma goes_ticked w w' : ticked grows w w' → goes [] w w'.
Proof.
  intros (Hf & Hg & Hl & Hs & Hi). split_and!; [done..|by apply sends_refl|by rewrite Hs|by rewrite app_nil_r].
Qed.
Lemma goes_refl w : fair grows w → goes [] w w.
Proof. intros Hf. apply goes_ticked. split_and!; [done|reflexivity|done..]. Qed.
Lemma goes_trans l1 l2 w1 w2 w3 : goes l1 w1 w2 → goes l2 w2 w3 → goes (l1 ++ l2) w1 w3.
Proof.
  intros (_ & G1 & S1 & P1 & I1) (F2 & G2 & S2 & P2 & I2).
  split_and!; [done|by etransitivity|by eapply sends_trans|by etransitivity|].
  by rewrite I2, I1, app_assoc.
Qed.
Lemma goes_ticked_r l w1 w2 w3 : goes l w1 w2 → ticked grows w2 w3 → goes l w1 w3.
Proof. intros H1 H2%goes_ticked. rewrite <- (app_nil_r l). by eapply goes_trans. Qed.
Lemma goes_logged l c w w' : acks_nothing c → goes l w w' → goes l w (logged c w').
Proof.
  intros Hc (F & G & S & P & I). split_and!; try done.
  eapply sends_trans; [done|]. by eapply sends_one.
Qed.
Lemma goes_with_db l d w w' : grows (w_db w') d → goes l w w' → goes l w (with_db d w').
Proof.
  intros Hd (F & G & S & P & I). split_and!; try done; [by etransitivity|]. by apply prefix_app_r.
Qed.
Lemma goes_fair l w w' : goes l w w' → fair grows w'.
Proof. by intros (? & _). Qed.

Lemma prefix_seen (w1 w2 w3 : world) P : seen w1 w2 P → w_seen w2 `prefix_of` w_seen w3 → seen w1 w3 P.
Proof.
  intros (ds & d & H1 & H2 & H3) [k Hk]. exists (ds ++ k), d.
  rewrite Hk, H1, app_assoc. split_and!; [done|set_solver|done].
Qed.
Lemma seen_prefix_l (w1 w2 w3 : world) P : w_seen w1 `prefix_of` w_seen w2 → seen w2 w3 P → seen w1 w3 P.
Proof.
  intros [k Hk] (ds & d & H1 & H2 & H3). exists (k ++ ds), d.
  rewrite H1, Hk, app_assoc. split_and!; [done|set_solver|done].
Qed.
Lemma seen_with_db (w1 w2 : world) d (P : db → Prop) :
  w_seen w1 `prefix_of` w_seen w2 → P d → seen w1 (with_db d w2) P.
Proof.
  intros [k Hk] HP. exists (k ++ [d]), d. simpl. rewrite Hk, app_assoc. split_and!; [done|set_solver|done].
Qed.

(** What a business handler may do: see [goes]; it calls no other handler. *)
Definition handlers_behave (handlers : gmap string (EventContext → proc world unit)) : Prop :=
  ∀ ty f ctx w, handlers !! ty = Some f → fair grows w → wp (f ctx) (λ _ w', goes [] w w') w.

Section Guard.
Context (sha256_hex : string → string) (uuid4_str : world → string) (namespace : string) (ttl : Z).

Lemma heartbeat_goes key token w : fair grows w →
  wp (heartbeat_lost ttl key token) (λ r w', (∃ b, r = Ok b) ∧ goes [] w w') w.
Proof.
  intros Hf. unfold heartbeat_lost. apply wp_bind, (wp_draw grows); [done|]. intros t w1 Ht.
  assert (Hcall : wp (try_except
        (result ← redis_call (CEvalRenew key token ttl);
         mret (match result with RInt 1 => false | _ => true end))
        (λ e, mret (is_Exception e))) (λ r w', (∃ b, r = Ok b) ∧ goes [] w w') w1).
  { apply wp_try, wp_bind, (wp_redis_call grows); [apply Ht|..].
    - intros r w2 Ht2. apply wp_ret. split; [eauto|]. apply goes_logged; [done|].
      eapply goes_ticked_r; [by apply goes_ticked|done].
    - intros e w2 Ht2. assert (goes [] w w2) by (eapply goes_ticked_r; [by apply goes_ticked|done]).
      split; apply wp_ret; (split; [eauto|]); [done|by apply goes_logged]. }
  destruct (t_out t) as [[]|e|e]; try exact Hcall. apply wp_ret. split; [eauto|by apply goes_ticked].
Qed.

Lemma release_goes key token w : fair grows w →
  wp (release_session key token) (λ _ w', goes [] w w') w.
Proof.
  intros Hf. unfold release_session. apply wp_try, wp_bind, (wp_redis_call grows); [done|..].
  - intros r w1 Ht. apply wp_ret. apply goes_logged; [done|by apply goes_ticked].
  - intros e w1 Ht%goes_ticked. split; destruct (is_Exception _); (apply wp_ret || apply wp_throw); try done;
      by apply goes_logged.
Qed.

(** An error of the guard itself: the lock is taken, the lease is lost, or the
    driver failed. *)
Definition guard_error {A} (r : result A) : Prop :=
  ∃ e, r = Err e ∧ (deferrable e = true ∨ ∃ x, e = driver_raise x).

Lemma release_error key token w : fair grows w →
  wp (release_session key token) (λ r w', goes [] w w' ∧ ∀ e, r = Err e → ∃ x, e = driver_raise x) w.
Proof.
  intros Hf. apply wp_and; [by apply release_goes|].
  unfold release_session. apply wp_try, wp_bind, (wp_redis_call grows); [done| |].
  - intros r w1 _. apply wp_ret. by intros e [=].
  - intros e w1 _. split; destruct (is_Exception _); (apply wp_ret || apply wp_throw); intros e' [= <-]; eauto.
Qed.

Section Hold.
Context {A : Type} (Q : list EventContext → result A → world → world → Prop).
Hypothesis Q_later : ∀ l r w1 w2 w3, Q l r w1 w2 → goes [] w2 w3 → Q l r w1 w3.
Hypothesis Q_sooner : ∀ l r w1 w2 w3, goes [] w1 w2 → Q l r w2 w3 → Q l r w1 w3.

Definition held (w : world) (r : result A) (w' : world) : Prop :=
  ∃ l, goes l w w' ∧ (Q l r w w' ∨ (guard_error r ∧ (l = [] ∨ ∃ r', Q l r' w w'))).

Lemma held_released key token l (r x : result A) w w1 w2 w3 :
  goes [] w w1 → goes l w1 w2 → Q l r w1 w2 → goes [] w2 w3 → x = r ∨ guard_error x →
  wp (release_session key token) (λ r' w', match r' with Ok _ => held w x w' | Err e => held w (Err e) w' end) w3.
Proof using Q_later Q_sooner.
  intros G1 G2 HQ G3 Hx. eapply wp_mono; [apply release_error; by eapply goes_fair|].
  intros r' w4 [G4 He]. assert (G24 : goes [] w2 w4) by exact (goes_trans _ _ _ _ _ G3 G4).
  assert (G : goes l w w4).
  { change l with ([] ++ l). eapply goes_trans; [exact G1|]. rewrite <- (app_nil_r l). by eapply goes_trans. }
  assert (HQ' : Q l r w w4) by (eapply Q_sooner; [exact G1|]; by eapply Q_later).
  destruct r' as [u|e]; exists l; (split; [done|]).
  - destruct Hx as [->|He']; [by left|right; eauto].
  - right. split; [|eauto]. exists e. split; [done|]. right. by apply He.
Qed.

(** The guard adds only its own lock traffic to what the body does: the
    outcome is the body's, or an error of the guard. *)
Lemma hold_goes session (body : proc world A) w : fair grows w →
  (∀ w1, fair grows w1 → wp body (λ r w', ∃ l, goes l w1 w' ∧ Q l r w1 w') w1) →
  wp (hold sha256_hex uuid4_str namespace ttl session body) (held w) w.
Proof using Q_later Q_sooner.
  intros Hf Hbody. unfold hold. apply wp_bind, wp_gets, wp_bind, (wp_redis_call grows); [done|..].
  2:{ intros e w1 Ht%goes_ticked. split; exists []; (split; [done || by apply goes_logged|]);
        right; (split; [eexists; eauto|by left]). }
  intros r w1 Ht. set (w1' := logged _ w1).
  assert (G1 : goes [] w w1') by (apply goes_logged; [done|by apply goes_ticked]).
  destruct (truthy r); simpl.
  2:{ apply wp_throw. exists []. split; [done|]. right. split; [|by left]. eexists. split; [done|by left]. }
  apply wp_finally, wp_try, wp_bind.
  eapply wp_mono; [apply Hbody; by eapply goes_fair|]. intros rb w2 (l & G2 & HQ2).
  assert (Hrel : ∀ (x : result A) w3, goes [] w2 w3 → x = rb ∨ guard_error x →
     wp (release_session (session_key sha256_hex namespace session) (uuid4_str w))
       (λ r' w', match r' with Ok _ => held w x w' | Err e => held w (Err e) w' end) w3).
  { intros x w3 G3 Hx. by eapply held_released. }
  assert (G22 : goes [] w2 w2) by (apply goes_refl; by eapply goes_fair).
  assert (Hlost : guard_error (A:=A) (Err (LeaseLostError (session_key sha256_hex namespace session))))
    by (eexists; split; [done|by left]).
  destruct rb as [a|e].
  - apply wp_bind. eapply wp_mono; [apply heartbeat_goes; by eapply goes_fair|].
    intros r3 w3 [[lost ->] G3]. destruct lost; [apply wp_throw, wp_throw|apply wp_ret]; apply Hrel; auto.
  - destruct e; try (apply wp_throw, Hrel; auto).
    apply wp_bind. eapply wp_mono; [apply heartbeat_goes; by eapply goes_fair|].
    intros r3 w3 [[lost ->] G3]. destruct lost; apply wp_throw, Hrel; auto.
Qed.
End Hold.
End Guard.

Lemma set_state_run ns now cid st err fa d u d' : set_state ns now cid st err fa d = Ok (u, d') →
  grows d d' ∧ ∀ c, ew_commands d !! (ns, cid) = Some c →
    ew_commands d' !! (ns, cid) = Some (with_state now st err fa c).
Proof.
  intros Hr. unfold set_state in Hr. assert (Hg : grows d (set_commands (alter (with_state now st err fa) (ns, cid)) d)).
  { apply grows_alter_command. intros c; unfold command_grows; simpl; split_and!; (done || lia). }
  destruct (terminal st); tx_inv; (split; [first [exact Hg | etransitivity; [exact Hg|apply grows_outbox]]|]);
    intros c Hc; simpl; by rewrite lookup_alter_eq, Hc.
Qed.

Lemma set_state_error ns now cid st err fa d e : set_state ns now cid st err fa d = Err e → e = numeric_overflow.
Proof.
  unfold set_state, mbind, tx_bind, tx_get, tx_guard, tx_modify.
  destruct (ew_commands d !! (ns, cid)) as [c|]; [destruct (fits_int4 _)|]; destruct (terminal st); by intros [=].
Qed.

Section Dispatch.
Context `{EventCodec} (sha256_hex : string → string) (uuid4_str : world → string).
Context (ns : string) (ttl : Z) (handlers : gmap string (EventContext → proc world unit)) (max_attempts : Z).

(** The command needs nothing more under this generation. *)
Definition no_work_left (cid : uuid) (gen : Z) (d : db) : Prop :=
  ∃ c, ew_commands d !! (ns, cid) = Some c ∧ (settled (c_state c) = true ∨ c_generation c ≠ gen).

(** The command is unknown or has FAILED. *)
Definition given_up (cid : uuid) (d : db) : Prop :=
  command ns d cid = None ∨ c_state <$> ew_commands d !! (ns, cid) = Some FAILED.

(** The command is of this generation and open, and [ctx] is its context. *)
Definition call_is_due (cid : uuid) (gen : Z) (ctx : EventContext) (d : db) : Prop :=
  ∃ c i b, command ns d cid = Some (c, i, b) ∧ c_generation c = gen ∧
    terminal (c_state c) = false ∧ context ns cid (c, i, b) = Ok ctx.

Definition dispatched (cid : uuid) (gen : Z) (l : list EventContext) (r : result HandlerResult) (w w' : world) : Prop :=
  match l with [] => True | [ctx] => seen w w' (call_is_due cid gen ctx) | _ => False end ∧
  match r with
  | Ok res => (decision res = ACK → seen w w' (no_work_left cid gen)) ∧ decision res ≠ DEAD_LETTER
  | Err (PermanentMessageError _) => seen w w' (given_up cid)
  | Err _ => True
  end.

Lemma dispatched_extend cid gen l r w1 w2 w3 w4 :
  w_seen w1 `prefix_of` w_seen w2 → w_seen w3 `prefix_of` w_seen w4 →
  dispatched cid gen l r w2 w3 → dispatched cid gen l r w1 w4.
Proof.
  intros H12 H34 [Hl Hr].
  assert (Hs : ∀ P, seen w2 w3 P → seen w1 w4 P).
  { intros P HP. eapply seen_prefix_l; [done|]. by eapply prefix_seen. }
  split; [destruct l as [|ctx []]; auto|].
  destruct r as [res|e]; [destruct Hr; auto|destruct e; auto].
Qed.

Lemma command_lookup d cid c i b : command ns d cid = Some (c, i, b) → ew_commands d !! (ns, cid) = Some c.
Proof.
  unfold command. destruct (ew_commands d !! (ns, cid)) as [c'|]; [|done]. simpl.
  destruct (ew_inbox d !! _); [|done]. simpl. destruct (ew_bindings d !! _); [|done]. by intros [= <- <- <-].
Qed.

(** Recording a state: the tables grow, and if it ran the command has it. *)
Lemma set_state_goes cid st err fa (w : world) (Q : result unit → world → Prop) : fair grows w →
  is_Some (ew_commands (w_db w) !! (ns, cid)) →
  (∀ w', goes [] w w' → seen w w' (λ d, c_state <$> ew_commands d !! (ns, cid) = Some st) → Q (Ok tt) w') →
  (∀ e w', goes [] w w' → (∀ s, e ≠ PermanentMessageError s) → Q (Err e) w') →
  wp (db_call (λ now, set_state ns now cid st err fa)) Q w.
Proof.
  intros Hf [c Hc] Hok Herr. apply (wp_db_call grows); [done|..].
  - intros now w1 Ht. pose proof Ht as (_ & (_ & _ & Hk & _) & _ & Hs & _).
    destruct (Hk _ _ Hc) as (c1 & Hc1 & _). pose proof (goes_ticked _ _ Ht) as G1.
    destruct (set_state _ _ _ _ _ _ _) as [[[] d']|e] eqn:Hr.
    + apply set_state_run in Hr as [Hg Hst]. assert (goes [] w (with_db d' w1)) by by apply goes_with_db.
      split; [|intros e; apply Herr; [done|by destruct e]]. apply Hok; [done|].
      apply seen_with_db; [by rewrite Hs|]. by rewrite (Hst _ Hc1).
    + assert (G2 : goes [] w (with_db (w_db w1) w1)) by (apply goes_with_db; [reflexivity|done]).
      apply set_state_error in Hr as ->. split; [by apply Herr|]. intros x. apply Herr; [done|by destruct x].
  - intros e w1 Ht. apply Herr; [by apply goes_ticked|by destruct e].
Qed.

Lemma grows_command (w w' : world) l k : goes l w w' → is_Some (ew_commands (w_db w) !! k) →
  is_Some (ew_commands (w_db w') !! k).
Proof. intros (_ & (_ & _ & Hk & _) & _) [c Hc]. destruct (Hk _ _ Hc) as (c' & Hc' & _). eauto. Qed.

(** The result of a run that called the handlers [l] and ended well. *)
Lemma handler_failed_goes cid gen row e l w1 w : goes l w1 w →
  is_Some (ew_commands (w_db w) !! (ns, cid)) →
  (match l with [] => True | [ctx] => seen w1 w (call_is_due cid gen ctx) | _ => False end) →
  wp (handler_failed ns max_attempts cid row e)
    (λ r w', ∃ l', goes l' w1 w' ∧ dispatched cid gen l' r w1 w') w.
Proof.
  intros G Hc Hl. pose proof (goes_fair _ _ _ G) as Hf.
  assert (Hlater : ∀ w', goes [] w w' → goes l w1 w' ∧
    match l with [] => True | [ctx] => seen w1 w' (call_is_due cid gen ctx) | _ => False end).
  { intros w' G'. split; [rewrite <- (app_nil_r l); by eapply goes_trans|].
    destruct l as [|ctx []]; try done. eapply prefix_seen; [done|apply G']. }
  assert (Hseen : ∀ w' P, goes [] w w' → seen w w' P → seen w1 w' P).
  { intros w' P G' HP. eapply seen_prefix_l; [apply G|done]. }
  assert (Hth : ∀ w' x, goes [] w w' → (∀ s, x ≠ PermanentMessageError s) →
    ∃ l', goes l' w1 w' ∧ dispatched cid gen l' (Err x) w1 w').
  { intros w' x G' Hx. exists l. destruct (Hlater w' G'). split; [done|]. split; [done|]. destruct x; try done. by edestruct Hx. }
  pose proof (goes_refl w Hf) as Gr. unfold handler_failed.
  destruct (deferrable e) eqn:Hd; [apply wp_throw, Hth; [done|by intros s ->]|].
  assert (Hother : ∀ (t : bool) reason, wp (db_call (λ now, set_state ns now cid (if t then FAILED else RUNNING) (Some reason) true);;
      if t then throw (PermanentMessageError reason) else mret (handled DEFER "handler_retry"))
    (λ r w', ∃ l', goes l' w1 w' ∧ dispatched cid gen l' r w1 w') w).
  { intros t reason. apply wp_bind, set_state_goes; [done..| |intros x w' G' Hx; by apply Hth].
    intros w' G' Hst. destruct (Hlater w' G'). destruct t; [apply wp_throw|apply wp_ret]; exists l; (split; [done|split; [done|]]).
    - apply Hseen; [done|]. destruct Hst as (ds & d & ? & ? & ?). exists ds, d. split_and!; [done..|by right].
    - done. }
  destruct e; try discriminate Hd; cbv beta iota zeta; try (lazymatch goal with
    | |- wp (mbind _ (db_call (λ _, set_state _ _ _ FAILED (Some ?s) _))) _ _ => exact (Hother true s)
    | |- wp (mbind _ (db_call (λ _, set_state _ _ _ (if ?t then _ else _) (Some ?s) _))) _ _ => exact (Hother t s)
    end).
  2:{ by apply wp_throw, Hth. }
  apply wp_bind, set_state_goes; [done..| |intros x w' G' Hx; by apply Hth].
  intros w' G' Hst. destruct (Hlater w' G'). apply wp_ret. exists l. split; [done|]. split; [done|]. split; [|done].
  intros _. apply Hseen; [done|]. destruct Hst as (ds & d & ? & ? & (c' & Hc' & Hst)%fmap_Some). exists ds, d.
  split_and!; [done..|]. exists c'. split; [done|]. left. by rewrite <- Hst.
Qed.

Hypothesis behave : handlers_behave handlers.

Lemma goes_invoked l ctx w w' : goes l w w' → goes (l ++ [ctx]) w (invoked ctx w').
Proof. intros (F & G & S & P & I). split_and!; try done. simpl. by rewrite I, app_assoc. Qed.

Lemma handler_runs_goes ty f ctx w : handlers !! ty = Some f → fair grows w →
  wp (try_except (modify (invoked ctx);; f ctx;; mret None) (λ e, mret (Some e)))
    (λ r w', (∃ o : option exn, r = Ok o) ∧ goes [ctx] w w') w.
Proof using behave.
  intros Hf Hfair. apply wp_try, wp_bind, wp_modify, wp_bind.
  pose proof (goes_invoked [] ctx w w (goes_refl w Hfair)) as G1.
  eapply wp_mono; [eapply behave; [exact Hf|by eapply goes_fair]|].
  intros r w' G2. assert (goes [ctx] w w') by exact (goes_trans _ _ _ _ _ G1 G2).
  destruct r; repeat apply wp_ret; eauto.
Qed.

(** The part of [dispatch] from the transition to RUNNING on. *)
Lemma run_command_goes cid gen c ctx ty f w1 w : goes [] w1 w → handlers !! ty = Some f →
  is_Some (ew_commands (w_db w) !! (ns, cid)) → seen w1 w (call_is_due cid gen ctx) →
  wp (db_call (λ now, set_state ns now cid RUNNING None false);;
      outcome ← try_except (modify (invoked ctx);; f ctx;; mret None) (λ e, mret (Some e));
      match outcome with
      | Some e => handler_failed ns max_attempts cid c e
      | None => db_call (λ now, set_state ns now cid DONE None false);; mret (handled ACK "succeeded")
      end)
    (λ r w', ∃ l, goes l w1 w' ∧ dispatched cid gen l r w1 w') w.
Proof using behave.
  intros G1 Hf Hc Hdue.
  assert (Herr : ∀ l x w', goes l w1 w' → (∀ s, x ≠ PermanentMessageError s) →
    match l with [] => True | [ctx] => seen w1 w' (call_is_due cid gen ctx) | _ => False end →
    ∃ l, goes l w1 w' ∧ dispatched cid gen l (Err x) w1 w').
  { intros l x w' G Hx Hl. exists l. split; [done|]. split; [done|]. destruct x; try done. by edestruct Hx. }
  apply wp_bind, set_state_goes; [by eapply goes_fair|done| |].
  2:{ intros x w' G' Hx. eapply (Herr []); [exact (goes_trans _ _ _ _ _ G1 G')|done..]. }
  intros w2 G2 _. apply wp_bind. eapply wp_mono; [eapply handler_runs_goes; [exact Hf|by eapply goes_fair]|].
  intros r w3 [[o ->] G3].
  assert (G13 : goes [ctx] w1 w3) by exact (goes_trans _ _ _ _ _ (goes_trans _ _ _ _ _ G1 G2) G3).
  assert (Hdue3 : seen w1 w3 (call_is_due cid gen ctx)).
  { eapply prefix_seen; [exact Hdue|]. etransitivity; [apply G2|apply G3]. }
  assert (Hc3 : is_Some (ew_commands (w_db w3) !! (ns, cid))).
  { eapply grows_command; [exact G3|]. by eapply grows_command. }
  destruct o as [e|]; [by eapply handler_failed_goes|].
  apply wp_bind, set_state_goes; [by eapply goes_fair|done| |].
  2:{ intros x w' G' Hx. eapply (Herr [ctx]); [exact (goes_trans _ _ _ _ _ G13 G')|done|].
      eapply prefix_seen; [done|apply G']. }
  intros w4 G4 Hst. apply wp_ret. exists [ctx]. split; [exact (goes_trans _ _ _ _ _ G13 G4)|].
  split; [eapply prefix_seen; [done|apply G4]|]. split; [|done]. intros _.
  eapply seen_prefix_l; [apply G13|]. destruct Hst as (ds & d & ? & ? & (c' & ? & Hst)%fmap_Some).
  exists ds, d. split_and!; [done..|]. exists c'. split; [done|]. left. by rewrite <- Hst.
Qed.

Lemma dispatch_goes cid gen w : fair grows w →
  wp (dispatch ns handlers max_attempts cid gen)
    (λ r w', ∃ l, goes l w w' ∧ dispatched cid gen l r w w') w.
Proof using behave.
  intros Hf. unfold dispatch. apply wp_bind, (wp_db_read grows); [done|..].
  2:{ intros e w1 Ht%goes_ticked. exists []. split; [by apply goes_with_db|]. split; [done|by destruct e]. }
  2:{ intros e w1 Ht%goes_ticked. exists []. split; [done|]. split; [done|by destruct e]. }
  intros _ w1 Ht. pose proof Ht as (_ & _ & _ & Hs & _). set (w2 := with_db (w_db w1) w1).
  assert (G : goes [] w w2) by (apply goes_with_db; [reflexivity|by apply goes_ticked]).
  assert (Hseen : ∀ P : db → Prop, P (w_db w1) → seen w w2 P).
  { intros P HP. apply seen_with_db; [by rewrite Hs|done]. }
  assert (Herr : ∀ x, (∀ s, x ≠ PermanentMessageError s) → ∃ l, goes l w w2 ∧ dispatched cid gen l (Err x) w w2).
  { intros x Hx. exists []. split; [done|]. split; [done|]. destruct x; try done. by edestruct Hx. }
  destruct (command ns (w_db w1) cid) as [[[c i] b]|] eqn:Hcmd; [|by apply wp_throw, Herr].
  pose proof (command_lookup _ _ _ _ _ Hcmd) as Hc.
  destruct (Z.eqb_spec gen (c_generation c)) as [Hgen|Hgen]; cbn [negb].
  2:{ apply wp_ret. exists []. split; [done|]. split; [done|]. split; [|done]. intros _. apply Hseen.
      exists c. split; [done|]. right. congruence. }
  destruct (settled (c_state c)) eqn:Hset.
  { apply wp_ret. exists []. split; [done|]. split; [done|]. split; [|done]. intros _. apply Hseen.
    exists c. auto. }
  case_bool_decide as Hfail.
  { apply wp_throw. exists []. split; [done|]. split; [done|]. apply Hseen. right. by rewrite Hc, <- Hfail. }
  apply wp_bind, wp_lift. destruct (context ns cid (c, i, b)) as [ctx|x] eqn:Hctx.
  2:{ apply Herr. intros s ->. unfold context in Hctx. destruct (model_validate (i_event i)) eqn:Hmv; simplify_eq/=.
      by apply model_validate_error in Hmv as [? [=]]. }
  destruct (handlers !! _) as [f|] eqn:Hh; [|by apply wp_throw, Herr].
  eapply run_command_goes; [done|exact Hh|by eexists|].
  apply Hseen. exists c, i, b. split_and!; try done. by destruct (c_state c).
Qed.

Definition unreadable_command (m : StreamMessage) : Prop :=
  ∃ e, dispatch_envelope ns (m_fields m) = Err e.
Definition finished_command (m : StreamMessage) (d : db) : Prop :=
  ∃ cid gen, dispatch_envelope ns (m_fields m) = Ok (cid, gen) ∧ no_work_left cid gen d.
Definition hopeless_command (m : StreamMessage) (d : db) : Prop :=
  ∃ cid gen, dispatch_envelope ns (m_fields m) = Ok (cid, gen) ∧ given_up cid d.

Lemma driver_not_permanent x s : driver_raise x ≠ PermanentMessageError s.
Proof. by destruct x. Qed.

Lemma dispatcher_handle_goes m w : fair grows w →
  wp (dispatcher_handle sha256_hex uuid4_str ns ttl handlers max_attempts m)
    (λ r w', ∃ l, goes l w w' ∧
      match dispatch_envelope ns (m_fields m) with
      | Ok (cid, gen) => dispatched cid gen l r w w'
      | Err e => l = [] ∧ r = Err (PermanentMessageError (exn_str e))
      end) w.
Proof using behave.
  intros Hf. unfold dispatcher_handle. destruct (dispatch_envelope ns (m_fields m)) as [[cid gen]|e].
  2:{ apply wp_throw. exists []. split; [by apply goes_refl|done]. }
  assert (Hcatch : ∀ l e w', goes l w w' → dispatched cid gen l (Err e) w w' →
    wp (if deferrable e then mret (handled DEFER "deferred") else throw e)
      (λ r w', ∃ l, goes l w w' ∧ dispatched cid gen l r w w') w').
  { intros l e w' G Hd. destruct (deferrable e); [apply wp_ret|apply wp_throw]; exists l; (split; [done|]); [|done].
    split; [apply Hd|]. done. }
  apply wp_try, wp_bind, (wp_db_read grows); [done|..].
  2:{ intros e w1 Ht%goes_ticked. eapply Hcatch; [by apply goes_with_db|]. split; [done|by destruct e]. }
  2:{ intros e w1 Ht%goes_ticked. eapply Hcatch; [done|]. split; [done|by destruct e]. }
  intros _ w1 Ht. pose proof Ht as (_ & _ & _ & Hs & _). set (w2 := with_db (w_db w1) w1).
  assert (G : goes [] w w2) by (apply goes_with_db; [reflexivity|by apply goes_ticked]).
  destruct (command ns (w_db w1) cid) as [[[c i] b]|] eqn:Hcmd.
  2:{ apply wp_throw. eapply Hcatch; [done|]. split; [done|]. apply seen_with_db; [by rewrite Hs|]. by left. }
  eapply wp_mono.
  { apply (hold_goes sha256_hex uuid4_str ns ttl (dispatched cid gen)).
    - intros l r w3 w4 w5 Hd G'. eapply dispatched_extend; [reflexivity|apply G'|done].
    - intros l r w3 w4 w5 G' Hd. eapply dispatched_extend; [apply G'|reflexivity|done].
    - by eapply goes_fair.
    - intros w3 Hf3. by apply dispatch_goes. }
  intros r w' (l & G' & Hd). assert (G2 : goes l w w') by exact (goes_trans _ _ _ _ _ G G').
  destruct Hd as [Hd|[(e & -> & He) Hl]].
  - assert (Hd' : dispatched cid gen l r w w') by (eapply dispatched_extend; [apply G|reflexivity|done]).
    destruct r as [res|e]; [by exists l|by eapply Hcatch].
  - eapply Hcatch; [done|]. split.
    + destruct Hl as [->|[r' Hd]]; [done|]. eapply (dispatched_extend _ _ _ _ w w2); [apply G|reflexivity|exact Hd].
    + destruct He as [He|[x ->]]; [by destruct e|by destruct x].
Qed.

(** The dispatcher keeps the promises of [SafeHandler]. *)
#[export] Instance dispatcher_safe :
  SafeHandler grows (dispatcher sha256_hex uuid4_str ns ttl handlers max_attempts)
    unreadable_command finished_command hopeless_command.
Proof using behave.
  split. intros m w Hf. eapply wp_mono; [by apply dispatcher_handle_goes|].
  intros r w' (l & (F & _ & S & _) & Hr). split_and!; [done..|].
  unfold unreadable_command, finished_command, hopeless_command.
  destruct (dispatch_envelope ns (m_fields m)) as [[cid gen]|e] eqn:Henv.
  - destruct Hr as [_ Hr]. destruct r as [res|e].
    + destruct Hr as [Ha Hn]. split; [|done]. intros (ds & d & ? & ? & ?)%Ha. exists ds, d. eauto 10.
    + destruct e; try done. right. destruct Hr as (ds & d & ? & ? & ?). exists ds, d. eauto 10.
  - destruct Hr as [_ ->]. left. eauto.
Qed.

(** At most one business call per message: whatever happens around it,
    handling a command message calls at most one handler, and only with the
    context of the envelope's command, as its own transaction read it: of the
    envelope's generation and neither DONE, IGNORED nor FAILED. An unreadable
    envelope calls none. *)
Theorem handler_called_only_when_due m w r w' : fair grows w →
  dispatcher_handle sha256_hex uuid4_str ns ttl handlers max_attempts m w = (r, w') →
  w_invoked w' = w_invoked w ∨
  ∃ ctx cid gen, w_invoked w' = w_invoked w ++ [ctx] ∧
    dispatch_envelope ns (m_fields m) = Ok (cid, gen) ∧
    seen w w' (λ d, ∃ c i b, command ns d cid = Some (c, i, b) ∧ c_generation c = gen ∧
      terminal (c_state c) = false ∧ context ns cid (c, i, b) = Ok ctx).
Proof using behave.
  intros Hf Hrun. destruct (wp_run _ _ _ _ _ (dispatcher_handle_goes m w Hf) Hrun) as (l & (_ & _ & _ & _ & Hi) & Hd).
  destruct (dispatch_envelope ns (m_fields m)) as [[cid gen]|e] eqn:Henv.
  - destruct Hd as [Hl _]. destruct l as [|ctx [|]]; [left; by rewrite Hi, app_nil_r|right|done].
    exists ctx, cid, gen. auto.
  - destruct Hd as [-> _]. left. by rewrite Hi, app_nil_r.
Qed.

(** C1. End-to-end safety of commands: when the consumer processes a command
    message with the dispatcher, the message is acknowledged only if a
    transaction of this very run saw or left its command DONE, IGNORED or
    under another generation; it is moved to the dead-letter stream, in the
    transaction that acknowledges it, only if its envelope is unreadable, its
    command is unknown or FAILED, or the transport retries are exhausted. *)
Theorem command_message_safety json_dumps utc_now cfg consumer m w r w' calls c id :
  fair grows w →
  process_message sha256_hex json_dumps utc_now uuid4_str cfg consumer
    (dispatcher sha256_hex uuid4_str ns ttl handlers max_attempts) m w = (r, w') →
  w_log w' = w_log w ++ calls → c ∈ calls → acks (stream cfg) (group cfg) id c = true →
  id = message_id m ∧
  ((∃ cid gen w1 w2, dispatch_envelope ns (m_fields m) = Ok (cid, gen) ∧
      w_log w `prefix_of` w_log w1 ∧ w_log w2 `prefix_of` w_log w' ∧
      seen w1 w2 (λ d, ∃ row, ew_commands d !! (ns, cid) = Some row ∧
        (c_state row = DONE ∨ c_state row = IGNORED ∨ c_generation row ≠ gen))) ∨
   (∃ dls reason attempts error_type now, dead_letter_stream cfg = Some dls ∧
      c = dead_cmd sha256_hex json_dumps cfg consumer dls m reason attempts error_type now ∧
      ((∃ e, dispatch_envelope ns (m_fields m) = Err e) ∨
       (∃ cid gen w1 w2, dispatch_envelope ns (m_fields m) = Ok (cid, gen) ∧
          w_log w `prefix_of` w_log w1 ∧ w_log w2 `prefix_of` w_log w' ∧
          seen w1 w2 (λ d, command ns d cid = None ∨ c_state <$> ew_commands d !! (ns, cid) = Some FAILED)) ∨
       max_retry_attempts cfg ≤ attempts))).
Proof using behave.
  intros Hf Hrun Hlog Hc Ha.
  destruct (ack_safe sha256_hex json_dumps utc_now uuid4_str cfg grows _ _ _ _ consumer m w r w' calls c id
    Hf Hrun Hlog Hc Ha) as [-> Hj]. split; [done|].
  destruct Hj as [[_ (w1 & r2 & w2 & _ & H1 & H2 & res & _ & _ & ds & d & Hds & Hd & cid & gen & Henv & row & Hrow & Hst)]|
    (dls & reason & n & et & now & H1 & H2 & Hj)].
  - left. exists cid, gen, w1, w2. split_and!; [done..|]. exists ds, d. split_and!; [done..|]. exists row.
    split; [done|]. destruct Hst as [Hst|]; [|auto]. destruct (c_state row); try done; auto.
  - right. exists dls, reason, n, et, now. split_and!; [done..|]. destruct Hj as [?|[?|[Hj|[? _]]]]; [done|by left| |auto].
    destruct Hj as (w1 & r2 & w2 & _ & ? & ? & ds & d & ? & ? & cid & gen & ? & ?).
    right; left. exists cid, gen, w1, w2. split_and!; [done..|]. by exists ds, d.
Qed.
End Dispatch.

(** ** What is recorded for every outcome

    The complete case table of [Dispatcher._dispatch] when the database
    answers, and concrete runs on which the theorems of the consumer and the
    dispatcher are instantiated. *)

(** A tick at which nothing else happens and the call succeeds. *)
Definition calm (now : timestamp) : tick := mk_tick id now false (Done RNone).

(** [(error or "")[:2000] or None], as stored in [last_error]. *)
Definition stored_error (error : option string) : option string :=
  match error with
  | Some m => if String.eqb m "" then None else Some (slice_to 2000 m)
  | None => None
  end.

Section Outcome.
Context `{EventCodec} (ns : string) (handlers : gmap string (EventContext → proc world unit)) (max_attempts : Z).

(** The outcome of the business handler [o], for a command that had failed
    [attempts] times: what [_dispatch] returns or raises, the state recorded,
    the number of attempts added and the error recorded. *)
Definition outcome_table (attempts : Z) (o : result unit)
    : result HandlerResult * command_state * bool * option string :=
  match o with
  | Ok _ => (Ok (handled ACK "succeeded"), DONE, false, None)
  | Err e =>
      match e with
      | DeferEvent _ | LeaseLostError _ | DatabaseError _ | PoolTimeout | RedisError _ | ResponseError _
      | CancelledError => (Err e, RUNNING, false, None)
      | IgnoreEvent m => (Ok (handled ACK "ignored"), IGNORED, false, Some m)
      | RejectEvent _ => (Err (PermanentMessageError (describe e)), FAILED, true, Some (describe e))
      | _ =>
          if max_attempts <=? attempts + 1
          then (Err (PermanentMessageError (describe e)), FAILED, true, Some (describe e))
          else (Ok (handled DEFER "handler_retry"), RUNNING, true, Some (describe e))
      end
  end.

Lemma with_state_twice now1 now2 s1 s2 err1 err2 fa c :
  with_state now2 s2 err2 fa (with_state now1 s1 err1 false c) = with_state now2 s2 err2 fa c.
Proof. unfold with_state. simpl. by rewrite Z.add_0_r. Qed.

(** [set_state] on a command that exists, when the counter does not overflow. *)
Lemma set_state_ok_run now cid st err fa d c :
  ew_commands d !! (ns, cid) = Some c → fits_int4 (c_failure_attempts c + Z.b2z fa) = true →
  ∃ d', set_state ns now cid st err fa d = Ok (tt, d') ∧
    ew_commands d' !! (ns, cid) = Some (with_state now st err fa c).
Proof.
  intros Hc Hfit. destruct (set_state ns now cid st err fa d) as [[[] d']|e] eqn:Hr.
  - exists d'. split; [done|]. by eapply set_state_run.
  - exfalso. revert Hr. unfold set_state, mbind, tx_bind, tx_get, tx_guard. rewrite Hc, Hfit.
    by destruct (terminal st).
Qed.

Lemma wp_calm {A} (m : timestamp → tx db A) Q d now sched stop log seen inv a d' : m now d = Ok (a, d') →
  Q (Ok a) (mk_world d' sched (stop || false) log (seen ++ [d']) inv) →
  wp (db_call m) Q (mk_world d (calm now :: sched) stop log seen inv).
Proof. intros Hm HQ. unfold wp, db_call, mbind, proc_bind, draw, run_tx. simpl. by rewrite Hm. Qed.

(** The final [set_state] of a run of [dispatch], and what is left to do. *)
Lemma wp_record cid st err fa c d t seen log inv (k : proc world HandlerResult) x :
  ew_commands d !! (ns, cid) = Some c → fits_int4 (c_failure_attempts c + Z.b2z fa) = true →
  (∀ w, k w = (x, w)) →
  wp (db_call (λ now, set_state ns now cid st err fa);; k)
    (λ r w', r = x ∧ w_invoked w' = inv ∧ ∃ c', ew_commands (w_db w') !! (ns, cid) = Some c' ∧
       c_state c' = st ∧ c_generation c' = c_generation c ∧
       c_failure_attempts c' = c_failure_attempts c + Z.b2z fa ∧ c_last_error c' = stored_error err)
    (mk_world d [calm t] false log seen inv).
Proof.
  intros Hc Hfit Hk. destruct (set_state_ok_run t cid st err fa d c Hc Hfit) as (d' & Hs & Hd').
  apply wp_bind. eapply wp_calm; [exact Hs|]. unfold wp. rewrite Hk. simpl.
  split_and!; [done..|]. eexists. split; [exact Hd'|]. done.
Qed.

(** Every outcome of a business handler is recorded as the table says:
    success is DONE and acknowledged; an ignored event is IGNORED and
    acknowledged; a rejection, or the failure that reaches the attempt limit,
    is FAILED and given up; any other failure counts one attempt and waits for
    redelivery; waiting for dependencies, a lost lease, an unavailable
    database or Redis and a cancellation are re-raised and cost no attempt. *)
Theorem dispatch_outcomes cid gen d c i b ctx o t1 t2 t3 log seen inv :
  command ns d cid = Some (c, i, b) → c_generation c = gen → terminal (c_state c) = false →
  context ns cid (c, i, b) = Ok ctx →
  handlers !! event_type (ctx_event ctx) = Some (λ _, lift_result o) →
  fits_int4 (c_failure_attempts c) = true → fits_int4 (c_failure_attempts c + 1) = true →
  let '(expected, state, counted, error) := outcome_table (c_failure_attempts c) o in
  ∃ w' c', dispatch ns handlers max_attempts cid gen
      (mk_world d [calm t1; calm t2; calm t3] false log seen inv) = (expected, w') ∧
    w_invoked w' = inv ++ [ctx] ∧ ew_commands (w_db w') !! (ns, cid) = Some c' ∧
    c_state c' = state ∧ c_generation c' = gen ∧
    c_failure_attempts c' = c_failure_attempts c + Z.b2z counted ∧ c_last_error c' = stored_error error.
Proof.
  intros Hcmd Hgen Hterm Hctx Hh Hfit0 Hfit1. pose proof (command_lookup _ _ _ _ _ _ Hcmd) as Hc.
  destruct (set_state_ok_run t2 cid RUNNING None false d c Hc) as (d1 & Hs1 & Hc1); [simpl; by rewrite Z.add_0_r|].
  set (c1 := with_state t2 RUNNING None false c) in *.
  assert (Ha1 : c_failure_attempts c1 = c_failure_attempts c) by (simpl; lia).
  assert (Hfit : ∀ fa, fits_int4 (c_failure_attempts c1 + Z.b2z fa) = true).
  { intros [|]; rewrite Ha1; [done|]. simpl. by rewrite Z.add_0_r. }
  destruct (outcome_table (c_failure_attempts c) o) as [[[expected state] counted] error] eqn:Htable.
  set (post := λ (r : result HandlerResult) w', r = expected ∧ w_invoked w' = inv ++ [ctx] ∧
    ∃ c', ew_commands (w_db w') !! (ns, cid) = Some c' ∧ c_state c' = state ∧ c_generation c' = c_generation c1 ∧
      c_failure_attempts c' = c_failure_attempts c1 + Z.b2z counted ∧ c_last_error c' = stored_error error).
  assert (Hwp : wp (dispatch ns handlers max_attempts cid gen) post
    (mk_world d [calm t1; calm t2; calm t3] false log seen inv)).
  { unfold dispatch. apply wp_bind.
    apply (wp_calm _ _ _ _ _ _ _ _ _ (Some (c, i, b)) d); [by rewrite Hcmd|]. cbv beta iota.
    rewrite Hgen, Z.eqb_refl. cbn [negb].
    replace (settled (c_state c)) with false by by destruct (c_state c).
    rewrite bool_decide_eq_false_2 by by intros Hx; rewrite Hx in Hterm.
    apply wp_bind, wp_lift. rewrite Hctx. cbv beta iota. rewrite Hh. apply wp_bind. eapply wp_calm; [exact Hs1|].
    apply wp_bind, wp_try, wp_bind, wp_modify, wp_bind. unfold wp at 1. simpl.
    destruct o as [[]|e]; simpl.
    - simpl in Htable. injection Htable as <- <- <- <-. by apply wp_record.
    - apply wp_ret. unfold handler_failed.
      destruct e; simpl in Htable; cbn [deferrable is_database_down is_RedisError orb];
        try (injection Htable as <- <- <- <-; apply wp_throw; unfold post; simpl;
             split_and!; [done..|]; exists c1; split_and!; [done..|simpl; lia|done]);
        try (injection Htable as <- <- <- <-; by apply wp_record);
        destruct (max_attempts <=? c_failure_attempts c + 1); injection Htable as <- <- <- <-; by apply wp_record. }
  unfold wp, post in Hwp. destruct (dispatch _ _ _ _ _ _) as [r w'] eqn:Hrun. simpl in Hwp.
  destruct Hwp as (-> & Hi & c' & Hc' & Hst & Hg & Hfa & Hle).
  exists w', c'. split_and!; try done; [rewrite Hg; exact Hgen|lia].
Qed.
End Outcome.

(** ** A concrete run: the command of event 2 of [StoreDemo] is dispatched *)
Module DispatchDemo.
Import DemoCodec StoreDemo.

Definition sha (s : string) : string := "h".
Definition dumps (f : fields) : string := "{}".
Definition now_str (w : world) : string := "2026-01-01T00:00:00+00:00".
Definition token (w : world) : string := "token".

Definition cfg : ConsumerConfig :=
  mk_config "w:commands" "w:dispatch" "i-dispatch" 1 1000 30000 100 "0" (Some "w:dispatch:dlq")
    60 1 None 5 604800 "w:transport-retries" Compat.

Definition handlers : gmap string (EventContext → proc world unit) :=
  {["execution.completed" := λ _, lift_result (Ok tt)]}.

Definition msg : StreamMessage :=
  mk_message "5-0" [("schema_version", "1"); ("namespace", "w"); ("command_id", uuid_str cmd2); ("generation", "0")] false.

(** Read, lock, read, RUNNING, DONE, heartbeat, release, acknowledge. *)
Definition w0 : world :=
  mk_world d5 [calm 10; mk_tick id 11 false (Done (RInt 1)); calm 12; calm 13; calm 14; calm 15; calm 16; calm 17]
    false [] [] [].

Definition the_dispatcher : StreamMessageHandler := dispatcher sha token "w" 60 handlers 5.
Definition handled_run := dispatcher_handle sha token "w" 60 handlers 5 msg w0.
Definition run := process_message sha dumps now_str token cfg "i-dispatch-0" the_dispatcher msg w0.

Lemma handled_run_eq : dispatcher_handle sha token "w" 60 handlers 5 msg w0 = (handled_run.1, handled_run.2).
Proof. unfold handled_run. by destruct (dispatcher_handle _ _ _ _ _ _ _ _). Qed.
Lemma run_eq : process_message sha dumps now_str token cfg "i-dispatch-0"
  (dispatcher sha token "w" 60 handlers 5) msg w0 = (run.1, run.2).
Proof. unfold run, the_dispatcher. by destruct (process_message _ _ _ _ _ _ _ _ _). Qed.

Lemma w0_fair : fair grows w0.
Proof. repeat constructor; reflexivity. Qed.

Lemma handlers_ok : handlers_behave handlers.
Proof.
  intros ty f ctx w Hf Hfair. unfold handlers in Hf. apply lookup_singleton_Some in Hf as [_ <-].
  by apply wp_lift, goes_refl.
Qed.

Lemma handled_run_calls : length (w_invoked handled_run.2) = 1%nat.
Proof. vm_compute. reflexivity. Qed.

Lemma run_log : w_log run.2 = [CSetNx "w:session-lock:h" "token" 60; CEvalRelease "w:session-lock:h" "token";
  CXAck "w:commands" "w:dispatch" "5-0"].
Proof. vm_compute. reflexivity. Qed.

#[export] Instance demo_safe : SafeHandler grows the_dispatcher
  (unreadable_command "w") (finished_command "w") (hopeless_command "w").
Proof. apply dispatcher_safe, handlers_ok. Qed.
End DispatchDemo.

Import DemoCodec StoreDemo DispatchDemo.

Lemma dispatch_outcomes_witness :
  (dispatch "w" handlers 5 cmd2 0 (mk_world d5 [calm 1; calm 2; calm 3] false [] [] [])).1 = Ok (handled ACK "succeeded").
Proof.
  destruct (command "w" d5 cmd2) as [[[c i] b]|] eqn:Hcmd; [|vm_compute in Hcmd; discriminate Hcmd].
  destruct (context "w" cmd2 (c, i, b)) as [ctx|e] eqn:Hctx.
  2:{ exfalso. vm_compute in Hcmd. injection Hcmd as <- <- <-. vm_compute in Hctx. discriminate Hctx. }
  assert (Hc : c_generation c = 0 ∧ terminal (c_state c) = false ∧ c_failure_attempts c = 0)
    by (vm_compute in Hcmd; injection Hcmd as <- <- <-; split_and!; reflexivity).
  assert (Hty : event_type (ctx_event ctx) = "execution.completed")
    by (vm_compute in Hcmd; injection Hcmd as <- <- <-; vm_compute in Hctx; injection Hctx as <-; reflexivity).
  destruct Hc as (Hg & Ht & Ha).
  destruct (dispatch_outcomes "w" handlers 5 cmd2 0 d5 c i b ctx (Ok tt) 1 2 3 [] [] [] Hcmd Hg Ht Hctx)
    as (w' & c' & Hrun & _).
  - rewrite Hty. vm_compute. reflexivity.
  - rewrite Ha. vm_compute. reflexivity.
  - rewrite Ha. vm_compute. reflexivity.
  - rewrite Hrun. reflexivity.
Defined.

Lemma handler_called_only_when_due_witness : w_invoked handled_run.2 ≠ [].
Proof.
  destruct (handler_called_only_when_due sha token "w" 60 handlers 5 handlers_ok msg w0 handled_run.1 handled_run.2
    w0_fair handled_run_eq) as [Hn|(ctx & _ & _ & Hi & _)].
  - pose proof handled_run_calls as Hl. rewrite Hn in Hl. discriminate Hl.
  - rewrite Hi. discriminate.
Defined.

Lemma acked_in_run : CXAck "w:commands" "w:dispatch" "5-0" ∈ w_log run.2.
Proof. rewrite run_log. right. right. left. Qed.

Lemma ack_safety_witness : "5-0" = message_id msg.
Proof.
  exact (proj1 (ack_safety sha dumps now_str token cfg grows the_dispatcher _ _ _ "i-dispatch-0" msg w0 run.1 run.2
    (w_log run.2) (CXAck "w:commands" "w:dispatch" "5-0") "5-0" w0_fair run_eq eq_refl
    acked_in_run eq_refl)).
Defined.

Lemma command_message_safety_witness : "5-0" = message_id msg.
Proof.
  exact (proj1 (command_message_safety sha token "w" 60 handlers 5 handlers_ok dumps now_str cfg "i-dispatch-0" msg w0
    run.1 run.2 (w_log run.2) (CXAck "w:commands" "w:dispatch" "5-0") "5-0" w0_fair run_eq eq_refl
    acked_in_run eq_refl)).
Defined.
