(* ===== verification/Pipeline.v ===== *)
(** * Ingress, event router and Outbox publisher
    ([worker/ingress.py], [worker/outbox.py])

    The three loops between the Executor's event stream and the command
    stream: storing events in the Inbox, routing contiguous prefixes (with the
    Executor's history filling gaps) and publishing claimed commands. *)

From stdpp Require Import base gmap strings list relations.
From Stdlib Require Import ZArith Lia.
From S2P Require Import Prelude Text WorkerContracts WorkerStore World Consumer.
Local Open Scope Z_scope.

Section Pipeline.
Context `{EventCodec} (uuid5 : string → uuid) (namespace : string).

(** [Ingress.handle] *)
Definition ingress_handle (m : StreamMessage) : proc world HandlerResult :=
  try_except
    (event ← lift_result (from_redis (m_fields m));
     db_call (λ now, ingest namespace now event (reclaimed m));;
     mret (handled ACK "succeeded"))
    (λ e, match e with
          | KeyError _ | TypeError _ => throw (PermanentMessageError (exn_str e))
          | _ => if is_ValueError e then throw (PermanentMessageError (exn_str e))
                 else if is_database_down e then mret (handled DEFER "database_wait")
                 else throw e
          end).

Definition ingress : StreamMessageHandler := mk_handler (λ _, Ok None) ingress_handle.

(** ** Event router *)
Context (event_types : gset string) (batch_size : nat).

(** The loop over the items of a history page. *)
Fixpoint ingest_items (execution_id : uuid) (items : list json) : proc world unit :=
  match items with
  | [] => mret tt
  | item :: rest =>
      event ← lift_result (model_validate item);
      guard_or (ev_execution_id event =? execution_id)%N (ValueError "History mixed executions");;
      db_call (λ now, ingest namespace now event false);;
      ingest_items execution_id rest
  end.

(** [f"/executions/{execution_id}/events?after_sequence=...&limit=..."] is
    answered with a page of the Executor's history. *)
Definition history_page : proc world json :=
  r ← ask;
  match r with
  | RJson j => mret j
  | _ => throw (OtherException "HTTPStatusError" "history request failed")
  end.

(** The branch of [process] that reads the Executor's history. *)
Definition fill_from_history (execution_id : uuid) (row : binding) (gap : option Z) (catch_up : bool)
    (count : Z) : proc world Z :=
  page ← history_page;
  guard_or (is_dict page) (TypeError "page indices must be integers or slices, not str");;
  items ← lift_result (from_option_err (KeyError "'items'") (jget "items" page));
  let has_more := from_option json_truthy false (jget "has_more" page) in
  guard_or (negb (negb (json_truthy items) && (bool_decide (is_Some gap) || has_more)))
    (ValueError "Executor history gap is open");;
  l ← lift_result (iterate items);
  ingest_items execution_id l;;
  '(advanced, remaining_gap) ← db_call (λ now, advance uuid5 namespace now execution_id event_types batch_size);
  guard_or (negb ((advanced =? 0) && bool_decide (is_Some remaining_gap))) (ValueError "History did not advance");;
  (if catch_up && negb has_more
   then db_call (λ now, finish_catch_up namespace now execution_id (b_catch_up_version row))
   else mret tt);;
  mret (count + advanced).

(** [EventRouter.once.process]: every exception defers the execution. *)
Definition route_execution (candidate : uuid * binding) : proc world Z :=
  let '(execution_id, row) := candidate in
  try_except
    ('(count, gap) ← db_call (λ now, advance uuid5 namespace now execution_id event_types batch_size);
     let catch_up := b_caught_up_version row <? b_catch_up_version row in
     if bool_decide (is_Some (gap : option Z)) || catch_up
     then fill_from_history execution_id row gap catch_up count
     else mret count)
    (λ e, if is_Exception e
          then db_call (λ now, scan_error namespace now execution_id (exn_str e));; mret 0
          else throw e).

Fixpoint route_all (candidates : list (uuid * binding)) : proc world Z :=
  match candidates with
  | [] => mret 0
  | c :: rest => n ← route_execution c; k ← route_all rest; mret (n + k)
  end.

(** [EventRouter.once]; the executions of a batch are independent tasks, here
    one after the other, each seeing the others as other processes. *)
Definition router_once : proc world Z :=
  candidates ← db_read (λ now d, Ok (scan_candidates namespace now batch_size d));
  route_all candidates.

(** ** Outbox publisher *)
Context (command_stream : string) (lease_seconds : Z).
(** [uuid4()] for the claim, and the Outbox rows other transactions hold. *)
Context (uuid4 : world → uuid) (locked : world → gset uuid).

Definition command_entry (row : uuid * outbox_row) : fields :=
  [("schema_version", "1"); ("namespace", namespace);
   ("command_id", uuid_str row.1); ("generation", int_str (o_generation row.2))].

(** [isinstance(result, BaseException)] *)
Definition is_error (r : option exn) : bool := bool_decide (is_Some r).

(** The command ids of the rows whose result satisfies [p]. *)
Definition ids_where (p : option exn → bool) (rows : list (uuid * outbox_row))
    (results : list (option exn)) : list uuid :=
  omap (λ ro, if p ro.2 then Some ro.1.1 else None) (zip rows results).

(** [Outbox.once] *)
Definition outbox_once : proc world Z :=
  token ← gets uuid4;
  held ← gets locked;
  rows ← db_call (λ now, claim_outbox namespace now token held batch_size lease_seconds);
  if bool_decide (length rows = 0%nat) then mret 0 else
  reply ← redis_call (CPipe (map (λ row, CXAdd command_stream (command_entry row)) rows));
  results ← match reply with
            | RResults l => mret l
            | _ => throw (TypeError "object is not iterable")
            end;
  guard_or (bool_decide (length results = length rows)) (ValueError "zip() argument lengths differ");;
  let sent := ids_where (λ r, negb (is_error r)) rows results in
  let failed := ids_where is_error rows results in
  db_call (λ now, finish_publications namespace now token sent true);;
  db_call (λ now, finish_publications namespace now token failed false);;
  mret (Z.of_nat (length sent)).
End Pipeline.
