(* ===== verification/PipelineProps.v ===== *)
(** * Theorems about ingress, router and publisher

    Ingress acknowledges an event only when it is stored, what the publisher
    writes the dispatcher reads back, and the four loops of the worker together
    change the tables by transactions of [Store] alone. *)

From stdpp Require Import base gmap strings list relations.
From Stdlib Require Import ZArith Lia.
From S2P Require Import Prelude Text WorkerContracts WorkerStore WorkerStoreInv WorkerStoreAdvance WorkerStoreFrame WorkerStoreProps World Consumer ConsumerProps Dispatcher DispatcherProps Pipeline.
Local Open Scope Z_scope.
Set Default Proof Using "Type".

(** ** Ingress *)

Lemma from_redis_valid `{EventCodec} fs e : from_redis fs = Ok e → event_valid e.
Proof.
  unfold from_redis. destruct (assoc "payload" fs) as [t|]; [|done]. simpl.
  destruct (json_loads t); [|done]. simpl. apply model_validate_valid.
Qed.

Lemma from_redis_error `{EventCodec} fs x : from_redis fs = Err x → (∃ m, x = KeyError m) ∨ (∃ m, x = ValueError m).
Proof.
  unfold from_redis. destruct (assoc "payload" fs) as [t|]; simpl; [|intros [= <-]; eauto].
  destruct (json_loads t) eqn:Hj; simpl; [intros Hv%model_validate_error; eauto|intros [= <-]].
  apply json_loads_error in Hj. auto.
Qed.

(** The Inbox holds something else under the event's id or its place. *)
Definition conflicting `{EventCodec} (ns : string) (e : ExecutorEvent) (d : db) : Prop :=
  (∃ r, ew_inbox d !! (ns, event_id e) = Some r ∧ i_event r ≠ model_dump e) ∨
  (ew_inbox d !! (ns, event_id e) = None ∧
   ∃ id r, ew_inbox d !! (ns, id) = Some r ∧ i_execution_id r = ev_execution_id e ∧ i_sequence r = event_sequence e).

Lemma inbox_conflict_true ns d e : inbox_conflict ns d e = true → ew_inbox d !! (ns, event_id e) = None →
  ∃ id r, ew_inbox d !! (ns, id) = Some r ∧ i_execution_id r = ev_execution_id e ∧ i_sequence r = event_sequence e.
Proof.
  unfold inbox_conflict. intros Hc Hn. rewrite Hn in Hc.
  rewrite bool_decide_eq_false_2 in Hc by by intros [? [=]]. simpl in Hc.
  apply existsb_exists in Hc as ([id r] & Hin & Heq). apply list_elem_of_In, elem_of_rows in Hin.
  simpl in Heq. apply andb_true_iff in Heq as [?%N.eqb_eq ?%Z.eqb_eq]. eauto.
Qed.

Lemma ingest_error `{EventCodec} ns now e cu d x : ingest ns now e cu d = Err x →
  (∃ m, x = DatabaseError m) ∨
  (x = ValueError "Conflicting event identity or sequence" ∧ conflicting ns e d).
Proof.
  unfold ingest, mbind, tx_bind, tx_guard, tx_modify, tx_get, numeric_overflow, check_violation.
  destruct (fits_int8 (event_sequence e)); [|intros [= <-]; eauto].
  destruct (0 <? event_sequence e); [|intros [= <-]; eauto].
  destruct (inbox_conflict ns d e) eqn:Hc; case_bool_decide as Hs.
  - intros Hx. destruct cu; repeat case_match; simplify_eq; eauto.
  - intros [= <-]. right. split; [done|]. destruct (ew_inbox d !! (ns, event_id e)) as [r|] eqn:Hr.
    + left. exists r. split; [done|]. intros Heq. apply Hs. simpl. by rewrite Heq.
    + right. split; [done|]. by apply inbox_conflict_true.
  - intros Hx. destruct cu; repeat case_match; simplify_eq; eauto.
  - exfalso. apply Hs. simpl. by rewrite lookup_insert_eq.
Qed.

Lemma ingest_leaves_event `{EventCodec} ns now e cu d u d' : ingest ns now e cu d = Ok (u, d') →
  i_event <$> ew_inbox d' !! (ns, event_id e) = Some (model_dump e).
Proof.
  intros Hr. unfold ingest in Hr. destruct cu; tx_inv; by rewrite bool_decide_eq_true in *.
Qed.

Section Ingress.
Context `{EventCodec} (ns : string).

Definition unreadable_event (m : StreamMessage) : Prop := ∃ e, from_redis (m_fields m) = Err e.
Definition stored_event (m : StreamMessage) (d : db) : Prop :=
  ∃ e, from_redis (m_fields m) = Ok e ∧ i_event <$> ew_inbox d !! (ns, event_id e) = Some (model_dump e).
Definition conflicting_event (m : StreamMessage) (d : db) : Prop :=
  ∃ e, from_redis (m_fields m) = Ok e ∧ conflicting ns e d.

(** [goes] for a single transaction of the store. *)
Lemma db_call_goes {A} (op : timestamp → tx db A) (Q : result A → world → Prop) w : fair grows w →
  (∀ now, within grows (op now)) →
  (∀ now w1 r d', goes [] w (with_db d' w1) → w_seen w1 = w_seen w →
     (match op now (w_db w1) with Ok (a, d'') => r = Ok a ∧ d' = d'' | Err e => r = Err e ∧ d' = w_db w1 end) →
     Q r (with_db d' w1)) →
  (∀ e w', goes [] w w' → Q (Err (driver_raise e)) w') →
  wp (db_call op) Q w.
Proof.
  intros Hf Hop HQ Hdrv. apply (wp_db_call grows); [done| |].
  - intros now w1 Ht. pose proof Ht as (_ & _ & _ & Hs & _). pose proof (goes_ticked _ _ Ht) as G.
    specialize (HQ now w1). destruct (op now (w_db w1)) as [[a d']|e] eqn:Hr.
    + assert (goes [] w (with_db d' w1)) by (apply goes_with_db; [by eapply Hop|done]).
      split; [by apply HQ|intros e; by apply Hdrv].
    + assert (goes [] w (with_db (w_db w1) w1)) by (apply goes_with_db; [reflexivity|done]).
      split; [by apply HQ|intros x; by apply Hdrv].
  - intros e w1 Ht. apply Hdrv. by apply goes_ticked.
Qed.

#[export] Instance ingress_safe :
  SafeHandler grows (ingress ns) unreadable_event stored_event conflicting_event.
Proof.
  split. intros m w Hf. simpl. unfold ingress_handle. apply wp_try, wp_bind, wp_lift.
  set (post := λ (r : result HandlerResult) w', fair grows w' ∧ sends acks_nothing w w' ∧ _).
  destruct (from_redis (m_fields m)) as [e|x] eqn:Hev.
  2:{ assert (Hp : post (Err (PermanentMessageError (exn_str x))) w).
      { split_and!; [done|by apply sends_refl|left; by exists x]. }
      destruct (from_redis_error _ _ Hev) as [[s ->]|[s ->]]; apply wp_throw; exact Hp. }
  apply wp_bind, db_call_goes; [done|intros now; apply ingest_grows|..].
  - intros now w1 r d' (F & _ & S & _) Hs Hr.
    destruct (ingest ns now e (reclaimed m) (w_db w1)) as [[u d'']|x] eqn:Hrun; destruct Hr as [-> ->].
    + apply wp_ret. split_and!; [done..| |done]. intros _. apply seen_with_db; [by rewrite Hs|].
      exists e. split; [done|]. by eapply ingest_leaves_event.
    + apply ingest_error in Hrun as [[s ->]|[-> Hc]].
      * apply wp_ret. done.
      * apply wp_throw. split_and!; [done..|]. right. apply seen_with_db; [by rewrite Hs|]. by exists e.
  - intros x w' (F & _ & S & _). destruct x; (apply wp_ret || apply wp_throw); done.
Qed.

(** C34. End-to-end safety of events: when the consumer processes an Executor
    event with the ingress handler, the message is acknowledged only if a
    transaction of this run left that very event in the Inbox; it is moved to
    the dead-letter stream, in the transaction that acknowledges it, only if
    it does not parse, or conflicts with what the Inbox holds, or the
    transport retries are exhausted. An unavailable database never loses it. *)
Theorem event_message_safety sha256_hex json_dumps utc_now uuid4_str cfg consumer m w r w' calls c id :
  fair grows w →
  process_message sha256_hex json_dumps utc_now uuid4_str cfg consumer (ingress ns) m w = (r, w') →
  w_log w' = w_log w ++ calls → c ∈ calls → acks (stream cfg) (group cfg) id c = true →
  id = message_id m ∧
  ((∃ e w1 w2, from_redis (m_fields m) = Ok e ∧ w_log w `prefix_of` w_log w1 ∧ w_log w2 `prefix_of` w_log w' ∧
      seen w1 w2 (λ d, i_event <$> ew_inbox d !! (ns, event_id e) = Some (model_dump e))) ∨
   (∃ dls reason attempts error_type now, dead_letter_stream cfg = Some dls ∧
      c = dead_cmd sha256_hex json_dumps cfg consumer dls m reason attempts error_type now ∧
      ((∃ e, from_redis (m_fields m) = Err e) ∨
       (∃ e w1 w2, from_redis (m_fields m) = Ok e ∧ w_log w `prefix_of` w_log w1 ∧ w_log w2 `prefix_of` w_log w' ∧
          seen w1 w2 (conflicting ns e)) ∨
       max_retry_attempts cfg ≤ attempts))).
Proof.
  intros Hf Hrun Hlog Hc Ha.
  destruct (ack_safe sha256_hex json_dumps utc_now uuid4_str cfg grows _ _ _ _ consumer m w r w' calls c id
    Hf Hrun Hlog Hc Ha) as [-> Hj]. split; [done|].
  destruct Hj as [[_ (w1 & r2 & w2 & _ & H1 & H2 & res & _ & _ & ds & d & Hds & Hd & e & He & Hst)]|
    (dls & reason & n & et & now & H1 & H2 & Hj)].
  - left. exists e, w1, w2. split_and!; [done..|]. by exists ds, d.
  - right. exists dls, reason, n, et, now. split_and!; [done..|]. destruct Hj as [?|[?|[Hj|[? _]]]]; [done|by left| |auto].
    destruct Hj as (w1 & r2 & w2 & _ & ? & ? & ds & d & ? & ? & e & ? & ?).
    right; left. exists e, w1, w2. split_and!; [done..|]. by exists ds, d.
Qed.
End Ingress.

(** ** Every coroutine of the worker only makes steps of [Store] *)
Section System.
Context `{EventCodec} (uuid5 : string → uuid) (ns : string).

Abbreviation steps := (rtc (store_next uuid5)).

Lemma one_step (d d' : db) : store_step uuid5 ns d d' → steps d d'.
Proof. intros Hs. apply rtc_once. by exists ns. Qed.

Lemma ingest_conforms e cu : event_valid e → conforms steps (db_call (λ now, ingest ns now e cu)).
Proof.
  intros Hv. apply conforms_db_call; [apply _|]. intros now d [] d' Hr. apply one_step. by eapply step_ingest.
Qed.
Lemma advance_conforms ex types limit : conforms steps (db_call (λ now, advance uuid5 ns now ex types limit)).
Proof. apply conforms_db_call; [apply _|]. intros now d r d' Hr. apply one_step. by eapply step_advance. Qed.
Lemma set_state_conforms c st err fa : conforms steps (db_call (λ now, set_state ns now c st err fa)).
Proof. apply conforms_db_call; [apply _|]. intros now d [] d' Hr. apply one_step. by eapply step_set_state. Qed.
Lemma finish_catch_up_conforms ex v : conforms steps (db_call (λ now, finish_catch_up ns now ex v)).
Proof. apply conforms_db_call; [apply _|]. intros now d [] d' Hr. apply one_step. by eapply step_finish_catch_up. Qed.
Lemma scan_error_conforms ex s : conforms steps (db_call (λ now, scan_error ns now ex s)).
Proof. apply conforms_db_call; [apply _|]. intros now d [] d' Hr. apply one_step. by eapply step_scan_error. Qed.
Lemma claim_conforms token locked limit lease : conforms steps (db_call (λ now, claim_outbox ns now token locked limit lease)).
Proof. apply conforms_db_call; [apply _|]. intros now d r d' Hr. apply one_step. by eapply step_claim. Qed.
Lemma finish_conforms token ids sent : conforms steps (db_call (λ now, finish_publications ns now token ids sent)).
Proof. apply conforms_db_call; [apply _|]. intros now d [] d' Hr. apply one_step. by eapply step_finish. Qed.

Lemma ingress_conforms m : conforms steps (ingress_handle ns m).
Proof.
  unfold ingress_handle. conforms_split.
  apply ingest_conforms. by eapply from_redis_valid.
Qed.

Lemma ingest_items_conforms ex items : conforms steps (ingest_items ns ex items).
Proof.
  induction items as [|item items IH]; cbn [ingest_items]; conforms_split; [|exact IH].
  apply ingest_conforms. by eapply model_validate_valid.
Qed.

Lemma route_conforms types batch c : conforms steps (route_execution uuid5 ns types batch c).
Proof.
  unfold route_execution, fill_from_history, history_page. conforms_split;
    auto using ingest_items_conforms, advance_conforms, finish_catch_up_conforms, scan_error_conforms.
Qed.

Lemma route_all_conforms types batch l : conforms steps (route_all uuid5 ns types batch l).
Proof. induction l as [|c l IH]; cbn [route_all]; conforms_split; [apply route_conforms|exact IH]. Qed.

Lemma outbox_conforms batch strm lease uuid4 locked : conforms steps (outbox_once ns batch strm lease uuid4 locked).
Proof. unfold outbox_once. conforms_split; auto using claim_conforms, finish_conforms. Qed.

Lemma hold_conforms {A} sha token ttl s (body : proc world A) : conforms steps body →
  conforms steps (hold sha token ns ttl s body).
Proof. intros Hb. unfold hold, heartbeat_lost, release_session. conforms_split; exact Hb. Qed.

Lemma dispatch_conforms handlers max cid gen :
  (∀ ty f ctx, handlers !! ty = Some f → conforms steps (f ctx)) →
  conforms steps (dispatch ns handlers max cid gen).
Proof.
  intros Hh. unfold dispatch. conforms_split; try apply set_state_conforms;
    [apply conforms_modify; [apply _|done]|by eapply Hh|].
  unfold handler_failed. conforms_split; apply set_state_conforms.
Qed.

(** The whole worker keeps the tables consistent: whatever the ingress,
    the router, the publisher and the dispatcher do, in whatever order, with
    whatever faults, crashes and interleavings with other workers, the tables
    they leave are reachable by [Store] transactions alone, provided the
    business handlers change them through [Store] too. *)
Theorem worker_keeps_tables_consistent handlers max sha token ttl types batch strm lease uuid4 locked m w :
  (∀ ty f ctx, handlers !! ty = Some f → conforms steps (f ctx)) →
  fair steps w → reachable uuid5 (w_db w) →
  reachable uuid5 (w_db (ingress_handle ns m w).2) ∧
  reachable uuid5 (w_db (router_once uuid5 ns types batch w).2) ∧
  reachable uuid5 (w_db (outbox_once ns batch strm lease uuid4 locked w).2) ∧
  reachable uuid5 (w_db (dispatcher_handle sha token ns ttl handlers max m w).2).
Proof.
  intros Hh Hf Hr.
  assert (Hgo : ∀ A (c : proc world A), conforms steps c → reachable uuid5 (w_db (c w).2)).
  { intros A c Hc. unfold reachable. etransitivity; [exact Hr|]. apply (Hc w Hf). }
  split_and!; apply Hgo; [apply ingress_conforms| |apply outbox_conforms|].
  - unfold router_once. conforms_split. apply route_all_conforms.
  - unfold dispatcher_handle. conforms_split. apply hold_conforms, dispatch_conforms. exact Hh.
Qed.
End System.

(** ** Outbox publisher *)

Lemma command_entry_decodes ns (row : uuid * outbox_row) : (row.1 < 2 ^ 128)%N →
  dispatch_envelope ns (command_entry ns row) = Ok (row.1, o_generation row.2).
Proof.
  intros Hid. pose proof (uuid_parse_str _ Hid) as H1. pose proof (py_int_int_str (o_generation row.2)) as H2.
  unfold dispatch_envelope, command_entry. revert H1 H2.
  generalize (uuid_str row.1) (int_str (o_generation row.2)). intros s t H1 H2.
  cbn -[uuid_parse py_int]. rewrite String.eqb_refl. cbn -[uuid_parse py_int]. by rewrite H1, H2.
Qed.

Section Publisher.
Context `{EventCodec} (uuid5 : string → uuid) (ns : string) (batch : nat) (strm : string) (lease : Z)
        (uuid4 : world → uuid) (locked : world → gset uuid).
Hypothesis uuid5_range : ∀ s, (uuid5 s < 2 ^ 128)%N.

Abbreviation steps := (rtc (store_next uuid5)).

(** The row was claimed by this run, for a command that may be published. *)
Definition claimed_row (token : uuid) (row : uuid * outbox_row) (d : db) : Prop :=
  ew_outbox d !! (ns, row.1) = Some row.2 ∧ o_state row.2 = CLAIMED ∧ o_claim_token row.2 = Some token ∧
  c_state <$> ew_commands d !! (ns, row.1) = Some READY.

Definition published (token : uuid) (w w' : world) (c : redis_cmd) : Prop :=
  ∃ rows, c = CPipe (map (λ row, CXAdd strm (command_entry ns row)) rows) ∧ (length rows ≤ batch)%nat ∧
    ∀ row, row ∈ rows → dispatch_envelope ns (command_entry ns row) = Ok (row.1, o_generation row.2) ∧
      seen w w' (claimed_row token row).

Lemma claimed_rows now token lk d rows d' : reachable uuid5 d →
  claim_outbox ns now token lk batch lease d = Ok (rows, d') →
  (length rows ≤ batch)%nat ∧ ∀ row, row ∈ rows → claimed_row token row d' ∧
    dispatch_envelope ns (command_entry ns row) = Ok (row.1, o_generation row.2).
Proof using uuid5_range.
  intros Hreach Hrun. split.
  { unfold claim_outbox in Hrun. tx_inv. rewrite length_map. apply length_take_le_bound. }
  intros [cid o] Hin.
  destruct (claim_outbox_well_claimed _ _ _ _ _ _ _ _ _ _ _ Hrun Hin)
    as (_ & Ho & Hst & Htk & _ & o0 & cr & _ & Hc & _ & Hready & _).
  assert (Hcs : ew_commands d' = ew_commands d) by (unfold claim_outbox in Hrun; by tx_inv).
  split; [unfold claimed_row; simpl; rewrite Hcs, Hc; simpl; rewrite Hready; done|].
  apply command_entry_decodes. simpl.
  destruct (ok_command _ _ _ _ _ (reachable_store_ok _ _ Hreach) _ _ _ Hc) as [-> _]. apply uuid5_range.
Qed.

(** Coroutines that send nothing to Redis. *)
Definition silent {A} (m : proc world A) : Prop :=
  ∀ w, fair steps w → wp m (λ _ w', fair steps w' ∧ w_log w' = w_log w ∧ w_seen w `prefix_of` w_seen w') w.

Lemma silent_ret {A} (a : A) : silent (mret a).
Proof. by intros w Hf; apply wp_ret. Qed.
Lemma silent_throw {A} e : silent (@throw world A e).
Proof. by intros w Hf; apply wp_throw. Qed.
Lemma silent_guard ok e : silent (guard_or ok e).
Proof. by intros w Hf; apply wp_guard. Qed.
Lemma silent_bind {A B} (m : proc world A) (f : A → proc world B) :
  silent m → (∀ a, silent (f a)) → silent (m ≫= f).
Proof.
  intros Hm Hk w Hf. apply wp_bind. eapply wp_mono; [by apply Hm|]. intros [a|e] w1 (F1 & L1 & P1); [|done].
  eapply wp_mono; [by apply Hk|]. intros r w2 (F2 & L2 & P2).
  split_and!; [done|by rewrite L2|by etransitivity].
Qed.
Lemma silent_db_call {A} (op : timestamp → tx db A) : silent (db_call op).
Proof.
  intros w Hf. apply (wp_db_call steps); [done|..].
  - intros now w1 (F & _ & Hl & Hs & _). assert (∀ d, w_seen w `prefix_of` w_seen (with_db d w1)).
    { intros d. simpl. rewrite Hs. by apply prefix_app_r. }
    destruct (op now (w_db w1)) as [[a d']|e]; auto.
  - intros e w1 (F & _ & Hl & Hs & _). by rewrite Hs.
Qed.

(** What [outbox_once] does with the replies of the pipeline. *)
Lemma publish_tail_silent token (rows : list (uuid * outbox_row)) reply :
  silent (results ← match reply with
            | RResults l => mret l
            | _ => throw (TypeError "object is not iterable")
            end;
          guard_or (bool_decide (length results = length rows)) (ValueError "zip() argument lengths differ");;
          let sent := ids_where (λ r, negb (is_error r)) rows results in
          let failed := ids_where is_error rows results in
          db_call (λ now, finish_publications ns now token sent true);;
          db_call (λ now, finish_publications ns now token failed false);;
          mret (Z.of_nat (length sent))).
Proof.
  apply silent_bind; [destruct reply; apply silent_ret || apply silent_throw|]. intros results.
  apply silent_bind; [apply silent_guard|]. intros _. cbv zeta.
  repeat (apply silent_bind; [apply silent_db_call|]; intros _). apply silent_ret.
Qed.

Lemma outbox_once_spec w : fair steps w → reachable uuid5 (w_db w) →
  wp (outbox_once ns batch strm lease uuid4 locked)
    (λ _ w', w_seen w `prefix_of` w_seen w' ∧ sends (published (uuid4 w) w w') w w') w.
Proof using uuid5_range.
  intros Hf Hreach. unfold outbox_once. apply wp_bind, wp_gets, wp_bind, wp_gets, wp_bind.
  apply (wp_db_call steps); [done|..].
  2:{ intros e w1 (F & _ & Hl & Hs & _). split; [by rewrite Hs|by apply sends_refl]. }
  intros now w1 (F & Hst & Hl & Hs & _). destruct (claim_outbox _ _ _ _ _ _ _) as [[rows d1]|e] eqn:Hrun.
  2:{ split; [|intros x]; (split; [simpl; rewrite Hs; by apply prefix_app_r|by apply sends_refl]). }
  destruct (claimed_rows _ _ _ _ _ _ (transitivity Hreach Hst : reachable uuid5 _) Hrun) as [Hlen Hrows].
  set (w2 := with_db d1 w1). set (pipe := CPipe _).
  assert (Hp2 : w_seen w `prefix_of` w_seen w2) by (simpl; rewrite Hs; by apply prefix_app_r).
  assert (Hnone : ∀ w', w_log w' = w_log w → w_seen w2 `prefix_of` w_seen w' →
    w_seen w `prefix_of` w_seen w' ∧ sends (published (uuid4 w) w w') w w').
  { intros w' Hl' Hp. split; [by etransitivity|by apply sends_refl]. }
  assert (Hsent : ∀ w', w_log w' = w_log w ++ [pipe] → w_seen w2 `prefix_of` w_seen w' →
    w_seen w `prefix_of` w_seen w' ∧ sends (published (uuid4 w) w w') w w').
  { intros w' Hl' Hp. split; [by etransitivity|]. eapply sends_one; [exact Hl'|]. exists rows.
    split_and!; [done..|]. intros row Hrow. destruct (Hrows row Hrow) as [Hc Hd]. split; [done|].
    eapply prefix_seen; [|exact Hp]. apply seen_with_db; [by rewrite Hs|done]. }
  split; [|intros x; by apply Hnone].
  case_bool_decide as Hemp; [apply wp_ret; by apply Hnone|].
  apply wp_bind, (wp_redis_call steps); [done|..].
  - intros r w3 (F3 & _ & Hl3 & Hs3 & _). eapply wp_mono; [by apply publish_tail_silent|].
    intros x w4 (_ & Hl4 & Hp4). simpl in Hl4, Hp4. apply Hsent; [|by rewrite <- Hs3].
    rewrite Hl4, Hl3. simpl. by rewrite Hl.
  - intros e w3 (F3 & _ & Hl3 & Hs3 & _).
    split; [apply Hnone|apply Hsent]; simpl; rewrite ?Hl3, ?Hs3; simpl; rewrite ?Hl; done.
Qed.

(** What is published can be dispatched: every message the publisher
    sends, whatever faults and interleavings, is of a row that a claim of this
    very run returned (CLAIMED under its token, of a READY command), at most
    [batch] in one pipeline, and the dispatcher decodes its envelope back to
    that command and that generation. *)
Theorem published_messages_decode w r w' calls c :
  fair steps w → reachable uuid5 (w_db w) →
  outbox_once ns batch strm lease uuid4 locked w = (r, w') → w_log w' = w_log w ++ calls → c ∈ calls →
  ∃ rows, c = CPipe (map (λ row, CXAdd strm (command_entry ns row)) rows) ∧ (length rows ≤ batch)%nat ∧
    ∀ row, row ∈ rows → dispatch_envelope ns (command_entry ns row) = Ok (row.1, o_generation row.2) ∧
      seen w w' (λ d, ew_outbox d !! (ns, row.1) = Some row.2 ∧ o_state row.2 = CLAIMED ∧
        o_claim_token row.2 = Some (uuid4 w) ∧ c_state <$> ew_commands d !! (ns, row.1) = Some READY).
Proof using uuid5_range.
  intros Hf Hr Hrun Hlog Hc.
  destruct (wp_run _ _ _ _ _ (outbox_once_spec w Hf Hr) Hrun) as [_ Hs].
  exact (proj2 (sends_elem _ _ _ Hs) calls c Hlog Hc).
Qed.
End Publisher.

Lemma finish_publications_lookup ns now token ids sent d : ∃ d', finish_publications ns now token ids sent d = Ok (tt, d') ∧
  ∀ c, ew_outbox d' !! (ns, c) = (λ o, if bool_decide (o_claim_token o = Some token) && bool_decide (c ∈ ids)
    then mk_outbox (o_generation o) (if sent then SENT else PENDING) None None (touched now "worker" (o_audit o))
    else o) <$> ew_outbox d !! (ns, c).
Proof.
  unfold finish_publications. case_bool_decide as He.
  - exists d. split; [done|]. intros c. rewrite He. destruct (ew_outbox d !! (ns, c)) as [o|]; [|done]. simpl.
    by rewrite andb_false_r.
  - eexists. split; [done|]. intros c. simpl. rewrite lookup_update_where. simpl.
    by rewrite bool_decide_eq_true_2.
Qed.

Lemma claim_ids_NoDup ns now token lk batch lease d rows d' :
  claim_outbox ns now token lk batch lease d = Ok (rows, d') → NoDup rows.*1.
Proof.
  intros Hrun. unfold claim_outbox in Hrun. tx_inv. rewrite list_fmap_compose_fst.
  unfold select_page. change (map fst) with (fmap (M:=list) (@fst uuid outbox_row)). rewrite fmap_take.
  eapply sublist_NoDup; [|apply sublist_take]. rewrite order_by_Permutation.
  assert (Hnd : NoDup (filter (λ x, claimable ns d now lk x = true) (rows ns (ew_outbox d)))) by apply NoDup_filter, rows_NoDup.
  apply NoDup_fmap_2_strong; [|done]. intros [k1 v1] [k2 v2] [_ H1]%list_elem_of_filter [_ H2]%list_elem_of_filter.
  simpl. intros ->. f_equal. by eapply rows_id_unique.
Qed.

Lemma zip_elem {A B} (l : list A) (k : list B) i x y : l !! i = Some x → k !! i = Some y → (x, y) ∈ zip l k.
Proof. intros Hx Hy. apply list_elem_of_lookup. exists i. apply lookup_zip_with_Some. eauto. Qed.

(** Position [i] of the claimed rows decides whether its id is in a list
    selected by the results. *)
Lemma selected_ids (rows : list (uuid * outbox_row)) (results : list (option exn)) (p : option exn → bool) i row r :
  NoDup rows.*1 → rows !! i = Some row → results !! i = Some r →
  row.1 ∈ ids_where p rows results ↔ p r = true.
Proof.
  intros Hnd Hrow Hr. unfold ids_where. rewrite list_elem_of_omap. split.
  - intros ([row' r'] & Hin & Heq). simpl in Heq. destruct (p r') eqn:Hp; [|done]. simplify_eq.
    apply list_elem_of_lookup in Hin as [j Hj]. apply lookup_zip_with_Some in Hj as (row2 & r2 & Heq2 & H2 & H3). simplify_eq.
    assert (j = i) as ->; [|by simplify_eq].
    eapply NoDup_lookup; [exact Hnd|rewrite list_lookup_fmap, H2; simpl; reflexivity|].
    rewrite list_lookup_fmap, Hrow. simpl. congruence.
  - intros Hp. exists (row, r). split; [by eapply zip_elem|]. simpl. by rewrite Hp.
Qed.

Lemma sent_count (rows : list (uuid * outbox_row)) (results : list (option exn)) : length results = length rows →
  length (ids_where (λ r, negb (is_error r)) rows results) = length (filter (λ r, r = None) results).
Proof.
  unfold ids_where. revert rows. induction results as [|r rs IH]; intros [|row rows] Hlen; try done.
  injection Hlen as Hlen. rewrite filter_cons. destruct r; simpl; [by apply IH|]. f_equal. by apply IH.
Qed.

Section PublicationOutcome.
Context (ns : string) (batch : nat) (strm : string) (lease : Z) (uuid4 : world → uuid) (locked : world → gset uuid).

(** A tick at which nothing else happens and the call ends as [o]. *)
Definition tick_of (now : timestamp) (o : outcome) : tick := mk_tick id now false o.

Definition publish_world d t1 o t3 t4 log seen inv : world :=
  mk_world d [tick_of t1 (Done RNone); tick_of 0 o; tick_of t3 (Done RNone); tick_of t4 (Done RNone)]
    false log seen inv.

Lemma wp_tx_done {A} (m : timestamp → tx db A) Q d now sched stop log seen inv a d' : m now d = Ok (a, d') →
  Q (Ok a) (mk_world d' sched (stop || false) log (seen ++ [d']) inv) →
  wp (db_call m) Q (mk_world d (tick_of now (Done RNone) :: sched) stop log seen inv).
Proof. intros Hm HQ. unfold wp, db_call, mbind, proc_bind, draw, run_tx. simpl. by rewrite Hm. Qed.

(** Publication outcomes: when the pipeline answers, a row whose XADD
    succeeded is SENT, a row whose XADD failed is PENDING again, both without
    a claim and under the same generation, and the number sent is returned;
    when the outcome of the pipeline is unknown, the error is raised and the
    Outbox is left exactly as the claim left it, so the rows are published
    again only after the lease. *)
Theorem publication_outcomes d t1 t3 t4 (rows : list (uuid * outbox_row)) d1 log seen inv :
  let w o := publish_world d t1 o t3 t4 log seen inv in
  (∀ o, claim_outbox ns t1 (uuid4 (w o)) (locked (w o)) batch lease d = Ok (rows, d1)) → rows ≠ [] →
  (∀ results : list (option exn), length results = length rows → ∃ w',
     outbox_once ns batch strm lease uuid4 locked (w (Done (RResults results)))
       = (Ok (Z.of_nat (length (filter (λ r : option exn, r = None) results))), w') ∧
     ∀ i (row : uuid * outbox_row) (r : option exn), rows !! i = Some row → results !! i = Some r →
       ∃ o', ew_outbox (w_db w') !! (ns, row.1) = Some o' ∧
         o_state o' = (if r then PENDING else SENT) ∧ o_claim_token o' = None ∧ o_generation o' = o_generation row.2) ∧
  (∀ o e, o = Refused e ∨ o = Lost e → ∃ w',
     outbox_once ns batch strm lease uuid4 locked (w o) = (Err (driver_raise e), w') ∧
     ew_outbox (w_db w') = ew_outbox d1).
Proof.
  intros w Hclaim Hne.
  assert (Hlen0 : bool_decide (length rows = 0%nat) = false).
  { apply bool_decide_eq_false. by rewrite length_zero_iff_nil. }
  split.
  - intros results Hlen.
    set (post := λ (r : result Z) (w' : world),
      r = Ok (Z.of_nat (length (filter (λ r : option exn, r = None) results))) ∧
      ∀ i (row : uuid * outbox_row) (r : option exn), rows !! i = Some row → results !! i = Some r →
       ∃ o', ew_outbox (w_db w') !! (ns, row.1) = Some o' ∧
         o_state o' = (if r then PENDING else SENT) ∧ o_claim_token o' = None ∧ o_generation o' = o_generation row.2).
    assert (Hwp : wp (outbox_once ns batch strm lease uuid4 locked) post (w (Done (RResults results)))).
    2:{ unfold wp, post in Hwp. destruct (outbox_once _ _ _ _ _ _ _) as [r w'] eqn:Hrun. destruct Hwp as [Hr Hrows].
        simpl in Hr. subst r. by exists w'. }
    unfold outbox_once. apply wp_bind, wp_gets, wp_bind, wp_gets, wp_bind.
    eapply wp_tx_done; [apply Hclaim|]. rewrite Hlen0.
    apply wp_bind. unfold wp at 1, redis_call, mbind at 1, proc_bind at 1. simpl.
    apply wp_bind, wp_ret, wp_bind. apply wp_guard; [|by rewrite bool_decide_eq_true_2]. intros _. cbv zeta.
    set (token := uuid4 _). set (sent := ids_where _ _ _). set (failed := ids_where _ _ _).
    destruct (finish_publications_lookup ns t3 token sent true d1) as (d2 & Hf2 & Hl2).
    destruct (finish_publications_lookup ns t4 token failed false d2) as (d3 & Hf3 & Hl3).
    apply wp_bind. eapply wp_tx_done; [exact Hf2|]. apply wp_bind. eapply wp_tx_done; [exact Hf3|].
    apply wp_ret. split.
    + do 2 f_equal. by apply sent_count.
    + intros i row r Hrow Hr. simpl.
      pose proof (claim_ids_NoDup _ _ _ _ _ _ _ _ _ (Hclaim (Done (RResults results)))) as Hnd.
      assert (Hin : (row.1, row.2) ∈ rows) by (rewrite <- surjective_pairing; by eapply list_elem_of_lookup_2).
      destruct (claim_outbox_well_claimed _ _ _ _ _ _ _ _ _ _ _ (Hclaim (Done (RResults results))) Hin)
        as (_ & Ho & _ & Htk & _).
      pose proof (selected_ids rows results _ i row r Hnd Hrow Hr : row.1 ∈ sent ↔ _) as Hsent.
      pose proof (selected_ids rows results _ i row r Hnd Hrow Hr : row.1 ∈ failed ↔ _) as Hfailed.
      rewrite Hl3, Hl2, Ho. simpl. change (o_claim_token row.2 = Some token) in Htk.
      rewrite (bool_decide_eq_true_2 (o_claim_token row.2 = Some token)) by done.
      destruct r as [x|].
      * rewrite (bool_decide_eq_false_2 (row.1 ∈ sent)) by (rewrite Hsent; done). simpl.
        rewrite (bool_decide_eq_true_2 (o_claim_token row.2 = Some token)), (bool_decide_eq_true_2 (row.1 ∈ failed)) by (done || by apply Hfailed).
        by eexists.
      * rewrite (bool_decide_eq_true_2 (row.1 ∈ sent)) by by apply Hsent. simpl. by eexists.
  - intros o e Ho.
    assert (Hwp : wp (outbox_once ns batch strm lease uuid4 locked)
      (λ r w', r = Err (driver_raise e) ∧ ew_outbox (w_db w') = ew_outbox d1) (w o)).
    2:{ unfold wp in Hwp. destruct (outbox_once _ _ _ _ _ _ _) as [r w'] eqn:Hrun. destruct Hwp as [Hr Hd].
        simpl in Hr. subst r. by exists w'. }
    unfold outbox_once. apply wp_bind, wp_gets, wp_bind, wp_gets, wp_bind.
    eapply wp_tx_done; [apply Hclaim|]. rewrite Hlen0.
    apply wp_bind. unfold wp at 1, redis_call, mbind at 1, proc_bind at 1. simpl.
    destruct Ho as [->| ->]; done.
Qed.
End PublicationOutcome.

(** An event whose sequence does not fit [bigint] is never given up: the
    database refuses it, the ingress handler takes that for an unavailable
    database and defers, so the message is neither acknowledged nor
    dead-lettered however often it is delivered. *)
Theorem oversized_sequence_deferred `{EventCodec} ns m e w r w' : fair grows w →
  from_redis (m_fields m) = Ok e → int8_max < event_sequence e →
  ingress_handle ns m w = (r, w') →
  r = Ok (handled DEFER "database_wait") ∨ ∃ x, r = Err (driver_raise x).
Proof.
  intros Hf He Hmax. apply (wp_run _ (λ r _, r = Ok (handled DEFER "database_wait") ∨ ∃ x, r = Err (driver_raise x))).
  unfold ingress_handle.
  apply wp_try, wp_bind, wp_lift. rewrite He. apply wp_bind, db_call_goes; [done|intros now; apply ingest_grows|..].
  - intros now w1 x d' _ _ Hr.
    assert (Hov : ingest ns now e (reclaimed m) (w_db w1) = Err numeric_overflow).
    { unfold ingest, mbind, tx_bind, tx_guard. replace (fits_int8 (event_sequence e)) with false; [done|].
      symmetry. unfold fits_int8. apply andb_false_iff. right. lia. }
    rewrite Hov in Hr. destruct Hr as [-> ->]. apply wp_ret. by left.
  - intros x w1 _. destruct x; (apply wp_ret || apply wp_throw); eauto.
Qed.

(** ** The theorems at concrete runs *)
Module PipelineDemo.
Import DemoCodec StoreDemo.

Definition sha (s : string) : string := "h".
Definition dumps (f : fields) : string := "{}".
Definition now_str (w : world) : string := "2026-01-01T00:00:00+00:00".
Definition token_str (w : world) : string := "token".

Definition cfg : ConsumerConfig :=
  mk_config "executor.events" "w:ingress" "i-ingress" 1 1000 30000 100 "0" (Some "w:ingress:dlq")
    60 1 None 5 604800 "w:transport-retries" Compat.

Definition event_fields_of (n seq : string) : fields :=
  [("event_id", "00000000-0000-0000-0000-0000000000" +:+ n); ("execution_id", uuid_str 7);
   ("event_type", "execution.completed"); ("event_sequence", seq); ("schema_version", "1.0");
   ("occurred_at", "2026-01-01T00:00:00Z"); ("payload", "{}")].
Definition msg : StreamMessage := mk_message "9-0" (event_fields_of "99" "5") false.
Definition big : StreamMessage := mk_message "9-1" (event_fields_of "98" "9223372036854775808") false.

Definition w0 : world := mk_world d8 [tick_of 1 (Done RNone); tick_of 2 (Done (RInt 1))] false [] [] [].
Definition run := process_message sha dumps now_str token_str cfg "i-ingress-0" (ingress "w") msg w0.

Lemma ingress_run_eq : process_message sha dumps now_str token_str cfg "i-ingress-0" (ingress "w") msg w0 = (run.1, run.2).
Proof. unfold run. by destruct (process_message _ _ _ _ _ _ _ _ _). Qed.
Lemma ingress_run_log : w_log run.2 = [CXAck "executor.events" "w:ingress" "9-0"].
Proof. vm_compute. reflexivity. Qed.
Lemma ingress_fair : fair grows w0.
Proof. repeat constructor; reflexivity. Qed.
Lemma ingress_fair_steps : fair (rtc (store_next uuid5)) w0.
Proof. repeat constructor; reflexivity. Qed.

Definition tok (w : world) : uuid := 77.
Definition no_locks (w : world) : gset uuid := ∅.
Definition wp0 (o : outcome) : world := publish_world d4 6 o 8 9 [] [] [].
Definition pub := outbox_once "w" 10 "w:commands" 30 tok no_locks (wp0 (Done (RResults [None]))).
Lemma pub_eq : outbox_once "w" 10 "w:commands" 30 tok no_locks (wp0 (Done (RResults [None]))) = (pub.1, pub.2).
Proof. unfold pub. by destruct (outbox_once _ _ _ _ _ _ _). Qed.
Lemma wp0_fair o : fair (rtc (store_next uuid5)) (wp0 o).
Proof. repeat constructor; reflexivity. Qed.
Lemma uuid5_small s : (uuid5 s < 2 ^ 128)%N.
Proof. unfold uuid5. etransitivity; [apply N.mod_lt; done|done]. Qed.
Definition claimed : list (uuid * outbox_row) :=
  match claim_outbox "w" 6 77 ∅ 10 30 d4 with Ok (rows, _) => rows | Err _ => [] end.
Definition d4c : db := commit (claim_outbox "w" 6 77 ∅ 10 30) d4.
End PipelineDemo.

Import DemoCodec StoreDemo PipelineDemo.

Lemma event_message_safety_witness : "9-0" = message_id msg.
Proof.
  exact (proj1 (event_message_safety "w" sha dumps now_str token_str cfg "i-ingress-0" msg w0 run.1 run.2
    (w_log run.2) (CXAck "executor.events" "w:ingress" "9-0") "9-0" ingress_fair ingress_run_eq eq_refl
    ltac:(rewrite ingress_run_log; left) eq_refl)).
Defined.

Lemma worker_keeps_tables_consistent_witness : reachable uuid5 (w_db (ingress_handle "w" msg w0).2).
Proof.
  refine (proj1 (worker_keeps_tables_consistent uuid5 "w" ∅ 5 sha token_str 60 types 10 "w:commands" 30 tok no_locks msg w0
    _ ingress_fair_steps d8_reachable)).
  intros ty f ctx Hf. rewrite lookup_empty in Hf. discriminate Hf.
Defined.

Lemma published_messages_decode_witness :
  ∃ rows, CPipe (map (λ row, CXAdd "w:commands" (command_entry "w" row)) claimed)
    = CPipe (map (λ row, CXAdd "w:commands" (command_entry "w" row)) rows) ∧ (length rows ≤ 10)%nat.
Proof.
  destruct (published_messages_decode uuid5 "w" 10 "w:commands" 30 tok no_locks uuid5_small
    (wp0 (Done (RResults [None]))) pub.1 pub.2 (w_log pub.2)
    (CPipe (map (λ row, CXAdd "w:commands" (command_entry "w" row)) claimed)) (wp0_fair _) d4_reachable pub_eq eq_refl)
    as (rows & Hr & Hl & _).
  - assert (Hlog : w_log pub.2 = [CPipe (map (λ row, CXAdd "w:commands" (command_entry "w" row)) claimed)])
      by (vm_compute; reflexivity).
    rewrite Hlog. left.
  - exists rows. exact (conj Hr Hl).
Defined.

Lemma publication_outcomes_witness :
  ∃ w', outbox_once "w" 10 "w:commands" 30 tok no_locks (wp0 (Done (RResults [None]))) = (Ok 1, w').
Proof.
  destruct (proj1 (publication_outcomes "w" 10 "w:commands" 30 tok no_locks d4 6 8 9 claimed d4c [] [] []
    ltac:(intros o; vm_compute; reflexivity) ltac:(vm_compute; discriminate)) [None] ltac:(vm_compute; reflexivity))
    as (w' & Hw & _).
  exists w'. exact Hw.
Defined.

Lemma oversized_sequence_deferred_witness :
  (ingress_handle "w" big w0).1 = Ok (handled DEFER "database_wait") ∨ ∃ x, (ingress_handle "w" big w0).1 = Err (driver_raise x).
Proof.
  destruct (from_redis (m_fields big)) as [e|x] eqn:He; [|vm_compute in He; discriminate He].
  refine (oversized_sequence_deferred "w" big e w0 _ (ingress_handle "w" big w0).2 ingress_fair He _ _).
  - vm_compute in He. injection He as <-. vm_compute. reflexivity.
  - destruct (ingress_handle "w" big w0). reflexivity.
Defined.
