(* ===== verification/RedisStreams.v ===== *)
(** * Stream ids, the claim page and the lock scripts
    ([worker/redis_streams.py], the Lua scripts of [worker/consumer.py])

    Redis itself is an interface: [RedisKeys] for the string keys the lock
    and retry scripts touch, [RedisPel] for the pending list of one consumer
    group. The scripts are translated call by call against those interfaces. *)

From stdpp Require Import base gmap strings list sorting relations.
From Stdlib Require Import Ascii ZArith Lia.
From S2P Require Import Prelude Text.
Local Open Scope Z_scope.
Set Default Proof Using "Type".

(** ** Stream ids *)

Definition max_id_part : Z := 2 ^ 64 - 1.

(** [value.split("-")] *)
Fixpoint split_dash (s : string) : list string :=
  match s with
  | EmptyString => [EmptyString]
  | String c s' =>
      if decide (c = "-"%char) then EmptyString :: split_dash s'
      else match split_dash s' with
           | [] => [String c EmptyString]
           | p :: ps => String c p :: ps
           end
  end.

Definition id_text (id : Z * Z) : string := int_str id.1 +:+ "-" +:+ int_str id.2.

Definition id_part (z : Z) : bool := (0 <=? z) && (z <=? max_id_part).
Definition valid_id (id : Z * Z) : Prop := 0 ≤ id.1 ≤ max_id_part ∧ 0 ≤ id.2 ≤ max_id_part.

Definition bad_id : exn := ValueError "Stream ID components must be uint64".

(** The components of an id, as [next_stream_id] reads them. *)
Definition parse_id (value : string) : result (Z * Z) :=
  match split_dash value with
  | [a; b] =>
      m ← from_option_err (ValueError "invalid literal for int()") (py_int a);
      s ← from_option_err (ValueError "invalid literal for int()") (py_int b);
      if id_part m && id_part s then Ok (m, s) else Err bad_id
  | _ => Err (ValueError "wrong number of values to unpack")
  end.

(** [next_stream_id] *)
Definition next_stream_id (value : string) : result (option string) :=
  '(milliseconds, sequence) ← parse_id value;
  if sequence <? max_id_part then Ok (Some (id_text (milliseconds, sequence + 1)))
  else if milliseconds <? max_id_part then Ok (Some (id_text (milliseconds + 1, 0)))
  else Ok None.

Lemma split_dash_digits s : string_all (λ c, c ≠ "-"%char) s → split_dash s = [s].
Proof. induction s as [|c s IH]; [done|]. intros [Hc Hs]. simpl. rewrite decide_False, IH by done. done. Qed.

Lemma split_dash_app s t : string_all (λ c, c ≠ "-"%char) s → split_dash (s +:+ "-" +:+ t) = s :: split_dash t.
Proof.
  induction s as [|c s IH]; intros Hs; [done|]. destruct Hs as [Hc Hs].
  change (split_dash (String c (s +:+ "-" +:+ t)) = String c s :: split_dash t).
  simpl split_dash. rewrite decide_False by done. by rewrite IH.
Qed.

Lemma int_str_digits z : 0 ≤ z → string_all (λ c, c ≠ "-"%char) (int_str z).
Proof.
  intros Hz. unfold int_str. destruct z as [|p|p]; [| |lia];
    (eapply string_all_impl; [|apply put_digits_all; [lia|done]]);
    intros c (d & Hd & ->); apply digit_char_neq; (done || lia).
Qed.

Lemma parse_id_text id : valid_id id → parse_id (id_text id) = Ok id.
Proof.
  intros [H1 H2]. unfold parse_id, id_text.
  rewrite split_dash_app, split_dash_digits by (apply int_str_digits; lia).
  rewrite !py_int_int_str. simpl. unfold id_part.
  rewrite !(proj2 (Z.leb_le _ _)) by lia. by destruct id.
Qed.

Lemma next_stream_id_spec id : valid_id id →
  (next_stream_id (id_text id) = Ok None ∧ ∀ id', valid_id id' → key_le id' id) ∨
  (∃ id', next_stream_id (id_text id) = Ok (Some (id_text id')) ∧ valid_id id' ∧ key_lt id id' ∧
     ∀ x, valid_id x → key_lt id x → key_le id' x).
Proof.
  intros Hv. unfold next_stream_id. rewrite parse_id_text by done. destruct id as [m s].
  unfold valid_id, key_lt, key_le in *. simpl in *.
  destruct (Z.ltb_spec s max_id_part) as [Hs|Hs].
  { right. eexists. split; [reflexivity|]. simpl. split_and!; try lia; intros [x1 x2]; simpl; lia. }
  destruct (Z.ltb_spec m max_id_part) as [Hm|Hm].
  { right. eexists. split; [reflexivity|]. simpl. unfold max_id_part in *. split_and!; try lia; intros [x1 x2]; simpl; lia. }
  left. split; [done|]. intros [x1 x2]. simpl. lia.
Qed.

(** [next_stream_id] is the successor: for every id of the id space it
    gives the text of the least id above it, and [None] exactly for the last
    id; anything that is not two uint64 components is a [ValueError]. *)
Theorem next_stream_id_successor id : valid_id id →
  (next_stream_id (id_text id) = Ok None ∧ ∀ id', valid_id id' → key_le id' id) ∨
  (∃ id', next_stream_id (id_text id) = Ok (Some (id_text id')) ∧ valid_id id' ∧ key_lt id id' ∧
     ∀ x, valid_id x → key_lt id x → key_le id' x).
Proof. apply next_stream_id_spec. Qed.

(** ** Lock and retry scripts *)

(** The string commands of Redis the scripts call, as documented: GET, SET
    with NX and EX, EXPIRE, DEL and INCR of one key leave the other keys
    alone. Expiry is the server's business: [live] may lose a key between two
    calls, and nothing here forbids it. *)
Class RedisKeys := {
  kv : Type;
  kv_get : kv → string → option string;
  kv_set_nx : string → string → Z → kv → bool * kv;
  kv_expire : string → Z → kv → Z * kv;
  kv_del : string → kv → Z * kv;
  kv_incr : string → kv → result (Z * kv);
  set_nx_get : ∀ k v ttl s, kv_set_nx k v ttl s =
    match kv_get s k with Some _ => (false, s) | None => (true, (kv_set_nx k v ttl s).2) end;
  set_nx_lookup : ∀ k v ttl s k', kv_get s k = None →
    kv_get (kv_set_nx k v ttl s).2 k' = if decide (k' = k) then Some v else kv_get s k';
  expire_get : ∀ k ttl s k', kv_get (kv_expire k ttl s).2 k' = kv_get s k';
  expire_reply : ∀ k ttl s, 0 < ttl → (kv_expire k ttl s).1 = if kv_get s k then 1 else 0;
  del_get : ∀ k s k', kv_get (kv_del k s).2 k' = if decide (k' = k) then None else kv_get s k';
  del_reply : ∀ k s, (kv_del k s).1 = if kv_get s k then 1 else 0;
  incr_get : ∀ k s n s', kv_incr k s = Ok (n, s') →
    n = default 0 (kv_get s k ≫= py_int) + 1 ∧
    ∀ k', kv_get s' k' = if decide (k' = k) then Some (int_str n) else kv_get s k'
}.

Section Scripts.
Context `{RedisKeys}.

(** [_RENEW_LOCK_SCRIPT] *)
Definition renew_script (key token : string) (ttl : Z) (s : kv) : Z * kv :=
  if decide (kv_get s key = Some token) then kv_expire key ttl s else (0, s).

(** [_RELEASE_LOCK_SCRIPT] *)
Definition release_script (key token : string) (s : kv) : Z * kv :=
  if decide (kv_get s key = Some token) then kv_del key s else (0, s).

(** [_INCREMENT_RETRY_SCRIPT] *)
Definition increment_script (key : string) (ttl : Z) (s : kv) : result (Z * kv) :=
  match kv_incr key s with
  | Ok (attempts, s1) => Ok (attempts, (kv_expire key ttl s1).2)
  | Err e => Err e
  end.

(** A step of anyone who follows the lock protocol with the token [t] (and of
    the server, which may expire keys). *)
Inductive lock_step : string → kv → kv → Prop :=
| lock_acquire t k ttl s : lock_step t s (kv_set_nx k t ttl s).2
| lock_renew t k ttl s : lock_step t s (renew_script k t ttl s).2
| lock_release t k s : lock_step t s (release_script k t s).2.

(** The lock scripts exclude each other by token: while a key holds one
    process's token, acquiring it fails for everyone, no step of a process
    with another token (acquire, renew, release) changes it, renewing and
    releasing succeed for the holder only, and after the holder's release the
    key is free. *)
Theorem lock_token_exclusion key token s : kv_get s key = Some token →
  (∀ v ttl, kv_set_nx key v ttl s = (false, s)) ∧
  (∀ t s', t ≠ token → lock_step t s s' → kv_get s' key = Some token) ∧
  (∀ t ttl, 0 < ttl → (renew_script key t ttl s).1 = 1 ↔ t = token) ∧
  (∀ t, (release_script key t s).1 = 1 ↔ t = token) ∧
  kv_get (release_script key token s).2 key = None.
Proof.
  intros Hk. split_and!.
  - intros v ttl. rewrite set_nx_get. by rewrite Hk.
  - intros t s' Hne Hstep. destruct Hstep as [t k ttl s|t k ttl s|t k s].
    + rewrite set_nx_get. destruct (kv_get s k) eqn:Hg; simpl; [done|].
      rewrite set_nx_lookup by done. rewrite decide_False; [done|congruence].
    + unfold renew_script. case_decide; simpl; [by rewrite expire_get|done].
    + unfold release_script. case_decide; simpl; [|done]. rewrite del_get, decide_False; [done|congruence].
  - intros t ttl Httl. unfold renew_script. case_decide as Ht; simpl.
    + rewrite expire_reply, Hk by done. split; [congruence|done].
    + split; [done|]. intros ->. by destruct Ht.
  - intros t. unfold release_script. case_decide as Ht; simpl.
    + rewrite del_reply, Hk. split; [congruence|done].
    + split; [done|]. intros ->. by destruct Ht.
  - unfold release_script. rewrite decide_True by done. by rewrite del_get, decide_True.
Qed.
End Scripts.

(** ** The claim page *)

Abbreviation entry_fields := (list (string * string)) (only parsing).

(** [a] is not above [b] in the id order. *)
Definition id_le (a b : string) : bool :=
  match parse_id a, parse_id b with
  | Ok x, Ok y => bool_decide (key_le x y)
  | _, _ => false
  end.

(** The pending list of one group and the bodies of its stream, with the
    commands the script calls, as documented: XPENDING lists the pending
    entries from an id on in id order with their idle times; XCLAIM returns a
    live entry and resets its idle time, and returns nothing or a nil for a
    deleted body (which newer servers also drop from the list); XRANGE reads
    bodies; XACK drops entries. *)
Class RedisPel := {
  pst : Type;
  pel : pst → list (string * Z);
  body : pst → string → option entry_fields;
  xpending : string → Z → pst → list (string * Z);
  xclaim : Z → string → pst → list (option (string * entry_fields)) * pst;
  xrange_id : string → pst → list (string * entry_fields);
  xack : string → pst → pst;
  xpending_page : ∀ start count s, xpending start count s =
    take (Z.to_nat count) (filter (λ e, id_le start e.1 = true) (pel s));
  xrange_body : ∀ id s, xrange_id id s = match body s id with Some f => [(id, f)] | None => [] end;
  xclaim_live : ∀ min id idle f s, (id, idle) ∈ pel s → min ≤ idle → body s id = Some f →
    (xclaim min id s).1 = [Some (id, f)] ∧ ∀ x, x ∈ (pel (xclaim min id s).2).*1 ↔ x ∈ (pel s).*1;
  xclaim_deleted : ∀ min id s, body s id = None →
    Forall (λ m, m = None) (xclaim min id s).1 ∧
    ∀ x, x ≠ id → x ∈ (pel (xclaim min id s).2).*1 ↔ x ∈ (pel s).*1;
  xclaim_others : ∀ min id s x idle, x ≠ id → (x, idle) ∈ pel (xclaim min id s).2 ↔ (x, idle) ∈ pel s;
  xclaim_body : ∀ min id s, body (xclaim min id s).2 = body s;
  xack_pel : ∀ id s, pel (xack id s) = filter (λ e, e.1 ≠ id) (pel s);
  xack_body : ∀ id s, body (xack id s) = body s
}.

Section ClaimPage.
Context `{RedisPel}.

(** The [for] loop of [_CLAIM_PAGE_SCRIPT]. *)
Fixpoint claim_entries (min_idle : Z) (pending : list (string * Z))
    (messages : list (string * entry_fields)) (last : string) (s : pst)
    : string * list (string * entry_fields) * pst :=
  match pending with
  | [] => (last, messages, s)
  | (id, idle) :: rest =>
      if min_idle <=? idle then
        let '(claimed, s1) := xclaim min_idle id s in
        match claimed with
        | Some m :: _ => claim_entries min_idle rest (messages ++ [m]) id s1
        | _ =>
            if bool_decide (length (xrange_id id s1) = 0%nat)
            then claim_entries min_idle rest messages id (xack id s1)
            else claim_entries min_idle rest messages id s1
        end
      else claim_entries min_idle rest messages id s
  end.

(** [_CLAIM_PAGE_SCRIPT]: last id, number scanned, messages. *)
Definition claim_page_script (min_idle : Z) (cursor : string) (count : Z) (s : pst)
    : string * Z * list (string * entry_fields) * pst :=
  let pending := xpending cursor count s in
  let '(last, messages, s') := claim_entries min_idle pending [] "0-0" s in
  (last, Z.of_nat (length pending), messages, s').

(** [claim_pending_page] *)
Definition claim_pending_page (min_idle : Z) (cursor : string) (count : Z) (s : pst)
    : result (string * list (string * entry_fields) * pst) :=
  raise_if (negb ((1 <=? count) && (count <=? 500))) (ValueError "Claim page size must be between 1 and 500");;
  raise_if (min_idle <? 1) (ValueError "Claim idle time must be positive");;
  let '(last, scanned, messages, s') := claim_page_script min_idle cursor count s in
  next_cursor ← (if scanned =? count then next_stream_id last else Ok None);
  Ok (default "0-0" next_cursor, messages, s').

(** A pending entry that is due, and one whose body was deleted. *)
Definition due (min_idle : Z) (s : pst) (e : string * Z) : option (string * entry_fields) :=
  if min_idle <=? e.2 then pair e.1 <$> body s e.1 else None.
Definition vanished (min_idle : Z) (s : pst) (e : string * Z) : Prop :=
  min_idle ≤ e.2 ∧ body s e.1 = None.

Lemma due_same_body min s s' : body s' = body s → due min s' = due min s.
Proof. intros Hb. unfold due. by rewrite Hb. Qed.

(** One entry of the loop. *)
Lemma claim_entry min id idle rest msgs last0 s : (id, idle) ∈ pel s →
  ∃ s', claim_entries min ((id, idle) :: rest) msgs last0 s
    = claim_entries min rest (msgs ++ option_list (due min s (id, idle))) id s' ∧
  body s' = body s ∧
  (∀ x i, x ≠ id → (x, i) ∈ pel s' ↔ (x, i) ∈ pel s) ∧
  (id ∈ (pel s').*1 ↔ ¬ vanished min s (id, idle)).
Proof.
  intros Hin. assert (Hid : id ∈ (pel s).*1) by (apply list_elem_of_fmap; by exists (id, idle)).
  cbn [claim_entries]. unfold due, vanished. cbn [fst snd].
  destruct (Z.leb_spec min idle) as [Hdue|Hdue].
  2:{ exists s. rewrite app_nil_r. split_and!; [done..|]. split; [lia|done]. }
  destruct (xclaim min id s) as [claimed s1] eqn:Hcl.
  pose proof (xclaim_body min id s) as Hb1. pose proof (xclaim_others min id s) as Ho1. rewrite Hcl in Hb1, Ho1. simpl in Hb1, Ho1.
  destruct (body s id) as [f|] eqn:Hbody.
  - destruct (xclaim_live min id idle f s Hin Hdue Hbody) as [Hc Hp]. rewrite Hcl in Hc, Hp. simpl in Hc, Hp. subst claimed.
    exists s1. split_and!; [done..|]. rewrite Hp. split; [by intros _ []|done].
  - destruct (xclaim_deleted min id s Hbody) as [Hc _]. rewrite Hcl in Hc. simpl in Hc.
    assert (Hx : bool_decide (length (xrange_id id s1) = 0%nat) = true) by (rewrite xrange_body, Hb1, Hbody; done).
    exists (xack id s1). split_and!.
    + destruct claimed as [|[m|] cl]; [|by inversion Hc|]; rewrite Hx; simpl; by rewrite app_nil_r.
    + by rewrite xack_body.
    + intros x i Hne. rewrite xack_pel, list_elem_of_filter. simpl. rewrite Ho1 by done. naive_solver.
    + split; [|intros Hn; by destruct Hn]. rewrite xack_pel, list_elem_of_fmap.
      intros ([x i] & -> & [Hne _]%list_elem_of_filter). by destruct Hne.
Qed.

Lemma claim_entries_spec min pending msgs last0 s : NoDup pending.*1 → (∀ e, e ∈ pending → e ∈ pel s) →
  ∃ s', claim_entries min pending msgs last0 s
    = (default last0 (last pending.*1), msgs ++ omap (due min s) pending, s') ∧
  body s' = body s ∧
  ∀ x, x ∈ (pel s').*1 ↔ x ∈ (pel s).*1 ∧ ¬ ∃ i, (x, i) ∈ pending ∧ vanished min s (x, i).
Proof.
  revert msgs last0 s. induction pending as [|[id idle] rest IH]; intros msgs last0 s Hnd Hin.
  { exists s. simpl. rewrite app_nil_r. split_and!; [done..|]. intros x. split; [|tauto].
    intros Hx. split; [done|]. intros (i & Hi & _). by apply not_elem_of_nil in Hi. }
  simpl in Hnd. apply NoDup_cons in Hnd as [Hnew Hnd].
  destruct (claim_entry min id idle rest msgs last0 s) as (s1 & Heq & Hb1 & Ho1 & Hid1); [apply Hin; left|].
  destruct (IH (msgs ++ option_list (due min s (id, idle))) id s1 Hnd) as (s2 & Heq2 & Hb2 & Hp2).
  { intros [x i] Hx. apply Ho1; [|apply Hin; by right]. intros ->. apply Hnew, list_elem_of_fmap. by exists (id, i). }
  exists s2. split_and!.
  - rewrite Heq, Heq2, (due_same_body min s s1 Hb1). f_equal. f_equal.
    + simpl. destruct rest as [|e rest]; [done|]. cbn [fmap list_fmap]. by destruct (last _) eqn:Hl; [|by apply last_None in Hl].
    + cbn [omap list_omap]. destruct (due min s (id, idle)); simpl; by rewrite <- ?app_assoc, ?app_nil_r.
  - congruence.
  - intros x. rewrite Hp2.
    assert (Hv : ∀ e, vanished min s1 e ↔ vanished min s e) by (intros e; unfold vanished; by rewrite Hb1).
    setoid_rewrite Hv. destruct (decide (x = id)) as [->|Hne].
    + rewrite Hid1. assert (Hidx : id ∈ (pel s).*1) by (apply list_elem_of_fmap; exists (id, idle); split; [done|apply Hin; left]).
      split.
      * intros [Hn _]. split; [done|]. intros (i & [Heqi|Hi]%elem_of_cons & Hvi); [by simplify_eq|].
        apply Hnew, list_elem_of_fmap. by exists (id, i).
      * intros [_ Hn]. split; [intros Hvi; apply Hn; exists idle; split; [left|done]|].
        intros (i & Hi & Hvi). apply Hn. exists i. split; [by right|done].
    + assert (Hxs : x ∈ (pel s1).*1 ↔ x ∈ (pel s).*1).
      { rewrite !list_elem_of_fmap. split; intros ([x' i] & -> & Hx'); exists (x', i); (split; [done|]); by apply Ho1. }
      rewrite Hxs. apply and_iff_compat_l. apply not_iff_compat. split.
      * intros (i & Hi & Hvi). exists i. split; [by right|done].
      * intros (i & [Heqi|Hi]%elem_of_cons & Hvi); [by simplify_eq|]. by exists i.
Qed.

Definition key_of (x : string) : Z * Z := match parse_id x with Ok k => k | Err _ => (0, 0) end.

(** XPENDING lists ids of the id space, each once, in id order. *)
Definition pel_sorted (s : pst) : Prop :=
  (∀ e, e ∈ pel s → ∃ k, valid_id k ∧ e.1 = id_text k) ∧
  StronglySorted (λ a b : string * Z, key_lt (key_of a.1) (key_of b.1)) (pel s).

Lemma key_of_text k : valid_id k → key_of (id_text k) = k.
Proof. intros Hk. unfold key_of. by rewrite parse_id_text. Qed.

Lemma pel_sorted_NoDup (l : list (string * Z)) :
  StronglySorted (λ a b : string * Z, key_lt (key_of a.1) (key_of b.1)) l → NoDup l.*1.
Proof.
  induction 1 as [|a l Hl IH Ha]; [constructor|]. simpl. constructor; [|done].
  intros ([x i] & Hx & Hin)%list_elem_of_fmap. rewrite Forall_forall in Ha. specialize (Ha _ Hin). simpl in *.
  rewrite Hx in Ha. unfold key_lt in Ha. lia.
Qed.

Lemma StronglySorted_filter_keys (P : string * Z → Prop) `{!∀ x, Decision (P x)} (l : list (string * Z)) :
  StronglySorted (λ a b : string * Z, key_lt (key_of a.1) (key_of b.1)) l →
  StronglySorted (λ a b : string * Z, key_lt (key_of a.1) (key_of b.1)) (filter P l).
Proof.
  induction 1 as [|a l Hl IH Ha]; [constructor|]. rewrite filter_cons. case_decide; [|done]. constructor; [done|].
  apply Forall_forall. intros y [_ Hy]%list_elem_of_filter. rewrite Forall_forall in Ha. auto.
Qed.

(** Entries of the list beyond a full page lie at or after the id that follows
    the last entry of the page. *)
Lemma beyond_page (l : list (string * Z)) n x :
  (∀ e, e ∈ l → ∃ k, valid_id k ∧ e.1 = id_text k) →
  StronglySorted (λ a b : string * Z, key_lt (key_of a.1) (key_of b.1)) l → (0 < n)%nat →
  x ∈ l → x ∉ take n l →
  length (take n l) = n ∧
  ∃ y nxt, last (take n l).*1 = Some y ∧ next_stream_id y = Ok (Some nxt) ∧ id_le nxt x.1 = true.
Proof.
  intros Hids Hs Hn Hx Hnx. rewrite <- (take_drop n l) in Hx.
  apply elem_of_app in Hx as [Hx|Hx]; [done|].
  assert (Hlen : (n < length l)%nat).
  { destruct (decide (n < length l)%nat) as [|Hge]; [done|]. rewrite drop_ge in Hx by lia. by apply not_elem_of_nil in Hx. }
  rewrite length_take. split; [lia|].
  destruct (last (take n l)) as [[y i]|] eqn:Hlast.
  2:{ apply last_None in Hlast. destruct l, n; simpl in *; (lia || done). }
  assert (Hy : (y, i) ∈ take n l) by (by eapply last_Some_elem_of).
  destruct (Hids (y, i)) as (ky & Hky & Heqy); [by eapply elem_of_take_elem|]. simpl in Heqy.
  destruct (Hids x) as (kx & Hkx & Heqx); [rewrite <- (take_drop n l); set_solver|].
  assert (Hlt : key_lt (key_of y) (key_of x.1)).
  { rewrite <- (take_drop n l) in Hs. exact (StronglySorted_app_1_elem_of _ _ _ (y, i) x Hs Hy Hx). }
  rewrite Heqy, Heqx, !key_of_text in Hlt by done.
  destruct (next_stream_id_spec ky Hky) as [[_ Hmax]|(k' & Hnext & Hv' & _ & Hleast)].
  { specialize (Hmax kx Hkx). unfold key_lt, key_le in *. lia. }
  exists y, (id_text k'). split_and!.
  - rewrite fmap_last, Hlast. done.
  - by rewrite Heqy.
  - unfold id_le. rewrite Heqx, !parse_id_text by done. apply bool_decide_eq_true_2. by apply Hleast.
Qed.

(** One page of recovery loses nothing: the page read from a cursor
    returns, in order, exactly the pending entries of the page that are idle
    long enough and still have a body; an entry leaves the pending list only
    if it is in the page, idle and its body is gone; and the cursor returned
    does not skip anything: every pending entry from the old cursor on that
    was not in the page is at or after the new one. *)
Theorem claim_page_recovers min cursor count s : pel_sorted s → 1 ≤ count ≤ 500 → 1 ≤ min →
  let page := take (Z.to_nat count) (filter (λ e, id_le cursor e.1 = true) (pel s)) in
  ∃ next s', claim_pending_page min cursor count s = Ok (next, omap (due min s) page, s') ∧
    (∀ x, x ∈ (pel s').*1 ↔ x ∈ (pel s).*1 ∧ ¬ ∃ i, (x, i) ∈ page ∧ vanished min s (x, i)) ∧
    (∀ e, e ∈ pel s → id_le cursor e.1 = true → e ∉ page → id_le next e.1 = true).
Proof.
  intros [Hids Hsort] Hcount Hmin page. set (l := filter (λ e, id_le cursor e.1 = true) (pel s)) in *.
  assert (Hl : StronglySorted (λ a b : string * Z, key_lt (key_of a.1) (key_of b.1)) l) by by apply StronglySorted_filter_keys.
  assert (Hpage : NoDup page.*1).
  { unfold page. rewrite fmap_take. eapply sublist_NoDup; [|apply sublist_take]. by apply pel_sorted_NoDup. }
  assert (Hin : ∀ e, e ∈ page → e ∈ pel s).
  { intros e He%elem_of_take_elem. by apply list_elem_of_filter in He as [_ ?]. }
  destruct (claim_entries_spec min page [] "0-0" s Hpage Hin) as (s' & Heq & _ & Hpel).
  assert (Hscript : claim_page_script min cursor count s
    = (default "0-0" (last page.*1), Z.of_nat (length page), omap (due min s) page, s')).
  { unfold claim_page_script. rewrite xpending_page. fold l page. by rewrite Heq. }
  assert (Hrun : ∀ nxt, (if Z.of_nat (length page) =? count then next_stream_id (default "0-0" (last page.*1)) else Ok None) = Ok nxt →
    claim_pending_page min cursor count s = Ok (default "0-0" nxt, omap (due min s) page, s')).
  { intros nxt Hnxt. unfold claim_pending_page. rewrite Hscript.
    rewrite (proj2 (Z.leb_le 1 count)), (proj2 (Z.leb_le count 500)), (proj2 (Z.ltb_ge min 1)) by lia.
    simpl. by rewrite Hnxt. }
  assert (Hvalid : ∃ nxt, (if Z.of_nat (length page) =? count then next_stream_id (default "0-0" (last page.*1)) else Ok None) = Ok nxt).
  { destruct (_ =? _); [|eauto]. destruct (last page.*1) as [y|] eqn:Hy; [|exists (Some "0-1"); vm_compute; reflexivity].
    apply last_Some_elem_of, list_elem_of_fmap in Hy as (e & -> & He). destruct (Hids e (Hin e He)) as (k & Hk & ->).
    simpl. destruct (next_stream_id_spec k Hk) as [[-> _]|(k' & -> & _)]; eauto. }
  destruct Hvalid as [nxt Hnxt]. exists (default "0-0" nxt), s'. split_and!; [by apply Hrun|done|].
  intros e He Hle Hno. destruct (beyond_page l (Z.to_nat count) e) as (Hlen & y & nx & Hy & Hn & Hres); [..|lia| |done|].
  - intros e' [_ He']%list_elem_of_filter. by apply Hids.
  - done.
  - by apply list_elem_of_filter.
  - fold page in Hlen, Hy. rewrite Hlen, Hy in Hnxt. simpl in Hnxt.
    rewrite Z2Nat.id, Z.eqb_refl in Hnxt by lia. rewrite Hn in Hnxt. injection Hnxt as <-. exact Hres.
Qed.
End ClaimPage.

(** ** Consumer group progress *)

Record group_info := mk_group { g_name : string; g_pending : Z; g_lag : option Z; g_last_delivered : string }.
Record GroupProgress := mk_progress { gp_pending : Z; gp_lag : option Z; gp_has_unread : bool }.

(** [group_progress]; [xrange_from id] is whether the stream has an entry at
    or after [id] (XRANGE with COUNT 1). *)
Definition group_progress (stream group : string) (groups : list group_info)
    (xrange_from : string → bool) : result GroupProgress :=
  match find (λ g, String.eqb (g_name g) group) groups with
  | None => Err (ValueError ("Consumer group is missing: " +:+ stream +:+ "/" +:+ group))
  | Some entry =>
      match g_lag entry with
      | Some lag => Ok (mk_progress (g_pending entry) (Some lag) (0 <? lag))
      | None =>
          after ← next_stream_id (g_last_delivered entry);
          Ok (mk_progress (g_pending entry) None (from_option xrange_from false after))
      end
  end.

(** ** Concrete servers, on which the theorems are instantiated *)
Module RedisDemo.

#[export] Instance keys : RedisKeys.
Proof.
  refine {| kv := gmap string string;
    kv_get s k := s !! k;
    kv_set_nx k v _ s := match s !! k with Some _ => (false, s) | None => (true, <[k := v]> s) end;
    kv_expire k _ s := (if s !! k then 1 else 0, s);
    kv_del k s := (if s !! k then 1 else 0, delete k s);
    kv_incr k s := match s !! k with
      | None => Ok (1, <[k := int_str 1]> s)
      | Some v => match py_int v with
          | Some n => Ok (n + 1, <[k := int_str (n + 1)]> s)
          | None => Err (ResponseError "value is not an integer or out of range")
          end
      end |}.
  - intros k v ttl s. by destruct (s !! k).
  - intros k v ttl s k' Hk. rewrite Hk. simpl. rewrite lookup_insert. case_decide; case_decide; congruence.
  - done.
  - done.
  - intros k s k'. simpl. rewrite lookup_delete. case_decide; case_decide; congruence.
  - done.
  - intros k s n s'. destruct (s !! k) as [v|] eqn:Hk; simpl; [destruct (py_int v); [|done]|]; intros [= <- <-];
      (split; [done|]); intros k'; rewrite lookup_insert; case_decide; case_decide; congruence.
Defined.

Definition state : Type := list (string * Z) * gmap string (list (string * string)).
Definition reset (id : string) (l : list (string * Z)) : list (string * Z) :=
  map (λ e, if String.eqb e.1 id then (e.1, 0) else e) l.
Definition claim (min : Z) (id : string) (s : state) : list (option (string * list (string * string))) * state :=
  match s.2 !! id with
  | Some f => if existsb (λ e, String.eqb e.1 id && (min <=? e.2)) s.1
              then ([Some (id, f)], (reset id s.1, s.2)) else ([], s)
  | None => ([None], s)
  end.

Lemma reset_ids id l : (reset id l).*1 = l.*1.
Proof.
  induction l as [|[x i] l IH]; [done|]. unfold reset in *. cbn [map fmap list_fmap]. f_equal; [|exact IH].
  simpl. by destruct (String.eqb x id).
Qed.
Lemma reset_others id l x i : x ≠ id → (x, i) ∈ reset id l ↔ (x, i) ∈ l.
Proof.
  intros Hne. unfold reset. rewrite list_elem_of_fmap. split.
  - intros ([y j] & Heq & Hin). simpl in Heq. destruct (String.eqb_spec y id); simplify_eq. done.
  - intros Hin. exists (x, i). simpl. apply String.eqb_neq in Hne. by rewrite Hne.
Qed.
Lemma claim_others min id s x i : x ≠ id → (x, i) ∈ (claim min id s).2.1 ↔ (x, i) ∈ s.1.
Proof.
  intros Hne. unfold claim. destruct (s.2 !! id); [|done]. destruct (existsb _ _); [|done]. by apply reset_others.
Qed.

#[export] Instance group : RedisPel.
Proof.
  refine {| pst := state; pel s := s.1; body s id := s.2 !! id;
    xpending start count s := take (Z.to_nat count) (filter (λ e, id_le start e.1 = true) s.1);
    xclaim := claim;
    xrange_id id s := match s.2 !! id with Some f => [(id, f)] | None => [] end;
    xack id s := (filter (λ e, e.1 ≠ id) s.1, s.2) |}; try done.
  - intros min id idle f s Hin Hidle Hf. unfold claim. rewrite Hf.
    rewrite (proj2 (existsb_exists _ _)); [simpl; by rewrite reset_ids|].
    exists (id, idle). split; [by apply list_elem_of_In|]. simpl. rewrite String.eqb_refl. by apply Z.leb_le.
  - intros min id s Hb. unfold claim. rewrite Hb. simpl. split; [by repeat constructor|done].
  - intros min id s x i. apply claim_others.
  - intros min id s. unfold claim. destruct (s.2 !! id); [|done]. by destruct (existsb _ _).
Defined.

Definition s0 : state :=
  ([("1-0", 50000); ("1-1", 10); ("2-0", 60000)], {["1-0" := [("k", "v")]; "1-1" := [("k", "w")]]}).

Lemma s0_sorted : pel_sorted (s0 : pst).
Proof.
  split.
  - intros e He. repeat (apply elem_of_cons in He as [->|He];
      [first [exists (1, 0); split; [split; unfold max_id_part; simpl; lia|reflexivity]
             |exists (1, 1); split; [split; unfold max_id_part; simpl; lia|reflexivity]
             |exists (2, 0); split; [split; unfold max_id_part; simpl; lia|reflexivity]]|]).
    by apply not_elem_of_nil in He.
  - repeat constructor; apply (bool_decide_unpack _); vm_compute; done.
Qed.
End RedisDemo.

Import RedisDemo.

Lemma next_stream_id_successor_witness : ∃ x, next_stream_id (id_text (7, max_id_part)) = Ok x.
Proof.
  destruct (next_stream_id_successor (7, max_id_part)) as [[Hn _]|(k & Hn & _)].
  - split; unfold max_id_part; simpl; lia.
  - exists None. exact Hn.
  - exists (Some (id_text k)). exact Hn.
Defined.

Lemma lock_token_exclusion_witness :
  kv_get (release_script (H:=keys) "lock" "a" ({["lock" := "a"]} : gmap string string)).2 "lock" = None.
Proof.
  apply (lock_token_exclusion (H:=keys) "lock" "a" ({["lock" := "a"]} : gmap string string)).
  vm_compute. reflexivity.
Defined.

Lemma claim_page_recovers_witness :
  ∃ next s', claim_pending_page (H:=group) 30000 "0-0" 2 s0 = Ok (next, [("1-0", [("k", "v")])], s') ∧
    id_le next "2-0" = true.
Proof.
  destruct (claim_page_recovers (H:=group) 30000 "0-0" 2 s0 s0_sorted) as (next & s' & Hrun & _ & Hcur); [lia..|].
  exists next, s'. split; [exact Hrun|]. apply (Hcur ("2-0", 60000)).
  - right. right. left.
  - vm_compute. reflexivity.
  - apply (bool_decide_unpack _). vm_compute. exact I.
Defined.
