(* ===== verification/WorkerRuntime.v ===== *)
(** * Settings and assembly of the worker
    ([worker/config.py], [worker/runtime.py])

    The settings with their declared constraints and derived names, the checks
    that building the worker performs on them, the maintenance loops' delays,
    readiness and the health endpoint. Durations in seconds are microseconds
    where the source has floats. *)

From stdpp Require Import base gmap strings list.
From Stdlib Require Import ZArith Lia.
From S2P Require Import Prelude Text World Consumer Dispatcher.
Local Open Scope Z_scope.
Set Default Proof Using "Type".

Record Settings := mk_settings {
  s_redis_stream_mode : stream_mode;
  s_namespace : string;
  s_executor_event_stream : string;
  s_command_stream_name : option string;
  s_event_group_name : option string;
  s_command_group_name : option string;
  s_instance_id : string;
  s_concurrency : Z;
  s_ingress_concurrency : option Z;
  s_dispatch_concurrency : option Z;
  s_pool_size : Z;
  s_batch_size : Z;
  s_poll : Z;
  s_idle_poll : Z;
  s_claim_idle_milliseconds : Z;
  s_lease_ttl_seconds : Z;
  s_lease_renew_seconds : Z;
  s_publish_lease_seconds : Z;
  s_max_handler_attempts : Z;
  s_shutdown : Z;
  s_request_timeout : Z;
  s_health_port : Z
}.

Definition at_least (n : Z) (o : option Z) : Prop := match o with Some z => n ≤ z | None => True end.

(** The constraints of the [Field]s and of [RedisStreamMode]. *)
Record settings_valid (s : Settings) : Prop := {
  v_mode : s_redis_stream_mode s ≠ OtherMode;
  v_namespace : s_namespace s ≠ "";
  v_concurrency : 1 ≤ s_concurrency s;
  v_ingress : at_least 1 (s_ingress_concurrency s);
  v_dispatch : at_least 1 (s_dispatch_concurrency s);
  v_pool : 2 ≤ s_pool_size s;
  v_batch : 1 ≤ s_batch_size s ≤ 500;
  v_poll : 0 < s_poll s;
  v_idle : 0 < s_idle_poll s;
  v_claim_idle : 2001 ≤ s_claim_idle_milliseconds s;
  v_ttl : 3 ≤ s_lease_ttl_seconds s;
  v_renew : 1 ≤ s_lease_renew_seconds s;
  v_publish : 1 ≤ s_publish_lease_seconds s;
  v_attempts : 1 ≤ s_max_handler_attempts s;
  v_shutdown : 0 ≤ s_shutdown s;
  v_timeout : 0 < s_request_timeout s;
  v_port : 0 ≤ s_health_port s ≤ 65535
}.

(** The properties of [Settings]. *)
Definition command_stream (s : Settings) : string :=
  or_else (s_command_stream_name s) (s_namespace s +:+ ":commands").
Definition event_group (s : Settings) : string :=
  or_else (s_event_group_name s) (s_namespace s +:+ ":ingress").
Definition command_group (s : Settings) : string :=
  or_else (s_command_group_name s) (s_namespace s +:+ ":dispatch").
Definition or_number (o : option Z) (default : Z) : Z :=
  match o with Some z => if z =? 0 then default else z | None => default end.
Definition ingress_workers (s : Settings) : Z := or_number (s_ingress_concurrency s) (s_concurrency s).
Definition dispatch_workers (s : Settings) : Z := or_number (s_dispatch_concurrency s) (s_concurrency s).

(** [ExecutorWorker._consumer] *)
Definition worker_consumer (s : Settings) (kind strm grp : string) (workers : Z) : result ConsumerConfig :=
  let c := mk_config strm grp (s_instance_id s +:+ "-" +:+ kind) workers 1000
    (s_claim_idle_milliseconds s) (s_batch_size s) "0"
    (Some (s_namespace s +:+ ":" +:+ kind +:+ ":dlq"))
    (s_lease_ttl_seconds s) (s_lease_renew_seconds s) None 5 604800
    (s_namespace s +:+ ":transport-retries") (s_redis_stream_mode s) in
  post_init c;; Ok c.

(** [ExecutorWorker.__init__], as far as it can refuse the settings. *)
Definition worker_init (s : Settings) : result (ConsumerConfig * ConsumerConfig) :=
  guard_init (s_lease_ttl_seconds s) (s_lease_renew_seconds s);;
  i ← worker_consumer s "ingress" (s_executor_event_stream s) (event_group s) (ingress_workers s);
  d ← worker_consumer s "dispatch" (command_stream s) (command_group s) (dispatch_workers s);
  Ok (i, d).

Lemma or_number_least o d : at_least 1 o → 1 ≤ d → 1 ≤ or_number o d.
Proof. unfold or_number, at_least. destruct o as [z|]; [|done]. destruct (Z.eqb_spec z 0); lia. Qed.

(** What [__post_init__] accepts. *)
Lemma post_init_Ok c : post_init c = Ok tt ↔
  redis_stream_mode c ≠ OtherMode ∧ 1 ≤ concurrency c ∧ 1 ≤ block_milliseconds c ∧
  1 ≤ claim_idle_milliseconds c ∧ 1 ≤ claim_batch_size c ≤ 500 ∧ 1 ≤ lock_ttl_seconds c ∧
  1 ≤ lock_renew_interval_seconds c < lock_ttl_seconds c ∧
  lock_renew_interval_seconds c * 1000 < claim_idle_milliseconds c ∧ 1 ≤ max_retry_attempts c ∧
  (claim_idle_milliseconds c * max_retry_attempts c) / 1000 < retry_state_ttl_seconds c ∧ retry_key_prefix c ≠ "".
Proof.
  unfold post_init. rewrite !raise_if_then, raise_if_Ok, negb_false_iff, andb_true_iff, !Z.ltb_ge, !Z.leb_le, !Z.leb_gt,
    String.eqb_neq.
  assert (Hm : (match redis_stream_mode c with OtherMode => true | _ => false end) = false ↔ redis_stream_mode c ≠ OtherMode)
    by (by destruct (redis_stream_mode c)).
  rewrite Hm. split; intros; destruct_and?; split_and!; (done || lia).
Qed.

Lemma append_not_empty s c t : s +:+ String c t ≠ "".
Proof. by destruct s. Qed.

Lemma worker_consumer_Ok s kind strm grp workers : settings_valid s → 1 ≤ workers →
  s_lease_renew_seconds s * 2 < s_lease_ttl_seconds s →
  (∃ c, worker_consumer s kind strm grp workers = Ok c) ↔
  s_lease_renew_seconds s * 1000 < s_claim_idle_milliseconds s ∧ s_claim_idle_milliseconds s < 120960000.
Proof.
  intros [] Hw Hr. unfold worker_consumer. set (c := mk_config _ _ _ _ _ _ _ _ _ _ _ _ _ _ _ _).
  assert (Hdiv : s_claim_idle_milliseconds s * 5 / 1000 < 604800 ↔ s_claim_idle_milliseconds s < 120960000).
  { pose proof (Z.div_mod (s_claim_idle_milliseconds s * 5) 1000).
    pose proof (Z.mod_pos_bound (s_claim_idle_milliseconds s * 5) 1000). lia. }
  assert (Hpost : post_init c = Ok tt ↔
    s_lease_renew_seconds s * 1000 < s_claim_idle_milliseconds s ∧ s_claim_idle_milliseconds s < 120960000).
  { rewrite post_init_Ok. unfold c. simpl. rewrite Hdiv. split; [intros; destruct_and?; done|].
    intros [? ?]. split_and!; (done || lia || apply append_not_empty). }
  rewrite <- Hpost. split.
  - by intros [c' ([] & ? & _)%result_bind_Ok].
  - intros ->. by exists c.
Qed.

(** Which settings start a worker: settings within their declared ranges
    build a worker if and only if the lease is renewed at least twice per
    lifetime, the renewal is faster than the claim idle time, and the transport
    retry window (five claims) fits the week that retry state is kept. *)
Theorem worker_starts_iff s : settings_valid s →
  (∃ cs, worker_init s = Ok cs) ↔
  s_lease_renew_seconds s * 2 < s_lease_ttl_seconds s ∧
  s_lease_renew_seconds s * 1000 < s_claim_idle_milliseconds s ∧
  s_claim_idle_milliseconds s < 120960000.
Proof.
  intros Hv. pose proof Hv as [].
  assert (Hg : guard_init (s_lease_ttl_seconds s) (s_lease_renew_seconds s) = Ok tt ↔
    s_lease_renew_seconds s * 2 < s_lease_ttl_seconds s).
  { unfold guard_init. rewrite raise_if_Ok, negb_false_iff, andb_true_iff, !Z.ltb_lt. lia. }
  pose proof (λ r, worker_consumer_Ok s "ingress" (s_executor_event_stream s) (event_group s) (ingress_workers s) Hv
    (or_number_least _ _ v_ingress0 v_concurrency0) r) as Hi.
  pose proof (λ r, worker_consumer_Ok s "dispatch" (command_stream s) (command_group s) (dispatch_workers s) Hv
    (or_number_least _ _ v_dispatch0 v_concurrency0) r) as Hd.
  unfold worker_init. split.
  - intros [cs (u & Hu & (i & Hic & _)%result_bind_Ok)%result_bind_Ok]. destruct u. apply Hg in Hu as Hr.
    split; [done|]. apply (Hi Hr). eauto.
  - intros [Hr Hrest]. apply Hg in Hr as Hu. rewrite Hu. cbn [mbind result_bind].
    pose proof (proj2 (Hi Hr) Hrest) as [i ->]. pose proof (proj2 (Hd Hr) Hrest) as [d Hd'].
    cbn [mbind result_bind]. rewrite Hd'. cbn [mbind result_bind]. eauto.
Qed.

(** ** Maintenance loops, readiness and health *)

Definition half_second : Z := 500000.
Definition thirty_seconds : Z := 30000000.

(** The delay after one turn of [ExecutorWorker._loop]. *)
Definition next_delay (poll idle : Z) (interval : option Z) (delay : Z) (outcome : result Z) : Z :=
  match outcome with
  | Ok count =>
      or_number interval (if negb (count =? 0) then poll else Z.min (delay * 2) idle)
  | Err _ => Z.min (Z.max (delay * 2) half_second) thirty_seconds
  end.

(** The delays of a run of [_loop] that sees these outcomes. *)
Fixpoint loop_delays (poll idle : Z) (interval : option Z) (delay : Z) (outcomes : list (result Z)) : list Z :=
  match outcomes with
  | [] => []
  | o :: rest =>
      let delay' := next_delay poll idle interval delay o in
      delay' :: loop_delays poll idle interval delay' rest
  end.

(** A maintenance loop never spins and never stops polling: whatever its
    operation returns or raises, every delay between two turns is positive and
    at most the largest of the poll interval, the idle interval, the fixed
    interval and thirty seconds. *)
Theorem loop_delay_bounded poll idle interval outcomes d :
  0 < poll → 0 < idle → at_least 1 interval →
  let bound := Z.max (Z.max poll idle) (Z.max (default 0 interval) thirty_seconds) in
  d ∈ loop_delays poll idle interval (or_number interval poll) outcomes → 0 < d ≤ bound.
Proof.
  intros Hp Hi Hint bound.
  assert (Hstart : 0 < or_number interval poll ≤ bound).
  { unfold or_number, at_least in *. destruct interval as [z|]; simpl in *; [destruct (Z.eqb_spec z 0)|]; lia. }
  revert Hstart. generalize (or_number interval poll). intros d0 Hd0. revert d0 Hd0.
  induction outcomes as [|o rest IH]; intros d0 Hd0; cbn [loop_delays]; [by intros ?%not_elem_of_nil|].
  assert (Hn : 0 < next_delay poll idle interval d0 o ≤ bound).
  { unfold next_delay, or_number, at_least, half_second, thirty_seconds in *. destruct o as [n|]; [|lia].
    destruct interval as [z|]; simpl in *; [destruct (Z.eqb_spec z 0); [lia|]|]; destruct (negb (n =? 0)); lia. }
  intros [->|Hin]%elem_of_cons; [done|]. by eapply IH.
Qed.

(** [add_readiness_check]; the callable check is always met by a function. *)
Definition add_readiness_check (running : bool) (name : string) {A} (check : A) (checks : list (string * A))
    : result (list (string * A)) :=
  raise_if (is_blank name) (ValueError "Readiness check must have a name and callable");;
  raise_if running (RuntimeError "Readiness checks must be added before run");;
  raise_if (bool_decide (name ∈ checks.*1)) (ValueError ("Duplicate readiness check: " +:+ name));;
  Ok (checks ++ [(name, check)]).

(** [ready]: [ping] and [query] are the dependencies' answers, [results] what
    each check returned or raised; [None] is a check that did not return [True]. *)
Definition ready (stopped : bool) (consumers_healthy : list bool) (ping query : result unit)
    (results : list (result bool)) : bool :=
  if stopped || negb (forallb (λ b, b) consumers_healthy) then false
  else match ping, query with
       | Ok _, Ok _ => forallb (λ r, match r with Ok b => b | Err _ => false end) results
       | _, _ => false
       end.

(** The status and body of [_health] for a request path. *)
Definition health_response (path : string) (is_ready : bool) (metrics : string) : string * string :=
  if String.eqb path "/health/ready" then
    if is_ready then ("200 OK", "ok") else ("503 Unavailable", "not ready")
  else if String.eqb path "/metrics" then ("200 OK", metrics)
  else if String.eqb path "/health/live" then ("200 OK", "ok")
  else ("404 Not Found", "not found").

Definition default_settings : Settings :=
  mk_settings Compat "executor-worker" "executor.events" None None None "i" 4 None None 8 100 200000 2000000
    30000 60 1 30 5 25000000 10000000 8011.

Lemma worker_starts_iff_witness : ∃ cs, worker_init default_settings = Ok cs.
Proof.
  apply (worker_starts_iff default_settings).
  - split; simpl; (done || lia).
  - simpl. lia.
Defined.

Lemma loop_delay_bounded_witness : 0 < half_second ≤ thirty_seconds.
Proof.
  apply (loop_delay_bounded 200000 2000000 None [Err TimeoutError] half_second).
  - lia.
  - lia.
  - exact I.
  - left.
Defined.
