(* ===== verification/Session.v ===== *)
(** * Session snapshots and user decisions
    ([agent/session.py], [agent/graph/state.py], the resume signals of
    [ex_agent/domain/contracts.py])

    What a request may do to the graph of its session is decided on a snapshot
    of the graph: whether a task may start, and whether a resume signal answers
    exactly the interrupt that is waiting. The snapshot itself comes from
    LangGraph. *)

From stdpp Require Import base gmap strings list.
From Stdlib Require Import ZArith Lia.
From S2P Require Import Prelude Text.
Local Open Scope Z_scope.
Set Default Proof Using "Type".

Record TaskTurn := mk_turn {
  t_user_id : string;
  t_project_id : string;
  t_session_id : string;
  t_active_task_id : string;
  t_current_input_message_id : string;
  t_user_message : string;
  t_runtime_profile : string
}.
#[global] Instance TaskTurn_eq_dec : EqDecision TaskTurn.
Proof. solve_decision. Defined.

(** The state of a session graph, as far as the modelled code reads it; absent keys
    are [None] or empty maps. *)
Record SessionState := mk_state {
  st_turn : option TaskTurn;
  st_user_id : option string;
  st_project_id : option string;
  st_session_id : option string;
  st_active_task_id : option string;
  st_task_requests : gmap string string;
  st_api_receipts : gmap string (gmap string string);
  st_invocation_owner : gmap string string;
  st_execution_id : option string;
  st_workflow : option json;
  st_ew_receipts : gmap string string;
  st_failure_receipts : gmap string string;
  st_ew_sequences : gmap string Z
}.

Record Interrupt := mk_interrupt { in_id : string; in_value : json }.

(** A LangGraph state snapshot: values, the nodes to run next, the tasks with
    their interrupts and the checkpoint id. *)
Record Snapshot := mk_snapshot {
  values : SessionState;
  sn_next : list string;
  sn_tasks : list (string * list Interrupt);
  sn_checkpoint_id : option string
}.

Inductive PlanDecisionType := APPROVE | REVISE | REJECT.
#[global] Instance PlanDecisionType_eq_dec : EqDecision PlanDecisionType.
Proof. solve_decision. Defined.

Inductive ResumeSignal :=
| ClarificationAnswer (answer : string)
| WorkflowSelectionDecision (workflow_version_id : option uuid) (proposal_version : Z)
    (public_payload_hash : string) (input_values : list (string * json)) (risk_acknowledged : bool)
| ExecutionModeDecision (mode : string)
| RiskConfirmationDecision (confirmed : bool)
| PlanReviewDecision (decision : PlanDecisionType) (plan_revision_id : uuid) (plan_revision_number : Z)
    (public_payload_hash : string) (feedback : option string) (risk_acknowledged : bool)
| ExecutorBoundarySignal (execution_id event_id : uuid) (event_sequence : Z) (event_type : string)
| CancelRequestedSignal (task_id : uuid) (reason : option string).

(** [signal.type.value] *)
Definition signal_type (s : ResumeSignal) : string :=
  match s with
  | ClarificationAnswer _ => "CLARIFICATION"
  | WorkflowSelectionDecision _ _ _ _ _ => "WORKFLOW_SELECTION"
  | ExecutionModeDecision _ => "EXECUTION_MODE"
  | RiskConfirmationDecision _ => "REQUEST_RISK_CONFIRMATION"
  | PlanReviewDecision _ _ _ _ _ _ => "PLAN_REVIEW"
  | ExecutorBoundarySignal _ _ _ _ => "EXECUTOR_BOUNDARY"
  | CancelRequestedSignal _ _ => "CANCEL_REQUESTED"
  end.

Definition is_cancel (s : ResumeSignal) : bool :=
  match s with CancelRequestedSignal _ _ => true | _ => false end.
Definition is_executor_boundary (s : ResumeSignal) : bool :=
  match s with ExecutorBoundarySignal _ _ _ _ => true | _ => false end.

Definition conflict (m : string) : exn := SessionConflictError m.

(** [value.get(key)] on something that may not be a dict. *)
Definition get_attr (j : json) (k : string) : result (option json) :=
  if is_dict j then Ok (jget k j) else Err (OtherException "AttributeError" "object has no attribute 'get'").

Definition is_high (level : option json) : bool := bool_decide (level = Some (JStr "HIGH")).

(** [next(item for item in candidates if item["workflow_version_id"] == wanted)] *)
Fixpoint find_candidate (wanted : string) (candidates : list json) : result (option json) :=
  match candidates with
  | [] => Ok None
  | item :: rest =>
      version ← (if is_dict item
                 then from_option_err (KeyError "'workflow_version_id'") (jget "workflow_version_id" item)
                 else Err (TypeError "indices must be integers or slices, not str"));
      if bool_decide (version = JStr wanted) then Ok (Some item) else find_candidate wanted rest
  end.

(** [validate_user_decision]; [boundary] is a dict. *)
Definition validate_user_decision (boundary : json) (signal : ResumeSignal) : result unit :=
  match signal with
  | PlanReviewDecision decision revision number hash _ risk_acknowledged =>
      raise_if (negb (bool_decide (jget "plan_revision_id" boundary = Some (JStr (uuid_str revision))) &&
                      bool_decide (jget "plan_revision_number" boundary = Some (JInt number)) &&
                      bool_decide (jget "public_payload_hash" boundary = Some (JStr hash))))
        (conflict "Plan decision is stale");;
      if bool_decide (decision = APPROVE) then
        level ← get_attr (default (JObj []) (jget "risk" boundary)) "level";
        raise_if (is_high level && negb risk_acknowledged) (conflict "Risk acknowledgement is required")
      else Ok tt
  | WorkflowSelectionDecision version proposal hash _ risk_acknowledged =>
      raise_if (negb (bool_decide (jget "proposal_version" boundary = Some (JInt proposal))))
        (conflict "Workflow proposal is stale");;
      match version with
      | None => Ok tt
      | Some v =>
          candidates ← iterate (default (JArr []) (jget "candidates" boundary));
          found ← find_candidate (uuid_str v) candidates;
          match found with
          | None => Err (conflict "Workflow candidate is stale")
          | Some candidate =>
              raise_if (negb (bool_decide (jget "public_payload_hash" candidate = Some (JStr hash))))
                (conflict "Workflow candidate is stale");;
              let risk := default (JObj []) (jget "risk" candidate) in
              level ← get_attr (if json_truthy risk then risk else JObj []) "level";
              raise_if (is_high level && negb risk_acknowledged) (conflict "Risk acknowledgement is required")
          end
      end
  | _ => Ok tt
  end.

Section Session.
(** [TaskTurn.fingerprint] (a hash of the turn's JSON) and the pydantic
    adapter of [ResumeSignal]. *)
Context (fingerprint : TaskTurn → string) (validate_resume_signal : json → result ResumeSignal).

Definition same_or_absent (o : option string) (s : string) : bool :=
  match o with Some x => String.eqb x s | None => true end.

(** [validate_start_snapshot] *)
Definition validate_start_snapshot (before : Snapshot) (turn : TaskTurn) : result bool :=
  let state := values before in
  raise_if (negb (same_or_absent (st_user_id state) (t_user_id turn) &&
                  same_or_absent (st_project_id state) (t_project_id turn) &&
                  same_or_absent (st_session_id state) (t_session_id turn)))
    (conflict "Session ownership mismatch");;
  match st_task_requests state !! t_active_task_id turn with
  | Some f =>
      raise_if (negb (String.eqb f (fingerprint turn)) ||
                negb (bool_decide (st_active_task_id state = Some (t_active_task_id turn))))
        (conflict "Task ID reuse is forbidden");;
      Ok true
  | None =>
      raise_if (negb (bool_decide (sn_next before = []))) (conflict "Session has unfinished work");;
      Ok false
  end.

(** [(t.name, i) for t in before.tasks for i in t.interrupts] *)
Definition boundaries (before : Snapshot) : list (string * Interrupt) :=
  concat (map (λ t, map (pair t.1) t.2) (sn_tasks before)).

(** [validate_resume_snapshot] *)
Definition validate_resume_snapshot (before : Snapshot) (turn : TaskTurn) (interrupt_id : string)
    (payload : json) : result (ResumeSignal * string) :=
  signal ← validate_resume_signal payload;
  raise_if (is_executor_boundary signal) (conflict "Executor events belong to Worker");;
  let state := values before in
  raise_if (negb (bool_decide (st_active_task_id state = Some (t_active_task_id turn)) &&
                  bool_decide (st_task_requests state !! t_active_task_id turn = Some (fingerprint turn))))
    (conflict "Task identity mismatch");;
  match boundaries before with
  | [(name, waiting)] =>
      raise_if (negb (String.eqb (in_id waiting) interrupt_id)) (conflict "Interrupt is stale");;
      let boundary := in_value waiting in
      let expected := if is_cancel signal then "EXECUTOR_EVENT" else signal_type signal in
      raise_if (negb (is_dict boundary &&
                      bool_decide (jget "kind" boundary = Some (JStr expected)) &&
                      bool_decide (jget "task_id" boundary = Some (JStr (t_active_task_id turn)))))
        (conflict "Interrupt kind mismatch");;
      raise_if (match signal with
                | CancelRequestedSignal task_id _ => negb (String.eqb (uuid_str task_id) (t_active_task_id turn))
                | _ => false
                end) (conflict "Cancel task identity mismatch");;
      validate_user_decision boundary signal;;
      Ok (signal, name)
  | _ => Err (conflict "Interrupt is stale")
  end.
End Session.

(** ** What the snapshot checks guarantee

    A start is accepted only on a snapshot without unfinished work, a resume
    signal only when it answers the one interrupt that is waiting. *)

Lemma find_candidate_Some wanted l c : find_candidate wanted l = Ok (Some c) →
  c ∈ l ∧ jget "workflow_version_id" c = Some (JStr wanted).
Proof.
  induction l as [|item rest IH]; [done|]. cbn [find_candidate]. unfold mbind, result_bind.
  destruct (is_dict item); [|done]. destruct (jget "workflow_version_id" item) as [v|] eqn:Hv; [|done]. simpl.
  case_bool_decide as Heq; [intros [= <-]|intros [H1 H2]%IH]; (split; [set_solver|]); congruence.
Qed.

(** A HIGH risk is accepted only with an acknowledgement. *)
Definition risk_accepted (risk : json) (acknowledged : bool) : Prop :=
  jget "level" risk = Some (JStr "HIGH") → acknowledged = true.

Lemma risk_check risk ack : (level ← get_attr risk "level";
    raise_if (is_high level && negb ack) (conflict "Risk acknowledgement is required")) = Ok tt →
  risk_accepted risk ack.
Proof.
  unfold get_attr, mbind, result_bind, is_high, risk_accepted. destruct (is_dict risk); [|done].
  rewrite raise_if_Ok. intros Hc Hl. rewrite bool_decide_eq_true_2 in Hc by done. by destruct ack.
Qed.

(** What [validate_user_decision] accepts: the decision names exactly what the
    boundary shows. *)
Definition decision_current (boundary : json) (signal : ResumeSignal) : Prop :=
  match signal with
  | PlanReviewDecision decision revision number hash _ ack =>
      jget "plan_revision_id" boundary = Some (JStr (uuid_str revision)) ∧
      jget "plan_revision_number" boundary = Some (JInt number) ∧
      jget "public_payload_hash" boundary = Some (JStr hash) ∧
      (decision = APPROVE → risk_accepted (default (JObj []) (jget "risk" boundary)) ack)
  | WorkflowSelectionDecision (Some version) proposal hash _ ack =>
      jget "proposal_version" boundary = Some (JInt proposal) ∧
      ∃ candidates c, iterate (default (JArr []) (jget "candidates" boundary)) = Ok candidates ∧ c ∈ candidates ∧
        jget "workflow_version_id" c = Some (JStr (uuid_str version)) ∧
        jget "public_payload_hash" c = Some (JStr hash) ∧
        risk_accepted (default (JObj []) (jget "risk" c)) ack
  | WorkflowSelectionDecision None proposal _ _ _ => jget "proposal_version" boundary = Some (JInt proposal)
  | _ => True
  end.

Lemma validate_user_decision_Ok boundary signal :
  validate_user_decision boundary signal = Ok tt → decision_current boundary signal.
Proof.
  destruct signal as [|version proposal hash inputs ack| | |decision revision number hash fb ack| |]; try done; simpl.
  - rewrite raise_if_then, negb_false_iff, bool_decide_eq_true. intros [Hp Hrest].
    destruct version as [v|]; [|done]. split; [done|].
    destruct (iterate _) as [cs|] eqn:Hit; [|done]. unfold mbind at 1, result_bind at 1 in Hrest.
    destruct (find_candidate (uuid_str v) cs) as [[c|]|] eqn:Hf; try done.
    unfold mbind at 1, result_bind at 1 in Hrest. apply find_candidate_Some in Hf as [Hin Hv].
    rewrite raise_if_then, negb_false_iff, bool_decide_eq_true in Hrest. destruct Hrest as [Hh Hr%risk_check].
    exists cs, c. split_and!; try done. destruct (jget "risk" c) as [risk|]; simpl in *; [|done].
    destruct (json_truthy risk) eqn:Ht; [done|]. intros Hl. destruct risk; try done. destruct l; done.
  - rewrite raise_if_then, negb_false_iff, !andb_true_iff, !bool_decide_eq_true. intros [[[H1 H2] H3] Hrest].
    split_and!; [done..|]. intros ->. simpl in Hrest. by apply risk_check.
Qed.

Section Theorems.
Context (fingerprint : TaskTurn → string) (validate_resume_signal : json → result ResumeSignal).

(** Starting a task is decided by the snapshot alone: the same task is
    recognised (and never restarted) exactly when the session belongs to the
    turn's user, project and session, remembers the task under the turn's own
    fingerprint and still has it active; a new task may start exactly when the
    owner matches, the task id was never used and the graph has nothing left to
    run; everything else is a conflict. *)
Theorem start_snapshot_decides before turn :
  let st := values before in
  let owned := same_or_absent (st_user_id st) (t_user_id turn) = true ∧
    same_or_absent (st_project_id st) (t_project_id turn) = true ∧
    same_or_absent (st_session_id st) (t_session_id turn) = true in
  (validate_start_snapshot fingerprint before turn = Ok true ↔
     owned ∧ st_task_requests st !! t_active_task_id turn = Some (fingerprint turn) ∧
     st_active_task_id st = Some (t_active_task_id turn)) ∧
  (validate_start_snapshot fingerprint before turn = Ok false ↔
     owned ∧ st_task_requests st !! t_active_task_id turn = None ∧ sn_next before = []) ∧
  (∀ e, validate_start_snapshot fingerprint before turn = Err e → is_SessionConflictError e = true).
Proof.
  intros st owned. unfold validate_start_snapshot. fold st.
  set (b := same_or_absent (st_user_id st) (t_user_id turn) && _ && _).
  assert (Howned : owned ↔ b = true) by (unfold owned, b; rewrite !andb_true_iff; tauto).
  rewrite Howned, !raise_if_then, negb_false_iff.
  destruct (st_task_requests st !! t_active_task_id turn) as [f|].
  - rewrite !raise_if_then, orb_false_iff, !negb_false_iff, String.eqb_eq, bool_decide_eq_true.
    split_and!; [naive_solver..|]. intros e. unfold mbind, result_bind.
    destruct b; simpl; [|by intros [= <-]]. destruct (_ || _); simpl; by intros [= <-].
  - rewrite !raise_if_then, !negb_false_iff, bool_decide_eq_true.
    split_and!; [naive_solver..|]. intros e. unfold mbind, result_bind.
    destruct b; simpl; [|by intros [= <-]]. case_bool_decide; simpl; by intros [= <-].
Qed.

(** A resume answers the interrupt that is waiting, and nothing else: it
    is accepted only for the session's active task under its own fingerprint,
    when exactly one interrupt is waiting, with the id the request names, of
    the signal's kind and for that task; it is never an Executor event; and a
    plan or workflow decision must name the very revision, hash and candidate
    the user was shown and acknowledge a HIGH risk. *)
Theorem resume_answers_waiting_interrupt before turn interrupt_id payload signal name :
  validate_resume_snapshot fingerprint validate_resume_signal before turn interrupt_id payload = Ok (signal, name) →
  validate_resume_signal payload = Ok signal ∧ is_executor_boundary signal = false ∧
  st_active_task_id (values before) = Some (t_active_task_id turn) ∧
  st_task_requests (values before) !! t_active_task_id turn = Some (fingerprint turn) ∧
  ∃ boundary, boundaries before = [(name, mk_interrupt interrupt_id boundary)] ∧
    jget "kind" boundary = Some (JStr (if is_cancel signal then "EXECUTOR_EVENT" else signal_type signal)) ∧
    jget "task_id" boundary = Some (JStr (t_active_task_id turn)) ∧
    (∀ task reason, signal = CancelRequestedSignal task reason → uuid_str task = t_active_task_id turn) ∧
    decision_current boundary signal.
Proof.
  unfold validate_resume_snapshot. destruct (validate_resume_signal payload) as [s|]; [|done].
  unfold mbind at 1, result_bind at 1.
  rewrite !raise_if_then, negb_false_iff, andb_true_iff, !bool_decide_eq_true. intros (Hx & [Ha Hr] & Hb).
  destruct (boundaries before) as [|[n [wid boundary]] [|]] eqn:Hbs; try done.
  rewrite !raise_if_then, !negb_false_iff, !andb_true_iff, String.eqb_eq, !bool_decide_eq_true in Hb. cbn [in_id in_value] in Hb.
  destruct Hb as (Hid & [[_ Hkind] Htask] & Hcancel & Hrest).
  destruct (validate_user_decision boundary s) as [[]|] eqn:Hdec; [|done]. unfold mbind, result_bind in Hrest.
  injection Hrest as <- <-. split_and!; try done. exists boundary. split_and!; try done.
  - by rewrite Hid.
  - intros task reason ->. by apply negb_false_iff, String.eqb_eq in Hcancel.
  - by apply validate_user_decision_Ok.
Qed.
End Theorems.

(** ** A concrete resume *)
Module SessionDemo.
Definition turn : TaskTurn := mk_turn "u" "p" "s" "00000000-0000-0000-0000-000000000001"
  "00000000-0000-0000-0000-000000000002" "hello" "basic".
Definition fp (t : TaskTurn) : string := "fp:" +:+ t_user_message t.
Definition plan : json :=
  JObj [("kind", JStr "PLAN_REVIEW"); ("task_id", JStr (t_active_task_id turn));
        ("plan_revision_id", JStr (uuid_str 9)); ("plan_revision_number", JInt 1);
        ("public_payload_hash", JStr "h"); ("risk", JObj [("level", JStr "HIGH")])].
Definition approve : ResumeSignal := PlanReviewDecision APPROVE 9 1 "h" None true.
Definition validate (j : json) : result ResumeSignal :=
  if decide (j = JStr "approve") then Ok approve else Err (ValueError "invalid signal").
Definition waiting : Snapshot :=
  mk_snapshot (mk_state (Some turn) (Some "u") (Some "p") (Some "s") (Some (t_active_task_id turn))
                 {[t_active_task_id turn := fp turn]} ∅ ∅ None None ∅ ∅ ∅)
    ["review_plan"] [("review_plan", [mk_interrupt "i1" plan])] (Some "c1").
End SessionDemo.

Import SessionDemo.

Lemma resume_answers_waiting_interrupt_witness :
  ∃ b, boundaries waiting = [("review_plan", mk_interrupt "i1" b)] ∧ jget "kind" b = Some (JStr "PLAN_REVIEW").
Proof.
  destruct (resume_answers_waiting_interrupt fp validate waiting turn "i1" (JStr "approve") approve "review_plan")
    as (_ & _ & _ & _ & b & Hb & Hk & _); [vm_compute; reflexivity|].
  exists b. exact (conj Hb Hk).
Defined.
