(* ===== verification/AgentTables.v ===== *)
(** * Tables of the agent service
    ([agent/admission/models.py], [agent/failure/models.py],
    [agent/effects/models.py], [ex_agent/persistence/models.py],
    [ex_agent/domain/enums.py])

    The rows that admission, failure cleanup, the Executor journal and the task
    projections share, with the constraints their inserts meet. Row timestamps
    are kept where a query reads them. *)

From stdpp Require Import base gmap strings list sorting.
From Stdlib Require Import ZArith Lia.
From S2P Require Import Prelude Text Session.
Local Open Scope Z_scope.
Set Default Proof Using "Type".

Inductive TaskStatus :=
| ACCEPTED | CLASSIFYING | ANSWERING | PLANNING | WAITING_FOR_APPROVAL | REVISING_PLAN
| QUEUED_FOR_EXECUTION | EXECUTING | WAITING_FOR_EXECUTOR_EVENT | FINALIZING_EXECUTION
| GENERATING_REPORT | SUCCEEDED | TASK_REJECTED | TASK_FAILED | CANCEL_REQUESTED | CANCELLED.
#[global] Instance TaskStatus_eq_dec : EqDecision TaskStatus.
Proof. solve_decision. Defined.

Definition is_terminal (s : TaskStatus) : bool :=
  match s with SUCCEEDED | TASK_REJECTED | TASK_FAILED | CANCELLED => true | _ => false end.

(** [status.value] and [TaskStatus(value)]. *)
Definition status_value (s : TaskStatus) : string :=
  match s with
  | ACCEPTED => "ACCEPTED" | CLASSIFYING => "CLASSIFYING" | ANSWERING => "ANSWERING"
  | PLANNING => "PLANNING" | WAITING_FOR_APPROVAL => "WAITING_FOR_APPROVAL"
  | REVISING_PLAN => "REVISING_PLAN" | QUEUED_FOR_EXECUTION => "QUEUED_FOR_EXECUTION"
  | EXECUTING => "EXECUTING" | WAITING_FOR_EXECUTOR_EVENT => "WAITING_FOR_EXECUTOR_EVENT"
  | FINALIZING_EXECUTION => "FINALIZING_EXECUTION" | GENERATING_REPORT => "GENERATING_REPORT"
  | SUCCEEDED => "SUCCEEDED" | TASK_REJECTED => "REJECTED" | TASK_FAILED => "FAILED"
  | CANCEL_REQUESTED => "CANCEL_REQUESTED" | CANCELLED => "CANCELLED"
  end.

Definition all_statuses : list TaskStatus :=
  [ACCEPTED; CLASSIFYING; ANSWERING; PLANNING; WAITING_FOR_APPROVAL; REVISING_PLAN;
   QUEUED_FOR_EXECUTION; EXECUTING; WAITING_FOR_EXECUTOR_EVENT; FINALIZING_EXECUTION;
   GENERATING_REPORT; SUCCEEDED; TASK_REJECTED; TASK_FAILED; CANCEL_REQUESTED; CANCELLED].

Definition parse_status (v : string) : result TaskStatus :=
  from_option_err (ValueError "not a valid TaskStatus")
    (List.find (λ s, String.eqb (status_value s) v) all_statuses).

Inductive RequestKind := START | RESUME | CANCEL.
#[global] Instance RequestKind_eq_dec : EqDecision RequestKind.
Proof. solve_decision. Defined.

Record ApiRequest := mk_request {
  request_id : uuid;
  turn : TaskTurn;
  kind : RequestKind;
  interrupt_id : option string;
  req_payload : option json
}.
#[global] Instance ApiRequest_eq_dec : EqDecision ApiRequest.
Proof. solve_decision. Defined.

Inductive request_state := R_PENDING | R_RUNNING | R_APPLIED | R_REJECTED | R_BLOCKED | R_COMPENSATED.
#[global] Instance request_state_eq_dec : EqDecision request_state.
Proof. solve_decision. Defined.

(** A row of [agent_api_requests], and the [RequestRecord] read from it. *)
Record request_row := mk_request_row {
  r_command : ApiRequest;
  r_task_id : uuid;
  r_session_id : string;
  r_fingerprint : string;
  r_target_node : string;
  r_base_checkpoint_id : option string;
  r_state : request_state;
  r_attempts : Z;
  r_next_attempt_at : timestamp;
  r_last_error : option string;
  r_created_by : string;
  r_updated_by : string
}.

(** A row of [agent_tasks]. *)
Record task_row := mk_task {
  k_user_id : string;
  k_project_id : string;
  k_session_id : string;
  k_input_message_id : uuid;
  k_user_message : string;
  k_status : TaskStatus;
  k_execution_id : option uuid;
  k_current_interrupt : option json;
  k_terminal_message : option string;
  k_version : Z;
  k_created_by : string;
  k_updated_by : string
}.

(** A row of [agent_messages]. *)
Record message_row := mk_message {
  m_task_id : uuid;
  m_role : string;
  m_content : string;
  m_metadata : json;
  m_created_at : timestamp
}.

(** A row of [agent_task_events], in the order of its serial id. *)
Record task_event := mk_event { te_task_id : uuid; te_type : string; te_payload : json }.

(** A row of [agent_session_locks]. *)
Record session_lock := mk_lock {
  lk_active_task_id : uuid;
  lk_execution_id : option uuid;
  lk_locked : bool
}.

Inductive cleanup_state := F_PENDING | F_BLOCKED | F_DONE.
#[global] Instance cleanup_state_eq_dec : EqDecision cleanup_state.
Proof. solve_decision. Defined.

(** A row of [agent_failure_cleanups]. *)
Record cleanup_row := mk_cleanup {
  f_task_id : uuid;
  f_session_id : string;
  f_turn : TaskTurn;
  f_source : json;
  f_reason : string;
  f_state : cleanup_state;
  f_version : Z;
  f_attempts : Z;
  f_next_attempt_at : timestamp;
  f_last_error : option string;
  f_execution_id : option uuid;
  f_executor_status : option string;
  f_preserve_terminal : bool;
  f_final_status : TaskStatus;
  f_message : option string;
  f_last_operation : option (uuid * string * string * string * timestamp * string);
  f_updated_at : timestamp;
  f_updated_by : string
}.

(** A row of [agent_executor_effects], and the [EffectRecord] read from it. *)
Record effect_row := mk_effect {
  x_key : string;
  x_task_id : uuid;
  x_kind : string;
  x_input_sha256 : string;
  x_request_sha256 : string;
  x_request : json;
  x_response : option json
}.

(** A row of [agent_executor_bindings]. *)
Record executor_binding := mk_ebinding {
  eb_execution_id : uuid;
  eb_operation_id : uuid;
  eb_execution_version : Z;
  eb_next_step_sequence : Z
}.

Record adb := mk_adb {
  requests : gmap uuid request_row;
  tasks : gmap uuid task_row;
  messages : gmap uuid message_row;
  task_events : list task_event;
  session_locks : gmap string session_lock;
  cleanups : gmap uuid cleanup_row;
  effects : gmap string effect_row;
  bindings : gmap uuid executor_binding
}.

Definition empty_adb : adb := mk_adb ∅ ∅ ∅ [] ∅ ∅ ∅ ∅.

Definition set_requests (f : gmap uuid request_row → gmap uuid request_row) (d : adb) : adb :=
  mk_adb (f (requests d)) (tasks d) (messages d) (task_events d) (session_locks d) (cleanups d) (effects d) (bindings d).
Definition set_tasks (f : gmap uuid task_row → gmap uuid task_row) (d : adb) : adb :=
  mk_adb (requests d) (f (tasks d)) (messages d) (task_events d) (session_locks d) (cleanups d) (effects d) (bindings d).
Definition set_messages (f : gmap uuid message_row → gmap uuid message_row) (d : adb) : adb :=
  mk_adb (requests d) (tasks d) (f (messages d)) (task_events d) (session_locks d) (cleanups d) (effects d) (bindings d).
Definition set_task_events (f : list task_event → list task_event) (d : adb) : adb :=
  mk_adb (requests d) (tasks d) (messages d) (f (task_events d)) (session_locks d) (cleanups d) (effects d) (bindings d).
Definition set_locks (f : gmap string session_lock → gmap string session_lock) (d : adb) : adb :=
  mk_adb (requests d) (tasks d) (messages d) (task_events d) (f (session_locks d)) (cleanups d) (effects d) (bindings d).
Definition set_cleanups (f : gmap uuid cleanup_row → gmap uuid cleanup_row) (d : adb) : adb :=
  mk_adb (requests d) (tasks d) (messages d) (task_events d) (session_locks d) (f (cleanups d)) (effects d) (bindings d).
Definition set_effects (f : gmap string effect_row → gmap string effect_row) (d : adb) : adb :=
  mk_adb (requests d) (tasks d) (messages d) (task_events d) (session_locks d) (cleanups d) (f (effects d)) (bindings d).
Definition set_bindings_of (f : gmap uuid executor_binding → gmap uuid executor_binding) (d : adb) : adb :=
  mk_adb (requests d) (tasks d) (messages d) (task_events d) (session_locks d) (cleanups d) (effects d) (f (bindings d)).

(** The field constraints of [TaskTurn]. *)
Definition validate_turn (u : TaskTurn) : result unit :=
  raise_if (existsb (String.eqb "") [t_user_id u; t_project_id u; t_session_id u; t_active_task_id u;
              t_current_input_message_id u; t_user_message u; t_runtime_profile u])
    (ValueError "String should have at least 1 character").

(** ** Constraints *)

Definition integrity_error : exn := OtherException "IntegrityError" "constraint violation".
Definition is_integrity_error (e : exn) : bool :=
  match e with OtherException cls _ => String.eqb cls "IntegrityError" | _ => false end.

(** A pure check inside a transaction. *)
Definition lift {A} (r : result A) : tx adb A :=
  λ d, match r with Ok a => Ok (a, d) | Err e => Err e end.

(** The request states covered by [uq_agent_api_active_session], and those
    from which an invocation may run. *)
Definition active (s : request_state) : bool :=
  match s with R_PENDING | R_RUNNING | R_BLOCKED => true | _ => false end.
Definition open_state (s : request_state) : bool :=
  match s with R_PENDING | R_RUNNING => true | _ => false end.

Definition has_active (session : string) (d : adb) : option uuid :=
  head (omap (λ kr : uuid * request_row, if String.eqb (r_session_id kr.2) session && active (r_state kr.2)
                      then Some (r_task_id kr.2) else None) (map_to_list (requests d))).

(** Primary key, foreign key to the task and the partial unique index. *)
Definition insert_request (id : uuid) (r : request_row) : tx adb unit :=
  d ← tx_get;
  tx_guard (bool_decide (requests d !! id = None)) integrity_error;;
  tx_guard (bool_decide (is_Some (tasks d !! r_task_id r))) integrity_error;;
  tx_guard (bool_decide (has_active (r_session_id r) d = None)) integrity_error;;
  tx_modify (set_requests <[id := r]>).

Definition insert_task (id : uuid) (t : task_row) : tx adb unit :=
  d ← tx_get;
  tx_guard (bool_decide (tasks d !! id = None)) integrity_error;;
  tx_modify (set_tasks <[id := t]>).

Definition insert_message (id : uuid) (m : message_row) : tx adb unit :=
  d ← tx_get;
  tx_guard (bool_decide (messages d !! id = None)) integrity_error;;
  tx_guard (bool_decide (is_Some (tasks d !! m_task_id m))) integrity_error;;
  tx_modify (set_messages <[id := m]>).

Definition add_task_event (task_id : uuid) (type : string) (payload : json) : tx adb unit :=
  tx_modify (set_task_events (λ l, l ++ [mk_event task_id type payload])).

(** [active_task_id] is unique among the session locks. *)
Definition lock_of_task (task_id : uuid) (d : adb) : bool :=
  existsb (λ kl : string * session_lock, (lk_active_task_id kl.2 =? task_id)%N) (map_to_list (session_locks d)).
Definition insert_lock (session : string) (l : session_lock) : tx adb unit :=
  d ← tx_get;
  tx_guard (bool_decide (session_locks d !! session = None)) integrity_error;;
  tx_guard (negb (lock_of_task (lk_active_task_id l) d)) integrity_error;;
  tx_modify (set_locks <[session := l]>).

(** [DELETE FROM agent_session_locks WHERE active_task_id = task_id] *)
Definition delete_locks (task_id : uuid) : tx adb unit :=
  tx_modify (set_locks (filter (λ kl : string * session_lock, lk_active_task_id kl.2 ≠ task_id))).

(** [execution_id] is unique among the bindings. *)
Definition bound_execution (execution : uuid) (d : adb) : bool :=
  existsb (λ kb : uuid * executor_binding, (eb_execution_id kb.2 =? execution)%N) (map_to_list (bindings d)).
Definition insert_binding (task_id : uuid) (b : executor_binding) : tx adb unit :=
  d ← tx_get;
  tx_guard (bool_decide (bindings d !! task_id = None)) integrity_error;;
  tx_guard (negb (bound_execution (eb_execution_id b) d)) integrity_error;;
  tx_modify (set_bindings_of <[task_id := b]>).

(** A row of a table, locked [FOR UPDATE]. *)
Definition get_task (id : uuid) : tx adb (option task_row) := d ← tx_get; mret (tasks d !! id).
Definition put_task (id : uuid) (t : task_row) : tx adb unit := tx_modify (set_tasks <[id := t]>).
Definition put_request (id : uuid) (r : request_row) : tx adb unit := tx_modify (set_requests <[id := r]>).
Definition put_cleanup (id : uuid) (r : cleanup_row) : tx adb unit := tx_modify (set_cleanups <[id := r]>).
Definition put_lock (s : string) (l : session_lock) : tx adb unit := tx_modify (set_locks <[s := l]>).

(** Updates of a task row. *)
Definition set_task_status (s : TaskStatus) (interrupt : option json) (message : option string)
    (execution : option uuid) (t : task_row) : task_row :=
  mk_task (k_user_id t) (k_project_id t) (k_session_id t) (k_input_message_id t) (k_user_message t)
    s execution interrupt message (k_version t + 1) (k_created_by t) "AGENT".
Definition set_task_execution (version : Z) (execution : uuid) (t : task_row) : task_row :=
  mk_task (k_user_id t) (k_project_id t) (k_session_id t) (k_input_message_id t) (k_user_message t)
    (k_status t) (Some execution) (k_current_interrupt t) (k_terminal_message t) version
    (k_created_by t) "AGENT".
