(* ===== verification/Plans.v ===== *)
(** * Plans, tools and their compilation
    ([ex_agent/domain/contracts.py], [ex_agent/tools/registry.py],
    [ex_agent/tools/compiler.py])

    The public plan of a task and its validation, the registry that gives tools
    their lineage, and the checks that turn a step into source code. The
    registry is loaded from files once; here it is its loaded content. *)

From stdpp Require Import base gmap strings list.
From Stdlib Require Import ZArith Lia.
From S2P Require Import Prelude Text.
Local Open Scope Z_scope.
Set Default Proof Using "Type".

Inductive ExecutionMode := SINGLE | MULTI.
#[global] Instance ExecutionMode_eq_dec : EqDecision ExecutionMode.
Proof. solve_decision. Defined.

Inductive PlanningKind := FIXED_WORKFLOW | TOOL_PLAN | CUSTOM_CODE.
#[global] Instance PlanningKind_eq_dec : EqDecision PlanningKind.
Proof. solve_decision. Defined.

Record SkillReference := mk_skill { sk_name : string; sk_version : string; sk_sha256 : string }.
#[global] Instance SkillReference_eq_dec : EqDecision SkillReference.
Proof. solve_decision. Defined.

Record ToolReference := mk_tool { tl_name : string; tl_version : string; tl_sha256 : string }.
#[global] Instance ToolReference_eq_dec : EqDecision ToolReference.
Proof. solve_decision. Defined.

Record PlanStepDraft := mk_step {
  p_sequence : Z;
  p_title : string;
  p_purpose : string;
  p_planning_kind : PlanningKind;
  p_skill : option SkillReference;
  p_tool : option ToolReference;
  p_parameters : list (string * json);
  p_selection_rationale : string;
  p_expected_outputs : list string;
  p_validation_criteria : list string;
  p_timeout_seconds : Z;
  p_custom_code : option string
}.
#[global] Instance PlanStepDraft_eq_dec : EqDecision PlanStepDraft.
Proof. solve_decision. Defined.

Record PlanDraft := mk_plan {
  objective : string;
  strategy_summary : string;
  execution_mode : ExecutionMode;
  runtime_profile : string;
  steps : list PlanStepDraft;
  assumptions : list string;
  expected_artifacts : list string
}.
#[global] Instance PlanDraft_eq_dec : EqDecision PlanDraft.
Proof. solve_decision. Defined.

(** ** Validation of the contracts *)

(** [len] of a string: its code points, the bytes of its UTF-8 text that do
    not continue a character. *)
Fixpoint char_count (s : string) : Z :=
  match s with
  | EmptyString => 0
  | String c s' => (if (N.land (Ascii.N_of_ascii c) 192 =? 128)%N then 0 else 1) + char_count s'
  end.

Definition text_between (low high : Z) (s : string) : bool := (low <=? char_count s) && (char_count s <=? high).

Fixpoint all_hex (s : string) : bool :=
  match s with
  | EmptyString => true
  | String c s' =>
      let n := Ascii.N_of_ascii c in
      ((48 <=? n) && (n <=? 57) || (97 <=? n) && (n <=? 102))%N && all_hex s'
  end.

(** [^[0-9a-f]{64}$] *)
Definition is_sha256 (s : string) : bool := bool_decide (String.length s = 64%nat) && all_hex s.

Definition skill_valid (k : SkillReference) : bool :=
  text_between 1 128 (sk_name k) && text_between 1 64 (sk_version k) && is_sha256 (sk_sha256 k).
Definition tool_valid (t : ToolReference) : bool :=
  text_between 1 128 (tl_name t) && text_between 1 64 (tl_version t) && is_sha256 (tl_sha256 t).

(** [PlanStepDraft.validate_lineage] *)
Definition validate_lineage (s : PlanStepDraft) : result unit :=
  match p_planning_kind s with
  | TOOL_PLAN =>
      raise_if (negb (bool_decide (is_Some (p_skill s)) && bool_decide (is_Some (p_tool s))))
        (ValueError "Tool plan steps require skill and tool references");;
      raise_if (bool_decide (is_Some (p_custom_code s))) (ValueError "Tool plan steps cannot include custom code")
  | CUSTOM_CODE =>
      raise_if (String.eqb (or_else (p_custom_code s) "") "") (ValueError "Custom code steps require source code");;
      raise_if (bool_decide (is_Some (p_skill s)) || bool_decide (is_Some (p_tool s)))
        (ValueError "Custom code steps cannot claim registered lineage")
  | FIXED_WORKFLOW => Ok tt
  end.

(** [PlanStepDraft.model_validate] *)
Definition validate_step (s : PlanStepDraft) : result unit :=
  raise_if (negb ((0 <=? p_sequence s) && text_between 1 200 (p_title s) && text_between 1 2000 (p_purpose s) &&
      from_option skill_valid true (p_skill s) && from_option tool_valid true (p_tool s) &&
      text_between 1 2000 (p_selection_rationale s) &&
      (1 <=? p_timeout_seconds s) && (p_timeout_seconds s <=? 432000)))
    (ValueError "invalid plan step");;
  validate_lineage s.

(** [PlanDraft.validate_sequences] *)
Definition validate_sequences (p : PlanDraft) : result unit :=
  raise_if (negb (bool_decide (map p_sequence (steps p) = seqZ 0 (Z.of_nat (length (steps p))))))
    (ValueError "Plan step sequences must start at zero").

(** [PlanDraft.model_validate] *)
Definition validate_plan (p : PlanDraft) : result unit :=
  raise_if (negb (text_between 1 2000 (objective p) && text_between 1 4000 (strategy_summary p) &&
      (1 <=? char_count (runtime_profile p)) &&
      (1 <=? Z.of_nat (length (steps p))) && (Z.of_nat (length (steps p)) <=? 100)))
    (ValueError "invalid plan");;
  each validate_step (steps p);;
  validate_sequences p.

(** ** The tool registry *)

Record ParameterSpec := mk_spec { sp_type : string; sp_required : bool }.

Record ToolManifest := mk_manifest {
  mf_skill : SkillReference;
  mf_tool : ToolReference;
  mf_description : string;
  mf_creation_rationale : string;
  mf_parameters : list (string * ParameterSpec);
  mf_source : string
}.

(** [ToolRegistry._tools]; [load] refuses a second tool of a name. *)
Abbreviation ToolRegistry := (list (string * ToolManifest)) (only parsing).

(** [ToolRegistry.get_tool] *)
Definition get_tool (r : ToolRegistry) (name : string) : result ToolManifest :=
  from_option_err (KeyError ("Unknown Tool: " +:+ name)) (assoc name r).

(** [step.model_copy(update={"skill": ..., "tool": ...})] *)
Definition with_lineage (k : SkillReference) (t : ToolReference) (s : PlanStepDraft) : PlanStepDraft :=
  mk_step (p_sequence s) (p_title s) (p_purpose s) (p_planning_kind s) (Some k) (Some t) (p_parameters s)
    (p_selection_rationale s) (p_expected_outputs s) (p_validation_criteria s) (p_timeout_seconds s) (p_custom_code s).

(** [ToolRegistry.canonicalize_step_lineage] *)
Definition canonicalize_step_lineage (r : ToolRegistry) (s : PlanStepDraft) : result PlanStepDraft :=
  if bool_decide (p_planning_kind s ≠ TOOL_PLAN) then Ok s else
  match p_skill s, p_tool s with
  | Some k, Some t =>
      m ← get_tool r (tl_name t);
      raise_if (negb (String.eqb (sk_name (mf_skill m)) (sk_name k)))
        (ValueError "Planner returned mismatched Skill/Tool lineage");;
      Ok (with_lineage (mf_skill m) (mf_tool m) s)
  | _, _ => Err (ValueError "Tool Step is missing Skill/Tool lineage")
  end.

(** ** The source compiler *)

(** [_matches_type]: [bool] is a subclass of [int] and excluded from both
    number types. *)
Definition matches_type (v : json) (expected : string) : bool :=
  if String.eqb expected "string" then (match v with JStr _ => true | _ => false end)
  else if String.eqb expected "integer" then (match v with JInt _ => true | _ => false end)
  else if String.eqb expected "number" then (match v with JInt _ | JFloat _ => true | _ => false end)
  else if String.eqb expected "boolean" then (match v with JBool _ => true | _ => false end)
  else if String.eqb expected "array" then (match v with JArr _ => true | _ => false end)
  else if String.eqb expected "object" then is_dict v
  else false.

Definition has_key {A} (l : list (string * A)) (k : string) : bool := bool_decide (is_Some (assoc k l)).

(** [_validate_parameters]; both dicts have their keys in order. *)
Definition validate_parameters (values : list (string * json)) (schema : list (string * ParameterSpec)) : result unit :=
  raise_if (negb (forallb (λ nv, has_key schema nv.1) values)) (ValueError "Unknown Tool parameters");;
  raise_if (negb (forallb (λ ns, negb (sp_required ns.2) || has_key values ns.1) schema))
    (ValueError "Missing required Tool parameters");;
  each (λ nv : string * json,
      match assoc nv.1 schema with
      | Some sp => raise_if (negb (matches_type nv.2 (sp_type sp)))
                     (ValueError ("Parameter must have JSON type " +:+ sp_type sp))
      | None => Err (KeyError nv.1)
      end) values.

Record CompiledStep := mk_compiled {
  cs_sequence : Z;
  cs_source : string;
  cs_source_sha256 : string;
  cs_skill_name : option string;
  cs_tool_name : option string;
  cs_parameters : list (string * json)
}.

Definition newline : string := String (Ascii.ascii_of_N 10) EmptyString.

Section Compiler.
(** [hashlib.sha256], [pprint.pformat] and the syntax check of custom code,
    which parses it with [ast]. *)
Context (sha256 : string → string) (pformat : json → string) (validate_custom_source : string → result unit)
  (registry : ToolRegistry).

(** [name=value,] for every parameter, by name. *)
Definition arguments (values : list (string * json)) : string :=
  String.concat newline (map (λ nv, "    " +:+ nv.1 +:+ "=" +:+ pformat nv.2 +:+ ",") values).

(** [SourceCompiler._compile_tool_step] *)
Definition compile_tool_step (s : PlanStepDraft) : result CompiledStep :=
  match p_tool s, p_skill s with
  | Some t, Some k =>
      m ← get_tool registry (tl_name t);
      raise_if (negb (bool_decide (mf_tool m = t) && bool_decide (mf_skill m = k)))
        (ValueError "Plan Step lineage does not match the registry");;
      validate_parameters (p_parameters s) (mf_parameters m);;
      let invocation := newline +:+ newline +:+ "result = " +:+ tl_name (mf_tool m) +:+ "(" +:+ newline +:+
        arguments (p_parameters s) +:+ newline +:+ ")" +:+ newline +:+ "result" +:+ newline in
      let source := rstrip_by is_space (mf_source m) +:+ invocation in
      Ok (mk_compiled (p_sequence s) source (sha256 source) (Some (sk_name (mf_skill m)))
            (Some (tl_name (mf_tool m))) (p_parameters s))
  | _, _ => Err (ValueError "Tool Step is missing lineage")
  end.

(** [SourceCompiler._compile_custom_step] *)
Definition compile_custom_step (s : PlanStepDraft) : result CompiledStep :=
  let source := strip (or_else (p_custom_code s) "") +:+ newline in
  validate_custom_source source;;
  Ok (mk_compiled (p_sequence s) source (sha256 source) None None (p_parameters s)).

(** [SourceCompiler.compile] *)
Definition compile (s : PlanStepDraft) : result CompiledStep :=
  match p_planning_kind s with
  | TOOL_PLAN => compile_tool_step s
  | CUSTOM_CODE => compile_custom_step s
  | FIXED_WORKFLOW => Err (ValueError "Cannot compile planning kind: FIXED_WORKFLOW")
  end.
End Compiler.

(** ** Facts *)


Lemma has_key_true {A} (l : list (string * A)) k : has_key l k = true ↔ k ∈ map fst l.
Proof.
  unfold has_key. rewrite bool_decide_eq_true. induction l as [|[k' v] l IH]; simpl.
  - split; [by intros [? ?]|by intros ?%not_elem_of_nil].
  - destruct (String.eqb_spec k k') as [->|Hn]; [split; [left|by eexists]|].
    rewrite IH, elem_of_cons. naive_solver.
Qed.

(** The parameters a step may carry for the tool it calls. *)
Definition parameters_fit (values : list (string * json)) (schema : list (string * ParameterSpec)) : Prop :=
  (∀ n v, (n, v) ∈ values → ∃ sp, assoc n schema = Some sp ∧ matches_type v (sp_type sp) = true) ∧
  (∀ n sp, (n, sp) ∈ schema → sp_required sp = true → n ∈ map fst values).

Lemma validate_parameters_Ok values schema :
  validate_parameters values schema = Ok tt ↔ parameters_fit values schema.
Proof.
  unfold validate_parameters. rewrite !raise_if_then, each_Ok, !negb_false_iff, !forallb_forall, Forall_forall.
  setoid_rewrite <- list_elem_of_In. split.
  - intros (H1 & H2 & H3). split.
    + intros n v Hin. specialize (H3 _ Hin). simpl in H3. destruct (assoc n schema) as [sp|]; [|done].
      exists sp. split; [done|]. by apply raise_if_Ok, negb_false_iff in H3.
    + intros n sp Hin Hr. specialize (H2 _ Hin). simpl in H2. rewrite Hr in H2. by apply has_key_true in H2.
  - intros [H1 H2]. split_and!.
    + intros [n v] Hin. destruct (H1 _ _ Hin) as (sp & Hs & _). apply bool_decide_eq_true. simpl. eauto.
    + intros [n sp] Hin. simpl. destruct (sp_required sp) eqn:Hr; [|done]. simpl. apply has_key_true. eauto.
    + intros [n v] Hin. destruct (H1 _ _ Hin) as (sp & Hs & Ht). simpl. rewrite Hs. by rewrite Ht.
Qed.
