(* ===== verification/Templates.v ===== *)
(** * Workflow templates ([ex_agent/application/promotions.py])

    A finished task becomes a workflow: every parameter of its verified steps
    turns into an input of the workflow, or into a public default, and running
    the workflow binds the inputs again. *)

From stdpp Require Import base gmap strings list.
From Stdlib Require Import Ascii ZArith Lia.
From S2P Require Import Prelude Text Plans AgentTables.
Local Open Scope Z_scope.
Set Default Proof Using "Type".

(** A row of [agent_successful_execution_steps]. *)
Record success_row := mk_success {
  s_operation_id : uuid;
  s_plan_id : uuid;
  s_plan_revision_id : uuid;
  s_registry_hash : string;
  s_payload : PlanStepDraft;
  s_payload_hash : string
}.

Record PromotionSource := mk_source {
  ps_task_id : uuid;
  ps_task : task_row;
  ps_steps : list success_row;
  ps_plans : gmap uuid PlanDraft
}.

(** One entry of an input contract. *)
Record input_spec := mk_input {
  i_type : string;
  i_required : bool;
  i_step_sequence : Z;
  i_parameter_name : string
}.
#[global] Instance input_spec_eq_dec : EqDecision input_spec.
Proof. solve_decision. Defined.

Definition not_eligible (m : string) : exn := OtherException "WorkflowPromotionNotEligibleError" m.
Definition promotion_forbidden (m : string) : exn := OtherException "WorkflowPromotionForbiddenError" m.

(** ** Names of inputs *)

(** A character [_INPUT_NAME_PATTERN] does not match; every byte of a
    character outside ASCII is matched. *)
Definition is_word (c : Ascii.ascii) : bool :=
  let n := Ascii.N_of_ascii c in
  ((48 <=? n) && (n <=? 57) || (65 <=? n) && (n <=? 90) || (97 <=? n) && (n <=? 122) || (n =? 95))%N.

(** [_INPUT_NAME_PATTERN.sub("_", s)]: a run of matched characters becomes one
    underscore. *)
Fixpoint sub_words (in_run : bool) (s : string) : string :=
  match s with
  | EmptyString => EmptyString
  | String c s' =>
      if is_word c then String c (sub_words false s')
      else if in_run then sub_words true s' else String "_"%char (sub_words true s')
  end.

Definition normalized (parameter_name : string) : string :=
  strip_by (λ c, bool_decide (c = "_"%char)) (sub_words false parameter_name).

(** [_input_name] *)
Definition input_name (sequence : Z) (parameter_name : string) : string :=
  "step_" +:+ int_str sequence +:+ "_" +:+ or_else (Some (normalized parameter_name)) "parameter".

(** [_validate_value]: the types of the compiler. *)
Definition validate_value (name : string) (value : json) (spec : ParameterSpec) : result unit :=
  raise_if (negb (matches_type value (sp_type spec)))
    (ValueError ("Workflow input " +:+ name +:+ " must be " +:+ sp_type spec)).

Definition workflow_input (name : string) : json := JObj [("$workflow_input", JStr name)].

(** One turn of the loop of [WorkflowPromotionService.eligible_source]. *)
Definition eligible_row (registry : list (string * ToolManifest)) (plans : gmap uuid PlanDraft) (row : success_row)
    : result unit :=
  let step := s_payload row in
  validate_step step;;
  raise_if (bool_decide (p_planning_kind step ≠ TOOL_PLAN)) (not_eligible "CUSTOM_CODE Tasks cannot be promoted");;
  match p_skill step, p_tool step with
  | Some k, Some t =>
      m ← (match get_tool registry (tl_name t) with Ok m => Ok m | Err e => Err (not_eligible (exn_str e)) end);
      raise_if (negb (bool_decide (mf_skill m = k) && bool_decide (mf_tool m = t)))
        (not_eligible "Skill/Tool registry lineage is no longer compatible");;
      raise_if (bool_decide (plans !! s_plan_revision_id row = None))
        (not_eligible "Source Plan revision lineage is incomplete")
  | _, _ => Err (not_eligible "Tool lineage is incomplete")
  end.

(** ** Templates *)
Section Template.
Context (registry : ToolRegistry) (public_defaults : list (string * json)).

(** What the loops of [_template_plan] build. *)
Record template_state := mk_ts {
  ts_parameters : list (string * json);
  ts_names : list string;
  ts_contract : list (string * input_spec)
}.

(** One turn of the loop over [sorted(step.parameters)]. *)
Definition template_parameter (sequence : Z) (m : ToolManifest) (st : template_state) (name : string)
    : result template_state :=
  let inp := input_name sequence name in
  spec ← from_option_err (KeyError name) (assoc name (mf_parameters m));
  match assoc inp public_defaults with
  | Some default =>
      validate_value inp default spec;;
      Ok (mk_ts (assoc_set name default (ts_parameters st)) (inp :: ts_names st) (ts_contract st))
  | None =>
      Ok (mk_ts (assoc_set name (workflow_input inp) (ts_parameters st)) (inp :: ts_names st)
            (assoc_set inp (mk_input (sp_type spec) true sequence name) (ts_contract st)))
  end.

Fixpoint template_parameters (sequence : Z) (m : ToolManifest) (st : template_state) (names : list string)
    : result template_state :=
  match names with
  | [] => Ok st
  | n :: names' => st' ← template_parameter sequence m st n; template_parameters sequence m st' names'
  end.

(** [step.model_copy(update=...)] *)
Definition templated (sequence : Z) (m : ToolManifest) (parameters : list (string * json)) (s : PlanStepDraft)
    : PlanStepDraft :=
  mk_step sequence (tl_name (mf_tool m)) (mf_description m) (p_planning_kind s) (p_skill s) (p_tool s) parameters
    (mf_creation_rationale m) [tl_name (mf_tool m) +:+ " result"] [] (p_timeout_seconds s) (p_custom_code s).

(** One turn of the loop over [source.steps]. *)
Definition template_step (sequence : Z) (names : list string) (contract : list (string * input_spec)) (row : success_row)
    : result (PlanStepDraft * list string * list (string * input_spec)) :=
  let step := s_payload row in
  validate_step step;;
  t ← from_option_err (not_eligible "Tool lineage is incomplete") (p_tool step);
  m ← get_tool registry (tl_name t);
  st ← template_parameters sequence m (mk_ts [] names contract) (map fst (p_parameters step));
  Ok (templated sequence m (ts_parameters st) step, ts_names st, ts_contract st).

Fixpoint template_steps (sequence : Z) (names : list string) (contract : list (string * input_spec))
    (rows : list success_row) : result (list PlanStepDraft * list string * list (string * input_spec)) :=
  match rows with
  | [] => Ok ([], names, contract)
  | row :: rows' =>
      '(s, names', contract') ← template_step sequence names contract row;
      '(ss, names'', contract'') ← template_steps (sequence + 1) names' contract' rows';
      Ok (s :: ss, names'', contract'')
  end.

(** [WorkflowPromotionService._template_plan] *)
Definition template_plan (source : PromotionSource) : result (PlanDraft * list (string * input_spec)) :=
  first ← from_option_err (OtherException "IndexError" "list index out of range") (head (ps_steps source));
  base ← from_option_err (KeyError "plan revision") (ps_plans source !! s_plan_revision_id first);
  '(ss, names, contract) ← template_steps 0 [] [] (ps_steps source);
  raise_if (negb (forallb (λ d, bool_decide (d.1 ∈ names)) public_defaults))
    (ValueError "Unknown public parameter defaults");;
  Ok (mk_plan (objective base) (strategy_summary base) SINGLE (runtime_profile base) ss (assumptions base)
        (expected_artifacts base), contract).
End Template.

(** ** Binding the inputs *)
Section Bind.
(** [str] of a list or a dict. *)
Context (container_str : json → string).

(** [str(value)] *)
Definition json_str (j : json) : string :=
  match j with
  | JNull => "None"
  | JBool true => "True"
  | JBool false => "False"
  | JInt z => int_str z
  | JFloat r => r
  | JStr s => s
  | j => container_str j
  end.

(** [_resolve_parameter] *)
Definition resolve_parameter (value : json) (input_values : list (string * json)) : result json :=
  match value with
  | JObj [(k, v)] =>
      if String.eqb k "$workflow_input" then from_option_err (KeyError (json_str v)) (assoc (json_str v) input_values)
      else Ok value
  | _ => Ok value
  end.

Fixpoint bind_parameters (input_values : list (string * json)) (l : list (string * json))
    : result (list (string * json)) :=
  match l with
  | [] => Ok []
  | (n, v) :: l' =>
      v' ← resolve_parameter v input_values;
      l'' ← bind_parameters input_values l';
      Ok ((n, v') :: l'')
  end.

Definition with_parameters (l : list (string * json)) (s : PlanStepDraft) : PlanStepDraft :=
  mk_step (p_sequence s) (p_title s) (p_purpose s) (p_planning_kind s) (p_skill s) (p_tool s) l
    (p_selection_rationale s) (p_expected_outputs s) (p_validation_criteria s) (p_timeout_seconds s) (p_custom_code s).

Fixpoint bind_steps (input_values : list (string * json)) (l : list PlanStepDraft) : result (list PlanStepDraft) :=
  match l with
  | [] => Ok []
  | s :: l' =>
      ps ← bind_parameters input_values (p_parameters s);
      l'' ← bind_steps input_values l';
      Ok (with_parameters ps s :: l'')
  end.

(** The check of one input; of several wrong ones the dict's order decides
    which is reported. *)
Definition check_input (input_values : list (string * json)) (entry : string * input_spec) : result unit :=
  v ← from_option_err (KeyError entry.1) (assoc entry.1 input_values);
  validate_value entry.1 v (mk_spec (i_type entry.2) (i_required entry.2)).

(** [bind_workflow_inputs] *)
Definition bind_workflow_inputs (plan : PlanDraft) (input_contract : list (string * input_spec))
    (input_values : list (string * json)) : result PlanDraft :=
  raise_if (negb (forallb (λ e, has_key input_values e.1) input_contract)) (ValueError "Missing Workflow input values");;
  raise_if (negb (forallb (λ e, has_key input_contract e.1) input_values)) (ValueError "Unknown Workflow input values");;
  each (check_input input_values) input_contract;;
  ss ← bind_steps input_values (steps plan);
  Ok (mk_plan (objective plan) (strategy_summary plan) SINGLE (runtime_profile plan) ss (assumptions plan)
        (expected_artifacts plan)).
End Bind.
