(* ===== verification/WorkflowTables.v ===== *)
(** * Tables of plans and workflows ([ex_agent/persistence/models.py])

    The database of the agent service with the tables that plans, verified
    steps and workflows add to it. Rows that nothing refers to by their own id
    are kept under the columns of their unique constraint. *)

From stdpp Require Import base gmap strings list sorting.
From Stdlib Require Import ZArith Lia.
From S2P Require Import Prelude Text AgentTables Plans Templates.
Local Open Scope Z_scope.
Set Default Proof Using "Type".

Inductive workflow_status := W_ACTIVE | W_INACTIVE.
#[global] Instance workflow_status_eq_dec : EqDecision workflow_status.
Proof. solve_decision. Defined.

Inductive review_status := PENDING_REVIEW | APPROVED | REJECTED.
#[global] Instance review_status_eq_dec : EqDecision review_status.
Proof. solve_decision. Defined.

Inductive lifecycle_action :=
| VERSION_CREATED | VERSION_APPROVED | VERSION_REJECTED | VERSION_ACTIVATED
| WORKFLOW_ACTIVATED | WORKFLOW_DEACTIVATED.
#[global] Instance lifecycle_action_eq_dec : EqDecision lifecycle_action.
Proof. solve_decision. Defined.

Definition workflow_status_value (s : workflow_status) : string :=
  match s with W_ACTIVE => "ACTIVE" | W_INACTIVE => "INACTIVE" end.
Definition review_status_value (s : review_status) : string :=
  match s with PENDING_REVIEW => "PENDING_REVIEW" | APPROVED => "APPROVED" | REJECTED => "REJECTED" end.
Definition lifecycle_action_value (a : lifecycle_action) : string :=
  match a with
  | VERSION_CREATED => "VERSION_CREATED" | VERSION_APPROVED => "VERSION_APPROVED"
  | VERSION_REJECTED => "VERSION_REJECTED" | VERSION_ACTIVATED => "VERSION_ACTIVATED"
  | WORKFLOW_ACTIVATED => "WORKFLOW_ACTIVATED" | WORKFLOW_DEACTIVATED => "WORKFLOW_DEACTIVATED"
  end.

(** A row of [agent_workflows]. *)
Record Workflow := mk_workflow {
  w_name : string;
  w_description : string;
  w_owner_user_id : option string;
  w_owner_project_id : option string;
  w_visibility : string;
  w_status : workflow_status;
  w_latest_version : Z;
  w_access_policy : json;
  w_required_permission : option string;
  w_created_at : timestamp;
  w_updated_at : timestamp;
  w_created_by : string;
  w_updated_by : string
}.

(** The columns of [agent_workflow_versions] that are written once. *)
Record version_content := mk_content {
  vc_source_task_id : option uuid;
  vc_source_plan_id : option uuid;
  vc_source_plan_revision_id : option uuid;
  vc_source_execution_id : option uuid;
  vc_objective : string;
  vc_strategy_summary : string;
  vc_runtime_profile : string;
  vc_input_contract : list (string * input_spec);
  vc_output_artifacts : list string;
  vc_registry_hash : string;
  vc_searchable_text : string;
  vc_searchable_text_hash : string;
  vc_embedding_model : string;
  vc_embedding : option (list string);
  vc_request_examples : list string;
  vc_tags : list string;
  vc_policy_version : string;
  vc_plan_payload : PlanDraft;
  vc_public_payload_hash : string;
  vc_promoted_by : string;
  vc_created_by : string
}.

(** A row of [agent_workflow_versions]. *)
Record WorkflowVersion := mk_version {
  v_workflow_id : uuid;
  v_version : Z;
  v_content : version_content;
  v_active : bool;
  v_review_status : review_status;
  v_reviewed_by : option string;
  v_reviewed_at : option timestamp;
  v_review_reason : option string;
  v_created_at : timestamp;
  v_updated_at : timestamp;
  v_updated_by : string
}.

(** A row of [agent_workflow_steps]. *)
Record WorkflowStep := mk_wstep {
  ws_source_plan_revision_id : option uuid;
  ws_skill_ref : SkillReference;
  ws_tool_ref : ToolReference;
  ws_purpose : string;
  ws_selection_rationale : string;
  ws_parameter_template : list (string * json);
  ws_expected_outputs : list string;
  ws_validation_criteria : list string;
  ws_timeout_seconds : Z
}.

(** A row of [agent_workflow_promotions]. *)
Record WorkflowPromotion := mk_promotion {
  pr_task_id : uuid;
  pr_actor_user_id : string;
  pr_idempotency_key : string;
  pr_request_hash : string;
  pr_workflow_id : uuid;
  pr_workflow_version_id : uuid;
  pr_policy_version : string
}.

Record WorkflowLifecycleResult := mk_lresult {
  l_workflow_id : uuid;
  l_workflow_version_id : option uuid;
  l_version : option Z;
  l_public_payload_hash : option string;
  l_action : lifecycle_action;
  l_workflow_status : workflow_status;
  l_review_status : option review_status;
  l_version_active : option bool;
  l_applied : bool
}.
#[global] Instance WorkflowLifecycleResult_eq_dec : EqDecision WorkflowLifecycleResult.
Proof. solve_decision. Defined.

(** A row of [agent_workflow_lifecycle_actions]. *)
Record WorkflowLifecycleAction := mk_laction {
  a_workflow_id : uuid;
  a_workflow_version_id : option uuid;
  a_actor_user_id : string;
  a_action : lifecycle_action;
  a_idempotency_key : string;
  a_request_hash : string;
  a_reason : option string;
  a_policy_version : string;
  a_result_payload : WorkflowLifecycleResult;
  a_created_at : timestamp;
  a_updated_at : timestamp
}.

(** Rows of [agent_plans], [agent_plan_revisions] and [agent_plan_steps]. *)
Record plan_row := mk_plan_row { pl_task_id : uuid; pl_current_revision : Z }.

Record revision_row := mk_revision {
  rv_plan_id : uuid;
  rv_number : Z;
  rv_public_payload : PlanDraft;
  rv_public_payload_hash : string;
  rv_compiled_bundle_id : uuid;
  rv_registry_hash : string;
  rv_feedback : option string
}.

Record plan_step_row := mk_plan_step {
  pst_title : string;
  pst_purpose : string;
  pst_selection_rationale : string;
  pst_skill_ref : option SkillReference;
  pst_tool_ref : option ToolReference;
  pst_parameters : list (string * json);
  pst_source_sha256 : string;
  pst_source_path : string;
  pst_timeout_seconds : Z
}.

(** [wf_steps], [plan_steps] and [successes] are kept under their parent and
    their sequence number. *)
Record wdb := mk_wdb {
  agent : adb;
  workflows : gmap uuid Workflow;
  versions : gmap uuid WorkflowVersion;
  wf_steps : gmap (uuid * Z) WorkflowStep;
  promotions : gmap uuid WorkflowPromotion;
  lifecycle : gmap uuid WorkflowLifecycleAction;
  plans : gmap uuid plan_row;
  revisions : gmap uuid revision_row;
  plan_steps : gmap (uuid * Z) plan_step_row;
  successes : gmap (uuid * Z) success_row
}.

Definition set_agent f (d : wdb) : wdb :=
  mk_wdb (f (agent d)) (workflows d) (versions d) (wf_steps d) (promotions d) (lifecycle d) (plans d) (revisions d) (plan_steps d) (successes d).
Definition set_workflows f (d : wdb) : wdb :=
  mk_wdb (agent d) (f (workflows d)) (versions d) (wf_steps d) (promotions d) (lifecycle d) (plans d) (revisions d) (plan_steps d) (successes d).
Definition set_versions f (d : wdb) : wdb :=
  mk_wdb (agent d) (workflows d) (f (versions d)) (wf_steps d) (promotions d) (lifecycle d) (plans d) (revisions d) (plan_steps d) (successes d).
Definition set_wf_steps f (d : wdb) : wdb :=
  mk_wdb (agent d) (workflows d) (versions d) (f (wf_steps d)) (promotions d) (lifecycle d) (plans d) (revisions d) (plan_steps d) (successes d).
Definition set_promotions f (d : wdb) : wdb :=
  mk_wdb (agent d) (workflows d) (versions d) (wf_steps d) (f (promotions d)) (lifecycle d) (plans d) (revisions d) (plan_steps d) (successes d).
Definition set_lifecycle f (d : wdb) : wdb :=
  mk_wdb (agent d) (workflows d) (versions d) (wf_steps d) (promotions d) (f (lifecycle d)) (plans d) (revisions d) (plan_steps d) (successes d).
Definition set_plans f (d : wdb) : wdb :=
  mk_wdb (agent d) (workflows d) (versions d) (wf_steps d) (promotions d) (lifecycle d) (f (plans d)) (revisions d) (plan_steps d) (successes d).
Definition set_revisions f (d : wdb) : wdb :=
  mk_wdb (agent d) (workflows d) (versions d) (wf_steps d) (promotions d) (lifecycle d) (plans d) (f (revisions d)) (plan_steps d) (successes d).
Definition set_plan_steps f (d : wdb) : wdb :=
  mk_wdb (agent d) (workflows d) (versions d) (wf_steps d) (promotions d) (lifecycle d) (plans d) (revisions d) (f (plan_steps d)) (successes d).
Definition set_successes f (d : wdb) : wdb :=
  mk_wdb (agent d) (workflows d) (versions d) (wf_steps d) (promotions d) (lifecycle d) (plans d) (revisions d) (plan_steps d) (f (successes d)).

Definition empty_wdb (a : adb) : wdb := mk_wdb a ∅ ∅ ∅ ∅ ∅ ∅ ∅ ∅ ∅.

(** ** Queries and constraints *)

(** [SELECT ... WHERE p] when at most one row matches. *)
Definition first_where {K} `{Countable K} {V} (p : K → V → bool) (t : gmap K V) : option (K * V) :=
  head (omap (λ kv : K * V, if p kv.1 kv.2 then Some kv else None) (map_to_list t)).

(** A check of a query's result inside a transaction. *)
Definition wlift {A} (r : result A) : tx wdb A := λ d, match r with Ok a => Ok (a, d) | Err e => Err e end.

(** The workflow's version that the partial unique index
    [uq_agent_workflow_versions_active] covers. *)
Definition active_version (workflow_id : uuid) (d : wdb) : option (uuid * WorkflowVersion) :=
  first_where (λ _ v, (v_workflow_id v =? workflow_id)%N && v_active v) (versions d).

(** [name] is unique. *)
Definition insert_workflow (id : uuid) (w : Workflow) : tx wdb unit :=
  d ← tx_get;
  tx_guard (bool_decide (workflows d !! id = None)) integrity_error;;
  tx_guard (bool_decide (first_where (λ _ w', String.eqb (w_name w') (w_name w)) (workflows d) = None)) integrity_error;;
  tx_modify (set_workflows <[id := w]>).

(** Primary key, foreign key, [uq_agent_workflow_version] and
    [uq_agent_workflow_versions_active]. *)
Definition insert_version (id : uuid) (v : WorkflowVersion) : tx wdb unit :=
  d ← tx_get;
  tx_guard (bool_decide (versions d !! id = None)) integrity_error;;
  tx_guard (bool_decide (is_Some (workflows d !! v_workflow_id v))) integrity_error;;
  tx_guard (bool_decide (first_where (λ _ v', (v_workflow_id v' =? v_workflow_id v)%N && (v_version v' =? v_version v))
                           (versions d) = None)) integrity_error;;
  tx_guard (negb (v_active v) || bool_decide (active_version (v_workflow_id v) d = None)) integrity_error;;
  tx_modify (set_versions <[id := v]>).

(** [UPDATE agent_workflow_versions]: the new row is checked against the other
    rows of the partial unique index. *)
Definition update_version (id : uuid) (v : WorkflowVersion) : tx wdb unit :=
  d ← tx_get;
  tx_guard (negb (v_active v) ||
            bool_decide (first_where (λ k v', negb (k =? id)%N && (v_workflow_id v' =? v_workflow_id v)%N && v_active v')
                           (versions d) = None)) integrity_error;;
  tx_modify (set_versions <[id := v]>).

Definition insert_wf_step (version_id : uuid) (sequence : Z) (s : WorkflowStep) : tx wdb unit :=
  d ← tx_get;
  tx_guard (bool_decide (is_Some (versions d !! version_id))) integrity_error;;
  tx_guard (bool_decide (wf_steps d !! (version_id, sequence) = None)) integrity_error;;
  tx_modify (set_wf_steps <[(version_id, sequence) := s]>).

(** [idempotency_key] is unique among the promotions. *)
Definition insert_promotion (id : uuid) (p : WorkflowPromotion) : tx wdb unit :=
  d ← tx_get;
  tx_guard (bool_decide (promotions d !! id = None)) integrity_error;;
  tx_guard (bool_decide (is_Some (tasks (agent d) !! pr_task_id p) ∧ is_Some (workflows d !! pr_workflow_id p) ∧
                         is_Some (versions d !! pr_workflow_version_id p))) integrity_error;;
  tx_guard (bool_decide (first_where (λ _ p', String.eqb (pr_idempotency_key p') (pr_idempotency_key p)) (promotions d) = None))
    integrity_error;;
  tx_modify (set_promotions <[id := p]>).

(** [idempotency_key] is unique among the actions. *)
Definition insert_action (id : uuid) (a : WorkflowLifecycleAction) : tx wdb unit :=
  d ← tx_get;
  tx_guard (bool_decide (lifecycle d !! id = None)) integrity_error;;
  tx_guard (bool_decide (is_Some (workflows d !! a_workflow_id a))) integrity_error;;
  tx_guard (match a_workflow_version_id a with None => true | Some v => bool_decide (is_Some (versions d !! v)) end) integrity_error;;
  tx_guard (bool_decide (first_where (λ _ a', String.eqb (a_idempotency_key a') (a_idempotency_key a)) (lifecycle d) = None))
    integrity_error;;
  tx_modify (set_lifecycle <[id := a]>).

(** A [TaskEvent] row refers to its task. *)
Definition insert_task_event (task_id : uuid) (type : string) (payload : json) : tx wdb unit :=
  d ← tx_get;
  tx_guard (bool_decide (is_Some (tasks (agent d) !! task_id))) integrity_error;;
  tx_modify (set_agent (set_task_events (λ l, l ++ [mk_event task_id type payload]))).
