(* ===== verification/Admission.v ===== *)
(** * Admission of API requests
    ([agent/admission/contracts.py] and [agent/admission/store.py])

    A request of a user is admitted once, together with its task, and then
    claimed, finished, deferred or resolved in short transactions. *)

From stdpp Require Import base gmap strings list sorting.
From Stdlib Require Import ZArith Lia.
From S2P Require Import Prelude Text Session AgentTables.
Local Open Scope Z_scope.
Set Default Proof Using "Type".

Section Store.
(** [ApiRequest.fingerprint] (a hash of the request's JSON) and the pydantic
    adapter of [ResumeSignal]. *)
Context (request_fingerprint : ApiRequest → string) (validate_resume_signal : json → result ResumeSignal).

Definition parse_uuid (s : string) : result uuid :=
  from_option_err (ValueError "badly formed hexadecimal UUID string") (uuid_parse s).

(** [ApiRequest.validate_request] *)
Definition validate_request (c : ApiRequest) : result unit :=
  raise_if (bool_decide (interrupt_id c = Some "")) (ValueError "String should have at least 1 character");;
  validate_turn (turn c);;
  parse_uuid (t_active_task_id (turn c));;
  parse_uuid (t_current_input_message_id (turn c));;
  match kind c with
  | START =>
      raise_if (bool_decide (is_Some (interrupt_id c)) || bool_decide (is_Some (req_payload c)))
        (ValueError "START cannot carry a resume payload")
  | k =>
      match interrupt_id c, req_payload c with
      | Some _, Some p =>
          signal ← validate_resume_signal p;
          raise_if (is_executor_boundary signal) (ValueError "Executor events belong to Worker");;
          raise_if (negb (Bool.eqb (is_cancel signal) (bool_decide (k = CANCEL))))
            (ValueError "Cancel signal requires CANCEL request kind")
      | _, _ => Err (ValueError "Resume requires interrupt ID and payload")
      end
  end.

(** [_record] *)
Definition record_of (r : request_row) : result request_row :=
  validate_request (r_command r);;
  raise_if (negb (String.eqb (request_fingerprint (r_command r)) (r_fingerprint r)))
    (ValueError "Stored API request fingerprint mismatch");;
  Ok r.

(** [validate_command] *)
Definition validate_command (r : request_row) (c : ApiRequest) : result unit :=
  raise_if (negb (bool_decide (r_command r = c) && String.eqb (r_fingerprint r) (request_fingerprint c)))
    (conflict "Request ID was reused with different input").

(** [RequestStore.get] *)
Definition get (id : uuid) (d : adb) : result (option request_row) :=
  match requests d !! id with
  | None => Ok None
  | Some r => r' ← record_of r; Ok (Some r')
  end.

(** [_required] *)
Definition required (id : uuid) : tx adb request_row :=
  d ← tx_get;
  match requests d !! id with
  | Some r => mret r
  | None => tx_raise (LookupError "Unknown API request")
  end.

(** Fields that the transitions write. *)
Definition with_request_state (s : request_state) (attempts : Z) (at_ : timestamp) (err : option string)
    (by_ : string) (r : request_row) : request_row :=
  mk_request_row (r_command r) (r_task_id r) (r_session_id r) (r_fingerprint r) (r_target_node r)
    (r_base_checkpoint_id r) s attempts at_ err (r_created_by r) by_.

(** [RequestStore.resolve_applied] *)
Definition resolve_applied (record : request_row) : tx adb unit :=
  let id := request_id (r_command record) in
  row ← required id;
  tx_guard (bool_decide (r_state row = R_BLOCKED) && (r_attempts row =? r_attempts record))
    (conflict "Blocked request was superseded");;
  put_request id (with_request_state R_APPLIED (r_attempts row) (r_next_attempt_at row) (r_last_error row) "AGENT" row).

(** The task of a session that is not finished, if any. *)
Definition unfinished (session : string) (d : adb) : option uuid :=
  head (omap (λ kt : uuid * task_row, if String.eqb (k_session_id kt.2) session && negb (is_terminal (k_status kt.2))
                      then Some kt.1 else None) (map_to_list (tasks d))).

Definition same_task (t : task_row) (u : TaskTurn) (message_id : uuid) : bool :=
  String.eqb (k_user_id t) (t_user_id u) && String.eqb (k_project_id t) (t_project_id u) &&
  String.eqb (k_session_id t) (t_session_id u) && String.eqb (k_user_message t) (t_user_message u) &&
  (k_input_message_id t =? message_id)%N.

(** No task holds the session: neither its lock nor an unfinished row. *)
Definition session_free (session : string) (d : adb) : result unit :=
  let lock := session_locks d !! session in
  let locked := from_option lk_locked false lock in
  let open := unfinished session d in
  if locked || bool_decide (is_Some open)
  then let active_task := if locked then lk_active_task_id <$> lock else None in
       let m := uuid_str (default 0%N (active_task ∪ open)) in
       Err (SessionBusyError m ("Session is busy with task " +:+ m))
  else Ok tt.

(** [_admit_task] *)
Definition admit_task (now : timestamp) (c : ApiRequest) : tx adb unit :=
  let u := turn c in
  task_id ← lift (parse_uuid (t_active_task_id u));
  message_id ← lift (parse_uuid (t_current_input_message_id u));
  d ← tx_get;
  tx_guard (bool_decide (cleanups d !! task_id = None)) (conflict "Task failure cleanup forbids new input");;
  if negb (bool_decide (kind c = START)) then
    match tasks d !! task_id with
    | Some t =>
        tx_guard (same_task t u message_id) (conflict "Task identity mismatch");;
        tx_guard (negb (is_terminal (k_status t))) (conflict "Terminal Task cannot accept new input")
    | None => tx_raise (conflict "Task identity mismatch")
    end
  else
    tx_guard (bool_decide (tasks d !! task_id = None)) (conflict "Task ID already exists; reuse its request ID");;
    lift (session_free (t_session_id u) d);;
    insert_task task_id (mk_task (t_user_id u) (t_project_id u) (t_session_id u) message_id (t_user_message u) ACCEPTED
                           None None None 1 (t_user_id u) (t_user_id u));;
    insert_message message_id (mk_message task_id "user" (t_user_message u) (JObj []) now);;
    add_task_event task_id "task.accepted" (JObj [("status", JStr (status_value ACCEPTED))]).

(** The transaction of [RequestStore.accept]. *)
Definition accept_tx (now : timestamp) (c : ApiRequest) (target_node : string) (base : option string)
    : tx adb request_row :=
  d ← tx_get;
  match requests d !! request_id c with
  | Some r =>
      r' ← lift (record_of r);
      lift (validate_command r' c);;
      mret r'
  | None =>
      (match has_active (t_session_id (turn c)) d with
       | Some task => tx_raise (SessionBusyError (uuid_str task) "Session has a pending API request")
       | None => mret tt
       end);;
      admit_task now c;;
      task_id ← lift (parse_uuid (t_active_task_id (turn c)));
      let row := mk_request_row c task_id (t_session_id (turn c)) (request_fingerprint c) target_node base
                   R_PENDING 0 now None (t_user_id (turn c)) (t_user_id (turn c)) in
      insert_request (request_id c) row;;
      lift (record_of row)
  end.

(** [RequestStore.accept]: a violated constraint is arbitrated by what is
    stored. *)
Definition accept (now : timestamp) (c : ApiRequest) (target_node : string) (base : option string)
    : tx adb request_row := λ d,
  match accept_tx now c target_node base d with
  | Ok r => Ok r
  | Err e =>
      if is_integrity_error e then
        existing ← get (request_id c) d;
        match existing with
        | Some r => validate_command r c;; Ok (r, d)
        | None => Err (conflict "API admission conflicts with existing work")
        end
      else Err e
  end.

(** [RequestStore.claim]; [delay] in microseconds. *)
Definition claim (now : timestamp) (id : uuid) (max_attempts delay : Z) : tx adb request_row :=
  row ← required id;
  if negb (open_state (r_state row)) then lift (record_of row) else
  d ← tx_get;
  if bool_decide (is_Some (cleanups d !! r_task_id row)) then
    let row' := with_request_state R_BLOCKED (r_attempts row) (r_next_attempt_at row)
                  (Some "Task failure cleanup owns this invocation") (r_updated_by row) row in
    put_request id row';; lift (record_of row')
  else
    let row' := if max_attempts <=? r_attempts row
      then with_request_state R_BLOCKED (r_attempts row) (r_next_attempt_at row)
             (Some (or_else (r_last_error row) "API recovery attempt limit reached")) "AGENT" row
      else with_request_state R_RUNNING (r_attempts row + 1) (now + delay) (r_last_error row) "AGENT" row in
    put_request id row';; lift (record_of row').

(** [RequestStore.finish] *)
Definition finish (now : timestamp) (record : request_row) (state : request_state) (error : option string)
    (delay : Z) : tx adb request_row :=
  tx_guard (match state with R_PENDING | R_APPLIED | R_REJECTED | R_BLOCKED => true | _ => false end)
    (ValueError "Invalid API request transition");;
  let id := request_id (r_command record) in
  row ← required id;
  tx_guard (open_state (r_state record) && bool_decide (r_state row = r_state record) &&
            (r_attempts row =? r_attempts record)) (conflict "API request attempt was superseded");;
  let row' := with_request_state state (r_attempts row) (now + delay) error "AGENT" row in
  put_request id row';; lift (record_of row').

(** [RequestStore.defer_busy] *)
Definition defer_busy (now : timestamp) (id : uuid) (delay : Z) : tx adb unit :=
  row ← required id;
  if open_state (r_state row)
  then put_request id (with_request_state (r_state row) (r_attempts row) (now + delay) (r_last_error row) "AGENT" row)
  else mret tt.

(** [RequestStore.due] *)
Definition due_key (kr : uuid * request_row) : sort_key := (r_next_attempt_at kr.2, Z.of_N kr.1).
Definition due_requests (now : timestamp) (limit : Z) (d : adb) : result (list uuid) :=
  raise_if (negb ((1 <=? limit) && (limit <=? 100))) (ValueError "Recovery batch limit must be between 1 and 100");;
  Ok (map fst (select_page due_key (λ kr, open_state (r_state kr.2) && (r_next_attempt_at kr.2 <=? now))
                 (Z.to_nat limit) (map_to_list (requests d)))).

(** [RequestStore.blocked_page] *)
Definition blocked_key (kr : uuid * request_row) : sort_key := (Z.of_N kr.1, 0).
Definition blocked_page (after : option uuid) (limit : Z) (d : adb) : result (list uuid) :=
  raise_if (negb ((1 <=? limit) && (limit <=? 100))) (ValueError "Invalid blocked request page size");;
  Ok (map fst (keyset_page blocked_key (λ kr, bool_decide (r_state kr.2 = R_BLOCKED))
                 ((λ a, (Z.of_N a, 0)) <$> after) (Z.to_nat limit) (map_to_list (requests d)))).
End Store.
