(* ===== verification/FailureStore.v ===== *)
(** * Durable failure cleanup ([agent/failure/store.py])

    The first failure of a task is recorded once, the session stays locked
    while the cleanup runs, the result of the Executor is confirmed, and the
    task, its requests and its lock are settled in one transaction. *)

From stdpp Require Import base gmap strings list sorting.
From Stdlib Require Import ZArith Lia.
From S2P Require Import Prelude Text Session AgentTables.
Local Open Scope Z_scope.
Set Default Proof Using "Type".

(** [required] *)
Definition required_cleanup (task_id : uuid) : tx adb cleanup_row :=
  d ← tx_get;
  match cleanups d !! task_id with
  | Some r => mret r
  | None => tx_raise (LookupError "Unknown failure cleanup")
  end.

(** [FailureStore.get] *)
Definition get_cleanup (task_id : uuid) (d : adb) : result (option cleanup_row) := Ok (cleanups d !! task_id).

(** [fenced] *)
Definition fenced (record : cleanup_row) : tx adb cleanup_row :=
  row ← required_cleanup (f_task_id record);
  tx_guard (bool_decide (f_state row = F_PENDING) && (f_attempts row =? f_attempts record))
    (ValueError "Cleanup attempt was superseded");;
  mret row.

(** The columns a cleanup transaction writes; every write also calls [touch]. *)
Definition touch_cleanup (now : timestamp) (actor : string) (s : cleanup_state) (attempts : Z)
    (at_ : timestamp) (err : option string) (r : cleanup_row) : cleanup_row :=
  mk_cleanup (f_task_id r) (f_session_id r) (f_turn r) (f_source r) (f_reason r) s (f_version r + 1)
    attempts at_ err (f_execution_id r) (f_executor_status r) (f_preserve_terminal r) (f_final_status r)
    (f_message r) (f_last_operation r) now actor.

(** [touch] *)
Definition touch (now : timestamp) (actor : string) (r : cleanup_row) : cleanup_row :=
  touch_cleanup now actor (f_state r) (f_attempts r) (f_next_attempt_at r) (f_last_error r) r.

Definition set_cleanup_result (execution : option uuid) (status message : option string)
    (r : cleanup_row) : cleanup_row :=
  mk_cleanup (f_task_id r) (f_session_id r) (f_turn r) (f_source r) (f_reason r) (f_state r) (f_version r)
    (f_attempts r) (f_next_attempt_at r) (f_last_error r) execution status (f_preserve_terminal r)
    (f_final_status r) message (f_last_operation r) (f_updated_at r) (f_updated_by r).

Definition set_operation (op : uuid * string * string * string * timestamp * string) (r : cleanup_row)
    : cleanup_row :=
  mk_cleanup (f_task_id r) (f_session_id r) (f_turn r) (f_source r) (f_reason r) (f_state r) (f_version r)
    (f_attempts r) (f_next_attempt_at r) (f_last_error r) (f_execution_id r) (f_executor_status r)
    (f_preserve_terminal r) (f_final_status r) (f_message r) (Some op) (f_updated_at r) (f_updated_by r).

Definition operation_id (op : uuid * string * string * string * timestamp * string) : uuid := op.1.1.1.1.1.
Definition operation_hash (op : uuid * string * string * string * timestamp * string) : string := op.1.1.1.2.

(** [FailureStore.defer_busy] *)
Definition cleanup_defer_busy (now : timestamp) (task_id : uuid) (delay : Z) : tx adb unit :=
  row ← required_cleanup task_id;
  if bool_decide (f_state row = F_PENDING)
  then put_cleanup task_id (touch_cleanup now "AGENT" (f_state row) (f_attempts row) (now + delay) (f_last_error row) row)
  else mret tt.

(** [FailureStore.blocked_page]: newest first, one row more than asked. *)
Definition cleanup_key (kr : uuid * cleanup_row) : sort_key := (- f_updated_at kr.2, - Z.of_N kr.1).
Definition cleanup_page (before : option (timestamp * uuid)) (limit : Z) (d : adb)
    : result (list (uuid * cleanup_row)) :=
  raise_if (negb ((1 <=? limit) && (limit <=? 100))) (ValueError "Page size must be between 1 and 100");;
  Ok (keyset_page cleanup_key (λ kr, bool_decide (f_state kr.2 = F_BLOCKED))
        ((λ b : timestamp * uuid, (- b.1, - Z.of_N b.2)) <$> before) (Z.to_nat (limit + 1)) (map_to_list (cleanups d))).

(** [FailureStore.due] *)
Definition due_cleanup_key (kr : uuid * cleanup_row) : sort_key := (f_next_attempt_at kr.2, Z.of_N kr.1).
Definition due_cleanups (now : timestamp) (limit : Z) (d : adb) : result (list uuid) :=
  raise_if (negb ((1 <=? limit) && (limit <=? 100))) (ValueError "Cleanup batch size must be between 1 and 100");;
  Ok (map fst (select_page due_cleanup_key
                 (λ kr, bool_decide (f_state kr.2 = F_PENDING) && (f_next_attempt_at kr.2 <=? now))
                 (Z.to_nat limit) (map_to_list (cleanups d)))).

Definition cleanup_state_value (s : cleanup_state) : string :=
  match s with F_PENDING => "PENDING" | F_BLOCKED => "BLOCKED" | F_DONE => "DONE" end.

Definition opt_str (o : option string) : json := from_option JStr JNull o.
Definition opt_uuid (o : option uuid) : json := from_option (λ u, JStr (uuid_str u)) JNull o.

(** Whether the last operation of the row is this one. *)
Definition replayed (row : cleanup_row) (op_id : uuid) (op_hash : string) : result bool :=
  match f_last_operation row with
  | Some op =>
      if (operation_id op =? op_id)%N then
        raise_if (negb (String.eqb (operation_hash op) op_hash))
          (FailureOperationConflict "Idempotency key was reused with another request");;
        Ok true
      else Ok false
  | None => Ok false
  end.

(** [FailureStore.retry_blocked]: the row and whether the operation is a
    replay. *)
Definition retry_blocked (now : timestamp) (task_id op_id : uuid) (op_hash action actor reason : string)
    (expected_version : Z) : tx adb (cleanup_row * bool) :=
  tx_guard (bool_decide (action = "RETRY") || bool_decide (action = "FINALIZE"))
    (ValueError "Unsupported failure operation");;
  row ← required_cleanup task_id;
  replay ← lift (replayed row op_id op_hash);
  if replay : bool then mret (row, true) else
  tx_guard (bool_decide (f_state row = F_BLOCKED))
    (FailureOperationConflict ("Failure cleanup is not BLOCKED: " +:+ cleanup_state_value (f_state row)));;
  tx_guard (f_version row =? expected_version)
    (FailureOperationConflict "Failure cleanup version changed; refresh before retry");;
  let reason' := slice_to 2000 reason in
  let row' := touch_cleanup now actor F_PENDING 0 now None
                (set_operation (op_id, action, op_hash, reason', now, actor) row) in
  put_cleanup task_id row';;
  add_task_event task_id "task.failure_cleanup_operator_requested"
    (JObj [("action", JStr action); ("actor", JStr actor); ("operation_id", JStr (uuid_str op_id));
           ("previous_error", opt_str (f_last_error row)); ("reason", JStr reason');
           ("version", JInt (f_version row'))]);;
  mret (row', false).

(** The turn of the task's START request. *)
Definition start_turn (task_id : uuid) (d : adb) : option TaskTurn :=
  head (omap (λ kr : uuid * request_row,
     if (r_task_id kr.2 =? task_id)%N && bool_decide (kind (r_command kr.2) = START)
     then Some (turn (r_command kr.2)) else None) (map_to_list (requests d))).

(** [value and value != expected] on optional identifiers. *)
Definition mismatch (bound : option uuid) (expected : option uuid) : bool :=
  match bound, expected with Some b, Some e => negb (b =? e)%N | _, _ => false end.

(** The turn a cleanup is recorded with. *)
Definition cleanup_turn (task_id : uuid) (task : task_row) (d : adb) : result TaskTurn :=
  let u := default (mk_turn (k_user_id task) (k_project_id task) (k_session_id task) (uuid_str task_id)
             (uuid_str (k_input_message_id task)) (k_user_message task) "basic") (start_turn task_id d) in
  validate_turn u;; Ok u.

(** The lock of [ensure]: taken, or kept when the task already owns it. *)
Definition ensure_lock (session_id : string) (task_id : uuid) (execution : option uuid) : tx adb unit :=
  d ← tx_get;
  match session_locks d !! session_id with
  | Some lock =>
      tx_guard (lk_active_task_id lock =? task_id)%N (ValueError "Another Task owns the session lock");;
      put_lock session_id (mk_lock (lk_active_task_id lock) (lk_execution_id lock) true)
  | None => insert_lock session_id (mk_lock task_id execution true)
  end.

(** [FailureStore.ensure] *)
Definition ensure (now : timestamp) (task_id : uuid) (session_id : string) (source : json) (reason : string)
    (execution_id : option uuid) : tx adb cleanup_row :=
  d ← tx_get;
  match tasks d !! task_id with
  | None => tx_raise (ValueError "Failure source Task identity mismatch")
  | Some task =>
      tx_guard (String.eqb (k_session_id task) session_id) (ValueError "Failure source Task identity mismatch");;
      match cleanups d !! task_id with
      | Some existing =>
          tx_guard (String.eqb (f_session_id existing) session_id && negb (mismatch (f_execution_id existing) execution_id))
            (ValueError "Existing failure binding mismatch");;
          mret existing
      | None =>
          tx_guard (negb (mismatch (k_execution_id task) execution_id))
            (ValueError "Failure source Execution identity mismatch");;
          u ← lift (cleanup_turn task_id task d);
          let terminal := is_terminal (k_status task) in
          tx_guard (negb (terminal && String.eqb (or_else (k_terminal_message task) "") ""))
            (ValueError "Terminal Task has no durable result");;
          let row := mk_cleanup task_id session_id u source (slice_to 2000 reason) F_PENDING 1 0 now None
            (match execution_id with Some e => Some e | None => k_execution_id task end)
            (if terminal then Some "ALREADY_TERMINAL" else None) terminal
            (if terminal then k_status task else TASK_FAILED)
            (if terminal then k_terminal_message task else None) None now "AGENT" in
          (if terminal then mret tt else ensure_lock session_id task_id (f_execution_id row));;
          put_cleanup task_id row;;
          (if terminal then mret tt else
             add_task_event task_id "task.failure_cleanup_pending"
               (JObj [("reason", JStr (f_reason row)); ("source", source)]));;
          mret row
      end
  end.

(** [row.execution_id not in (None, execution_id)] *)
Definition other_execution (bound : option uuid) (execution : uuid) : bool := mismatch bound (Some execution).

(** [FailureStore.bind_execution] *)
Definition bind_execution (now : timestamp) (record : cleanup_row) (execution : uuid) : tx adb cleanup_row :=
  row ← fenced record;
  tx_guard (negb (other_execution (f_execution_id row) execution))
    (ValueError "Cleanup Execution identity cannot change");;
  d ← tx_get;
  match tasks d !! f_task_id row with
  | None => tx_raise AssertionError
  | Some task =>
      tx_guard (negb (other_execution (k_execution_id task) execution))
        (ValueError "Task Execution identity cannot change");;
      match session_locks d !! f_session_id row with
      | Some lock =>
          tx_guard (lk_active_task_id lock =? f_task_id row)%N (ValueError "Cleanup session lock is missing");;
          tx_guard (negb (other_execution (lk_execution_id lock) execution))
            (ValueError "Lock Execution identity cannot change");;
          let row' := touch now "AGENT" (set_cleanup_result (Some execution) (f_executor_status row) (f_message row) row) in
          put_cleanup (f_task_id row) row';;
          put_task (f_task_id row) (set_task_execution (k_version task + 1) execution task);;
          put_lock (f_session_id row) (mk_lock (lk_active_task_id lock) (Some execution) (lk_locked lock));;
          mret row'
      | None => tx_raise (ValueError "Cleanup session lock is missing")
      end
  end.

(** [FailureStore.claim] *)
Definition claim_cleanup (now : timestamp) (task_id : uuid) (max_attempts delay : Z) : tx adb cleanup_row :=
  row ← required_cleanup task_id;
  if negb (bool_decide (f_state row = F_PENDING)) then mret row else
  let row' := if max_attempts <=? f_attempts row
    then touch_cleanup now "AGENT" F_BLOCKED (f_attempts row) (f_next_attempt_at row)
           (Some (or_else (f_last_error row) "Cleanup attempt limit reached")) row
    else touch_cleanup now "AGENT" F_PENDING (f_attempts row + 1) (now + delay) (f_last_error row) row in
  put_cleanup task_id row';; mret row'.

(** [FailureStore.confirm] *)
Definition confirm (now : timestamp) (record : cleanup_row) (execution : option uuid) (status message : string)
    : tx adb cleanup_row :=
  tx_guard (existsb (String.eqb status) ["NOT_REQUIRED"; "SUCCEEDED"; "FAILED"; "CANCELLED"])
    (ValueError "Executor terminal proof is required");;
  row ← fenced record;
  let row' := touch now "AGENT" (set_cleanup_result execution (Some status) (Some message) row) in
  put_cleanup (f_task_id row) row';; mret row'.

(** [FailureStore.defer] *)
Definition defer (now : timestamp) (record : cleanup_row) (error : string) (delay : Z) (blocked : bool) : tx adb unit :=
  row ← fenced record;
  put_cleanup (f_task_id row) (touch_cleanup now "AGENT" (if blocked then F_BLOCKED else F_PENDING)
     (f_attempts row) (now + delay) (Some (slice_to 2000 error)) row).

(** [UPDATE agent_api_requests SET state = 'COMPENSATED'] *)
Definition compensate (task_id : uuid) : tx adb unit :=
  tx_modify (set_requests (update_where (λ (_ : uuid) r, (r_task_id r =? task_id)%N && active (r_state r))
    (λ r, mk_request_row (r_command r) (r_task_id r) (r_session_id r) (r_fingerprint r) (r_target_node r)
       (r_base_checkpoint_id r) R_COMPENSATED (r_attempts r) (r_next_attempt_at r) (r_last_error r)
       (r_created_by r) "AGENT"))).

(** [not value] on an optional string. *)
Definition missing (o : option string) : bool := String.eqb (or_else o "") "".

(** The task's own part of [FailureStore.finish]; [message_id] is the random
    id of the new message. *)
Definition finish_task (now : timestamp) (message_id : uuid) (row : cleanup_row) (task : task_row) : tx adb unit :=
  if is_terminal (k_status task) then
    tx_guard (bool_decide (k_status task = f_final_status row) && bool_decide (k_terminal_message task = f_message row))
      (ValueError "Existing terminal result cannot change")
  else
    put_task (f_task_id row) (set_task_status (f_final_status row) None (f_message row) (f_execution_id row) task);;
    content ← lift (from_option_err integrity_error (f_message row));
    insert_message message_id (mk_message (f_task_id row) "assistant" content
      (JObj [("execution_id", opt_uuid (f_execution_id row)); ("executor_status", opt_str (f_executor_status row));
             ("failure_source", f_source row)]) now);;
    add_task_event (f_task_id row) "task.completed"
      (JObj [("executor_status", opt_str (f_executor_status row)); ("failure_source", f_source row);
             ("status", JStr (status_value (f_final_status row)))]).

(** [FailureStore.finish] *)
Definition finish_cleanup (now : timestamp) (message_id : uuid) (record : cleanup_row) : tx adb unit :=
  tx_guard (negb (missing (f_executor_status record) || missing (f_message record)))
    (ValueError "Cannot finish without terminal proof");;
  row ← fenced record;
  d ← tx_get;
  match tasks d !! f_task_id row with
  | None => tx_raise AssertionError
  | Some task =>
      finish_task now message_id row task;;
      compensate (f_task_id row);;
      delete_locks (f_task_id row);;
      put_cleanup (f_task_id row) (touch_cleanup now "AGENT" F_DONE (f_attempts row) (f_next_attempt_at row) None row)
  end.
