(* ===== verification/TaskProjections.v ===== *)
(** * Task read model ([agent/projections.py], [agent/effects/projections.py])

    The status of a task follows the graph's checkpoints, its binding follows
    the Executor's receipts, and its result is written once. *)

From stdpp Require Import base gmap strings list sorting.
From Stdlib Require Import ZArith Lia.
From S2P Require Import Prelude Text Session AgentTables.
Local Open Scope Z_scope.
Set Default Proof Using "Type".

(** [_projected_status]; [interrupt] is a dict. *)
Definition projected_status (phase : TaskStatus) (interrupt : option json) : TaskStatus :=
  match interrupt with
  | None => phase
  | Some i =>
      if bool_decide (jget "kind" i = Some (JStr "PLAN_REVIEW")) then WAITING_FOR_APPROVAL
      else if bool_decide (jget "kind" i = Some (JStr "EXECUTOR_EVENT")) then WAITING_FOR_EXECUTOR_EVENT
      else PLANNING
  end.

(** [TaskStateProjector._write] *)
Definition project_write (task_id : uuid) (status : TaskStatus) (interrupt : option json) : tx adb unit :=
  t ← get_task task_id;
  match t with
  | None => tx_raise (LookupError "Graph Task projection target is missing")
  | Some task =>
      if is_terminal (k_status task) then mret tt else
      tx_guard (negb (is_terminal status)) (ValueError "Terminal graph state requires a committed Task result");;
      if bool_decide (k_status task = status) && bool_decide (k_current_interrupt task = interrupt) then mret tt else
      put_task task_id (set_task_status status interrupt (k_terminal_message task) (k_execution_id task) task);;
      match interrupt with
      | Some i => add_task_event task_id "task.interrupted" i
      | None => add_task_event task_id "task.status_changed"
          (JObj [("interrupt_cleared", JBool (bool_decide (is_Some (k_current_interrupt task))));
                 ("status", JStr (status_value status))])
      end
  end.

(** What [TaskStateProjector.__call__] reads from a snapshot: nothing to
    project, or the task with its status and interrupt. *)
Definition projection_of (s : Snapshot) : result (option (uuid * TaskStatus * option json)) :=
  match st_active_task_id (values s), st_workflow (values s) with
  | Some task, Some (JObj workflow) =>
      if String.eqb task "" then Ok None else
      phase_value ← from_option_err (KeyError "'phase'") (assoc "phase" workflow);
      phase ← (match phase_value with
               | JStr p => parse_status p
               | _ => Err (ValueError "not a valid TaskStatus")
               end);
      interrupt ← (match boundaries s with
                   | [] => Ok None
                   | [(_, i)] =>
                       match in_value i with
                       | JObj value => Ok (Some (JObj (assoc_set "interrupt_id" (JStr (in_id i)) value)))
                       | _ => Err (TypeError "Graph interrupt payload must be an object")
                       end
                   | _ => Err (ValueError "Task projection requires one interrupt at most")
                   end);
      id ← from_option_err (ValueError "badly formed hexadecimal UUID string") (uuid_parse task);
      Ok (Some (id, projected_status phase interrupt, interrupt))
  | _, _ => Ok None
  end.

(** [TaskStateProjector.__call__] *)
Definition project (s : Snapshot) : tx adb unit :=
  p ← lift (projection_of s);
  match p with
  | None => mret tt
  | Some (id, status, interrupt) => project_write id status interrupt
  end.

Definition integer_columns (l : list Z) : tx adb unit :=
  tx_guard (forallb fits_int4 l) (OtherException "DBAPIError" "integer out of range").

(** The first receipt of an execution creates the binding. *)
Definition create_binding (task_id : uuid) (task : task_row) (execution_id : uuid) (execution_version : Z)
    (operation_id : option uuid) (next_step_sequence : option Z) (create : bool) : tx adb unit :=
  match operation_id with
  | Some operation =>
      tx_guard create (LookupError "Executor binding does not exist");;
      match next_step_sequence with
      | None => tx_raise (ValueError "Initial binding requires Step sequence")
      | Some next =>
          tx_guard (match k_execution_id task with Some e => (e =? execution_id)%N | None => true end)
            (ValueError "Task is bound to another Execution");;
          put_task task_id (set_task_execution (k_version task) execution_id task);;
          d ← tx_get;
          (match session_locks d !! k_session_id task with
           | Some lock =>
               if (lk_active_task_id lock =? task_id)%N
               then put_lock (k_session_id task) (mk_lock task_id (Some execution_id) (lk_locked lock))
               else mret tt
           | None => mret tt
           end);;
          integer_columns [execution_version; next];;
          insert_binding task_id (mk_ebinding execution_id operation execution_version next)
      end
  | None => tx_raise (LookupError "Executor binding does not exist")
  end.

(** The step sequence and operation a later receipt leaves: an obsolete one
    does not rewind them. *)
Definition advance_binding (b : executor_binding) (operation_id : option uuid) (next_step_sequence : option Z)
    (create : bool) : result (uuid * Z) :=
  match next_step_sequence with
  | None => Ok (eb_operation_id b, eb_next_step_sequence b)
  | Some next =>
      if next =? eb_next_step_sequence b then
        raise_if (negb (bool_decide (operation_id = Some (eb_operation_id b))))
          (ValueError "Step sequence has another Operation");;
        Ok (eb_operation_id b, eb_next_step_sequence b)
      else if eb_next_step_sequence b <? next then
        match operation_id with
        | Some operation =>
            raise_if create (ValueError "Invalid binding sequence advance");;
            Ok (operation, next)
        | None => Err (ValueError "Invalid binding sequence advance")
        end
      else Ok (eb_operation_id b, eb_next_step_sequence b)
  end.

(** [EffectProjections.binding] *)
Definition binding_tx (task_id execution_id : uuid) (execution_version : Z) (operation_id : option uuid)
    (next_step_sequence : option Z) (create : bool) : tx adb unit :=
  t ← get_task task_id;
  match t with
  | None => tx_raise (LookupError "Unknown effect Task")
  | Some task =>
      d ← tx_get;
      match bindings d !! task_id with
      | None => create_binding task_id task execution_id execution_version operation_id next_step_sequence create
      | Some b =>
          tx_guard (eb_execution_id b =? execution_id)%N (ValueError "Task is bound to another Execution");;
          on ← lift (advance_binding b operation_id next_step_sequence create);
          let version := Z.max (eb_execution_version b) execution_version in
          integer_columns [version; on.2];;
          tx_modify (set_bindings_of <[task_id := mk_ebinding execution_id on.1 version on.2]>)
      end
  end.

(** The assistant's newest message of a task. *)
Definition message_key (km : uuid * message_row) : sort_key := (- m_created_at km.2, Z.of_N km.1).
Definition last_answer (task_id : uuid) (d : adb) : option message_row :=
  snd <$> head (select_page message_key
    (λ km, (m_task_id km.2 =? task_id)%N && String.eqb (m_role km.2) "assistant") 1 (map_to_list (messages d))).

(** [EffectProjections.terminal] *)
Definition terminal_tx (now : timestamp) (message_id task_id : uuid) (status : TaskStatus) (message : string)
    (metadata : json) : tx adb unit :=
  tx_guard (is_terminal status) (ValueError "Terminal projection requires terminal status");;
  t ← get_task task_id;
  match t with
  | None => tx_raise (LookupError "Unknown terminal Task")
  | Some task =>
      if is_terminal (k_status task) then
        d ← tx_get;
        tx_guard (bool_decide (k_status task = status) && bool_decide (k_terminal_message task = Some message) &&
                  match last_answer task_id d with
                  | Some m => String.eqb (m_content m) message && bool_decide (m_metadata m = metadata)
                  | None => false
                  end) (ValueError "Terminal Task result cannot change")
      else
        put_task task_id (set_task_status status None (Some message) (k_execution_id task) task);;
        insert_message message_id (mk_message task_id "assistant" message metadata now);;
        add_task_event task_id "task.completed" (JObj [("status", JStr (status_value status))]);;
        delete_locks task_id
  end.

(** [EffectProjections.promotion] *)
Definition promotion_tx (task_id : uuid) : tx adb unit :=
  d ← tx_get;
  tx_guard (match tasks d !! task_id with Some t => bool_decide (k_status t = SUCCEEDED) | None => false end)
    (ValueError "Promotion requires a successful Task");;
  if existsb (λ e, (te_task_id e =? task_id)%N && String.eqb (te_type e) "workflow.promotion_available") (task_events d)
  then mret tt
  else add_task_event task_id "workflow.promotion_available"
         (JObj [("draft_path", JStr ("/api/v1/tasks/" +:+ uuid_str task_id +:+ "/workflow-promotion-draft"));
                ("task_id", JStr (uuid_str task_id))]).
