(* ===== verification/AgentWorld.v ===== *)
(** * The world around a coroutine of the agent service

    Admission, failure cleanup and the Executor journal await the database,
    the session guard, the LangGraph runtime and the Executor's HTTP API. As
    for the worker, every await takes one step of a schedule: other processes
    may change the tables first, time moves, and the call is done with a reply,
    refused before it took effect, or took effect without its reply arriving.
    A schedule that ends is a process that is cancelled. The log keeps, in
    order, what the coroutine did: the snapshots it read, the graph and HTTP
    calls it made, and the transactions it committed. The worker's own tables
    are another database, so what it answers is a reply as well. *)

From stdpp Require Import base gmap strings list relations.
From Stdlib Require Import ZArith Lia.
From S2P Require Import Prelude WorkerContracts WorkerStore Session AgentTables Plans Templates WorkflowTables.
Local Open Scope Z_scope.
Set Default Proof Using "Type".

(** An HTTP reply has a status, a body, which may not be JSON, and its text.
    A transaction on the plan tables sees the tables of the reply and takes its
    fresh identifiers from there; a text is that of a file or of the model that
    writes the report. *)
Inductive areply :=
| ANone
| ASnapshot (s : Snapshot)
| AHttp (status : Z) (body : option json) (text : string)
| AWorker (row : option (command_row * inbox_row * binding))
| AFailed (rows : list (uuid * command_row))
| APlans (tables : wdb) (ids : uuid * uuid * uuid)
| AText (s : string).

Inductive aoutcome :=
| ADone (r : areply)
| ARefused (e : exn)
| ALost (e : exn).

(** The input of [graph.ainvoke]: continue, a new turn, or the answer of an
    interrupt. *)
Inductive graph_input :=
| Continue
| StartTurn (u : TaskTurn)
| ResumeWith (interrupt : string) (signal : ResumeSignal).

(** What [settle_graph] writes into a session graph. *)
Record graph_update := mk_graph_update {
  gu_turn : TaskTurn;
  gu_active_task_id : string;
  gu_execution_id : string;
  gu_workflow : json;
  gu_invocation_owner : gmap string string;
  gu_task_requests : gmap string string;
  gu_failure_receipts : gmap string string;
  gu_ew_sequences : gmap string Z;
  gu_messages : list (string * string)
}.

(** [Asked] is a read of the Executor and what it answered, [ReadCommand] one
    of a worker command; [Skipped] is a failed command that was given up, and
    [Planned] a transaction on the plan tables that was answered. *)
Inductive action :=
| ReadState (thread : string) (s : Snapshot)
| Invoked (thread : string) (input : graph_input)
| Updated (thread as_node : string) (u : option graph_update)
| Sent (request : json)
| Asked (path : string) (params : list (string * json)) (reply : json)
| ReadCommand (row : option (command_row * inbox_row * binding))
| Skipped (command : uuid) (reason : string)
| Committed (before after : adb)
| Planned (before after : wdb).

Record atick := mk_atick {
  at_env : adb → adb;
  at_now : timestamp;
  at_fresh : uuid;
  at_out : aoutcome
}.

Record aworld := mk_aworld {
  a_db : adb;
  a_sched : list atick;
  a_log : list action
}.

Definition alog (x : action) (w : aworld) : aworld := mk_aworld (a_db w) (a_sched w) (a_log w ++ [x]).

Definition adraw : proc aworld atick := λ w,
  match a_sched w with
  | [] => (Ok (mk_atick id 0 0%N (ARefused CancelledError)), w)
  | t :: sched => (Ok t, mk_aworld (at_env t (a_db w)) sched (a_log w))
  end.

(** What the database driver raises: nothing an application raises itself. *)
Definition driver_fault (e : exn) : exn :=
  match e with
  | CancelledError => CancelledError
  | PoolTimeout => PoolTimeout
  | e => OtherException "OperationalError" (exn_str e)
  end.

Definition arun_tx {A} (m : tx adb A) : proc aworld A := λ w,
  match m (a_db w) with
  | Ok (a, d') => (Ok a, mk_aworld d' (a_sched w) (a_log w ++ [Committed (a_db w) d']))
  | Err e => (Err e, w)
  end.

(** A transaction; [m] gets the time and a fresh random identifier. *)
Definition adb_call {A} (m : timestamp → uuid → tx adb A) : proc aworld A :=
  t ← adraw;
  match at_out t with
  | ADone _ => arun_tx (m (at_now t) (at_fresh t))
  | ARefused e => throw (driver_fault e)
  | ALost e => try_except (arun_tx (m (at_now t) (at_fresh t));; throw (driver_fault e)) (λ _, throw (driver_fault e))
  end.

Definition adb_read {A} (q : timestamp → adb → result A) : proc aworld A :=
  t ← adraw;
  match at_out t with
  | ADone _ => d ← gets a_db; lift_result (q (at_now t) d)
  | ARefused e | ALost e => throw (driver_fault e)
  end.

(** [graph.aget_state] *)
Definition aget_state (thread : string) : proc aworld Snapshot :=
  t ← adraw;
  match at_out t with
  | ADone (ASnapshot s) => modify (alog (ReadState thread s));; mret s
  | ADone _ => throw (OtherException "GraphError" "no snapshot")
  | ARefused e | ALost e => throw e
  end.

(** [graph.ainvoke]: nodes may have run even when it raises. *)
Definition ainvoke (thread : string) (input : graph_input) : proc aworld unit :=
  t ← adraw;
  match at_out t with
  | ADone _ => modify (alog (Invoked thread input))
  | ARefused e => throw e
  | ALost e => modify (alog (Invoked thread input));; throw e
  end.

(** [graph.aupdate_state]: [None] only clears the pending tasks. *)
Definition aupdate_state (thread as_node : string) (u : option graph_update) : proc aworld unit :=
  t ← adraw;
  match at_out t with
  | ADone _ => modify (alog (Updated thread as_node u))
  | ARefused e => throw e
  | ALost e => modify (alog (Updated thread as_node u));; throw e
  end.

(** The worker's [Store.command], [Store.failed_page], and
    [Store.resolve_failed] without a retry. *)
Definition worker_command : proc aworld (option (command_row * inbox_row * binding)) :=
  t ← adraw;
  match at_out t with
  | ADone (AWorker row) => modify (alog (ReadCommand row));; mret row
  | ADone _ => throw (OtherException "OperationalError" "no row")
  | ARefused e | ALost e => throw (driver_fault e)
  end.
Definition worker_failed_page : proc aworld (list (uuid * command_row)) :=
  t ← adraw;
  match at_out t with
  | ADone (AFailed rows) => mret rows
  | ADone _ => throw (OtherException "OperationalError" "no rows")
  | ARefused e | ALost e => throw (driver_fault e)
  end.
Definition skip_command (command : uuid) (reason : string) : proc aworld unit :=
  t ← adraw;
  match at_out t with
  | ADone _ => modify (alog (Skipped command reason))
  | ARefused e => throw e
  | ALost e => modify (alog (Skipped command reason));; throw (driver_fault e)
  end.

(** A transaction on the plan tables, which share the tasks with the agent's. *)
Definition plans_call {A} (m : uuid * uuid * uuid → tx wdb A) : proc aworld A :=
  t ← adraw;
  match at_out t with
  | ADone (APlans tables ids) =>
      d ← gets a_db;
      let before := set_agent (λ _, d) tables in
      match m ids before with
      | Ok (a, after) => modify (alog (Planned before after));; mret a
      | Err e => throw e
      end
  | ADone _ => throw (OtherException "OperationalError" "no tables")
  | ARefused e | ALost e => throw (driver_fault e)
  end.

(** A text from outside: a file, or the answer of a model. *)
Definition atext : proc aworld string :=
  t ← adraw;
  match at_out t with
  | ADone (AText s) => mret s
  | ADone _ => throw (OtherException "OSError" "no text")
  | ARefused e | ALost e => throw e
  end.

(** [asyncio.timeout]: a cancellation of the body may be the time running out. *)
Definition with_timeout {A} (body : proc aworld A) : proc aworld A :=
  try_except body (λ e,
    match e with
    | CancelledError => t ← adraw; match at_out t with ADone _ => throw TimeoutError | _ => throw CancelledError end
    | e => throw e
    end).

(** [async with guard.hold(session_id)]: entering and leaving may raise. *)
Definition ahold {A} (body : proc aworld A) : proc aworld A :=
  t ← adraw;
  match at_out t with
  | ADone _ =>
      try_finally body
        (t' ← adraw; match at_out t' with ADone _ => mret tt | ARefused e | ALost e => throw e end)
  | ARefused e | ALost e => throw e
  end.

(** ** Rules

    [R] is what committed transactions do to the tables, the coroutine's own
    and those of the other processes; [after w w' l] is a stretch of the
    coroutine that logged [l]. *)
Section Rules.
Context (R : relation adb) `{!PreOrder R}.

Definition afair (w : aworld) : Prop := Forall (λ t, ∀ d, R d (at_env t d)) (a_sched w).

Definition after (w w' : aworld) (l : list action) : Prop :=
  afair w' ∧ R (a_db w) (a_db w') ∧ a_log w' = a_log w ++ l.

Lemma after_refl w : afair w → after w w [].
Proof using Type*. intros Hf. split_and!; [done|reflexivity|by rewrite app_nil_r]. Qed.

Lemma after_trans w1 w2 w3 l1 l2 : after w1 w2 l1 → after w2 w3 l2 → after w1 w3 (l1 ++ l2).
Proof using Type*.
  intros (_ & R1 & L1) (F & R2 & L2). split_and!; [done|by etransitivity|by rewrite L2, L1, app_assoc].
Qed.

Lemma after_kept x w w' l : after w w' l → x ∈ a_log w → x ∈ a_log w'.
Proof using Type. intros (_ & _ & ->) Hx. by apply elem_of_app; left. Qed.
Lemma after_logged x w w' l : after w w' l → x ∈ l → x ∈ a_log w'.
Proof using Type. intros (_ & _ & ->) Hx. by apply elem_of_app; right. Qed.

Lemma after_log x w w' : after w w' [] → after w (alog x w') [x].
Proof using Type. intros (F & Hr & L). split_and!; [done..|]. simpl. by rewrite L, app_nil_r. Qed.

Lemma wp_adraw Q w : afair w → (∀ t w', after w w' [] → Q (Ok t) w') → wp adraw Q w.
Proof using Type*.
  intros Hf HQ. unfold wp, adraw. unfold afair in Hf. destruct (a_sched w) as [|t sched] eqn:Hs.
  - apply HQ, after_refl. red. simpl. by rewrite Hs.
  - inversion Hf; subst. apply HQ. split_and!; simpl; [done|auto|by rewrite app_nil_r].
Qed.

(** A transaction commits (and is logged) or leaves no trace; a committed one
    may still raise a driver fault. *)
Lemma wp_adb_call {A} (m : timestamp → uuid → tx adb A) Q w : afair w →
  (∀ now u d a d', m now u d = Ok (a, d') → R d d') →
  (∀ now u d a w2, m now u d = Ok (a, a_db w2) → R (a_db w) d → after w w2 [Committed d (a_db w2)] →
     Q (Ok a) w2 ∧ (∀ e, Q (Err (driver_fault e)) w2)) →
  (∀ now u w1 e, after w w1 [] → m now u (a_db w1) = Err e → Q (Err e) w1) →
  (∀ w1 e, after w w1 [] → Q (Err (driver_fault e)) w1) →
  wp (adb_call m) Q w.
Proof using Type*.
  intros Hf Hm Hok Herr Hdrv. apply wp_bind, wp_adraw; [done|]. intros t w1 H1.
  assert (Hc : ∀ now u a d', m now u (a_db w1) = Ok (a, d') →
    let w2 := mk_aworld d' (a_sched w1) (a_log w1 ++ [Committed (a_db w1) d']) in
    Q (Ok a) w2 ∧ (∀ e, Q (Err (driver_fault e)) w2)).
  { intros now u a d' E. destruct H1 as (F1 & R1 & L1).
    apply (Hok now u (a_db w1) a (mk_aworld d' (a_sched w1) (a_log w1 ++ [Committed (a_db w1) d']))); [done..|].
    split_and!; simpl; [done|etransitivity; [done|by eapply Hm]|by rewrite L1, app_nil_r]. }
  destruct (at_out t) as [r|e|e].
  - apply run_wp. unfold arun_tx. intros x w'.
    destruct (m (at_now t) (at_fresh t) (a_db w1)) as [[a d']|e] eqn:E; intros [= <- <-]; [by eapply Hc|by eapply Herr].
  - apply wp_throw. by apply Hdrv.
  - apply run_wp. unfold try_except, arun_tx, mbind, proc_bind. intros x w'.
    destruct (m (at_now t) (at_fresh t) (a_db w1)) as [[a d']|e'] eqn:E; intros [= <- <-]; [by eapply Hc|by apply Hdrv].
Qed.

Lemma wp_adb_read {A} (q : timestamp → adb → result A) Q w : afair w →
  (∀ now w1, after w w1 [] → Q (q now (a_db w1)) w1) →
  (∀ w1 e, after w w1 [] → Q (Err (driver_fault e)) w1) →
  wp (adb_read q) Q w.
Proof using Type*.
  intros Hf Hq Hdrv. apply wp_bind, wp_adraw; [done|]. intros t w1 H1. destruct (at_out t) as [r|e|e].
  - apply wp_bind, wp_gets, wp_lift. by apply Hq.
  - apply wp_throw. by apply Hdrv.
  - apply wp_throw. by apply Hdrv.
Qed.

Lemma wp_aget_state thread Q w : afair w →
  (∀ s w1, after w w1 [ReadState thread s] → Q (Ok s) w1) →
  (∀ w1 e, after w w1 [] → Q (Err e) w1) →
  wp (aget_state thread) Q w.
Proof using Type*.
  intros Hf Hs Herr. apply wp_bind, wp_adraw; [done|]. intros t w1 H1.
  destruct (at_out t) as [[|s| | | | |]|e|e]; try (apply wp_throw; by apply Herr).
  apply wp_bind, wp_modify, wp_ret, Hs. by apply after_log.
Qed.

Lemma wp_ainvoke thread input Q w : afair w →
  (∀ w1, after w w1 [Invoked thread input] → Q (Ok tt) w1 ∧ ∀ e, Q (Err e) w1) →
  (∀ w1 e, after w w1 [] → Q (Err e) w1) →
  wp (ainvoke thread input) Q w.
Proof using Type*.
  intros Hf Hs Herr. apply wp_bind, wp_adraw; [done|]. intros t w1 H1.
  apply (after_log (Invoked thread input)) in H1 as H2. destruct (at_out t) as [r|e|e].
  - apply wp_modify. by apply Hs.
  - apply wp_throw. by apply Herr.
  - apply wp_bind, wp_modify, wp_throw. by apply Hs.
Qed.

Lemma wp_aupdate_state thread node u Q w : afair w →
  (∀ w1, after w w1 [Updated thread node u] → Q (Ok tt) w1 ∧ ∀ e, Q (Err e) w1) →
  (∀ w1 e, after w w1 [] → Q (Err e) w1) →
  wp (aupdate_state thread node u) Q w.
Proof using Type*.
  intros Hf Hs Herr. apply wp_bind, wp_adraw; [done|]. intros t w1 H1.
  apply (after_log (Updated thread node u)) in H1 as H2. destruct (at_out t) as [r|e|e].
  - apply wp_modify. by apply Hs.
  - apply wp_throw. by apply Herr.
  - apply wp_bind, wp_modify, wp_throw. by apply Hs.
Qed.

Lemma wp_worker_command Q w : afair w →
  (∀ row w1, after w w1 [ReadCommand row] → Q (Ok row) w1) → (∀ w1 e, after w w1 [] → Q (Err e) w1) →
  wp worker_command Q w.
Proof using Type*.
  intros Hf HQ Herr. apply wp_bind, wp_adraw; [done|]. intros t w1 H1.
  destruct (at_out t) as [[| | |row| | |]|e|e]; try (apply wp_throw; by apply Herr).
  apply wp_bind, wp_modify, wp_ret, HQ. by apply after_log.
Qed.

Lemma wp_skip_command command reason Q w : afair w →
  (∀ r w1, after w w1 [Skipped command reason] → Q r w1) → (∀ w1 e, after w w1 [] → Q (Err e) w1) →
  wp (skip_command command reason) Q w.
Proof using Type*.
  intros Hf HQ Herr. apply wp_bind, wp_adraw; [done|]. intros t w1 H1.
  apply (after_log (Skipped command reason)) in H1 as H2. destruct (at_out t) as [r|e|e].
  - apply wp_modify. by apply HQ.
  - apply wp_throw. by apply Herr.
  - apply wp_bind, wp_modify, wp_throw. by apply HQ.
Qed.

Lemma wp_plans_call {A} (m : uuid * uuid * uuid → tx wdb A) Q w : afair w →
  (∀ a d d' w1 ids, agent d = a_db w1 → m ids d = Ok (a, d') → after w w1 [Planned d d'] → Q (Ok a) w1) →
  (∀ w1 e, after w w1 [] → Q (Err e) w1) →
  wp (plans_call m) Q w.
Proof using Type*.
  intros Hf HQ Herr. apply wp_bind, wp_adraw; [done|]. intros t w1 H1.
  destruct (at_out t) as [[| | | | |tables ids|]|e|e]; try (apply wp_throw; by apply Herr).
  apply wp_bind, wp_gets. cbv zeta. destruct (m ids _) as [[a d']|e] eqn:E; [|apply wp_throw; by apply Herr].
  apply wp_bind, wp_modify, wp_ret. eapply HQ; [|exact E|by apply after_log]. done.
Qed.

Lemma wp_atext Q w : afair w → (∀ x w1, after w w1 [] → Q x w1) → wp atext Q w.
Proof using Type*.
  intros Hf HQ. apply wp_bind, wp_adraw; [done|]. intros t w1 H1.
  destruct (at_out t) as [[| | | | | |s]|e|e]; first [apply wp_ret|apply wp_throw]; by apply HQ.
Qed.

(** A timeout adds no effect of its own. *)
Lemma wp_with_timeout {A} (body : proc aworld A) Q w :
  wp body (λ r w1, Q r w1 ∧ (r = Err CancelledError → afair w1 ∧
    ∀ w2, after w1 w2 [] → Q (Err TimeoutError) w2 ∧ Q (Err CancelledError) w2)) w →
  wp (with_timeout body) Q w.
Proof using Type*.
  intros Hb. apply wp_try. eapply wp_mono; [exact Hb|]. intros [a|e] w1 [HQ Hc]; [done|].
  destruct (decide (e = CancelledError)) as [->|Hn]; [|destruct e; try done; by apply wp_throw].
  destruct (Hc eq_refl) as [Hf H2]. apply wp_bind, wp_adraw; [done|]. intros t w2 Ha.
  destruct (H2 w2 Ha). destruct (at_out t); by apply wp_throw.
Qed.

Lemma wp_ahold {A} (body : proc aworld A) Q w : afair w →
  (∀ w1 e, after w w1 [] → Q (Err e) w1) →
  (∀ w1, after w w1 [] → wp body (λ r w2, afair w2 ∧ ∀ w3, after w2 w3 [] → Q r w3 ∧ ∀ e, Q (Err e) w3) w1) →
  wp (ahold body) Q w.
Proof using Type*.
  intros Hf Herr Hbody. apply wp_bind, wp_adraw; [done|]. intros t w1 H1. destruct (at_out t) as [r|e|e];
    [|apply wp_throw; by apply Herr..].
  apply wp_finally. eapply wp_mono; [by apply Hbody|]. intros x w2 [F2 Hx].
  apply wp_bind, wp_adraw; [done|]. intros t' w3 H3. destruct (Hx _ H3) as [Hr He].
  destruct (at_out t') as [r'|e|e]; [by apply wp_ret|by apply wp_throw..].
Qed.
End Rules.
