(* ===== verification/Executor.v ===== *)
(** * The Executor's HTTP API
    ([ex_agent/executor/client.py], [ex_agent/executor/requests.py],
    [ex_agent/executor/contracts.py], [agent/effects/runner.py])

    The payloads of the calls, the client with its three attempts, and the
    sender that validates a receipt before the journal records it. pydantic's
    parsing of the replies is a parameter. *)

From stdpp Require Import base gmap strings list.
From Stdlib Require Import ZArith Lia.
From S2P Require Import Prelude Text Session AgentTables AgentWorld.
Local Open Scope Z_scope.
Set Default Proof Using "Type".

(** ** Payloads ([ex_agent/executor/requests.py]) *)

Definition agent_actor : json := JObj [("type", JStr "AGENT"); ("id", JStr "ex-agent")].

Definition opt_json (o : option string) : json := from_option JStr JNull o.

(** [step.get("payload", {})], [.get("source", {})] and a truthy entry. *)
Definition dict_get (k : string) (default : json) (j : json) : result json :=
  if is_dict j then Ok (match jget k j with Some v => v | None => default end)
  else Err (OtherException "AttributeError" "object has no attribute 'get'").
Definition filled (k : string) (j : json) : bool := from_option json_truthy false (jget k j).

(** [require_path_sources] *)
Definition require_path_source (step : json) : result unit :=
  payload ← dict_get "payload" (JObj []) step;
  source ← dict_get "source" (JObj []) payload;
  type ← dict_get "type" JNull source;
  raise_if (negb (bool_decide (type = JStr "PATH"))) (ValueError "Executor Step source must use PATH");;
  raise_if (negb (filled "path" source && filled "sha256" source))
    (ValueError "Executor PATH source requires path and sha256").
Definition require_path_sources (steps : list json) : result unit := each require_path_source steps.

Definition lifecycle (mode : string) (wait_timeout_seconds : Z) : json :=
  JObj (("operation_mode", JStr mode) ::
        (if String.eqb mode "MULTI" then [("operation_wait_timeout_seconds", JInt wait_timeout_seconds)] else [])).

Definition submit_payload (idempotency_key mode : string) (wait_timeout_seconds : Z)
    (runtime_profile user_id project_id session_id task_id : string) (workflow_id : option string) (steps : list json)
    : result json :=
  require_path_sources steps;;
  Ok (JObj
    [("idempotency_key", JStr idempotency_key);
     ("lifecycle", lifecycle mode wait_timeout_seconds);
     ("trigger", JObj [("type", JStr "INTERACTIVE"); ("actor", agent_actor)]);
     ("runtime", JObj [("type", JStr "JUPYTER"); ("profile", JStr runtime_profile)]);
     ("context", JObj [("user_id", JStr user_id); ("project_id", JStr project_id); ("session_id", JStr session_id);
                       ("task_id", JStr task_id); ("workflow_id", opt_json workflow_id)]);
     ("operation", JObj [("spec", JObj [("schema_version", JStr "1.0"); ("steps", JArr steps)]); ("metadata", JObj [])]);
     ("metadata", JObj [("agent_plan_task_id", JStr task_id)])]).

Definition append_payload (idempotency_key : string) (expected_version : Z) (steps : list json) : result json :=
  require_path_sources steps;;
  Ok (JObj
    [("idempotency_key", JStr idempotency_key); ("expected_version", JInt expected_version);
     ("spec", JObj [("schema_version", JStr "1.0"); ("steps", JArr steps)]);
     ("metadata", JObj [("reason", JStr "adaptive_multi_plan")]); ("actor", agent_actor)]).

Definition finalize_payload (idempotency_key : string) (expected_version : Z) : json :=
  JObj [("idempotency_key", JStr idempotency_key); ("expected_version", JInt expected_version); ("actor", agent_actor)].

Definition cancel_payload (idempotency_key actor_type actor_id : string) (reason : option string) : json :=
  JObj [("idempotency_key", JStr idempotency_key); ("reason", opt_json reason);
        ("actor", JObj [("type", JStr actor_type); ("id", JStr actor_id)])].

Definition report_payload (idempotency_key path sha256 : string) : json :=
  JObj
    [("idempotency_key", JStr idempotency_key); ("type", JStr "REPORT");
     ("source", JObj [("type", JStr "PATH"); ("path", JStr path); ("sha256", JStr sha256)]);
     ("name", JStr "analysis-report.md"); ("description", JStr "Agent-generated successful execution report");
     ("media_type", JStr "text/markdown"); ("append_to_notebook", JBool true);
     ("metadata", JObj [("producer", JStr "ex-agent")]); ("actor", agent_actor)].

(** [executor_step_payload] *)
Definition executor_step_payload (sequence : Z) (path sha256 : string) (timeout_seconds : Z)
    (skill_name tool_name : option string) (parameters : list (string * json)) : json :=
  JObj
    [("sequence", JInt sequence);
     ("payload", JObj [("type", JStr "PYTHON_EXECUTE");
                       ("source", JObj [("type", JStr "PATH"); ("path", JStr path); ("sha256", JStr sha256)])]);
     ("step_timeout_seconds", JInt timeout_seconds);
     ("lineage", JObj [("skill_name", opt_json skill_name); ("tool_name", opt_json tool_name);
                       ("input_parameters", JObj parameters)])].

(** ** Requests *)

(** [httpx.TimeoutException] and [httpx.NetworkError] *)
Definition is_transport (e : exn) : bool :=
  match e with
  | OtherException cls _ => String.eqb cls "TimeoutException" || String.eqb cls "NetworkError"
  | _ => false
  end.

(** [response.json()] *)
Definition response_json (body : option json) : result json :=
  from_option_err (ValueError "Expecting value") body.

Definition alogs (l : list action) (w : aworld) : aworld := mk_aworld (a_db w) (a_sched w) (a_log w ++ l).

(** One attempt; [logged] is what it leaves in the log, given the reply if it
    arrived. *)
Definition success (status : Z) : bool := (200 <=? status) && (status <? 300).
Definition http_once (logged : option (Z * option json) → list action) : proc aworld (option json) :=
  t ← adraw;
  let write o := modify (alogs (logged o)) in
  match at_out t with
  | ADone (AHttp status body text) =>
      write (Some (status, body));;
      guard_or (success status) (ExecutorRequestError status ("Executor HTTP " +:+ int_str status +:+ ": " +:+ slice_to 2000 text));;
      mret body
  | ADone _ => write None;; throw (OtherException "RemoteProtocolError" "no response")
  | ARefused e => throw e
  | ALost e => write None;; throw e
  end.

(** [_request]: [n] more attempts after this one. *)
Fixpoint http_attempts (n : nat) (logged : option (Z * option json) → list action) : proc aworld (option json) :=
  try_except (http_once logged) (λ e,
    if is_transport e then match n with O => throw e | S n' => http_attempts n' logged end else throw e).
Definition http_request (logged : option (Z * option json) → list action) : proc aworld (option json) :=
  http_attempts 2 logged.

(** A read of the Executor, and a POST of a request of the journal. *)
Definition http_get (path : string) (params : list (string * json)) : proc aworld json :=
  body ← http_request (λ o, match o with
    | Some (status, Some j) => if success status then [Asked path params j] else []
    | _ => []
    end);
  lift_result (response_json body).
Definition http_post (request : json) : proc aworld json :=
  body ← http_request (λ _, [Sent request]);
  lift_result (response_json body).

(** ** The client *)

Record CommandResponse := mk_command_response {
  cr_execution_id : uuid;
  cr_operation_id : option uuid;
  cr_version : Z
}.
Record ExecutionResult := mk_execution_result { xr_execution_id : uuid; xr_status : string }.
Record ExecutorEventPage := mk_event_page {
  pg_items : list json;
  pg_next_cursor : option string;
  pg_has_more : bool
}.

Section Client.
(** [model_validate] of the reply models; [artifact_response] also dumps. *)
Context (command_response : json → result CommandResponse) (artifact_response : json → result json)
  (execution_result : json → result ExecutionResult) (event_page : json → result ExecutorEventPage).

Definition result_path (execution_id : uuid) : string := "/executions/" +:+ uuid_str execution_id +:+ "/result".

(** [ExecutorClient.result] *)
Definition execution_status (execution_id : uuid) : proc aworld ExecutionResult :=
  body ← http_get (result_path execution_id) [];
  lift_result (execution_result body).

Definition item_of (k : string) (j : json) : result json :=
  if is_dict j then from_option_err (KeyError k) (jget k j) else Err (TypeError "indices must be integers or slices, not str").

(** [UUID(value)] *)
Definition uuid_of (j : json) : result uuid :=
  match j with
  | JStr s => from_option_err (ValueError "badly formed hexadecimal UUID string") (uuid_parse s)
  | _ => Err (OtherException "AttributeError" "object has no attribute 'replace'")
  end.

(** What [find_task_execution] takes from a page. *)
Definition found_execution (identity : list (string * string)) (page : json) : result (option uuid) :=
  items ← item_of "items" page;
  more ← dict_get "has_more" JNull page;
  match items with
  | JArr l =>
      raise_if (negb (bool_decide (more = JBool false)) || (1 <? length l)%nat) (ValueError "Task execution lookup is ambiguous");;
      match l with
      | [] => Ok None
      | item :: _ =>
          context ← item_of "context" item;
          values ← mapM (λ kv : string * string, v ← dict_get kv.1 JNull context; Ok (bool_decide (v = JStr kv.2))) identity;
          raise_if (negb (forallb id values)) (ValueError "Execution lookup returned another Task");;
          value ← item_of "execution_id" item;
          u ← uuid_of value; Ok (Some u)
      end
  | _ => Err (ValueError "Task execution lookup is ambiguous")
  end.

Definition find_task_execution (user_id project_id session_id task_id : string) : proc aworld (option uuid) :=
  let identity := [("user_id", user_id); ("project_id", project_id); ("session_id", session_id); ("task_id", task_id)] in
  page ← http_get "/executions" (map (λ kv : string * string, (kv.1, JStr kv.2)) identity ++ [("limit", JInt 2)]);
  lift_result (found_execution identity page).

(** [events_after]: [fuel] bounds the pages; [events_after_total] shows that
    [limit] of them are enough. *)
Definition events_path (execution_id : uuid) : string := "/executions/" +:+ uuid_str execution_id +:+ "/events".
Definition page_params (after_sequence remaining : Z) (cursor : option string) : list (string * json) :=
  [("after_sequence", JInt after_sequence); ("limit", JInt (Z.min remaining 500))] ++
  from_option (λ c, [("cursor", JStr c)]) [] cursor.
Definition out_of_fuel : exn := OtherException "OutOfFuel" "".
Fixpoint events_loop (fuel : nat) (execution_id : uuid) (after_sequence remaining : Z) (cursor : option string)
    (events : list json) : proc aworld (list json) :=
  if negb (0 <? remaining) then mret events else
  match fuel with
  | O => throw out_of_fuel
  | S fuel' =>
      body ← http_get (events_path execution_id) (page_params after_sequence remaining cursor);
      page ← lift_result (event_page body);
      let events' := events ++ pg_items page in
      let remaining' := remaining - Z.of_nat (length (pg_items page)) in
      match pg_has_more page, pg_next_cursor page with
      | true, Some c =>
          guard_or (negb (bool_decide (pg_items page = []))) (ValueError "Executor event page did not advance");;
          events_loop fuel' execution_id after_sequence remaining' (Some c) events'
      | _, _ => mret events'
      end
  end.
Definition events_after (execution_id : uuid) (after_sequence limit : Z) : proc aworld (list json) :=
  events_loop (Z.to_nat limit) execution_id after_sequence limit None [].

(** ** The sender of the journal *)

(** [restore_files] writes local files; an error comes from the schedule. *)
Definition restore_files : proc aworld unit :=
  t ← adraw; match at_out t with ADone _ => mret tt | ARefused e | ALost e => throw e end.

(** [post_prepared] *)
Definition post_prepared (request : json) : proc aworld json :=
  raw ← http_post request;
  guard_or (is_dict raw) (ValueError "Executor response must be a JSON object");;
  mret raw.

Definition takes_operation (kind : json) : bool := bool_decide (kind = JStr "submit") || bool_decide (kind = JStr "append").

(** The receipt of a command. *)
Definition receipt_json (request kind : json) (r : CommandResponse) : result json :=
  let expected := default JNull (jget "execution_id" request) in
  raise_if (negb (bool_decide (expected = JNull)) && negb (bool_decide (JStr (uuid_str (cr_execution_id r)) = expected)))
    (ValueError "Executor response has another Execution ID");;
  raise_if (takes_operation kind && bool_decide (cr_operation_id r = None)) (ValueError "Executor response omitted Operation");;
  Ok (JObj [("execution_id", JStr (uuid_str (cr_execution_id r))); ("execution_version", JInt (cr_version r));
            ("operation_id", match cr_operation_id r with
                             | Some o => if takes_operation kind then JStr (uuid_str o) else JNull
                             | None => JNull
                             end)]).

(** [ExecutorEffectSender.send] *)
Definition send (request : json) : proc aworld json :=
  restore_files;;
  lift_result (_ ← item_of "path" request; _ ← item_of "body" request; Ok tt);;
  raw ← post_prepared request;
  kind ← lift_result (item_of "kind" request);
  if bool_decide (kind = JStr "report") then lift_result (artifact_response raw)
  else r ← lift_result (command_response raw); lift_result (receipt_json request kind r).
End Client.

(** ** Rules *)
Section Rules.
Context (R : relation adb) `{!PreOrder R}.

Lemma after_logs l w w' : after R w w' [] → after R w (alogs l w') l.
Proof using Type. intros (F & Hr & L). split_and!; [done..|]. simpl. by rewrite L, app_nil_r. Qed.

(** A request leaves what its attempts left, the successful one last. *)
Lemma wp_http_once logged Q w : afair R w →
  (∀ x w' l, after R w w' l → (∀ a, a ∈ l → ∃ o, a ∈ logged o) →
     (∀ body, x = Ok body → ∃ status, success status = true ∧ l = logged (Some (status, body))) → Q x w') →
  wp (http_once logged) Q w.
Proof using Type*.
  intros Hf HQ. apply wp_bind, (wp_adraw R); [done|]. intros t w1 H1.
  assert (Hw : ∀ o, after R w (alogs (logged o) w1) (logged o)) by (intros o; by apply after_logs).
  assert (Hin : ∀ o a, a ∈ logged o → ∃ o, a ∈ logged o) by (intros o a Ha; by exists o).
  cbv beta zeta. destruct (at_out t) as [[| |status body text| | | |]|e|e]; repeat wp_step; try (eapply HQ; [apply Hw|eauto|done]).
  - eapply HQ; [apply Hw|eauto|]. intros b [= <-]. by exists status.
  - eapply HQ; [exact H1| |done]. intros a Ha. by apply not_elem_of_nil in Ha.
Qed.

Lemma wp_http_request n logged Q w : afair R w →
  (∀ x w' l, after R w w' l → (∀ a, a ∈ l → ∃ o, a ∈ logged o) →
     (∀ body, x = Ok body → ∃ status l', success status = true ∧ l = l' ++ logged (Some (status, body))) → Q x w') →
  wp (http_attempts n logged) Q w.
Proof using Type*.
  revert w Q. induction n as [|n IH]; intros w Q Hf HQ; simpl; apply wp_try, wp_http_once; try done;
    intros x w1 l Ha Hl Hok; (destruct x as [body|e];
      [apply (HQ _ _ _ Ha Hl); intros b Hb; destruct (Hok b Hb) as (st & ? & ->); by exists st, []|]).
  1,2: destruct (is_transport e); try (apply wp_throw; by apply (HQ _ _ _ Ha Hl)).
  apply IH; [apply Ha|]. intros x w2 l2 Ha2 Hl2 Hok2. apply (HQ x w2 (l ++ l2)).
  - by eapply after_trans.
  - intros a [?|?]%elem_of_app; eauto.
  - intros b Hb. destruct (Hok2 b Hb) as (st & l' & ? & ->). exists st, (l ++ l'). by rewrite app_assoc.
Qed.

Lemma wp_http_get path params Q w : afair R w →
  (∀ x w' l, after R w w' l → (∀ a, a ∈ l → ∃ j, a = Asked path params j) →
     (∀ j, x = Ok j → Asked path params j ∈ l) → Q x w') →
  wp (http_get path params) Q w.
Proof using Type*.
  intros Hf HQ. apply wp_bind, wp_http_request; [done|]. intros x w1 l Ha Hl Hok.
  assert (Hl' : ∀ a, a ∈ l → ∃ j, a = Asked path params j).
  { intros a (o & Ho)%Hl. destruct o as [[status [j|]]|]; [|by apply not_elem_of_nil in Ho..].
    destruct (success status); [|by apply not_elem_of_nil in Ho]. apply list_elem_of_singleton in Ho. by exists j. }
  destruct x as [body|e]; [|by apply (HQ _ _ _ Ha Hl')]. apply wp_lift. apply (HQ _ _ _ Ha Hl').
  intros j Hj. destruct (Hok _ eq_refl) as (st & l' & Hs & ->). destruct body as [b|]; [|done].
  injection Hj as ->. rewrite Hs. apply elem_of_app. right. by left.
Qed.

Lemma wp_http_post request Q w : afair R w →
  (∀ x w' l, after R w w' l → (∀ a, a ∈ l → a = Sent request) → Q x w') → wp (http_post request) Q w.
Proof using Type*.
  intros Hf HQ. apply wp_bind, wp_http_request; [done|]. intros x w1 l Ha Hl _.
  assert (Hl' : ∀ a, a ∈ l → a = Sent request) by (intros a (o & Ho)%Hl; by apply list_elem_of_singleton in Ho).
  destruct x as [body|e]; [apply wp_lift|]; by apply (HQ _ _ _ Ha Hl').
Qed.

(** Whatever happens, the sender sends the request of the journal only. *)
Lemma wp_send command_response artifact_response request Q w : afair R w →
  (∀ x w' l, after R w w' l → (∀ a, a ∈ l → a = Sent request) → Q x w') →
  wp (send command_response artifact_response request) Q w.
Proof using Type*.
  intros Hf HQ. assert (Hnil : ∀ a, a ∈ ([] : list action) → a = Sent request) by (intros a Ha; by apply not_elem_of_nil in Ha).
  apply wp_bind. unfold restore_files. apply wp_bind, (wp_adraw R); [done|]. intros t w1 H1.
  destruct (at_out t) as [r|e|e]; [apply wp_ret|apply wp_throw; by apply (HQ _ _ _ H1 Hnil)..].
  apply wp_bind, wp_lift. destruct (_ ← item_of "path" request; _) as [[]|e]; [|by apply (HQ _ _ _ H1 Hnil)].
  apply wp_bind, wp_bind, wp_http_post; [apply H1|]. intros x w2 l Ha2 Hl.
  assert (Ha : after R w w2 l) by by apply (after_trans _ _ _ _ _ _ H1).
  destruct x as [raw|e]; [|by apply (HQ _ _ _ Ha)]. apply wp_bind, wp_guard; intros _; [apply wp_ret|by apply (HQ _ _ _ Ha)].
  apply wp_bind, wp_lift. destruct (item_of "kind" request) as [kind|e]; [|by apply (HQ _ _ _ Ha)].
  case_bool_decide; [apply wp_lift; by apply (HQ _ _ _ Ha)|]. apply wp_bind, wp_lift.
  destruct (command_response raw); [apply wp_lift|]; by apply (HQ _ _ _ Ha).
Qed.
End Rules.
