(* ===== verification/ExecutorProps.v ===== *)
(** * Reading the events of an execution
    ([ex_agent/executor/client.py], [events_after])

    The loop over the pages ends, and what it returns are the items of the
    pages it asked for, each page asked for at the cursor of the one before. *)

From stdpp Require Import base gmap strings list relations.
From Stdlib Require Import ZArith Lia.
From S2P Require Import Prelude Text Session AgentTables AgentWorld Executor.
Local Open Scope Z_scope.
Set Default Proof Using "Type".

Section Pages.
Context (R : relation adb) `{!PreOrder R} (event_page : json → result ExecutorEventPage).

(** A read leaves the reply in the log exactly when it returns one. *)
Definition read_log (path : string) (params : list (string * json)) (o : option (Z * option json)) : list action :=
  match o with
  | Some (status, Some j) => if success status then [Asked path params j] else []
  | _ => []
  end.
Definition reply_log (path : string) (params : list (string * json)) (x : result (option json)) : list action :=
  match x with Ok (Some j) => [Asked path params j] | _ => [] end.

Lemma wp_read_once path params Q w : afair R w →
  (∀ x w', after R w w' (reply_log path params x) → Q x w') → wp (http_once (read_log path params)) Q w.
Proof using Type*.
  intros Hf HQ. apply wp_bind, (wp_adraw R); [done|]. intros t w1 H1.
  assert (Hw : ∀ o, after R w (alogs (read_log path params o) w1) (read_log path params o)) by (intros; by apply after_logs).
  cbv beta zeta. destruct (at_out t) as [[| |status body text| | | |]|e|e]; repeat wp_step;
    try (apply (HQ (Err _)); first [exact H1|apply (Hw None)]).
  - apply HQ. pose proof (Hw (Some (status, body))) as Ha. destruct body as [j|]; [|done]. cbn [read_log reply_log] in *.
    match goal with E : success _ = _ |- _ => by rewrite E in * end.
  - apply (HQ (Err _)). pose proof (Hw (Some (status, body))) as Ha. destruct body as [j|]; [|done]. cbn [read_log reply_log] in *.
    match goal with E : success _ = _ |- _ => by rewrite E in * end.
Qed.

Lemma wp_read_attempts n path params Q w : afair R w →
  (∀ x w', after R w w' (reply_log path params x) → Q x w') → wp (http_attempts n (read_log path params)) Q w.
Proof using Type*.
  revert w Q. induction n as [|n IH]; intros w Q Hf HQ; simpl; apply wp_try, wp_read_once; try done;
    intros [b|e] w1 Ha; try by apply HQ.
  all: destruct (is_transport e); [|apply wp_throw; by apply (HQ (Err e))].
  - apply wp_throw. by apply (HQ (Err e)).
  - apply IH; [apply Ha|]. intros x w2 Ha2. apply HQ. by apply (after_trans R _ _ _ [] _ Ha).
Qed.

Lemma wp_read path params Q w : afair R w →
  (∀ j w', after R w w' [Asked path params j] → Q (Ok j) w') → (∀ e w', after R w w' [] → Q (Err e) w') →
  wp (http_get path params) Q w.
Proof using Type*.
  intros Hf Hok Herr. apply wp_bind. refine (wp_read_attempts 2 path params _ w Hf _). intros [[j|]|e] w' Ha; [by apply wp_lift, Hok|by apply wp_lift, Herr|by apply Herr].
Qed.

(** ** Termination *)

(** Every page but the last carries an item, so that [limit] pages are enough:
    more of them change nothing. *)
Lemma events_loop_enough fuel fuel' id after_sequence remaining cursor events w :
  remaining ≤ Z.of_nat fuel → remaining ≤ Z.of_nat fuel' →
  events_loop event_page fuel id after_sequence remaining cursor events w =
  events_loop event_page fuel' id after_sequence remaining cursor events w.
Proof.
  revert fuel' remaining cursor events w. induction fuel as [|fuel IH]; intros [|fuel'] remaining cursor events w H1 H2; cbn [events_loop];
    destruct (0 <? remaining) eqn:Hr; try done; apply Z.ltb_lt in Hr; [lia..|].
  unfold mbind, proc_bind, lift_result, guard_or. cbn [negb]; cbv beta.
  destruct (http_get (events_path id) (page_params after_sequence remaining cursor) w) as [[body|e] w1]; [|done]. destruct (event_page body) as [page|e]; [|done].
  destruct (pg_has_more page); [|done]. destruct (pg_next_cursor page) as [c|]; [|done].
  case_bool_decide as Hi; [done|]. simpl. apply IH; destruct (pg_items page); simpl; try done; lia.
Qed.

(** The pages of a run, the first of them asked for at [cursor] with
    [remaining] items to go. *)
Inductive pages (id : uuid) (after_sequence : Z) : Z → option string → list action → list json → Prop :=
| pages_end remaining cursor : remaining ≤ 0 → pages id after_sequence remaining cursor [] []
| pages_last remaining cursor body page : 0 < remaining → event_page body = Ok page →
    pg_has_more page = false ∨ pg_next_cursor page = None →
    pages id after_sequence remaining cursor
      [Asked (events_path id) (page_params after_sequence remaining cursor) body] (pg_items page)
| pages_next remaining cursor body page c l items : 0 < remaining → event_page body = Ok page →
    pg_has_more page = true → pg_next_cursor page = Some c → pg_items page ≠ [] →
    pages id after_sequence (remaining - Z.of_nat (length (pg_items page))) (Some c) l items →
    pages id after_sequence remaining cursor
      (Asked (events_path id) (page_params after_sequence remaining cursor) body :: l) (pg_items page ++ items).

Lemma events_loop_pages fuel id after_sequence remaining cursor events w Q : remaining ≤ Z.of_nat fuel → afair R w →
  (∀ w' l items, after R w w' l → pages id after_sequence remaining cursor l items → Q (Ok (events ++ items)) w') →
  (∀ e w', Q (Err e) w') →
  wp (events_loop event_page fuel id after_sequence remaining cursor events) Q w.
Proof using Type*.
  revert remaining cursor events w Q. induction fuel as [|fuel IH]; intros remaining cursor events w Q Hn Hf HQ Herr; simpl;
    (destruct (0 <? remaining) eqn:Hr; simpl;
     [apply Z.ltb_lt in Hr|apply Z.ltb_ge in Hr; rewrite <- (app_nil_r events); apply wp_ret, (HQ w []);
       [by apply (after_refl R)|by constructor]]); [lia|].
  apply wp_bind, wp_read; [done| |by intros; apply Herr]. intros body w1 Ha. apply wp_bind, wp_lift.
  destruct (event_page body) as [page|e] eqn:Ep; [|apply Herr].
  destruct (pg_has_more page) eqn:Em; [destruct (pg_next_cursor page) as [c|] eqn:Ec|].
  2,3: apply wp_ret, (HQ w1 _ _ Ha); eapply pages_last; eauto.
  apply wp_bind, wp_guard; intros Hg; [|apply Herr]. apply negb_true_iff, bool_decide_eq_false in Hg.
  apply IH; [|apply Ha| |apply Herr].
  - destruct (pg_items page); [done|]. simpl. lia.
  - intros w2 l items Ha2 Hp. rewrite <- app_assoc. eapply HQ; [by apply (after_trans R _ _ _ _ _ Ha Ha2)|]. by eapply pages_next.
Qed.

(** [events_after] ends: every page that does not end the loop carries at
    least one event, so that with [limit] pages the loop is done, whatever the
    Executor answers. *)
Theorem events_after_total fuel id after_sequence limit w : limit ≤ Z.of_nat fuel →
  events_loop event_page fuel id after_sequence limit None [] w = events_after event_page id after_sequence limit w.
Proof. intros H. apply events_loop_enough; lia. Qed.

(** For every schedule, what [events_after] returns are the events of the
    pages the Executor answered, in their order: each page was asked for at the
    cursor of the one before, at most 500 events and never more than those
    still missing, until a page was the last or [limit] events were there. *)
Theorem events_after_pages id after_sequence limit w items w' : afair R w →
  events_after event_page id after_sequence limit w = (Ok items, w') →
  ∃ l, after R w w' l ∧ pages id after_sequence limit None l items.
Proof using Type*.
  intros Hf Hrun. refine (wp_run _ (λ x w', ∀ items, x = Ok items → ∃ l, after R w w' l ∧ pages id after_sequence limit None l items)
    _ _ _ _ Hrun items eq_refl).
  apply events_loop_pages; [lia|done| |done]. intros w2 l items' Ha Hp ? [= <-]. by exists l.
Qed.
End Pages.

Module PagesDemo.
Definition page_of (j : json) : result ExecutorEventPage :=
  match j with
  | JObj [(_, JArr items); (_, JStr c)] => Ok (mk_event_page items (Some c) true)
  | JArr items => Ok (mk_event_page items None false)
  | _ => Err (ValueError "no page")
  end.
Definition quiet (r : areply) : atick := mk_atick (λ d, d) 0 0 (ADone r).
Definition lost : atick := mk_atick (λ d, d) 0 0 (ARefused (OtherException "TimeoutException" "")).
Definition asking : aworld := mk_aworld empty_adb
  [quiet (AHttp 200 (Some (JObj [("items", JArr [JInt 1; JInt 2]); ("next_cursor", JStr "c")])) ""); lost;
   quiet (AHttp 200 (Some (JArr [JInt 3])) "")] [].
Lemma asking_fair : afair (=) asking.
Proof. unfold afair, asking, quiet, lost. repeat constructor. Qed.
Lemma asking_run : (events_after page_of 9 0 10 asking).1 = Ok [JInt 1; JInt 2; JInt 3].
Proof. vm_compute. reflexivity. Qed.
End PagesDemo.

Lemma events_after_total_witness :
  events_loop PagesDemo.page_of 50 9 0 10 None [] PagesDemo.asking = events_after PagesDemo.page_of 9 0 10 PagesDemo.asking.
Proof. exact (events_after_total PagesDemo.page_of 50 9 0 10 PagesDemo.asking ltac:(lia)). Defined.

Lemma events_after_pages_witness :
  ∃ l, pages PagesDemo.page_of 9 0 10 None l [JInt 1; JInt 2; JInt 3].
Proof.
  destruct (events_after_pages (=) PagesDemo.page_of 9 0 10 PagesDemo.asking [JInt 1; JInt 2; JInt 3]
    (events_after PagesDemo.page_of 9 0 10 PagesDemo.asking).2 PagesDemo.asking_fair) as (l & _ & H); [|exists l; exact H].
  rewrite <- PagesDemo.asking_run. apply surjective_pairing.
Defined.
