(* ===== verification/Effects.v ===== *)
(** * Journal of Executor requests
    ([agent/effects/store.py], [agent/effects/journal.py])

    An HTTP request to the Executor is written down before it is sent, and its
    receipt is written down before it is used: after a crash the identical
    request is sent again, and a receipt is never replaced by another one. *)

From stdpp Require Import base gmap strings list relations.
From Stdlib Require Import ZArith Lia.
From S2P Require Import Prelude Text Session AgentTables AgentWorld.
Local Open Scope Z_scope.
Set Default Proof Using "Type".

Section Effects.
(** [digest]: SHA-256 of the canonical JSON text. *)
Context (digest : json → string).

(** [_record] *)
Definition effect_record (x : effect_row) : result effect_row :=
  raise_if (negb (String.eqb (digest (x_request x)) (x_request_sha256 x)))
    (ValueError "Persisted Executor request checksum mismatch");;
  Ok x.

(** [validate_identity] *)
Definition validate_identity (x : effect_row) (task_id : uuid) (kind input_sha256 : string) : result unit :=
  raise_if (negb ((x_task_id x =? task_id)%N && String.eqb (x_kind x) kind && String.eqb (x_input_sha256 x) input_sha256))
    (ValueError "Executor effect key was reused with different input").

(** [EffectStore.get] *)
Definition get_effect (key : string) (d : adb) : result (option effect_row) :=
  match effects d !! key with
  | None => Ok None
  | Some x => x' ← effect_record x; Ok (Some x')
  end.

(** The text of a JSON value; that of a float, list or object is never a
    UUID, so it does not matter which one it is. *)
Definition astext (j : json) : option string :=
  match j with
  | JNull => None
  | JStr s => Some s
  | JInt z => Some (int_str z)
  | JBool b => Some (if b then "true" else "false")
  | JFloat r => Some r
  | JArr _ => Some "[]"
  | JObj _ => Some "{}"
  end.

(** The truthy identifiers of one row. *)
Definition effect_ids (x : effect_row) : list string :=
  let text (o : option json) : list string :=
    match o with
    | Some j => match jget "execution_id" j with
                | Some v => match astext v with Some s => [s] | None => [] end
                | None => []
                end
    | None => []
    end in
  filter (λ s : string, s ≠ "") (text (Some (x_request x)) ++ text (x_response x)).

Fixpoint parse_ids (l : list string) : result (gset uuid) :=
  match l with
  | [] => Ok ∅
  | s :: l' =>
      u ← from_option_err (ValueError "badly formed hexadecimal UUID string") (uuid_parse s);
      us ← parse_ids l';
      Ok ({[u]} ∪ us)
  end.

Definition task_effects (task_id : uuid) (d : adb) : list effect_row :=
  filter (λ x, x_task_id x = task_id) (map snd (map_to_list (effects d))).

(** [EffectStore.execution_references] *)
Definition execution_references (task_id : uuid) (d : adb) : result (gset uuid * nat) :=
  let rows := task_effects task_id d in
  ids ← parse_ids (concat (map effect_ids rows));
  Ok (ids, length (filter (λ x, x_kind x = "submit") rows)).

(** [EffectStore.prepare]: the first committed request of a key wins. *)
Definition prepare (key : string) (task_id : uuid) (kind input_sha256 : string) (request : json)
    : tx adb effect_row :=
  d ← tx_get;
  tx_guard (bool_decide (is_Some (effects d !! key)) || bool_decide (is_Some (tasks d !! task_id))) integrity_error;;
  tx_modify (set_effects (λ t, match t !! key with
    | Some _ => t
    | None => <[key := mk_effect key task_id kind input_sha256 (digest request) request None]> t
    end));;
  d ← tx_get;
  match effects d !! key with
  | None => tx_raise AssertionError
  | Some x =>
      record ← lift (effect_record x);
      lift (validate_identity record task_id kind input_sha256);;
      mret record
  end.

(** [{k: v for k, v in response.items() if k != "execution_version"}] *)
Definition response_identity (j : json) : json :=
  match j with
  | JObj l => JObj (filter (λ kv : string * json, kv.1 ≠ "execution_version") l)
  | j => j
  end.

(** [EffectStore.complete] *)
Definition complete (key : string) (response : json) : tx adb effect_row :=
  d ← tx_get;
  match effects d !! key with
  | None => tx_raise (LookupError "Executor request was not prepared")
  | Some x =>
      match x_response x with
      | Some previous =>
          tx_guard (bool_decide (response_identity response = response_identity previous))
            (ValueError "Executor effect response identity changed");;
          lift (effect_record x)
      | None =>
          let x' := mk_effect (x_key x) (x_task_id x) (x_kind x) (x_input_sha256 x) (x_request_sha256 x)
                      (x_request x) (Some response) in
          tx_modify (set_effects <[key := x']>);;
          lift (effect_record x')
      end
  end.

(** [EffectJournal.run]; [prepare_request] and [send] are the caller's
    closures. *)
Definition journal_run (task_id : uuid) (key kind : string) (inputs : json) (prepare_request : proc aworld json)
    (send : json → proc aworld json) : proc aworld effect_row :=
  let fingerprint := digest inputs in
  stored ← adb_read (λ _, get_effect key);
  record ← (match stored with
            | Some x => mret x
            | None =>
                request ← prepare_request;
                adb_call (λ _ _, prepare key task_id kind fingerprint request)
            end);
  lift_result (validate_identity record task_id kind fingerprint);;
  match x_response record with
  | None =>
      response ← send (x_request record);
      adb_call (λ _ _, complete key response)
  | Some _ => mret record
  end.
End Effects.
