(* ===== verification/AgentConforms.v ===== *)
(** * Coroutines that only make the service's transactions

    A coroutine of the agent service conforms to a relation when, whatever its
    schedule does, the tables move by that relation alone and the log only
    grows. The rules take a coroutine apart along its own structure. *)

From stdpp Require Import base gmap strings list relations.
From Stdlib Require Import ZArith Lia.
From S2P Require Import Prelude WorkerContracts WorkerStore Session AgentTables AgentWorld Executor Effects.
Local Open Scope Z_scope.
Set Default Proof Using "Type".

Section Conforms.
Context (R : relation adb) `{!PreOrder R}.

Definition conforming {A} (m : proc aworld A) : Prop := ∀ w, afair R w → wp m (λ _ w', ∃ l, after R w w' l) w.

Lemma after_stop w : afair R w → ∃ l, after R w w l.
Proof using Type*. intros Hf. exists []. by apply after_refl. Qed.

Lemma conforming_ret {A} (a : A) : conforming (mret a).
Proof using Type*. intros w Hf. by apply wp_ret, after_stop. Qed.
Lemma conforming_throw {A} e : conforming (throw e : proc aworld A).
Proof using Type*. intros w Hf. by apply wp_throw, after_stop. Qed.
Lemma conforming_lift {A} (r : result A) : conforming (lift_result r).
Proof using Type*. intros w Hf. by apply wp_lift, after_stop. Qed.
Lemma conforming_guard ok e : conforming (guard_or ok e).
Proof using Type*. intros w Hf. by apply wp_guard; intros; apply after_stop. Qed.
Lemma conforming_gets {A} (f : aworld → A) : conforming (gets f).
Proof using Type*. intros w Hf. by apply wp_gets, after_stop. Qed.
Lemma conforming_log x : conforming (modify (alog x)).
Proof using Type*. intros w Hf. exists [x]. by apply after_log, after_refl. Qed.
Lemma conforming_logs l : conforming (modify (alogs l)).
Proof using Type*. intros w Hf. exists l. by apply after_logs, after_refl. Qed.
Lemma conforming_draw : conforming adraw.
Proof using Type*. intros w Hf. apply (wp_adraw R); [done|]. intros t w' Ha. by exists []. Qed.
Lemma conforming_bind {A B} (m : proc aworld A) (f : A → proc aworld B) :
  conforming m → (∀ a, conforming (f a)) → conforming (m ≫= f).
Proof using Type*.
  intros Hm Hf w Hw. apply wp_bind. eapply wp_mono; [by apply Hm|]. intros [a|e] w1 [l1 H1]; [|by exists l1].
  eapply wp_mono; [apply Hf, H1|]. intros x w2 [l2 H2]. exists (l1 ++ l2). by eapply after_trans.
Qed.
Lemma conforming_try {A} (m : proc aworld A) h : conforming m → (∀ e, conforming (h e)) → conforming (try_except m h).
Proof using Type*.
  intros Hm Hh w Hw. apply wp_try. eapply wp_mono; [by apply Hm|]. intros [a|e] w1 [l1 H1]; [by exists l1|].
  eapply wp_mono; [apply Hh, H1|]. intros x w2 [l2 H2]. exists (l1 ++ l2). by eapply after_trans.
Qed.
Lemma conforming_finally {A} (m : proc aworld A) f : conforming m → conforming f → conforming (try_finally m f).
Proof using Type*.
  intros Hm Hf w Hw. apply wp_finally. eapply wp_mono; [by apply Hm|]. intros x w1 [l1 H1].
  eapply wp_mono; [apply Hf, H1|]. intros [[]|e] w2 [l2 H2]; exists (l1 ++ l2); by eapply after_trans.
Qed.
Lemma conforming_call {A} (m : timestamp → uuid → tx adb A) :
  (∀ now u d a d', m now u d = Ok (a, d') → R d d') → conforming (adb_call m).
Proof using Type*.
  intros Hm w Hw. apply (wp_adb_call R); [done|exact Hm|..].
  - intros now u d a w2 _ _ Ha. split; [|intros e]; by eexists.
  - intros now u w1 e Ha _. by exists [].
  - intros w1 e Ha. by exists [].
Qed.
Lemma conforming_read {A} (q : timestamp → adb → result A) : conforming (adb_read q).
Proof using Type*. intros w Hw. apply (wp_adb_read R); [done|..]; intros; by exists []. Qed.
End Conforms.

Create HintDb conforming.
#[export] Hint Resolve conforming_ret conforming_throw conforming_lift conforming_guard conforming_gets conforming_log conforming_logs conforming_draw conforming_read : conforming.

(** Takes a coroutine apart; what is left are the transactions it makes. *)
Ltac conforming_parts :=
  repeat first
    [ progress auto with conforming typeclass_instances
    | match goal with |- conforming _ (adb_call _) => apply conforming_call; [apply _|intros] end
    | apply conforming_bind; [apply _| |intros]
    | apply conforming_try; [apply _| |intros]
    | apply conforming_finally; [apply _| |]
    | match goal with |- conforming _ (match ?x with _ => _ end) => destruct x end ].

(** The transaction at hand is one step of a relation of such steps. *)
Ltac one_step := apply rtc_once; repeat match goal with u : unit |- _ => destruct u end; econstructor; eassumption.

Section Calls.
Context (R : relation adb) `{!PreOrder R}.

Lemma conforming_hold {A} (m : proc aworld A) : conforming R m → conforming R (ahold m).
Proof using Type*. intros Hm. unfold ahold. conforming_parts. Qed.
Lemma conforming_timeout {A} (m : proc aworld A) : conforming R m → conforming R (with_timeout m).
Proof using Type*. intros Hm. unfold with_timeout. conforming_parts. Qed.
Lemma conforming_state thread : conforming R (aget_state thread).
Proof using Type*. unfold aget_state. conforming_parts. Qed.
Lemma conforming_update thread node u : conforming R (aupdate_state thread node u).
Proof using Type*. unfold aupdate_state. conforming_parts. Qed.
Lemma conforming_invoke thread input : conforming R (ainvoke thread input).
Proof using Type*. unfold ainvoke. conforming_parts. Qed.
Lemma conforming_attempts n logged : conforming R (http_attempts n logged).
Proof using Type*.
  assert (Honce : conforming R (http_once logged)) by (unfold http_once; cbv zeta; conforming_parts).
  induction n as [|n IH]; cbn [http_attempts]; conforming_parts.
Qed.
Lemma conforming_get path params : conforming R (http_get path params).
Proof using Type*. unfold http_get, http_request. pose proof conforming_attempts. conforming_parts. Qed.
Lemma conforming_send c a q : conforming R (send c a q).
Proof using Type*. unfold send, restore_files, post_prepared, http_post, http_request. pose proof conforming_attempts. conforming_parts. Qed.
End Calls.
#[export] Hint Resolve conforming_hold conforming_timeout conforming_state conforming_update conforming_invoke conforming_get conforming_send : conforming.
