(* ===== verification/AgentInv.v ===== *)
(** * Invariant of the agent's tables

    Every transaction of admission, failure cleanup, the task projections and
    the Executor journal keeps the tables consistent: a session has at most one
    active request and at most one unfinished task, every request belongs to a
    task with its identity, an unfinished cleanup holds its session's lock, and
    a finished one leaves no active request and no lock behind. *)

From stdpp Require Import base gmap strings list sorting relations.
From Stdlib Require Import ZArith Lia.
From S2P Require Import Prelude Text Session AgentTables Admission FailureStore TaskProjections AgentWorld Effects.
Local Open Scope Z_scope.
Set Default Proof Using "Type".

Section AgentInvariant.
Context (fp : ApiRequest → string) (signal : json → result ResumeSignal) (digest : json → string).

(** ** The invariant *)

Record request_ok (tk : gmap uuid task_row) (id : uuid) (r : request_row) : Prop := {
  ro_id : request_id (r_command r) = id;
  ro_valid : validate_request signal (r_command r) = Ok tt;
  ro_task : uuid_parse (t_active_task_id (turn (r_command r))) = Some (r_task_id r);
  ro_session : r_session_id r = t_session_id (turn (r_command r));
  ro_fingerprint : r_fingerprint r = fp (r_command r);
  ro_attempts : 0 ≤ r_attempts r;
  ro_identity : ∃ t m, tk !! r_task_id r = Some t ∧
    uuid_parse (t_current_input_message_id (turn (r_command r))) = Some m ∧
    same_task t (turn (r_command r)) m = true
}.

(** What a cleanup in its state says about the task, the requests and the
    locks. *)
Definition cleanup_settled (rq : gmap uuid request_row) (lk : gmap string session_lock)
    (c : cleanup_row) (t : task_row) : Prop :=
  match f_state c with
  | F_DONE =>
      k_status t = f_final_status c ∧ k_terminal_message t = f_message c ∧
      (∀ id r, rq !! id = Some r → r_task_id r = f_task_id c → active (r_state r) = false) ∧
      (∀ s l, lk !! s = Some l → lk_active_task_id l ≠ f_task_id c)
  | _ =>
      if f_preserve_terminal c then k_status t = f_final_status c
      else f_final_status c = TASK_FAILED ∧
           (is_terminal (k_status t) = false → ∃ l, lk !! f_session_id c = Some l ∧ lk_active_task_id l = f_task_id c ∧ lk_locked l = true)
  end.

Record cleanup_ok (rq : gmap uuid request_row) (tk : gmap uuid task_row) (lk : gmap string session_lock)
    (id : uuid) (c : cleanup_row) : Prop := {
  co_id : f_task_id c = id;
  co_attempts : 0 ≤ f_attempts c;
  co_version : 1 ≤ f_version c;
  co_final : is_terminal (f_final_status c) = true;
  co_task : ∃ t, tk !! id = Some t ∧ k_session_id t = f_session_id c ∧ cleanup_settled rq lk c t
}.

Record agent_tables_ok (rq : gmap uuid request_row) (tk : gmap uuid task_row) (lk : gmap string session_lock)
    (cl : gmap uuid cleanup_row) (ef : gmap string effect_row) (bn : gmap uuid executor_binding) : Prop := {
  ok_request : ∀ id r, rq !! id = Some r → request_ok tk id r;
  ok_active : ∀ i j r s, rq !! i = Some r → rq !! j = Some s →
    active (r_state r) = true → active (r_state s) = true → r_session_id r = r_session_id s → i = j;
  ok_unfinished : ∀ i j t u, tk !! i = Some t → tk !! j = Some u →
    is_terminal (k_status t) = false → is_terminal (k_status u) = false →
    k_session_id t = k_session_id u → i = j;
  ok_lock : ∀ s s' l l', lk !! s = Some l → lk !! s' = Some l' →
    lk_active_task_id l = lk_active_task_id l' → s = s';
  ok_cleanup : ∀ id c, cl !! id = Some c → cleanup_ok rq tk lk id c;
  ok_effect : ∀ k x, ef !! k = Some x → x_key x = k ∧ digest (x_request x) = x_request_sha256 x;
  ok_binding : ∀ i j b c, bn !! i = Some b → bn !! j = Some c →
    eb_execution_id b = eb_execution_id c → i = j
}.

Definition agent_ok (d : adb) : Prop :=
  agent_tables_ok (requests d) (tasks d) (session_locks d) (cleanups d) (effects d) (bindings d).

(** ** Transactions of the service *)
Inductive agent_step (d d' : adb) : Prop :=
| step_accept now c node base r :
    accept fp signal now c node base d = Ok (r, d') → agent_step d d'
| step_claim_request now id max_attempts delay r :
    claim fp signal now id max_attempts delay d = Ok (r, d') → agent_step d d'
| step_finish_request now record state error delay r :
    finish fp signal now record state error delay d = Ok (r, d') → agent_step d d'
| step_defer_request now id delay : defer_busy now id delay d = Ok (tt, d') → agent_step d d'
| step_resolve_applied record : resolve_applied record d = Ok (tt, d') → agent_step d d'
| step_ensure now id session source reason execution r :
    ensure now id session source reason execution d = Ok (r, d') → agent_step d d'
| step_retry now id op hash action actor reason version r :
    retry_blocked now id op hash action actor reason version d = Ok (r, d') → agent_step d d'
| step_bind now record execution r : bind_execution now record execution d = Ok (r, d') → agent_step d d'
| step_claim_cleanup now id max_attempts delay r :
    claim_cleanup now id max_attempts delay d = Ok (r, d') → agent_step d d'
| step_confirm now record execution status message r :
    confirm now record execution status message d = Ok (r, d') → agent_step d d'
| step_defer_cleanup now record error delay blocked :
    defer now record error delay blocked d = Ok (tt, d') → agent_step d d'
| step_cleanup_busy now id delay : cleanup_defer_busy now id delay d = Ok (tt, d') → agent_step d d'
| step_finish_cleanup now fresh record : finish_cleanup now fresh record d = Ok (tt, d') → agent_step d d'
| step_project s : project s d = Ok (tt, d') → agent_step d d'
| step_binding id execution version operation next create :
    binding_tx id execution version operation next create d = Ok (tt, d') → agent_step d d'
| step_terminal now fresh id status message metadata :
    terminal_tx now fresh id status message metadata d = Ok (tt, d') → agent_step d d'
| step_promotion id : promotion_tx id d = Ok (tt, d') → agent_step d d'
| step_prepare key id kind input request r :
    prepare digest key id kind input request d = Ok (r, d') → agent_step d d'
| step_complete key response r : complete digest key response d = Ok (r, d') → agent_step d d'.

Definition agent_reachable (d : adb) : Prop := rtc agent_step empty_adb d.

Lemma agent_ok_empty : agent_ok empty_adb.
Proof. split; intros *; simpl; rewrite ?lookup_empty; done. Qed.

(** ** Updates of one row *)

Section Updates.
Context (rq : gmap uuid request_row) (tk : gmap uuid task_row) (lk : gmap string session_lock)
  (cl : gmap uuid cleanup_row) (ef : gmap string effect_row) (bn : gmap uuid executor_binding).
Hypothesis Hok : agent_tables_ok rq tk lk cl ef bn.

(** A request keeps its identity and does not become active again. *)
Definition same_request (r r' : request_row) : Prop :=
  r_command r' = r_command r ∧ r_task_id r' = r_task_id r ∧ r_session_id r' = r_session_id r ∧
  r_fingerprint r' = r_fingerprint r ∧ 0 ≤ r_attempts r' ∧
  (active (r_state r') = true → active (r_state r) = true).

Lemma tables_ok_requests rq' :
  (∀ id r', rq' !! id = Some r' → ∃ r, rq !! id = Some r ∧ same_request r r') →
  agent_tables_ok rq' tk lk cl ef bn.
Proof using Hok.
  intros Hf. destruct Hok as [H1 H2 H3 H4 H5 H6 H7]. split; auto.
  - intros id r' (r & Hr & Hc & Ht & Hs & Hfp & Ha & _)%Hf. destruct (H1 _ _ Hr) as [].
    split; rewrite ?Hc, ?Ht, ?Hs, ?Hfp; done.
  - intros i j r' s' (r & Hr & _ & _ & Hrs & _ & _ & Hra)%Hf (s & Hs & _ & _ & Hss & _ & _ & Hsa)%Hf ???.
    eapply H2; eauto. congruence.
  - intros id c Hc. destruct (H5 _ _ Hc) as [? ? ? ? (t & Ht & Hts & Hset)]. split; auto. exists t. split_and!; auto.
    unfold cleanup_settled in *. destruct (f_state c); auto.
    destruct Hset as (? & ? & Hreq & ?). split_and!; auto.
    intros k r' (r & Hr & _ & Ht' & _ & _ & _ & Hact)%Hf Htask.
    destruct (active (r_state r')) eqn:E; [|done]. rewrite (Hreq _ _ Hr) in Hact by congruence. by discriminate Hact.
Qed.

Lemma tables_ok_put_request id r r' : rq !! id = Some r → same_request r r' →
  agent_tables_ok (<[id := r']> rq) tk lk cl ef bn.
Proof using Hok.
  intros Hr Hs. apply tables_ok_requests. intros k x. rewrite lookup_insert.
  case_decide; [intros [= <-]; subst; eauto|]. intros Hx. exists x. split; [done|].
  destruct (ok_request _ _ _ _ _ _ Hok _ _ Hx). by split_and!.
Qed.

(** A task keeps its identity; a finished one keeps its result. *)
Definition same_identity (t t' : task_row) : Prop :=
  k_user_id t' = k_user_id t ∧ k_project_id t' = k_project_id t ∧ k_session_id t' = k_session_id t ∧
  k_input_message_id t' = k_input_message_id t ∧ k_user_message t' = k_user_message t.
Definition task_grows (t t' : task_row) : Prop :=
  same_identity t t' ∧
  (is_terminal (k_status t) = true → k_status t' = k_status t ∧ k_terminal_message t' = k_terminal_message t).

Lemma same_task_identity t t' u m : same_identity t t' → same_task t' u m = same_task t u m.
Proof using Type. unfold same_task. by intros (-> & -> & -> & -> & ->). Qed.

Lemma tables_ok_put_task id t t' : tk !! id = Some t → task_grows t t' →
  agent_tables_ok rq (<[id := t']> tk) lk cl ef bn.
Proof using Hok.
  intros Ht [Hid Hterm]. destruct Hok as [H1 H2 H3 H4 H5 H6 H7].
  assert (Hback : ∀ j u', <[id := t']> tk !! j = Some u' → is_terminal (k_status u') = false →
    ∃ u, tk !! j = Some u ∧ is_terminal (k_status u) = false ∧ k_session_id u = k_session_id u').
  { intros j u'. rewrite lookup_insert. case_decide as E; [|eauto]. intros [= <-] Hf. subst j. exists t.
    destruct Hid as (_ & _ & Hse & _). split_and!; [done| |done].
    destruct (is_terminal (k_status t)) eqn:E; [|done]. destruct Hterm as [Hst _]; [done|]. congruence. }
  split; auto.
  - intros k r Hr. destruct (H1 _ _ Hr) as [? ? ? ? ? ? (x & m & Hx & Hm & Hsame)]. split; auto.
    destruct (decide (r_task_id r = id)) as [E|E].
    + exists t', m. rewrite E, lookup_insert_eq. split_and!; [done|done|].
      rewrite E, Ht in Hx. injection Hx as <-. by rewrite (same_task_identity t).
    + exists x, m. by rewrite lookup_insert_ne.
  - intros i j x y Hx Hy Fx Fy Hs. destruct (Hback _ _ Hx Fx) as (x0 & ? & ? & ?).
    destruct (Hback _ _ Hy Fy) as (y0 & ? & ? & ?). eapply H3; eauto. congruence.
  - intros k c Hc. destruct (H5 _ _ Hc) as [? ? ? Hfin (x & Hx & Hs & Hset)]. split; auto.
    destruct (decide (k = id)) as [->|E]; [|exists x; by rewrite lookup_insert_ne].
    exists t'. rewrite lookup_insert_eq. rewrite Ht in Hx. injection Hx as <-.
    destruct Hid as (_ & _ & Hse & _). split_and!; [done|congruence|].
    assert (Hdone : k_status t = f_final_status c → k_status t' = f_final_status c ∧ k_terminal_message t' = k_terminal_message t).
    { intros E. destruct Hterm as [-> ->]; [by rewrite E|done]. }
    unfold cleanup_settled in *.
    assert (Hopen : is_terminal (k_status t') = false → is_terminal (k_status t) = false).
    { intros E. destruct (is_terminal (k_status t)) eqn:E'; [|done]. destruct Hterm as [Hst _]; [done|]. congruence. }
    destruct (f_state c); [destruct (f_preserve_terminal c)..|].
    1,3: by apply Hdone.
    1,2: destruct Hset as [? ?]; split_and!; auto.
    destruct Hset as (E & <- & ? & ?). destruct (Hdone E) as [-> ->]. by split_and!.
Qed.

(** A cleanup that stays unfinished. *)
Definition same_cleanup (c c' : cleanup_row) : Prop :=
  f_task_id c' = f_task_id c ∧ f_session_id c' = f_session_id c ∧ f_preserve_terminal c' = f_preserve_terminal c ∧
  f_final_status c' = f_final_status c ∧ f_state c ≠ F_DONE ∧ f_state c' ≠ F_DONE ∧
  0 ≤ f_attempts c' ∧ 1 ≤ f_version c'.

Lemma tables_ok_put_cleanup id c c' : cl !! id = Some c → same_cleanup c c' →
  agent_tables_ok rq tk lk (<[id := c']> cl) ef bn.
Proof using Hok.
  intros Hc (E1 & E2 & E3 & E4 & Hn & Hn' & Ha & Hv). destruct Hok as [H1 H2 H3 H4 H5 H6 H7].
  split; auto. intros k x. rewrite lookup_insert. case_decide as E; [|by apply H5]. intros [= <-]. subst k.
  destruct (H5 _ _ Hc) as [? ? ? ? (t & Ht & Hs & Hset)]. split; try congruence; [done..|].
  exists t. split_and!; [done|congruence|]. unfold cleanup_settled in *. rewrite E1, E2, E3, E4.
  by destruct (f_state c), (f_state c').
Qed.

(** A lock keeps its owner and is not released. *)
Lemma tables_ok_put_lock s l l' : lk !! s = Some l → lk_active_task_id l' = lk_active_task_id l →
  (lk_locked l = true → lk_locked l' = true) → agent_tables_ok rq tk (<[s := l']> lk) cl ef bn.
Proof using Hok.
  intros Hl Hown Hlocked. destruct Hok as [H1 H2 H3 H4 H5 H6 H7]. split; auto.
  - intros a b x y Hx Hy Hxy.
    assert (Hb : ∀ z m, <[s := l']> lk !! z = Some m → ∃ n, lk !! z = Some n ∧ lk_active_task_id n = lk_active_task_id m).
    { intros z m. rewrite lookup_insert. case_decide; [intros [= <-]; subst; eauto|eauto]. }
    apply Hb in Hx as (x0 & Hx & Ex). apply Hb in Hy as (y0 & Hy & Ey). eapply H4; [exact Hx|exact Hy|congruence].
  - intros id c Hc. destruct (H5 _ _ Hc) as [? ? ? ? (t & Ht & Hs & Hset)]. split; auto. exists t. split_and!; auto.
    assert (Hkeep : ∀ z, (∃ l, lk !! z = Some l ∧ lk_active_task_id l = f_task_id c ∧ lk_locked l = true) →
      ∃ l, <[s := l']> lk !! z = Some l ∧ lk_active_task_id l = f_task_id c ∧ lk_locked l = true).
    { intros z (m & Hm & Ho & Hk). rewrite lookup_insert. case_decide; subst; [|by exists m].
      exists l'. rewrite Hl in Hm. injection Hm as ->. split_and!; [done|congruence|auto]. }
    unfold cleanup_settled in *. destruct (f_state c); [destruct (f_preserve_terminal c)..|]; [done| |done| |].
    1,2: destruct Hset as [? ?]; split_and!; auto.
    + destruct Hset as (? & ? & ? & Hno). split_and!; auto. intros z m. rewrite lookup_insert.
      case_decide; [intros [= <-]; subst; rewrite Hown; by eapply Hno|by apply Hno].
Qed.
End Updates.

(** ** Requests *)

Lemma put_request_ok d id r r' : agent_ok d → requests d !! id = Some r → same_request r r' →
  agent_ok (set_requests <[id := r']> d).
Proof. intros Hd. by apply tables_ok_put_request. Qed.

Lemma required_Ok id d r d' : required id d = Ok (r, d') → requests d !! id = Some r ∧ d' = d.
Proof.
  unfold required. intros H. tx_inv. destruct (requests d !! id) eqn:E; [|done]. by injection H as -> ->.
Qed.

Lemma lift_Ok {A} (x : result A) d a d' : lift x d = Ok (a, d') ↔ x = Ok a ∧ d' = d.
Proof. unfold lift. destruct x; split; [intros [= -> ->]|intros [[= ->] ->]|..]; naive_solver. Qed.

Lemma with_state_same r s n at_ err by_ : 0 ≤ n → (active s = true → active (r_state r) = true) →
  same_request r (with_request_state s n at_ err by_ r).
Proof. intros ??. by split_and!. Qed.

Lemma open_active s : open_state s = true → active s = true.
Proof. by destruct s. Qed.

Lemma attempts_ok d id r : agent_ok d → requests d !! id = Some r → 0 ≤ r_attempts r.
Proof. intros [H1 _ _ _ _ _ _] Hr. by destruct (H1 _ _ Hr). Qed.

Lemma record_of_Ok r r' : record_of fp signal r = Ok r' ↔
  r' = r ∧ validate_request signal (r_command r) = Ok tt ∧ r_fingerprint r = fp (r_command r).
Proof.
  unfold record_of. destruct (validate_request signal (r_command r)) as [[]|e]; cbn [mbind result_bind].
  - rewrite raise_if_then, negb_false_iff, String.eqb_eq. split; [intros [? [= <-]]|intros (-> & _ & ?)]; done.
  - split; [done|by intros (_ & ? & _)].
Qed.

Lemma claim_ok now id max_attempts delay : preserves agent_ok (claim fp signal now id max_attempts delay).
Proof.
  intros d r d' Hd H. unfold claim in H. tx_inv. apply required_Ok in Hrun as [Hr ->].
  destruct (open_state (r_state a)) eqn:Ho; [|by apply lift_Ok in H as [_ ->]]. apply open_active in Ho as Hact.
  pose proof (attempts_ok _ _ _ Hd Hr). cbn [negb] in H. unfold put_request in H. tx_inv.
  case_bool_decide; tx_inv; apply lift_Ok in H as [_ ->].
  - eapply put_request_ok; [done..|]. by apply with_state_same.
  - eapply put_request_ok; [done..|]. destruct (_ <=? _); apply with_state_same; auto with lia.
Qed.

Lemma finish_ok now record state error delay : preserves agent_ok (finish fp signal now record state error delay).
Proof.
  intros d r d' Hd H. unfold finish, put_request in H. tx_inv. apply required_Ok in Hrun0 as [Hr ->]. tx_inv.
  apply lift_Ok in H as [_ ->]. eapply put_request_ok; [done..|].
  apply with_state_same; [by eapply attempts_ok|]. intros _. apply open_active.
  match goal with Hg : _ && _ && _ = true |- _ =>
    apply andb_true_iff in Hg as [[Ho Hs%bool_decide_eq_true]%andb_true_iff _] end. by rewrite Hs.
Qed.

Lemma defer_busy_ok now id delay : preserves agent_ok (defer_busy now id delay).
Proof.
  intros d r d' Hd H. unfold defer_busy, put_request in H. tx_inv. apply required_Ok in Hrun as [Hr ->].
  destruct (open_state (r_state a)); tx_inv; [|done].
  eapply put_request_ok; [done..|]. apply with_state_same; [by eapply attempts_ok|done].
Qed.

Lemma resolve_applied_ok record : preserves agent_ok (resolve_applied record).
Proof.
  intros d r d' Hd H. unfold resolve_applied, put_request in H. tx_inv. apply required_Ok in Hrun as [Hr ->]. tx_inv.
  eapply put_request_ok; [done..|]. apply with_state_same; [by eapply attempts_ok|done].
Qed.

(** ** Cleanups *)

Lemma put_cleanup_ok d id c c' : agent_ok d → cleanups d !! id = Some c → same_cleanup c c' →
  agent_ok (set_cleanups <[id := c']> d).
Proof. intros Hd. by apply tables_ok_put_cleanup. Qed.

Lemma required_cleanup_Ok id d c d' : required_cleanup id d = Ok (c, d') → cleanups d !! id = Some c ∧ d' = d.
Proof.
  unfold required_cleanup. intros H. tx_inv. destruct (cleanups d !! id) eqn:E; [|done]. by injection H as -> ->.
Qed.

Lemma cleanup_facts d id c : agent_ok d → cleanups d !! id = Some c →
  f_task_id c = id ∧ 0 ≤ f_attempts c ∧ 1 ≤ f_version c.
Proof. intros [_ _ _ _ H _ _] Hc. by destruct (H _ _ Hc). Qed.

(** [fenced] returns the stored row of the record. *)
Lemma fenced_Ok record d c d' : agent_ok d → fenced record d = Ok (c, d') →
  d' = d ∧ cleanups d !! f_task_id c = Some c ∧ f_task_id c = f_task_id record ∧ f_state c = F_PENDING ∧
  f_attempts c = f_attempts record.
Proof.
  intros Hd H. unfold fenced in H. tx_inv. apply required_cleanup_Ok in Hrun as [Hc ->].
  destruct (cleanup_facts _ _ _ Hd Hc) as [E _]. rewrite E.
  match goal with Hg : _ && _ = true |- _ => apply andb_true_iff in Hg as [?%bool_decide_eq_true ?%Z.eqb_eq] end.
  done.
Qed.

Lemma touch_same now actor s n at_ err c : f_state c ≠ F_DONE → s ≠ F_DONE → 0 ≤ n → 1 ≤ f_version c →
  same_cleanup c (touch_cleanup now actor s n at_ err c).
Proof. intros ????. split_and!; simpl; auto with lia. Qed.

Lemma set_result_same now execution status message c : f_state c ≠ F_DONE → 0 ≤ f_attempts c → 1 ≤ f_version c →
  same_cleanup c (touch now "AGENT" (set_cleanup_result execution status message c)).
Proof. intros ???. split_and!; simpl; auto with lia. Qed.

Lemma cleanup_defer_busy_ok now id delay : preserves agent_ok (cleanup_defer_busy now id delay).
Proof.
  intros d r d' Hd H. unfold cleanup_defer_busy, put_cleanup in H. tx_inv. apply required_cleanup_Ok in Hrun as [Hc ->].
  destruct (cleanup_facts _ _ _ Hd Hc) as (_ & ? & ?). case_bool_decide; tx_inv; [|done].
  eapply put_cleanup_ok; [done..|]. apply touch_same; congruence.
Qed.

Lemma claim_cleanup_ok now id max_attempts delay : preserves agent_ok (claim_cleanup now id max_attempts delay).
Proof.
  intros d r d' Hd H. unfold claim_cleanup, put_cleanup in H. tx_inv. apply required_cleanup_Ok in Hrun as [Hc ->].
  destruct (cleanup_facts _ _ _ Hd Hc) as (_ & ? & ?). case_bool_decide; simpl in H; tx_inv; [|done].
  eapply put_cleanup_ok; [done..|]. destruct (_ <=? _); apply touch_same; (congruence || lia).
Qed.

Lemma confirm_ok now record execution status message : preserves agent_ok (confirm now record execution status message).
Proof.
  intros d r d' Hd H. unfold confirm, put_cleanup in H. tx_inv.
  apply (fenced_Ok _ _ _ _ Hd) in Hrun0 as (-> & Hc & _ & Hs & _).
  destruct (cleanup_facts _ _ _ Hd Hc) as (_ & ? & ?). eapply put_cleanup_ok; [done..|].
  apply set_result_same; congruence.
Qed.

Lemma defer_ok now record error delay blocked : preserves agent_ok (defer now record error delay blocked).
Proof.
  intros d r d' Hd H. unfold defer, put_cleanup in H. tx_inv.
  apply (fenced_Ok _ _ _ _ Hd) in Hrun as (-> & Hc & _ & Hs & _).
  destruct (cleanup_facts _ _ _ Hd Hc) as (_ & ? & ?). eapply put_cleanup_ok; [done..|].
  apply touch_same; destruct blocked; congruence.
Qed.

Lemma retry_blocked_ok now id op hash action actor reason version :
  preserves agent_ok (retry_blocked now id op hash action actor reason version).
Proof.
  intros d r d' Hd H. unfold retry_blocked, put_cleanup, add_task_event in H. tx_inv.
  apply required_cleanup_Ok in Hrun0 as [Hc ->]. destruct (cleanup_facts _ _ _ Hd Hc) as (_ & ? & ?).
  apply lift_Ok in Hrun1 as [_ ->]. destruct a1; tx_inv; [done|].
  match goal with Hg : bool_decide _ = true |- _ => apply bool_decide_eq_true in Hg as Hs end.
  eapply put_cleanup_ok; [done..|]. split_and!; simpl; (congruence || lia).
Qed.
End AgentInvariant.
