(* ===== verification/AgentSteps.v ===== *)
(** * Preservation of the agent's invariant

    The transactions that touch several tables at once, and the theorem for
    every step. *)

From stdpp Require Import base gmap strings list sorting relations.
From Stdlib Require Import ZArith Lia.
From S2P Require Import Prelude Text Session AgentTables Admission FailureStore TaskProjections AgentWorld Effects AgentInv.
Local Open Scope Z_scope.
Set Default Proof Using "Type".

(** Invert a committed run, the pure checks included. *)
Ltac agent_inv :=
  repeat (progress tx_inv || match goal with
    | H : lift _ _ = Ok (_, _) |- _ => apply lift_Ok in H as [? ->]
    end).

Section AgentSteps.
Context (fp : ApiRequest → string) (signal : json → result ResumeSignal) (digest : json → string).

Abbreviation agent_ok := (agent_ok fp signal digest).
Abbreviation agent_step := (agent_step fp signal digest).
Abbreviation agent_tables_ok := (agent_tables_ok fp signal digest).

Lemma get_task_Ok id d t d' : get_task id d = Ok (t, d') ↔ t = tasks d !! id ∧ d' = d.
Proof. unfold get_task, mbind, tx_bind, tx_get, mret, tx_ret. split; [by intros [= <- <-]|by intros [-> ->]]. Qed.

Lemma put_task_ok d id t t' : agent_ok d → tasks d !! id = Some t → task_grows t t' →
  agent_ok (set_tasks <[id := t']> d).
Proof. intros Hd. by apply tables_ok_put_task. Qed.

Lemma put_lock_ok d s l l' : agent_ok d → session_locks d !! s = Some l →
  lk_active_task_id l' = lk_active_task_id l → (lk_locked l = true → lk_locked l' = true) →
  agent_ok (set_locks <[s := l']> d).
Proof. intros Hd. by apply tables_ok_put_lock. Qed.

Lemma set_status_grows s i m e t : is_terminal (k_status t) = false → task_grows t (set_task_status s i m e t).
Proof. intros Ht. split; [by split_and!|]. congruence. Qed.

Lemma set_execution_grows v e t : task_grows t (set_task_execution v e t).
Proof. split; [by split_and!|done]. Qed.

(** ** Executions of a cleanup *)

Lemma bind_execution_ok now record execution : preserves agent_ok (bind_execution now record execution).
Proof.
  intros d r d' Hd H. unfold bind_execution, put_cleanup, put_task, put_lock in H. tx_inv.
  apply (fenced_Ok _ _ _ _ _ _ _ Hd) in Hrun as (-> & Hc & _ & Hs & _).
  destruct (tasks d !! f_task_id a) as [t|] eqn:Ht; [|done].
  destruct (session_locks d !! f_session_id a) as [l|] eqn:Hl; tx_inv.
  destruct (cleanup_facts _ _ _ _ _ _ Hd Hc) as (_ & ? & ?).
  eapply put_lock_ok; [|exact Hl|done|done]. eapply put_task_ok; [|exact Ht|apply set_execution_grows].
  eapply put_cleanup_ok; [done..|]. apply set_result_same; congruence.
Qed.

(** ** The first failure of a task *)

Lemma tables_ok_insert_lock d s l : agent_ok d → session_locks d !! s = None →
  lock_of_task (lk_active_task_id l) d = false →
  (∀ c, cleanups d !! lk_active_task_id l = Some c → f_state c ≠ F_DONE) →
  agent_ok (set_locks <[s := l]> d).
Proof.
  intros [H1 H2 H3 H4 H5 H6 H7] Hn Hfree Hdone.
  assert (Hno : ∀ z m, session_locks d !! z = Some m → lk_active_task_id m ≠ lk_active_task_id l).
  { intros z m Hm E. apply not_true_iff_false in Hfree. apply Hfree. unfold lock_of_task. apply existsb_exists.
    exists (z, m). split; [by apply list_elem_of_In, elem_of_map_to_list|by apply N.eqb_eq]. }
  split; auto; simpl.
  - intros a b x y. rewrite !lookup_insert. case_decide; case_decide; [congruence|..|apply H4].
    + intros [= <-] Hy E. by destruct (Hno _ _ Hy).
    + intros Hx [= <-] E. by destruct (Hno _ _ Hx).
  - intros id c Hc. destruct (H5 _ _ Hc) as [E ? ? ? (t & Ht & Hs & Hset)]. split; auto. exists t. split_and!; auto.
    unfold cleanup_settled in *. destruct (f_state c) eqn:Est; [destruct (f_preserve_terminal c)..|]; [done| |done| |].
    1,2: destruct Hset as [? Hset]; split; [done|]; intros (m & Hm & ?)%Hset; exists m; split; [|done];
      rewrite lookup_insert_ne; [done|congruence].
    destruct Hset as (? & ? & ? & Hno'). split_and!; auto. intros z m. rewrite lookup_insert.
    case_decide; [|apply Hno']. intros [= <-] E'. eapply Hdone; [|exact Est]. by rewrite E', E.
Qed.

Lemma put_new_cleanup_ok d id c : agent_ok d → cleanups d !! id = None → cleanup_ok (requests d) (tasks d) (session_locks d) id c →
  agent_ok (set_cleanups <[id := c]> d).
Proof.
  intros [H1 H2 H3 H4 H5 H6 H7] Hn Hc. split; auto. intros k x. simpl. rewrite lookup_insert.
  case_decide; [intros [= <-]; by subst|apply H5].
Qed.

Lemma ensure_lock_Ok s id e d d' : agent_ok d → cleanups d !! id = None → ensure_lock s id e d = Ok (tt, d') →
  agent_ok d' ∧ (∃ l, session_locks d' !! s = Some l ∧ lk_active_task_id l = id ∧ lk_locked l = true) ∧
  cleanups d' = cleanups d ∧ tasks d' = tasks d ∧ requests d' = requests d.
Proof.
  intros Hd Hc H. unfold ensure_lock, put_lock, insert_lock in H. tx_inv.
  destruct (session_locks d !! s) as [l|] eqn:Hl; tx_inv; simpl.
  - match goal with Hg : (_ =? _)%N = true |- _ => apply N.eqb_eq in Hg end.
    rewrite lookup_insert_eq. split; [eapply put_lock_ok; done|]. split_and!; eauto.
  - rewrite lookup_insert_eq. split; [|split_and!; eauto].
    apply tables_ok_insert_lock; simpl; [done|done|by apply negb_true_iff|]. intros c. by rewrite Hc.
Qed.

(** The tables the invariant is about. *)
Definition tables_of (d : adb) :=
  (requests d, tasks d, session_locks d, cleanups d, effects d, bindings d).

Lemma agent_ok_tables d d' : tables_of d' = tables_of d → agent_ok d → agent_ok d'.
Proof. unfold tables_of, AgentInv.agent_ok. by intros [= -> -> -> -> -> ->]. Qed.

(** What [ensure] did; the order of its writes does not matter. *)
Lemma ensure_Ok now id session source reason execution d r d' :
  ensure now id session source reason execution d = Ok (r, d') →
  ∃ task, tasks d !! id = Some task ∧ k_session_id task = session ∧
    (cleanups d !! id = Some r ∧ d' = d ∨
     cleanups d !! id = None ∧ f_task_id r = id ∧ f_session_id r = session ∧ f_state r = F_PENDING ∧ f_version r = 1 ∧
     f_attempts r = 0 ∧ f_preserve_terminal r = is_terminal (k_status task) ∧
     f_final_status r = (if is_terminal (k_status task) then k_status task else TASK_FAILED) ∧
     ∃ d1, (if is_terminal (k_status task) then d1 = d else ensure_lock session id (f_execution_id r) d = Ok (tt, d1)) ∧
       tables_of d' = tables_of (set_cleanups <[id := r]> d1)).
Proof.
  unfold ensure. intros H. tx_inv. destruct (tasks d !! id) as [task|] eqn:Ht; [|done]. exists task. tx_inv.
  match goal with Hg : String.eqb _ _ = true |- _ => apply String.eqb_eq in Hg; rewrite Hg end.
  do 2 (split; [done|]). destruct (cleanups d !! id) as [c|] eqn:Hc; tx_inv; [by left|]. right.
  unfold put_cleanup, add_task_event in *. agent_inv. do 8 (split; [done|]).
  destruct (is_terminal (k_status task)); tx_inv; [by eexists|]. destruct a3. eexists. split; [eassumption|reflexivity].
Qed.

Lemma ensure_requests now k se so re ex d r d' : ensure now k se so re ex d = Ok (r, d') → requests d' = requests d.
Proof.
  intros (t & _ & _ & [[_ ->]|(Hn & _ & _ & _ & _ & _ & _ & _ & d1 & Hd1 & E)])%ensure_Ok; [done|].
  unfold tables_of in E. simpl in E. injection E as -> _ _ _ _ _. destruct (is_terminal _); [by subst|].
  unfold ensure_lock, put_lock, insert_lock in Hd1. tx_inv. by destruct (session_locks d !! se); tx_inv.
Qed.

Lemma ensure_ok now id session source reason execution :
  preserves agent_ok (ensure now id session source reason execution).
Proof.
  intros d r d' Hd H. apply ensure_Ok in H as (t & Ht & Hs & [[_ ->]|H]); [done|].
  destruct H as (Hn & Eid & Es & Est & Ev & Ea & Ep & Ef & d1 & Hd1 & Htab). apply (agent_ok_tables _ _ Htab).
  assert (Hfin : is_terminal (f_final_status r) = true) by (rewrite Ef; by destruct (is_terminal (k_status t)) eqn:E).
  destruct (is_terminal (k_status t)) eqn:E.
  - subst d1. apply put_new_cleanup_ok; [done..|]. split; [done|lia|lia|done|]. exists t. split_and!; [done|congruence|].
    unfold cleanup_settled. by rewrite Est, Ep.
  - apply ensure_lock_Ok in Hd1 as (Hd1 & (l & Hl & Hown & Hlock) & Ecl & Etk & Erq); [|done..].
    apply put_new_cleanup_ok; [done|congruence|]. split; [done|lia|lia|done|]. exists t. rewrite Etk.
    split_and!; [done|congruence|]. unfold cleanup_settled. rewrite Est, Ep, Es. split; [done|]. intros _.
    exists l. rewrite Eid. done.
Qed.

(** ** The end of a cleanup *)

Lemma insert_message_tables id m d u d' : insert_message id m d = Ok (u, d') → tables_of d' = tables_of d.
Proof. intros H. unfold insert_message in H. tx_inv. done. Qed.

(** The task after the end of its cleanup. *)
Lemma finish_task_Ok now fresh row t d d' : tasks d !! f_task_id row = Some t →
  finish_task now fresh row t d = Ok (tt, d') →
  ∃ t', tables_of d' = tables_of (set_tasks <[f_task_id row := t']> d) ∧ task_grows t t' ∧
    k_status t' = f_final_status row ∧ k_terminal_message t' = f_message row.
Proof.
  intros Ht H. unfold finish_task, put_task, add_task_event in H. destruct (is_terminal (k_status t)) eqn:E; tx_inv.
  - match goal with Hg : _ && _ = true |- _ => apply andb_true_iff in Hg as [?%bool_decide_eq_true ?%bool_decide_eq_true] end.
    exists t. split_and!; [|by split; [split_and!|]|done..]. unfold tables_of. simpl. by rewrite insert_id.
  - agent_inv. destruct a1. match goal with Hm : insert_message _ _ _ = _ |- _ => apply insert_message_tables in Hm as Htab end.
    exists (set_task_status (f_final_status row) None (f_message row) (f_execution_id row) t).
    split_and!; [exact Htab|by apply set_status_grows|done..].
Qed.

Definition compensated (id : uuid) (rq : gmap uuid request_row) : gmap uuid request_row :=
  update_where (λ (_ : uuid) r, (r_task_id r =? id)%N && active (r_state r))
    (λ r, mk_request_row (r_command r) (r_task_id r) (r_session_id r) (r_fingerprint r) (r_target_node r)
       (r_base_checkpoint_id r) R_COMPENSATED (r_attempts r) (r_next_attempt_at r) (r_last_error r)
       (r_created_by r) "AGENT") rq.
Definition released (id : uuid) (lk : gmap string session_lock) : gmap string session_lock :=
  filter (λ kl : string * session_lock, lk_active_task_id kl.2 ≠ id) lk.

Lemma lookup_compensated id rq k r : compensated id rq !! k = Some r → ∃ r0, rq !! k = Some r0 ∧
  r_command r = r_command r0 ∧ r_task_id r = r_task_id r0 ∧ r_session_id r = r_session_id r0 ∧
  r_fingerprint r = r_fingerprint r0 ∧ r_attempts r = r_attempts r0 ∧
  (active (r_state r) = true → active (r_state r0) = true ∧ r_task_id r0 ≠ id).
Proof.
  intros (r0 & Hr & E)%lookup_update_where_Some. exists r0. split; [done|].
  destruct (r_task_id r0 =? id)%N eqn:E1; [apply N.eqb_eq in E1|apply N.eqb_neq in E1];
    destruct (active (r_state r0)) eqn:E2; simpl in E; subst r; split_and!; try done; simpl; congruence.
Qed.

(** The whole effect of [finish] on the tables keeps the invariant. *)
Lemma tables_ok_finish rq tk lk cl ef bn id c t t' c' :
  agent_tables_ok rq tk lk cl ef bn → cl !! id = Some c → f_state c ≠ F_DONE → tk !! id = Some t → task_grows t t' →
  k_status t' = f_final_status c → k_terminal_message t' = f_message c →
  f_state c' = F_DONE → f_task_id c' = id → f_session_id c' = f_session_id c → f_final_status c' = f_final_status c →
  f_message c' = f_message c → 0 ≤ f_attempts c' → 1 ≤ f_version c' →
  agent_tables_ok (compensated id rq) (<[id := t']> tk) (released id lk) (<[id := c']> cl) ef bn.
Proof.
  intros Hok Hc Hopen Ht [Hid Hterm] Hst Hmsg E1 E2 E3 E4 E5 E6 E7. destruct Hok as [H1 H2 H3 H4 H5 H6 H7].
  destruct (H5 _ _ Hc) as [_ _ _ Hfin (t0 & Ht0 & Hts & _)]. rewrite Ht in Ht0. injection Ht0 as <-.
  assert (Hlk : ∀ s l, released id lk !! s = Some l ↔ lk !! s = Some l ∧ lk_active_task_id l ≠ id).
  { intros s l. unfold released. by rewrite map_lookup_filter_Some. }
  assert (Hback : ∀ j u, <[id := t']> tk !! j = Some u → is_terminal (k_status u) = false → j ≠ id ∧ tk !! j = Some u).
  { intros j u. rewrite lookup_insert. case_decide as E; [|by intros]. intros [= <-]. congruence. }
  split; auto.
  - intros k r (r0 & Hr & Ec & Et & Es & Ef & Ea & _)%lookup_compensated. destruct (H1 _ _ Hr) as [? ? ? ? ? ? (x & m & Hx & ? & ?)].
    split; rewrite ?Ec, ?Et, ?Es, ?Ef, ?Ea; auto. destruct (decide (r_task_id r0 = id)) as [E|E].
    + exists t', m. rewrite E, lookup_insert_eq. rewrite E, Ht in Hx. injection Hx as <-. split_and!; [done..|].
      by rewrite (same_task_identity t).
    + exists x, m. by rewrite lookup_insert_ne.
  - intros i j r s (r0 & Hr & _ & _ & Es & _ & _ & Ha)%lookup_compensated (s0 & Hs & _ & _ & Es' & _ & _ & Ha')%lookup_compensated A1 A2 E.
    eapply (H2 i j r0 s0); [done..|by apply Ha|by apply Ha'|congruence].
  - intros i j x y Hx Hy Fx Fy E. apply (Hback _ _ Hx) in Fx as Hx'. apply (Hback _ _ Hy) in Fy as Hy'.
    eapply (H3 i j x y); [apply Hx'|apply Hy'|done..].
  - intros s s' l l' [Hl _]%Hlk [Hl' _]%Hlk. by eapply H4.
  - intros k x. rewrite lookup_insert. case_decide as E.
    + intros [= <-]. subst k. split; [done..|congruence|]. exists t'. rewrite lookup_insert_eq. destruct Hid as (_ & _ & Hse & _).
      split_and!; [done|congruence|]. unfold cleanup_settled. rewrite E1, E2, E4, E5. split_and!; [done..| |].
      * intros k r (r0 & _ & _ & Et & _ & _ & _ & Ha)%lookup_compensated Hr. destruct (active (r_state r)); [|done].
        destruct Ha as [_ []]; congruence.
      * intros s l. rewrite Hlk. by intros [_ ?].
    + intros Hx. destruct (H5 _ _ Hx) as [Ex ? ? ? (u & Hu & Hus & Hset)]. split; auto. exists u.
      rewrite lookup_insert_ne by done. split_and!; [done..|]. unfold cleanup_settled in *.
      destruct (f_state x); [destruct (f_preserve_terminal x)..|]; [done| |done| |].
      1,2: destruct Hset as [? Hset]; split; [done|]; intros (l & Hl & ? & ?)%Hset; exists l; split_and!; auto; apply Hlk; split; [done|congruence].
      destruct Hset as (? & ? & Hreq & Hno). split_and!; auto.
      * intros i r (r0 & Hr & _ & Et & _ & _ & _ & Ha)%lookup_compensated Htk. destruct (active (r_state r)); [|done].
        rewrite (Hreq _ _ Hr) in Ha by congruence. by destruct Ha.
      * intros s l [Hl _]%Hlk. by eapply Hno.
Qed.

Lemma finish_cleanup_ok now fresh record : preserves agent_ok (finish_cleanup now fresh record).
Proof.
  intros d [] d' Hd H. unfold finish_cleanup, compensate, delete_locks, put_cleanup in H. tx_inv.
  apply (fenced_Ok _ _ _ _ _ _ _ Hd) in Hrun0 as (-> & Hc & _ & Hs & _).
  destruct (tasks d !! f_task_id a0) as [t|] eqn:Ht; [|done]. tx_inv. destruct a1.
  match goal with Hf : finish_task _ _ _ _ _ = _ |- _ => apply (finish_task_Ok _ _ _ _ _ _ Ht) in Hf as (t' & Htab & Hg & E1 & E2) end.
  destruct (cleanup_facts _ _ _ _ _ _ Hd Hc) as (_ & ? & ?).
  unfold tables_of in Htab. simpl in Htab. injection Htab as Erq Etk Elk Ecl Eef Ebn.
  unfold AgentInv.agent_ok. simpl. rewrite Erq, Etk, Elk, Ecl, Eef, Ebn.
  eapply (tables_ok_finish _ _ _ _ _ _ _ a0); [exact Hd|done|congruence|done|done|done|done|try done..]; simpl; lia.
Qed.

(** ** Projections and journal *)

Lemma project_write_ok id status interrupt : preserves agent_ok (project_write id status interrupt).
Proof.
  intros d u d' Hd H. unfold project_write, put_task, add_task_event in H. tx_inv. apply get_task_Ok in Hrun as [-> ->].
  destruct (tasks d !! id) as [t|] eqn:Ht; [|done]. destruct (is_terminal (k_status t)) eqn:E; tx_inv; [done|].
  destruct (_ && _); tx_inv; [done|].
  match goal with Hg : negb _ = true |- _ => apply negb_true_iff in Hg end.
  assert (Hok : agent_ok (set_tasks <[id := set_task_status status interrupt (k_terminal_message t) (k_execution_id t) t]> d)).
  { eapply put_task_ok; [done..|by apply set_status_grows]. }
  by destruct interrupt; tx_inv.
Qed.

Lemma project_ok s : preserves agent_ok (project s).
Proof.
  apply preserves_bind; [|intros [[[id status] interrupt]|]; [apply project_write_ok|apply preserves_ret]].
  intros d p d' Hd [_ ->]%lift_Ok. done.
Qed.

Lemma put_binding_ok d id b : agent_ok d →
  (∀ j c, bindings d !! j = Some c → eb_execution_id c = eb_execution_id b → j = id) →
  agent_ok (set_bindings_of <[id := b]> d).
Proof.
  intros [H1 H2 H3 H4 H5 H6 H7] Hu. split; auto. intros i j x y. simpl. rewrite !lookup_insert.
  case_decide; case_decide; subst; [done|..|apply H7].
  - intros [= <-] Hy E. symmetry. by eapply Hu.
  - intros Hx [= <-] E. by eapply Hu.
Qed.

Lemma bound_execution_false e d : bound_execution e d = false →
  ∀ j c, bindings d !! j = Some c → eb_execution_id c ≠ e.
Proof.
  intros Hf j c Hc E. apply not_true_iff_false in Hf. apply Hf. unfold bound_execution. apply existsb_exists.
  exists (j, c). split; [by apply list_elem_of_In, elem_of_map_to_list|by apply N.eqb_eq].
Qed.

Lemma create_binding_ok d id t e v op next create d' : agent_ok d → tasks d !! id = Some t →
  create_binding id t e v op next create d = Ok (tt, d') → agent_ok d'.
Proof.
  intros Hd Ht H. unfold create_binding, put_task, put_lock, integer_columns, insert_binding in H.
  destruct op as [op|]; [|done]. tx_inv. destruct next as [n|]; [|done]. tx_inv. simpl in *.
  assert (Hd1 : agent_ok (set_tasks <[id := set_task_execution (k_version t) e t]> d)).
  { eapply put_task_ok; [done..|apply set_execution_grows]. }
  assert (agent_ok s2) as Hs.
  { destruct (session_locks d !! k_session_id t) as [l|] eqn:Hl; tx_inv; [|done].
    destruct (lk_active_task_id l =? id)%N eqn:E; tx_inv; [|done].
    eapply put_lock_ok; [done|done|symmetry; by apply N.eqb_eq|done]. }
  apply put_binding_ok; [done|]. intros j c Hc E. exfalso.
  match goal with Hg : negb (bound_execution _ _) = true |- _ => apply negb_true_iff in Hg;
    by apply (bound_execution_false _ _ Hg _ _ Hc) end.
Qed.

Lemma binding_tx_ok id e v op next create : preserves agent_ok (binding_tx id e v op next create).
Proof.
  intros d [] d' Hd H. unfold binding_tx, integer_columns in H. tx_inv. apply get_task_Ok in Hrun as [-> ->].
  destruct (tasks d !! id) as [t|] eqn:Ht; [|done]. tx_inv. destruct (bindings d !! id) as [b|] eqn:Hb.
  - agent_inv. match goal with Hg : (_ =? _)%N = true |- _ => apply N.eqb_eq in Hg as <- end.
    apply put_binding_ok; [done|]. intros j c Hc E. destruct Hd as [_ _ _ _ _ _ H7]. by eapply H7.
  - by eapply create_binding_ok.
Qed.

(** Dropping the locks of a finished task. *)
Lemma delete_locks_ok d id t : agent_ok d → tasks d !! id = Some t → is_terminal (k_status t) = true →
  agent_ok (set_locks (released id) d).
Proof.
  intros [H1 H2 H3 H4 H5 H6 H7] Ht Hterm.
  assert (Hlk : ∀ s l, released id (session_locks d) !! s = Some l ↔ session_locks d !! s = Some l ∧ lk_active_task_id l ≠ id).
  { intros s l. unfold released. by rewrite map_lookup_filter_Some. }
  split; auto; simpl.
  - intros s s' l l' [Hl _]%Hlk [Hl' _]%Hlk. by eapply H4.
  - intros k x Hx. destruct (H5 _ _ Hx) as [Ex ? ? ? (u & Hu & Hus & Hset)]. split; auto. exists u.
    split_and!; [done..|]. unfold cleanup_settled in *.
    destruct (f_state x); [destruct (f_preserve_terminal x)..|]; [done| |done| |].
    1,2: destruct Hset as [? Hset]; split; [done|]; intros Hopen; destruct (Hset Hopen) as (l & Hl & ? & ?); exists l; split_and!; auto;
      apply Hlk; split; [done|]; intros E; assert (k = id) by congruence; congruence.
    destruct Hset as (? & ? & ? & Hno). split_and!; auto. intros s l [Hl _]%Hlk. by eapply Hno.
Qed.

Lemma terminal_tx_ok now fresh id status message metadata : preserves agent_ok (terminal_tx now fresh id status message metadata).
Proof.
  intros d u d' Hd H. unfold terminal_tx, put_task, add_task_event, delete_locks in H. tx_inv.
  apply get_task_Ok in Hrun0 as [-> ->]. destruct (tasks d !! id) as [t|] eqn:Ht; [|done].
  destruct (is_terminal (k_status t)) eqn:E; tx_inv; [done|].
  match goal with Hm : insert_message _ _ _ = Ok (_, ?s) |- _ =>
    apply insert_message_tables in Hm as Htab; rename s into s1 end.
  assert (agent_ok s1) as Hs.
  { eapply agent_ok_tables; [exact Htab|]. eapply put_task_ok; [done..|by apply set_status_grows]. }
  unfold tables_of in Htab. simpl in Htab. injection Htab as _ Etk _ _ _ _.
  eapply (delete_locks_ok (set_task_events _ s1)); [exact Hs|simpl; by rewrite Etk, lookup_insert_eq|done].
Qed.

Lemma promotion_tx_ok id : preserves agent_ok (promotion_tx id).
Proof. intros d u d' Hd H. unfold promotion_tx, add_task_event in H. tx_inv. by destruct (existsb _ _); tx_inv. Qed.

Lemma put_effect_ok d k x : agent_ok d → x_key x = k → digest (x_request x) = x_request_sha256 x →
  agent_ok (set_effects <[k := x]> d).
Proof.
  intros [H1 H2 H3 H4 H5 H6 H7] Hk Hx. split; auto. intros j y. simpl. rewrite lookup_insert.
  case_decide; [intros [= <-]; by subst|apply H6].
Qed.

Lemma prepare_ok key id kind input request : preserves agent_ok (prepare digest key id kind input request).
Proof.
  intros d r d' Hd H. unfold prepare in H. tx_inv.
  assert (Hs : agent_ok (set_effects (λ t, match t !! key with Some _ => t
    | None => <[key := mk_effect key id kind input (digest request) request None]> t end) d)).
  { unfold set_effects. destruct (effects d !! key) eqn:E; [by destruct d|]. by apply put_effect_ok. }
  match type of H with match ?x with _ => _ end _ = _ => destruct x end; by agent_inv.
Qed.

Lemma complete_ok key response : preserves agent_ok (complete digest key response).
Proof.
  intros d r d' Hd H. unfold complete in H. tx_inv. destruct (effects d !! key) as [x|] eqn:E; [|done].
  destruct (x_response x); agent_inv; [done|]. destruct Hd as [? ? ? ? ? H6 ?] eqn:Ed. destruct (H6 _ _ E).
  by apply put_effect_ok.
Qed.
End AgentSteps.
