(* ===== verification/AgentAccept.v ===== *)
(** * Admission keeps the invariant

    What a committed [accept] did, and the invariant of every reachable state
    of the agent's tables. *)

From stdpp Require Import base gmap strings list sorting relations.
From Stdlib Require Import ZArith Lia.
From S2P Require Import Prelude Text Session AgentTables Admission FailureStore TaskProjections AgentWorld Effects AgentInv AgentSteps.
Local Open Scope Z_scope.
Set Default Proof Using "Type".

Section Accept.
Context (fp : ApiRequest → string) (signal : json → result ResumeSignal) (digest : json → string).

Abbreviation agent_ok := (agent_ok fp signal digest).
Abbreviation agent_step := (agent_step fp signal digest).
Abbreviation accept := (accept fp signal).
Abbreviation accept_tx := (accept_tx fp signal).

Lemma parse_uuid_Ok s u : parse_uuid s = Ok u ↔ uuid_parse s = Some u.
Proof. unfold parse_uuid, from_option_err. destruct (uuid_parse s); naive_solver. Qed.

Lemma has_active_None s d : has_active s d = None ↔
  ∀ id r, requests d !! id = Some r → active (r_state r) = true → r_session_id r ≠ s.
Proof.
  unfold has_active. rewrite head_omap_None. split.
  - intros H id r Hr Ha Hs. specialize (H (id, r)). rewrite elem_of_map_to_list in H. specialize (H Hr).
    simpl in H. by rewrite Hs, String.eqb_refl, Ha in H.
  - intros H [id r] Hr%elem_of_map_to_list. simpl. destruct (String.eqb_spec (r_session_id r) s) as [E|]; [|done].
    destruct (active (r_state r)) eqn:Ha; [|done]. by destruct (H _ _ Hr Ha).
Qed.

Lemma unfinished_None s d : unfinished s d = None ↔
  ∀ id t, tasks d !! id = Some t → is_terminal (k_status t) = false → k_session_id t ≠ s.
Proof.
  unfold unfinished. rewrite head_omap_None. split.
  - intros H id r Hr Ha Hs. specialize (H (id, r)). rewrite elem_of_map_to_list in H. specialize (H Hr).
    simpl in H. by rewrite Hs, String.eqb_refl, Ha in H.
  - intros H [id r] Hr%elem_of_map_to_list. simpl. destruct (String.eqb_spec (k_session_id r) s) as [E|]; [|done].
    destruct (is_terminal (k_status r)) eqn:Ha; [done|]. by destruct (H _ _ Hr Ha).
Qed.

Lemma session_free_Ok s d u : session_free s d = Ok u ↔
  from_option lk_locked false (session_locks d !! s) = false ∧ unfinished s d = None.
Proof.
  destruct u. unfold session_free. destruct (from_option _ _ _); [naive_solver|]. cbn [orb].
  case_bool_decide as E; [|by rewrite <- eq_None_not_Some in E].
  split; [done|]. intros [_ E']. rewrite E' in E. by destruct E.
Qed.

(** The task row a START request creates. *)
Definition new_task (u : TaskTurn) (message : uuid) : task_row :=
  mk_task (t_user_id u) (t_project_id u) (t_session_id u) message (t_user_message u) ACCEPTED None None None 1
    (t_user_id u) (t_user_id u).

(** When the task of a request may take it. *)
Definition admissible (c : ApiRequest) (task message : uuid) (d : adb) : Prop :=
  cleanups d !! task = None ∧
  if decide (kind c = START)
  then tasks d !! task = None ∧ from_option lk_locked false (session_locks d !! t_session_id (turn c)) = false ∧
       unfinished (t_session_id (turn c)) d = None ∧ messages d !! message = None
  else ∃ t, tasks d !! task = Some t ∧ same_task t (turn c) message = true ∧ is_terminal (k_status t) = false.

(** The tables after the task has been admitted. *)
Definition admitted (now : timestamp) (c : ApiRequest) (task message : uuid) (d : adb) : adb :=
  if decide (kind c = START)
  then set_task_events (λ l, l ++ [mk_event task "task.accepted" (JObj [("status", JStr (status_value ACCEPTED))])])
         (set_messages <[message := mk_message task "user" (t_user_message (turn c)) (JObj []) now]>
            (set_tasks <[task := new_task (turn c) message]> d))
  else d.

Lemma admit_task_Ok now c d u d' : admit_task now c d = Ok (u, d') ↔
  ∃ task message, uuid_parse (t_active_task_id (turn c)) = Some task ∧
    uuid_parse (t_current_input_message_id (turn c)) = Some message ∧
    admissible c task message d ∧ d' = admitted now c task message d.
Proof.
  destruct u. split.
  - intros H. unfold admit_task, insert_task, insert_message, add_task_event in H. agent_inv.
    match goal with H1 : parse_uuid _ = Ok ?t, H2 : parse_uuid _ = Ok ?m |- _ =>
      apply parse_uuid_Ok in H1, H2; exists t, m end.
    match goal with Hg : bool_decide (cleanups _ !! _ = None) = true |- _ => apply bool_decide_eq_true in Hg end.
    do 2 (split; [done|]). unfold admissible, admitted.
    case_bool_decide as Ek; [rewrite !decide_True by done|rewrite !decide_False by done]; cbn [negb] in H.
    + agent_inv. match goal with Hf : session_free _ _ = Ok _ |- _ => apply session_free_Ok in Hf as [? ?] end.
      repeat match goal with Hg : bool_decide _ = true |- _ => apply bool_decide_eq_true in Hg end. simpl in *.
      by split_and!.
    + destruct (tasks d !! a) as [t|] eqn:Ht; [|done]. tx_inv. split_and!; [done| |done].
      exists t. split_and!; [done..|by apply negb_true_iff].
  - intros (task & message & H1 & H2 & [Hc Ha] & ->).
    unfold admit_task, insert_task, insert_message, add_task_event, mbind, tx_bind, lift, tx_get, tx_guard, tx_modify.
    rewrite (proj2 (parse_uuid_Ok _ _) H1), (proj2 (parse_uuid_Ok _ _) H2), bool_decide_eq_true_2 by done.
    unfold admissible, admitted in *. case_bool_decide; case_decide; try done; cbn [negb].
    + destruct Ha as (Ht & Hf & Ho & Hm). rewrite (proj2 (session_free_Ok (t_session_id (turn c)) d tt)) by done.
      rewrite bool_decide_eq_true_2 by done. simpl.
      do 3 (rewrite bool_decide_eq_true_2 by (done || (rewrite lookup_insert_eq; by eexists)); simpl). done.
    + destruct Ha as (t & -> & -> & ->). done.
Qed.

(** ** The invariant *)

Lemma tables_ok_new_task d task message c : agent_ok d → admissible c task message d → kind c = START →
  agent_ok (set_tasks <[task := new_task (turn c) message]> d).
Proof.
  intros [H1 H2 H3 H4 H5 H6 H7] [Hc Ha] Hk. rewrite decide_True in Ha by done. destruct Ha as (Ht & _ & Hu & _).
  rewrite unfinished_None in Hu. split; auto; simpl.
  - intros id r Hr. destruct (H1 _ _ Hr) as [? ? ? ? ? ? (t & m & Ht' & ? & ?)]. split; auto.
    exists t, m. rewrite lookup_insert_ne; [done|congruence].
  - intros i j x y. rewrite !lookup_insert. case_decide; case_decide; subst; [done|..|apply H3]; simpl.
    + intros [= <-] Hy _ Fy E. by destruct (Hu _ _ Hy Fy).
    + intros Hx [= <-] Fx _ E. by destruct (Hu _ _ Hx Fx).
  - intros id x Hx. destruct (H5 _ _ Hx) as [? ? ? ? (t & Ht' & ?)]. split; auto. exists t.
    rewrite lookup_insert_ne; [done|congruence].
Qed.

Lemma admitted_ok now c task message d : agent_ok d → admissible c task message d →
  agent_ok (admitted now c task message d) ∧ cleanups (admitted now c task message d) !! task = None ∧
  ∃ t, tasks (admitted now c task message d) !! task = Some t ∧ same_task t (turn c) message = true.
Proof.
  intros Hd Ha. unfold admitted. case_decide as Hk.
  - split; [by apply (tables_ok_new_task _ _ _ _ Hd Ha Hk)|]. split; [by apply Ha|].
    exists (new_task (turn c) message). simpl. rewrite lookup_insert_eq. split; [done|].
    unfold same_task. simpl. by rewrite !String.eqb_refl, N.eqb_refl.
  - split; [done|]. split; [by apply Ha|]. destruct Ha as [_ Ha]. rewrite decide_False in Ha by done. naive_solver.
Qed.

Lemma insert_request_ok d id r : agent_ok d → request_ok fp signal (tasks d) id r →
  (∀ k s, requests d !! k = Some s → active (r_state s) = true → r_session_id s ≠ r_session_id r) →
  cleanups d !! r_task_id r = None → agent_ok (set_requests <[id := r]> d).
Proof.
  intros [H1 H2 H3 H4 H5 H6 H7] Hr Hno Hcl. split; auto; simpl.
  - intros k x. rewrite lookup_insert. case_decide; [intros [= <-]; by subst|apply H1].
  - intros i j x y. rewrite !lookup_insert. case_decide; case_decide; subst; [done|..|apply H2].
    + intros [= <-] Hy _ Ay E. by destruct (Hno _ _ Hy Ay).
    + intros Hx [= <-] Ax _ E. by destruct (Hno _ _ Hx Ax).
  - intros k x Hx. destruct (H5 _ _ Hx) as [E ? ? ? (t & Ht & Hs & Hset)]. split; auto. exists t. split_and!; auto.
    unfold cleanup_settled in *. destruct (f_state x); [done..|]. destruct Hset as (? & ? & Hreq & ?). split_and!; auto.
    intros i q. rewrite lookup_insert. case_decide; [|apply Hreq]. intros [= <-] Eq. congruence.
Qed.

(** The record of a new request. *)
Definition new_request (now : timestamp) (c : ApiRequest) (task : uuid) (node : string) (base : option string)
    : request_row :=
  mk_request_row c task (t_session_id (turn c)) (fp c) node base R_PENDING 0 now None (t_user_id (turn c)) (t_user_id (turn c)).

(** What [accept_tx] commits: the stored request again, or the task and the
    request together. *)
Lemma accept_tx_Ok now c node base d r d' : accept_tx now c node base d = Ok (r, d') ↔
  (requests d !! request_id c = Some r ∧ d' = d ∧ r_command r = c ∧ r_fingerprint r = fp c ∧
     validate_request signal c = Ok tt) ∨
  (requests d !! request_id c = None ∧ validate_request signal c = Ok tt ∧ has_active (t_session_id (turn c)) d = None ∧
   ∃ task message, uuid_parse (t_active_task_id (turn c)) = Some task ∧
     uuid_parse (t_current_input_message_id (turn c)) = Some message ∧ admissible c task message d ∧
     r = new_request now c task node base ∧
     d' = set_requests <[request_id c := r]> (admitted now c task message d)).
Proof.
  assert (Hrq : ∀ task message, requests (admitted now c task message d) = requests d)
    by (intros; unfold admitted; by case_decide).
  unfold accept_tx, Admission.accept_tx. rewrite tx_bind_Ok. split.
  - intros (x & s & [= <- <-] & H). destruct (requests d !! request_id c) as [q|] eqn:Hq.
    + left. agent_inv. match goal with Hr : record_of _ _ _ = Ok _ |- _ => apply record_of_Ok in Hr as (-> & Hv & Hf) end.
      match goal with Hc : validate_command _ _ _ = Ok _ |- _ => unfold validate_command, raise_if in Hc;
        destruct (_ && _) eqn:E in Hc; [|done] end.
      apply andb_true_iff in E as [<-%bool_decide_eq_true _]. done.
    + right. destruct (has_active _ d) eqn:Ha; [by agent_inv|]. unfold insert_request in H. agent_inv.
      match goal with Hp : parse_uuid _ = Ok _ |- _ => apply parse_uuid_Ok in Hp as Hp' end.
      match goal with Hr : record_of _ _ _ = Ok _ |- _ => apply record_of_Ok in Hr as (-> & Hv & _) end.
      match goal with Hr : admit_task _ _ _ = Ok _ |- _ => apply admit_task_Ok in Hr as (task & message & Htk & ? & ? & ->) end.
      rewrite Htk in Hp'. injection Hp' as ->. do 3 (split; [done|]). by eexists _, message.
  - intros [(Hq & -> & Hc & Hf & Hv)|(Hq & Hv & Ha & task & message & Ht & Hm & Hadm & -> & ->)];
      exists d, d; (split; [done|]); rewrite Hq.
    + apply tx_bind_Ok. exists r, d. split; [by apply lift_Ok; rewrite record_of_Ok, Hc|].
      apply tx_bind_Ok. exists tt, d. split; [|done]. apply lift_Ok. unfold validate_command.
      by rewrite bool_decide_eq_true_2, Hf, String.eqb_refl by done.
    + rewrite Ha. apply tx_bind_Ok. exists tt, d. split; [done|]. apply tx_bind_Ok. exists tt, (admitted now c task message d).
      split; [apply admit_task_Ok; by eauto 10|]. apply tx_bind_Ok. exists task, (admitted now c task message d).
      split; [by apply lift_Ok; rewrite parse_uuid_Ok|]. apply tx_bind_Ok. eexists _, _.
      split; [|apply lift_Ok; split; [by apply record_of_Ok|reflexivity]].
      unfold insert_request, mbind, tx_bind, tx_get, tx_guard, tx_modify. rewrite Hrq.
      rewrite !bool_decide_eq_true_2; [reflexivity|..|done].
      * rewrite has_active_None. rewrite has_active_None in Ha. rewrite Hrq. exact Ha.
      * simpl. unfold admitted. case_decide as Hk; [simpl; rewrite lookup_insert_eq; done|].
        destruct Hadm as [_ Hadm]. rewrite decide_False in Hadm by done. destruct Hadm as (t & -> & _). done.
Qed.

(** A violated constraint never hides a stored request: [accept] commits
    exactly what its transaction commits. *)
Lemma accept_Ok now c node base d r d' :
  accept now c node base d = Ok (r, d') ↔ accept_tx now c node base d = Ok (r, d').
Proof.
  unfold accept, Admission.accept. fold (accept_tx now c node base d).
  destruct (accept_tx now c node base d) as [[r0 d0]|e] eqn:E; [done|]. split; [|done].
  destruct (is_integrity_error e); [|done]. unfold Admission.get.
  destruct (requests d !! request_id c) as [q|] eqn:Hq; cbn [mbind result_bind]; [|done].
  destruct (record_of fp signal q) as [q'|] eqn:Hr; cbn [mbind result_bind]; [|done].
  apply record_of_Ok in Hr as (-> & Hv & Hf). unfold validate_command. rewrite raise_if_then. intros [Hc [= <- <-]].
  apply negb_false_iff, andb_true_iff in Hc as [Hc%bool_decide_eq_true _].
  rewrite <- E. apply accept_tx_Ok. left. subst c. done.
Qed.

Lemma accept_ok now c node base : preserves agent_ok (accept now c node base).
Proof.
  intros d r d' Hd [(_ & -> & _)|(Hn & Hv & Ha & task & message & Ht & Hm & Hadm & -> & ->)]%accept_Ok%accept_tx_Ok; [done|].
  destruct (admitted_ok now _ _ _ _ Hd Hadm) as (Hd' & Hcl & t & Htk & Hsame).
  apply insert_request_ok; [done| |simpl|done].
  - split; simpl; [done..|]. by exists t, message.
  - intros k s Hs Has. rewrite has_active_None in Ha. apply (Ha k s); [|done].
    revert Hs. unfold admitted. by case_decide.
Qed.

Lemma agent_step_ok d d' : agent_ok d → agent_step d d' → agent_ok d'.
Proof.
  intros Hd [].
  - by eapply accept_ok.
  - by eapply claim_ok.
  - by eapply finish_ok.
  - by eapply defer_busy_ok.
  - by eapply resolve_applied_ok.
  - by eapply ensure_ok.
  - by eapply retry_blocked_ok.
  - by eapply bind_execution_ok.
  - by eapply claim_cleanup_ok.
  - by eapply confirm_ok.
  - by eapply defer_ok.
  - by eapply cleanup_defer_busy_ok.
  - by eapply finish_cleanup_ok.
  - by eapply project_ok.
  - by eapply binding_tx_ok.
  - by eapply terminal_tx_ok.
  - by eapply promotion_tx_ok.
  - by eapply prepare_ok.
  - by eapply complete_ok.
Qed.

Lemma agent_run_ok d d' : rtc agent_step d d' → agent_ok d → agent_ok d'.
Proof. induction 1; intros; [done|]. apply IHrtc. by eapply agent_step_ok. Qed.
End Accept.
