(* ===== verification/AgentHistory.v ===== *)
(** * What the agent's transactions never undo

    Along any run of transactions a request keeps its command and never leaves
    a final state, a finished task keeps its result, messages and task events
    are only added, a recorded cleanup keeps its source, a journaled request
    and its receipt are never replaced, and a binding never goes back. *)

From stdpp Require Import base gmap strings list sorting relations.
From Stdlib Require Import ZArith Lia.
From S2P Require Import Prelude Text Session AgentTables Admission FailureStore TaskProjections AgentWorld Effects AgentInv AgentSteps AgentAccept.
Local Open Scope Z_scope.
Set Default Proof Using "Type".

Definition final_state (s : request_state) : bool :=
  match s with R_APPLIED | R_REJECTED | R_COMPENSATED => true | _ => false end.

Definition request_grows (r r' : request_row) : Prop :=
  r_command r' = r_command r ∧ r_task_id r' = r_task_id r ∧ r_session_id r' = r_session_id r ∧
  r_fingerprint r' = r_fingerprint r ∧ r_target_node r' = r_target_node r ∧
  r_base_checkpoint_id r' = r_base_checkpoint_id r ∧ r_attempts r ≤ r_attempts r' ∧
  (final_state (r_state r) = true → r_state r' = r_state r).

Definition cleanup_grows (c c' : cleanup_row) : Prop :=
  f_task_id c' = f_task_id c ∧ f_session_id c' = f_session_id c ∧ f_turn c' = f_turn c ∧
  f_source c' = f_source c ∧ f_reason c' = f_reason c ∧ f_preserve_terminal c' = f_preserve_terminal c ∧
  f_final_status c' = f_final_status c ∧ f_version c ≤ f_version c' ∧ (f_state c = F_DONE → c' = c).

Definition effect_grows (x x' : effect_row) : Prop :=
  x_key x' = x_key x ∧ x_task_id x' = x_task_id x ∧ x_kind x' = x_kind x ∧ x_input_sha256 x' = x_input_sha256 x ∧
  x_request_sha256 x' = x_request_sha256 x ∧ x_request x' = x_request x ∧
  (is_Some (x_response x) → x_response x' = x_response x).

Definition ebinding_grows (b b' : executor_binding) : Prop :=
  eb_execution_id b' = eb_execution_id b ∧ eb_execution_version b ≤ eb_execution_version b' ∧
  eb_next_step_sequence b ≤ eb_next_step_sequence b' ∧
  (eb_next_step_sequence b' = eb_next_step_sequence b → eb_operation_id b' = eb_operation_id b).

Definition agent_grows (d d' : adb) : Prop :=
  keeps request_grows (requests d) (requests d') ∧ keeps task_grows (tasks d) (tasks d') ∧
  messages d ⊆ messages d' ∧ task_events d `prefix_of` task_events d' ∧
  keeps cleanup_grows (cleanups d) (cleanups d') ∧ keeps effect_grows (effects d) (effects d') ∧
  keeps ebinding_grows (bindings d) (bindings d').

#[export] Instance request_grows_preorder : PreOrder request_grows.
Proof.
  split; [by intros r; split_and!|].
  intros r1 r2 r3 (?&?&?&?&?&?&?&Hp) (?&?&?&?&?&?&?&Hq). split_and!; try congruence; [lia|].
  intros E. rewrite Hq; [by apply Hp|by rewrite Hp].
Qed.
#[export] Instance task_grows_preorder : PreOrder task_grows.
Proof.
  split; [by intros t; split; [split_and!|]|].
  intros t1 t2 t3 [(?&?&?&?&?) Hp] [(?&?&?&?&?) Hq]. split; [split_and!; congruence|].
  intros E. destruct (Hp E) as [E1 E2], Hq as [E3 E4]; [congruence|]. split; congruence.
Qed.
#[export] Instance cleanup_grows_preorder : PreOrder cleanup_grows.
Proof.
  split; [by intros c; split_and!|].
  intros c1 c2 c3 (?&?&?&?&?&?&?&?&Hp) (?&?&?&?&?&?&?&?&Hq). split_and!; try congruence; [lia|].
  intros E. pose proof (Hp E) as ->. by apply Hq.
Qed.
#[export] Instance effect_grows_preorder : PreOrder effect_grows.
Proof.
  split; [by intros x; split_and!|].
  intros x1 x2 x3 (?&?&?&?&?&?&Hp) (?&?&?&?&?&?&Hq). split_and!; try congruence.
  intros E. rewrite Hq; [by apply Hp|by rewrite Hp].
Qed.
#[export] Instance ebinding_grows_preorder : PreOrder ebinding_grows.
Proof.
  split; [by intros b; split_and!|].
  intros b1 b2 b3 (?&?&?&Hp) (?&?&?&Hq). split_and!; [congruence|lia|lia|].
  intros E. rewrite Hq by lia. apply Hp. lia.
Qed.
#[export] Instance agent_grows_preorder : PreOrder agent_grows.
Proof.
  split; [intros d; split_and!; reflexivity|].
  intros d1 d2 d3 (?&?&?&?&?&?&?) (?&?&?&?&?&?&?). split_and!; by etransitivity.
Qed.

(** ** One table at a time *)

Lemma grows_request d id r r' : requests d !! id = Some r → request_grows r r' →
  agent_grows d (set_requests <[id := r']> d).
Proof. intros. split_and!; try reflexivity. by eapply keeps_put; [apply _|..]. Qed.
Lemma grows_task d id t t' : tasks d !! id = Some t → task_grows t t' → agent_grows d (set_tasks <[id := t']> d).
Proof. intros. split_and!; try reflexivity. by eapply keeps_put; [apply _|..]. Qed.
Lemma grows_cleanup d id c c' : cleanups d !! id = Some c → cleanup_grows c c' →
  agent_grows d (set_cleanups <[id := c']> d).
Proof. intros. split_and!; try reflexivity. by eapply keeps_put; [apply _|..]. Qed.
Lemma grows_new_cleanup d id c : cleanups d !! id = None → agent_grows d (set_cleanups <[id := c]> d).
Proof. intros. split_and!; try reflexivity. by apply keeps_insert; [apply _|]. Qed.
Lemma grows_locks d f : agent_grows d (set_locks f d).
Proof. split_and!; reflexivity. Qed.
Lemma grows_event id type payload : within agent_grows (add_task_event id type payload).
Proof. apply within_modify. intros d. split_and!; try reflexivity. by apply prefix_app_r. Qed.
Lemma grows_message id m : within agent_grows (insert_message id m).
Proof.
  intros d u d' H. unfold insert_message in H. tx_inv. split_and!; try reflexivity. simpl.
  apply insert_subseteq. by match goal with Hg : bool_decide (messages _ !! _ = None) = true |- _ =>
    apply bool_decide_eq_true in Hg end.
Qed.
Lemma grows_lift {A} (x : result A) : within agent_grows (lift x).
Proof. intros d a d' [_ ->]%lift_Ok. reflexivity. Qed.

#[export] Hint Resolve grows_locks grows_event grows_message grows_lift : exagent.

(** ** Every transaction *)

Section History.
Context (fp : ApiRequest → string) (signal : json → result ResumeSignal) (digest : json → string).

Lemma with_state_grows r s n at_ err by_ : final_state (r_state r) = false → r_attempts r ≤ n →
  request_grows r (with_request_state s n at_ err by_ r).
Proof. intros E ?. split_and!; try done. by rewrite E. Qed.

Lemma open_not_final s : open_state s = true → final_state s = false.
Proof. by destruct s. Qed.

Lemma claim_grows now id max_attempts delay : within agent_grows (claim fp signal now id max_attempts delay).
Proof.
  intros d r d' H. unfold claim, put_request in H. agent_inv. apply required_Ok in Hrun as [Hr ->].
  destruct (open_state (r_state a)) eqn:Ho; cbn [negb] in H; [|by apply lift_Ok in H as [_ ->]].
  apply open_not_final in Ho. agent_inv. case_bool_decide; agent_inv; (eapply grows_request; [done|]);
    [by apply with_state_grows|]. destruct (_ <=? _); by apply with_state_grows; [|lia].
Qed.

Lemma finish_grows now record state error delay : within agent_grows (finish fp signal now record state error delay).
Proof.
  intros d r d' H. unfold finish, put_request in H. tx_inv. apply required_Ok in Hrun0 as [Hr ->]. agent_inv.
  match goal with Hg : _ && _ && _ = true |- _ =>
    apply andb_true_iff in Hg as [[Ho Hs%bool_decide_eq_true]%andb_true_iff _] end.
  eapply grows_request; [done|]. apply with_state_grows; [|lia]. rewrite Hs. by apply open_not_final.
Qed.

Lemma defer_busy_grows now id delay : within agent_grows (defer_busy now id delay).
Proof.
  intros d r d' H. unfold defer_busy, put_request in H. tx_inv. apply required_Ok in Hrun as [Hr ->].
  destruct (open_state (r_state a)) eqn:Ho; tx_inv; [|reflexivity].
  eapply grows_request; [done|]. apply with_state_grows; [by apply open_not_final|lia].
Qed.

Lemma resolve_applied_grows record : within agent_grows (resolve_applied record).
Proof.
  intros d r d' H. unfold resolve_applied, put_request in H. tx_inv. apply required_Ok in Hrun as [Hr ->]. tx_inv.
  match goal with Hg : _ && _ = true |- _ => apply andb_true_iff in Hg as [Hs%bool_decide_eq_true _] end.
  eapply grows_request; [done|]. apply with_state_grows; [by rewrite Hs|lia].
Qed.

Lemma admitted_grows now c task message d : admissible c task message d → agent_grows d (admitted now c task message d).
Proof.
  intros [_ Ha]. unfold admitted. case_decide; [|reflexivity]. destruct Ha as (Ht & _ & _ & Hm).
  split_and!; try reflexivity; simpl.
  - by apply keeps_insert; [apply _|].
  - by apply insert_subseteq.
  - by apply prefix_app_r.
Qed.

Lemma accept_grows now c node base : within agent_grows (accept fp signal now c node base).
Proof.
  intros d r d' H. apply accept_Ok, accept_tx_Ok in H as [(_ & -> & _)|H]; [reflexivity|].
  destruct H as (Hn & _ & _ & task & message & _ & _ & Ha & _ & ->).
  etransitivity; [by apply (admitted_grows now)|]. split_and!; try reflexivity.
  apply keeps_insert; [apply _|]. unfold admitted. by case_decide.
Qed.

Lemma touch_grows now actor s n at_ err c : f_state c ≠ F_DONE → cleanup_grows c (touch_cleanup now actor s n at_ err c).
Proof. intros. split_and!; try done. simpl. lia. Qed.

Lemma set_result_grows now execution status message c : f_state c ≠ F_DONE →
  cleanup_grows c (touch now "AGENT" (set_cleanup_result execution status message c)).
Proof. intros. split_and!; try done. simpl. lia. Qed.

Abbreviation agent_ok := (agent_ok fp signal digest).

Lemma fenced_row record d c d' : agent_ok d → fenced record d = Ok (c, d') →
  d' = d ∧ cleanups d !! f_task_id c = Some c ∧ f_state c ≠ F_DONE.
Proof. intros Hd H. apply (fenced_Ok _ _ _ _ _ _ _ Hd) in H as (-> & ? & _ & -> & _). done. Qed.

Lemma cleanup_defer_busy_grows now id delay : within agent_grows (cleanup_defer_busy now id delay).
Proof.
  intros d r d' H. unfold cleanup_defer_busy, put_cleanup in H. tx_inv. apply required_cleanup_Ok in Hrun as [Hc ->].
  case_bool_decide; tx_inv; [|reflexivity]. eapply grows_cleanup; [done|]. apply touch_grows. congruence.
Qed.

Lemma claim_cleanup_grows now id max_attempts delay : within agent_grows (claim_cleanup now id max_attempts delay).
Proof.
  intros d r d' H. unfold claim_cleanup, put_cleanup in H. tx_inv. apply required_cleanup_Ok in Hrun as [Hc ->].
  case_bool_decide; cbn [negb] in H; tx_inv; [|reflexivity]. eapply grows_cleanup; [done|].
  destruct (_ <=? _); apply touch_grows; congruence.
Qed.

Lemma retry_blocked_grows now id op hash action actor reason version :
  within agent_grows (retry_blocked now id op hash action actor reason version).
Proof.
  intros d r d' H. unfold retry_blocked, put_cleanup in H. agent_inv. apply required_cleanup_Ok in Hrun0 as [Hc ->].
  destruct a1; agent_inv; [reflexivity|]. match goal with He : add_task_event _ _ _ _ = _ |- _ => apply grows_event in He; etransitivity; [|exact He] end.
  match goal with Hg : bool_decide _ = true |- _ => apply bool_decide_eq_true in Hg as Hs end.
  eapply grows_cleanup; [done|]. split_and!; try done; simpl; [lia|congruence].
Qed.

Lemma confirm_grows now record execution status message d r d' : agent_ok d →
  confirm now record execution status message d = Ok (r, d') → agent_grows d d'.
Proof.
  intros Hd H. unfold confirm, put_cleanup in H. tx_inv. apply fenced_row in Hrun0 as (-> & Hc & Hs); [|done].
  eapply grows_cleanup; [done|]. by apply set_result_grows.
Qed.

Lemma defer_grows now record error delay blocked d r d' : agent_ok d →
  defer now record error delay blocked d = Ok (r, d') → agent_grows d d'.
Proof.
  intros Hd H. unfold defer, put_cleanup in H. tx_inv. apply fenced_row in Hrun as (-> & Hc & Hs); [|done].
  eapply grows_cleanup; [done|]. by apply touch_grows.
Qed.

Lemma bind_execution_grows now record execution d r d' : agent_ok d →
  bind_execution now record execution d = Ok (r, d') → agent_grows d d'.
Proof.
  intros Hd H. unfold bind_execution, put_cleanup, put_task, put_lock in H. tx_inv.
  apply fenced_row in Hrun as (-> & Hc & Hs); [|done].
  destruct (tasks d !! f_task_id a) as [t|] eqn:Ht; [|done].
  destruct (session_locks d !! f_session_id a) as [l|] eqn:Hl; tx_inv.
  etransitivity; [by eapply grows_cleanup, set_result_grows|].
  etransitivity; [|apply grows_locks]. by eapply grows_task, set_execution_grows.
Qed.

Lemma ensure_grows now id session source reason execution : within agent_grows (ensure now id session source reason execution).
Proof.
  intros d r d' H. unfold ensure, put_cleanup in H. tx_inv. destruct (tasks d !! id) as [t|]; [|done]. tx_inv.
  destruct (cleanups d !! id) as [c|] eqn:Hc; tx_inv; [reflexivity|]. agent_inv.
  assert (Hlock : ∀ s i e d1 u d2, ensure_lock s i e d1 = Ok (u, d2) → agent_grows d1 d2 ∧ cleanups d2 = cleanups d1).
  { intros s i e d1 u d2 Hl. unfold ensure_lock, put_lock, insert_lock in Hl. tx_inv.
    destruct (session_locks d1 !! s); tx_inv; split; try done; apply grows_locks. }
  destruct (is_terminal (k_status t)); tx_inv; [by apply grows_new_cleanup|].
  match goal with Hl : ensure_lock _ _ _ _ = _ |- _ => apply Hlock in Hl as [Hg Ecl] end.
  match goal with He : add_task_event _ _ _ _ = _ |- _ => apply grows_event in He end.
  etransitivity; [exact Hg|]. etransitivity; [|eassumption]. apply grows_new_cleanup. by rewrite Ecl.
Qed.

Lemma finish_task_grows now fresh row t d u d' : tasks d !! f_task_id row = Some t →
  finish_task now fresh row t d = Ok (u, d') → agent_grows d d'.
Proof.
  intros Ht H. unfold finish_task, put_task in H. destruct (is_terminal (k_status t)) eqn:E; agent_inv; [reflexivity|].
  match goal with He : add_task_event _ _ _ _ = _, Hm : insert_message _ _ _ = _ |- _ =>
    apply grows_event in He; apply grows_message in Hm; etransitivity; [|exact He]; etransitivity; [|exact Hm] end.
  by eapply grows_task, set_status_grows.
Qed.

Lemma finish_cleanup_grows now fresh record d r d' : agent_ok d →
  finish_cleanup now fresh record d = Ok (r, d') → agent_grows d d'.
Proof.
  intros Hd H. unfold finish_cleanup, compensate, delete_locks, put_cleanup in H. tx_inv.
  apply fenced_row in Hrun0 as (-> & Hc & Hs); [|done].
  destruct (tasks d !! f_task_id a0) as [t|] eqn:Ht; [|done]. tx_inv.
  match goal with Hf : finish_task _ _ _ _ _ = Ok (?u, ?s) |- _ => destruct u;
    apply (finish_task_Ok _ _ _ _ _ _ Ht) in Hf as Ht'; destruct Ht' as (t' & Htab & _);
    assert (cleanups s = cleanups d) as Ecl by (unfold tables_of in Htab; simpl in Htab; congruence);
    apply (finish_task_grows _ _ _ _ _ _ _ Ht) in Hf end.
  etransitivity; [eassumption|].
  split_and!; try reflexivity; simpl.
  - apply keeps_update_where; [apply _|]. intros k x [_ Hx]%andb_true_iff. split_and!; try done. by destruct (r_state x).
  - rewrite Ecl. eapply keeps_put; [apply _|done|]. by apply touch_grows.
Qed.

Lemma project_grows s : within agent_grows (project s).
Proof.
  apply within_bind; [apply _|auto with exagent|]. intros [[[id status] interrupt]|]; [|apply within_ret; apply _].
  intros d u d' H. unfold project_write, put_task in H. tx_inv. apply get_task_Ok in Hrun as [-> ->].
  destruct (tasks d !! id) as [t|] eqn:Ht; [|done]. destruct (is_terminal (k_status t)) eqn:E; tx_inv; [reflexivity|].
  destruct (_ && _); tx_inv; [reflexivity|].
  etransitivity; [by eapply grows_task, set_status_grows|]. by destruct interrupt; eapply grows_event.
Qed.

Lemma create_binding_grows id t e v op next create d u d' : tasks d !! id = Some t →
  create_binding id t e v op next create d = Ok (u, d') → agent_grows d d'.
Proof.
  intros Ht H. unfold create_binding, put_task, put_lock, integer_columns, insert_binding in H.
  destruct op as [op|]; [|done]. tx_inv. destruct next as [n|]; [|done]. tx_inv.
  etransitivity; [by eapply grows_task, set_execution_grows|].
  match goal with Hb : bool_decide (bindings _ !! _ = None) = true |- _ => apply bool_decide_eq_true in Hb end.
  match goal with Hl : match session_locks _ !! _ with _ => _ end _ = Ok (_, ?s) |- agent_grows ?a _ =>
    assert (agent_grows a s) as Hs end.
  { destruct (session_locks _ !! _) as [l|]; [destruct (_ =? _)%N|]; tx_inv; apply grows_locks || reflexivity. }
  etransitivity; [exact Hs|]. split_and!; try reflexivity. by apply keeps_insert; [apply _|].
Qed.

Lemma advance_binding_grows b op next create o n version : advance_binding b op next create = Ok (o, n) →
  ebinding_grows b (mk_ebinding (eb_execution_id b) o (Z.max (eb_execution_version b) version) n).
Proof.
  unfold advance_binding. destruct next as [m|].
  - destruct (Z.eqb_spec m (eb_next_step_sequence b)).
    + rewrite raise_if_then. intros [_ [= <- <-]]. split_and!; simpl; (done || lia).
    + destruct (Z.ltb_spec (eb_next_step_sequence b) m).
      * destruct op; [|done]. rewrite raise_if_then. intros [_ [= <- <-]]. split_and!; simpl; (done || lia).
      * intros [= <- <-]. split_and!; simpl; (done || lia).
  - intros [= <- <-]. split_and!; simpl; (done || lia).
Qed.

Lemma binding_tx_grows id e v op next create : within agent_grows (binding_tx id e v op next create).
Proof.
  intros d u d' H. unfold binding_tx, integer_columns in H. tx_inv. apply get_task_Ok in Hrun as [-> ->].
  destruct (tasks d !! id) as [t|] eqn:Ht; [|done]. tx_inv. destruct (bindings d !! id) as [b|] eqn:Hb.
  - agent_inv. match goal with Hg : (_ =? _)%N = true |- _ => apply N.eqb_eq in Hg as <- end.
    split_and!; try reflexivity. eapply keeps_put; [apply _|done|].
    match goal with Ha : advance_binding _ _ _ _ = Ok ?x |- _ => destruct x; by eapply advance_binding_grows end.
  - by eapply create_binding_grows.
Qed.

Lemma terminal_tx_grows now fresh id status message metadata :
  within agent_grows (terminal_tx now fresh id status message metadata).
Proof.
  intros d u d' H. unfold terminal_tx, put_task, delete_locks in H. tx_inv.
  apply get_task_Ok in Hrun0 as [-> ->]. destruct (tasks d !! id) as [t|] eqn:Ht; [|done].
  destruct (is_terminal (k_status t)) eqn:E; tx_inv; [reflexivity|].
  match goal with He : add_task_event _ _ _ _ = _, Hm : insert_message _ _ _ = _ |- _ =>
    apply grows_event in He; apply grows_message in Hm;
    etransitivity; [|etransitivity; [exact Hm|etransitivity; [exact He|apply grows_locks]]] end.
  by eapply grows_task, set_status_grows.
Qed.

Lemma promotion_tx_grows id : within agent_grows (promotion_tx id).
Proof.
  intros d u d' H. unfold promotion_tx in H. tx_inv. destruct (existsb _ _); tx_inv; [reflexivity|].
  by eapply grows_event.
Qed.

Lemma prepare_grows key id kind input request : within agent_grows (prepare digest key id kind input request).
Proof.
  intros d r d' H. unfold prepare in H. tx_inv.
  match type of H with match ?x with _ => _ end _ = _ => destruct x; agent_inv end.
  split_and!; try reflexivity. simpl. destruct (effects d !! key) eqn:E; [reflexivity|]. by apply keeps_insert; [apply _|].
Qed.

Lemma complete_grows key response : within agent_grows (complete digest key response).
Proof.
  intros d r d' H. unfold complete in H. tx_inv. destruct (effects d !! key) as [x|] eqn:E; [|done].
  destruct (x_response x) eqn:Ex; agent_inv; [reflexivity|]. split_and!; try reflexivity.
  eapply keeps_put; [apply _|done|]. split_and!; try done. rewrite Ex. by intros [].
Qed.

Lemma agent_step_grows d d' : agent_ok d → agent_step fp signal digest d d' → agent_grows d d'.
Proof.
  intros Hd [].
  - by eapply accept_grows.
  - by eapply claim_grows.
  - by eapply finish_grows.
  - by eapply defer_busy_grows.
  - by eapply resolve_applied_grows.
  - by eapply ensure_grows.
  - by eapply retry_blocked_grows.
  - by eapply bind_execution_grows.
  - by eapply claim_cleanup_grows.
  - by eapply confirm_grows.
  - by eapply defer_grows.
  - by eapply cleanup_defer_busy_grows.
  - by eapply finish_cleanup_grows.
  - by eapply project_grows.
  - by eapply binding_tx_grows.
  - by eapply terminal_tx_grows.
  - by eapply promotion_tx_grows.
  - by eapply prepare_grows.
  - by eapply complete_grows.
Qed.

Lemma agent_run_grows d d' : rtc (agent_step fp signal digest) d d' → agent_ok d → agent_grows d d'.
Proof.
  induction 1 as [|d1 d2 d3 Hs _ IH]; intros Hd; [reflexivity|].
  etransitivity; [by eapply agent_step_grows|]. apply IH. by eapply agent_step_ok.
Qed.
End History.
