(* ===== verification/AgentProps.v ===== *)
(** * Properties of the agent's transactions

    Admission, failure cleanup and the journal, over every order in which their
    transactions commit. *)

From stdpp Require Import base gmap strings list sorting relations.
From Stdlib Require Import ZArith Lia.
From S2P Require Import Prelude Text Session AgentTables Admission FailureStore TaskProjections AgentWorld Effects AgentInv AgentSteps AgentAccept AgentHistory.
Local Open Scope Z_scope.
Set Default Proof Using "Type".

Section AgentProps.
Context (fp : ApiRequest → string) (signal : json → result ResumeSignal) (digest : json → string).

Abbreviation agent_ok := (agent_ok fp signal digest).
Abbreviation agent_step := (agent_step fp signal digest).
Abbreviation agent_reachable := (agent_reachable fp signal digest).
Abbreviation accept := (accept fp signal).
Abbreviation claim := (claim fp signal).
Abbreviation finish := (finish fp signal).

Lemma reachable_agent_ok d : agent_reachable d → agent_ok d.
Proof. intros Hd. eapply agent_run_ok; [exact Hd|apply agent_ok_empty]. Qed.

(** C7. Every state of the agent's tables that transactions of admission,
    failure cleanup, the task projections and the journal can reach is
    consistent: one active request and one unfinished task per session, every
    request belongs to a task with its identity, the unfinished cleanup of an
    unfinished task holds its session's lock, and a finished cleanup has
    settled its task. *)
Theorem agent_tables_consistent d : agent_reachable d → agent_ok d.
Proof. apply reachable_agent_ok. Qed.

(** Nothing the agent wrote is undone: requests keep their command and
    stay in a final state, finished tasks keep their result, messages and task
    events are only added, journaled requests and receipts stay, and bindings
    never go back. *)
Theorem agent_history_permanent d d' : agent_reachable d → rtc agent_step d d' → agent_grows d d'.
Proof. intros Hd Hr. eapply agent_run_grows; [exact Hr|by apply reachable_agent_ok]. Qed.

(** [RequestStore.accept] commits in exactly two cases: the stored request
    of that id with the same content is returned and nothing changes, or no
    request of that id exists, the session has no active request, the task may
    take it, and the task and the request are inserted together. *)
Theorem accept_commits_iff now c node base d r d' : accept now c node base d = Ok (r, d') ↔
  (requests d !! request_id c = Some r ∧ d' = d ∧ r_command r = c ∧ r_fingerprint r = fp c ∧
     validate_request signal c = Ok tt) ∨
  (requests d !! request_id c = None ∧ validate_request signal c = Ok tt ∧ has_active (t_session_id (turn c)) d = None ∧
   ∃ task message, uuid_parse (t_active_task_id (turn c)) = Some task ∧
     uuid_parse (t_current_input_message_id (turn c)) = Some message ∧ admissible c task message d ∧
     r = new_request fp now c task node base ∧
     d' = set_requests <[request_id c := r]> (admitted now c task message d)).
Proof. rewrite accept_Ok. apply accept_tx_Ok. Qed.

(** The stored row of an accepted request, at any later time. *)
Lemma accepted_row now c node base d r d1 d2 : agent_ok d → accept now c node base d = Ok (r, d1) →
  rtc agent_step d1 d2 → ∃ r2, requests d2 !! request_id c = Some r2 ∧ r_command r2 = c ∧ r_fingerprint r2 = fp c ∧
    validate_request signal c = Ok tt ∧ r_target_node r2 = r_target_node r ∧ r_base_checkpoint_id r2 = r_base_checkpoint_id r.
Proof.
  intros Hd Ha Hr. assert (Hd1 : agent_ok d1) by by eapply accept_ok.
  destruct (agent_run_grows _ _ _ _ _ Hr Hd1) as (Hk & _).
  assert (Hrow : requests d1 !! request_id c = Some r ∧ r_command r = c ∧ r_fingerprint r = fp c ∧ validate_request signal c = Ok tt).
  { apply accept_Ok, accept_tx_Ok in Ha as [(? & -> & ? & ? & ?)|(_ & ? & _ & task & m & _ & _ & _ & -> & ->)]; [done|].
    simpl. by rewrite lookup_insert_eq. }
  destruct Hrow as (Hrow & Hc & Hf & Hv). destruct (Hk _ _ Hrow) as (r2 & Hr2 & Ec & _ & _ & Ef & En & Eb & _).
  exists r2. split_and!; congruence.
Qed.

(** C30. A request is admitted exactly once: after it was accepted, the same
    request is answered from the stored row and changes nothing, whatever
    happened in between, and another request with its id is refused. *)
Theorem admitted_exactly_once now c node base d r d1 d2 now' node' base' :
  agent_reachable d → accept now c node base d = Ok (r, d1) → rtc agent_step d1 d2 →
  (∃ r2, accept now' c node' base' d2 = Ok (r2, d2) ∧ r_command r2 = c ∧ r_target_node r2 = r_target_node r) ∧
  (∀ c', request_id c' = request_id c → c' ≠ c →
     accept now' c' node' base' d2 = Err (conflict "Request ID was reused with different input")).
Proof.
  intros Hd Ha Hr. apply reachable_agent_ok in Hd.
  destruct (accepted_row _ _ _ _ _ _ _ _ Hd Ha Hr) as (r2 & Hr2 & Hc & Hf & Hv & Hn & _). split.
  - exists r2. split_and!; [|done..]. apply accept_Ok, accept_tx_Ok. left. done.
  - intros c' Hid Hne. unfold accept, Admission.accept, accept_tx. unfold mbind, tx_bind, tx_get. rewrite Hid, Hr2.
    unfold lift. rewrite (proj2 (record_of_Ok fp signal r2 r2)) by by rewrite Hc.
    unfold validate_command. rewrite bool_decide_eq_false_2 by congruence. done.
Qed.

(** ** Attempts *)

Lemma claim_Ok now id max_attempts delay d r' d' : claim now id max_attempts delay d = Ok (r', d') →
  ∃ r, requests d !! id = Some r ∧ requests d' !! id = Some r' ∧
    (r_state r' = R_RUNNING → open_state (r_state r) = true ∧ cleanups d !! r_task_id r = None ∧
       r_attempts r < max_attempts ∧ r_attempts r' = r_attempts r + 1 ∧ r_next_attempt_at r' = now + delay).
Proof.
  intros H. unfold claim, Admission.claim, put_request in H. agent_inv. apply required_Ok in Hrun as [Hr ->].
  exists a. split; [done|]. destruct (open_state (r_state a)) eqn:Ho; cbn [negb] in H.
  - agent_inv. case_bool_decide as Hcl; agent_inv;
      match goal with Hg : record_of _ _ _ = Ok _ |- _ => apply record_of_Ok in Hg as (-> & _) end;
      simpl; rewrite lookup_insert_eq; (split; [done|]); [done|].
    destruct (Z.leb_spec max_attempts (r_attempts a)); [done|]. intros _. simpl. split_and!; try done.
    by apply eq_None_not_Some.
  - agent_inv. match goal with Hg : record_of _ _ _ = Ok _ |- _ => apply record_of_Ok in Hg as (-> & _) end.
    split; [done|]. intros E. by rewrite E in Ho.
Qed.

(** The result of an attempt that was superseded is refused: once a later
    [claim] of the request handed out another attempt, [finish] with the
    earlier record raises and changes nothing, however the two interleave. *)
Theorem superseded_attempt_refused now1 max1 delay1 r1 d1 d2 now2 max2 delay2 r2 d3 d4 d5 id now state error delay :
  agent_reachable d1 → claim now1 id max1 delay1 d1 = Ok (r1, d2) → r_state r1 = R_RUNNING →
  rtc agent_step d2 d3 → claim now2 id max2 delay2 d3 = Ok (r2, d4) → r_state r2 = R_RUNNING →
  rtc agent_step d4 d5 → state ∈ [R_PENDING; R_APPLIED; R_REJECTED; R_BLOCKED] →
  finish now r1 state error delay d5 = Err (conflict "API request attempt was superseded").
Proof.
  intros Hd1 Hc1 Hs1 H23 Hc2 Hs2 H45 Hst. apply reachable_agent_ok in Hd1.
  assert (Hd2 : agent_ok d2) by by eapply claim_ok. assert (Hd3 : agent_ok d3) by by eapply agent_run_ok.
  assert (Hd4 : agent_ok d4) by by eapply claim_ok.
  destruct (claim_Ok _ _ _ _ _ _ _ Hc1) as (q1 & _ & Hr1 & _).
  destruct (claim_Ok _ _ _ _ _ _ _ Hc2) as (q2 & Hq2 & Hr2 & (_ & _ & _ & Hatt & _)); [done|].
  destruct (agent_run_grows _ _ _ _ _ H23 Hd2) as (Hk & _). destruct (Hk _ _ Hr1) as (x & Hx & _ & _ & _ & _ & _ & _ & Hle & _).
  rewrite Hq2 in Hx. injection Hx as <-.
  destruct (agent_run_grows _ _ _ _ _ H45 Hd4) as (Hk' & _). destruct (Hk' _ _ Hr2) as (y & Hy & Ey & _ & _ & _ & _ & _ & Hle' & _).
  destruct Hd2 as [Hok _ _ _ _ _ _]. destruct (Hok _ _ Hr1) as [Hid _ _ _ _ _ _].
  unfold finish, Admission.finish, mbind, tx_bind, tx_guard.
  replace (match state with R_RUNNING | R_COMPENSATED => false | _ => true end) with true by by destruct state; set_solver.
  unfold required, mbind, tx_bind, tx_get. rewrite Hid, Hy. unfold mret, tx_ret.
  rewrite (proj2 (Z.eqb_neq (r_attempts y) (r_attempts r1))) by lia. by rewrite andb_false_r.
Qed.
End AgentProps.

(** ** Failure cleanup

    A recorded cleanup owns its task until it is done, its end settles the
    task, its requests and its lock at once and for good, and an operator's
    retry is applied at most once. *)

Section CleanupProps.
Context (fp : ApiRequest → string) (signal : json → result ResumeSignal) (digest : json → string).

Abbreviation agent_ok := (agent_ok fp signal digest).
Abbreviation agent_step := (agent_step fp signal digest).
Abbreviation agent_reachable := (agent_reachable fp signal digest).

(** A recorded cleanup owns its task: no claim hands out an attempt of one
    of its requests, no new request for the task is accepted, and while neither
    the cleanup is done nor the task has ended no other task starts in its
    session. *)
Theorem cleanup_owns_task d id c : agent_reachable d → cleanups d !! id = Some c →
  (∀ now rid max_attempts delay r r' d', requests d !! rid = Some r → r_task_id r = id →
     claim fp signal now rid max_attempts delay d = Ok (r', d') → r_state r' ≠ R_RUNNING) ∧
  (∀ now cmd node base r d', uuid_parse (t_active_task_id (turn cmd)) = Some id →
     requests d !! request_id cmd = None → accept fp signal now cmd node base d ≠ Ok (r, d')) ∧
  (∀ t, f_state c ≠ F_DONE → f_preserve_terminal c = false → tasks d !! id = Some t → is_terminal (k_status t) = false →
   ∀ now cmd node base r d', kind cmd = START → t_session_id (turn cmd) = f_session_id c →
     requests d !! request_id cmd = None → accept fp signal now cmd node base d ≠ Ok (r, d')).
Proof.
  intros Hd Hc. apply reachable_agent_ok in Hd. split_and!.
  - intros now rid m delay r r' d' Hr Htask (q & Hq & _ & Hrun)%claim_Ok E. destruct (Hrun E) as (_ & Hno & _).
    rewrite Hr in Hq. injection Hq as <-. congruence.
  - intros now cmd node base r d' Hid Hn [(Hs & _)|(_ & _ & _ & task & m & Ht & _ & [Hno _] & _)]%accept_Ok%accept_tx_Ok;
      congruence.
  - intros t0 Hopen Hpre Ht0 Hrun now cmd node base r d' Hk Hs Hn [(Hst & _)|(_ & _ & _ & task & m & Ht & _ & [_ Ha] & _)]%accept_Ok%accept_tx_Ok;
      [congruence|].
    rewrite decide_True in Ha by done. destruct Ha as (_ & Hlock & _). destruct Hd as [_ _ _ _ Hcl _ _].
    destruct (Hcl _ _ Hc) as [_ _ _ _ (t & Ht' & _ & Hset)]. rewrite Ht0 in Ht'. injection Ht' as <-.
    unfold cleanup_settled in Hset. rewrite Hpre, Hrun in Hset.
    assert (∃ l, session_locks d !! f_session_id c = Some l ∧ lk_locked l = true) as (l & Hl & Hlk)
      by (destruct (f_state c); naive_solver).
    rewrite Hs, Hl in Hlock. simpl in Hlock. congruence.
Qed.

Lemma finish_cleanup_row now fresh record d d' : agent_ok d → finish_cleanup now fresh record d = Ok (tt, d') →
  ∃ c, cleanups d' !! f_task_id record = Some c ∧ f_state c = F_DONE ∧ missing (f_message record) = false.
Proof.
  intros Hd H. unfold finish_cleanup, compensate, delete_locks, put_cleanup in H. tx_inv.
  match goal with Hm : negb _ = true |- _ => apply negb_true_iff, orb_false_iff in Hm as [_ Hm] end.
  apply (fenced_Ok _ _ _ _ _ _ _ Hd) in Hrun0 as (-> & Hc & Eid & Hs & _).
  destruct (tasks d !! f_task_id a0) as [t|]; [|done]. tx_inv. simpl. rewrite Eid, lookup_insert_eq. by eexists.
Qed.

(** C17. When [FailureStore.finish] commits, the task is finished with the
    cleanup's result, none of its requests is active and no session lock is
    held for it, and all of this holds in every later state. *)
Theorem cleanup_settles_task now fresh record d d1 d2 : agent_reachable d →
  finish_cleanup now fresh record d = Ok (tt, d1) → rtc agent_step d1 d2 →
  ∃ c t, cleanups d2 !! f_task_id record = Some c ∧ f_state c = F_DONE ∧ tasks d2 !! f_task_id record = Some t ∧
    is_terminal (k_status t) = true ∧ k_status t = f_final_status c ∧ k_terminal_message t = f_message c ∧
    (∀ id r, requests d2 !! id = Some r → r_task_id r = f_task_id record → active (r_state r) = false) ∧
    (∀ s l, session_locks d2 !! s = Some l → lk_active_task_id l ≠ f_task_id record).
Proof.
  intros Hd Hf Hr. apply reachable_agent_ok in Hd. assert (Hd1 : agent_ok d1) by by eapply finish_cleanup_ok.
  destruct (finish_cleanup_row _ _ _ _ _ Hd Hf) as (c & Hc & Hs & _).
  destruct (agent_run_grows _ _ _ _ _ Hr Hd1) as (_ & _ & _ & _ & Hk & _). destruct (Hk _ _ Hc) as (c' & Hc' & Hg).
  assert (c' = c) as -> by by apply Hg. assert (Hd2 : agent_ok d2) by by eapply agent_run_ok.
  destruct Hd2 as [_ _ _ _ Hcl _ _]. destruct (Hcl _ _ Hc') as [Eid _ _ Hfin (t & Ht & _ & Hset)].
  unfold cleanup_settled in Hset. rewrite Hs in Hset. destruct Hset as (Est & Emsg & Hreq & Hlk).
  rewrite Eid in Hreq, Hlk. exists c, t. split_and!; try done. by rewrite Est.
Qed.

Lemma fenced_run d id c record : cleanups d !! id = Some c → f_task_id record = id → f_state c = F_PENDING →
  f_attempts record = f_attempts c → fenced record d = Ok (c, d).
Proof.
  intros Hc Hid Hs Ha. unfold fenced, required_cleanup, mbind, tx_bind, tx_get. rewrite Hid, Hc.
  unfold mret, tx_ret, tx_guard. by rewrite Hs, bool_decide_eq_true_2, Ha, Z.eqb_refl.
Qed.

(** A cleanup with its proof of termination can always be finished: for
    the current attempt of a pending cleanup of an unfinished task,
    [FailureStore.finish] commits (the random message id being new). *)
Theorem cleanup_can_finish now fresh d id c t : agent_reachable d → cleanups d !! id = Some c → f_state c = F_PENDING →
  tasks d !! id = Some t → is_terminal (k_status t) = false →
  f_preserve_terminal c = false → missing (f_executor_status c) = false → missing (f_message c) = false →
  messages d !! fresh = None → ∃ d', finish_cleanup now fresh c d = Ok (tt, d').
Proof.
  intros Hd Hc Hs Ht Hopen Hp He Hm Hfresh. apply reachable_agent_ok in Hd. destruct Hd as [_ _ _ _ Hcl _ _].
  destruct (Hcl _ _ Hc) as [Eid _ _ _ _].
  assert (∃ m, f_message c = Some m) as [m Em].
  { destruct (f_message c) as [m|]; [by exists m|done]. }
  assert (Hft : ∃ d1, finish_task now fresh c t d = Ok (tt, d1)).
  { unfold finish_task, insert_message, put_task, add_task_event, lift, from_option_err, mbind, tx_bind, tx_modify, tx_get, tx_guard.
    rewrite Hopen, Em. simpl. rewrite (bool_decide_eq_true_2 (messages d !! fresh = None)) by done. simpl.
    rewrite bool_decide_eq_true_2; [by eexists|]. rewrite lookup_insert_eq. by eexists. }
  destruct Hft as [d1 Hft]. eexists. unfold finish_cleanup, mbind, tx_bind, tx_guard, tx_get. rewrite He, Hm. simpl.
  rewrite (fenced_run d id c c) by done. rewrite Eid, Ht, Hft. reflexivity.
Qed.

(** ** Operator retries *)

Lemma retry_blocked_Ok now id op hash action actor reason version d r d' : agent_ok d →
  retry_blocked now id op hash action actor reason version d = Ok ((r, false), d') →
  ∃ c, cleanups d !! id = Some c ∧ f_state c = F_BLOCKED ∧ f_version c = version ∧
       cleanups d' !! id = Some r ∧ f_version r = version + 1 ∧ f_state r = F_PENDING ∧ f_attempts r = 0.
Proof.
  intros Hd H. unfold retry_blocked, put_cleanup, add_task_event in H. agent_inv.
  apply required_cleanup_Ok in Hrun0 as [Hc ->]. destruct a1; agent_inv.
  repeat match goal with Hg : bool_decide (f_state _ = _) = true |- _ => apply bool_decide_eq_true in Hg
    | Hg : (_ =? _) = true |- _ => apply Z.eqb_eq in Hg end.
  exists a0. simpl. rewrite lookup_insert_eq. split_and!; congruence.
Qed.

(** An operator's retry is applied at most once: repeated at any later
    time with the same expected version it either reports a replay and changes
    nothing, or is refused. *)
Theorem operator_retry_once now id op hash action actor reason version d r d1 d2 now' r' replay d3 :
  agent_reachable d → retry_blocked now id op hash action actor reason version d = Ok ((r, false), d1) →
  rtc agent_step d1 d2 → retry_blocked now' id op hash action actor reason version d2 = Ok ((r', replay), d3) →
  replay = true ∧ d3 = d2.
Proof.
  intros Hd H1 Hr H2. apply reachable_agent_ok in Hd.
  destruct (retry_blocked_Ok _ _ _ _ _ _ _ _ _ _ _ Hd H1) as (c & _ & _ & _ & Hc1 & Ev & _).
  assert (Hd1 : agent_ok d1) by by eapply retry_blocked_ok.
  destruct (agent_run_grows _ _ _ _ _ Hr Hd1) as (_ & _ & _ & _ & Hk & _).
  destruct (Hk _ _ Hc1) as (c2 & Hc2 & _ & _ & _ & _ & _ & _ & _ & Hle & _).
  destruct replay.
  - split; [done|]. unfold retry_blocked in H2. agent_inv. apply required_cleanup_Ok in Hrun0 as [_ ->].
    destruct a1; agent_inv. done.
  - exfalso. assert (Hd2 : agent_ok d2) by by eapply agent_run_ok.
    destruct (retry_blocked_Ok _ _ _ _ _ _ _ _ _ _ _ Hd2 H2) as (c3 & Hc3 & _ & Ev3 & _).
    rewrite Hc2 in Hc3. injection Hc3 as <-. lia.
Qed.
End CleanupProps.
