(* ===== verification/AgentDemo.v ===== *)
(** * A run of admission and failure cleanup

    One request that is admitted, attempted twice, blocked, compensated and
    settled, on which the theorems about the agent's tables are applied. *)

From stdpp Require Import base gmap strings list sorting relations.
From Stdlib Require Import ZArith Lia.
From S2P Require Import Prelude Text Session AgentTables Admission FailureStore TaskProjections AgentWorld Effects AgentInv AgentSteps AgentAccept AgentHistory AgentProps.
Local Open Scope Z_scope.
Set Default Proof Using "Type".

Module AgentDemo.
Definition fp (c : ApiRequest) : string := t_user_message (turn c).
Definition no_signal (j : json) : result ResumeSignal := Err (ValueError "invalid signal").
Definition digest (j : json) : string := "d".

Definition demo_turn : TaskTurn := mk_turn "u" "p" "s" (uuid_str 7) (uuid_str 8) "plot it" "basic".
Definition demo_command : ApiRequest := mk_request 1 demo_turn START None None.
Definition other_command : ApiRequest := mk_request 1 demo_turn CANCEL None None.

Definition state_of {A} (r : result (A * adb)) : adb := match r with Ok (_, d) => d | Err _ => empty_adb end.
Definition value_of {A} (a : A) (r : result (A * adb)) : A := match r with Ok (x, _) => x | Err _ => a end.

Definition no_request : request_row :=
  mk_request_row demo_command 0 "" "" "" None R_REJECTED 0 0 None "" "".
Definition no_cleanup : cleanup_row :=
  mk_cleanup 0 "" demo_turn JNull "" F_DONE 0 0 0 None None None true SUCCEEDED None None 0 "".

Definition accept1 := accept fp no_signal 10 demo_command "begin_task" None empty_adb.
Definition d1 := state_of accept1.
Definition claim1 := claim fp no_signal 20 1 2 5 d1.
Definition d2 := state_of claim1.
Definition claim2 := claim fp no_signal 30 1 2 5 d2.
Definition d3 := state_of claim2.
Definition blocked := finish fp no_signal 40 (value_of no_request claim2) R_BLOCKED (Some "error") 0 d3.
Definition d4 := state_of blocked.
Definition ensured := ensure 50 7 "s" (JObj []) "error" None d4.
Definition d5 := state_of ensured.
Definition claimed := claim_cleanup 60 7 20 5 d5.
Definition d6 := state_of claimed.
Definition confirmed := confirm 70 (value_of no_cleanup claimed) None "NOT_REQUIRED" "failed" d6.
Definition d7 := state_of confirmed.
Definition demo_settled := finish_cleanup 80 99 (value_of no_cleanup confirmed) d7.
Definition d8 := state_of demo_settled.
Definition deferred := defer 70 (value_of no_cleanup claimed) "no answer" 0 true d6.
Definition b7 := state_of deferred.
Definition retried := retry_blocked 80 7 5 "h" "RETRY" "operator" "again" 3 b7.
Definition b8 := state_of retried.
Definition retried_again := retry_blocked 81 7 5 "h" "RETRY" "operator" "again" 3 b8.

(** Each run commits. *)
Lemma commits_intro {A} (a : A) r : match r with Ok _ => true | Err _ => false end = true → r = Ok (value_of a r, state_of r).
Proof. by destruct r as [[]|]. Qed.
Lemma commits_unit r : match r with Ok _ => true | Err _ => false end = true → r = Ok (tt, state_of r).
Proof. by destruct r as [[[] d]|]. Qed.

Lemma accept1_run : accept fp no_signal 10 demo_command "begin_task" None empty_adb = Ok (value_of no_request accept1, d1).
Proof. refine (commits_intro no_request accept1 _). vm_compute. reflexivity. Qed.
Lemma claim1_run : claim fp no_signal 20 1 2 5 d1 = Ok (value_of no_request claim1, d2).
Proof. refine (commits_intro no_request claim1 _). vm_compute. reflexivity. Qed.
Lemma claim2_run : claim fp no_signal 30 1 2 5 d2 = Ok (value_of no_request claim2, d3).
Proof. refine (commits_intro no_request claim2 _). vm_compute. reflexivity. Qed.
Lemma blocked_run : finish fp no_signal 40 (value_of no_request claim2) R_BLOCKED (Some "error") 0 d3 = Ok (value_of no_request blocked, d4).
Proof. refine (commits_intro no_request blocked _). vm_compute. reflexivity. Qed.
Lemma ensured_run : ensure 50 7 "s" (JObj []) "error" None d4 = Ok (value_of no_cleanup ensured, d5).
Proof. refine (commits_intro no_cleanup ensured _). vm_compute. reflexivity. Qed.
Lemma claimed_run : claim_cleanup 60 7 20 5 d5 = Ok (value_of no_cleanup claimed, d6).
Proof. refine (commits_intro no_cleanup claimed _). vm_compute. reflexivity. Qed.
Lemma confirmed_run : confirm 70 (value_of no_cleanup claimed) None "NOT_REQUIRED" "failed" d6 = Ok (value_of no_cleanup confirmed, d7).
Proof. refine (commits_intro no_cleanup confirmed _). vm_compute. reflexivity. Qed.
Lemma settled_run : finish_cleanup 80 99 (value_of no_cleanup confirmed) d7 = Ok (tt, d8).
Proof. refine (commits_unit demo_settled _). vm_compute. reflexivity. Qed.
Lemma deferred_run : defer 70 (value_of no_cleanup claimed) "no answer" 0 true d6 = Ok (tt, b7).
Proof. refine (commits_unit deferred _). vm_compute. reflexivity. Qed.
Lemma retried_run : retry_blocked 80 7 5 "h" "RETRY" "operator" "again" 3 b7 = Ok (value_of (no_cleanup, true) retried, b8).
Proof. refine (commits_intro (no_cleanup, true) retried _). vm_compute. reflexivity. Qed.

Lemma retried_again_run : retry_blocked 81 7 5 "h" "RETRY" "operator" "again" 3 b8 =
  Ok (((value_of (no_cleanup, false) retried_again).1, (value_of (no_cleanup, false) retried_again).2), state_of retried_again).
Proof. rewrite <- surjective_pairing. refine (commits_intro (no_cleanup, false) retried_again _). vm_compute. reflexivity. Qed.
Lemma retried_first : retry_blocked 80 7 5 "h" "RETRY" "operator" "again" 3 b7 =
  Ok ((value_of (no_cleanup, true) retried).1, false, b8).
Proof.
  assert (E : (value_of (no_cleanup, true) retried).2 = false) by (vm_compute; reflexivity).
  rewrite <- E, <- surjective_pairing. exact retried_run.
Qed.

Abbreviation step := (agent_step fp no_signal digest).
Abbreviation reachable := (agent_reachable fp no_signal digest).

Lemma step1 : step empty_adb d1. Proof. eapply step_accept. exact accept1_run. Qed.
Lemma step2 : step d1 d2. Proof. eapply step_claim_request. exact claim1_run. Qed.
Lemma step3 : step d2 d3. Proof. eapply step_claim_request. exact claim2_run. Qed.
Lemma step4 : step d3 d4. Proof. eapply step_finish_request. exact blocked_run. Qed.
Lemma step5 : step d4 d5. Proof. eapply step_ensure. exact ensured_run. Qed.
Lemma step6 : step d5 d6. Proof. eapply step_claim_cleanup. exact claimed_run. Qed.
Lemma step7 : step d6 d7. Proof. eapply step_confirm. exact confirmed_run. Qed.
Lemma step8 : step d7 d8. Proof. eapply step_finish_cleanup. exact settled_run. Qed.
Lemma step7' : step d6 b7. Proof. eapply step_defer_cleanup. exact deferred_run. Qed.

Lemma reach1 : reachable d1. Proof. apply rtc_once, step1. Qed.
Lemma reach6 : reachable d6.
Proof.
  eapply rtc_r; [|exact step6]. eapply rtc_r; [|exact step5]. eapply rtc_r; [|exact step4].
  eapply rtc_r; [|exact step3]. eapply rtc_r; [exact reach1|exact step2].
Qed.
Lemma reach7 : reachable d7. Proof. eapply rtc_r; [exact reach6|exact step7]. Qed.
Lemma reach_b7 : reachable b7. Proof. eapply rtc_r; [exact reach6|exact step7']. Qed.
End AgentDemo.

Import AgentDemo.

Lemma agent_tables_consistent_witness : agent_ok fp no_signal digest d7.
Proof. exact (agent_tables_consistent fp no_signal digest d7 reach7). Defined.

Lemma agent_history_permanent_witness : agent_grows d6 d7.
Proof. exact (agent_history_permanent fp no_signal digest d6 d7 reach6 (rtc_once _ _ step7)). Defined.

Lemma admitted_exactly_once_witness :
  (∃ r2, accept fp no_signal 90 demo_command "x" None d2 = Ok (r2, d2) ∧ r_command r2 = demo_command ∧ r_target_node r2 = "begin_task") ∧
  accept fp no_signal 90 other_command "x" None d2 = Err (conflict "Request ID was reused with different input").
Proof.
  destruct (admitted_exactly_once fp no_signal digest 10 demo_command "begin_task" None empty_adb
    (value_of no_request accept1) d1 d2 90 "x" None (rtc_refl _ _) accept1_run (rtc_once _ _ step2)) as [H1 H2].
  split; [exact H1|]. apply (H2 other_command); [reflexivity|discriminate].
Defined.

Lemma superseded_attempt_refused_witness :
  finish fp no_signal 45 (value_of no_request claim1) R_APPLIED None 0 d3 = Err (conflict "API request attempt was superseded").
Proof.
  refine (superseded_attempt_refused fp no_signal digest 20 2 5 (value_of no_request claim1) d1 d2 30 2 5
    (value_of no_request claim2) d2 d3 d3 1 45 R_APPLIED None 0 reach1 claim1_run _ (rtc_refl _ _) claim2_run _ (rtc_refl _ _) _).
  - vm_compute. reflexivity.
  - vm_compute. reflexivity.
  - right. left.
Defined.

Lemma cleanup_owns_task_witness : ∃ c, cleanups d6 !! 7%N = Some c ∧ ∀ r r' d',
  requests d6 !! 1%N = Some r → r_task_id r = 7%N → claim fp no_signal 65 1 5 5 d6 = Ok (r', d') → r_state r' ≠ R_RUNNING.
Proof.
  exists (value_of no_cleanup claimed). split; [vm_compute; reflexivity|]. intros r r' d'.
  refine (proj1 (cleanup_owns_task fp no_signal digest d6 7 (value_of no_cleanup claimed) reach6 _) 65 1%N 5 5 r r' d').
  vm_compute. reflexivity.
Defined.

Lemma cleanup_settles_task_witness : ∃ c t, cleanups d8 !! 7%N = Some c ∧ f_state c = F_DONE ∧
  tasks d8 !! 7%N = Some t ∧ k_status t = f_final_status c.
Proof.
  destruct (cleanup_settles_task fp no_signal digest 80 99 (value_of no_cleanup confirmed) d7 d8 d8 reach7 settled_run
    (rtc_refl _ _)) as (c & t & Hc & Hs & Ht & _ & E & _).
  exists c, t. exact (conj Hc (conj Hs (conj Ht E))).
Defined.

Lemma cleanup_can_finish_witness : ∃ d', finish_cleanup 80 99 (value_of no_cleanup confirmed) d7 = Ok (tt, d').
Proof.
  eapply (cleanup_can_finish fp no_signal digest 80 99 d7 7 (value_of no_cleanup confirmed) _ reach7); vm_compute; reflexivity.
Defined.

Lemma operator_retry_once_witness :
  (value_of (no_cleanup, false) retried_again).2 = true ∧ state_of retried_again = b8.
Proof.
  exact (operator_retry_once fp no_signal digest 80 7 5 "h" "RETRY" "operator" "again" 3 b7 _ b8 b8 81
    (value_of (no_cleanup, false) retried_again).1 (value_of (no_cleanup, false) retried_again).2
    (state_of retried_again) reach_b7 retried_first (rtc_refl _ _) retried_again_run).
Defined.
