(* ===== verification/AdmissionService.v ===== *)
(** * Running admitted requests
    ([agent/admission/service.py], [agent/admission/graph.py],
    [agent/admission/recovery.py])

    A claimed request reads a snapshot of its session graph, decides whether
    and with which input the graph has to be invoked, and becomes APPLIED only
    on a snapshot that proves its acceptance. *)

From stdpp Require Import base gmap strings list relations.
From Stdlib Require Import ZArith Lia.
From S2P Require Import Prelude Text Session AgentTables Admission TaskProjections AgentWorld.
Local Open Scope Z_scope.
Set Default Proof Using "Type".

Definition INPUT_NODES : list string :=
  ["begin_task"; "clarify_request"; "choose_execution_mode"; "confirm_request_risk"; "choose_workflow";
   "review_plan"; "wait_external_signal"].

Definition unsafe (m : string) : exn := UnsafeRecoveryError m.
Definition is_unsafe_recovery (e : exn) : bool := match e with UnsafeRecoveryError _ => true | _ => false end.
Definition is_defer (e : exn) : bool := match e with DeferEvent _ => true | _ => false end.

(** The receipt of a request, as stored in the graph's state. *)
Definition receipt_of (r : request_row) : gmap string string :=
  {["task_id" := t_active_task_id (turn (r_command r)); "fingerprint" := r_fingerprint r]}.
Definition request_key (r : request_row) : string := uuid_str (request_id (r_command r)).

(** [accepted] *)
Definition accepted (s : Snapshot) (r : request_row) : result bool :=
  match st_api_receipts (values s) !! request_key r with
  | None => Ok false
  | Some receipt =>
      raise_if (negb (bool_decide (receipt = receipt_of r))) (unsafe "API acceptance receipt identity mismatch");;
      Ok true
  end.

(** [any(t.interrupts for t in snapshot.tasks)] *)
Definition interrupted (s : Snapshot) : bool :=
  existsb (λ t : string * list Interrupt, match t.2 with [] => false | _ => true end) (sn_tasks s).

(** [owns_pending] *)
Definition owns_pending (s : Snapshot) (r : request_row) : bool :=
  negb (bool_decide (sn_next s = [])) && negb (interrupted s) &&
  bool_decide (st_invocation_owner (values s) = {["source" := "API"; "id" := request_key r]}).

Section AdmissionService.
(** The hash of a request and of a turn, the resume signal adapter and the
    budgets; times are in microseconds. *)
Context (fp : ApiRequest → string) (turn_fp : TaskTurn → string) (signal : json → result ResumeSignal)
  (max_attempts retry : Z) (has_projector : bool).

(** A pending invocation of somebody else must at least be known. *)
Definition foreign_owner (s : Snapshot) : bool :=
  let owner := st_invocation_owner (values s) in
  bool_decide (owner !! "source" = Some "EXECUTOR") &&
  negb (String.eqb (default "" (owner !! "id")) "").

(** The first invocation of a START request. *)
Definition start_invocation (s : Snapshot) (r : request_row) : result (option graph_input) :=
  let u := turn (r_command r) in
  if bool_decide (sn_next s = ["begin_task"]) && bool_decide (st_turn (values s) = Some u) then Ok (Some Continue) else
  raise_if (bool_decide (is_Some (st_task_requests (values s) !! t_active_task_id u)))
    (unsafe "Task started without this API receipt");;
  validate_start_snapshot turn_fp s u;;
  raise_if (negb (bool_decide (sn_checkpoint_id s = r_base_checkpoint_id r)))
    (conflict "Session changed after API admission");;
  Ok (Some (StartTurn u)).

(** The first invocation of a RESUME or CANCEL request. *)
Definition resume_invocation (s : Snapshot) (r : request_row) : result (option graph_input) :=
  let u := turn (r_command r) in
  match interrupt_id (r_command r), req_payload (r_command r) with
  | Some i, Some payload =>
      if interrupted s then
        sn ← validate_resume_snapshot turn_fp signal s u i payload;
        raise_if (negb (String.eqb sn.2 (r_target_node r))) (conflict "Input node changed after admission");;
        Ok (Some (ResumeWith i sn.1))
      else if bool_decide (sn_next s = [r_target_node r]) &&
              bool_decide (sn_checkpoint_id s = r_base_checkpoint_id r) &&
              bool_decide (st_task_requests (values s) !! t_active_task_id u = Some (turn_fp u))
      then Ok (Some Continue)
      else Err (conflict "Original interrupt is no longer available")
  | _, _ => Err AssertionError
  end.

(** [next_invocation]: [None] is [(False, None)]. *)
Definition next_invocation (s : Snapshot) (r : request_row) : result (option graph_input) :=
  done ← accepted s r;
  if done : bool then
    if owns_pending s r then Ok (Some Continue)
    else raise_if (negb (bool_decide (sn_next s = [])) && negb (interrupted s) && negb (foreign_owner s))
           (unsafe "Pending invocation owner is unknown");;
         Ok None
  else if bool_decide (kind (r_command r) = START) then start_invocation s r else resume_invocation s r.

Definition thread_of (r : request_row) : string := t_session_id (turn (r_command r)).

Definition finish_now (r : request_row) (state : request_state) (error : option string) (delay : Z)
    : proc aworld request_row :=
  adb_call (λ now _, finish fp signal now r state error delay).

(** [_project] *)
Definition project_snapshot (s : Snapshot) : proc aworld unit :=
  if has_projector then adb_call (λ _ _, project s) else mret tt.

(** The delay before attempt [n + 1]: doubled up to six times, 300 s at most. *)
Definition backoff (n : Z) : Z := Z.min (microseconds 300) (retry * 2 ^ Z.min (n - 1) 6).

(** The work of a claimed attempt, without its error handling. *)
Definition attempt (r : request_row) : proc aworld request_row :=
  before ← aget_state (thread_of r);
  match next_invocation before r with
  | Err e => if is_SessionConflictError e then finish_now r R_REJECTED (Some (exn_str e)) 0 else throw e
  | Ok input =>
      (match input with Some i => ainvoke (thread_of r) i | None => mret tt end);;
      after ← aget_state (thread_of r);
      done ← lift_result (accepted after r);
      guard_or done (unsafe "Graph did not checkpoint API acceptance");;
      rest ← lift_result (next_invocation after r);
      guard_or (bool_decide (rest = None)) (unsafe "Graph returned with unfinished API work");;
      project_snapshot after;;
      finish_now r R_APPLIED None 0
  end.

(** [_execute] *)
Definition execute_attempt (r : request_row) : proc aworld request_row :=
  try_except (attempt r) (λ e,
    if is_unsafe_recovery e then finish_now r R_BLOCKED (Some (exn_str e)) 0
    else if is_Exception e then
      finish_now r (if max_attempts <=? r_attempts r then R_BLOCKED else R_PENDING)
        (Some (slice_to 2000 (exn_name e +:+ ": " +:+ exn_str e))) (backoff (r_attempts r))
    else throw e).

(** The read-only proof that the last allowed attempt had finished. *)
Definition completed (s : Snapshot) (r : request_row) : result bool :=
  match (done ← accepted s r;
         if done : bool then rest ← next_invocation s r; Ok (bool_decide (rest = None)) else Ok false) with
  | Err e => if is_unsafe_recovery e then Ok false else Err e
  | x => x
  end.

(** The body of [execute] under the session guard. *)
Definition execute_held (id : uuid) : proc aworld request_row :=
  stored ← adb_read (λ _, get fp signal id);
  match stored with
  | None => throw AssertionError
  | Some existing =>
      if negb (open_state (r_state existing)) then mret existing else
      early ← (if max_attempts <=? r_attempts existing then
                 before ← aget_state (thread_of existing);
                 complete ← lift_result (completed before existing);
                 mret (if complete : bool then Some before else None)
               else mret None);
      match early with
      | Some before => project_snapshot before;; finish_now existing R_APPLIED None 0
      | None =>
          r ← adb_call (λ now _, claim fp signal now id max_attempts retry);
          if bool_decide (r_state r = R_RUNNING) then execute_attempt r else mret r
      end
  end.

(** [AdmissionService.execute] *)
Definition execute (id : uuid) : proc aworld request_row :=
  stored ← adb_read (λ _, get fp signal id);
  match stored with
  | None => throw (LookupError "Unknown API request")
  | Some existing =>
      try_except (ahold (execute_held id)) (λ e,
        if is_defer e then
          adb_call (λ now _, defer_busy now id retry);;
          result ← adb_read (λ _, get fp signal id);
          match result with Some r => mret r | None => throw AssertionError end
        else throw e)
  end.

(** The node a new request is aimed at. *)
Definition target_node (before : Snapshot) (c : ApiRequest) : result string :=
  match kind c with
  | START =>
      started ← validate_start_snapshot turn_fp before (turn c);
      raise_if started (conflict "Task already started; reuse its request ID");;
      Ok "begin_task"
  | _ =>
      match interrupt_id c, req_payload c with
      | Some i, Some payload =>
          sn ← validate_resume_snapshot turn_fp signal before (turn c) i payload;
          raise_if (negb (existsb (String.eqb sn.2) INPUT_NODES)) (conflict "Unsupported input node");;
          Ok sn.2
      | _, _ => Err AssertionError
      end
  end.

(** [AdmissionService.accept] *)
Definition accept_request (c : ApiRequest) : proc aworld request_row :=
  ahold (
    stored ← adb_read (λ _, get fp signal (request_id c));
    match stored with
    | Some existing => lift_result (validate_command fp existing c);; mret existing
    | None =>
        before ← aget_state (t_session_id (turn c));
        target ← lift_result (target_node before c);
        adb_call (λ now _, accept fp signal now c target (sn_checkpoint_id before))
    end).

(** [AdmissionService.handle] *)
Definition handle (c : ApiRequest) : proc aworld request_row :=
  r ← accept_request c;
  if open_state (r_state r) then execute (request_id c) else mret r.

(** [RequestRecovery.once]; the requests of a batch run one after the other,
    each seeing the others as other processes. *)
Definition recover_all (ids : list uuid) : proc aworld unit :=
  foldr (λ id (m : proc aworld unit), try_except (execute id;; mret tt) (λ e, if is_Exception e then mret tt else throw e);; m)
    (mret tt) ids.
Definition recovery_once (batch_size : Z) : proc aworld nat :=
  ids ← adb_read (λ now, due_requests now batch_size);
  recover_all ids;;
  mret (length ids).
End AdmissionService.

(** ** The graph's side: [with_api_receipt]

    What a node returns, as far as receipts are concerned. *)
Record node_update := mk_update {
  nu_active_task_id : option string;
  nu_api_receipts : option (gmap string (gmap string string));
  nu_invocation_owner : option (gmap string string)
}.

(** [RequestRecord.action] *)
Record api_action := mk_action {
  ac_request_id : string;
  ac_task_id : string;
  ac_fingerprint : string;
  ac_target_node : string
}.
Definition action_of (r : request_row) : api_action :=
  mk_action (request_key r) (t_active_task_id (turn (r_command r))) (r_fingerprint r) (r_target_node r).

(** [with_api_receipt]; [updates] is what the wrapped node returned. *)
Definition with_api_receipt (name : string) (action : option api_action) (st : SessionState) (updates : node_update)
    : result node_update :=
  if negb (existsb (String.eqb name) INPUT_NODES) then Ok updates else
  match action with
  | None => Ok updates
  | Some a =>
      if negb (String.eqb (ac_target_node a) name) then Ok updates else
      let expected := match nu_active_task_id updates with Some t => Some t | None => st_active_task_id st end in
      raise_if (negb (bool_decide (Some (ac_task_id a) = expected))) (ValueError "API receipt Task mismatch");;
      let receipts := st_api_receipts st in
      let receipt : gmap string string := {["task_id" := ac_task_id a; "fingerprint" := ac_fingerprint a]} in
      match receipts !! ac_request_id a with
      | Some old =>
          raise_if (negb (bool_decide (old = receipt))) (ValueError "API receipt identity mismatch");; Ok updates
      | None =>
          Ok (mk_update (nu_active_task_id updates) (Some (<[ac_request_id a := receipt]> receipts))
                (Some {["source" := "API"; "id" := ac_request_id a]}))
      end
  end.

(** LangGraph writes the returned keys over the state. *)
Definition apply_update (u : node_update) (st : SessionState) : SessionState :=
  mk_state (st_turn st) (st_user_id st) (st_project_id st) (st_session_id st)
    (match nu_active_task_id u with Some t => Some t | None => st_active_task_id st end)
    (st_task_requests st) (default (st_api_receipts st) (nu_api_receipts u))
    (default (st_invocation_owner st) (nu_invocation_owner u))
    (st_execution_id st) (st_workflow st) (st_ew_receipts st) (st_failure_receipts st) (st_ew_sequences st).
