(* ===== verification/AdmissionServiceProps.v ===== *)
(** * Properties of running admitted requests

    For every schedule of faults, crash points and other processes: a request
    becomes APPLIED only on a snapshot that proves its acceptance, and the
    graph is invoked at most once per attempt, only for a claimed attempt and
    only with the input the last snapshot asks for. *)

From stdpp Require Import base gmap strings list relations.
From Stdlib Require Import ZArith Lia.
From S2P Require Import Prelude Text Session AgentTables Admission FailureStore TaskProjections AgentWorld Effects AgentInv AgentSteps AgentAccept AgentHistory AgentProps AdmissionService.
Local Open Scope Z_scope.
Set Default Proof Using "Type".

(** Every entry of a log is justified by the entries before it. *)
Definition justified (J : list action → action → Prop) (l : list action) : Prop :=
  ∀ l1 x l2, l = l1 ++ x :: l2 → J l1 x.

Lemma justified_nil J : justified J [].
Proof. intros [] ? ? [=]. Qed.

Lemma justified_snoc J l x : justified J l → J l x → justified J (l ++ [x]).
Proof.
  intros Hl Hx l1 y l2 E. destruct l2 as [|z l2 _] using rev_ind.
  - apply app_inj_tail in E as [-> ->]. done.
  - rewrite app_comm_cons, app_assoc in E. apply app_inj_tail in E as [-> _]. by eapply Hl.
Qed.

Section Service.
Context (fp : ApiRequest → string) (turn_fp : TaskTurn → string) (signal : json → result ResumeSignal)
  (digest : json → string) (max_attempts retry : Z) (has_projector : bool).

Abbreviation agent_ok := (agent_ok fp signal digest).
Abbreviation runs := (rtc (agent_step fp signal digest)).
Abbreviation next := (next_invocation turn_fp signal).
Abbreviation finish_now := (finish_now fp signal).

(** The proof that a request was applied. *)
Definition proved (l : list action) (r : request_row) : Prop :=
  ∃ s, ReadState (thread_of r) s ∈ l ∧ accepted s r = Ok true ∧ next s r = Ok None.

(** What justifies an entry of the log of the execution of request [id]. *)
Definition due (id : uuid) (l : list action) (x : action) : Prop :=
  match x with
  | Committed d d' =>
      ∀ r', requests d' !! id = Some r' → r_state r' = R_APPLIED →
        ∃ r, requests d !! id = Some r ∧ (r_state r = R_APPLIED ∨ proved l r)
  | Invoked thread input =>
      (∀ t i, Invoked t i ∉ l) ∧
      ∃ r s d d', Committed d d' ∈ l ∧ requests d' !! id = Some r ∧ r_state r = R_RUNNING ∧
        r_attempts r ≤ max_attempts ∧ thread = thread_of r ∧ ReadState thread s ∈ l ∧ next s r = Ok (Some input)
  | _ => True
  end.

(** A request row carries everything an invocation depends on. *)
Lemma accepted_grows s r r' : request_grows r r' → accepted s r' = accepted s r.
Proof. intros (Ec & _ & _ & Ef & _). unfold accepted, request_key, receipt_of. by rewrite Ec, Ef. Qed.

Lemma next_grows s r r' : request_grows r r' → next s r' = next s r.
Proof.
  intros Hg. pose proof Hg as (Ec & _ & _ & _ & En & Eb & _).
  unfold next_invocation, owns_pending, start_invocation, resume_invocation, request_key.
  by rewrite (accepted_grows s r r' Hg), Ec, En, Eb.
Qed.

Lemma proved_grows l r r' : request_grows r r' → proved l r → proved l r'.
Proof.
  intros Hg (s & Hs & Ha & Hn). exists s. unfold thread_of in *. pose proof Hg as (Ec & _).
  by rewrite Ec, (accepted_grows _ _ _ Hg), (next_grows _ _ _ Hg).
Qed.

Section Runs.
Context (id : uuid).

Definition good (w : aworld) : Prop := afair runs w ∧ agent_ok (a_db w) ∧ justified (due id) (a_log w).

(** [r] is a version of the stored row of the request. *)
Definition knows (r : request_row) (d : adb) : Prop :=
  request_id (r_command r) = id ∧ ∃ row, requests d !! id = Some row ∧ request_grows r row.

Lemma knows_runs r d d' : agent_ok d → runs d d' → knows r d → knows r d'.
Proof.
  intros Hd Hr [Hid (row & Hrow & Hg)]. split; [done|]. destruct (agent_run_grows _ _ _ _ _ Hr Hd) as (Hk & _).
  destruct (Hk _ _ Hrow) as (row' & ? & ?). exists row'. split; [done|]. by etransitivity.
Qed.

Lemma good_after w w' : good w → after runs w w' [] → good w'.
Proof.
  intros (_ & Hd & Hl) (F & Hr & L). split_and!; [done|by eapply agent_run_ok|]. by rewrite L, app_nil_r.
Qed.

Lemma good_snoc x w w' : good w → after runs w w' [x] → due id (a_log w) x → good w'.
Proof.
  intros (_ & Hd & Hl) (F & Hr & L) Hx. split_and!; [done|by eapply agent_run_ok|].
  rewrite L. by apply justified_snoc.
Qed.

(** A transaction that never makes the request APPLIED. *)
Lemma wp_quiet_call {A} (m : timestamp → uuid → tx adb A) Q w : good w →
  (∀ now u d a d', m now u d = Ok (a, d') → agent_step fp signal digest d d' ∧
     ∀ r', requests d' !! id = Some r' → r_state r' = R_APPLIED →
       ∃ r, requests d !! id = Some r ∧ (r_state r = R_APPLIED ∨ proved (a_log w) r)) →
  (∀ now u d a w', m now u d = Ok (a, a_db w') → runs (a_db w) d → good w' →
     after runs w w' [Committed d (a_db w')] → Q (Ok a) w' ∧ ∀ e, Q (Err (driver_fault e)) w') →
  (∀ w' e, good w' → after runs w w' [] → Q (Err e) w') →
  wp (adb_call m) Q w.
Proof.
  intros Hw Hm Hok Herr. apply (wp_adb_call runs).
  - apply Hw.
  - intros now u d a d' H. apply rtc_once. by eapply Hm.
  - intros now u d a w' H Hr Hafter. apply (Hok now u d a w'); [done..| |done].
    eapply good_snoc; [exact Hw|exact Hafter|]. simpl. by eapply Hm.
  - intros now u w' e Hafter _. apply Herr; [by eapply good_after|done].
  - intros w' e Hafter. apply Herr; [by eapply good_after|done].
Qed.

Lemma proved_after r w w' l : after runs w w' l → proved (a_log w) r → proved (a_log w') r.
Proof. intros H (s & Hs & ?). exists s. split; [by eapply after_kept|done]. Qed.

(** ** The transactions of an execution *)

Lemma finish_commit now r state error delay d x d' : finish fp signal now r state error delay d = Ok (x, d') →
  ∃ row, requests d !! request_id (r_command r) = Some row ∧
    requests d' = <[request_id (r_command r) := with_request_state state (r_attempts row) (now + delay) error "AGENT" row]> (requests d).
Proof.
  intros H. unfold finish, put_request in H. agent_inv. apply required_Ok in Hrun0 as [Hr ->]. agent_inv. by exists a0.
Qed.

(** [finish] may only make a request APPLIED that is proved to be. *)
Lemma finish_now_good r state error delay w : good w → knows r (a_db w) →
  (state = R_APPLIED → proved (a_log w) r) →
  wp (finish_now r state error delay) (λ _ w', good w' ∧ knows r (a_db w')) w.
Proof.
  intros Hw Hk Hp.
  assert (Hkeep : ∀ w' l, good w' → after runs w w' l → good w' ∧ knows r (a_db w')).
  { intros w' l Hg (_ & Hr & _). split; [done|]. eapply knows_runs; [apply Hw|done|done]. }
  apply (wp_adb_call runs); [apply Hw|..].
  - intros now u d a d' H. by eapply rtc_once, step_finish_request.
  - intros now u d a w' H Hr Hafter.
    enough (good w') by (split; [|intros _]; by eapply Hkeep). eapply good_snoc; [exact Hw|exact Hafter|]. simpl. intros r' Hr' Happ.
    apply finish_commit in H as (row & Hrow & E). destruct Hk as [Hid Hk].
    rewrite Hid in Hrow, E. rewrite E, lookup_insert_eq in Hr'. injection Hr' as <-. simpl in Happ.
    destruct (knows_runs r (a_db w) d) as (_ & row' & Hrow' & Hg); [apply Hw|done|by split|].
    exists row. split; [done|]. right. rewrite Hrow in Hrow'. injection Hrow' as <-.
    eapply proved_grows; [exact Hg|]. auto.
  - intros now u w' e Hafter _. eapply Hkeep; [by eapply good_after|done].
  - intros w' e Hafter. eapply Hkeep; [by eapply good_after|done].
Qed.

Lemma project_requests s d u d' : project s d = Ok (u, d') → requests d' = requests d.
Proof.
  intros H. unfold project in H. agent_inv. destruct a as [[[k st] i]|]; tx_inv; [|done].
  unfold project_write, put_task, add_task_event in H. tx_inv. apply get_task_Ok in Hrun as [-> ->].
  destruct (tasks d !! k) as [t|]; [|done]. destruct (is_terminal (k_status t)); tx_inv; [done|].
  destruct (_ && _); tx_inv; [done|]. by destruct i; tx_inv.
Qed.

Lemma same_requests d d' l : requests d' = requests d → ∀ r', requests d' !! id = Some r' → r_state r' = R_APPLIED →
  ∃ r, requests d !! id = Some r ∧ (r_state r = R_APPLIED ∨ proved l r).
Proof. intros -> r' Hr Ha. exists r'. auto. Qed.

Lemma project_snapshot_good s Q w : good w →
  (∀ x w' l, good w' → after runs w w' l → (∀ t i, Invoked t i ∉ l) → Q x w') →
  wp (project_snapshot has_projector s) Q w.
Proof.
  intros Hw HQ. unfold project_snapshot. destruct has_projector.
  - apply wp_quiet_call; [done|..].
    + intros _ _ d [] d' H. split; [by eapply step_project|]. by eapply same_requests, project_requests.
    + intros _ _ d a w' _ _ Hg Ha. assert (∀ t i, Invoked t i ∉ [Committed d (a_db w')]) by set_solver.
      split; [by eapply HQ|]. intros e. by eapply HQ.
    + intros w' e Hg Ha. eapply HQ; [done|exact Ha|]. set_solver.
  - apply wp_ret. eapply HQ; [done|apply after_refl; [apply _|apply Hw]|]. set_solver.
Qed.

(** ** One attempt *)

(** The claimed record of an attempt. *)
Definition claimed (r : request_row) (w : aworld) : Prop :=
  good w ∧ knows r (a_db w) ∧
  ∃ d d', Committed d d' ∈ a_log w ∧ requests d' !! id = Some r ∧ r_state r = R_RUNNING ∧ r_attempts r ≤ max_attempts.

Lemma claimed_after r w w' l : claimed r w → good w' → after runs w w' l → claimed r w'.
Proof.
  intros (Hg & Hk & d & d' & Hc & H) Hg' Ha. split_and!; [done| |].
  - destruct Ha as (_ & Hr & _). eapply knows_runs; [apply Hg|done|done].
  - exists d, d'. split; [by eapply after_kept|done].
Qed.

Lemma good_read thread s w w' : good w → after runs w w' [ReadState thread s] → good w'.
Proof. intros Hg Ha. by eapply good_snoc. Qed.

(** What an attempt leaves behind, however it ends. *)
Definition leaves (r : request_row) (x : result request_row) (w : aworld) : Prop := good w ∧ knows r (a_db w).

Lemma claimed_leaves r x w : claimed r w → leaves r x w.
Proof. by intros (? & ? & _). Qed.

Lemma attempt_tail_good r w : claimed r w →
  wp (after ← aget_state (thread_of r);
      done ← lift_result (accepted after r);
      guard_or done (unsafe "Graph did not checkpoint API acceptance");;
      rest ← lift_result (next after r);
      guard_or (bool_decide (rest = None)) (unsafe "Graph returned with unfinished API work");;
      project_snapshot has_projector after;;
      finish_now r R_APPLIED None 0) (leaves r) w.
Proof.
  intros Hc. apply wp_bind, (wp_aget_state runs); [apply Hc| |].
  2:{ intros w1 e Ha. eapply claimed_leaves, claimed_after; [done|by eapply good_after; [apply Hc|]|done]. }
  intros s w1 Ha. assert (H1 : claimed r w1) by (eapply claimed_after; [done|eapply good_read; [apply Hc|done]|done]).
  apply wp_bind, wp_lift. destruct (accepted s r) as [done|e] eqn:Eacc; [|by apply claimed_leaves].
  apply wp_bind, wp_guard; intros ->; [|by apply claimed_leaves].
  apply wp_bind, wp_lift. destruct (next s r) as [rest|e] eqn:Enext; [|by apply claimed_leaves].
  apply wp_bind, wp_guard; intros Erest; [apply bool_decide_eq_true in Erest as ->|by apply claimed_leaves].
  assert (Hp : proved (a_log w1) r).
  { exists s. split; [|done]. eapply after_logged; [exact Ha|by left]. }
  apply wp_bind, project_snapshot_good; [apply H1|]. intros x w2 l Hg Ha2 _.
  assert (H2 : claimed r w2) by by eapply claimed_after.
  destruct x as [[]|e]; [|by apply claimed_leaves].
  apply finish_now_good; [apply H2..|]. intros _. by eapply proved_after.
Qed.

Lemma attempt_good r w : claimed r w → (∀ t i, Invoked t i ∉ a_log w) →
  wp (attempt fp turn_fp signal has_projector r) (leaves r) w.
Proof.
  intros Hc Hno. apply wp_bind, (wp_aget_state runs); [apply Hc| |].
  2:{ intros w1 e Ha. eapply claimed_leaves, claimed_after; [done|by eapply good_after; [apply Hc|]|done]. }
  intros s w1 Ha. assert (H1 : claimed r w1) by (eapply claimed_after; [done|eapply good_read; [apply Hc|done]|done]).
  destruct (next s r) as [input|e] eqn:Enext.
  2:{ destruct (is_SessionConflictError e); [|by apply wp_throw, claimed_leaves].
      apply finish_now_good; [apply H1..|done]. }
  apply wp_bind. destruct input as [i|]; [|apply wp_ret; by apply attempt_tail_good].
  apply (wp_ainvoke runs); [apply H1|..].
  - intros w2 Ha2. enough (claimed r w2).
    { split; [by apply attempt_tail_good|]. intros e. by apply claimed_leaves. }
    eapply claimed_after; [exact H1| |exact Ha2]. eapply good_snoc; [apply H1|exact Ha2|].
    destruct H1 as (_ & _ & d & d' & Hd & Hr & Hst & Hle). split.
    + intros t j. destruct Ha as (_ & _ & ->). rewrite elem_of_app. intros [Hx|Hx]; [by eapply Hno|].
      apply list_elem_of_singleton in Hx. discriminate.
    + exists r, s, d, d'. split_and!; try done. eapply after_logged; [exact Ha|by left].
  - intros w2 e Ha2. eapply claimed_leaves, claimed_after; [done|by eapply good_after; [apply H1|]|done].
Qed.

Lemma execute_attempt_good r w : claimed r w → (∀ t i, Invoked t i ∉ a_log w) →
  wp (execute_attempt fp turn_fp signal max_attempts retry has_projector r) (λ _ w', good w') w.
Proof.
  intros Hc Hno. apply wp_try. eapply wp_mono; [by apply attempt_good|]. intros x w' [Hg Hk].
  destruct x as [a|e]; [done|]. destruct (is_unsafe_recovery e); [|destruct (is_Exception e)].
  - eapply wp_mono; [apply finish_now_good; done|]. by intros ?? [? _].
  - eapply wp_mono; [apply finish_now_good; [done..|]; by destruct (_ <=? _)|]. by intros ?? [? _].
  - by apply wp_throw.
Qed.

(** ** The whole execution *)

Lemma get_Ok r d : get fp signal id d = Ok (Some r) → requests d !! id = Some r.
Proof.
  unfold get. destruct (requests d !! id) as [q|]; [|done]. intros (q' & Hq & [= <-])%result_bind_Ok.
  by apply record_of_Ok in Hq as (-> & _).
Qed.

Lemma knows_row r w : good w → requests (a_db w) !! id = Some r → knows r (a_db w).
Proof.
  intros (_ & [H _ _ _ _ _ _] & _) Hr. destruct (H _ _ Hr). split; [done|]. by exists r.
Qed.

Lemma completed_true s r : completed turn_fp signal s r = Ok true → accepted s r = Ok true ∧ next s r = Ok None.
Proof.
  unfold completed. destruct (accepted s r) as [[]|e]; cbn [mbind result_bind]; [|done|by destruct (is_unsafe_recovery e)].
  destruct (next s r) as [[i|]|e]; cbn [mbind result_bind]; [| |by destruct (is_unsafe_recovery e)].
  - rewrite bool_decide_eq_false_2 by done. done.
  - done.
Qed.

Lemma claim_quiet now max delay d r' d' : claim fp signal now id max delay d = Ok (r', d') →
  ∀ q, requests d' !! id = Some q → r_state q = R_APPLIED → ∃ r, requests d !! id = Some r ∧ r_state r = R_APPLIED.
Proof.
  intros H q Hq Happ. unfold claim, put_request in H. agent_inv. apply required_Ok in Hrun as [Hr ->].
  destruct (open_state (r_state a)) eqn:Ho; cbn [negb] in H; [|agent_inv; by exists q].
  agent_inv. exfalso. case_bool_decide; agent_inv; simpl in Hq; rewrite lookup_insert_eq in Hq; injection Hq as <-;
    [done|]. by destruct (_ <=? _).
Qed.
Definition idle (w : aworld) : Prop := good w ∧ ∀ t i, Invoked t i ∉ a_log w.

Lemma idle_after w w' l : idle w → good w' → after runs w w' l → (∀ t i, Invoked t i ∉ l) → idle w'.
Proof.
  intros [_ Hno] Hg (_ & _ & L) Hl. split; [done|]. intros t i. rewrite L, elem_of_app.
  intros [Hx|Hx]; [by eapply Hno|by eapply Hl].
Qed.

Lemma claim_good Q w : idle w →
  (∀ r w', idle w' → (r_state r = R_RUNNING → claimed r w') → Q (Ok r) w') →
  (∀ w' e, good w' → Q (Err e) w') →
  wp (adb_call (λ now _, claim fp signal now id max_attempts retry)) Q w.
Proof.
  intros Hw HQ Herr. apply wp_quiet_call; [apply Hw|..].
  - intros now u d r d' H. split; [by eapply step_claim_request|]. intros q Hq Ha.
    destruct (claim_quiet _ _ _ _ _ _ H q Hq Ha) as (q0 & ? & ?). exists q0. auto.
  - intros now u d r w' H Hr Hg Ha. split; [|intros e; by apply Herr]. apply HQ.
    + eapply idle_after; [exact Hw|exact Hg|exact Ha|]. set_solver.
    + intros Hst. destruct (claim_Ok _ _ _ _ _ _ _ _ _ H) as (q & Hq & Hr' & Hrun).
      destruct (Hrun Hst) as (_ & _ & Hlt & Ea & _). split_and!; [done|by apply knows_row|].
      exists d, (a_db w'). split_and!; [by eapply after_logged; [exact Ha|left]|done|done|lia].
  - intros w' e Hg Ha. by apply Herr.
Qed.

Lemma execute_held_good w : idle w →
  wp (execute_held fp turn_fp signal max_attempts retry has_projector id) (λ _ w', good w') w.
Proof.
  intros Hw. apply wp_bind, (wp_adb_read runs); [apply Hw| |intros w1 e Ha; by eapply good_after; [apply Hw|]].
  intros _ w1 Ha. assert (H1 : idle w1) by (eapply idle_after; [exact Hw|by eapply good_after; [apply Hw|]|exact Ha|set_solver]).
  destruct (get fp signal id (a_db w1)) as [[r|]|e] eqn:Eget; [|by apply wp_throw; apply H1|by apply H1].
  apply get_Ok in Eget. destruct (negb (open_state (r_state r))); [by apply wp_ret; apply H1|].
  assert (Hkn : knows r (a_db w1)) by (apply knows_row; [apply H1|done]).
  assert (Hgo : ∀ w2, idle w2 → wp (x ← adb_call (λ now _, claim fp signal now id max_attempts retry);
      if bool_decide (r_state x = R_RUNNING) then execute_attempt fp turn_fp signal max_attempts retry has_projector x else mret x)
      (λ _ w', good w') w2).
  { intros w2 H2. apply wp_bind, claim_good; [done| |by intros].
    intros x w3 H3 Hcl. case_bool_decide; [|by apply wp_ret; apply H3]. apply execute_attempt_good; [auto|apply H3]. }
  apply wp_bind. destruct (max_attempts <=? r_attempts r); [|apply wp_ret; by apply Hgo].
  apply wp_bind, (wp_aget_state runs); [apply H1| |intros w2 e Ha2; by eapply good_after; [apply H1|]].
  intros s w2 Ha2. assert (H2 : idle w2) by (eapply idle_after; [exact H1|by eapply good_read; [apply H1|]|exact Ha2|set_solver]).
  apply wp_bind, wp_lift. destruct (completed turn_fp signal s r) as [[]|e] eqn:Ec; [| |apply H2].
  - apply wp_ret, wp_bind, project_snapshot_good; [apply H2|]. intros x w3 l Hg Ha3 _.
    destruct x as [[]|e]; [|done]. apply completed_true in Ec as [Eacc Enext].
    eapply wp_mono; [apply finish_now_good; [done| |]|by intros ?? [? _]].
    + destruct Ha2 as (_ & R2 & _), Ha3 as (_ & R3 & _). eapply knows_runs; [apply H2|done|].
      eapply knows_runs; [apply H1|done|done].
    + intros _. eapply proved_after; [exact Ha3|]. exists s. split; [|done]. eapply after_logged; [exact Ha2|by left].
  - apply wp_ret. by apply Hgo.
Qed.

Lemma defer_busy_quiet now delay d u d' : defer_busy now id delay d = Ok (u, d') →
  ∀ q, requests d' !! id = Some q → r_state q = R_APPLIED → ∃ r, requests d !! id = Some r ∧ r_state r = R_APPLIED.
Proof.
  intros H q Hq Happ. unfold defer_busy, put_request in H. tx_inv. apply required_Ok in Hrun as [Hr ->].
  destruct (open_state (r_state a)) eqn:Ho; tx_inv; [|by exists q].
  simpl in Hq. rewrite lookup_insert_eq in Hq. injection Hq as <-. by exists a.
Qed.

Lemma execute_good w : idle w →
  wp (execute fp turn_fp signal max_attempts retry has_projector id) (λ _ w', good w') w.
Proof.
  intros Hw. apply wp_bind, (wp_adb_read runs); [apply Hw| |intros w1 e Ha; by eapply good_after; [apply Hw|]].
  intros _ w1 Ha. assert (H1 : idle w1) by (eapply idle_after; [exact Hw|by eapply good_after; [apply Hw|]|exact Ha|set_solver]).
  destruct (get fp signal id (a_db w1)) as [[r|]|e]; [|by apply wp_throw; apply H1|by apply H1].
  apply wp_try.
  assert (Hdefer : ∀ w2, good w2 → wp (adb_call (λ now _, defer_busy now id retry);;
      x ← adb_read (λ _, get fp signal id); match x with Some r => mret r | None => throw AssertionError end)
      (λ _ w', good w') w2).
  { intros w2 H2. apply wp_bind, wp_quiet_call; [done|..|by intros].
    - intros now u d [] d' H. split; [by eapply step_defer_request|]. intros q Hq Hap.
      destruct (defer_busy_quiet _ _ _ _ _ H q Hq Hap) as (q0 & ? & ?). exists q0. auto.
    - intros now u d a w3 _ _ H3 _. split; [|done].
      apply wp_bind, (wp_adb_read runs); [apply H3| |intros w4 e Ha4; by eapply good_after].
      intros _ w4 Ha4. assert (good w4) by by eapply good_after.
      destruct (get fp signal id (a_db w4)) as [[x|]|e]; [by apply wp_ret|by apply wp_throw|done]. }
  assert (Hcatch : ∀ (x : result request_row) w2, good w2 → match x with Ok _ => good w2 | Err e => wp (if is_defer e then
      adb_call (λ now _, defer_busy now id retry);;
      y ← adb_read (λ _, get fp signal id); match y with Some r => mret r | None => throw AssertionError end
      else throw e) (λ _ w', good w') w2 end).
  { intros [a|e] w2 H2; [done|]. destruct (is_defer e); [by apply Hdefer|by apply wp_throw]. }
  apply (wp_ahold runs); [apply H1|..].
  - intros w2 e Ha2. apply (Hcatch (Err e)). by eapply good_after; [apply H1|].
  - intros w2 Ha2. eapply wp_mono; [apply execute_held_good;
      eapply idle_after; [exact H1|by eapply good_after; [apply H1|]|exact Ha2|set_solver]|].
    intros x w3 H3. split; [apply H3|]. intros w4 Ha4. assert (good w4) as H4 by by eapply good_after.
    split; [by apply Hcatch|]. intros e. by apply (Hcatch (Err e)).
Qed.
End Runs.

(** ** Accepting a request *)

Lemma accept_quiet c now node base d r d' : accept fp signal now c node base d = Ok (r, d') →
  ∀ q, requests d' !! request_id c = Some q → r_state q = R_APPLIED →
  ∃ r, requests d !! request_id c = Some r ∧ r_state r = R_APPLIED.
Proof.
  intros [(Hr & -> & _)|(_ & _ & _ & task & m & _ & _ & _ & -> & ->)]%accept_Ok%accept_tx_Ok q Hq Ha; [by exists q|].
  simpl in Hq. rewrite lookup_insert_eq in Hq. by injection Hq as <-.
Qed.

Lemma accept_request_good c w : idle (request_id c) w →
  wp (accept_request fp turn_fp signal c) (λ _ w', idle (request_id c) w') w.
Proof.
  intros Hw. apply (wp_ahold runs); [apply Hw|..].
  - intros w1 e Ha. eapply idle_after; [exact Hw|by eapply good_after; [apply Hw|]|exact Ha|set_solver].
  - intros w1 Ha. assert (H1 : idle (request_id c) w1) by (eapply idle_after; [exact Hw|by eapply good_after; [apply Hw|]|exact Ha|set_solver]).
    assert (Hend : ∀ w2, idle (request_id c) w2 → afair runs w2 ∧ ∀ w3, after runs w2 w3 [] → idle (request_id c) w3 ∧ (∀ e : exn, idle (request_id c) w3)).
    { intros w2 H2. split; [apply H2|]. intros w3 H3. assert (idle (request_id c) w3); [|done].
      eapply idle_after; [exact H2|by eapply good_after; [apply H2|]|exact H3|set_solver]. }
    apply wp_bind, (wp_adb_read runs); [apply H1| |].
    2:{ intros w2 e Ha2. apply Hend. eapply idle_after; [exact H1|by eapply good_after; [apply H1|]|exact Ha2|set_solver]. }
    intros _ w2 Ha2. assert (H2 : idle (request_id c) w2) by (eapply idle_after; [exact H1|by eapply good_after; [apply H1|]|exact Ha2|set_solver]).
    destruct (get fp signal (request_id c) (a_db w2)) as [[r|]|e]; [| |by apply Hend].
    { apply wp_bind, wp_lift. destruct (validate_command fp r c) as [[]|e]; [|by apply Hend]. apply wp_ret. by apply Hend. }
    apply wp_bind, (wp_aget_state runs); [apply H2| |].
    2:{ intros w3 e Ha3. apply Hend. eapply idle_after; [exact H2|by eapply good_after; [apply H2|]|exact Ha3|set_solver]. }
    intros s w3 Ha3. assert (H3 : idle (request_id c) w3) by (eapply idle_after; [exact H2|by eapply good_read; [apply H2|]|exact Ha3|set_solver]).
    apply wp_bind, wp_lift. destruct (target_node turn_fp signal s c) as [node|e]; [|by apply Hend].
    apply (wp_quiet_call (request_id c)); [apply H3|..].
    + intros now u d r d' H. split; [by eapply step_accept|]. intros q Hq Hap.
      destruct (accept_quiet _ _ _ _ _ _ _ H q Hq Hap) as (q0 & ? & ?). exists q0. auto.
    + intros now u d r w4 _ _ Hg Ha4. assert (idle (request_id c) w4); [|by split; [|intros]; apply Hend].
      eapply idle_after; [exact H3|exact Hg|exact Ha4|set_solver].
    + intros w4 e Hg Ha4. apply Hend. eapply idle_after; [exact H3|exact Hg|exact Ha4|set_solver].
Qed.

(** C3. For every schedule of faults, crash points and other processes,
    whatever [AdmissionService.handle] (accept, then execute) or [execute]
    does is justified by what it saw before: the request becomes APPLIED only
    after a snapshot of its session with its receipt and no work left, and the
    graph is invoked at most once, for an attempt that a committed claim
    handed out within the budget, with exactly the input that the snapshot
    asks for. *)
Theorem execution_is_justified c w : agent_reachable fp signal digest (a_db w) → afair runs w → a_log w = [] →
  justified (due (request_id c)) (a_log (handle fp turn_fp signal max_attempts retry has_projector c w).2) ∧
  justified (due (request_id c)) (a_log (execute fp turn_fp signal max_attempts retry has_projector (request_id c) w).2).
Proof.
  intros Hd Hf Hlog.
  assert (Hw : idle (request_id c) w).
  { split; [split_and!; [done|by apply (reachable_agent_ok fp signal digest)|]|]; rewrite Hlog; [apply justified_nil|set_solver]. }
  split.
  - enough (H : wp (handle fp turn_fp signal max_attempts retry has_projector c) (λ _ w', good (request_id c) w') w) by apply H.
    unfold handle. apply wp_bind. eapply wp_mono; [by apply accept_request_good|].
    intros [r|e] w' H; [|apply H]. destruct (open_state (r_state r)); [by apply execute_good|apply H].
  - apply (execute_good (request_id c) w Hw).
Qed.
End Service.
