(* ===== verification/AdmissionLife.v ===== *)
(** * The life of a request

    The abstract life cycle of an admitted request and the proof that every
    transaction refines it; what the graph is sent and when; what a receipt
    proves; and that an execution without faults applies its request. *)

From stdpp Require Import base gmap strings list relations.
From Stdlib Require Import ZArith Lia.
From S2P Require Import Prelude Text Session AgentTables Admission FailureStore TaskProjections AgentWorld Effects AgentInv AgentSteps AgentAccept AgentHistory AgentProps AgentDemo AdmissionService AdmissionServiceProps.
Local Open Scope Z_scope.
Set Default Proof Using "Type".

(** ** Life cycle *)

(** A request that is not admitted yet, or its state and attempts. *)
Abbreviation life_state := (option (request_state * Z)) (only parsing).

Inductive life : life_state → life_state → Prop :=
| life_admit : life None (Some (R_PENDING, 0))
| life_claim s n : open_state s = true → life (Some (s, n)) (Some (R_RUNNING, n + 1))
| life_block s n : open_state s = true → life (Some (s, n)) (Some (R_BLOCKED, n))
| life_retry s n : open_state s = true → life (Some (s, n)) (Some (R_PENDING, n))
| life_reject s n : open_state s = true → life (Some (s, n)) (Some (R_REJECTED, n))
| life_apply s n : active s = true → life (Some (s, n)) (Some (R_APPLIED, n))
| life_compensate s n : active s = true → life (Some (s, n)) (Some (R_COMPENSATED, n)).

Definition life_of (id : uuid) (d : adb) : life_state := (λ r, (r_state r, r_attempts r)) <$> requests d !! id.

(** At most one step. *)
Definition may_live (a b : life_state) : Prop := a = b ∨ life a b.

Section Life.
Context (fp : ApiRequest → string) (turn_fp : TaskTurn → string) (signal : json → result ResumeSignal)
  (digest : json → string).

Lemma life_same id d d' : requests d' = requests d → may_live (life_of id d) (life_of id d').
Proof. intros E. left. unfold life_of. by rewrite E. Qed.

Lemma life_put id k d r r' : requests d !! k = Some r →
  may_live (Some (r_state r, r_attempts r)) (Some (r_state r', r_attempts r')) →
  may_live (life_of id d) (life_of id (set_requests <[k := r']> d)).
Proof.
  intros Hr Hl. unfold life_of. simpl. rewrite lookup_insert. case_decide as E; [subst|by left].
  rewrite Hr. exact Hl.
Qed.

Lemma tables_requests d d' : tables_of d' = tables_of d → requests d' = requests d.
Proof. unfold tables_of. by intros [= ->]. Qed.

Lemma claim_life now k max delay d r d' id : claim fp signal now k max delay d = Ok (r, d') → may_live (life_of id d) (life_of id d').
Proof.
  intros H. unfold claim, put_request in H. agent_inv. apply required_Ok in Hrun as [Hr ->].
  destruct (open_state (r_state a)) eqn:Ho; cbn [negb] in H; agent_inv; [|by left].
  case_bool_decide; agent_inv; (eapply life_put; [done|]); right; [by apply life_block|].
  destruct (_ <=? _); by constructor.
Qed.

Lemma finish_life now r0 state e delay d r d' id : finish fp signal now r0 state e delay d = Ok (r, d') →
  may_live (life_of id d) (life_of id d').
Proof.
  intros H. unfold finish, put_request in H. tx_inv. apply required_Ok in Hrun0 as [Hr ->]. agent_inv.
  match goal with Hg : _ && _ && _ = true |- _ =>
    apply andb_true_iff in Hg as [[Ho Hs%bool_decide_eq_true]%andb_true_iff _] end. rewrite <- Hs in Ho.
  eapply life_put; [done|]. right. simpl. destruct state; try done; constructor; try done. by apply open_active.
Qed.

Lemma defer_busy_life now k delay d u d' id : defer_busy now k delay d = Ok (u, d') → may_live (life_of id d) (life_of id d').
Proof.
  intros H. unfold defer_busy, put_request in H. tx_inv. apply required_Ok in Hrun as [Hr ->].
  destruct (open_state (r_state a)); tx_inv; [|by left]. eapply life_put; [done|]. by left.
Qed.

Lemma resolve_life r0 d u d' id : resolve_applied r0 d = Ok (u, d') → may_live (life_of id d) (life_of id d').
Proof.
  intros H. unfold resolve_applied, put_request in H. tx_inv. apply required_Ok in Hrun as [Hr ->]. tx_inv.
  match goal with Hg : _ && _ = true |- _ => apply andb_true_iff in Hg as [Hs%bool_decide_eq_true _] end.
  eapply life_put; [done|]. right. apply life_apply. by rewrite Hs.
Qed.

Lemma accept_life now c node base d r d' id : accept fp signal now c node base d = Ok (r, d') →
  may_live (life_of id d) (life_of id d').
Proof.
  intros [(_ & -> & _)|(Hn & _ & _ & task & m & _ & _ & _ & -> & ->)]%accept_Ok%accept_tx_Ok; [by left|].
  assert (E : requests (admitted now c task m d) = requests d) by (unfold admitted; by case_decide).
  unfold life_of. simpl. rewrite lookup_insert, E. case_decide; [subst|by left]. rewrite Hn. right. constructor.
Qed.

Lemma finish_cleanup_life now fresh record d d' id : agent_ok fp signal digest d →
  finish_cleanup now fresh record d = Ok (tt, d') → may_live (life_of id d) (life_of id d').
Proof.
  intros Hd H. unfold finish_cleanup, compensate, delete_locks, put_cleanup in H. tx_inv.
  apply (fenced_Ok _ _ _ _ _ _ _ Hd) in Hrun0 as (-> & _).
  destruct (tasks d !! f_task_id a0) as [t|] eqn:Ht; [|done]. tx_inv. destruct a1.
  match goal with Hf : finish_task _ _ _ _ _ = _ |- _ => apply (finish_task_Ok _ _ _ _ _ _ Ht) in Hf as (t' & Htab & _) end.
  unfold tables_of in Htab. simpl in Htab. injection Htab as E _ _ _ _ _.
  unfold life_of. simpl. rewrite lookup_update_where, E.
  destruct (requests d !! id) as [r|]; [simpl|by left].
  destruct (_ =? _)%N, (active (r_state r)) eqn:Ha; [right; by apply life_compensate|by left..].
Qed.

Lemma binding_requests id e v o n c d u d' : binding_tx id e v o n c d = Ok (u, d') → requests d' = requests d.
Proof.
  intros H. unfold binding_tx, create_binding, integer_columns, put_task, put_lock, insert_binding in H. tx_inv.
  apply get_task_Ok in Hrun as [-> ->]. destruct (tasks d !! id); [|done]. tx_inv.
  destruct (bindings d !! id); agent_inv; [done|]. destruct o; [|done]. tx_inv. destruct n; [|done]. tx_inv.
  destruct (session_locks _ !! _) as [l|]; [destruct (_ =? _)%N|]; by tx_inv.
Qed.

Lemma terminal_requests now f id st m md d u d' : terminal_tx now f id st m md d = Ok (u, d') → requests d' = requests d.
Proof.
  intros H. unfold terminal_tx, put_task, add_task_event, delete_locks, insert_message in H. tx_inv.
  apply get_task_Ok in Hrun0 as [-> ->]. destruct (tasks d !! id) as [t|]; [|done].
  destruct (is_terminal (k_status t)); by tx_inv.
Qed.

Lemma step_life id d d' : agent_ok fp signal digest d → agent_step fp signal digest d d' →
  may_live (life_of id d) (life_of id d').
Proof.
  intros Hd [].
  - by eapply accept_life.
  - by eapply claim_life.
  - by eapply finish_life.
  - by eapply defer_busy_life.
  - by eapply resolve_life.
  - by eapply life_same, ensure_requests.
  - apply life_same. unfold retry_blocked, put_cleanup, add_task_event in *. agent_inv.
    apply required_cleanup_Ok in Hrun0 as [_ ->]. by destruct a1; agent_inv.
  - apply life_same. unfold bind_execution, put_cleanup, put_task, put_lock in *. tx_inv.
    apply (fenced_Ok _ _ _ _ _ _ _ Hd) in Hrun as (-> & _). destruct (tasks d !! _); [|done].
    by destruct (session_locks d !! _); tx_inv.
  - apply life_same. unfold claim_cleanup, put_cleanup in *. tx_inv. apply required_cleanup_Ok in Hrun as [_ ->].
    by case_bool_decide; cbn [negb] in *; tx_inv.
  - apply life_same. unfold confirm, put_cleanup in *. tx_inv. by apply (fenced_Ok _ _ _ _ _ _ _ Hd) in Hrun0 as (-> & _).
  - apply life_same. unfold defer, put_cleanup in *. tx_inv. by apply (fenced_Ok _ _ _ _ _ _ _ Hd) in Hrun as (-> & _).
  - apply life_same. unfold cleanup_defer_busy, put_cleanup in *. tx_inv. apply required_cleanup_Ok in Hrun as [_ ->].
    by case_bool_decide; tx_inv.
  - by eapply finish_cleanup_life.
  - by eapply life_same, project_requests.
  - by eapply life_same, binding_requests.
  - by eapply life_same, terminal_requests.
  - apply life_same. unfold promotion_tx, add_task_event in *. tx_inv. by destruct (existsb _ _); tx_inv.
  - apply life_same. unfold prepare in *. tx_inv.
    match goal with H : match ?x with _ => _ end _ = _ |- _ => destruct x; by agent_inv end.
  - apply life_same. unfold complete in *. tx_inv. destruct (effects d !! key) as [x|]; [|done].
    by destruct (x_response x); agent_inv.
Qed.

(** C16. Every transaction of the service refines the abstract life cycle of a
    request: seen on one request, a run is a sequence of admission, claims,
    retries and one of the four ends, with attempts counted by claims alone. *)
Theorem request_life_refined id d d' : agent_reachable fp signal digest d → rtc (agent_step fp signal digest) d d' →
  rtc life (life_of id d) (life_of id d').
Proof.
  intros Hd Hr. apply reachable_agent_ok in Hd. induction Hr as [|d1 d2 d3 Hs _ IH]; [done|].
  etransitivity; [|by apply IH; eapply agent_step_ok].
  destruct (step_life id _ _ Hd Hs) as [->|]; [done|by apply rtc_once].
Qed.

(** ** What the graph is sent *)

Lemma start_idle s u : validate_start_snapshot turn_fp s u = Ok false → sn_next s = [].
Proof.
  unfold validate_start_snapshot. rewrite raise_if_then. intros [_ H].
  destruct (st_task_requests (values s) !! t_active_task_id u).
  - apply raise_if_then in H as [_ H]. discriminate.
  - apply raise_if_then in H as [H _]. apply negb_false_iff, bool_decide_eq_true in H. done.
Qed.

(** The input of a request is sent at most until the graph has
    checkpointed it: a new turn is sent only to an idle session that never saw
    the task, at the checkpoint the request was admitted on, and a resume only
    to the interrupt the request names, while that interrupt is the one that
    waits at the node the request was admitted for; once the snapshot carries
    the receipt, neither is sent again. *)
Theorem input_sent_until_accepted s r :
  match next_invocation turn_fp signal s r with
  | Ok (Some (StartTurn u)) =>
      accepted s r = Ok false ∧ u = turn (r_command r) ∧ kind (r_command r) = START ∧ sn_next s = [] ∧
      st_task_requests (values s) !! t_active_task_id u = None ∧ sn_checkpoint_id s = r_base_checkpoint_id r
  | Ok (Some (ResumeWith i _)) =>
      accepted s r = Ok false ∧ kind (r_command r) ≠ START ∧ interrupt_id (r_command r) = Some i ∧
      ∃ waiting, boundaries s = [(r_target_node r, waiting)] ∧ in_id waiting = i
  | _ => True
  end.
Proof.
  unfold next_invocation. destruct (accepted s r) as [[]|e]; cbn [mbind result_bind]; [|..|done].
  - destruct (owns_pending s r); [done|]. by destruct (raise_if _ _).
  - case_bool_decide as Hk.
    + unfold start_invocation. destruct (_ && _); [done|].
      destruct (raise_if (bool_decide (is_Some _)) _) as [[]|] eqn:Hnew; [|done]. cbn [mbind result_bind].
      apply raise_if_Ok, bool_decide_eq_false in Hnew. apply eq_None_not_Some in Hnew.
      destruct (validate_start_snapshot turn_fp s (turn (r_command r))) as [[]|] eqn:Hv; cbn [mbind result_bind]; [| |done].
      * exfalso. unfold validate_start_snapshot in Hv. apply raise_if_then in Hv as [_ Hv]. rewrite Hnew in Hv.
        apply raise_if_then in Hv as [_ Hv]. done.
      * destruct (raise_if _ _) as [[]|] eqn:Hc; [|done]. cbn [mbind result_bind].
        apply raise_if_Ok, negb_false_iff, bool_decide_eq_true in Hc. apply start_idle in Hv. done.
    + unfold resume_invocation. destruct (interrupt_id (r_command r)) as [i|]; [|done].
      destruct (req_payload (r_command r)) as [p|]; [|done]. destruct (interrupted s); [|by destruct (_ && _)].
      destruct (validate_resume_snapshot turn_fp signal s (turn (r_command r)) i p) as [[sg name]|] eqn:Hv; [|done].
      cbn [mbind result_bind]. destruct (raise_if _ _) as [[]|] eqn:Hn; [|done]. cbn [mbind result_bind].
      apply raise_if_Ok, negb_false_iff, String.eqb_eq in Hn. simpl in Hn. subst name.
      do 3 (split; [done|]). unfold validate_resume_snapshot in Hv. apply result_bind_Ok in Hv as (? & _ & Hv).
      do 2 (apply raise_if_then in Hv as [_ Hv]). destruct (boundaries s) as [|[n w] [|]]; [done| |done].
      apply raise_if_then in Hv as [Hi Hv]. do 2 (apply raise_if_then in Hv as [_ Hv]).
      apply result_bind_Ok in Hv as (? & _ & [= _ <-]). apply negb_false_iff, String.eqb_eq in Hi. by exists w.
Qed.

(** When an input node ran under the action of a request and its update is
    written to the state, the snapshot proves the acceptance of that request,
    and the receipts of other requests are kept. *)
Theorem receipt_proves_acceptance r st updates updates' next_nodes tasks' checkpoint :
  r_target_node r ∈ INPUT_NODES →
  with_api_receipt (r_target_node r) (Some (action_of r)) st updates = Ok updates' → nu_api_receipts updates = None →
  accepted (mk_snapshot (apply_update updates' st) next_nodes tasks' checkpoint) r = Ok true ∧
  ∀ k, k ≠ request_key r → st_api_receipts (apply_update updates' st) !! k = st_api_receipts st !! k.
Proof.
  intros Hin H Hnone. unfold with_api_receipt in H.
  assert (E : existsb (String.eqb (r_target_node r)) INPUT_NODES = true).
  { apply existsb_exists. exists (r_target_node r). split; [by apply list_elem_of_In|apply String.eqb_refl]. }
  rewrite E in H. cbn [negb action_of ac_target_node ac_task_id ac_fingerprint ac_request_id] in H.
  rewrite String.eqb_refl in H. cbn [negb] in H. apply raise_if_then in H as [_ H].
  unfold accepted. cbn [values apply_update st_api_receipts].
  destruct (st_api_receipts st !! request_key r) as [old|] eqn:Hold.
  - apply raise_if_then in H as [Ho [= <-]]. apply negb_false_iff, bool_decide_eq_true in Ho. rewrite Hnone. cbn [default].
    rewrite Hold. split; [|done]. rewrite Ho. unfold receipt_of. by rewrite bool_decide_eq_true_2.
  - injection H as <-. cbn [nu_api_receipts default from_option]. unfold id. rewrite lookup_insert_eq. split.
    + unfold receipt_of. by rewrite bool_decide_eq_true_2.
    + intros k Hk. by rewrite lookup_insert_ne.
Qed.
End Life.

(** ** An execution without faults *)

Section Healthy.
Context (fp : ApiRequest → string) (turn_fp : TaskTurn → string) (signal : json → result ResumeSignal)
  (digest : json → string) (max_attempts retry : Z).

(** No other process interferes, every call is answered, and the graph goes
    from [s0] to [s1]. *)
Definition calm (now : timestamp) (r : areply) : atick := mk_atick (λ d, d) now 0 (ADone r).
Definition healthy (now : timestamp) (s0 s1 : Snapshot) : list atick :=
  map (calm now) [ANone; ANone; ANone; ANone; ASnapshot s0; ANone; ASnapshot s1; ANone; ANone].

Lemma read_calm {A} (q : timestamp → adb → result A) now a d l log :
  adb_read q (mk_aworld d (calm now a :: l) log) = (q now d, mk_aworld d l log).
Proof. reflexivity. Qed.
Lemma call_calm {A} (m : timestamp → uuid → tx adb A) now a d l log :
  adb_call m (mk_aworld d (calm now a :: l) log) =
  match m now 0%N d with
  | Ok (x, d') => (Ok x, mk_aworld d' l (log ++ [Committed d d']))
  | Err e => (Err e, mk_aworld d l log)
  end.
Proof. reflexivity. Qed.
Lemma hold_calm {A} now a b (body : proc aworld A) l x d w' l' log' : w' = mk_aworld d (calm now b :: l') log' →
  ∀ d0 log, body (mk_aworld d0 l log) = (x, w') →
  ahold body (mk_aworld d0 (calm now a :: l) log) = (x, mk_aworld d l' log').
Proof.
  intros -> d0 log E. unfold ahold, mbind, proc_bind, adraw. cbn [a_sched calm at_out a_db at_env a_log].
  unfold try_finally. rewrite E. reflexivity.
Qed.

Definition is_invoked (x : action) : bool := match x with Invoked _ _ => true | _ => false end.
Definition invocations (l : list action) : list action := List.filter is_invoked l.

Definition claimed_row (now : timestamp) (r : request_row) : request_row :=
  with_request_state R_RUNNING (r_attempts r + 1) (now + retry) (r_last_error r) "AGENT" r.
Definition applied_row (now : timestamp) (r : request_row) : request_row :=
  with_request_state R_APPLIED (r_attempts r + 1) (now + 0) None "AGENT" (claimed_row now r).

Lemma get_run d id r : agent_ok fp signal digest d → requests d !! id = Some r → get fp signal id d = Ok (Some r).
Proof.
  intros [H _ _ _ _ _ _] Hr. destruct (H _ _ Hr). unfold get. rewrite Hr.
  by rewrite (proj2 (record_of_Ok fp signal r r)).
Qed.

Lemma claim_run now d id r : agent_ok fp signal digest d → requests d !! id = Some r → open_state (r_state r) = true →
  cleanups d !! r_task_id r = None → r_attempts r < max_attempts →
  claim fp signal now id max_attempts retry d = Ok (claimed_row now r, set_requests <[id := claimed_row now r]> d).
Proof.
  intros [H _ _ _ _ _ _] Hr Ho Hc Hlt. destruct (H _ _ Hr).
  unfold claim, required, put_request, mbind, tx_bind, tx_get, mret, tx_ret, lift. rewrite Hr, Ho. cbn [negb].
  rewrite bool_decide_eq_false_2 by (rewrite Hc; by intros []).
  rewrite (proj2 (Z.leb_gt max_attempts (r_attempts r))) by done. cbn [tx_modify].
  fold (claimed_row now r). by rewrite (proj2 (record_of_Ok fp signal (claimed_row now r) (claimed_row now r))).
Qed.

Lemma finish_run now d id r : agent_ok fp signal digest d → requests d !! id = Some r → request_id (r_command r) = id →
  finish fp signal now (claimed_row now r) R_APPLIED None 0 (set_requests <[id := claimed_row now r]> d) =
  Ok (applied_row now r, set_requests <[id := applied_row now r]> (set_requests <[id := claimed_row now r]> d)).
Proof.
  intros [H _ _ _ _ _ _] Hr Hid. destruct (H _ _ Hr).
  unfold finish, required, put_request, mbind, tx_bind, tx_guard, tx_get, mret, tx_ret, lift. cbn [claimed_row with_request_state r_command].
  rewrite Hid. cbn [requests set_requests]. rewrite lookup_insert_eq. cbn [r_state r_attempts claimed_row with_request_state open_state].
  rewrite bool_decide_eq_true_2, Z.eqb_refl by done. cbn [andb].
  fold (claimed_row now r). fold (applied_row now r).
  by rewrite (proj2 (record_of_Ok fp signal (applied_row now r) (applied_row now r))).
Qed.

Lemma claimed_row_grows now r : final_state (r_state r) = false → request_grows r (claimed_row now r).
Proof. intros. by apply with_state_grows; [|lia]. Qed.

(** The service makes progress: executed without faults, an open request
    whose budget is not spent and whose task has no cleanup is claimed, its
    input is sent to the graph once, and it ends APPLIED, provided the graph
    checkpoints its acceptance and leaves no work. *)
Theorem healthy_execution_applies now id r d s0 s1 input : agent_reachable fp signal digest d →
  requests d !! id = Some r → open_state (r_state r) = true → cleanups d !! r_task_id r = None →
  r_attempts r < max_attempts → next_invocation turn_fp signal s0 r = Ok (Some input) →
  accepted s1 r = Ok true → next_invocation turn_fp signal s1 r = Ok None →
  ∃ w', execute fp turn_fp signal max_attempts retry false id (mk_aworld d (healthy now s0 s1) []) = (Ok (applied_row now r), w') ∧
    requests (a_db w') !! id = Some (applied_row now r) ∧
    invocations (a_log w') = [Invoked (thread_of r) input].
Proof.
  intros Hd Hr Ho Hc Hlt Hin Hacc Hnext. apply reachable_agent_ok in Hd.
  pose proof Hd as [Hrq _ _ _ _ _ _]. destruct (Hrq _ _ Hr) as [Hid _ _ _ _ _ _].
  assert (Hg : request_grows r (claimed_row now r)) by by apply claimed_row_grows, open_not_final.
  rewrite <- (next_grows turn_fp signal _ _ _ Hg) in Hin. rewrite <- (next_grows turn_fp signal _ _ _ Hg) in Hnext. rewrite <- (accepted_grows _ _ _ Hg) in Hacc.
  set (d1 := set_requests <[id := claimed_row now r]> d). set (d2 := set_requests <[id := applied_row now r]> d1).
  exists (mk_aworld d2 [] [Committed d d1; ReadState (thread_of r) s0; Invoked (thread_of r) input;
    ReadState (thread_of r) s1; Committed d1 d2]).
  split; [|split; [apply lookup_insert_eq|reflexivity]].
  unfold execute. rewrite (proc_bind_run _ _ _ (Some r) (mk_aworld d (tail (healthy now s0 s1)) []))
    by (unfold healthy; cbn [map drop tail]; rewrite read_calm, (get_run d id r) by done; done).
  eapply try_except_run, (hold_calm now ANone ANone); [reflexivity|].
  unfold execute_held. rewrite (proc_bind_run _ _ _ (Some r) (mk_aworld d (drop 3 (healthy now s0 s1)) []))
    by (unfold healthy; cbn [map drop tail]; rewrite read_calm, (get_run d id r) by done; done).
  rewrite Ho, (proj2 (Z.leb_gt max_attempts (r_attempts r))) by done. cbn [negb].
  rewrite (proc_bind_run _ _ _ None (mk_aworld d (drop 3 (healthy now s0 s1)) [])) by done.
  rewrite (proc_bind_run _ _ _ (claimed_row now r) (mk_aworld d1 (drop 4 (healthy now s0 s1)) [Committed d d1])).
  2:{ unfold healthy; cbn [map drop tail]. rewrite call_calm, (claim_run now d id r) by done. reflexivity. }
  rewrite bool_decide_eq_true_2 by done. apply try_except_run. unfold attempt.
  rewrite (proc_bind_run _ _ _ s0 (mk_aworld d1 (drop 5 (healthy now s0 s1)) [Committed d d1; ReadState (thread_of r) s0])) by done.
  rewrite Hin.
  rewrite (proc_bind_run _ _ _ tt (mk_aworld d1 (drop 6 (healthy now s0 s1))
    [Committed d d1; ReadState (thread_of r) s0; Invoked (thread_of r) input])) by done.
  rewrite (proc_bind_run _ _ _ s1 (mk_aworld d1 (drop 7 (healthy now s0 s1))
    [Committed d d1; ReadState (thread_of r) s0; Invoked (thread_of r) input; ReadState (thread_of r) s1])) by done.
  rewrite Hacc, Hnext. set (log := [_; _; _; _]).
  match goal with |- _ = ?rhs =>
    change (finish_now fp signal (claimed_row now r) R_APPLIED None 0
      (mk_aworld d1 [calm now ANone; calm now ANone] log) = rhs) end.
  unfold finish_now. rewrite call_calm. unfold d1 at 1. rewrite (finish_run now d id r) by done. reflexivity.
Qed.
End Healthy.

(** The delay after a failed attempt is positive, never above five
    minutes, and does not shrink from one attempt to the next. *)
Theorem backoff_bounded retry n : 0 < retry → 1 ≤ n →
  0 < backoff retry n ≤ 300000000 ∧ backoff retry n ≤ backoff retry (n + 1).
Proof.
  intros Hr Hn. unfold backoff, microseconds.
  assert (0 < 2 ^ Z.min (n - 1) 6) by (apply Z.pow_pos_nonneg; lia).
  assert (2 ^ Z.min (n - 1) 6 ≤ 2 ^ Z.min (n + 1 - 1) 6) by (apply Z.pow_le_mono_r; lia). nia.
Qed.

Lemma backoff_bounded_witness : backoff 5000000 9 = 300000000 ∧ 0 < backoff 5000000 2 ≤ 300000000.
Proof.
  split; [vm_compute; reflexivity|]. exact (proj1 (backoff_bounded 5000000 2 ltac:(lia) ltac:(lia))).
Defined.

(** ** The theorems on the demo run *)

Import AgentDemo.

Module LifeDemo.
Definition turn_fp (u : TaskTurn) : string := t_user_message u.
Definition empty_session : SessionState := mk_state None None None None None ∅ ∅ ∅ None None ∅ ∅ ∅.
Definition before : Snapshot := mk_snapshot empty_session [] [] None.
Definition row : request_row := value_of no_request accept1.
Definition updates : node_update := mk_update (Some (t_active_task_id demo_turn)) None None.
Definition updated : node_update :=
  match with_api_receipt "begin_task" (Some (action_of row)) empty_session updates with Ok u => u | Err _ => updates end.
Definition answered : Snapshot := mk_snapshot (apply_update updated empty_session) [] [] None.
Definition start : aworld := mk_aworld d1 (healthy 20 before answered) [].

Lemma updated_run : with_api_receipt "begin_task" (Some (action_of row)) empty_session updates = Ok updated.
Proof. vm_compute. reflexivity. Qed.
Lemma start_fair : afair (rtc step) start.
Proof. unfold afair, start, healthy, calm. simpl. repeat constructor. Qed.
End LifeDemo.

Import LifeDemo.

Lemma request_life_refined_witness : rtc life None (life_of 1 d7).
Proof. exact (request_life_refined fp no_signal digest 1 empty_adb d7 (rtc_refl _ _) reach7). Defined.

Lemma receipt_proves_acceptance_witness : accepted answered row = Ok true.
Proof.
  refine (proj1 (receipt_proves_acceptance row empty_session updates updated [] [] None _ updated_run _));
    [left|reflexivity].
Defined.

Lemma healthy_execution_applies_witness :
  ∃ w', execute fp turn_fp no_signal 2 5 false 1 start = (Ok (applied_row 5 20 row), w') ∧
    requests (a_db w') !! 1%N = Some (applied_row 5 20 row).
Proof.
  destruct (healthy_execution_applies fp turn_fp no_signal digest 2 5 20 1 row d1 before answered (StartTurn demo_turn) reach1)
    as (w' & H1 & H2 & _); [vm_compute; reflexivity..|]. exists w'. exact (conj H1 H2).
Defined.

Lemma execution_is_justified_witness : justified (due turn_fp no_signal 2 1)
  (a_log (execute fp turn_fp no_signal 2 5 false 1 start).2).
Proof.
  exact (proj2 (execution_is_justified fp turn_fp no_signal digest 2 5 false demo_command start reach1 start_fair eq_refl)).
Defined.
