(* ===== verification/TaskApi.v ===== *)
(** * The task routes and the event stream
    ([ex_agent/api/routers/tasks.py], [ex_agent/api/contracts.py], the reads of
    [ex_agent/persistence/repositories/tasks.py], and what
    [ex_agent/dev_chat/client.py] makes of the stream)

    Creating, reading, resuming and cancelling a task over the admission
    service, and the Server-Sent Events of a task. [uuid5] is Python's with the
    URL namespace, [dump] the JSON of a resume signal; the serial number of the
    [n]-th event row is [serial n]. *)

From stdpp Require Import base gmap strings list.
From Stdlib Require Import Ascii ZArith Lia.
From S2P Require Import Prelude Text Routes Session AgentTables Admission AgentWorld AdmissionService.
Local Open Scope Z_scope.
Set Default Proof Using "Type".

(** ** Contracts *)

Record TaskCreateRequest := mk_create {
  tc_task_id : uuid;
  tc_input_message_id : uuid;
  tc_content : string;
  tc_idempotency_key : string
}.
Record ResumeRequest := mk_resume { rr_idempotency_key : string; rr_signal : list (string * json) }.
Record CancelRequest := mk_cancel { cr_idempotency_key : string; cr_reason : option string }.

Record TaskAcceptedResponse := mk_accepted { ta_task_id : uuid; ta_status : TaskStatus; ta_created_by : string; ta_updated_by : string }.
Record TaskResponse := mk_response {
  ts_task_id : uuid;
  ts_user_id : string;
  ts_project_id : string;
  ts_session_id : string;
  ts_status : TaskStatus;
  ts_execution_id : option uuid;
  ts_current_interrupt : option json;
  ts_terminal_message : option string;
  ts_version : Z;
  ts_created_by : string;
  ts_updated_by : string
}.

(** The field constraints. *)
Definition length_within (low high : nat) (s : string) : bool := (low <=? String.length s)%nat && (String.length s <=? high)%nat.
Definition valid_create (b : TaskCreateRequest) : bool :=
  length_within 1 100000 (tc_content b) && length_within 1 255 (tc_idempotency_key b).
Definition valid_resume (b : ResumeRequest) : bool := length_within 1 255 (rr_idempotency_key b).
Definition valid_cancel (b : CancelRequest) : bool :=
  length_within 1 255 (cr_idempotency_key b) && from_option (length_within 0 1000) true (cr_reason b).

(** [task_response], [task_accepted_response]; a row keeps no times. *)
Definition task_response (id : uuid) (t : task_row) : TaskResponse :=
  mk_response id (k_user_id t) (k_project_id t) (k_session_id t) (k_status t) (k_execution_id t)
    (k_current_interrupt t) (k_terminal_message t) (k_version t) (k_created_by t) (k_updated_by t).
Definition task_accepted_response (id : uuid) (t : task_row) : TaskAcceptedResponse :=
  mk_accepted id (k_status t) (k_created_by t) (k_updated_by t).

(** ** What a task has to offer *)

(** [required_interrupt_id] *)
Definition required_interrupt_id (interrupt : option json) : result string :=
  match interrupt with
  | None => Err (http_error 409 "Task is not awaiting input")
  | Some i =>
      match jget "interrupt_id" i with
      | Some (JStr s) => raise_if (String.eqb s "") (http_error 409 "Task interrupt is not resumable");; Ok s
      | _ => Err (http_error 409 "Task interrupt is not resumable")
      end
  end.

(** [interrupt.get(key) == signal.get(key)], as JSON values. *)
Definition same_field (interrupt payload : json) (key : string) : bool :=
  bool_decide (default JNull (jget key interrupt) = default JNull (jget key payload)).

(** [validate_signal_against_interrupt] *)
Definition validate_signal_against_interrupt (interrupt : option json) (payload : json) : result unit :=
  match interrupt with
  | None => Err (http_error 409 "Task is not awaiting input")
  | Some i =>
      raise_if (negb (bool_decide (default JNull (jget "kind" i) = default JNull (jget "type" payload))))
        (http_error 409 "Resume signal does not match the current interrupt");;
      raise_if (bool_decide (jget "type" payload = Some (JStr "PLAN_REVIEW")) &&
                negb (forallb (same_field i payload) ["plan_revision_id"; "plan_revision_number"; "public_payload_hash"]))
        (http_error 409 "Plan decision is stale");;
      raise_if (bool_decide (jget "type" payload = Some (JStr "WORKFLOW_SELECTION")) &&
                negb (same_field i payload "proposal_version"))
        (http_error 409 "Workflow proposal is stale")
  end.

(** [task_turn] *)
Definition task_turn (id : uuid) (t : task_row) (runtime_profile : string) : TaskTurn :=
  mk_turn (k_user_id t) (k_project_id t) (k_session_id t) (uuid_str id) (uuid_str (k_input_message_id t))
    (k_user_message t) runtime_profile.

(** ** The routes *)

Definition not_found : exn := http_error 404 "Task not found".

(** [repository.get_task], [required_task], [owned_task] *)
Definition stored_task (task_id : uuid) : proc aworld (option task_row) := adb_read (λ _ d, Ok (tasks d !! task_id)).
Definition required_task (task_id : uuid) : proc aworld task_row :=
  task ← stored_task task_id;
  lift_result (from_option_err not_found task).
Definition owned_task (task_id : uuid) (user_id : string) : proc aworld task_row :=
  task ← stored_task task_id;
  match task with
  | Some t => guard_or (String.eqb (k_user_id t) user_id) not_found;; mret t
  | None => throw not_found
  end.

Section Routes.
Context (fp : ApiRequest → string) (turn_fp : TaskTurn → string) (signal : json → result ResumeSignal)
  (dump : ResumeSignal → json) (uuid5 : string → uuid) (max_attempts retry : Z) (has_projector : bool)
  (admission_available : bool) (runtime_profile : string).

(** [_request_id] *)
Definition api_request_id (idempotency_key : string) : uuid := uuid5 ("ex-agent/api/" +:+ idempotency_key).

(** [admit] of the routes *)
Definition refused_outcome (r : request_row) : result request_row :=
  match r_state r with
  | R_REJECTED | R_COMPENSATED => Err (http_error 409 (or_else (r_last_error r) "Agent request was rejected"))
  | R_BLOCKED => Err (http_error 503 (or_else (r_last_error r) "Agent request recovery is blocked"))
  | _ => Ok r
  end.
Definition admit_command (command : ApiRequest) : proc aworld request_row :=
  guard_or admission_available (http_error 503 "Direct Agent runtime is unavailable");;
  record ← try_except (handle fp turn_fp signal max_attempts retry has_projector command) (λ e,
    match e with
    | SessionBusyError active_task_id _ => throw (HTTPException 423 (JObj [("active_task_id", JStr active_task_id)]))
    | SessionConflictError m => throw (http_error 409 m)
    | e => throw e
    end);
  lift_result (refused_outcome record).

(** [ApiRequest(...)] validates its fields. *)
Definition api_request (c : ApiRequest) : result ApiRequest := validate_request signal c;; Ok c.

(** The command of each route. *)
Definition create_command (project_id session_id : string) (b : TaskCreateRequest) (user_id : string) : ApiRequest :=
  mk_request (api_request_id (tc_idempotency_key b))
    (mk_turn user_id project_id session_id (uuid_str (tc_task_id b)) (uuid_str (tc_input_message_id b)) (tc_content b) runtime_profile)
    START None None.
Definition resume_command (id : uuid) (t : task_row) (key interrupt : string) (payload : json) : ApiRequest :=
  mk_request (api_request_id key) (task_turn id t runtime_profile) RESUME (Some interrupt) (Some payload).
Definition cancel_command (id : uuid) (t : task_row) (b : CancelRequest) (interrupt : string) : ApiRequest :=
  mk_request (api_request_id (cr_idempotency_key b)) (task_turn id t runtime_profile) CANCEL (Some interrupt)
    (Some (JObj [("reason", from_option JStr JNull (cr_reason b)); ("task_id", JStr (uuid_str id)); ("type", JStr "CANCEL_REQUESTED")])).

(** [create_task] *)
Definition create_task (project_id session_id : string) (b : TaskCreateRequest) (user_id : string)
    : proc aworld (reply TaskAcceptedResponse) :=
  if negb (valid_create b) then mret validation_error else
  respond 202 (
    command ← lift_result (api_request (create_command project_id session_id b user_id));
    admit_command command;;
    task ← required_task (tc_task_id b);
    mret (task_accepted_response (tc_task_id b) task)).

(** [get_task] *)
Definition get_task_route (task_id : uuid) (user_id : string) : proc aworld (reply TaskResponse) :=
  respond 200 (task ← owned_task task_id user_id; mret (task_response task_id task)).

(** [resume_task]: the adapter's [ValidationError] is a [ValueError]. *)
Definition resume_task (task_id : uuid) (b : ResumeRequest) (user_id : string) : proc aworld (reply TaskAcceptedResponse) :=
  if negb (valid_resume b) then mret validation_error else
  respond 202 (
    task ← owned_task task_id user_id;
    decision ← lift_result (signal (JObj (rr_signal b)));
    let payload := dump decision in
    lift_result (validate_signal_against_interrupt (k_current_interrupt task) payload);;
    interrupt ← lift_result (required_interrupt_id (k_current_interrupt task));
    command ← lift_result (api_request (resume_command task_id task (rr_idempotency_key b) interrupt payload));
    admit_command command;;
    task ← required_task task_id;
    mret (task_accepted_response task_id task)).

(** [cancel_task] *)
Definition cancel_task (task_id : uuid) (b : CancelRequest) (user_id : string) : proc aworld (reply TaskAcceptedResponse) :=
  if negb (valid_cancel b) then mret validation_error else
  respond 202 (
    task ← owned_task task_id user_id;
    guard_or (bool_decide (is_Some (k_execution_id task))) (http_error 409 "Task has no active Executor execution");;
    interrupt ← lift_result (required_interrupt_id (k_current_interrupt task));
    command ← lift_result (api_request (cancel_command task_id task b interrupt));
    admit_command command;;
    task ← required_task task_id;
    mret (task_accepted_response task_id task)).
End Routes.

(** ** The event stream of a task *)

(** What the stream sends: an event with its serial number, or a comment. *)
Inductive frame := EventFrame (id : Z) (e : task_event) | Keepalive.
#[export] Instance task_event_eq_dec : EqDecision task_event.
Proof. solve_decision. Defined.
#[export] Instance frame_eq_dec : EqDecision frame.
Proof. solve_decision. Defined.

Section Events.
Context (serial : nat → Z) (dumps : json → string).

(** The rows of [agent_task_events] with their ids, in the order of the ids. *)
Definition event_rows (d : adb) : list (Z * task_event) := imap (λ n e, (serial n, e)) (task_events d).

(** [WHERE task_id = task AND id > after ORDER BY id] *)
Definition events_since (task : uuid) (after : Z) (d : adb) : list (Z * task_event) :=
  filter (λ row, te_task_id row.2 = task ∧ after < row.1) (event_rows d).
(** [TaskRepository.events_after] *)
Definition events_after (task : uuid) (after : Z) (limit : nat) (d : adb) : list (Z * task_event) :=
  take limit (events_since task after d).

(** [request.is_disconnected], [pubsub.get_message] *)
Definition is_disconnected : proc aworld bool :=
  t ← adraw;
  match at_out t with
  | ADone ANone => mret false
  | ADone _ => mret true
  | ARefused e | ALost e => throw e
  end.
Definition get_message : proc aworld (option string) :=
  t ← adraw;
  match at_out t with
  | ADone (AText s) => mret (Some s)
  | ADone _ => mret None
  | ARefused e | ALost e => throw e
  end.
Definition subscribe : proc aworld unit :=
  t ← adraw;
  match at_out t with ADone _ => mret tt | ARefused e | ALost e => throw e end.

Definition event_frame (row : Z * task_event) : frame := EventFrame row.1 row.2.

(** One turn of the loop of [stream]: what it yields and the cursor after it;
    [None] when the client is gone. *)
Definition stream_turn (task : uuid) (cursor : Z) : proc aworld (option (list frame * Z)) :=
  gone ← is_disconnected;
  if gone : bool then mret None else
  events ← adb_read (λ _ d, Ok (events_after task cursor 100 d));
  match last events with
  | Some row => mret (Some (map event_frame events, row.1))
  | None =>
      notification ← get_message;
      mret (Some (match notification with None => [Keepalive] | Some _ => [] end, cursor))
  end.

(** [turns] turns of the loop: what was yielded, and the exception that ended
    it, if any. *)
Fixpoint stream_loop (turns : nat) (task : uuid) (cursor : Z) : proc aworld (list frame * option exn) :=
  match turns with
  | O => mret ([], None)
  | S turns' =>
      step ← try_except (x ← stream_turn task cursor; mret (Ok x)) (λ e, mret (Err e));
      match step with
      | Err e => mret ([], Some e)
      | Ok None => mret ([], None)
      | Ok (Some (frames, cursor')) =>
          '(rest, ended) ← stream_loop turns' task cursor';
          mret (frames ++ rest, ended)
      end
  end.

(** [int(last_event_id or 0)] *)
Definition start_cursor (last_event_id : option string) : result Z :=
  match last_event_id with
  | None => Ok 0
  | Some s => if String.eqb s "" then Ok 0 else from_option_err (ValueError "invalid literal for int() with base 10") (py_int s)
  end.

(** [task_events]: the status of the reply and, once it has begun, what the
    body sends within [turns] turns. *)
Definition task_events_route (turns : nat) (task_id : uuid) (user_id : string) (last_event_id : option string)
    : proc aworld (reply (list frame * option exn)) :=
  opened ← respond 200 (owned_task task_id user_id;; lift_result (start_cursor last_event_id));
  match opened with
  | Answered status cursor =>
      body ← try_except (subscribe;; stream_loop turns task_id cursor) (λ e, mret ([], Some e));
      mret (Answered status body)
  | Refusal status detail => mret (Refusal status detail)
  end.

(** The text of a frame. *)
Definition end_line (s : string) : string := s +:+ String newline "".
Definition frame_text (f : frame) : string :=
  match f with
  | EventFrame id e =>
      end_line ("id: " +:+ int_str id) +:+ end_line ("event: " +:+ te_type e) +:+ end_line ("data: " +:+ dumps (te_payload e)) +:+ end_line ""
  | Keepalive => end_line ": keepalive" +:+ end_line ""
  end.
Definition stream_text (frames : list frame) : string := String.concat "" (map frame_text frames).
End Events.

(** ** The client of the stream ([AgentApiClient.watch]) *)

(** [aiter_lines] of httpx: the lines of a text that are complete, which end
    at a newline; it knows other line breaks than the newline. *)
Class LineReader := {
  line_break : ascii → Prop;
  printable_unbroken : ∀ c, (32 ≤ Ascii.N_of_ascii c < 127)%N → ¬ line_break c;
  aiter_lines : string → list string;
  aiter_lines_complete : ∀ ls rest, Forall (string_all (λ c, ¬ line_break c)) ls → string_all (λ c, ¬ line_break c) rest →
    aiter_lines (String.concat "" (map end_line ls) +:+ rest) = ls
}.

(** The variables of the reading loop. *)
Record reader := mk_reader { rd_cursor : Z; rd_event_id : Z; rd_event_type : string }.
Definition connected (cursor : Z) : reader := mk_reader cursor cursor "".

Definition drop_prefix (n : nat) (s : string) : string := String.substring n (String.length s - n) s.

(** One line; an event ends with an empty line. *)
Definition read_line (line : string) (r : reader) : result reader :=
  if String.prefix "id:" line then
    id ← from_option_err (ValueError "invalid literal for int() with base 10") (py_int (strip (drop_prefix 3 line)));
    Ok (mk_reader (rd_cursor r) id (rd_event_type r))
  else if String.prefix "event:" line then
    Ok (mk_reader (rd_cursor r) (rd_event_id r) (strip (drop_prefix 6 line)))
  else if String.eqb line "" then
    Ok (mk_reader (Z.max (rd_cursor r) (rd_event_id r)) (rd_event_id r) "")
  else Ok r.
Fixpoint read_lines (ls : list string) (r : reader) : result reader :=
  match ls with [] => Ok r | l :: ls' => r' ← read_line l r; read_lines ls' r' end.

(** The event types after which the client looks at the task again. *)
Definition refreshes (event_type : string) : bool :=
  existsb (String.eqb event_type) ["task.interrupted"; "task.completed"; "task.status_changed"].

(** [needs_input], [_snapshot_ready] *)
Definition HUMAN_INTERRUPTS : list string :=
  ["CLARIFICATION"; "EXECUTION_MODE"; "REQUEST_RISK_CONFIRMATION"; "WORKFLOW_SELECTION"; "PLAN_REVIEW"].
Definition needs_input (task : TaskResponse) (ignored_version : Z) : bool :=
  (ignored_version <? ts_version task) &&
  match ts_current_interrupt task with
  | Some i => json_truthy i && match jget "kind" i with Some (JStr k) => existsb (String.eqb k) HUMAN_INTERRUPTS | _ => false end
  | None => false
  end.
Definition snapshot_ready (task : TaskResponse) (ignored_version : Z) (known_version : option Z) : bool :=
  needs_input task ignored_version || is_terminal (ts_status task) ||
  match known_version with Some v => negb (ts_version task =? v) | None => false end.
