(* ===== verification/TaskApiProps.v ===== *)
(** * What the task routes and the event stream guarantee

    A task or a decision is answered with 202 only once its request is stored;
    only the owner of a task reads it or acts on it; a decision is taken only
    for the interrupt the task shows; and the stream gives every event of the
    task once and in order, also over reconnections. *)

From stdpp Require Import base gmap strings list sorting relations.
From Stdlib Require Import Ascii ZArith Lia.
From S2P Require Import Prelude Text Routes WorkerContracts WorkerStore Session AgentTables Admission FailureStore TaskProjections AgentWorld Executor Effects AgentConforms AgentInv AgentSteps AgentAccept AgentHistory AgentProps AdmissionService TaskApi.
Local Open Scope Z_scope.
Set Default Proof Using "Type".

Section Admitting.
Context (fp : ApiRequest → string) (turn_fp : TaskTurn → string) (signal : json → result ResumeSignal) (digest : json → string)
  (max_attempts retry : Z) (has_projector : bool).
Abbreviation runs := (rtc (agent_step fp signal digest)).
Abbreviation agent_ok := (agent_ok fp signal digest).

(** ** Rows that the service returns

    A coroutine that returns a row of a request returns one that the table held
    since [d0]; [K] are rows it has already seen. *)
Section Returning.
Context (id : uuid) (d0 : adb) (Hd0 : agent_ok d0).

Definition stored (r : request_row) (d : adb) : Prop := ∃ d1, runs d0 d1 ∧ runs d1 d ∧ requests d1 !! id = Some r.
Definition returning (K : request_row → Prop) (m : proc aworld request_row) : Prop :=
  ∀ w, afair runs w → runs d0 (a_db w) → (∀ r, K r → stored r (a_db w)) →
    wp m (λ x w', (∃ l, after runs w w' l) ∧ ∀ r, x = Ok r → stored r (a_db w')) w.

Lemma stored_later r d d' : stored r d → runs d d' → stored r d'.
Proof. intros (d1 & ? & ? & ?) Hr. exists d1. split_and!; [done|by etransitivity|done]. Qed.

Lemma stored_id r d : stored r d → request_id (r_command r) = id.
Proof using Hd0. intros (d1 & H1 & _ & Hr). destruct (agent_run_ok _ _ _ _ _ H1 Hd0) as [H _ _ _ _ _ _]. by destruct (H _ _ Hr). Qed.

Lemma returning_ret K r : K r → returning K (mret r).
Proof. intros Hr w Hf _ HK. apply wp_ret. split; [by apply after_stop; [apply _|]|]. intros r' [= <-]. auto. Qed.
Lemma returning_throw K e : returning K (throw e).
Proof. intros w Hf _ HK. apply wp_throw. split; [by apply after_stop; [apply _|]|done]. Qed.
Lemma returning_bind {A} K (m : proc aworld A) f : conforming runs m → (∀ a, returning K (f a)) → returning K (m ≫= f).
Proof.
  intros Hm Hf w Hw Hd HK. apply wp_bind. eapply wp_mono; [by apply Hm|]. intros [a|e] w1 [l1 H1].
  - pose proof H1 as (F1 & R1 & _). eapply wp_mono; [apply Hf; [done|by etransitivity|intros r Hr; by eapply stored_later; [apply HK|]]|].
    intros x w2 [[l2 H2] Hx]. split; [|done]. exists (l1 ++ l2). by eapply after_trans; [apply _| |].
  - split; [by exists l1|done].
Qed.
Lemma returning_try K m h : returning K m → (∀ e, returning K (h e)) → returning K (try_except m h).
Proof.
  intros Hm Hh w Hw Hd HK. apply wp_try. eapply wp_mono; [by apply Hm|]. intros [a|e] w1 [[l1 H1] Hx]; [by split; [exists l1|]|].
  pose proof H1 as (F1 & R1 & _). eapply wp_mono; [apply Hh; [done|by etransitivity|intros r Hr; by eapply stored_later; [apply HK|]]|].
  intros x w2 [[l2 H2] Hx2]. split; [|done]. exists (l1 ++ l2). by eapply after_trans; [apply _| |].
Qed.
(** A transaction whose row is the stored one, and what is done with the row. *)
Lemma returning_call K (m : timestamp → uuid → tx adb request_row) (f : request_row → proc aworld request_row) :
  (∀ now u d r d', m now u d = Ok (r, d') → runs d d' ∧ requests d' !! id = Some r) →
  (∀ r, request_id (r_command r) = id → returning (λ x, x = r ∨ K x) (f r)) → returning K (r ← adb_call m; f r).
Proof using Hd0.
  intros Hm Hf w Hw Hd HK. apply wp_bind, (wp_adb_call runs); [done|..].
  - intros now u d r d' Hr. by eapply Hm.
  - intros now u d r w1 Hr _ H1. pose proof H1 as (F1 & R1 & _). split; [|intros e; by split; [eexists|]].
    assert (Hs : stored r (a_db w1)) by (exists (a_db w1); split_and!; [by etransitivity|done|by eapply Hm]).
    eapply wp_mono; [apply (Hf r); [by eapply stored_id|done|by etransitivity|]|].
    + intros r' [->|HK']; [done|by eapply stored_later; [apply HK|]].
    + intros x w2 [[l2 H2] Hx]. split; [|done]. eexists. by eapply after_trans; [apply _|exact H1|exact H2].
  - intros now u w1 e H1 _. by split; [exists []|].
  - intros w1 e H1. by split; [exists []|].
Qed.
Lemma returning_last K (m : timestamp → uuid → tx adb request_row) :
  (∀ now u d r d', m now u d = Ok (r, d') → runs d d' ∧ requests d' !! id = Some r) → returning K (adb_call m).
Proof.
  intros Hm w Hw Hd HK. apply (wp_adb_call runs); [done|..].
  - intros now u d r d' Hr. by eapply Hm.
  - intros now u d r w1 Hr _ H1. pose proof H1 as (F1 & R1 & _). split; [|intros e; by split; [eexists|]].
    split; [by eexists|]. intros r' [= <-]. exists (a_db w1). split_and!; [by etransitivity|done|by eapply Hm].
  - intros now u w1 e H1 _. by split; [exists []|].
  - intros w1 e H1. by split; [exists []|].
Qed.
Lemma returning_get K (f : option request_row → proc aworld request_row) :
  returning K (f None) → (∀ r, request_id (r_command r) = id → returning (λ x, x = r ∨ K x) (f (Some r))) →
  returning K (r ← adb_read (λ _, get fp signal id); f r).
Proof using Hd0.
  intros Hn Hs w Hw Hd HK. apply wp_bind, (wp_adb_read runs); [done| |by intros w1 e H1; split; [exists []|]].
  intros _ w1 H1. pose proof H1 as (F1 & R1 & _).
  assert (Hlater : ∀ r, K r → stored r (a_db w1)) by (intros r Hr; by eapply stored_later; [apply HK|]).
  assert (Hend : ∀ x w2, ((∃ l, after runs w1 w2 l) ∧ ∀ r, x = Ok r → stored r (a_db w2)) →
    (∃ l, after runs w w2 l) ∧ ∀ r, x = Ok r → stored r (a_db w2)).
  { intros x w2 [[l H2] Hx]. split; [|done]. exists ([] ++ l). by eapply after_trans; [apply _| |]. }
  unfold get. destruct (requests (a_db w1) !! id) as [q|] eqn:Hq; [|eapply wp_mono; [apply Hn; [done|by etransitivity|done]|exact Hend]].
  destruct (record_of fp signal q) as [q'|e] eqn:Hr; cbn [mbind result_bind]; [|by split; [exists []|]].
  apply record_of_Ok in Hr as (-> & _). assert (Hst : stored q (a_db w1)) by (exists (a_db w1); by split_and!; [etransitivity|..]).
  eapply wp_mono; [apply Hs; [by eapply stored_id|done|by etransitivity|]|exact Hend].
  intros r [->|HK']; [done|by apply Hlater].
Qed.
Lemma returning_hold K m : returning K m → returning K (ahold m).
Proof.
  intros Hm w Hw Hd HK. apply (wp_ahold runs); [done|by intros w1 e H1; split; [exists []|]|].
  intros w1 H1. pose proof H1 as (F1 & R1 & _). eapply wp_mono; [apply Hm; [done|by etransitivity|intros r Hr; by eapply stored_later; [apply HK|]]|].
  intros x w2 [[l2 H2] Hx]. pose proof H2 as (F2 & _). split; [done|]. intros w3 H3. pose proof H3 as (_ & R3 & _).
  assert (∃ l, after runs w w3 l) by (eexists; eapply after_trans; [apply _|exact H1|eapply after_trans; [apply _|exact H2|exact H3]]).
  split; [split; [done|intros r Hr; by eapply stored_later; [apply Hx|]]|by intros].
Qed.
End Returning.

(** ** The admission service *)

Lemma task_claim_row now id max delay d r d' : claim fp signal now id max delay d = Ok (r, d') → runs d d' ∧ requests d' !! id = Some r.
Proof.
  intros H. split; [apply rtc_once; by eapply step_claim_request|]. unfold claim, put_request in H. agent_inv.
  apply required_Ok in Hrun as [Hr ->].
  destruct (open_state (r_state a)) eqn:Ho; cbn [negb] in H; agent_inv;
    [case_bool_decide; agent_inv|];
    match goal with Hx : record_of _ _ _ = Ok _ |- _ => apply record_of_Ok in Hx as (-> & _) end;
    try (simpl; by rewrite lookup_insert_eq); done.
Qed.

Lemma task_finish_row now record state error delay d r d' : finish fp signal now record state error delay d = Ok (r, d') →
  runs d d' ∧ requests d' !! request_id (r_command record) = Some r.
Proof.
  intros H. split; [apply rtc_once; by eapply step_finish_request|]. unfold finish, put_request in H. agent_inv.
  match goal with Hx : record_of _ _ _ = Ok _ |- _ => apply record_of_Ok in Hx as (-> & _) end. simpl. by rewrite lookup_insert_eq.
Qed.

Lemma finish_returning id d0 K record state error delay : request_id (r_command record) = id →
  returning id d0 K (finish_now fp signal record state error delay).
Proof. intros <-. apply returning_last. intros. by eapply task_finish_row. Qed.

Lemma project_conforms s : conforming runs (project_snapshot has_projector s).
Proof. unfold project_snapshot. conforming_parts; one_step. Qed.
#[local] Hint Resolve project_conforms : conforming.

Lemma attempt_returning id d0 K r : request_id (r_command r) = id → returning id d0 K (attempt fp turn_fp signal has_projector r).
Proof.
  intros Hid. apply returning_bind; [apply conforming_state; apply _|]. intros before.
  destruct (next_invocation turn_fp signal before r) as [input|e].
  - repeat first [by apply finish_returning|apply returning_bind; [conforming_parts|intros]].
  - destruct (is_SessionConflictError e); [by apply finish_returning|apply returning_throw].
Qed.

Lemma execute_attempt_returning id d0 K r : request_id (r_command r) = id →
  returning id d0 K (execute_attempt fp turn_fp signal max_attempts retry has_projector r).
Proof.
  intros Hid. apply returning_try; [by apply attempt_returning|]. intros e.
  destruct (is_unsafe_recovery e); [by apply finish_returning|].
  destruct (is_Exception e); [by apply finish_returning|apply returning_throw].
Qed.
Section Execution.
Context (id : uuid) (d0 : adb) (Hd0 : agent_ok d0).

Lemma execute_held_returning K : returning id d0 K (execute_held fp turn_fp signal max_attempts retry has_projector id).
Proof using Hd0.
  apply returning_get; [done|apply returning_throw|]. intros existing Hid. destruct (negb (open_state (r_state existing))); [by apply returning_ret; left|].
  assert (Hgo : ∀ K', returning id d0 K' (r ← adb_call (λ now _, claim fp signal now id max_attempts retry);
      if bool_decide (r_state r = R_RUNNING) then execute_attempt fp turn_fp signal max_attempts retry has_projector r else mret r)).
  { intros K'. apply returning_call; [done|intros; by eapply task_claim_row|]. intros r Hr.
    destruct (bool_decide _); [by apply execute_attempt_returning|by apply returning_ret; left]. }
  apply returning_bind.
  - destruct (max_attempts <=? r_attempts existing); conforming_parts.
  - intros [before|]; [|apply Hgo]. apply returning_bind; [apply project_conforms|intros _]. by apply finish_returning.
Qed.

Lemma execute_returning K : returning id d0 K (execute fp turn_fp signal max_attempts retry has_projector id).
Proof using Hd0.
  apply returning_get; [done|apply returning_throw|]. intros existing Hid.
  apply returning_try; [apply returning_hold, execute_held_returning|]. intros e. destruct (is_defer e); [|apply returning_throw].
  apply returning_bind; [conforming_parts; one_step|intros _]. apply returning_get; [done|apply returning_throw|]. intros r Hr. by apply returning_ret; left.
Qed.
End Execution.

(** ** What an answer of [handle] is evidence of *)

(** The row is stored at a moment of the call, and is that of the command. *)
Definition recorded (c : ApiRequest) (w : aworld) (r : request_row) (w' : aworld) : Prop :=
  ∃ d, runs (a_db w) d ∧ runs d (a_db w') ∧ requests d !! request_id c = Some r ∧ r_command r = c.

Lemma accept_recorded c w : afair runs w →
  wp (accept_request fp turn_fp signal c) (λ x w', (∃ l, after runs w w' l) ∧ ∀ r, x = Ok r → recorded c w r w') w.
Proof.
  intros Hf. apply (wp_ahold runs); [done|by intros w1 e H1; split; [exists []|]|]. intros w1 H1. pose proof H1 as (F1 & R1 & _).
  assert (Hend : ∀ (x : result request_row) w2 l, after runs w1 w2 l → (∀ r, x = Ok r → recorded c w r w2) →
    afair runs w2 ∧ ∀ w3, after runs w2 w3 [] → ((∃ l, after runs w w3 l) ∧ ∀ r, x = Ok r → recorded c w r w3) ∧
      ∀ e, (∃ l, after runs w w3 l) ∧ ∀ r, Err e = Ok r → recorded c w r w3).
  { intros x w2 l H2 Hx. split; [apply H2|]. intros w3 H3. pose proof H3 as (_ & R3 & _).
    assert (∃ l, after runs w w3 l) by (eexists; eapply after_trans; [apply _|exact H1|eapply after_trans; [apply _|exact H2|exact H3]]).
    split; [|by intros]. split; [done|]. intros r Hr. destruct (Hx r Hr) as (d & ? & ? & ?). exists d. split_and!; [done|by etransitivity|naive_solver..]. }
  apply wp_bind, (wp_adb_read runs); [done| |intros w2 e H2; by eapply Hend]. intros _ w2 H2. pose proof H2 as (F2 & R2 & _).
  destruct (get fp signal (request_id c) (a_db w2)) as [[r|]|e] eqn:Hg; [| |by eapply Hend].
  - apply wp_bind, wp_lift. destruct (validate_command fp r c) as [[]|e] eqn:Hv; [|by eapply Hend]. apply wp_ret.
    eapply Hend; [exact H2|]. intros r' [= <-]. unfold validate_command in Hv. apply raise_if_Ok, negb_false_iff, andb_true_iff in Hv as [Hv%bool_decide_eq_true _].
    unfold get in Hg. destruct (requests (a_db w2) !! request_id c) as [q|] eqn:Hq; [|done].
    apply result_bind_Ok in Hg as (q' & Hr' & [= ->]). apply record_of_Ok in Hr' as (-> & _).
    exists (a_db w2). by split_and!; [etransitivity|..].
  - apply wp_bind, (wp_aget_state runs); [done| |intros w3 e H3; eapply Hend; [by eapply after_trans; [apply _|exact H2|exact H3]|done]].
    intros s w3 H3. pose proof (after_trans runs _ _ _ _ _ H2 H3) as H13. pose proof H13 as (F3 & R3 & _). apply wp_bind, wp_lift.
    destruct (target_node turn_fp signal s c) as [target|e]; [|by eapply Hend].
    apply (wp_adb_call runs); [done|..].
    + intros now u d r d' Hr. apply rtc_once. by eapply step_accept.
    + intros now u d r w4 Hr Hd H4. assert (H14 : after runs w1 w4 ((([] ++ [ReadState (t_session_id (turn c)) s])) ++ [Committed d (a_db w4)])) by (by eapply after_trans; [apply _| |]).
      split; [|intros e; by eapply Hend]. eapply Hend; [exact H14|]. intros r' [= <-].
      exists (a_db w4). pose proof H14 as (_ & R4 & _). split_and!; [by etransitivity|done|..].
      * apply accept_Ok, accept_tx_Ok in Hr as [(Hr & Hsame & Hc & _)|(_ & _ & _ & task & m & _ & _ & _ & Hnew & ->)]; [congruence|].
        simpl. by rewrite lookup_insert_eq, Hnew.
      * by apply accept_Ok, accept_tx_Ok in Hr as [(_ & _ & Hc & _)|(_ & _ & _ & task & m & _ & _ & _ & -> & _)].
    + intros now u w4 e H4 _. eapply Hend; [by eapply after_trans; [apply _|exact H13|exact H4]|done].
    + intros w4 e H4. eapply Hend; [by eapply after_trans; [apply _|exact H13|exact H4]|done].
Qed.

Lemma handle_recorded c w : afair runs w → agent_ok (a_db w) →
  wp (handle fp turn_fp signal max_attempts retry has_projector c) (λ x w', (∃ l, after runs w w' l) ∧ ∀ r, x = Ok r → recorded c w r w') w.
Proof.
  intros Hf Hok. apply wp_bind. eapply wp_mono; [by apply accept_recorded|]. intros [r|e] w1 [[l1 H1] Hr]; [|by split; [exists l1|]].
  destruct (open_state (r_state r)); [|by apply wp_ret; split; [exists l1|]].
  destruct (Hr r eq_refl) as (d & Hd & Hd1 & Hrow & Hc). assert (Hokd : agent_ok d) by by eapply agent_run_ok.
  pose proof H1 as (F1 & _). eapply wp_mono; [apply (execute_returning (request_id c) d Hokd (λ _, False)); done|].
  intros x w2 [[l2 H2] Hx]. split; [exists (l1 ++ l2); by eapply after_trans; [apply _| |]|].
  intros r' ->. destruct (Hx r' eq_refl) as (d2 & H3 & H4 & Hr'). exists d2. split_and!; [by etransitivity|done|done|].
  destruct (agent_run_grows _ _ _ _ _ H3 Hokd) as (Hk & _). destruct (Hk _ _ Hrow) as (q & Hq & (Eq & _)). rewrite Hr' in Hq. injection Hq as <-. congruence.
Qed.
End Admitting.

(** ** The routes *)

Lemma respond_answered {W A} status (m : proc W A) w code a w' :
  respond status m w = (Ok (Answered code a), w') → code = status ∧ m w = (Ok a, w').
Proof.
  unfold respond, try_except, mbind, proc_bind. destruct (m w) as [[x|e] w1]; [by intros [= <- <- <-]|].
  by destruct e.
Qed.

Lemma wp_answer {W A} (m : proc W A) w a w' (P : W → Prop) : m w = (Ok a, w') → wp m (λ x w1, x = Ok a → P w1) w → P w'.
Proof. intros Hrun Hwp. by apply (wp_run _ _ _ _ _ Hwp Hrun). Qed.

Definition taken_on (r : request_row) : Prop := open_state (r_state r) = true ∨ r_state r = R_APPLIED.

Section TaskRoutes.
Context (fp : ApiRequest → string) (turn_fp : TaskTurn → string) (signal : json → result ResumeSignal) (digest : json → string)
  (dump : ResumeSignal → json) (uuid5 : string → uuid) (max_attempts retry : Z) (has_projector available : bool) (profile : string).
Abbreviation runs := (rtc (agent_step fp signal digest)).
Abbreviation agent_ok := (agent_ok fp signal digest).
Abbreviation admit_command := (admit_command fp turn_fp signal max_attempts retry has_projector available).
Abbreviation create_task := (create_task fp turn_fp signal uuid5 max_attempts retry has_projector available profile).
Abbreviation resume_task := (resume_task fp turn_fp signal dump uuid5 max_attempts retry has_projector available profile).
Abbreviation cancel_task := (cancel_task fp turn_fp signal uuid5 max_attempts retry has_projector available profile).

Lemma admit_recorded c w : afair runs w → agent_ok (a_db w) →
  wp (admit_command c) (λ x w', (∃ l, after runs w w' l) ∧ ∀ r, x = Ok r → recorded fp signal digest c w r w' ∧ taken_on r) w.
Proof.
  intros Hf Hok. apply wp_bind, wp_guard; intros _; [|by split; [apply after_stop; [apply _|]|]].
  apply wp_bind, wp_try. eapply wp_mono; [by apply (handle_recorded fp turn_fp signal digest)|]. intros [r|e] w1 [Hl Hr].
  - apply wp_lift. split; [done|]. intros r'. unfold refused_outcome, taken_on. destruct (r_state r) eqn:Hs; try done; intros [= <-];
      (split; [by apply Hr|rewrite Hs; auto]).
  - destruct e; by apply wp_throw.
Qed.

(** What is done once the command of a route is made. *)
Definition accept_command (c : ApiRequest) (id : uuid) : proc aworld TaskAcceptedResponse :=
  command ← lift_result (api_request signal c); admit_command command;; task ← required_task id; mret (task_accepted_response id task).

Lemma accept_command_wp c id w : afair runs w → agent_ok (a_db w) →
  wp (accept_command c id) (λ x w', ∀ b, x = Ok b →
    ∃ r d t, recorded fp signal digest c w r w' ∧ taken_on r ∧ runs (a_db w) d ∧ runs d (a_db w') ∧ tasks d !! id = Some t ∧
      b = task_accepted_response id t) w.
Proof.
  intros Hf Hok. apply wp_bind, wp_lift. unfold api_request. destruct (validate_request signal c) as [[]|e]; cbn [mbind result_bind]; [|done].
  apply wp_bind. eapply wp_mono; [by apply admit_recorded|]. intros [r|e] w1 [[l H1] Hr]; [|done]. destruct (Hr r eq_refl) as [Hrec Ht].
  pose proof H1 as (F1 & R1 & _). apply wp_bind, wp_bind, (wp_adb_read runs); [done| |by intros].
  intros _ w2 H2. pose proof H2 as (F2 & R2 & _). cbn beta. apply wp_lift.
  destruct (tasks (a_db w2) !! id) as [t|] eqn:Etask; cbn [from_option_err]; [|done]. apply wp_ret. intros b [= <-].
  exists r, (a_db w2), t. split_and!; try done; [|by etransitivity].
  destruct Hrec as (d & ? & ? & ? & ?). exists d. split_and!; [done|by etransitivity|done..].
Qed.

(** The task of a stored command, at any later moment. *)
Lemma recorded_task c w r w' id : agent_ok (a_db w) → recorded fp signal digest c w r w' →
  uuid_parse (t_active_task_id (turn c)) = Some id →
  ∃ t m, tasks (a_db w') !! id = Some t ∧ uuid_parse (t_current_input_message_id (turn c)) = Some m ∧ same_task t (turn c) m = true.
Proof.
  intros Hok (d & H1 & H2 & Hr & <-) Hid. assert (Hd : agent_ok d) by by eapply agent_run_ok.
  destruct (ok_request _ _ _ _ _ _ _ _ _ Hd _ _ Hr) as [_ _ Htask _ _ _ (t & m & Ht & Hm & Hs)].
  rewrite Hid in Htask. injection Htask as Htask. rewrite <- Htask in Ht. destruct (agent_run_grows _ _ _ _ _ H2 Hd) as (_ & Hk & _).
  destruct (Hk _ _ Ht) as (t' & Ht' & Hg & _). exists t', m. split_and!; [done|done|]. by rewrite (same_task_identity t t').
Qed.

(** C18. A task is answered as accepted only once it is recorded: when
    [create_task] answers, the request of its idempotency key was stored as
    exactly the command of this user, is not rejected, compensated or blocked,
    and the task is there with the user, the session and the input of the
    request; whatever interleaves and whatever fails. *)
Theorem accepted_task_is_recorded project session b user w status a w' :
  agent_reachable fp signal digest (a_db w) → afair runs w → (tc_task_id b < 2 ^ 128)%N → (tc_input_message_id b < 2 ^ 128)%N →
  create_task project session b user w = (Ok (Answered status a), w') →
  status = 202 ∧ (∃ r, recorded fp signal digest (create_command uuid5 profile project session b user) w r w' ∧ taken_on r) ∧
  ∃ t, tasks (a_db w') !! tc_task_id b = Some t ∧ k_user_id t = user ∧ k_project_id t = project ∧ k_session_id t = session ∧
    k_user_message t = tc_content b ∧ k_input_message_id t = tc_input_message_id b.
Proof.
  intros Hok%reachable_agent_ok Hf Hid Hmid. unfold TaskApi.create_task. destruct (negb (valid_create b)); [done|].
  intros [-> Hrun]%respond_answered. split; [done|].
  destruct (wp_run _ _ _ _ _ (accept_command_wp (create_command uuid5 profile project session b user) (tc_task_id b) w Hf Hok) Hrun a eq_refl)
    as (r & d & t0 & Hrec & Ht & _).
  split; [by exists r|]. destruct (recorded_task _ _ _ _ (tc_task_id b) Hok Hrec) as (t & m & Htask & Hm & Hs); [by apply uuid_parse_str|].
  cbn [create_command turn t_current_input_message_id] in Hm. rewrite uuid_parse_str in Hm by done. injection Hm as <-.
  exists t. unfold same_task in Hs. cbn in Hs. rewrite !andb_true_iff, !String.eqb_eq, N.eqb_eq in Hs.
  destruct Hs as ((((? & ?) & ?) & ?) & ?). by split_and!.
Qed.

(** A task that somebody shows to its owner. *)
Lemma owned_task_wp id user Q w : afair runs w →
  (∀ t w1, after runs w w1 [] → tasks (a_db w1) !! id = Some t → k_user_id t = user → Q (Ok t) w1) →
  (∀ w1, after runs w w1 [] → (∀ t, tasks (a_db w1) !! id = Some t → k_user_id t ≠ user) → Q (Err not_found) w1) →
  (∀ w1 e, after runs w w1 [] → Q (Err (driver_fault e)) w1) →
  wp (owned_task id user) Q w.
Proof.
  intros Hf Hok Hno Herr. apply wp_bind, (wp_adb_read runs); [done| |intros; by apply Herr]. intros _ w1 H1. cbn beta.
  destruct (tasks (a_db w1) !! id) as [t|] eqn:Ht; [|apply wp_throw, Hno; [done|congruence]].
  apply wp_bind, wp_guard; intros Hu; [apply String.eqb_eq in Hu|apply String.eqb_neq in Hu].
  - apply wp_ret. by eapply Hok.
  - apply Hno; [done|]. congruence.
Qed.

(** What [validate_signal_against_interrupt] has compared. *)
Definition answers (i payload : json) : Prop :=
  default JNull (jget "kind" i) = default JNull (jget "type" payload) ∧
  (jget "type" payload = Some (JStr "PLAN_REVIEW") →
     ∀ key, key ∈ ["plan_revision_id"; "plan_revision_number"; "public_payload_hash"] →
       default JNull (jget key i) = default JNull (jget key payload)) ∧
  (jget "type" payload = Some (JStr "WORKFLOW_SELECTION") →
     default JNull (jget "proposal_version" i) = default JNull (jget "proposal_version" payload)).

Lemma validate_signal_Ok interrupt payload : validate_signal_against_interrupt interrupt payload = Ok tt →
  ∃ i, interrupt = Some i ∧ answers i payload.
Proof.
  destruct interrupt as [i|]; [|done]. cbn [validate_signal_against_interrupt].
  rewrite !raise_if_then, raise_if_Ok, negb_false_iff, bool_decide_eq_true, !andb_false_iff, !bool_decide_eq_false, !negb_false_iff.
  intros (Hk & Hp & Hw). exists i. split; [done|]. split_and!; [done|..].
  - intros E key Hkey. destruct Hp as [|Hp]; [done|]. rewrite forallb_forall in Hp.
    specialize (Hp key). unfold same_field in Hp. rewrite bool_decide_eq_true in Hp. apply Hp. by apply list_elem_of_In.
  - intros E. destruct Hw as [|Hw]; [done|]. unfold same_field in Hw. by apply bool_decide_eq_true in Hw.
Qed.

Lemma resume_valid c payload : validate_request signal c = Ok tt → kind c = RESUME → req_payload c = Some payload →
  ∃ decision, signal payload = Ok decision ∧ is_executor_boundary decision = false ∧ is_cancel decision = false.
Proof.
  intros Hv Hk Hp. unfold validate_request in Hv. rewrite Hk, Hp, raise_if_then in Hv. destruct Hv as [_ Hv].
  do 3 (apply result_bind_Ok in Hv as (? & _ & Hv)). destruct (interrupt_id c); [|done].
  apply result_bind_Ok in Hv as (decision & Hd & Hv). rewrite raise_if_then, raise_if_Ok, negb_false_iff in Hv. destruct Hv as [Hx Hc].
  exists decision. by destruct (is_cancel decision).
Qed.

(** C19. A decision is answered as accepted only for the interrupt that the task
    showed when the route read it: the task was the user's, its interrupt has
    an identifier, the kind of the signal and, for a plan or a workflow, the
    revision and the hash that the signal names; the stored request answers
    that identifier with the signal, and the signal is neither an Executor
    event nor a cancellation. *)
Theorem decision_answers_shown_interrupt id b user w status a w' :
  agent_reachable fp signal digest (a_db w) → afair runs w → resume_task id b user w = (Ok (Answered status a), w') →
  status = 202 ∧ ∃ d t i interrupt decision, runs (a_db w) d ∧ tasks d !! id = Some t ∧ k_user_id t = user ∧ k_current_interrupt t = Some i ∧
    jget "interrupt_id" i = Some (JStr interrupt) ∧ signal (JObj (rr_signal b)) = Ok decision ∧ answers i (dump decision) ∧
    (∃ again, signal (dump decision) = Ok again ∧ is_executor_boundary again = false ∧ is_cancel again = false) ∧
    ∃ d1 r, runs d d1 ∧ runs d1 (a_db w') ∧ requests d1 !! api_request_id uuid5 (rr_idempotency_key b) = Some r ∧ taken_on r ∧
      r_command r = resume_command uuid5 profile id t (rr_idempotency_key b) interrupt (dump decision).
Proof.
  intros Hok%reachable_agent_ok Hf. unfold TaskApi.resume_task. destruct (negb (valid_resume b)); [done|].
  intros [-> Hrun]%respond_answered. split; [done|]. pattern w'. apply (wp_answer _ _ _ _ _ Hrun). clear Hrun.
  apply wp_bind, owned_task_wp; [done| |by intros..]. intros t w1 H1 Ht Hu. pose proof H1 as (F1 & R1 & _). cbn beta.
  assert (Hok1 : agent_ok (a_db w1)) by by eapply agent_run_ok.
  apply wp_bind, wp_lift. destruct (signal _) as [decision|e] eqn:Es; [|done]. cbv zeta.
  apply wp_bind, wp_lift. destruct (validate_signal_against_interrupt _ _) as [[]|e] eqn:Ev; [|done]. apply validate_signal_Ok in Ev as (i & Ei & Ha).
  apply wp_bind, wp_lift. rewrite Ei. destruct (required_interrupt_id (Some i)) as [interrupt|e] eqn:Eint; [|done].
  assert (Hint : jget "interrupt_id" i = Some (JStr interrupt)).
  { cbn in Eint. destruct (jget "interrupt_id" i) as [[]|]; try done. destruct (String.eqb s ""); [done|]. by injection Eint as ->. }
  eapply wp_mono; [by apply accept_command_wp|]. intros x w2 Hx E. destruct (Hx a E) as (r & d2 & t2 & (d1 & Hd1 & Hd1' & Hr & Hc) & Htk & _).
  exists (a_db w1), t, i, interrupt, decision. split_and!; try done; [|by exists d1, r; split_and!].
  assert (Hd : agent_ok d1) by by eapply agent_run_ok. destruct (ok_request _ _ _ _ _ _ _ _ _ Hd _ _ Hr) as [_ Hv _ _ _ _ _].
  rewrite Hc in Hv. by apply (resume_valid _ _ Hv).
Qed.

(** What a route answers about a task that is not the user's, or not there. *)
Definition unseen {A} (x : result (reply A)) (w w' : aworld) : Prop :=
  after runs w w' [] ∧ (x = Ok (Refusal 404 (JStr "Task not found")) ∨ x = Ok validation_error ∨ x = Ok internal_error ∨ x = Err CancelledError).

Lemma wp_respond {A} status (m : proc aworld A) Q w :
  wp m (λ x w', match x with
                | Ok a => Q (Ok (Answered status a)) w'
                | Err (HTTPException code detail) => Q (Ok (Refusal code detail)) w'
                | Err CancelledError => Q (Err CancelledError) w'
                | Err _ => Q (Ok internal_error) w'
                end) w → wp (respond status m) Q w.
Proof.
  intros Hm. apply run_wp. unfold respond, try_except, mbind, proc_bind. intros x w'. destruct (m w) as [y w1] eqn:Em.
  pose proof (wp_run _ _ _ _ _ Hm Em) as Hy. destruct y as [a|e]; [by intros [= <- <-]|]. by destruct e; intros [= <- <-].
Qed.

Lemma unseen_task {A} id user status (f : task_row → proc aworld A) t (w : aworld) :
  afair runs w → agent_ok (a_db w) → tasks (a_db w) !! id = Some t → k_user_id t ≠ user →
  wp (respond status (task ← owned_task id user; f task)) (λ x w', unseen x w w') w.
Proof.
  intros Hf Hok Ht Hu. apply wp_respond, wp_bind, owned_task_wp; [done|..].
  - intros t1 w1 H1 Ht1 Hk. exfalso. pose proof H1 as (_ & R1 & _).
    destruct (agent_run_grows _ _ _ _ _ R1 Hok) as (_ & Hg & _). destruct (Hg _ _ Ht) as (t' & Ht' & ((Eu & _) & _)).
    rewrite Ht1 in Ht'. injection Ht' as <-. congruence.
  - intros w1 H1 _. unfold not_found, http_error. split; [done|by left].
  - intros w1 e H1. by destruct e; (split; [done|]; auto).
Qed.

(** C20. Only the owner of a task reads it, streams its events or acts on it:
    to everybody else each route answers as if there were no task (or with a
    fault), and it neither commits a transaction nor touches a graph or the
    Executor. *)
Theorem only_owner_acts serial turns id t user last rb cb w :
  agent_reachable fp signal digest (a_db w) → afair runs w → tasks (a_db w) !! id = Some t → k_user_id t ≠ user →
  wp (get_task_route id user) (λ x w', unseen x w w') w ∧ wp (resume_task id rb user) (λ x w', unseen x w w') w ∧
  wp (cancel_task id cb user) (λ x w', unseen x w w') w ∧
  wp (task_events_route serial turns id user last) (λ x w', unseen x w w') w.
Proof.
  intros Hok%reachable_agent_ok Hf Ht Hu.
  assert (Hinvalid : ∀ A, wp (mret validation_error) (λ (x : result (reply A)) w', unseen x w w') w)
    by (intros A; apply wp_ret; split; [by apply after_refl; [apply _|]|auto]).
  split_and!.
  - by eapply unseen_task.
  - unfold TaskApi.resume_task. destruct (negb _); [done|]. by eapply unseen_task.
  - unfold TaskApi.cancel_task. destruct (negb _); [done|]. by eapply unseen_task.
  - unfold task_events_route. apply wp_bind.
    eapply wp_mono; [by eapply (unseen_task id user 200 (λ _, lift_result (start_cursor last)))|].
    intros [[code c|code detail]|e] w1 [H1 Hx]; [exfalso; by destruct Hx as [|[|[|]]]| |].
    + apply wp_ret. split; [done|]. unfold validation_error, internal_error in *. naive_solver.
    + split; [done|]. destruct Hx as [|[|[|[= ->]]]]; [done..|by auto].
Qed.

(** Input that the routes do not expect is answered as an internal error: a
    decision that no signal model accepts, and a [Last-Event-ID] that is no
    number. *)
Theorem malformed_signal_is_internal_error id b user t t1 t2 rest db log m :
  valid_resume b = true → signal (JObj (rr_signal b)) = Err (ValueError m) → tasks db !! id = Some t → k_user_id t = user →
  (∀ d, at_env t1 d = d) → at_out t1 = ADone t2 →
  (resume_task id b user (mk_aworld db (t1 :: rest) log)).1 = Ok internal_error.
Proof.
  intros Hv Hs Ht Hu He Ho. unfold TaskApi.resume_task. rewrite Hv. cbn [negb].
  unfold respond, try_except, owned_task, stored_task, adb_read, adraw, gets, guard_or, lift_result, mbind, proc_bind, mret, proc_ret.
  cbn [a_sched a_db a_log]. rewrite Ho, He. cbn [a_db]. rewrite Ht, Hu, String.eqb_refl, Hs. done.
Qed.
Theorem bad_last_event_id_is_internal_error serial turns id user t t1 t2 rest db log last :
  last ≠ "" → py_int last = None → tasks db !! id = Some t → k_user_id t = user →
  (∀ d, at_env t1 d = d) → at_out t1 = ADone t2 →
  (task_events_route serial turns id user (Some last) (mk_aworld db (t1 :: rest) log)).1 = Ok internal_error.
Proof.
  intros Hl Hp Ht Hu He Ho. unfold task_events_route.
  unfold respond, try_except, owned_task, stored_task, adb_read, adraw, gets, guard_or, lift_result, mbind, proc_bind, mret, proc_ret.
  cbn [a_sched a_db a_log]. rewrite Ho, He. cbn [a_db]. rewrite Ht, Hu, String.eqb_refl. unfold start_cursor.
  rewrite (proj2 (String.eqb_neq _ _)), Hp by done. done.
Qed.
End TaskRoutes.

(** ** The event stream *)

Lemma filter_sorted {A} (R : relation A) (P : A → Prop) `{!∀ x, Decision (P x)} l : StronglySorted R l → StronglySorted R (filter P l).
Proof.
  induction 1 as [|x l Hl IH Hx]; [constructor|]. rewrite filter_cons. case_decide; [|done]. constructor; [done|].
  apply Forall_forall. intros y [_ Hy]%list_elem_of_filter. rewrite Forall_forall in Hx. auto.
Qed.

Lemma filter_above (key : Z * task_event → Z) page rest row : StronglySorted (λ x y, key x < key y) (page ++ rest) → last page = Some row →
  filter (λ x, key row < key x) (page ++ rest) = rest.
Proof.
  intros Hs (page' & ->)%last_Some. rewrite <- app_assoc in Hs |- *. cbn [app] in *. rewrite filter_app.
  apply StronglySorted_app in Hs as (Hall & _ & Hs). apply StronglySorted_inv in Hs as [_ Hrest]. rewrite Forall_forall in Hrest.
  rewrite filter_cons_False by lia. rewrite (filter_all _ rest) by done. rewrite filter_none; [done|].
  intros x Hx. specialize (Hall x row Hx (list_elem_of_here _ _)). lia.
Qed.

Definition events_in (frames : list frame) : list (Z * task_event) :=
  omap (λ f, match f with EventFrame id e => Some (id, e) | Keepalive => None end) frames.
Lemma events_in_app l l' : events_in (l ++ l') = events_in l ++ events_in l'.
Proof. apply omap_app. Qed.
Lemma events_in_page (page : list (Z * task_event)) : events_in (map event_frame page) = page.
Proof. induction page as [|[i e] page IH]; [done|]. simpl. by rewrite IH. Qed.

Section EventStream.
Context (fp : ApiRequest → string) (signal : json → result ResumeSignal) (digest : json → string).
Abbreviation runs := (rtc (agent_step fp signal digest)).
Abbreviation agent_ok := (agent_ok fp signal digest).
Context (serial : nat → Z) (serial_increasing : ∀ i j, (i < j)%nat → serial i < serial j).
Abbreviation events_since := (events_since serial).

Lemma event_rows_sorted d : StronglySorted (λ x y, x.1 < y.1) (event_rows serial d).
Proof using serial_increasing.
  unfold event_rows. assert (H : ∀ l k, StronglySorted (λ x y : Z * task_event, x.1 < y.1) (imap (λ n e, (serial (k + n)%nat, e)) l)); [|apply (H _ O)].
  induction l as [|e l IH]; intros k; [constructor|]. rewrite imap_cons. constructor.
  - specialize (IH (S k)). erewrite imap_ext; [exact IH|]. intros n x _. cbn. do 2 f_equal. lia.
  - apply Forall_forall. intros x Hx. apply list_elem_of_lookup in Hx as (n & Hn). rewrite list_lookup_imap in Hn.
    destruct (l !! n); [|done]. injection Hn as <-. cbn. apply serial_increasing. lia.
Qed.

Lemma events_grow task c d d' : task_events d `prefix_of` task_events d' → events_since task c d `prefix_of` events_since task c d'.
Proof. intros [ext E]. unfold TaskApi.events_since, event_rows. rewrite E, imap_app, filter_app. by eexists. Qed.

(** What was sent from [c] to [c'] is all there ever is between them. *)
Definition sends_all (task : uuid) (c : Z) (frames : list frame) (c' : Z) (d : adb) : Prop :=
  ∀ d2, task_events d `prefix_of` task_events d2 → events_since task c d2 = events_in frames ++ events_since task c' d2.

Lemma page_sends_all task c limit d row : last (events_after serial task c limit d) = Some row →
  sends_all task c (map event_frame (events_after serial task c limit d)) row.1 d.
Proof using serial_increasing.
  intros Hl d2 Hp. rewrite events_in_page. destruct (events_grow task c d d2 Hp) as [ext E].
  unfold events_after in *. rewrite <- (take_drop limit (events_since task c d)), <- app_assoc in E. rewrite E at 1. f_equal.
  set (page := take limit _) in *. set (rest := drop limit _ ++ ext) in *.
  assert (Hin : c < row.1).
  { assert (Hr : row ∈ page) by (apply last_Some in Hl as (l & ->); apply elem_of_app; right; apply list_elem_of_here).
    apply elem_of_take_elem in Hr. unfold TaskApi.events_since in Hr. apply list_elem_of_filter in Hr as [[_ ?] _]. done. }
  assert (Hs : StronglySorted (λ x y : Z * task_event, x.1 < y.1) (page ++ rest)).
  { rewrite <- E. apply filter_sorted, event_rows_sorted. }
  rewrite <- (filter_above fst page rest row Hs Hl) at 1. rewrite <- E. unfold TaskApi.events_since. rewrite list_filter_filter.
  apply list_filter_iff. intros x. naive_solver lia.
Qed.

Lemma run_events d d' : agent_ok d → runs d d' → task_events d `prefix_of` task_events d'.
Proof. intros Hok Hr. by destruct (agent_run_grows _ _ _ _ _ Hr Hok) as (_ & _ & _ & ? & _). Qed.

Lemma draw_wp {A} (f : atick → proc aworld A) Q w : afair runs w →
  (∀ t w1, after runs w w1 [] → wp (f t) Q w1) → wp (adraw ≫= f) Q w.
Proof. intros Hf H. apply wp_bind, (wp_adraw runs); done. Qed.

(** A turn sends a page, or a keepalive when there was nothing to send. *)
Definition turn_sends (task : uuid) (c : Z) (x : result (option (list frame * Z))) (w w' : aworld) : Prop :=
  after runs w w' [] ∧ ∀ frames c', x = Ok (Some (frames, c')) →
    ∃ d, runs (a_db w) d ∧ runs d (a_db w') ∧ sends_all task c frames c' d ∧
      (Keepalive ∈ frames → frames = [Keepalive] ∧ c' = c ∧ events_since task c d = []).

Lemma stream_turn_wp task c w : afair runs w → agent_ok (a_db w) →
  wp (stream_turn serial task c) (λ x w', turn_sends task c x w w') w.
Proof using serial_increasing.
  intros Hf Hok. apply wp_bind, draw_wp; [done|]. intros t w1 H1. pose proof H1 as (F1 & R1 & _).
  assert (Hgo : wp (events ← adb_read (λ _ d, Ok (events_after serial task c 100 d));
      match last events with
      | Some row => mret (Some (map event_frame events, row.1))
      | None => notification ← get_message; mret (Some (match notification with None => [Keepalive] | Some _ => [] end, c))
      end) (λ x w', turn_sends task c x w w') w1).
  2:{ destruct (at_out t) as [[]|e|e]; first [apply wp_ret|by apply wp_throw]; first [exact Hgo|by apply wp_ret]. }
  apply wp_bind, (wp_adb_read runs); [done| |].
  2:{ intros w2 e H2. split; [by eapply (after_trans _ w w1 w2 [] [])|done]. }
  intros _ w2 H2. pose proof (after_trans runs _ _ _ _ _ H1 H2) as H12. pose proof H12 as (F2 & R2 & _). cbn beta.
  destruct (last (events_after serial task c 100 (a_db w2))) as [row|] eqn:El.
  - apply wp_ret. split; [done|]. intros frames c' [= <- <-]. exists (a_db w2). split_and!; [done|reflexivity|by apply page_sends_all|].
    intros (x & Hx & _)%list_elem_of_fmap. by destruct x.
  - apply last_None in El. unfold events_after in El. destruct (events_since task c (a_db w2)) eqn:Ee; [|done].
    assert (Hquiet : ∀ (p : list frame) w3, p = [Keepalive] ∨ p = [] → after runs w2 w3 [] → turn_sends task c (Ok (Some (p, c))) w w3).
    { intros p w3 Hp H3. pose proof H3 as (_ & R3 & _). split; [by eapply (after_trans _ w w2 w3 [] [])|]. intros frames c' [= <- <-].
      exists (a_db w2). split_and!; [done|done| |].
      - intros d2 _. by destruct Hp as [->| ->].
      - intros Hk. split_and!; [|done|done]. destruct Hp as [->| ->]; [done|by apply not_elem_of_nil in Hk]. }
    apply wp_bind, draw_wp; [done|]. intros t2 w3 H3. destruct (at_out t2) as [[]|e|e];
      first [apply wp_ret, wp_ret; apply Hquiet; by auto|apply wp_throw; split; [by eapply (after_trans _ w w2 w3 [] [])|done]].
Qed.

(** What a stream has sent when it ends: everything between its cursors, and
    at every keepalive everything there was. *)
Definition streamed (task : uuid) (c : Z) (frames : list frame) (w w' : aworld) : Prop :=
  (∃ c', sends_all task c frames c' (a_db w')) ∧
  ∀ fs1 fs2, frames = fs1 ++ Keepalive :: fs2 → ∃ d, runs (a_db w) d ∧ runs d (a_db w') ∧ events_in fs1 = events_since task c d.

Lemma streamed_nothing task c w w' : streamed task c [] w w'.
Proof. split; [by exists c|]. by intros [] ? [=]. Qed.

Lemma streamed_turn task c frames c' d rest w w1 w2 : agent_ok (a_db w) →
  runs (a_db w) d → runs d (a_db w1) → sends_all task c frames c' d →
  (Keepalive ∈ frames → frames = [Keepalive] ∧ c' = c ∧ events_since task c d = []) →
  runs (a_db w1) (a_db w2) → streamed task c' rest w1 w2 → streamed task c (frames ++ rest) w w2.
Proof.
  intros Hok H1 H2 Hs Hk H3 [[c2 Hr] Hkr]. assert (Hd : agent_ok d) by by eapply agent_run_ok.
  split.
  - exists c2. intros d2 Hp. rewrite (Hs d2), (Hr d2), events_in_app, app_assoc; [done|done|].
    etransitivity; [|exact Hp]. apply run_events; [done|by etransitivity].
  - intros fs1 fs2 E. destruct (decide (Keepalive ∈ frames)) as [Hin|Hin].
    + destruct (Hk Hin) as (-> & -> & Hempty). destruct fs1 as [|f fs1]; cbn [app] in E; [|].
      * exists d. split_and!; [done|by etransitivity|done].
      * injection E as <- E. destruct (Hkr _ _ E) as (d2 & ? & ? & ?). exists d2. split_and!; [by etransitivity; [|etransitivity]|done|done].
    + assert (∃ fs, fs1 = frames ++ fs ∧ rest = fs ++ Keepalive :: fs2) as (fs & -> & E').
      { clear -E Hin. revert fs1 E. induction frames as [|f frames IH]; intros fs1 E; [by exists fs1|].
        destruct fs1 as [|g fs1]; injection E as -> E; [by destruct Hin; left|].
        destruct (IH (λ Hk, Hin (list_elem_of_further _ _ _ Hk)) _ E) as (fs & -> & ?). by exists fs. }
      destruct (Hkr _ _ E') as (d2 & G1 & G2 & G3). exists d2. split_and!; [by etransitivity; [|etransitivity]|done|].
      rewrite events_in_app, G3. symmetry. apply Hs, run_events; [done|by etransitivity].
Qed.

Lemma stream_loop_wp turns task c w : afair runs w → agent_ok (a_db w) →
  wp (stream_loop serial turns task c) (λ x w', after runs w w' [] ∧ ∀ frames ended, x = Ok (frames, ended) → streamed task c frames w w') w.
Proof using serial_increasing.
  revert c w. induction turns as [|turns IH]; intros c w Hf Hok.
  { apply wp_ret. split; [by apply after_refl; [apply _|]|]. intros ?? [= <- _]. apply streamed_nothing. }
  cbn [stream_loop]. apply wp_bind, wp_try, wp_bind. eapply wp_mono; [by apply stream_turn_wp|].
  intros [[[frames c']|]|e] w1 [H1 Hx].
  - apply wp_ret. destruct (Hx _ _ eq_refl) as (d & Hd & Hd1 & Hs & Hk). pose proof H1 as (F1 & R1 & _).
    assert (Hok1 : agent_ok (a_db w1)) by by eapply agent_run_ok.
    apply wp_bind. eapply wp_mono; [by apply IH|]. intros [[rest ended]|e] w2 [H2 Hr].
    + apply wp_ret. split; [by eapply (after_trans _ w w1 w2 [] [])|]. intros ?? [= <- _]. pose proof H2 as (_ & R2 & _).
      by eapply streamed_turn; [done|exact Hd|exact Hd1|..|by eapply Hr].
    + split; [by eapply (after_trans _ w w1 w2 [] [])|done].
  - apply wp_ret, wp_ret. split; [done|]. intros ?? [= <- _]. apply streamed_nothing.
  - apply wp_ret, wp_ret. split; [done|]. intros ?? [= <- _]. apply streamed_nothing.
Qed.
End EventStream.

(** ** The client of the stream *)

Section Client.
Context `{LineReader} (dumps : json → string).

Definition unbroken (s : string) : Prop := string_all (λ c, ¬ line_break c) s.

(** A text in lines. *)
Definition frame_lines (f : frame) : list string :=
  match f with
  | EventFrame id e => ["id: " +:+ int_str id; "event: " +:+ te_type e; "data: " +:+ dumps (te_payload e); ""]
  | Keepalive => [": keepalive"; ""]
  end.
Definition lines_text (ls : list string) : string := String.concat "" (map end_line ls).

Lemma concat_cons (s : string) l : String.concat "" (s :: l) = s +:+ String.concat "" l.
Proof. destruct l as [|t l]; [by rewrite string_app_nil|done]. Qed.
Lemma lines_text_app l l' : lines_text (l ++ l') = lines_text l +:+ lines_text l'.
Proof.
  unfold lines_text. induction l as [|s l IH]; [done|]. cbn [map app]. by rewrite !concat_cons, IH, string_app_assoc.
Qed.
Lemma stream_text_lines frames : stream_text dumps frames = lines_text (frames ≫= frame_lines).
Proof.
  unfold stream_text. induction frames as [|f frames IH]; [done|]. cbn [map mbind list_bind].
  rewrite concat_cons, IH. change (list_bind _ _ frame_lines frames) with (frames ≫= frame_lines). rewrite lines_text_app. f_equal.
  unfold lines_text. destruct f as [id e|]; cbn [frame_text frame_lines map]; by rewrite !concat_cons, ?string_app_nil.
Qed.

Lemma printable_unbroken_text s : string_all (λ c, (32 ≤ N_of_ascii c < 127)%N) s → unbroken s.
Proof. apply string_all_impl. intros c. apply printable_unbroken. Qed.
Definition printable (s : string) : bool := forallb (λ c, (32 <=? N_of_ascii c)%N && (N_of_ascii c <? 127)%N) (String.list_ascii_of_string s).
Lemma literal_unbroken s : printable s = true → unbroken s.
Proof.
  intros Hs. apply printable_unbroken_text. induction s as [|c s IH]; [done|]. cbn in Hs. apply andb_true_iff in Hs as [Hc Hs].
  split; [|by apply IH]. apply andb_true_iff in Hc as [?%N.leb_le ?%N.ltb_lt]. done.
Qed.
Lemma digit_printable c : is_digit 10 c → (32 ≤ N_of_ascii c < 127)%N.
Proof. intros (d & Hd & ->). unfold digit_char. rewrite (proj2 (N.ltb_lt d 10)) by done. rewrite N_ascii_embedding; lia. Qed.
Lemma int_str_unbroken z : unbroken (int_str z).
Proof.
  assert (Hn : ∀ n, unbroken (N_str n)).
  { intros n. apply printable_unbroken_text. eapply string_all_impl; [|by apply (put_digits_all 10)]. apply digit_printable. }
  destruct z as [|p|p]; [apply (Hn 0%N)|apply (Hn (N.pos p))|]. split; [by apply printable_unbroken|apply Hn].
Qed.
Lemma unbroken_app s t : unbroken s → unbroken t → unbroken (s +:+ t).
Proof. intros. by apply string_all_app. Qed.

(** Events that can be told in lines. *)
Definition tellable (e : task_event) : Prop := unbroken (te_type e) ∧ unbroken (dumps (te_payload e)).
Lemma frame_lines_unbroken f : (∀ id e, f = EventFrame id e → tellable e) → Forall unbroken (frame_lines f).
Proof.
  intros Hf. destruct f as [id e|]; cbn [frame_lines]; rewrite !Forall_cons; [destruct (Hf id e eq_refl) as [Ht Hp]|]; split_and?;
    try done; try (by apply literal_unbroken); (apply unbroken_app; [by apply literal_unbroken|]); [apply int_str_unbroken|done|done].
Qed.

(** *** Reading *)

Lemma strip_space s : strip (String " " s) = strip s.
Proof. done. Qed.
Lemma drop_prefix_app n s t : String.length s = n → drop_prefix n (s +:+ t) = t.
Proof.
  intros <-. unfold drop_prefix. induction s as [|c s IH].
  - change ("" +:+ t) with t. cbn [String.length]. rewrite Nat.sub_0_r. induction t as [|c t IH]; [done|]. cbn. by rewrite IH.
  - change (String c s +:+ t) with (String c (s +:+ t)). cbn [String.length]. rewrite Nat.sub_succ. exact IH.
Qed.
Lemma int_str_strip z : strip (int_str z) = int_str z.
Proof.
  apply strip_by_id. assert (Hn : ∀ n, string_all (λ c, is_space c = false) (N_str n)).
  { intros n. eapply string_all_impl; [|by apply (put_digits_all 10)]. intros c (d & Hd & ->). apply digit_char_not_space. lia. }
  destruct z as [|p|p]; [apply (Hn 0%N)|apply (Hn (N.pos p))|]. split; [done|apply Hn].
Qed.

Lemma read_id id r : read_line ("id: " +:+ int_str id) r = Ok (mk_reader (rd_cursor r) id (rd_event_type r)).
Proof.
  unfold read_line. change ("id: " +:+ int_str id) with ("id:" +:+ String " " (int_str id)).
  change (String.prefix "id:" ("id:" +:+ String " " (int_str id))) with (String.prefix "" (String " " (int_str id))).
  rewrite drop_prefix_app by done. rewrite strip_space, int_str_strip, py_int_int_str. done.
Qed.
Lemma read_event type r : ∃ t, read_line ("event: " +:+ type) r = Ok (mk_reader (rd_cursor r) (rd_event_id r) t).
Proof. eexists. unfold read_line. done. Qed.
Lemma read_data text r : read_line ("data: " +:+ text) r = Ok r.
Proof. done. Qed.

Lemma read_lines_app ls ls' r : read_lines (ls ++ ls') r = (r' ← read_lines ls r; read_lines ls' r').
Proof. revert r. induction ls as [|l ls IH]; intros r; [done|]. cbn [app read_lines]. destruct (read_line l r); [apply IH|done]. Qed.

(** A complete frame moves the cursor to its event; one that is cut does not
    move it. *)
Lemma read_frame f r : ∃ i, read_lines (frame_lines f) r = Ok (mk_reader (Z.max (rd_cursor r) i) i "") ∧
  i = match f with EventFrame id _ => id | Keepalive => rd_event_id r end.
Proof.
  destruct f as [id e|]; eexists; (split; [|reflexivity]); [|done]. cbn [frame_lines read_lines]. rewrite read_id. cbn [mbind result_bind].
  edestruct read_event as [t ->]. done.
Qed.
Lemma read_cut_frame f m r : (m < length (frame_lines f))%nat → ∃ r', read_lines (take m (frame_lines f)) r = Ok r' ∧ rd_cursor r' = rd_cursor r.
Proof.
  intros Hm. destruct f as [id e|]; cbn [frame_lines length] in *.
  - destruct m as [|m]; [by eexists|]. cbn [take read_lines]. rewrite read_id. cbn [mbind result_bind].
    destruct m as [|m]; [by eexists|]. cbn [take read_lines]. edestruct read_event as [t ->]. cbn [mbind result_bind].
    destruct m as [|[|m]]; [by eexists..|lia].
  - destruct m as [|[|m]]; [by eexists..|lia].
Qed.

(** The frames that are complete within [m] lines. *)
Fixpoint received_frames (m : nat) (frames : list frame) : list frame :=
  match frames with
  | [] => []
  | f :: frames' => if (length (frame_lines f) <=? m)%nat then f :: received_frames (m - length (frame_lines f)) frames' else []
  end.
Lemma received_prefix m frames : received_frames m frames `prefix_of` frames.
Proof.
  revert m. induction frames as [|f frames IH]; intros m; [done|]. cbn [received_frames]. destruct (_ <=? m)%nat; [apply prefix_cons, IH|apply prefix_nil].
Qed.

Definition increasing_from (c : Z) (rows : list (Z * task_event)) : Prop :=
  StronglySorted (λ x y, x.1 < y.1) rows ∧ ∀ x, x ∈ rows → c < x.1.

Lemma read_stream m frames r : rd_event_id r ≤ rd_cursor r → increasing_from (rd_cursor r) (events_in frames) →
  ∃ r', read_lines (take m (frames ≫= frame_lines)) r = Ok r' ∧
    rd_cursor r' = default (rd_cursor r) (fst <$> last (events_in (received_frames m frames))).
Proof.
  revert m r. induction frames as [|f frames IH]; intros m r Hr [Hs Hc]; [destruct m; by exists r|].
  cbn [mbind list_bind received_frames]. change (list_bind _ _ frame_lines frames) with (frames ≫= frame_lines).
  rewrite take_app. destruct (Nat.leb_spec (length (frame_lines f)) m) as [Hm|Hm].
  - rewrite take_ge by done. rewrite read_lines_app. destruct (read_frame f r) as (i & -> & Hi). cbn [mbind result_bind].
    destruct f as [id e|]; subst i.
    + cbn [events_in omap list_omap] in Hs, Hc. assert (Hid : rd_cursor r < id) by (apply (Hc (id, e)); left).
      apply StronglySorted_inv in Hs as [Hs Hall]. rewrite Forall_forall in Hall.
      destruct (IH (m - length (frame_lines (EventFrame id e)))%nat (mk_reader (Z.max (rd_cursor r) id) id "")) as (r' & -> & Hr').
      { cbn. lia. }
      { split; [done|]. intros x Hx. cbn. specialize (Hall x Hx). cbn in Hall. lia. }
      exists r'. split; [done|]. rewrite Hr'. cbn [rd_cursor]. change (events_in (EventFrame id e :: ?l)) with ((id, e) :: events_in l).
      destruct (events_in (received_frames _ frames)) as [|x l] eqn:El; [cbn; lia|]. rewrite last_cons_cons.
      destruct (last (x :: l)) as [y|] eqn:Elast; [done|]. by apply last_None in Elast.
    + destruct (IH (m - length (frame_lines Keepalive))%nat (mk_reader (Z.max (rd_cursor r) (rd_event_id r)) (rd_event_id r) "")) as (r' & -> & Hr').
      { cbn. lia. }
      { rewrite Z.max_l by done. by split. }
      exists r'. split; [done|]. rewrite Hr'. cbn [rd_cursor]. by rewrite Z.max_l.
  - replace (m - length (frame_lines f))%nat with O by lia. rewrite take_0, app_nil_r. cbn. by apply read_cut_frame.
Qed.
End Client.

(** ** What reaches a client *)

Section Delivery.
Context (fp : ApiRequest → string) (signal : json → result ResumeSignal) (digest : json → string).
Abbreviation runs := (rtc (agent_step fp signal digest)).
Abbreviation agent_ok := (agent_ok fp signal digest).
Context (serial : nat → Z) (serial_increasing : ∀ i j, (i < j)%nat → serial i < serial j).
Abbreviation events_since := (events_since serial).
Context (task : uuid) (user : string).

Lemma route_streams turns last w status frames ended w' : afair runs w → agent_ok (a_db w) →
  task_events_route serial turns task user last w = (Ok (Answered status (frames, ended)), w') →
  status = 200 ∧ runs (a_db w) (a_db w') ∧ ∃ c w1, start_cursor last = Ok c ∧ runs (a_db w) (a_db w1) ∧ runs (a_db w1) (a_db w') ∧
    streamed fp signal digest serial task c frames w1 w' ∧ ∃ t, tasks (a_db w1) !! task = Some t ∧ k_user_id t = user.
Proof using serial_increasing.
  intros Hf Hok. unfold task_events_route, mbind at 1, proc_bind at 1.
  destruct (respond 200 _ w) as [[[code c|]|] w0] eqn:Eo; try done. apply respond_answered in Eo as [-> Eo].
  assert (Howned : after runs w w0 [] ∧ start_cursor last = Ok c ∧ ∃ t, tasks (a_db w0) !! task = Some t ∧ k_user_id t = user).
  { pattern w0. apply (wp_answer _ _ _ _ _ Eo). clear Eo. apply wp_bind, (owned_task_wp fp signal digest); [done|..]; try by intros.
    intros t w1 H1 Ht Hu. apply wp_lift. intros E. split_and!; [done|done|by exists t]. }
  destruct Howned as (H0 & Hc & Hown). pose proof H0 as (F0 & R0 & _).
  assert (Hok0 : agent_ok (a_db w0)) by by eapply agent_run_ok.
  assert (Hwp : wp (try_except (subscribe;; stream_loop serial turns task c) (λ e, mret ([], Some e)))
    (λ x w1, runs (a_db w0) (a_db w1) ∧ ∀ p, x = Ok p → streamed fp signal digest serial task c p.1 w0 w1) w0).
  { apply wp_try, wp_bind, (draw_wp fp signal digest); [done|]. intros t w1 H1. pose proof H1 as (F1 & R1 & _).
    assert (Hok1 : agent_ok (a_db w1)) by by eapply agent_run_ok.
    destruct (at_out t); [apply wp_ret|apply wp_throw, wp_ret; split; [done|]; intros ? [= <-]; apply streamed_nothing..].
    eapply wp_mono; [by apply (stream_loop_wp fp signal digest serial serial_increasing)|]. intros [[fs en]|e] w2 [H2 Hs].
    - pose proof H2 as (_ & R2 & _). split; [by etransitivity|]. intros ? [= <-]. destruct (Hs _ _ eq_refl) as [Hc' Hk].
      split; [done|]. intros fs1 fs2 E. destruct (Hk _ _ E) as (d & ? & ? & ?). exists d. split_and!; [by etransitivity|done|done].
    - pose proof H2 as (_ & R2 & _). apply wp_ret. split; [by etransitivity|]. intros ? [= <-]. apply streamed_nothing. }
  unfold mbind, proc_bind. destruct (try_except _ _ w0) as [[[fs en]|e] w1] eqn:Et; [|done].
  destruct (wp_run _ _ _ _ _ Hwp Et) as [R1 Hs]. intros [= <- <- <- <-]. split_and!; [done|by etransitivity|].
  exists c, w0. split_and!; [done|done|done|by apply (Hs (fs, en))|done].
Qed.

(** The stream gives its reader, who owns the task, the task's events after
    the cursor in order, each once and none left out; and when it sends a
    keepalive, the reader had every event that was stored at a moment of the
    stream. Other transactions run all the while. *)
Theorem events_streamed_in_order turns last w status frames ended w' :
  agent_reachable fp signal digest (a_db w) → afair runs w →
  task_events_route serial turns task user last w = (Ok (Answered status (frames, ended)), w') →
  ∃ c, start_cursor last = Ok c ∧ events_in frames `prefix_of` events_since task c (a_db w') ∧
    (∃ d t, runs (a_db w) d ∧ tasks d !! task = Some t ∧ k_user_id t = user) ∧
    ∀ fs1 fs2, frames = fs1 ++ Keepalive :: fs2 → ∃ d, runs (a_db w) d ∧ runs d (a_db w') ∧ events_in fs1 = events_since task c d.
Proof using serial_increasing.
  intros Hok%reachable_agent_ok Hf Hrun. destruct (route_streams _ _ _ _ _ _ _ Hf Hok Hrun) as (_ & _ & c & w1 & Hc & R0 & R1 & [[c' Hs] Hk] & t & Ht & Hu).
  exists c. split_and!; [done| |by exists (a_db w1), t|].
  - rewrite (Hs (a_db w')) by done. by eexists.
  - intros fs1 fs2 E. destruct (Hk _ _ E) as (d & ? & ? & ?). exists d. split_and!; [by etransitivity|done|done].
Qed.

(** A client that reads the stream, loses the connection at any point of the
    text, and comes back with the cursor of its last complete event, while the
    service goes on; [seen] are the events it received completely. *)
Inductive watches `{LineReader} (dumps : json → string) : Z → aworld → list (Z * task_event) → aworld → Prop :=
| watch_end c w : watches dumps c w [] w
| watch_connection c w turns frames ended w1 m rest more r w2 seen w3 :
    afair runs w → task_events_route serial turns task user (Some (int_str c)) w = (Ok (Answered 200 (frames, ended)), w1) →
    let received := lines_text (take m (frames ≫= frame_lines dumps)) +:+ rest in
    stream_text dumps frames = received +:+ more → unbroken rest →
    read_lines (aiter_lines received) (connected c) = Ok r →
    runs (a_db w1) (a_db w2) → watches dumps (rd_cursor r) w2 seen w3 →
    watches dumps c w (events_in (received_frames dumps m frames) ++ seen) w3.

Lemma start_cursor_int c : start_cursor (Some (int_str c)) = Ok c.
Proof.
  unfold start_cursor. assert (Hne : int_str c ≠ "") by (intros E; by pose proof (py_int_int_str c) as Hi; rewrite E in Hi).
  rewrite (proj2 (String.eqb_neq _ _)) by done. by rewrite py_int_int_str.
Qed.

Lemma since_increasing c d : increasing_from c (events_since task c d).
Proof using serial_increasing.
  split; [apply filter_sorted, event_rows_sorted; done|]. intros x Hx. unfold TaskApi.events_since in Hx. apply list_elem_of_filter in Hx. tauto.
Qed.

Lemma since_elem c id e d : (id, e) ∈ events_since task c d → e ∈ task_events d.
Proof.
  intros [_ Hx]%list_elem_of_filter. unfold event_rows in Hx. apply list_elem_of_lookup in Hx as (n & Hn). rewrite list_lookup_imap in Hn.
  destruct (task_events d !! n) as [y|] eqn:Ey; [|done]. injection Hn as _ <-. by eapply list_elem_of_lookup_2.
Qed.

(** What is left after the complete frames of a cut stream. *)
Lemma cut_leaves c fs1 fs2 c1 d : sends_all serial task c (fs1 ++ fs2) c1 d →
  sends_all serial task c fs1 (default c (fst <$> last (events_in fs1))) d.
Proof using serial_increasing.
  intros Hs d2 Hp. specialize (Hs d2 Hp). rewrite events_in_app, <- app_assoc in Hs.
  destruct (last (events_in fs1)) as [row|] eqn:El; [|apply last_None in El; by rewrite El].
  rewrite Hs. f_equal. destruct (since_increasing c d2) as [Hinc Hc]. rewrite Hs in Hinc, Hc.
  rewrite <- (filter_above fst _ _ _ Hinc El), <- Hs at 1. cbn [default fmap option_fmap option_map]. unfold TaskApi.events_since. rewrite list_filter_filter.
  assert (Hrow : c < row.1). { apply Hc, elem_of_app. left. apply last_Some in El as (l & ->). apply elem_of_app. right. apply list_elem_of_here. }
  apply list_filter_iff. intros x. naive_solver lia.
Qed.

(** C35. Over any number of lost connections a client of the stream receives
    every event of the task once and in order: what it received completely is
    the beginning of the task's events after its first cursor, however the
    texts were cut and whatever the service did in between; provided the ids of
    the events increase in the order of their commits, and no type and no
    payload of an event has a line break of the client's reader in its text
    (see [separator_moves_cursor]). *)
Theorem events_received_once `{LineReader} dumps c w seen w' : agent_reachable fp signal digest (a_db w) →
  Forall (tellable dumps) (task_events (a_db w')) → watches dumps c w seen w' → seen `prefix_of` events_since task c (a_db w').
Proof using serial_increasing.
  intros Hok%reachable_agent_ok Htell Hw.
  enough (Hall : runs (a_db w) (a_db w') ∧ ∃ c', sends_all serial task c (map event_frame seen) c' (a_db w')).
  { destruct Hall as (_ & c' & Hs). rewrite (Hs (a_db w')), events_in_page by done. by eexists. }
  revert Hok Htell. induction Hw as [c w|c w turns frames ended w1 m rest more r w2 seen w3 Hf Hrun received Htext Hrest Hread R2 Hw IH]; intros Hok Htell.
  { split; [done|]. exists c. by intros d2 _. }
  destruct (route_streams _ _ _ _ _ _ _ Hf Hok Hrun) as (_ & R1 & c0 & w0 & Hc0 & R0 & R01 & [[c1 Hs] _] & _).
  rewrite start_cursor_int in Hc0. injection Hc0 as <-.
  pose proof (agent_run_ok _ _ _ _ _ R1 Hok) as Hok1. pose proof (agent_run_ok _ _ _ _ _ R2 Hok1) as Hok2.
  destruct (IH Hok2 Htell) as (R3 & c' & Hseen). split; [etransitivity; [exact R1|]; by etransitivity|].
  destruct (received_prefix dumps m frames) as [others Eothers].
  assert (Hinc : increasing_from c (events_in frames)).
  { destruct (since_increasing c (a_db w1)) as [Hi Hc]. rewrite (Hs (a_db w1)) in Hi, Hc by done. split.
    - by apply StronglySorted_app in Hi as (_ & ? & _).
    - intros x Hx. apply Hc, elem_of_app. by left. }
  destruct (read_stream dumps m frames (connected c)) as (r' & Hr' & Hcur); [done|done|].
  assert (Hlines : aiter_lines received = take m (frames ≫= frame_lines dumps)).
  { apply aiter_lines_complete; [|done]. apply Forall_take, Forall_bind, Forall_forall. intros f Hframe. apply frame_lines_unbroken. intros id e ->.
    rewrite Forall_forall in Htell. apply Htell.
    assert (Hp : task_events (a_db w1) `prefix_of` task_events (a_db w3)) by (apply (run_events fp signal digest); [done|by etransitivity]).
    eapply elem_of_prefix; [|exact Hp]. eapply (since_elem c id). rewrite (Hs (a_db w1)) by done. apply elem_of_app. left.
    apply list_elem_of_omap. by exists (EventFrame id e). }
  rewrite Hlines, Hr' in Hread. injection Hread as ->.
  exists c'. intros d2 Hp. rewrite map_app, events_in_app, events_in_page. rewrite <- app_assoc.
  pose proof (Hseen d2 Hp) as E. rewrite events_in_page in E. rewrite events_in_page, <- E.
  rewrite Eothers in Hs. apply cut_leaves in Hs. rewrite Hcur. apply Hs.
  etransitivity; [|exact Hp]. apply (run_events fp signal digest); [done|by etransitivity].
Qed.
End Delivery.

(** ** One task

    A task that is created, waits for the review of its plan, is answered, and
    whose events are read over a connection that breaks. *)

Module OneTask.
(** Lines end at newlines only. *)
Fixpoint lines_from (current : string) (s : string) : list string :=
  match s with
  | EmptyString => []
  | String c s' => if decide (c = newline) then current :: lines_from "" s' else lines_from (current +:+ String c "") s'
  end.
Lemma lines_from_line cur l s : string_all (λ c, ¬ c = newline) l → lines_from cur (end_line l +:+ s) = (cur +:+ l) :: lines_from "" s.
Proof.
  revert cur. induction l as [|c l IH]; intros cur Hl; [by rewrite string_app_nil|].
  change (end_line (String c l) +:+ s) with (String c (end_line l +:+ s)). cbn [lines_from]. destruct Hl as [Hc Hl].
  rewrite decide_False by done. rewrite IH by done. by rewrite string_app_assoc.
Qed.
Lemma lines_from_rest cur s : string_all (λ c, ¬ c = newline) s → lines_from cur s = [].
Proof. revert cur. induction s as [|c s IH]; intros cur Hs; [done|]. cbn. destruct Hs as [Hc Hs]. rewrite decide_False by done. by apply IH. Qed.

#[export] Program Instance newline_reader : LineReader := {|
  line_break c := c = newline;
  aiter_lines := lines_from ""
|}.
Next Obligation. intros c [Hc _] ->. by vm_compute in Hc. Qed.
Next Obligation.
  intros ls rest Hls Hrest. induction Hls as [|l ls Hl _ IH]; [by apply lines_from_rest|].
  cbn [map]. rewrite concat_cons, string_app_assoc, lines_from_line by done. by rewrite IH.
Qed.

Definition fp (c : ApiRequest) : string := t_user_message (turn c).
Definition turn_fp (u : TaskTurn) : string := t_user_message u.
Definition digest (j : json) : string := "d".
Definition decision : ResumeSignal := PlanReviewDecision APPROVE 9 1 "h" None true.
Definition signal (j : json) : result ResumeSignal :=
  if bool_decide (jget "type" j = Some (JStr "PLAN_REVIEW")) then Ok decision else Err (ValueError "invalid signal").
Definition dump (s : ResumeSignal) : json :=
  JObj [("decision", JStr "APPROVE"); ("plan_revision_id", JStr (uuid_str 9)); ("plan_revision_number", JInt 1);
        ("public_payload_hash", JStr "h"); ("type", JStr "PLAN_REVIEW")].
Definition demo_uuid5 (s : string) : uuid := if String.eqb s "ex-agent/api/create-1" then 1%N else 2%N.

Definition created : TaskCreateRequest := mk_create 7 8 "plot it" "create-1".
Definition demo_turn : TaskTurn := mk_turn "u" "p" "s" (uuid_str 7) (uuid_str 8) "plot it" "basic".
Definition shown_boundary : json :=
  JObj [("kind", JStr "PLAN_REVIEW"); ("plan_revision_id", JStr (uuid_str 9)); ("plan_revision_number", JInt 1);
        ("public_payload_hash", JStr "h"); ("risk", JObj [("level", JStr "LOW")]); ("task_id", JStr (uuid_str 7))].
Definition no_state : SessionState := mk_state None None None None None ∅ ∅ ∅ None None ∅ ∅ ∅.
Definition fresh : Snapshot := mk_snapshot no_state [] [] None.
Definition waiting : Snapshot :=
  mk_snapshot (mk_state (Some demo_turn) (Some "u") (Some "p") (Some "s") (Some (uuid_str 7)) {[uuid_str 7 := "plot it"]} ∅ ∅ None
                 (Some (JObj [("phase", JStr "PLANNING")])) ∅ ∅ ∅)
    ["review_plan"] [("review_plan", [mk_interrupt "i1" shown_boundary])] None.

Definition served (r : areply) : atick := mk_atick id 10 0 (ADone r).
Definition busy : atick := mk_atick id 10 0 (ARefused (DeferEvent "busy")).
Abbreviation step := (agent_step fp signal digest).

(** Both requests are accepted while their session is busy. *)
Definition accepting (s : Snapshot) : list atick :=
  map served [ANone; ANone; ASnapshot s; ANone; ANone; ANone] ++ [busy] ++ map served [ANone; ANone; ANone].
Definition creating : aworld := mk_aworld empty_adb (accepting fresh) [].
Definition creation := create_task fp turn_fp signal demo_uuid5 3 1 false true "basic" "p" "s" created "u" creating.

Definition no_answer {A} (status : Z) (a : A) (x : result (reply A)) : A := match x with Ok (Answered _ b) => b | _ => a end.
Lemma answered_run {A} (a : A) (x : result (reply A) * aworld) status :
  match x.1 with Ok (Answered s _) => s =? status | _ => false end = true → x = (Ok (Answered status (no_answer status a x.1)), x.2).
Proof. destruct x as [[[s b|]|] w]; simpl; try done. by intros ->%Z.eqb_eq. Qed.
Definition nothing : TaskAcceptedResponse := mk_accepted 0 ACCEPTED "" "".
Lemma creation_run : creation = (Ok (Answered 202 (no_answer 202 nothing creation.1)), creation.2).
Proof. apply answered_run. vm_compute. reflexivity. Qed.
Lemma accepting_fair d s : afair (rtc step) (mk_aworld d (accepting s) []).
Proof. unfold afair, accepting. simpl. repeat (apply Forall_cons_2; [intros d'; apply rtc_refl|]). apply Forall_nil_2. Qed.

(** The task after its first turn: it waits for the review of its plan. *)
Definition state_of {A} (r : result (A * adb)) : adb := match r with Ok (_, d) => d | Err _ => empty_adb end.
Definition value_of {A} (a : A) (r : result (A * adb)) : A := match r with Ok (x, _) => x | Err _ => a end.
Definition start_command : ApiRequest := create_command demo_uuid5 "basic" "p" "s" created "u".
Definition no_row : request_row := mk_request_row start_command 0 "" "" "" None R_REJECTED 0 0 None "" "".
Definition e1 := accept fp signal 10 start_command "begin_task" None empty_adb.
Definition e2 := claim fp signal 20 1 3 1 (state_of e1).
Definition e3 := finish fp signal 30 (value_of no_row e2) R_APPLIED None 0 (state_of e2).
Definition e4 := project waiting (state_of e3).
Definition reviewing : adb := state_of e4.
Lemma commits {A} (a : A) r : match r with Ok _ => true | Err _ => false end = true → r = Ok (value_of a r, state_of r).
Proof. by destruct r as [[]|]. Qed.
Lemma projects_unit r : match r with Ok _ => true | Err _ => false end = true → r = Ok (tt, state_of r).
Proof. by destruct r as [[[] d]|]. Qed.
Lemma reviewing_reachable : agent_reachable fp signal digest reviewing.
Proof.
  eapply rtc_l; [|eapply rtc_l; [|eapply rtc_l; [|apply rtc_once]]].
  - eapply step_accept. refine (commits no_row e1 _). vm_compute. reflexivity.
  - eapply step_claim_request. refine (commits no_row e2 _). vm_compute. reflexivity.
  - eapply step_finish_request. refine (commits no_row e3 _). vm_compute. reflexivity.
  - eapply step_project. refine (projects_unit e4 _). vm_compute. reflexivity.
Qed.

Definition resumed : ResumeRequest := mk_resume "resume-1" [("type", JStr "PLAN_REVIEW")].
Definition resuming : aworld := mk_aworld reviewing (served ANone :: accepting waiting) [].
Definition resumption := resume_task fp turn_fp signal dump demo_uuid5 3 1 false true "basic" 7 resumed "u" resuming.
Lemma resumption_run : resumption = (Ok (Answered 202 (no_answer 202 nothing resumption.1)), resumption.2).
Proof. apply answered_run. vm_compute. reflexivity. Qed.
Lemma resuming_fair d s : afair (rtc step) (mk_aworld d (served ANone :: accepting s) []).
Proof. apply Forall_cons_2; [intros d'; apply rtc_refl|apply (accepting_fair d)]. Qed.

(** Its two events over a connection that breaks within the second. *)
Definition serial (n : nat) : Z := Z.of_nat n + 1.
Lemma serial_increasing i j : (i < j)%nat → serial i < serial j.
Proof. unfold serial. lia. Qed.
Definition dumps (j : json) : string := "{}".
Lemma all_tellable l : forallb (λ e, printable (te_type e)) l = true → Forall (tellable dumps) l.
Proof.
  rewrite forallb_forall. intros E. apply Forall_forall. intros e He. split; [apply literal_unbroken, E, list_elem_of_In, He|by apply literal_unbroken].
Qed.
Definition streaming (d : adb) : aworld := mk_aworld d (map served [ANone; ANone; ANone; ANone; ANone; ANone; ANone]) [].
Definition watched := task_events_route serial 2 7 "u" (Some (int_str 0)) (streaming reviewing).
Definition frames_of (x : result (reply (list frame * option exn))) : list frame := match x with Ok (Answered _ p) => p.1 | _ => [] end.
Definition row_events : list (Z * task_event) := events_since serial 7 0 reviewing.
Lemma streaming_fair d : afair (rtc step) (streaming d).
Proof. unfold afair, streaming. simpl. repeat (apply Forall_cons_2; [intros d'; apply rtc_refl|]). apply Forall_nil_2. Qed.
Lemma watched_run : watched = (Ok (Answered 200 (frames_of watched.1, None)), watched.2).
Proof.
  assert (E : match watched.1 with Ok (Answered s (_, None)) => s =? 200 | _ => false end = true) by (vm_compute; reflexivity).
  destruct watched as [[[s [fs [e|]]|]|] w]; simpl in *; try done. by apply Z.eqb_eq in E as ->.
Qed.
Lemma watched_frames : frames_of watched.1 = map event_frame row_events ++ [Keepalive] ∧ length row_events = 2%nat.
Proof. split; vm_compute; reflexivity. Qed.
End OneTask.
Import OneTask.

Lemma accepted_task_is_recorded_witness : ∃ t, tasks (a_db creation.2) !! 7%N = Some t ∧ k_user_id t = "u" ∧ k_user_message t = "plot it".
Proof.
  destruct (accepted_task_is_recorded fp turn_fp signal digest demo_uuid5 3 1 false true "basic" "p" "s" created "u" creating 202
    (no_answer 202 nothing creation.1) creation.2 (rtc_refl _ _) (accepting_fair _ _) eq_refl eq_refl creation_run)
    as (_ & _ & t & Ht & Hu & _ & _ & Hm & _).
  exists t. exact (conj Ht (conj Hu Hm)).
Defined.

Lemma decision_answers_shown_interrupt_witness : ∃ d t i r, tasks d !! 7%N = Some t ∧ k_current_interrupt t = Some i ∧
  answers i (dump decision) ∧ requests (a_db resumption.2) !! 2%N = Some r ∧ kind (r_command r) = RESUME.
Proof.
  destruct (decision_answers_shown_interrupt fp turn_fp signal digest dump demo_uuid5 3 1 false true "basic" 7 resumed "u" resuming 202
    (no_answer 202 nothing resumption.1) resumption.2 reviewing_reachable (resuming_fair _ _) resumption_run)
    as (_ & d & t & i & interrupt & s & Hd & Ht & _ & Hi & Hid & Hs & Ha & _).
  change (Ok decision = Ok s) in Hs. injection Hs as <-. exists d, t, i.
  destruct (requests (a_db resumption.2) !! 2%N) as [r|] eqn:Er.
  - exists r. split; [exact Ht|split; [exact Hi|split; [exact Ha|split; [reflexivity|]]]].
    assert (E : (kind ∘ r_command <$> requests (a_db resumption.2) !! 2%N) = Some RESUME) by (vm_compute; reflexivity).
    rewrite Er in E. by apply (inj Some) in E.
  - exfalso. assert (E : bool_decide (is_Some (requests (a_db resumption.2) !! 2%N)) = true) by (vm_compute; reflexivity).
    rewrite Er in E. discriminate E.
Defined.

Lemma only_owner_acts_witness : wp (cancel_task fp turn_fp signal demo_uuid5 3 1 false true "basic" 7 (mk_cancel "k" None) "eve")
  (λ x w', unseen fp signal digest x resuming w') resuming.
Proof.
  assert (Ht : ∃ t, tasks reviewing !! 7%N = Some t ∧ k_user_id t = "u").
  { destruct (tasks reviewing !! 7%N) as [t|] eqn:Et.
    - exists t. split; [reflexivity|]. assert (E : (k_user_id <$> tasks reviewing !! 7%N) = Some "u") by (vm_compute; reflexivity).
      rewrite Et in E. by apply (inj Some) in E.
    - assert (E : bool_decide (is_Some (tasks reviewing !! 7%N)) = true) by (vm_compute; reflexivity). rewrite Et in E. discriminate E. }
  destruct Ht as (t & Ht & Hu).
  assert (Hne : k_user_id t ≠ "eve") by (rewrite Hu; discriminate).
  exact (proj1 (proj2 (proj2 (only_owner_acts fp turn_fp signal digest dump demo_uuid5 3 1 false true "basic" serial 1 7 t "eve" None
    resumed (mk_cancel "k" None) resuming reviewing_reachable (resuming_fair _ _) Ht Hne)))).
Defined.

Lemma events_streamed_in_order_witness : events_in (frames_of watched.1) `prefix_of` events_since serial 7 0 (a_db watched.2).
Proof.
  destruct (events_streamed_in_order fp signal digest serial serial_increasing 7 "u" 2 (Some (int_str 0)) (streaming reviewing) 200
    (frames_of watched.1) None watched.2 reviewing_reachable (streaming_fair _) watched_run) as (c & Hc & Hp & _).
  rewrite start_cursor_int in Hc. injection Hc as <-. exact Hp.
Defined.

(** The client reads the first event and a part of the second, then nothing
    more. *)
Lemma events_received_once_witness : take 1 row_events `prefix_of` events_since serial 7 0 (a_db watched.2).
Proof.
  assert (Hw : ∃ r, read_lines (aiter_lines (lines_text (take 5 (frames_of watched.1 ≫= frame_lines dumps)) +:+ "eve")) (connected 0) = Ok r).
  { destruct (read_lines _ _) as [r|e] eqn:E; [by exists r|]. exfalso. revert E. vm_compute. discriminate. }
  destruct Hw as [r Hr].
  refine (events_received_once fp signal digest serial serial_increasing 7 "u" dumps 0 (streaming reviewing) (take 1 row_events) watched.2
    reviewing_reachable _ _).
  - apply all_tellable. vm_compute. reflexivity.
  - pose (received := lines_text (take 5 (frames_of watched.1 ≫= frame_lines dumps)) +:+ "eve").
    assert (E : events_in (received_frames dumps 5 (frames_of watched.1)) ++ [] = take 1 row_events) by (vm_compute; reflexivity).
    rewrite <- E. eapply (watch_connection fp signal digest serial 7 "u" dumps 0 (streaming reviewing) 2 (frames_of watched.1) None watched.2 5 "eve"
      (drop_prefix (String.length received) (stream_text dumps (frames_of watched.1))) r watched.2 [] watched.2).
    + apply streaming_fair.
    + exact watched_run.
    + vm_compute. reflexivity.
    + repeat split; discriminate.
    + exact Hr.
    + apply rtc_refl.
    + apply watch_end.
Defined.

(** ** Line separators

    [json.dumps(..., ensure_ascii=False)] leaves U+2028 in a text as it is,
    and [aiter_lines] of httpx ends a line there. A text that somebody chose,
    such as the reason an operator gave for a retry, then reads as lines of its
    own. *)

Module Separators.
Definition separator_bytes : list N := [226; 128; 168]%N.
Definition separator : string := String (ascii_of_N 226) (String (ascii_of_N 128) (String (ascii_of_N 168) "")).
(** The text with newlines for the separators. *)
Fixpoint separated (s : string) : string :=
  match s with
  | String a s1 =>
      match s1 with
      | String b (String c s3) =>
          if bool_decide ([N_of_ascii a; N_of_ascii b; N_of_ascii c] = separator_bytes) then String newline (separated s3) else String a (separated s1)
      | _ => String a (separated s1)
      end
  | EmptyString => EmptyString
  end.
Definition breaks (c : ascii) : Prop := c = newline ∨ N_of_ascii c ∈ separator_bytes.

Lemma separated_plain s : string_all (λ c, N_of_ascii c ≠ 226%N) s → separated s = s.
Proof.
  induction s as [|a s IH]; intros Hs; [done|]. destruct Hs as [Ha Hs]. cbn [separated]. rewrite IH by done.
  destruct s as [|b [|c s3]]; [done..|]. rewrite bool_decide_eq_false_2; [done|]. intros E. by injection E.
Qed.

#[export] Program Instance separator_reader : LineReader := {|
  line_break := breaks;
  aiter_lines s := OneTask.lines_from "" (separated s)
|}.
Next Obligation.
  intros c Hc [->|Hin]; [destruct Hc as [Hc _]; by vm_compute in Hc|]. unfold separator_bytes in Hin. rewrite !elem_of_cons, elem_of_nil in Hin. lia.
Qed.
Next Obligation.
  intros ls rest Hls Hrest. cbn beta. rewrite separated_plain.
  - apply (@aiter_lines_complete OneTask.newline_reader).
    + eapply Forall_impl; [exact Hls|]. intros l. apply string_all_impl. intros c Hc ->. apply Hc. by left.
    + eapply string_all_impl; [|exact Hrest]. intros c Hc ->. apply Hc. by left.
  - assert (Hp : ∀ c, ¬ breaks c → N_of_ascii c ≠ 226%N) by (intros c Hc E; apply Hc; right; rewrite E; left).
    apply string_all_app. split; [|by eapply string_all_impl; [exact Hp|]]. induction Hls as [|l ls Hl _ IH]; [done|]. cbn [map]. rewrite concat_cons.
    apply string_all_app. split; [|done]. apply string_all_app. split; [by eapply string_all_impl; [exact Hp|]|]. by split.
Qed.

Definition dumps (j : json) : string := match jget "reason" j with Some (JStr s) => s | _ => "{}" end.
Definition retry_event : task_event := mk_event 7 "task.failure_cleanup_operator_requested"
  (JObj [("reason", JStr ("please" +:+ separator +:+ "id: 999" +:+ separator +:+ separator))]).
End Separators.

(** The frame of one event moves the client's cursor to an id that its text
    names: the events between are never received. *)
Theorem separator_moves_cursor :
  rd_cursor <$> match read_lines (@aiter_lines Separators.separator_reader (frame_text Separators.dumps (EventFrame 3 Separators.retry_event)))
    (connected 2) with Ok r => Some r | Err _ => None end = Some 999.
Proof. vm_compute. reflexivity. Qed.
