(* ===== verification/ProductEvents.v ===== *)
(** * The outbox of product events
    ([ex_agent/persistence/repositories/delivery.py],
    [ProductEventPublisher] of [ex_agent/transport/streams.py],
    [agent/runtime/delivery.py])

    Task events are rows of the database that several processes relay to a
    Redis stream; a notification with the last event of each task wakes the
    event streams. Rows are claimed in one transaction, sent in one pipeline
    and settled in two more. *)

From stdpp Require Import base gmap strings list sorting.
From Stdlib Require Import ZArith Lia.
From S2P Require Import Prelude Text AgentTables.
Local Open Scope Z_scope.
Set Default Proof Using "Type".

(** ** Rows *)

Inductive delivery_state := D_PENDING | D_PUBLISHING | D_PUBLISHED.
#[export] Instance delivery_state_eq_dec : EqDecision delivery_state.
Proof. solve_decision. Defined.

(** What delivery reads and writes of a row of [agent_task_events]. *)
Record delivery_row := mk_delivery {
  v_event : task_event;
  v_state : delivery_state;
  v_attempts : Z;
  v_last_error : option string;
  v_claimed_at : option timestamp
}.
Abbreviation outbox := (gmap Z delivery_row).

(** A row as the transactions of the service add it. *)
Definition new_delivery (e : task_event) : delivery_row := mk_delivery e D_PENDING 0 None None.

(** ** Transactions ([DeliveryRepository]) *)

(** The rows a claim may take: pending ones, and those of a claim that timed
    out. *)
Definition deliverable (stale_before : timestamp) (v : delivery_row) : bool :=
  match v_state v with
  | D_PENDING => true
  | D_PUBLISHING => match v_claimed_at v with Some t => t <? stale_before | None => false end
  | D_PUBLISHED => false
  end.
Definition claim_of (claimed_at : timestamp) (v : delivery_row) : delivery_row :=
  mk_delivery (v_event v) D_PUBLISHING (v_attempts v + 1) (v_last_error v) (Some claimed_at).

Definition id_key (kv : Z * delivery_row) : sort_key := (kv.1, 0).
Definition deliverable_rows (stale_before : timestamp) (limit : Z) (t : outbox) : list (Z * delivery_row) :=
  select_page id_key (λ kv, deliverable stale_before kv.2) (Z.to_nat limit) (map_to_list t).

(** [claim_pending_task_events]: [now] is read before the transaction begins,
    [claimed_at] inside it. Rows that another transaction holds are skipped;
    here transactions follow each other. *)
Definition claim_events (now claimed_at : timestamp) (limit timeout : Z) : tx outbox (list (Z * delivery_row)) := λ t,
  let picked := deliverable_rows (now - microseconds timeout) limit t in
  Ok (map (λ kv, (kv.1, claim_of claimed_at kv.2)) picked,
      update_where (λ k _, bool_decide (k ∈ map fst picked)) (claim_of claimed_at) t).

(** [finish_task_event_publications] *)
Definition held_by (claimed_at : timestamp) (v : delivery_row) : bool :=
  bool_decide (v_state v = D_PUBLISHING) && bool_decide (v_claimed_at v = Some claimed_at).
Definition settled_event (published : bool) (error : option string) (v : delivery_row) : delivery_row :=
  mk_delivery (v_event v) (if published then D_PUBLISHED else D_PENDING) (v_attempts v) (if published then None else error) None.
Definition finish_events (ids : list Z) (claimed_at : timestamp) (published : bool) (error : option string) : tx outbox unit := λ t,
  Ok (tt, update_where (λ k v, bool_decide (k ∈ ids) && held_by claimed_at v) (settled_event published error) t).

(** [backlog_counts], the half of the task events. *)
Definition count_state (s : delivery_state) (t : outbox) : Z :=
  Z.of_nat (length (filter (λ kv, v_state kv.2 = s) (map_to_list t))).

(** ** What is sent *)

(** An entry of the stream, or a notification of the last event of a task. *)
Inductive sent := Added (fields : list (string * string)) | Notified (task : uuid) (event : Z).

Section Publisher.
Context (dumps : json → string).

(** [_event_fields] *)
Definition event_fields (id : Z) (e : task_event) : list (string * string) :=
  [("event_id", int_str id); ("task_id", uuid_str (te_task_id e)); ("event_type", te_type e); ("payload", dumps (te_payload e))].

(** [last_event_by_task]: a dict keeps the place where a key came first. *)
Fixpoint set_last (task : uuid) (id : Z) (l : list (uuid * Z)) : list (uuid * Z) :=
  match l with
  | [] => [(task, id)]
  | (k, v) :: l' => if (k =? task)%N then (k, id) :: l' else (k, v) :: set_last task id l'
  end.
Definition last_event_by_task (rows : list (Z * delivery_row)) : list (uuid * Z) :=
  foldl (λ l kv, set_last (te_task_id (v_event kv.2)) kv.1 l) [] rows.

(** The commands of the pipeline. *)
Definition pipeline_of (rows : list (Z * delivery_row)) : list sent :=
  map (λ kv, Added (event_fields kv.1 (v_event kv.2))) rows ++ map (λ kt, Notified kt.1 kt.2) (last_event_by_task rows).

(** [published_ids], [failed_ids]: [oks] tells which commands succeeded. *)
Fixpoint index_of (task : uuid) (l : list (uuid * Z)) : option nat :=
  match l with
  | [] => None
  | (k, _) :: l' => if (k =? task)%N then Some O else S <$> index_of task l'
  end.
Definition delivered (rows : list (Z * delivery_row)) (oks : list bool) (n : nat) (kv : Z * delivery_row) : bool :=
  default false (oks !! n) &&
  match index_of (te_task_id (v_event kv.2)) (last_event_by_task rows) with
  | Some i => default false (oks !! (length rows + i)%nat)
  | None => false
  end.
Definition ids_with (p : nat → Z * delivery_row → bool) (rows : list (Z * delivery_row)) : list Z :=
  omap (λ x, x) (imap (λ n kv, if p n kv then Some kv.1 else None) rows).

(** ** The world of a publisher

    The rows, what was sent to Redis so far, and the schedule: before each
    call others act; a transaction is done, refused or done without its reply
    arriving, and of a pipeline the commands named are executed, and then
    either their replies arrive or an exception is raised. A schedule that
    ends is a process that is cancelled. *)
Inductive pout := PDone (oks : list bool) | PRaised (done : list bool) (e : exn) | PLost (e : exn).
Record pstate := mk_pstate { p_rows : outbox; p_sent : list sent }.
Record pturn := mk_pturn { pt_others : pstate → pstate; pt_now : timestamp; pt_claimed_at : timestamp; pt_out : pout }.
Record pworld := mk_pworld { pw_state : pstate; pw_turns : list pturn }.

Definition pdraw : proc pworld pturn := λ w,
  match pw_turns w with
  | [] => (Ok (mk_pturn (λ s, s) 0 0 (PLost CancelledError)), mk_pworld (pw_state w) [])
  | t :: ts => (Ok t, mk_pworld (pt_others t (pw_state w)) ts)
  end.
Definition prun {A} (m : tx outbox A) : proc pworld A := λ w,
  match m (p_rows (pw_state w)) with
  | Ok (a, t) => (Ok a, mk_pworld (mk_pstate t (p_sent (pw_state w))) (pw_turns w))
  | Err e => (Err e, w)
  end.
Definition outbox_call {A} (m : timestamp → timestamp → tx outbox A) : proc pworld A :=
  t ← pdraw;
  match pt_out t with
  | PDone _ => prun (m (pt_now t) (pt_claimed_at t))
  | PRaised _ e => prun (m (pt_now t) (pt_claimed_at t));; throw e
  | PLost e => throw e
  end.

(** A pipeline has a reply for each command, also where the schedule names
    fewer; the commands with a reply were executed. *)
Definition replies (commands : list sent) (oks : list bool) : list bool := imap (λ n _, default false (oks !! n)) commands.
Fixpoint executed (commands : list sent) (done : list bool) : list sent :=
  match commands, done with
  | c :: cs, b :: bs => (if b then [c] else []) ++ executed cs bs
  | _, _ => []
  end.
Definition psend (commands : list sent) (done : list bool) : proc pworld unit :=
  modify (λ w, mk_pworld (mk_pstate (p_rows (pw_state w)) (p_sent (pw_state w) ++ executed commands (replies commands done))) (pw_turns w)).
Definition pipeline_execute (commands : list sent) : proc pworld (list bool) :=
  t ← pdraw;
  match pt_out t with
  | PDone oks => psend commands oks;; mret (replies commands oks)
  | PRaised done e => psend commands done;; throw e
  | PLost e => throw e
  end.

(** [if not event_ids: return] *)
Definition finish (ids : list Z) (claimed_at : timestamp) (published : bool) (error : option string) : proc pworld unit :=
  if bool_decide (ids = []) then mret tt else outbox_call (λ _ _, finish_events ids claimed_at published error).

(** [ProductEventPublisher.publish_pending] *)
Definition publish_pending (limit timeout : Z) : proc pworld Z :=
  events ← outbox_call (λ now claimed_at, claim_events now claimed_at limit timeout);
  match events with
  | [] => mret 0
  | (_, first) :: _ =>
      match v_claimed_at first with
      | None => throw (RuntimeError "Claimed task events have no claim timestamp")
      | Some claimed_at =>
          oks ← try_except (pipeline_execute (pipeline_of events)) (λ e,
            if is_Exception e
            then finish (map fst events) claimed_at false (Some (exn_name e +:+ ": " +:+ exn_str e));; throw e
            else throw e);
          let published := ids_with (delivered events oks) events in
          let failed := ids_with (λ n kv, negb (delivered events oks n kv)) events in
          finish published claimed_at true None;;
          finish failed claimed_at false (Some "Redis product-event publication failed");;
          mret (Z.of_nat (length published))
      end
  end.
(** ** The recovery loop ([ProductEventRecovery]); times in milliseconds *)

(** [__init__] *)
Definition delivery_recovery_init (poll idle : Z) : result unit :=
  raise_if ((poll <=? 0) || (idle <? poll)) (ValueError "Invalid product-event recovery intervals").

(** The delay after a turn that relayed [count] events, or failed. *)
Definition relay_delay (poll idle delay : Z) (turn : result Z) : Z :=
  match turn with
  | Ok count => if 0 <? count then poll else Z.min (delay * 2) idle
  | Err _ => Z.min (Z.max (delay * 2) 500) 30000
  end.

(** [run], with [stop] set after [n] turns: the delays it waited. *)
Fixpoint recovery_turns (n : nat) (limit timeout poll idle delay : Z) : proc pworld (list Z) :=
  match n with
  | O => mret []
  | S n' =>
      delay' ← try_except (count ← publish_pending limit timeout; mret (relay_delay poll idle delay (Ok count))) (λ e,
        if is_Exception e then mret (relay_delay poll idle delay (Err e)) else throw e);
      delays ← recovery_turns n' limit timeout poll idle delay';
      mret (delay' :: delays)
  end.
Definition recovery_run (n : nat) (limit timeout poll idle : Z) : proc pworld (list Z) := recovery_turns n limit timeout poll idle poll.
End Publisher.
