(* ===== verification/ProductEventsProps.v ===== *)
(** * What the relay of product events guarantees

    Whatever other publishers do and whatever fails, a row is marked as
    published only after its entry and a notification that covers it were
    sent, and it never loses its event; and when the calls succeed the relay
    delivers everything there is. *)

From stdpp Require Import base gmap strings list sorting relations.
From Stdlib Require Import ZArith Lia.
From S2P Require Import Prelude Text AgentTables ProductEvents.
Local Open Scope Z_scope.
Set Default Proof Using "Type".

Section Outbox.
Context (dumps : json → string).

(** ** Steps of the publishers and of the service *)

(** The entry of an event was added, and a notification of its task names an
    event that is not older. *)
Definition announced (id : Z) (e : task_event) (l : list sent) : Prop :=
  Added (event_fields dumps id e) ∈ l ∧ ∃ n, id ≤ n ∧ Notified (te_task_id e) n ∈ l.

Inductive pub_step (s : pstate) : pstate → Prop :=
| pub_insert id e : p_rows s !! id = None → pub_step s (mk_pstate (<[id := new_delivery e]> (p_rows s)) (p_sent s))
| pub_claim now claimed_at limit timeout rows t : claim_events now claimed_at limit timeout (p_rows s) = Ok (rows, t) → pub_step s (mk_pstate t (p_sent s))
| pub_send l : pub_step s (mk_pstate (p_rows s) (p_sent s ++ l))
| pub_finish ids claimed_at published error t : finish_events ids claimed_at published error (p_rows s) = Ok (tt, t) →
    (published = true → ∀ id v, id ∈ ids → p_rows s !! id = Some v → announced id (v_event v) (p_sent s)) →
    pub_step s (mk_pstate t (p_sent s)).
Abbreviation runs := (rtc pub_step).

(** A published row was sent; a claim has its time. *)
Definition outbox_ok (s : pstate) : Prop :=
  ∀ id v, p_rows s !! id = Some v →
    (v_state v = D_PUBLISHED → announced id (v_event v) (p_sent s)) ∧ (v_state v = D_PUBLISHING → is_Some (v_claimed_at v)).

(** What never changes: the events of the rows, what was sent, and that a row
    is published. *)
Definition outbox_grows (s s' : pstate) : Prop :=
  (∀ id v, p_rows s !! id = Some v → ∃ v', p_rows s' !! id = Some v' ∧ v_event v' = v_event v ∧ (v_state v = D_PUBLISHED → v' = v)) ∧
  p_sent s `prefix_of` p_sent s'.

#[export] Instance outbox_grows_preorder : PreOrder outbox_grows.
Proof.
  split; [intros s; split; [naive_solver|done]|]. intros s1 s2 s3 [H1 P1] [H2 P2]. split; [|by etransitivity].
  intros id v Hv. destruct (H1 _ _ Hv) as (v2 & Hv2 & E2 & S2). destruct (H2 _ _ Hv2) as (v3 & Hv3 & E3 & S3).
  exists v3. split_and!; [done|congruence|]. intros Hs. pose proof (S2 Hs) as ->. by apply S3.
Qed.

Lemma announced_grows id e l l' : announced id e l → l `prefix_of` l' → announced id e l'.
Proof. intros [Ha (n & Hn & Hnot)] [k ->]. split; [by apply elem_of_app; left|]. exists n. split; [done|]. by apply elem_of_app; left. Qed.

Lemma deliverable_not_published stale v : deliverable stale v = true → v_state v ≠ D_PUBLISHED.
Proof. unfold deliverable. by destruct (v_state v). Qed.

Lemma picked_rows stale limit t id v : (id, v) ∈ deliverable_rows stale limit t → t !! id = Some v ∧ deliverable stale v = true.
Proof.
  unfold deliverable_rows, select_page. intros [H Hd]%elem_of_take_elem%elem_of_order_by%list_elem_of_filter.
  apply elem_of_map_to_list in Hd. done.
Qed.
Lemma picked_id stale limit t id : id ∈ map fst (deliverable_rows stale limit t) → ∃ v, t !! id = Some v ∧ deliverable stale v = true.
Proof. intros ([k v] & -> & Hin)%list_elem_of_fmap. exists v. by apply (picked_rows stale limit). Qed.

Lemma step_grows s s' : pub_step s s' → outbox_grows s s'.
Proof.
  intros []; split; cbn [p_rows p_sent]; try done.
  - intros k v Hv. exists v. by rewrite lookup_insert_ne by congruence.
  - injection H as _ <-. intros k v Hv. rewrite lookup_update_where, Hv. cbn. eexists. split; [done|]. case_bool_decide as Hin; [|done].
    split; [done|]. intros Hs. apply picked_id in Hin as (v' & Hv' & Hd%deliverable_not_published). congruence.
  - eauto.
  - by eexists.
  - injection H as <-. intros k v Hv. rewrite lookup_update_where, Hv. cbn. eexists. split; [done|].
    destruct (bool_decide (k ∈ ids) && held_by claimed_at v) eqn:E; [|done]. split; [done|]. intros Hs.
    apply andb_true_iff in E as [_ E]. unfold held_by in E. rewrite Hs in E. done.
Qed.
Lemma runs_grow s s' : runs s s' → outbox_grows s s'.
Proof. induction 1 as [|s1 s2 s3 Hs _ IH]; [reflexivity|]. etransitivity; [by apply step_grows|done]. Qed.

Lemma step_ok s s' : outbox_ok s → pub_step s s' → outbox_ok s'.
Proof.
  intros Hok Hs. destruct Hs as [id e Hn|now claimed_at limit timeout rows t H|l|ids claimed_at published error t H Hsent]; intros k v; cbn [p_rows p_sent].
  - rewrite lookup_insert. case_decide; [by intros [= <-]|apply Hok].
  - injection H as _ <-. rewrite lookup_update_where. destruct (p_rows s !! k) as [v0|] eqn:E; [|done]. intros [= <-].
    case_bool_decide; [done|by apply Hok].
  - intros Hv. destruct (Hok _ _ Hv) as [Hp Hc]. split; [|done]. intros Hs. eapply announced_grows; [by apply Hp|by eexists].
  - injection H as <-. rewrite lookup_update_where. destruct (p_rows s !! k) as [v0|] eqn:E; [|done]. intros [= <-].
    destruct (bool_decide (k ∈ ids) && held_by claimed_at v0) eqn:Eh; [|by apply Hok]. apply andb_true_iff in Eh as [Hin%bool_decide_eq_true _].
    cbn. destruct published; [|done]. split; [|done]. intros _. by apply Hsent.
Qed.
Lemma runs_ok s s' : runs s s' → outbox_ok s → outbox_ok s'.
Proof. induction 1 as [|s1 s2 s3 Hs _ IH]; intros Hok; [done|]. apply IH. by eapply step_ok. Qed.

(** ** What a pipeline announces *)

Fixpoint last_of (task : uuid) (l : list (uuid * Z)) : option Z :=
  match l with [] => None | (k, v) :: l' => if (k =? task)%N then Some v else last_of task l' end.
Lemma last_of_set task id l task' : last_of task' (set_last task id l) = if (task =? task')%N then Some id else last_of task' l.
Proof.
  induction l as [|[k v] l IH]; [done|]. cbn. destruct (N.eqb_spec k task) as [->|Hk]; cbn; [by destruct (N.eqb_spec task task')|].
  destruct (N.eqb_spec k task') as [->|]; [|done]. by rewrite (proj2 (N.eqb_neq task task')) by congruence.
Qed.
Lemma last_of_index task l m : last_of task l = Some m → ∃ i, index_of task l = Some i ∧ l !! i = Some (task, m).
Proof.
  induction l as [|[k v] l IH]; [done|]. cbn. destruct (N.eqb_spec k task) as [->|]; [intros [= ->]; by exists O|].
  intros (i & -> & Hi)%IH. by exists (S i).
Qed.

Lemma last_event_covers rows id v : StronglySorted (λ x y : Z * delivery_row, x.1 ≤ y.1) rows → (id, v) ∈ rows →
  ∃ m, last_of (te_task_id (v_event v)) (last_event_by_task rows) = Some m ∧ id ≤ m.
Proof.
  unfold last_event_by_task. induction rows as [|[k u] rows IH] using rev_ind; intros Hs Hin; [by apply not_elem_of_nil in Hin|].
  apply StronglySorted_app in Hs as (Hle & Hs & _). rewrite foldl_app. cbn. rewrite last_of_set.
  apply elem_of_app in Hin as [Hin|Hin].
  - destruct (IH Hs Hin) as (m & -> & Hm). destruct (N.eqb_spec (te_task_id (v_event u)) (te_task_id (v_event v))); [|by exists m].
    exists k. split; [done|]. specialize (Hle _ (k, u) Hin (list_elem_of_here _ _)). cbn in Hle. lia.
  - apply list_elem_of_singleton in Hin as [= -> ->]. rewrite N.eqb_refl. by exists k.
Qed.

Lemma executed_elem commands oks n c : commands !! n = Some c → oks !! n = Some true → c ∈ executed commands oks.
Proof.
  revert n oks. induction commands as [|c0 cs IH]; intros [|n] [|b bs]; cbn; try done.
  - intros [= ->] [= ->]. by left.
  - intros Hc Hb. apply elem_of_app. right. by eapply IH.
Qed.
Lemma ids_with_elem p rows id : id ∈ ids_with p rows → ∃ n v, rows !! n = Some (id, v) ∧ p n (id, v) = true.
Proof.
  unfold ids_with. intros (x & Hx & ->)%list_elem_of_omap. apply list_elem_of_lookup in Hx as (n & Hn). rewrite list_lookup_imap in Hn.
  destruct (rows !! n) as [[k v]|] eqn:E; [|done]. cbn in Hn. destruct (p n (k, v)) eqn:Ep; [|done]. injection Hn as ->. by exists n, v.
Qed.

Lemma delivered_announced rows oks n id v l : StronglySorted (λ x y : Z * delivery_row, x.1 ≤ y.1) rows → rows !! n = Some (id, v) →
  delivered rows oks n (id, v) = true → announced id (v_event v) (l ++ executed (pipeline_of dumps rows) oks).
Proof.
  intros Hs Hn. unfold delivered. cbn [snd]. destruct (oks !! n) as [[]|] eqn:En; [|done..]. cbn [default andb].
  destruct (last_event_covers rows id v Hs (list_elem_of_lookup_2 _ _ _ Hn)) as (m & Hm & Hle).
  destruct (last_of_index _ _ _ Hm) as (i & -> & Hi). destruct (oks !! (length rows + i)%nat) as [[]|] eqn:Ei; [|done..]. intros _.
  split.
  - apply elem_of_app. right. apply (executed_elem _ _ n); [|done]. unfold pipeline_of. rewrite lookup_app_l.
    + by rewrite list_lookup_fmap, Hn.
    + rewrite length_map. by eapply lookup_lt_Some.
  - exists m. split; [done|]. apply elem_of_app. right. apply (executed_elem _ _ (length rows + i)%nat); [|done]. unfold pipeline_of.
    rewrite lookup_app_r by (rewrite length_map; lia). rewrite length_map.
    replace (length rows + i - length rows)%nat with i by lia. by rewrite list_lookup_fmap, Hi.
Qed.

Lemma relay_claimed_rows now claimed_at limit timeout t rows t' : claim_events now claimed_at limit timeout t = Ok (rows, t') →
  StronglySorted (λ x y : Z * delivery_row, x.1 ≤ y.1) rows ∧
  ∀ id v, (id, v) ∈ rows → t' !! id = Some v ∧ v_claimed_at v = Some claimed_at.
Proof.
  intros [= <- <-]. split.
  - assert (Hs : StronglySorted (λ x y : Z * delivery_row, x.1 ≤ y.1) (deliverable_rows (now - microseconds timeout) limit t)).
    { unfold deliverable_rows, select_page. eapply StronglySorted_app_1_l. rewrite (take_drop (Z.to_nat limit)).
      assert (Hb : StronglySorted (by_key id_key) (order_by id_key (filter (λ kv, deliverable (now - microseconds timeout) kv.2 = true) (map_to_list t)))) by apply order_by_sorted.
      induction Hb as [|x l _ IH Hx]; constructor; [done|]. eapply Forall_impl; [exact Hx|]. intros y Hy. destruct Hy as [?|[? _]]; cbn in *; lia. }
    induction Hs as [|x l _ IH Hx]; cbn [map]; constructor; [done|]. rewrite Forall_forall in Hx |- *. intros y (z & -> & Hz)%list_elem_of_fmap.
    exact (Hx _ Hz).
  - intros id v ([k u] & [= -> ->] & Hin)%list_elem_of_fmap. split; [|done]. rewrite lookup_update_where.
    apply picked_rows in Hin as Hk. destruct Hk as [-> _]. cbn. rewrite bool_decide_eq_true_2; [done|]. apply list_elem_of_fmap. by exists (k, u).
Qed.

(** ** Coroutines of a publisher

    Others take steps of publishers and of the service before each call; a
    coroutine that is [sound] takes nothing but such steps itself. What it
    knows must survive the steps of others. *)

Definition pfair (w : pworld) : Prop := Forall (λ t, ∀ s, runs s (pt_others t s)) (pw_turns w).
Definition leads (w w' : pworld) : Prop := runs (pw_state w) (pw_state w') ∧ pfair w'.
Definition stable (I : pstate → Prop) : Prop := ∀ s s', I s → runs s s' → I s'.

Lemma leads_trans w1 w2 w3 : leads w1 w2 → leads w2 w3 → leads w1 w3.
Proof. intros [H1 _] [H2 H]. split; [by etransitivity|done]. Qed.

Definition sound {A} (I : pstate → Prop) (m : proc pworld A) (Q : A → pstate → Prop) : Prop := ∀ w, pfair w → I (pw_state w) →
  wp m (λ r w', leads w w' ∧ match r with Ok a => Q a (pw_state w') | Err _ => I (pw_state w') end) w.

Lemma sound_ret {A} (I : pstate → Prop) (a : A) (Q : A → pstate → Prop) : (∀ s, I s → Q a s) → sound I (mret a) Q.
Proof. intros HQ w Hf HI. apply wp_ret. split; [by split|by apply HQ]. Qed.
Lemma sound_throw {A} (I : pstate → Prop) e (Q : A → pstate → Prop) : sound I (throw e) Q.
Proof. intros w Hf HI. apply wp_throw. by split. Qed.
Lemma sound_bind {A B} (I : pstate → Prop) (m : proc pworld A) (f : A → proc pworld B) Q Q' :
  stable I → sound I m Q → (∀ a, sound (Q a) (f a) Q') → sound I (m ≫= f) Q'.
Proof.
  intros HI Hm Hf w Hw Hi. apply wp_bind. eapply wp_mono; [by apply Hm|]. intros [a|e] w1 [L H1]; [|done].
  eapply wp_mono; [apply Hf; [apply L|exact H1]|]. intros r w2 [L2 H2]. split; [by eapply leads_trans|].
  destruct r; [done|]. eapply HI; [exact Hi|]. etransitivity; [apply L|apply L2].
Qed.
Lemma sound_try {A} (I : pstate → Prop) (m : proc pworld A) h Q : sound I m Q → (∀ e, sound I (h e) Q) → sound I (try_except m h) Q.
Proof.
  intros Hm Hh w Hw Hi. apply wp_try. eapply wp_mono; [by apply Hm|]. intros [a|e] w1 [L H1]; [done|].
  eapply wp_mono; [apply Hh; [apply L|exact H1]|]. intros r w2 [L2 H2]. split; [by eapply leads_trans|done].
Qed.
Lemma sound_post {A} (I : pstate → Prop) (m : proc pworld A) (Q Q' : A → pstate → Prop) : (∀ a s, Q a s → Q' a s) → sound I m Q → sound I m Q'.
Proof. intros HQ Hm w Hw Hi. eapply wp_mono; [by apply Hm|]. intros [a|e] w1 [L H1]; split; auto. Qed.

Lemma pdraw_spec w Q : pfair w → (∀ t w', runs (pw_state w) (pw_state w') → pfair w' → Q (Ok t) w') → wp pdraw Q w.
Proof.
  intros Hf HQ. unfold wp, pdraw. destruct (pw_turns w) as [|t ts] eqn:E; cbn.
  - apply HQ; [done|]. by constructor.
  - unfold pfair in Hf. rewrite E in Hf. inversion Hf as [|? ? Ht Hts]; subst. apply HQ; [by apply Ht|exact Hts].
Qed.

(** A transaction that is a step. *)
Lemma sound_call {A} (I : pstate → Prop) (m : timestamp → timestamp → tx outbox A) (Q : A → pstate → Prop) : stable I →
  (∀ s now at_ a t, I s → m now at_ (p_rows s) = Ok (a, t) →
    pub_step s (mk_pstate t (p_sent s)) ∧ Q a (mk_pstate t (p_sent s))) →
  sound I (outbox_call m) Q.
Proof.
  intros HI Hm w Hf Hi. apply wp_bind, pdraw_spec; [done|]. intros t w1 Hr Hf1. pose proof (HI _ _ Hi Hr) as Hi1.
  destruct (pt_out t); [..|by apply wp_throw]; [|apply wp_bind]; unfold wp, prun;
    destruct (m (pt_now t) (pt_claimed_at t) (p_rows (pw_state w1))) as [[a r]|x] eqn:E; cbn; try by split.
  all: destruct (Hm _ _ _ _ _ Hi1 E) as [Hs HQ].
  all: assert (L : leads w (mk_pworld (mk_pstate r (p_sent (pw_state w1))) (pw_turns w1))) by (split; [by eapply rtc_r|exact Hf1]).
  - by split.
  - split; [exact L|]. eapply HI; [exact Hi1|]. by apply rtc_once.
Qed.

(** A pipeline only sends. *)
Lemma sound_pipeline (I : pstate → Prop) commands : stable I →
  sound I (pipeline_execute commands) (λ oks s, I s ∧ ∃ l, p_sent s = l ++ executed commands oks).
Proof.
  intros HI w Hf Hi. apply wp_bind, pdraw_spec; [done|]. intros t w1 Hr Hf1. pose proof (HI _ _ Hi Hr) as Hi1.
  assert (L : ∀ done, leads w (psend commands done w1).2 ∧ I (pw_state (psend commands done w1).2)).
  { intros done. assert (Hs : pub_step (pw_state w1) (pw_state (psend commands done w1).2)) by constructor.
    split; [split; [by eapply rtc_r|exact Hf1]|]. eapply HI; [exact Hi1|]. by apply rtc_once. }
  destruct (pt_out t) as [oks|oks e|e]; [apply wp_bind|apply wp_bind|by apply wp_throw].
  - destruct (L oks). split; [done|]. split; [done|]. by exists (p_sent (pw_state w1)).
  - by destruct (L oks).
Qed.

(** ** The publisher *)

Definition row_of (s : pstate) (id : Z) (e : task_event) : Prop := ∃ v, p_rows s !! id = Some v ∧ v_event v = e.
Definition rows_known (rows : list (Z * delivery_row)) (s : pstate) : Prop := ∀ id v, (id, v) ∈ rows → row_of s id (v_event v).
Definition all_sent (ids : list Z) (s : pstate) : Prop := ∀ id, id ∈ ids → ∃ e, row_of s id e ∧ announced id e (p_sent s).

Lemma row_of_grows s s' id e : row_of s id e → outbox_grows s s' → row_of s' id e.
Proof. intros (v & Hv & <-) [Hk _]. destruct (Hk _ _ Hv) as (v' & ? & ? & _). by exists v'. Qed.
Lemma rows_known_stable rows : stable (rows_known rows).
Proof. intros s s' H Hr id v Hin. eapply row_of_grows; [by apply H|by apply runs_grow]. Qed.
Lemma all_sent_stable ids : stable (all_sent ids).
Proof.
  intros s s' H Hr id (e & Hk & Ha)%H. apply runs_grow in Hr as [Hg Hp]. exists e. split; [by eapply row_of_grows|].
  by eapply announced_grows.
Qed.
Lemma stable_true : stable (λ _, True).
Proof. done. Qed.
Hint Resolve rows_known_stable all_sent_stable stable_true : core.

Lemma finish_sound (I : pstate → Prop) ids claimed_at published error : stable I → (published = true → ∀ s, I s → all_sent ids s) →
  sound I (finish ids claimed_at published error) (λ _, I).
Proof.
  intros HI Hsent. unfold finish. case_bool_decide; [by apply sound_ret|]. apply sound_call; [done|]. intros s _ _ [] t Hi E.
  assert (Hs : pub_step s (mk_pstate t (p_sent s))).
  { eapply pub_finish; [exact E|]. intros Hp id v Hin Hv. destruct (Hsent Hp s Hi id Hin) as (e & (v' & Hv' & <-) & Ha). congruence. }
  split; [exact Hs|]. eapply HI; [exact Hi|]. by apply rtc_once.
Qed.

(** What is known of claimed rows, and after the replies of their pipeline. *)
Definition claimed (rows : list (Z * delivery_row)) (s : pstate) : Prop :=
  rows_known rows s ∧ StronglySorted (λ x y : Z * delivery_row, x.1 ≤ y.1) rows.
Definition told (rows : list (Z * delivery_row)) (oks : list bool) (s : pstate) : Prop :=
  rows_known rows s ∧ ∀ n id v, rows !! n = Some (id, v) → delivered rows oks n (id, v) = true → announced id (v_event v) (p_sent s).
Lemma claimed_stable rows : stable (claimed rows).
Proof. intros s s' [H Hs] Hr. split; [by eapply rows_known_stable|done]. Qed.
Lemma told_stable rows oks : stable (told rows oks).
Proof.
  intros s s' [H Ht] Hr. split; [by eapply rows_known_stable|]. intros n id v Hn Hd. eapply announced_grows; [by eapply Ht|].
  by apply runs_grow in Hr as [_ ?].
Qed.
Lemma told_all_sent rows oks s : told rows oks s → all_sent (ids_with (delivered rows oks) rows) s.
Proof.
  intros [Hk Ht] id (n & v & Hn & Hd)%ids_with_elem. exists (v_event v). split; [|by eapply Ht].
  apply Hk. by eapply list_elem_of_lookup_2.
Qed.
Hint Resolve claimed_stable told_stable told_all_sent : core.

Lemma publish_pending_sound limit timeout : sound (λ _, True) (publish_pending dumps limit timeout) (λ _ _, True).
Proof.
  apply (sound_bind _ _ _ claimed); [done|..].
  { apply sound_call; [done|]. intros s now claimed_at rows t _ E. split; [by eapply pub_claim|]. apply relay_claimed_rows in E as [Hs Hr].
    split; [|done]. intros id v Hin. exists v. split; [|done]. by apply Hr. }
  intros [|[id0 v0] rows']; [by apply sound_ret|]. set (rows := (id0, v0) :: rows').
  destruct (v_claimed_at v0) as [claimed_at|]; [|apply sound_throw].
  apply (sound_bind _ _ _ (told rows)); [auto|..].
  - apply sound_try; [|intros e; destruct (is_Exception e); [|apply sound_throw]].
    + eapply sound_post; [|by apply sound_pipeline]. intros oks s [[Hk Hs] [l El]]. split; [done|]. intros n id v Hn Hd. rewrite El.
      by eapply delivered_announced.
    + eapply sound_bind; [auto|by apply finish_sound|]. intros []. apply sound_throw.
  - intros oks. eapply sound_bind; [auto|apply finish_sound; auto|]. intros []. eapply sound_bind; [auto|by apply finish_sound|]. intros [].
    by apply sound_ret.
Qed.

(** C23. An event that is marked as published was sent.

    Whatever other publishers and the service's transactions do before each
    call, and whatever fails, raises or loses its reply: a publisher leaves an
    outbox in which each published row has its entry in the stream and a
    notification that covers it; no row loses its event, and what is
    published or sent stays. *)
Theorem published_event_was_sent limit timeout w r w' : pfair w → outbox_ok (pw_state w) → publish_pending dumps limit timeout w = (r, w') →
  outbox_ok (pw_state w') ∧ outbox_grows (pw_state w) (pw_state w').
Proof.
  intros Hf Hok E. destruct (wp_run _ _ _ _ _ (publish_pending_sound limit timeout w Hf I) E) as [[Hr _] _].
  split; [by eapply runs_ok|by apply runs_grow].
Qed.

(** ** A calm run

    Nobody else acts and the calls succeed. *)

Definition calm (n : nat) (t : pturn) : Prop := (∀ s, pt_others t s = s) ∧ ∃ k, (n ≤ k)%nat ∧ pt_out t = PDone (replicate k true).

(** What a relayed row becomes. *)
Definition relayed (v : delivery_row) : delivery_row := mk_delivery (v_event v) D_PUBLISHED (v_attempts v + 1) None None.

Lemma replies_calm commands k : (length commands ≤ k)%nat → replies commands (replicate k true) = replicate (length commands) true.
Proof.
  intros Hk. apply list_eq. intros i. unfold replies. rewrite list_lookup_imap. destruct (commands !! i) eqn:E; cbn.
  - apply lookup_lt_Some in E. rewrite !lookup_replicate_2 by lia. done.
  - apply lookup_ge_None in E. symmetry. apply lookup_replicate_None. lia.
Qed.
Lemma executed_calm commands : executed commands (replicate (length commands) true) = commands.
Proof. induction commands as [|c cs IH]; [done|]. cbn. by f_equal. Qed.

Lemma index_of_last task l m : last_of task l = Some m → ∃ i, index_of task l = Some i ∧ (i < length l)%nat.
Proof. intros (i & Hi & H%lookup_lt_Some)%last_of_index. by exists i. Qed.

Lemma delivered_calm rows n kv : StronglySorted (λ x y : Z * delivery_row, x.1 ≤ y.1) rows → rows !! n = Some kv →
  delivered rows (replicate (length (pipeline_of dumps rows)) true) n kv = true.
Proof.
  intros Hs Hn. destruct kv as [id v]. unfold delivered, pipeline_of. rewrite length_app, !length_map.
  destruct (last_event_covers rows id v Hs (list_elem_of_lookup_2 _ _ _ Hn)) as (m & (i & Hi & Hlt)%index_of_last & _).
  cbn. rewrite Hi. apply lookup_lt_Some in Hn. by rewrite !lookup_replicate_2 by lia.
Qed.

Lemma ids_with_shift p (x : Z * delivery_row) rows : ids_with p (x :: rows) = (if p O x then [x.1] else []) ++ ids_with (λ n, p (S n)) rows.
Proof. unfold ids_with. cbn. by destruct (p O x). Qed.
Lemma ids_with_all p rows : (∀ n kv, rows !! n = Some kv → p n kv = true) → ids_with p rows = map fst rows.
Proof.
  revert p. induction rows as [|x rows IH]; intros p H; [done|]. rewrite ids_with_shift, (H O x) by done. cbn. f_equal.
  apply IH. intros n kv Hn. by apply (H (S n)).
Qed.
Lemma ids_with_none p rows : (∀ n kv, rows !! n = Some kv → p n kv = false) → ids_with p rows = [].
Proof.
  revert p. induction rows as [|x rows IH]; intros p H; [done|]. rewrite ids_with_shift, (H O x) by done. cbn.
  apply IH. intros n kv Hn. by apply (H (S n)).
Qed.

Lemma relay_call_calm {A} (m : timestamp → timestamp → tx outbox A) s t ts n a rows : calm n t → m (pt_now t) (pt_claimed_at t) (p_rows s) = Ok (a, rows) →
  outbox_call m (mk_pworld s (t :: ts)) = (Ok a, mk_pworld (mk_pstate rows (p_sent s)) ts).
Proof.
  intros [Ho (k & _ & Hk)] E. unfold outbox_call. erewrite proc_bind_run by reflexivity. rewrite Hk. unfold prun. cbn.
  by rewrite Ho, E.
Qed.
Lemma pipeline_calm commands s t ts n : calm n t → (length commands ≤ n)%nat →
  pipeline_execute commands (mk_pworld s (t :: ts)) = (Ok (replicate (length commands) true), mk_pworld (mk_pstate (p_rows s) (p_sent s ++ commands)) ts).
Proof.
  intros [Ho (k & Hle & Hk)] Hn. unfold pipeline_execute. erewrite proc_bind_run by reflexivity. rewrite Hk.
  erewrite proc_bind_run by reflexivity. cbn. rewrite Ho, replies_calm by lia. by rewrite executed_calm.
Qed.
Lemma finish_calm ids claimed_at published error s t ts n : calm n t → ids ≠ [] →
  finish ids claimed_at published error (mk_pworld s (t :: ts)) =
  (Ok tt, mk_pworld (mk_pstate (update_where (λ k v, bool_decide (k ∈ ids) && held_by claimed_at v) (settled_event published error) (p_rows s)) (p_sent s)) ts).
Proof. intros Hc Hids. unfold finish. rewrite bool_decide_eq_false_2 by done. by eapply relay_call_calm. Qed.

Lemma set_last_length task id l : (length (set_last task id l) ≤ S (length l))%nat.
Proof. induction l as [|[k v] l IH]; cbn; [lia|]. destruct (k =? task)%N; cbn; lia. Qed.
Lemma pipeline_length rows : (length (pipeline_of dumps rows) ≤ 2 * length rows)%nat.
Proof.
  unfold pipeline_of. rewrite length_app, !length_map. assert (H : (length (last_event_by_task rows) ≤ length rows)%nat); [|lia].
  unfold last_event_by_task. induction rows as [|x rows IH] using rev_ind; [done|]. rewrite foldl_app, length_app. cbn.
  etransitivity; [apply set_last_length|lia].
Qed.
Lemma pipeline_of_map f rows : (∀ v, v_event (f v) = v_event v) → pipeline_of dumps (map (λ kv, (kv.1, f kv.2)) rows) = pipeline_of dumps rows.
Proof.
  intros Hf. unfold pipeline_of. f_equal.
  - rewrite map_map. apply map_ext. intros [k v]. cbn. by rewrite Hf.
  - f_equal. unfold last_event_by_task. generalize (@nil (uuid * Z)). induction rows as [|[k v] rows IH]; intros l; [done|]. cbn.
    by rewrite Hf, IH.
Qed.

(** Claimed and then settled. *)
Lemma settle_claimed claimed_at (ids : list Z) (t : outbox) :
  update_where (λ k v, bool_decide (k ∈ ids) && held_by claimed_at v) (settled_event true None) (update_where (λ k _, bool_decide (k ∈ ids)) (claim_of claimed_at) t) =
  update_where (λ k _, bool_decide (k ∈ ids)) relayed t.
Proof.
  apply map_eq. intros k. rewrite !lookup_update_where. destruct (t !! k) as [v|]; [|done]. cbn. f_equal.
  case_bool_decide as Hin; [|done]. cbn. unfold held_by. by rewrite !bool_decide_eq_true_2.
Qed.

(** One turn relays the first rows there are. *)
Lemma publish_calm limit timeout s t1 t2 t3 ts n :
  let rows := deliverable_rows (pt_now t1 - microseconds timeout) limit (p_rows s) in
  calm n t1 → calm n t2 → calm n t3 → (2 * length rows ≤ n)%nat → rows ≠ [] →
  publish_pending dumps limit timeout (mk_pworld s (t1 :: t2 :: t3 :: ts)) =
  (Ok (Z.of_nat (length rows)), mk_pworld (mk_pstate (update_where (λ k _, bool_decide (k ∈ map fst rows)) relayed (p_rows s)) (p_sent s ++ pipeline_of dumps rows)) ts).
Proof.
  intros rows C1 C2 C3 Hn Hne. unfold publish_pending.
  assert (E : claim_events (pt_now t1) (pt_claimed_at t1) limit timeout (p_rows s) =
    Ok (map (λ kv, (kv.1, claim_of (pt_claimed_at t1) kv.2)) rows, update_where (λ k _, bool_decide (k ∈ map fst rows)) (claim_of (pt_claimed_at t1)) (p_rows s))) by done.
  pose proof (relay_claimed_rows _ _ _ _ _ _ _ E) as [Hs _]. erewrite proc_bind_run by (eapply relay_call_calm; [exact C1|exact E]).
  pose proof (pipeline_of_map (claim_of (pt_claimed_at t1)) rows (λ _, eq_refl)) as Hp. clear E. revert Hs Hp.
  pose proof (list_fmap_compose_fst (claim_of (pt_claimed_at t1)) rows) as Hids.
  assert (Hlen : length (map (λ kv, (kv.1, claim_of (pt_claimed_at t1) kv.2)) rows) = length rows) by apply length_map.
  destruct rows as [|[k v] rows']; [done|]. cbn [map fst snd] in *. set (cl := (k, claim_of _ v) :: map _ rows') in *.
  intros Hs Hp. cbn [v_claimed_at claim_of].
  erewrite proc_bind_run by (apply try_except_run, (pipeline_calm _ _ _ _ _ C2); rewrite Hp; etransitivity; [apply pipeline_length|exact Hn]).
  rewrite (ids_with_all (delivered _ _)) by (intros; by apply delivered_calm).
  rewrite ids_with_none by (intros; by rewrite delivered_calm). fold cl.
  erewrite proc_bind_run by (by eapply finish_calm).
  erewrite proc_bind_run by reflexivity. rewrite Hp, length_map. unfold mret, proc_ret. cbn [p_rows p_sent].
  replace (map fst cl) with (k :: map fst rows') by (symmetry; exact Hids).
  by rewrite settle_claimed, Hlen.
Qed.

(** ** The recovery loop drains the outbox *)

Definition unpublished (t : outbox) : list Z := map fst (filter (λ kv, v_state kv.2 ≠ D_PUBLISHED) (map_to_list t)).
Lemma elem_of_unpublished t k : k ∈ unpublished t ↔ ∃ v, t !! k = Some v ∧ v_state v ≠ D_PUBLISHED.
Proof.
  unfold unpublished. rewrite list_elem_of_fmap. split.
  - intros ([j v] & -> & [Hs Hin%elem_of_map_to_list]%list_elem_of_filter). by exists v.
  - intros (v & Hv & Hs). exists (k, v). split; [done|]. apply list_elem_of_filter. split; [done|]. by apply elem_of_map_to_list.
Qed.
Lemma map_fst_NoDup (t : outbox) (l : list (Z * delivery_row)) : NoDup l → (∀ kv, kv ∈ l → t !! kv.1 = Some kv.2) → NoDup (map fst l).
Proof.
  intros Hn H. apply NoDup_fmap_2_strong; [|done]. intros [k v] [j u] H1%H H2%H E. cbn in *. congruence.
Qed.
Lemma unpublished_NoDup t : NoDup (unpublished t).
Proof.
  apply (map_fst_NoDup t); [apply NoDup_filter, NoDup_map_to_list|]. intros [k v] [_ Hin%elem_of_map_to_list]%list_elem_of_filter. done.
Qed.

(** Every row that is not published may be claimed from [stale] on. *)
Definition all_stale (stale : timestamp) (t : outbox) : Prop := ∀ k v, t !! k = Some v → v_state v ≠ D_PUBLISHED → deliverable stale v = true.

Lemma deliverable_rows_NoDup stale limit t : NoDup (map fst (deliverable_rows stale limit t)).
Proof.
  apply (map_fst_NoDup t); [|intros [k v] Hin; by apply (picked_rows stale limit)]. unfold deliverable_rows, select_page.
  eapply sublist_NoDup; [|apply sublist_take]. rewrite order_by_Permutation. apply NoDup_filter, NoDup_map_to_list.
Qed.
Lemma filter_same {A} (P Q : A → Prop) `{!∀ x, Decision (P x), !∀ x, Decision (Q x)} (l : list A) :
  (∀ x, x ∈ l → P x ↔ Q x) → filter P l = filter Q l.
Proof.
  induction l as [|x l IH]; intros HPQ; [done|]. rewrite !filter_cons, IH by (intros y Hy; apply HPQ; by right).
  specialize (HPQ x (list_elem_of_here _ _)). do 2 case_decide; tauto.
Qed.
Lemma deliverable_rows_length stale limit t : all_stale stale t →
  length (deliverable_rows stale limit t) = Nat.min (Z.to_nat limit) (length (unpublished t)).
Proof.
  intros Ha. unfold deliverable_rows, select_page, unpublished. rewrite length_take, length_map, (Permutation_length (order_by_Permutation _ _)).
  do 2 f_equal. apply filter_same. intros [k v] Hin%elem_of_map_to_list. cbn. split; [apply deliverable_not_published|by apply (Ha k)].
Qed.

Lemma round_left (t : outbox) (ids : list Z) : NoDup ids → (∀ k, k ∈ ids → k ∈ unpublished t) →
  (length ids + length (unpublished (update_where (λ k _, bool_decide (k ∈ ids)) relayed t)) ≤ length (unpublished t))%nat.
Proof.
  intros Hn Hin. rewrite <- length_app. apply submseteq_length, NoDup_submseteq.
  - apply NoDup_app. split_and!; [done| |apply unpublished_NoDup]. intros k Hk (v & Hv & Hs)%elem_of_unpublished.
    apply lookup_update_where_Some in Hv as (v0 & _ & ->). by rewrite bool_decide_eq_true_2 in Hs.
  - intros k [Hk|(v & Hv & Hs)%elem_of_unpublished]%elem_of_app; [by apply Hin|].
    apply lookup_update_where_Some in Hv as (v0 & H0 & ->). apply elem_of_unpublished. exists v0. split; [done|]. by case_bool_decide.
Qed.
Lemma all_stale_relayed stale (t : outbox) p : all_stale stale t → all_stale stale (update_where p relayed t).
Proof. intros H k v (v0 & H0 & ->)%lookup_update_where_Some Hs. destruct (p k v0); [done|by apply (H k)]. Qed.
Lemma all_stale_mono stale stale' t : stale ≤ stale' → all_stale stale t → all_stale stale' t.
Proof.
  intros Hle H k v Hv Hs. specialize (H k v Hv Hs). unfold deliverable in *. destruct (v_state v), (v_claimed_at v); try done.
  apply Z.ltb_lt. apply Z.ltb_lt in H. lia.
Qed.

Definition calm_since (T : timestamp) (n : nat) (t : pturn) : Prop := calm n t ∧ T ≤ pt_now t.

Lemma publish_none limit timeout s t ts n : calm n t → deliverable_rows (pt_now t - microseconds timeout) limit (p_rows s) = [] →
  publish_pending dumps limit timeout (mk_pworld s (t :: ts)) = (Ok 0, mk_pworld s ts).
Proof.
  intros C E. unfold publish_pending. erewrite proc_bind_run; [|eapply relay_call_calm; [exact C|reflexivity]]. rewrite E. cbn [map].
  unfold mret, proc_ret. do 2 f_equal. destruct s as [rows l]. cbn. f_equal. apply map_eq. intros k. rewrite lookup_update_where.
  destruct (rows !! k); [|done]. cbn. by rewrite bool_decide_eq_false_2 by apply not_elem_of_nil.
Qed.

(** A turn of the loop on a calm schedule: fewer rows are left. *)
Lemma publish_round limit timeout T n s ts : 0 < limit → Forall (calm_since T n) ts → (3 ≤ length ts)%nat →
  (2 * length (unpublished (p_rows s)) ≤ n)%nat → all_stale (T - microseconds timeout) (p_rows s) →
  ∃ count s' ts', publish_pending dumps limit timeout (mk_pworld s ts) = (Ok count, mk_pworld s' ts') ∧ Forall (calm_since T n) ts' ∧
    (length ts ≤ 3 + length ts')%nat ∧ all_stale (T - microseconds timeout) (p_rows s') ∧
    (length (unpublished (p_rows s')) ≤ length (unpublished (p_rows s)) - Z.to_nat limit)%nat.
Proof.
  intros Hlim Hc Hlen Hn Hst. destruct ts as [|t1 [|t2 [|t3 ts]]]; cbn in Hlen; try lia.
  inversion Hc as [|? ? [C1 T1] Hc1]; subst. inversion Hc1 as [|? ? [C2 _] Hc2]; subst. inversion Hc2 as [|? ? [C3 _] Hc3]; subst.
  assert (Hpick : length (deliverable_rows (pt_now t1 - microseconds timeout) limit (p_rows s)) = _)
    by (apply deliverable_rows_length; eapply all_stale_mono; [|exact Hst]; lia).
  destruct (decide (deliverable_rows (pt_now t1 - microseconds timeout) limit (p_rows s) = [])) as [E|E].
  - exists 0, s, (t2 :: t3 :: ts). split_and!; [by eapply publish_none|done|cbn; lia|done|]. rewrite E in Hpick. cbn in Hpick. lia.
  - do 3 eexists. split; [eapply publish_calm; [exact C1|exact C2|exact C3|lia|done]|]. split_and!; [done|cbn; lia|by apply all_stale_relayed|].
    cbn [p_rows]. set (ids := map fst _).
    assert (Hr : (length ids + length (unpublished (update_where (λ k _, bool_decide (k ∈ ids)) relayed (p_rows s))) ≤ length (unpublished (p_rows s)))%nat).
    { apply round_left; [apply deliverable_rows_NoDup|]. intros k (v & Hv & Hd)%picked_id. apply elem_of_unpublished. exists v.
      split; [done|]. by eapply deliverable_not_published. }
    assert (Hi : length ids = length (deliverable_rows (pt_now t1 - microseconds timeout) limit (p_rows s))) by apply length_map. lia.
Qed.

Lemma drains n limit timeout poll idle T m delay s ts : 0 < limit → Forall (calm_since T m) ts → (3 * n ≤ length ts)%nat →
  (2 * length (unpublished (p_rows s)) ≤ m)%nat → all_stale (T - microseconds timeout) (p_rows s) →
  (length (unpublished (p_rows s)) ≤ n * Z.to_nat limit)%nat →
  ∃ delays w', recovery_turns dumps n limit timeout poll idle delay (mk_pworld s ts) = (Ok delays, w') ∧ unpublished (p_rows (pw_state w')) = [].
Proof.
  intros Hlim. revert delay s ts. induction n as [|n IH]; intros delay s ts Hc Hlen Hm Hst Hn.
  - exists [], (mk_pworld s ts). split; [done|]. apply length_zero_iff_nil. cbn [Nat.mul] in Hn. cbn [pw_state]. lia.
  - destruct (publish_round limit timeout T m s ts) as (count & s' & ts' & E & Hc' & Hlen' & Hst' & Hl); [done|done|lia|done|done|].
    destruct (IH (relay_delay poll idle delay (Ok count)) s' ts') as (delays & w' & E' & Hu); [done|lia|lia|done|lia|].
    exists (relay_delay poll idle delay (Ok count) :: delays), w'. split; [|done]. cbn [recovery_turns].
    erewrite proc_bind_run by (apply try_except_run; erewrite proc_bind_run by exact E; reflexivity).
    by erewrite proc_bind_run by exact E'.
Qed.

(** C36. The recovery loop drains the outbox.

    When the calls succeed, nobody else acts and the claims of others have
    timed out, [n] turns publish every row if there are at most [n * limit]
    rows to publish. *)
Theorem recovery_drains_outbox n limit timeout poll idle T s ts : 0 < limit → Forall (calm_since T (2 * size (p_rows s))) ts →
  (3 * n ≤ length ts)%nat → all_stale (T - microseconds timeout) (p_rows s) →
  (length (unpublished (p_rows s)) ≤ n * Z.to_nat limit)%nat →
  ∃ delays w', recovery_run dumps n limit timeout poll idle (mk_pworld s ts) = (Ok delays, w') ∧
    ∀ id v, p_rows (pw_state w') !! id = Some v → v_state v = D_PUBLISHED.
Proof.
  intros Hlim Hc Hlen Hst Hn. destruct (drains n limit timeout poll idle T (2 * size (p_rows s)) poll s ts) as (delays & w' & E & Hu); [done..| |done|done|].
  - unfold unpublished. rewrite length_map, <- length_map_to_list. pose proof (filter_length_le (λ kv, v_state kv.2 ≠ D_PUBLISHED) (map_to_list (p_rows s))).
    lia.
  - exists delays, w'. split; [done|]. intros id v Hv. destruct (decide (v_state v = D_PUBLISHED)) as [|Hs]; [done|].
    assert (Hin : id ∈ unpublished (p_rows (pw_state w'))) by (apply elem_of_unpublished; by exists v). rewrite Hu in Hin.
    by apply not_elem_of_nil in Hin.
Qed.
End Outbox.

(** ** Concrete runs: three events of two tasks *)

Module TwoTasks.
Definition event (task : uuid) (ty : string) : task_event := mk_event task ty (JObj []).
Definition rows : outbox := <[1 := new_delivery (event 7 "task.accepted")]> (<[2 := new_delivery (event 8 "task.accepted")]>
  (<[3 := new_delivery (event 7 "task.completed")]> ∅)).
Definition start : pstate := mk_pstate rows [].
Definition dumps (_ : json) : string := "{}".
Definition turn (now : timestamp) (out : pout) : pturn := mk_pturn (λ s, s) now now out.
Definition all_well (now : timestamp) : pturn := turn now (PDone (replicate 6 true)).
Definition states (s : pstate) : list (Z * delivery_state * Z * option string) :=
  map (λ kv, (kv.1, v_state kv.2, v_attempts kv.2, v_last_error kv.2)) (order_by id_key (map_to_list (p_rows s))).

(** The notification of task 8 fails: its row waits, those of task 7 are
    published. *)
Definition one_lost : pworld := mk_pworld start [turn 100 (PDone []); turn 100 (PDone [true; true; true; true; false]); all_well 101; all_well 102].
Example one_lost_run : let out := publish_pending dumps 10 30 one_lost in
  out.1 = Ok 2 ∧ states (pw_state out.2) =
  [(1, D_PUBLISHED, 1, None); (2, D_PENDING, 1, Some "Redis product-event publication failed"); (3, D_PUBLISHED, 1, None)].
Proof. by vm_compute. Qed.

(** The connection breaks after the entries were sent: all rows wait. *)
Definition broken : pworld := mk_pworld start [turn 100 (PDone []); turn 100 (PRaised [true; true; true] (RedisError "gone")); all_well 101].
Example broken_run : let out := publish_pending dumps 10 30 broken in
  out.1 = Err (RedisError "gone") ∧ map (λ x, x.1.1.2) (states (pw_state out.2)) = [D_PENDING; D_PENDING; D_PENDING] ∧ length (p_sent (pw_state out.2)) = 3%nat.
Proof. by vm_compute. Qed.

(** Another publisher claims the rows first. *)
Definition other_claims (s : pstate) : pstate :=
  match claim_events 50 50 10 30 (p_rows s) with Ok (_, t) => mk_pstate t (p_sent s) | Err _ => s end.
Lemma start_ok : outbox_ok dumps start.
Proof.
  intros id v. cbn [p_rows start]. unfold rows. rewrite !lookup_insert. do 3 (case_decide; [by intros [= <-]|]). by rewrite lookup_empty.
Qed.
Definition contended : pworld := mk_pworld start [mk_pturn other_claims 60 60 (PDone [])].
Lemma contended_fair : pfair dumps contended.
Proof.
  constructor; [|constructor]. intros s. cbn. unfold other_claims. destruct (claim_events 50 50 10 30 (p_rows s)) as [[l t]|] eqn:E; [|done].
  apply rtc_once. by eapply pub_claim.
Qed.
Lemma start_stale : all_stale (100 - microseconds 30) rows.
Proof.
  intros k v. unfold rows. rewrite !lookup_insert. do 3 (case_decide; [by intros [= <-]|]). by rewrite lookup_empty.
Qed.
End TwoTasks.

Lemma published_event_was_sent_witness : ∃ r w', pfair TwoTasks.dumps TwoTasks.contended ∧
  publish_pending TwoTasks.dumps 10 30 TwoTasks.contended = (r, w') ∧ outbox_ok TwoTasks.dumps (pw_state w') ∧
  outbox_grows (pw_state TwoTasks.contended) (pw_state w').
Proof.
  do 2 eexists. split; [apply TwoTasks.contended_fair|]. split; [apply surjective_pairing|].
  eapply (published_event_was_sent TwoTasks.dumps 10 30); [apply TwoTasks.contended_fair|apply TwoTasks.start_ok|apply surjective_pairing].
Defined.

Lemma recovery_drains_outbox_witness : ∃ delays w',
  recovery_run TwoTasks.dumps 2 2 30 250 1000 (mk_pworld TwoTasks.start (replicate 6 (TwoTasks.all_well 100))) = (Ok delays, w') ∧
  ∀ id v, p_rows (pw_state w') !! id = Some v → v_state v = D_PUBLISHED.
Proof.
  apply (recovery_drains_outbox TwoTasks.dumps 2 2 30 250 1000 100); [lia| |done|apply TwoTasks.start_stale|vm_compute; lia].
  repeat constructor; try done. all: exists 6%nat; by split; [vm_compute; lia|].
Defined.
