(* ===== verification/EffectsProps.v ===== *)
(** * Properties of the effect journal

    For every schedule: what is sent to the Executor under a key is the
    request recorded under that key, for ever, and a result is returned only
    with a recorded receipt. *)

From stdpp Require Import base gmap strings list relations.
From Stdlib Require Import ZArith Lia.
From S2P Require Import Prelude Text Session AgentTables Admission FailureStore TaskProjections AgentWorld Executor Effects AgentInv AgentSteps AgentAccept AgentHistory AgentProps AgentDemo.
Local Open Scope Z_scope.
Set Default Proof Using "Type".

Section EffectsProps.
Context (fp : ApiRequest → string) (signal : json → result ResumeSignal) (digest : json → string).
Context (command_response : json → result CommandResponse) (artifact_response : json → result json).

Abbreviation send := (send command_response artifact_response).
Abbreviation agent_ok := (agent_ok fp signal digest).
Abbreviation runs := (rtc (agent_step fp signal digest)).

(** The row a completed effect leaves is final. *)
Lemma effect_final x x' : effect_grows x x' → is_Some (x_response x) → x' = x.
Proof. destruct x, x'. intros (?&?&?&?&?&?&H). simpl in *. intros Hs. rewrite (H Hs). congruence. Qed.

Lemma prepare_row key id kind input request d x d' : prepare digest key id kind input request d = Ok (x, d') →
  effects d' !! key = Some x.
Proof.
  intros H. unfold prepare in H. tx_inv.
  match type of H with match ?y with _ => _ end _ = _ => destruct y as [y0|] eqn:E; agent_inv end.
  match goal with Hx : effect_record _ _ = Ok _ |- _ => unfold effect_record in Hx; apply raise_if_then in Hx as [_ [= <-]] end.
  exact E.
Qed.

Lemma complete_row key response d x d' : complete digest key response d = Ok (x, d') →
  effects d' !! key = Some x ∧ is_Some (x_response x).
Proof.
  intros H. unfold complete in H. tx_inv. destruct (effects d !! key) as [y|] eqn:E; [|done].
  destruct (x_response y) eqn:Er; agent_inv;
    match goal with Hx : effect_record _ _ = Ok _ |- _ => unfold effect_record in Hx; apply raise_if_then in Hx as [_ [= <-]] end.
  - rewrite Er. by split.
  - simpl. rewrite lookup_insert_eq. by split.
Qed.

Lemma get_effect_row key d x : get_effect digest key d = Ok (Some x) → effects d !! key = Some x.
Proof.
  unfold get_effect. destruct (effects d !! key) as [y|]; [|done]. intros (z & Hz & [= <-])%result_bind_Ok.
  unfold effect_record in Hz. by apply raise_if_then in Hz as [_ [= <-]].
Qed.

(** The caller's closure: it may read the agent's tables and change those of
    the plans, but sends nothing and commits nothing else; [P] is what the log
    up to its end and the tables it saw say of the request it built. *)
Definition planning (a : action) : Prop := match a with Planned _ _ => True | _ => False end.
Definition built (P : list action → adb → json → Prop) (d0 : adb) (log : list action) (d1 : adb) (q : json) : Prop :=
  ∃ log0 d, log0 `prefix_of` log ∧ runs d0 d ∧ runs d d1 ∧ P log0 d q.
Definition prepares (P : list action → adb → json → Prop) (m : proc aworld json) : Prop :=
  ∀ w, afair runs w → wp m (λ r w', ∃ l, after runs w w' l ∧ (∀ a, a ∈ l → planning a) ∧
    ∀ q, r = Ok q → built P (a_db w) (a_log w') (a_db w') q) w.

Lemma built_later P d0 d0' log log' d1 d1' q : runs d0' d0 → log `prefix_of` log' → runs d1 d1' →
  built P d0 log d1 q → built P d0' log' d1' q.
Proof.
  intros H0 Hl H1 (log0 & d & ? & ? & ? & ?). exists log0, d. split; [by etransitivity|]. split; [by transitivity d0|].
  split; [by transitivity d1|done].
Qed.

Lemma after_log_prefix R w w' l : after R w w' l → a_log w `prefix_of` a_log w'.
Proof. intros (_ & _ & L). by exists l. Qed.

(** What a run of the journal under [key] may leave in the log, between two
    states of the tables. *)
Definition journal_entry (P : list action → adb → json → Prop) (task : uuid) (key kind : string) (inputs : json)
    (d0 : adb) (log : list action) (d1 : adb) (a : action) : Prop :=
  match a with
  | Sent q => ∃ x d, runs d0 d ∧ runs d d1 ∧ effects d !! key = Some x ∧ x_request x = q ∧
      validate_identity x task kind (digest inputs) = Ok tt
  | Committed d d' => d' = set_effects (λ _, effects d') d ∧
      ∀ x, effects d !! key = None → effects d' !! key = Some x → built P d0 log d1 (x_request x)
  | Planned _ _ => True
  | _ => False
  end.

Lemma journal_entry_later P task key kind inputs d0 d0' log log' d1 d1' a : runs d0' d0 → log `prefix_of` log' → runs d1 d1' →
  journal_entry P task key kind inputs d0 log d1 a → journal_entry P task key kind inputs d0' log' d1' a.
Proof.
  intros H0 Hlog H1. destruct a; try done.
  - intros (x & d & ? & ? & Hx). exists x, d. split; [by etransitivity|]. split; [by etransitivity|done].
  - intros [Hd Hb]. split; [done|]. intros x Hn Hx. by eapply built_later, Hb.
Qed.

(** A new row is the one that was asked for. *)
Lemma prepare_request key id kind input request d x d' y : prepare digest key id kind input request d = Ok (x, d') →
  effects d !! key = None → effects d' !! key = Some y → x_request y = request.
Proof.
  intros H Hn Hy. unfold prepare in H. tx_inv.
  match type of H with match ?y with _ => _ end _ = _ => destruct y as [y0|] eqn:E; agent_inv end.
  rewrite Hy in E. injection E as ->. simpl in Hy. rewrite Hn, lookup_insert_eq in Hy. by injection Hy as <-.
Qed.

Lemma complete_known key response d x d' : complete digest key response d = Ok (x, d') → is_Some (effects d !! key).
Proof. intros H. unfold complete in H. tx_inv. by destruct (effects d !! key) as [y|]; [eexists|]. Qed.

Lemma prepare_effects_only key id kind input request d x d' : prepare digest key id kind input request d = Ok (x, d') →
  d' = set_effects (λ _, effects d') d.
Proof.
  intros H. unfold prepare in H. tx_inv.
  match type of H with match ?y with _ => _ end _ = _ => destruct y; agent_inv end. by destruct d.
Qed.

Lemma complete_effects_only key response d x d' : complete digest key response d = Ok (x, d') →
  d' = set_effects (λ _, effects d') d.
Proof.
  intros H. unfold complete in H. tx_inv. destruct (effects d !! key) as [y|]; [|done].
  destruct (x_response y); agent_inv; by destruct d.
Qed.

Lemma prepares_ret (P : list action → adb → json → Prop) q : (∀ log d, P log d q) → prepares P (mret q).
Proof.
  intros Hq w Hf. apply wp_ret. exists []. split; [by apply (after_refl runs)|]. split; [by intros a Ha%not_elem_of_nil|].
  intros y [= <-]. by exists (a_log w), (a_db w).
Qed.

Section Journal.
Context (P : list action → adb → json → Prop) (task : uuid) (key kind : string) (inputs : json).

(** What a run of the journal from [w] leaves. *)
Definition journaled (w : aworld) (r : result effect_row) (w' : aworld) : Prop :=
  ∃ l, after runs w w' l ∧ (∀ a, a ∈ l → journal_entry P task key kind inputs (a_db w) (a_log w') (a_db w') a) ∧
  ∀ x, r = Ok x → effects (a_db w') !! key = Some x ∧ is_Some (x_response x).

Lemma journaled_step w w1 l r w' : after runs w w1 l → (∀ a, a ∈ l → journal_entry P task key kind inputs (a_db w) (a_log w1) (a_db w1) a) →
  journaled w1 r w' → journaled w r w'.
Proof.
  intros Ha Hl (l' & Ha' & Hl' & Hr). exists (l ++ l').
  split; [by eapply (after_trans runs)|split; [|done]]. pose proof (after_log_prefix _ _ _ _ Ha') as G.
  destruct Ha as (_ & R1 & _), Ha' as (_ & R2 & _).
  intros a [Hin|Hin]%elem_of_app.
  - eapply journal_entry_later; [reflexivity|exact G|exact R2|by apply Hl].
  - eapply journal_entry_later; [exact R1|reflexivity|reflexivity|by apply Hl'].
Qed.

Lemma wp_journaled w w1 l m : after runs w w1 l → (∀ a, a ∈ l → journal_entry P task key kind inputs (a_db w) (a_log w1) (a_db w1) a) →
  wp m (journaled w1) w1 → wp m (journaled w) w1.
Proof. intros Ha Hl Hm. eapply wp_mono; [exact Hm|]. intros r w2. by apply (journaled_step w w1 l). Qed.

Lemma journaled_err w w' l e : after runs w w' l → (∀ a, a ∈ l → journal_entry P task key kind inputs (a_db w) (a_log w') (a_db w') a) →
  journaled w (Err e) w'.
Proof. intros Ha Hl. exists l. by split. Qed.

Lemma no_entries d0 log d1 a : a ∈ ([] : list action) → journal_entry P task key kind inputs d0 log d1 a.
Proof. intros Ha. by apply not_elem_of_nil in Ha. Qed.

Lemma send_and_complete x w : afair runs w → agent_ok (a_db w) → effects (a_db w) !! key = Some x →
  validate_identity x task kind (digest inputs) = Ok tt →
  wp (response ← send (x_request x); adb_call (λ _ _, complete digest key response)) (journaled w) w.
Proof.
  intros Hf Hd Hx Hv. apply wp_bind, (wp_send runs); [done|]. intros r w1 l Ha Hl.
  assert (Hl' : ∀ a, a ∈ l → journal_entry P task key kind inputs (a_db w) (a_log w1) (a_db w1) a).
  { intros a ->%Hl. exists x, (a_db w). split_and!; try done. apply Ha. }
  destruct r as [j|e]; [|by eapply journaled_err]. apply (wp_journaled w w1 l _ Ha Hl').
  apply (wp_adb_call runs); [apply Ha|..].
  - intros _ _ d a d' H. by eapply rtc_once, step_complete.
  - intros _ _ d a w2 H Hr Ha2.
    assert (Hc : ∀ b, b ∈ [Committed d (a_db w2)] → journal_entry P task key kind inputs (a_db w1) (a_log w2) (a_db w2) b)
      by (intros b ->%list_elem_of_singleton; split; [by eapply complete_effects_only|]; intros y Hn; apply complete_known in H as [? E];
          congruence).
    split; [|intros e; by eapply journaled_err]. exists [Committed d (a_db w2)]. split; [done|split; [done|]].
    intros y [= <-]. by eapply complete_row.
  - intros _ _ w2 e Ha2 _. eapply journaled_err; [done|apply no_entries].
  - intros w2 e Ha2. eapply journaled_err; [done|apply no_entries].
Qed.

Lemma journal_run_good m w : prepares P m → afair runs w → agent_ok (a_db w) →
  wp (journal_run digest task key kind inputs m send) (journaled w) w.
Proof.
  intros Hm Hf Hd.
  assert (Htail : ∀ x w1, afair runs w1 → agent_ok (a_db w1) → effects (a_db w1) !! key = Some x →
    wp (lift_result (validate_identity x task kind (digest inputs));;
        match x_response x with
        | None => response ← send (x_request x); adb_call (λ _ _, complete digest key response)
        | Some _ => mret x
        end) (journaled w1) w1).
  { intros x w1 F1 D1 X1. apply wp_bind, wp_lift.
    destruct (validate_identity _ _ _ _) as [[]|e] eqn:Ev; [|eapply journaled_err; [by apply (after_refl runs)|apply no_entries]].
    destruct (x_response x) eqn:Er; [|by apply send_and_complete]. apply wp_ret.
    exists []. split; [by apply (after_refl runs)|split; [apply no_entries|]]. intros y [= <-]. rewrite Er. by split. }
  apply wp_bind, (wp_adb_read runs); [done| |intros w1 e Ha; eapply journaled_err; [done|apply no_entries]].
  intros _ w1 Ha. pose proof Ha as (F1 & R1 & _). pose proof (agent_run_ok _ _ _ _ _ R1 Hd) as D1.
  destruct (get_effect digest key (a_db w1)) as [[x|]|e] eqn:Eget; [..|eapply journaled_err; [done|apply no_entries]];
    apply (wp_journaled w w1 [] _ Ha (no_entries _ _ _)).
  - apply wp_bind, wp_ret. apply Htail; [done..|]. by apply get_effect_row.
  - apply wp_bind, wp_bind. eapply wp_mono; [by apply Hm|]. intros r w2 (l2 & Ha2 & Hl2 & Hb2).
    assert (Hl2' : ∀ d0 log d1 a, a ∈ l2 → journal_entry P task key kind inputs d0 log d1 a) by (intros ? ? ? a Hin%Hl2; by destruct a).
    destruct r as [request|e]; [|eapply journaled_err; [done|apply Hl2']]. specialize (Hb2 _ eq_refl).
    pose proof Ha2 as (F2 & R2 & _). pose proof (agent_run_ok _ _ _ _ _ R2 D1) as D2.
    apply (wp_adb_call runs); [done|..].
    + intros _ _ d a d' H. by eapply rtc_once, step_prepare.
    + intros _ _ d x w3 H Hr Ha3. pose proof (after_trans runs _ _ _ _ _ Ha2 Ha3) as Ha13. pose proof Ha3 as (_ & R23 & _).
      assert (Hc : ∀ b, b ∈ l2 ++ [Committed d (a_db w3)] → journal_entry P task key kind inputs (a_db w1) (a_log w3) (a_db w3) b).
      { intros b [Hb|Hb]%elem_of_app; [by apply Hl2'|]. apply list_elem_of_singleton in Hb as ->. split; [by eapply prepare_effects_only|].
        intros y Hn Hy. rewrite (prepare_request _ _ _ _ _ _ _ _ _ H Hn Hy). eapply built_later; [reflexivity|exact (after_log_prefix _ _ _ _ Ha3)|exact R23|exact Hb2]. }
      split; [|intros e; by eapply journaled_err]. apply (wp_journaled w1 w3 _ _ Ha13 Hc).
      pose proof Ha3 as (F3 & R3 & _). apply Htail; [done|by eapply agent_run_ok|by eapply prepare_row].
    + intros _ _ w3 e Ha3 _. eapply journaled_err; [exact (after_trans runs _ _ _ _ _ Ha2 Ha3)|rewrite app_nil_r; apply Hl2'].
    + intros w3 e Ha3. eapply journaled_err; [exact (after_trans runs _ _ _ _ _ Ha2 Ha3)|rewrite app_nil_r; apply Hl2'].
Qed.
End Journal.

(** C13. For every schedule of faults, crash points and other processes: every
    HTTP request a run of the journal sends is the one recorded under its key,
    and stays the recorded one in every later state, so a retry after a crash
    sends the identical request; and a run returns only a row whose receipt is
    recorded. *)
Theorem journal_replays_recorded P task key kind inputs m w r w' d2 :
  prepares P m → agent_reachable fp signal digest (a_db w) → afair runs w → a_log w = [] →
  journal_run digest task key kind inputs m send w = (r, w') → runs (a_db w') d2 →
  (∀ q, Sent q ∈ a_log w' → ∃ x, effects d2 !! key = Some x ∧ x_request x = q) ∧
  (∀ x, r = Ok x → effects d2 !! key = Some x ∧ is_Some (x_response x)).
Proof.
  intros Hm Hd Hf Hlog Hrun Hr. apply (reachable_agent_ok fp signal digest) in Hd.
  destruct (wp_run _ _ _ _ _ (journal_run_good P task key kind inputs m w Hm Hf Hd) Hrun) as (l & (_ & R1 & L) & Hl & X').
  assert (D' : agent_ok (a_db w')) by by eapply agent_run_ok. split.
  - rewrite L, Hlog. intros q (x & d & R2 & R3 & Hx & <- & _)%Hl.
    destruct (agent_run_grows fp signal digest d d2) as (_ & _ & _ & _ & _ & He & _);
      [by etransitivity|by eapply agent_run_ok|]. destruct (He _ _ Hx) as (y & Hy & _ & _ & _ & _ & _ & E & _). by exists y.
  - intros x Hx. destruct (X' x Hx) as [Hk Hs]. split; [|done].
    destruct (agent_run_grows _ _ _ _ _ Hr D') as (_ & _ & _ & _ & _ & He & _).
    destruct (He _ _ Hk) as (y & Hy & Hg). by rewrite <- (effect_final x y).
Qed.
End EffectsProps.

Import AgentDemo.

Module EffectsDemo.
Definition request : json := JObj [("body", JObj []); ("kind", JStr "submit"); ("path", JStr "/executions")].
Definition receipt : json := JObj [("execution_id", JStr (uuid_str 3))].
Definition response (j : json) : result CommandResponse := Ok (mk_command_response 3 (Some 4%N) 1).
Definition tick (a : areply) : atick := mk_atick (λ d, d) 50 0 (ADone a).
Definition start : aworld :=
  mk_aworld d1 [tick ANone; tick ANone; tick ANone; tick (AHttp 200 (Some receipt) "{}"); tick ANone] [].
Definition run := journal_run digest 7 "task:submit:1" "submit" (JObj []) (mret request) (send response Ok) start.
Lemma fresh_start_fair : afair (rtc step) start.
Proof. unfold afair, start, tick. simpl. repeat constructor. Qed.
Lemma sent_once : Sent request ∈ a_log run.2.
Proof. vm_compute. right. left. Qed.
End EffectsDemo.

Lemma journal_replays_recorded_witness :
  ∃ x, effects (a_db EffectsDemo.run.2) !! "task:submit:1" = Some x ∧ x_request x = EffectsDemo.request.
Proof.
  refine (proj1 (journal_replays_recorded fp no_signal digest EffectsDemo.response Ok (λ _ _ q, q = EffectsDemo.request) 7 "task:submit:1" "submit" (JObj []) (mret EffectsDemo.request)
    EffectsDemo.start EffectsDemo.run.1 EffectsDemo.run.2 (a_db EffectsDemo.run.2) (prepares_ret _ _ _ _ _ (λ _ _, eq_refl)) reach1
    EffectsDemo.fresh_start_fair eq_refl (surjective_pairing _) (rtc_refl _ _)) EffectsDemo.request EffectsDemo.sent_once).
Defined.
