(* ===== verification/FailureService.v ===== *)
(** * Compensation of failed tasks
    ([agent/failure/service.py], [agent/failure/executor.py],
    [agent/failure/graph.py], [agent/failure/recovery.py])

    A failed request or worker command is captured as a cleanup of its task. A
    cleanup first makes sure that no execution of the task is running any more,
    writes down that proof, puts the session graph to rest and only then
    settles the task and releases its session. *)

From stdpp Require Import base gmap strings list relations.
From Stdlib Require Import ZArith Lia.
From S2P Require Import Prelude Text WorkerContracts WorkerStore Session AgentTables Admission FailureStore TaskProjections AgentWorld Executor Effects AdmissionService.
Local Open Scope Z_scope.
Set Default Proof Using "Type".

Definition unsafe_cleanup (m : string) : exn := UnsafeCleanupError m.
Definition is_unsafe_cleanup (e : exn) : bool := match e with UnsafeCleanupError _ => true | _ => false end.

(** [CleanupPending] is a [RuntimeError]. *)
Definition cleanup_pending (m : string) : exn := OtherException "CleanupPending" m.

(** ** The session graph ([agent/failure/graph.py]) *)

Section FailureGraph.
Context (turn_fp : TaskTurn → string).

(** [key in values and values[key] != getattr(turn, key)] *)
Definition differs (o : option string) (s : string) : bool :=
  match o with Some v => negb (String.eqb v s) | None => false end.

(** [not phase or not TaskStatus(phase).is_terminal] *)
Definition unfinished_phase (phase : json) : result bool :=
  if negb (json_truthy phase) then Ok true else
  match phase with
  | JStr p => status ← parse_status p; Ok (negb (is_terminal status))
  | _ => Err (ValueError "not a valid TaskStatus")
  end.

(** [validate_target] *)
Definition validate_target (s : Snapshot) (record : cleanup_row) : result bool :=
  let u := f_turn record in
  let st := values s in
  let task_id := uuid_str (f_task_id record) in
  validate_turn u;;
  raise_if (differs (st_user_id st) (t_user_id u) || differs (st_project_id st) (t_project_id u) ||
            differs (st_session_id st) (t_session_id u)) (unsafe_cleanup "Checkpoint ownership mismatch");;
  let fingerprint_ok :=
    raise_if (match st_task_requests st !! task_id with Some f => negb (String.eqb f (turn_fp u)) | None => false end)
      (unsafe_cleanup "Task checkpoint fingerprint mismatch");; Ok true in
  let active := or_else (st_active_task_id st) "" in
  if String.eqb active "" || String.eqb active task_id then fingerprint_ok else
  if f_preserve_terminal record then Ok false else
  phase ← dict_get "phase" JNull (default (JObj []) (st_workflow st));
  open ← (if bool_decide (sn_next s = []) then unfinished_phase phase else Ok true);
  raise_if open (unsafe_cleanup "Another Task owns the checkpoint");;
  raise_if (bool_decide (is_Some (st_task_requests st !! task_id))) (unsafe_cleanup "Cannot rewind an old failed Task");;
  fingerprint_ok.

(** [turn.model_dump()] *)
Definition turn_fields (u : TaskTurn) : list (string * json) :=
  [("user_id", JStr (t_user_id u)); ("project_id", JStr (t_project_id u)); ("session_id", JStr (t_session_id u));
   ("active_task_id", JStr (t_active_task_id u)); ("current_input_message_id", JStr (t_current_input_message_id u));
   ("user_message", JStr (t_user_message u)); ("runtime_profile", JStr (t_runtime_profile u))].

Definition fields_of (j : json) : list (string * json) := match j with JObj l => l | _ => [] end.

(** [str(record.execution_id) if record.execution_id else ""] *)
Definition execution_text (o : option uuid) : string := from_option uuid_str "" o.

(** The nested workflow after the settlement. *)
Definition settled_workflow (s : Snapshot) (record : cleanup_row) (message : string) : json :=
  let same := bool_decide (st_active_task_id (values s) = Some (uuid_str (f_task_id record))) in
  let base := if same then fields_of (default (JObj []) (st_workflow (values s))) else turn_fields (f_turn record) in
  let execution := execution_text (f_execution_id record) in
  let done := dict_set "terminal_message" (JStr message) (dict_set "phase" (JStr (status_value (f_final_status record))) base) in
  JObj (if String.eqb execution "" then done else dict_set "execution_id" (JStr execution) done).

(** What [settle_graph] writes over the state of [s]. *)
Definition settlement (s : Snapshot) (record : cleanup_row) (message : string) : graph_update :=
  let u := f_turn record in
  let st := values s in
  let task_id := uuid_str (f_task_id record) in
  let execution := execution_text (f_execution_id record) in
  mk_graph_update u task_id execution (settled_workflow s record message) {["source" := "FAILURE"; "id" := task_id]}
    (<[task_id := turn_fp u]> (st_task_requests st)) (<[task_id := message]> (st_failure_receipts st))
    (if String.eqb execution "" then st_ew_sequences st
     else <[execution := default 0 (st_ew_sequences st !! execution)]> (st_ew_sequences st))
    [(t_current_input_message_id u, t_user_message u); ("task:" +:+ task_id +:+ ":result", message)].

(** The graph's receipt of the settlement, with nothing left to run. *)
Definition receipt_settled (s : Snapshot) (record : cleanup_row) : bool :=
  bool_decide (sn_next s = []) &&
  bool_decide (st_failure_receipts (values s) !! uuid_str (f_task_id record) = f_message record).

Definition END_NODE : string := "__end__".

(** [settle_graph] *)
Definition settle_graph (record : cleanup_row) : proc aworld unit :=
  match f_message record with
  | Some message =>
      if missing (f_executor_status record) || String.eqb message "" then throw (unsafe_cleanup "No durable terminal proof") else
      let thread := f_session_id record in
      before ← aget_state thread;
      target ← lift_result (validate_target before record);
      if negb target || receipt_settled before record then mret tt else
      aupdate_state thread END_NODE None;;
      s ← aget_state thread;
      lift_result (validate_turn (f_turn record));;
      aupdate_state thread "failure_settled" (Some (settlement s record message));;
      after ← aget_state thread;
      guard_or (bool_decide (sn_next after = [])) (unsafe_cleanup "Failure settlement left pending graph work")
  | None => throw (unsafe_cleanup "No durable terminal proof")
  end.
End FailureGraph.

(** ** The Executor ([agent/failure/executor.py]) *)

Definition TERMINAL : list string := ["SUCCEEDED"; "FAILED"; "CANCELLED"].
Definition RUNNING_STATES : list string :=
  ["QUEUED"; "DISPATCHED"; "RUNNING"; "WAITING_FOR_OPERATION"; "FINALIZING"; "CANCEL_REQUESTED"].

(** [failure_message] *)
Definition failure_message (reason status : string) : string :=
  "Agent 처리에 실패했습니다: " +:+ reason +:+ ". " +:+
  (if String.eqb status "NOT_REQUIRED" then "Executor에 제출된 실행이 없습니다."
   else "연결된 Executor 실행의 " +:+ status +:+ " 종료를 확인했습니다.").

Section FailureExecutor.
Context (digest : json → string) (command_response : json → result CommandResponse)
  (artifact_response : json → result json) (execution_result : json → result ExecutionResult).

Definition add_id (o : option uuid) (ids : gset uuid) : gset uuid :=
  match o with Some u => {[u]} ∪ ids | None => ids end.

(** The execution that the checkpoint of the task names. *)
Definition checkpoint_id (record : cleanup_row) (s : Snapshot) : result (option uuid) :=
  if bool_decide (st_active_task_id (values s) = Some (uuid_str (f_task_id record))) then
    let execution := or_else (st_execution_id (values s)) "" in
    if String.eqb execution "" then Ok None
    else u ← from_option_err (ValueError "badly formed hexadecimal UUID string") (uuid_parse execution); Ok (Some u)
  else Ok None.

(** [FailureExecutor.resolve] *)
Definition resolve (record : cleanup_row) (s : Snapshot) : proc aworld (option uuid) :=
  let id := f_task_id record in
  task ← adb_read (λ _ d, from_option_err AssertionError (tasks d !! id));
  binding ← adb_read (λ _ d, Ok (bindings d !! id));
  here ← lift_result (checkpoint_id record s);
  refs ← adb_read (λ _, execution_references id);
  guard_or (refs.2 <=? 1)%nat (unsafe_cleanup "Multiple submission identities need review");;
  let ids := add_id here (add_id (eb_execution_id <$> binding) (add_id (k_execution_id task) (add_id (f_execution_id record) refs.1))) in
  match elements ids with
  | [u] => mret (Some u)
  | _ :: _ :: _ => throw (unsafe_cleanup "Conflicting Execution identities")
  | [] =>
      if (refs.2 =? 0)%nat then mret None else
      found ← try_except (find_task_execution (t_user_id (f_turn record)) (t_project_id (f_turn record))
                            (f_session_id record) (uuid_str id))
                (λ e, if is_ValueError e then throw (unsafe_cleanup (exn_str e)) else throw e);
      guard_or (bool_decide (is_Some found)) (cleanup_pending "Submitted Execution ID is not yet confirmed");;
      mret found
  end.

(** [status] of [FailureExecutor.confirm] *)
Definition known_status (execution_id : uuid) : proc aworld string :=
  r ← execution_status execution_result execution_id;
  guard_or (xr_execution_id r =? execution_id)%N (unsafe_cleanup "Executor result identity mismatch");;
  guard_or (existsb (String.eqb (xr_status r)) (TERMINAL ++ RUNNING_STATES)) (unsafe_cleanup "Unknown Executor lifecycle status");;
  mret (xr_status r).

Definition is_terminal_status (status : string) : bool := existsb (String.eqb status) TERMINAL.

Definition cancel_key (record : cleanup_row) : string := "task:" +:+ uuid_str (f_task_id record) +:+ ":failure-cancel".
Definition cancel_inputs (record : cleanup_row) (execution_id : uuid) : json :=
  JObj [("execution_id", JStr (uuid_str execution_id)); ("reason", JStr (f_reason record))].
Definition cancel_request (record : cleanup_row) (execution_id : uuid) : json :=
  JObj [("kind", JStr "failure_cancel"); ("execution_id", JStr (uuid_str execution_id));
        ("path", JStr ("/executions/" +:+ uuid_str execution_id +:+ "/cancel"));
        ("body", cancel_payload (cancel_key record) "AGENT" "ex-agent" (Some ("Agent workflow failed: " +:+ f_reason record)))].

(** [error.status_code != 409] *)
Definition is_conflict_reply (e : exn) : bool := match e with ExecutorRequestError code _ => code =? 409 | _ => false end.

(** [FailureExecutor.confirm] *)
Definition confirm_terminal (record : cleanup_row) (execution_id : uuid) : proc aworld string :=
  current ← known_status execution_id;
  if is_terminal_status current then mret current else
  try_except
    (journal_run digest (f_task_id record) (cancel_key record) "failure_cancel" (cancel_inputs record execution_id)
       (mret (cancel_request record execution_id)) (send command_response artifact_response);; mret tt)
    (λ e, if is_conflict_reply e then mret tt else throw e);;
  current ← known_status execution_id;
  guard_or (is_terminal_status current) (cleanup_pending "Executor cancellation is not yet terminal");;
  mret current.
End FailureExecutor.

(** ** The service ([agent/failure/service.py]) *)

Section FailureService.
Context `{EventCodec} (namespace : string).
Context (fp : ApiRequest → string) (turn_fp : TaskTurn → string) (signal : json → result ResumeSignal)
  (digest : json → string) (command_response : json → result CommandResponse)
  (artifact_response : json → result json) (execution_result : json → result ExecutionResult)
  (max_attempts retry timeout : Z).

(** [FailureService.__init__] *)
Definition failure_init : result unit :=
  raise_if ((max_attempts <? 1) || (retry <=? 0) || (timeout <=? 0)) (ValueError "Cleanup budgets must be positive").

(** Whether the snapshot proves that the request was applied. *)
Definition proves_applied (s : Snapshot) (r : request_row) : result bool :=
  match (done ← accepted s r;
         if done : bool then rest ← next_invocation turn_fp signal s r; Ok (bool_decide (rest = None)) else Ok false) with
  | Err e => if is_RuntimeError e || is_ValueError e then Ok false else Err e
  | x => x
  end.

(** [FailureService.capture_api] *)
Definition capture_api (id : uuid) : proc aworld unit :=
  request ← adb_read (λ _, get fp signal id);
  match request with
  | Some r =>
      if negb (bool_decide (r_state r = R_BLOCKED)) then mret tt else
      ahold (
        request ← adb_read (λ _, get fp signal id);
        match request with
        | Some r =>
            if negb (bool_decide (r_state r = R_BLOCKED)) then mret tt else
            task_id ← lift_result (parse_uuid (t_active_task_id (turn (r_command r))));
            record ← adb_read (λ _, get_cleanup task_id);
            applied ← (match record with
                       | Some _ => mret false
                       | None => s ← aget_state (thread_of r); lift_result (proves_applied s r)
                       end);
            if applied : bool then adb_call (λ _ _, resolve_applied r)
            else
              adb_call (λ now _, ensure now task_id (thread_of r)
                (JObj [("kind", JStr "API"); ("request_id", JStr (uuid_str id))])
                (let error := or_else (r_last_error r) "" in
                 if String.eqb error "" then "API invocation attempts exhausted" else error) None);; mret tt
        | None => mret tt
        end)
  | None => mret tt
  end.

(** [owns_pending] of [capture_worker] *)
Definition worker_owns (s : Snapshot) (command_id : uuid) : bool :=
  negb (bool_decide (sn_next s = [])) && negb (interrupted s) &&
  bool_decide (st_invocation_owner (values s) = {["source" := "EXECUTOR"; "id" := uuid_str command_id]}).

Definition failed_row (row : option (command_row * inbox_row * binding)) : bool :=
  match row with Some r => bool_decide (c_state r.1.1 = FAILED) | None => false end.

(** What [capture_worker] does with a failed command of a task without
    cleanup. *)
Definition capture_new (row : command_row * inbox_row * binding) (ctx : EventContext) (task_id : uuid) : proc aworld unit :=
  s ← aget_state (ctx_session_id ctx);
  let event := uuid_str (event_id (ctx_event ctx)) in
  if bool_decide (st_ew_receipts (values s) !! uuid_str (ctx_command_id ctx) = Some event) &&
     negb (worker_owns s (ctx_command_id ctx))
  then skip_command (ctx_command_id ctx) "Checkpoint proves event applied"
  else
    adb_call (λ now _, ensure now task_id (ctx_session_id ctx)
      (JObj [("kind", JStr "WORKER"); ("namespace", JStr (ctx_namespace ctx));
             ("command_id", JStr (uuid_str (ctx_command_id ctx))); ("event_id", JStr event)])
      (let error := or_else (c_last_error row.1.1) "" in
       if String.eqb error "" then "Worker handler attempts exhausted" else error) (Some (ctx_execution_id ctx)));; mret tt.

(** [FailureService.capture_worker] *)
Definition capture_worker (command_id : uuid) : proc aworld unit :=
  row ← worker_command;
  if negb (failed_row row) then mret tt else
  ahold (
    row ← worker_command;
    match row with
    | Some r =>
        if negb (bool_decide (c_state r.1.1 = FAILED)) then mret tt else
        ctx ← lift_result (context namespace command_id r);
        task_id ← lift_result (parse_uuid (ctx_task_id ctx));
        record ← adb_read (λ _, get_cleanup task_id);
        match record with
        | Some c =>
            guard_or (String.eqb (f_session_id c) (ctx_session_id ctx) && negb (mismatch (f_execution_id c) (Some (ctx_execution_id ctx))))
              (unsafe_cleanup "Failed command binding mismatch");;
            if bool_decide (f_state c = F_DONE) then skip_command command_id "Task failure cleanup completed" else mret tt
        | None => capture_new r ctx task_id
        end
    | None => mret tt
    end).

(** The work of a claimed attempt. *)
Definition cleanup_attempt (claimed : cleanup_row) : proc aworld unit :=
  s ← aget_state (f_session_id claimed);
  lift_result (validate_target turn_fp s claimed);;
  record ←
    (match f_executor_status claimed with
     | Some _ => mret claimed
     | None =>
         execution ← resolve claimed s;
         bound ← (match execution with
                  | Some e => adb_call (λ now _, bind_execution now claimed e)
                  | None => mret claimed
                  end);
         status ← (match execution with
                   | Some e => confirm_terminal digest command_response artifact_response execution_result bound e
                   | None => mret "NOT_REQUIRED"
                   end);
         adb_call (λ now _, confirm now bound execution status (failure_message (f_reason bound) status))
     end);
  settle_graph turn_fp record;;
  adb_call (λ now fresh, finish_cleanup now fresh record).

(** Whether the graph is settled already; [None]: the evidence conflicts. *)
Definition already_settled (s : Snapshot) (record : cleanup_row) : result bool :=
  if receipt_settled s record then Ok true
  else target ← validate_target turn_fp s record; Ok (negb target).

(** One claimed attempt with its error handling; the record that is deferred
    is rebound inside the [try] to rows of the same task and attempt, which is
    all that [defer] looks at. *)
Definition claimed_attempt (record : cleanup_row) : proc aworld unit :=
  try_except (with_timeout (cleanup_attempt record)) (λ e,
    if is_Exception e then
      adb_call (λ now _, defer now record (exn_name e +:+ ": " +:+ exn_str e) (backoff retry (f_attempts record))
        (is_unsafe_cleanup e || (max_attempts <=? f_attempts record)))
    else throw e).

(** The part of [execute] that claims an attempt. *)
Definition claim_and_run (task_id : uuid) : proc aworld unit :=
  record ← adb_call (λ now _, claim_cleanup now task_id max_attempts retry);
  if bool_decide (f_state record = F_PENDING) then claimed_attempt record else mret tt.

(** The body of [execute] under the session guard. *)
Definition cleanup_held (task_id : uuid) : proc aworld unit :=
  stored ← adb_read (λ _, get_cleanup task_id);
  match stored with
  | None => throw AssertionError
  | Some record =>
      if negb (bool_decide (f_state record = F_PENDING)) then mret tt else
      if missing (f_executor_status record) || missing (f_message record) then claim_and_run task_id else
      s ← aget_state (f_session_id record);
      match already_settled s record with
      | Err e =>
          if is_unsafe_cleanup e then adb_call (λ now _, defer now record (exn_name e +:+ ": " +:+ exn_str e) 0 true) else throw e
      | Ok true => adb_call (λ now fresh, finish_cleanup now fresh record)
      | Ok false => claim_and_run task_id
      end
  end.

(** [FailureService.execute] *)
Definition execute_cleanup (task_id : uuid) : proc aworld unit :=
  stored ← adb_read (λ _, get_cleanup task_id);
  match stored with
  | Some record =>
      if negb (bool_decide (f_state record = F_PENDING)) then mret tt else
      try_except (ahold (cleanup_held task_id)) (λ e,
        if is_defer e then adb_call (λ now _, cleanup_defer_busy now task_id retry) else throw e)
  | None => mret tt
  end.

(** [FailureService.protect] *)
Definition protect (handler : EventContext → proc aworld unit) (ctx : EventContext) : proc aworld unit :=
  task_id ← lift_result (parse_uuid (ctx_task_id ctx));
  record ← adb_read (λ _, get_cleanup task_id);
  match record with
  | Some c =>
      guard_or (String.eqb (f_session_id c) (ctx_session_id ctx)) (unsafe_cleanup "Cleanup handler identity mismatch");;
      if bool_decide (f_state c = F_DONE) then throw (IgnoreEvent "Task failure cleanup has completed")
      else throw (DeferEvent "Task failure cleanup owns this invocation")
  | None => handler ctx
  end.

(** ** Recovery ([agent/failure/recovery.py]) *)

(** [_safe] *)
Definition safely (m : proc aworld unit) : proc aworld unit :=
  try_except m (λ e, if is_Exception e then mret tt else throw e).
Definition safely_all (f : uuid → proc aworld unit) (ids : list uuid) : proc aworld unit :=
  foldr (λ id (m : proc aworld unit), safely (f id);; m) (mret tt) ids.

(** [ids[-1] if len(ids) == batch_size else None] *)
Definition next_cursor {A} (batch_size : Z) (ids : list A) : option A :=
  if Z.of_nat (length ids) =? batch_size then last ids else None.

(** [FailureRecovery.__init__] *)
Definition recovery_init (batch_size concurrency poll : Z) : result unit :=
  raise_if (negb ((1 <=? batch_size) && (batch_size <=? 100)) || negb ((1 <=? concurrency) && (concurrency <=? 32)) || (poll <=? 0))
    (ValueError "Invalid failure recovery budget").

(** The three parts of [FailureRecovery.once]; the due cleanups run one after
    the other, each seeing the others as other processes. *)
Definition api_pass (batch_size : Z) (cursor : option uuid) : proc aworld (option uuid) :=
  ids ← adb_read (λ _, blocked_page cursor batch_size);
  safely_all capture_api ids;;
  mret (next_cursor batch_size ids).
Definition worker_pass (batch_size : Z) : proc aworld (option (uuid * Z)) :=
  rows ← worker_failed_page;
  safely_all capture_worker (map fst rows);;
  mret ((λ r : uuid * command_row, (c_execution_id r.2, c_sequence r.2)) <$> next_cursor batch_size rows).
Definition due_pass (batch_size : Z) : proc aworld unit :=
  due ← adb_read (λ now, due_cleanups now batch_size);
  safely_all execute_cleanup due.

(** [FailureRecovery.once]: its result and the cursors it leaves. *)
Definition failure_once (batch_size : Z) (has_worker : bool) (cursors : option uuid * option (uuid * Z)) (w : aworld)
    : result unit * (option uuid * option (uuid * Z)) * aworld :=
  match api_pass batch_size cursors.1 w with
  | (Err e, w1) => (Err e, cursors, w1)
  | (Ok api, w1) =>
      match (if has_worker then worker_pass batch_size else mret cursors.2) w1 with
      | (Err e, w2) => (Err e, (api, cursors.2), w2)
      | (Ok worker, w2) => let '(r, w3) := due_pass batch_size w2 in (r, (api, worker), w3)
      end
  end.
End FailureService.
