(* ===== verification/FailureServiceProps.v ===== *)
(** * Properties of the compensation of failed tasks

    For every schedule of faults, crash points and other processes: an
    execution of a cleanup never runs the graph, cancels only an execution the
    Executor reported as running, writes down a proof of termination only when
    there is one, and finishes the task only after its graph was seen at
    rest. *)

From stdpp Require Import base gmap strings list relations.
From Stdlib Require Import ZArith Lia.
From S2P Require Import Prelude Text WorkerContracts WorkerStore Session AgentTables Admission FailureStore TaskProjections AgentWorld Executor Effects AgentInv AgentSteps AgentAccept AgentHistory AgentProps AgentDemo AdmissionService AdmissionServiceProps EffectsProps FailureService.
Local Open Scope Z_scope.
Set Default Proof Using "Type".

Section Cleanup.
Context (fp : ApiRequest → string) (turn_fp : TaskTurn → string) (signal : json → result ResumeSignal)
  (digest : json → string) (command_response : json → result CommandResponse)
  (artifact_response : json → result json) (execution_result : json → result ExecutionResult)
  (max_attempts retry : Z).

Abbreviation agent_ok := (agent_ok fp signal digest).
Abbreviation agent_step := (agent_step fp signal digest).
Abbreviation runs := (rtc agent_step).

Section Runs.
(** The task, and the tables at the start of the run. *)
Context (id : uuid) (d0 : adb).

(** A row of the cleanup that was stored between the start and [d]. *)
Definition seen (r : cleanup_row) (d : adb) : Prop :=
  ∃ d1, runs d0 d1 ∧ runs d1 d ∧ cleanups d1 !! id = Some r.

(** [r] is of an attempt that a committed claim handed out in the budget. *)
Definition working (l : list action) (r : cleanup_row) : Prop :=
  f_task_id r = id ∧ ∃ d d' c, Committed d d' ∈ l ∧ cleanups d' !! id = Some c ∧ f_state c = F_PENDING ∧
    f_attempts c ≤ max_attempts ∧ f_attempts r = f_attempts c.

(** The Executor reported this status of the execution. *)
Definition reported (l : list action) (e : uuid) (status : string) : Prop :=
  ∃ body, Asked (result_path e) [] body ∈ l ∧ execution_result body = Ok (mk_execution_result e status).

(** No execution of the task was known, and none had been requested. *)
Definition nothing_submitted (d : adb) : Prop :=
  (∃ d1, runs d0 d1 ∧ runs d1 d ∧ execution_references id d1 = Ok (∅, 0%nat)) ∧
  (∃ d1 t, runs d0 d1 ∧ runs d1 d ∧ tasks d1 !! id = Some t ∧ k_execution_id t = None).

(** What justifies the proof of termination in a row. *)
Definition status_proof (l : list action) (d : adb) (c : cleanup_row) : Prop :=
  (f_executor_status c = Some "NOT_REQUIRED" ∧ f_execution_id c = None ∧ nothing_submitted d) ∨
  (∃ e status, f_executor_status c = Some status ∧ f_execution_id c = Some e ∧ status ∈ TERMINAL ∧ reported l e status).

(** The graph of the session was seen at rest with the result of the cleanup,
    or owned by a later task that the cleanup leaves alone. *)
Definition settled_proof (l : list action) (r : cleanup_row) : Prop :=
  ∃ s, ReadState (f_session_id r) s ∈ l ∧
    (receipt_settled s r = true ∨ validate_target turn_fp s r = Ok false ∨
     sn_next s = [] ∧ ∃ s' m, f_message r = Some m ∧
       Updated (f_session_id r) "failure_settled" (Some (settlement turn_fp s' r m)) ∈ l).

Definition proved_terminal (r : cleanup_row) : Prop :=
  missing (f_executor_status r) = false ∧ missing (f_message r) = false.

(** What justifies an entry of the log of the execution of the cleanup. *)
Definition cleanup_due (l : list action) (x : action) : Prop :=
  match x with
  | Invoked _ _ | Skipped _ _ => False
  | Sent q => ∃ r e status x d, working l r ∧ reported l e status ∧ status ∈ RUNNING_STATES ∧
      runs d0 d ∧ effects d !! cancel_key r = Some x ∧ x_request x = q ∧
      validate_identity x id "failure_cancel" (digest (cancel_inputs r e)) = Ok tt
  | Updated thread as_node u => ∃ r, working l r ∧ thread = f_session_id r ∧ proved_terminal r ∧
      (∃ s, ReadState thread s ∈ l ∧ validate_target turn_fp s r = Ok true) ∧
      match u with
      | None => as_node = END_NODE
      | Some g => as_node = "failure_settled" ∧
          ∃ s m, ReadState thread s ∈ l ∧ f_message r = Some m ∧ g = settlement turn_fp s r m
      end
  | Committed d d' => ∀ c c', cleanups d !! id = Some c → cleanups d' !! id = Some c' →
      (f_executor_status c' = f_executor_status c ∨ status_proof l d c') ∧
      (f_state c ≠ F_DONE → f_state c' = F_DONE →
         ∃ r, f_task_id r = id ∧ f_attempts r = f_attempts c ∧ seen r d ∧ proved_terminal r ∧ settled_proof l r)
  | _ => True
  end.

(** ** Growth of the evidence *)

Lemma working_later l l' r : working l r → working (l ++ l') r.
Proof. intros (? & d & d' & c & Hin & ?). split; [done|]. exists d, d', c. split; [by apply elem_of_app; left|done]. Qed.

Lemma reported_later l l' e st : reported l e st → reported (l ++ l') e st.
Proof. intros (b & Hin & ?). exists b. split; [by apply elem_of_app; left|done]. Qed.

Lemma settled_later l l' r : settled_proof l r → settled_proof (l ++ l') r.
Proof.
  intros (s & Hin & H). exists s. split; [by apply elem_of_app; left|].
  destruct H as [?|[?|(? & s' & m & ? & Hu)]]; [by left|by right; left|right; right].
  split; [done|]. exists s', m. split; [done|]. by apply elem_of_app; left.
Qed.

Lemma status_proof_later l l' d c : status_proof l d c → status_proof (l ++ l') d c.
Proof.
  intros [?|(e & st & ? & ? & ? & ?)]; [by left|right]. exists e, st. split_and!; try done. by apply reported_later.
Qed.

Lemma cleanup_due_later l l' x : cleanup_due l x → cleanup_due (l ++ l') x.
Proof.
  destruct x; try done; simpl.
  - intros (r & Hw & ? & ? & (s & Hs & ?) & Hu). exists r. split_and!; [by apply working_later|done|done|..].
    + exists s. split; [by apply elem_of_app; left|done].
    + destruct u; [|done]. destruct Hu as (? & s' & m & Hs' & ?). split; [done|]. exists s', m.
      split; [by apply elem_of_app; left|done].
  - intros (r & e & st & x & d & Hw & Hr & ?). exists r, e, st, x, d.
    split; [by apply working_later|]. split; [by apply reported_later|done].
  - intros H c c' Hc Hc'. destruct (H c c' Hc Hc') as [H1 H2]. split.
    + destruct H1; [by left|right]. by apply status_proof_later.
    + intros H3 H4. destruct (H2 H3 H4) as (r & ? & ? & ? & ? & ?). exists r. split_and!; try done. by apply settled_later.
Qed.

Lemma seen_later r d d' : runs d d' → seen r d → seen r d'.
Proof. intros Hr (d1 & ? & ? & ?). exists d1. split_and!; [done|by transitivity d|done]. Qed.
Lemma nothing_later d d' : runs d d' → nothing_submitted d → nothing_submitted d'.
Proof.
  intros Hr [(d1 & ? & ? & ?) (d2 & t & ? & ? & ? & ?)]. split; [exists d1|exists d2, t]; split_and!; try done; by transitivity d.
Qed.

(** ** Worlds of a run *)

Definition sound (w : aworld) : Prop :=
  afair runs w ∧ agent_ok (a_db w) ∧ runs d0 (a_db w) ∧ justified cleanup_due (a_log w).

Lemma justified_app l l' : justified cleanup_due l → (∀ x, x ∈ l' → cleanup_due l x) → justified cleanup_due (l ++ l').
Proof.
  induction l' as [|x l' IH] using rev_ind; intros Hl Hl'; [by rewrite app_nil_r|].
  rewrite app_assoc. apply justified_snoc.
  - apply IH; [done|]. intros y Hy. apply Hl'. by apply elem_of_app; left.
  - apply cleanup_due_later, Hl'. apply elem_of_app. right. by left.
Qed.

Lemma sound_after w w' l : sound w → after runs w w' l → (∀ x, x ∈ l → cleanup_due (a_log w) x) → sound w'.
Proof.
  intros (_ & Hd & H0 & Hj) (F & Hr & L) Hl. split_and!; [done|by eapply agent_run_ok|by transitivity (a_db w)|].
  rewrite L. by apply justified_app.
Qed.

Lemma sound_nil w w' : sound w → after runs w w' [] → sound w'.
Proof. intros Hw Ha. eapply sound_after; [done..|]. intros x Hx. by apply not_elem_of_nil in Hx. Qed.

Lemma sound_one w w' x : sound w → after runs w w' [x] → cleanup_due (a_log w) x → sound w'.
Proof. intros Hw Ha Hx. eapply sound_after; [done..|]. by intros y ->%list_elem_of_singleton. Qed.

(** What is known of the record an attempt works on. *)
Definition holding (r : cleanup_row) (w : aworld) : Prop := sound w ∧ seen r (a_db w) ∧ working (a_log w) r.

Lemma holding_after r w w' l : holding r w → sound w' → after runs w w' l → holding r w'.
Proof.
  intros (_ & Hs & Hw) Hg (_ & Hr & L). split_and!; [done|by eapply seen_later|].
  rewrite L. by apply working_later.
Qed.

Lemma holding_nil r w w' : holding r w → after runs w w' [] → holding r w'.
Proof. intros Hh Ha. eapply holding_after; [done|eapply sound_nil; [apply Hh|done]|done]. Qed.

Lemma holding_one r w w' x : holding r w → after runs w w' [x] → cleanup_due (a_log w) x → holding r w'.
Proof. intros Hh Ha Hx. eapply holding_after; [done|eapply sound_one; [apply Hh|done..]|done]. Qed.

(** A commit that neither finishes the cleanup nor writes a proof. *)
Definition quiet (d d' : adb) : Prop := ∀ c c', cleanups d !! id = Some c → cleanups d' !! id = Some c' →
  f_executor_status c' = f_executor_status c ∧ (f_state c ≠ F_DONE → f_state c' ≠ F_DONE).

Lemma quiet_due l d d' : quiet d d' → cleanup_due l (Committed d d').
Proof. intros Hq c c' Hc Hc'. destruct (Hq c c' Hc Hc') as [H1 H2]. split; [by left|]. intros H3 H4. by destruct (H2 H3). Qed.

Lemma quiet_same d d' : cleanups d' = cleanups d → quiet d d'.
Proof. intros E c c' Hc Hc'. rewrite E, Hc in Hc'. injection Hc' as ->. by split. Qed.

(** A transaction of an attempt. *)
Lemma wp_cleanup_call {A} (m : timestamp → uuid → tx adb A) Q w : sound w →
  (∀ now u d a d', m now u d = Ok (a, d') → agent_step d d') →
  (∀ now u d a d', m now u d = Ok (a, d') → agent_ok d → runs (a_db w) d → cleanup_due (a_log w) (Committed d d')) →
  (∀ now u d a w', m now u d = Ok (a, a_db w') → agent_ok d → runs (a_db w) d → sound w' →
     after runs w w' [Committed d (a_db w')] → Q (Ok a) w' ∧ ∀ e, Q (Err (driver_fault e)) w') →
  (∀ w' e, sound w' → after runs w w' [] → Q (Err e) w') →
  wp (adb_call m) Q w.
Proof.
  intros Hw Hstep Hdue Hok Herr. pose proof Hw as (Hf & Hd & _ & _). apply (wp_adb_call runs); [done|..].
  - intros now u d a d' H. by eapply rtc_once, Hstep.
  - intros now u d a w' H Hr Ha. assert (Hdok : agent_ok d) by by eapply agent_run_ok.
    eapply Hok; [exact H|done|done| |done]. eapply sound_one; [done..|]. by eapply Hdue.
  - intros now u w' e Ha _. apply Herr; [by eapply sound_nil|done].
  - intros w' e Ha. apply Herr; [by eapply sound_nil|done].
Qed.

Lemma wp_cleanup_read {A} (q : timestamp → adb → result A) Q w : sound w →
  (∀ now w', sound w' → after runs w w' [] → Q (q now (a_db w')) w') →
  (∀ w' e, sound w' → after runs w w' [] → Q (Err e) w') →
  wp (adb_read q) Q w.
Proof.
  intros Hw Hq Herr. apply (wp_adb_read runs); [apply Hw|..].
  - intros now w' Ha. apply Hq; [by eapply sound_nil|done].
  - intros w' e Ha. apply Herr; [by eapply sound_nil|done].
Qed.

Lemma wp_state thread Q w : sound w →
  (∀ s w', sound w' → after runs w w' [ReadState thread s] → Q (Ok s) w') →
  (∀ w' e, sound w' → after runs w w' [] → Q (Err e) w') →
  wp (aget_state thread) Q w.
Proof.
  intros Hw Hq Herr. apply (wp_aget_state runs); [apply Hw|..].
  - intros s w' Ha. apply Hq; [by eapply sound_one|done].
  - intros w' e Ha. apply Herr; [by eapply sound_nil|done].
Qed.

Lemma log_last w w' l x : after runs w w' l → x ∈ l → x ∈ a_log w'.
Proof. intros (_ & _ & ->) Hx. by apply elem_of_app; right. Qed.
Lemma log_kept w w' l x : after runs w w' l → x ∈ a_log w → x ∈ a_log w'.
Proof. intros (_ & _ & ->) Hx. by apply elem_of_app; left. Qed.

(** A read of the Executor leaves only what it was answered. *)
Lemma asked_sound w w' l path params : sound w → after runs w w' l → (∀ a, a ∈ l → ∃ j, a = Asked path params j) → sound w'.
Proof. intros Hw Ha Hl. eapply sound_after; [done..|]. by intros x (j & ->)%Hl. Qed.

Lemma known_status_holds r e w : holding r w →
  wp (known_status execution_result e) (λ x w', holding r w' ∧ ∃ l, after runs w w' l ∧
    ∀ st, x = Ok st → reported (a_log w') e st ∧ (st ∈ TERMINAL ∨ st ∈ RUNNING_STATES)) w.
Proof.
  intros Hh. unfold known_status, execution_status. apply wp_bind, wp_bind, (wp_http_get runs); [apply Hh|].
  intros x w1 l Ha Hl Hok. assert (H1 : holding r w1) by (eapply holding_after; [done|by eapply asked_sound; [apply Hh|..]|done]).
  destruct x as [body|err]; [|by split; [|exists l]]. apply wp_lift. destruct (execution_result body) as [[e' st]|err] eqn:E;
    [|by split; [|exists l]]. apply wp_bind, wp_guard; intros He; [|by split; [|exists l]].
  apply wp_bind, wp_guard; intros Hst; [|by split; [|exists l]]. apply wp_ret. split; [done|]. exists l. split; [done|].
  intros ? [= <-]. cbn [xr_execution_id xr_status] in *. apply N.eqb_eq in He as ->. split.
  - exists body. split; [|done]. eapply log_last; [exact Ha|by apply Hok].
  - apply existsb_exists in Hst as (y & Hin & <-%String.eqb_eq). rewrite !list_elem_of_In.
    by apply in_app_or.
Qed.

Lemma add_id_empty o ids : add_id o ids = ∅ → o = None ∧ ids = ∅.
Proof. destruct o as [u|]; [|done]. simpl. intros E. exfalso. assert (u ∈ ({[u]} ∪ ids : gset uuid)) as Hu by set_solver. rewrite E in Hu. set_solver. Qed.

(** What [resolve] found out, at the end of a stretch of the run. *)
Definition resolved_post (r : cleanup_row) (x : result (option uuid)) (w : aworld) : Prop :=
  holding r w ∧ (x = Ok None → nothing_submitted (a_db w) ∧ f_execution_id r = None).

Lemma find_execution_holds r u p s t w : holding r w → wp (find_task_execution u p s t) (λ _ w', holding r w') w.
Proof.
  intros Hh. apply wp_bind, (wp_http_get runs); [apply Hh|]. intros x w1 l Ha Hl _.
  assert (H1 : holding r w1) by (eapply holding_after; [done|by eapply asked_sound; [apply Hh|..]|done]).
  destruct x; [by apply wp_lift|done].
Qed.

Lemma resolve_holds r s w : holding r w → wp (resolve r s) (resolved_post r) w.
Proof.
  intros Hh. unfold resolve. assert (Hid : f_task_id r = id) by apply Hh. rewrite Hid.
  assert (Hfail : ∀ w' e, holding r w' → resolved_post r (Err e) w') by (intros; by split).
  apply wp_bind, wp_cleanup_read; [apply Hh| |intros; apply Hfail; by eapply holding_nil].
  intros _ w1 _ Ha1. assert (H1 : holding r w1) by by eapply holding_nil.
  destruct (tasks (a_db w1) !! id) as [t|] eqn:Ht; cbn [from_option_err]; [|by apply Hfail].
  apply wp_bind, wp_cleanup_read; [apply H1| |intros; apply Hfail; by eapply holding_nil].
  intros _ w2 _ Ha2. assert (H2 : holding r w2) by by eapply holding_nil.
  apply wp_bind, wp_lift. destruct (checkpoint_id r s) as [here|e]; [|by apply Hfail].
  apply wp_bind, wp_cleanup_read; [apply H2| |intros; apply Hfail; by eapply holding_nil].
  intros _ w3 _ Ha3. assert (H3 : holding r w3) by by eapply holding_nil.
  destruct (execution_references id (a_db w3)) as [[refs n]|e] eqn:Er; [|by apply Hfail].
  apply wp_bind, wp_guard; intros Hn; [|by apply Hfail]. cbn [fst snd] in *.
  destruct (elements _) as [|u [|v l]] eqn:El; [|by apply wp_ret|by apply wp_throw, Hfail].
  apply elements_empty_inv in El. apply leibniz_equiv, add_id_empty in El as [_ El].
  apply add_id_empty in El as [_ El]. apply add_id_empty in El as [Et El]. apply add_id_empty in El as [Ef ->].
  destruct (Nat.eqb_spec n 0) as [->|Hn0].
  - apply wp_ret. split; [done|]. intros _. split; [|done]. destruct Ha2 as (_ & R2 & _), Ha3 as (_ & R3 & _).
    destruct H1 as [(_ & _ & R1 & _) _], H3 as [(_ & _ & R03 & _) _]. split.
    + by exists (a_db w3).
    + exists (a_db w1), t. split_and!; try done. by transitivity (a_db w2).
  - apply wp_bind, wp_try. eapply wp_mono; [by apply find_execution_holds|]. intros x w4 H4. destruct x as [found|e].
    + apply wp_bind, wp_guard; intros Hs; [|by apply Hfail]. apply wp_ret. split; [done|]. intros [= ->]. by apply bool_decide_eq_true, is_Some_None in Hs.
    + destruct (is_ValueError e); by apply wp_throw, Hfail.
Qed.

Lemma journal_due r e status w w' l : holding r w → reported (a_log w) e status → status ∈ RUNNING_STATES → after runs w w' l →
  (∀ a, a ∈ l → journal_entry fp signal digest (λ _ _ _, True) id (cancel_key r) "failure_cancel" (cancel_inputs r e) (a_db w) (a_log w') (a_db w') a) →
  ∀ a, a ∈ l → cleanup_due (a_log w) a.
Proof.
  intros (Hs & _ & Hw) Hr Hst Ha Hl a Hin. specialize (Hl a Hin). destruct a; try done.
  - destruct Hl as (x & d & R1 & R2 & Hx & Hq & Hv). exists r, e, status, x, d.
    split_and!; try done. transitivity (a_db w); [apply Hs|done].
  - simpl in Hl. destruct Hl as [Hl _]. apply quiet_due, quiet_same. by rewrite Hl.
Qed.

(** What [confirm_terminal] came back with. *)
Definition confirmed_post (r : cleanup_row) (e : uuid) (x : result string) (w : aworld) : Prop :=
  holding r w ∧ ∀ st, x = Ok st → reported (a_log w) e st ∧ st ∈ TERMINAL.

Lemma confirm_terminal_holds r e w : holding r w →
  wp (confirm_terminal digest command_response artifact_response execution_result r e) (confirmed_post r e) w.
Proof.
  intros Hh. unfold confirm_terminal. assert (Hfail : ∀ w' e', holding r w' → confirmed_post r e (Err e') w') by (intros; by split).
  assert (Hin : ∀ st, is_terminal_status st = true → st ∈ TERMINAL).
  { intros st (y & Hy & <-%String.eqb_eq)%existsb_exists. by apply list_elem_of_In. }
  assert (Hlast : ∀ w', holding r w' → wp (current ← known_status execution_result e;
      guard_or (is_terminal_status current) (cleanup_pending "Executor cancellation is not yet terminal");; mret current)
      (confirmed_post r e) w').
  { intros w' H'. apply wp_bind. eapply wp_mono; [by apply known_status_holds|]. intros [st|e'] w2 [H2 (l & _ & Hst)]; [|by apply Hfail].
    apply wp_bind, wp_guard; intros Ht; [|by apply Hfail]. apply wp_ret. split; [done|]. intros ? [= <-].
    split; [by apply Hst|by apply Hin]. }
  apply wp_bind. eapply wp_mono; [by apply known_status_holds|]. intros [st|e'] w1 [H1 (l & _ & Hst)]; [|by apply Hfail].
  destruct (Hst st eq_refl) as [Hrep Hstates]. destruct (is_terminal_status st) eqn:Ht.
  - apply wp_ret. split; [done|]. intros ? [= <-]. split; [done|by apply Hin].
  - assert (Hrun : st ∈ RUNNING_STATES).
    { destruct Hstates as [Hin'|]; [|done]. exfalso. apply not_true_iff_false in Ht. apply Ht, existsb_exists. exists st.
      split; [by apply list_elem_of_In|by apply String.eqb_eq]. }
    assert (Hid : f_task_id r = id) by apply H1.
    apply wp_bind, wp_try, wp_bind. rewrite Hid. pose proof H1 as ((Hf1 & Hd1 & _) & _ & _).
    eapply wp_mono; [apply (journal_run_good fp signal digest command_response artifact_response (λ _ _ _, True) id (cancel_key r) "failure_cancel"
      (cancel_inputs r e) (mret (cancel_request r e)) w1); [|done..]|].
    { by apply prepares_ret. }
    intros x w2 (l2 & Ha2 & Hl2 & _).
    assert (H2 : holding r w2) by (eapply holding_after; [done|eapply sound_after; [apply H1|done|by eapply journal_due]|done]).
    destruct x as [row|e']; [by apply wp_ret, Hlast|].
    destruct (is_conflict_reply e'); [by apply wp_ret, Hlast|by apply wp_throw, Hfail].
Qed.

(** ** The settlement of the graph *)

Definition settled_post (r : cleanup_row) (x : result unit) (w : aworld) : Prop :=
  holding r w ∧ (x = Ok tt → proved_terminal r ∧ settled_proof (a_log w) r).

Lemma settle_graph_holds r w : holding r w → wp (settle_graph turn_fp r) (settled_post r) w.
Proof.
  intros Hh. unfold settle_graph. assert (Hfail : ∀ w' e, holding r w' → settled_post r (Err e) w') by (intros; by split).
  destruct (f_message r) as [m|] eqn:Em; [|by apply wp_throw, Hfail].
  destruct (missing (f_executor_status r) || String.eqb m "") eqn:Hp; [by apply wp_throw, Hfail|].
  assert (Hproved : proved_terminal r).
  { apply orb_false_iff in Hp as [H1 H2]. split; [done|]. unfold missing, or_else. by rewrite Em, H2. }
  apply wp_bind, wp_state; [apply Hh| |intros; apply Hfail; by eapply holding_nil].
  intros s w1 _ Ha1. assert (H1 : holding r w1) by by eapply holding_one.
  apply wp_bind, wp_lift. destruct (validate_target turn_fp s r) as [target|e] eqn:Et; [|by apply Hfail].
  assert (Hs1 : ReadState (f_session_id r) s ∈ a_log w1) by (eapply log_last; [exact Ha1|by left]).
  destruct (negb target || receipt_settled s r) eqn:Hdone.
  { apply wp_ret. split; [done|]. intros _. split; [done|]. exists s. split; [done|].
    apply orb_true_iff in Hdone as [->%negb_true_iff|]; [by right; left|by left]. }
  apply orb_false_iff in Hdone as [->%negb_false_iff _].
  assert (Htarget : ∀ w', holding r w' → ReadState (f_session_id r) s ∈ a_log w' →
    ∃ s, ReadState (f_session_id r) s ∈ a_log w' ∧ validate_target turn_fp s r = Ok true) by (intros; by exists s).
  apply wp_bind, (wp_aupdate_state runs); [apply H1| |intros; apply Hfail; by eapply holding_nil].
  intros w2 Ha2. assert (H2 : holding r w2).
  { eapply holding_one; [done..|].
    exact (ex_intro _ r (conj (proj2 (proj2 H1)) (conj eq_refl (conj Hproved (conj (Htarget _ H1 Hs1) eq_refl))))). }
  split; [|intros e; by apply Hfail]. assert (Hs2 : ReadState (f_session_id r) s ∈ a_log w2) by by eapply log_kept.
  apply wp_bind, wp_state; [apply H2| |intros; apply Hfail; by eapply holding_nil].
  intros s' w3 _ Ha3. assert (H3 : holding r w3) by by eapply holding_one.
  apply wp_bind, wp_lift. destruct (validate_turn (f_turn r)) as [[]|e]; [|by apply Hfail].
  assert (Hs3 : ReadState (f_session_id r) s ∈ a_log w3) by by eapply log_kept.
  apply wp_bind, (wp_aupdate_state runs); [apply H3| |intros; apply Hfail; by eapply holding_nil].
  intros w4 Ha4. assert (H4 : holding r w4).
  { eapply holding_one; [done..|].
    refine (ex_intro _ r (conj (proj2 (proj2 H3)) (conj eq_refl (conj Hproved (conj (Htarget _ H3 Hs3) (conj eq_refl _)))))).
    exists s', m. split; [eapply log_last; [exact Ha3|by left]|done]. }
  split; [|intros e; by apply Hfail].
  apply wp_bind, wp_state; [apply H4| |intros; apply Hfail; by eapply holding_nil].
  intros after w5 _ Ha5. assert (H5 : holding r w5) by by eapply holding_one.
  apply wp_guard; intros Hrest; [|by apply Hfail]. split; [done|]. intros _. split; [done|].
  exists after. split; [eapply log_last; [exact Ha5|by left]|]. right; right. split; [by apply bool_decide_eq_true in Hrest|].
  exists s', m. split; [done|]. eapply log_kept; [exact Ha5|]. eapply log_last; [exact Ha4|by left].
Qed.

(** ** The transactions of an attempt *)

Lemma cleanup_fenced_row record d c d' : agent_ok d → f_task_id record = id → fenced record d = Ok (c, d') →
  d' = d ∧ cleanups d !! id = Some c ∧ f_task_id c = id ∧ f_state c = F_PENDING ∧ f_attempts c = f_attempts record.
Proof. intros Hd Hid H. apply (fenced_Ok _ _ _ _ _ _ _ Hd) in H as (-> & Hc & E & ? & ?). rewrite Hid in E. by rewrite E in Hc. Qed.

Lemma put_row_quiet d d' c c' : cleanups d !! id = Some c → cleanups d' = <[id := c']> (cleanups d) →
  f_executor_status c' = f_executor_status c → f_state c' ≠ F_DONE → quiet d d'.
Proof.
  intros Hc E Hs Hst x x' Hx Hx'. rewrite E, lookup_insert_eq in Hx'. injection Hx' as <-.
  rewrite Hc in Hx. injection Hx as <-. by split.
Qed.

Lemma bind_row now record e d r d' : agent_ok d → f_task_id record = id → bind_execution now record e d = Ok (r, d') →
  cleanups d' !! id = Some r ∧ f_task_id r = id ∧ f_attempts r = f_attempts record ∧ quiet d d'.
Proof.
  intros Hd Hid H. unfold bind_execution, put_cleanup, put_task, put_lock in H. tx_inv.
  apply (cleanup_fenced_row _ _ _ _ Hd Hid) in Hrun as (-> & Hc & Eid & Hs & Ea). rewrite Eid in *.
  destruct (tasks d !! id); [|done]. destruct (session_locks d !! f_session_id a) as [l|]; tx_inv.
  simpl. rewrite lookup_insert_eq. split_and!; [done..|]. eapply put_row_quiet; [exact Hc|done|done|]. simpl. congruence.
Qed.

Lemma confirm_row now record x st m d r d' : agent_ok d → f_task_id record = id → confirm now record x st m d = Ok (r, d') →
  ∃ c, cleanups d !! id = Some c ∧ f_attempts r = f_attempts record ∧ f_task_id r = id ∧
    cleanups d' = <[id := r]> (cleanups d) ∧ f_executor_status r = Some st ∧ f_execution_id r = x ∧ f_message r = Some m ∧
    f_state r = F_PENDING.
Proof.
  intros Hd Hid H. revert Hid. unfold confirm, put_cleanup in H. tx_inv. intros Hid.
  apply (cleanup_fenced_row _ _ _ _ Hd Hid) in Hrun0 as (-> & Hc & Eid & Hs & Ea). rewrite Eid in *. by exists a0.
Qed.

Lemma defer_row now record err delay blocked d d' : agent_ok d → f_task_id record = id →
  defer now record err delay blocked d = Ok (tt, d') → quiet d d'.
Proof.
  intros Hd Hid H. unfold defer, put_cleanup in H. tx_inv.
  apply (cleanup_fenced_row _ _ _ _ Hd Hid) in Hrun as (-> & Hc & Eid & Hs & Ea). rewrite Eid in *.
  eapply put_row_quiet; [exact Hc|done|done|]. simpl. by destruct blocked.
Qed.

Lemma finish_row now fresh record d d' : agent_ok d → f_task_id record = id →
  finish_cleanup now fresh record d = Ok (tt, d') →
  ∃ c c', cleanups d !! id = Some c ∧ cleanups d' !! id = Some c' ∧ f_executor_status c' = f_executor_status c ∧
    f_attempts c = f_attempts record ∧ proved_terminal record.
Proof.
  intros Hd Hid H. unfold finish_cleanup, compensate, delete_locks, put_cleanup in H. tx_inv.
  match goal with Hm : negb _ = true |- _ => apply negb_true_iff, orb_false_iff in Hm as [Hm1 Hm2] end.
  apply (cleanup_fenced_row _ _ _ _ Hd Hid) in Hrun0 as (-> & Hc & Eid & Hs & Ea). rewrite Eid in *.
  destruct (tasks d !! id) as [t|]; [|done]. tx_inv. exists a0, (touch_cleanup now "AGENT" F_DONE (f_attempts a0) (f_next_attempt_at a0) None a0).
  split_and!; try done. simpl. by rewrite lookup_insert_eq.
Qed.

(** ** An attempt *)

Lemma seen_now r w : sound w → cleanups (a_db w) !! id = Some r → seen r (a_db w).
Proof. intros (_ & _ & H0 & _) Hr. by exists (a_db w). Qed.

(** [finish] of a record whose graph is settled. *)
Lemma finish_holds r w Q : sound w → seen r (a_db w) → f_task_id r = id → settled_proof (a_log w) r →
  (∀ x w', sound w' → (∃ l, after runs w w' l) → Q x w') →
  wp (adb_call (λ now fresh, finish_cleanup now fresh r)) Q w.
Proof.
  intros Hw Hs Hid Hp HQ. apply wp_cleanup_call; [done|..].
  - intros now u d [] d' H. by eapply step_finish_cleanup.
  - intros now u d [] d' H Hd Hr c c' Hc Hc'. destruct (finish_row _ _ _ _ _ Hd Hid H) as (y & y' & Hy & Hy' & Est & Ea & Hpr).
    rewrite Hc in Hy. injection Hy as <-. rewrite Hc' in Hy'. injection Hy' as <-. split; [by left|]. intros _ _.
    exact (ex_intro _ r (conj Hid (conj (eq_sym Ea) (conj (seen_later _ _ _ Hr Hs) (conj Hpr Hp))))).
  - intros now u d a w' _ _ _ Hg Ha. split; [|intros e]; by eapply HQ; eauto.
  - intros w' e Hg Ha. by eapply HQ; eauto.
Qed.

(** What the proof of termination of a claimed record is written from. *)
Definition outcome_known (r : cleanup_row) (execution : option uuid) (x : result string) (w : aworld) : Prop :=
  holding r w ∧ ∀ st, x = Ok st →
    match execution with
    | Some e => reported (a_log w) e st ∧ st ∈ TERMINAL
    | None => st = "NOT_REQUIRED" ∧ nothing_submitted (a_db w)
    end.

Lemma confirm_holds r execution st m w : outcome_known r execution (Ok st) w →
  wp (adb_call (λ now _, confirm now r execution st m))
    (λ x w', match x with Ok r' => holding r' w' | Err _ => sound w' end) w.
Proof.
  intros [Hh Hst]. pose proof Hh as (Hw & Hs & Hwork). assert (Hid : f_task_id r = id) by apply Hwork. apply wp_cleanup_call; [done|..].
  - intros now _ d a d' H. by eapply step_confirm.
  - intros now _ d a d' H Hd Hr c c' Hc Hc'. destruct (confirm_row _ _ _ _ _ _ _ _ Hd Hid H) as (y & Hy & _ & _ & E & Es & Ee & _ & Est).
    rewrite E, lookup_insert_eq in Hc'. injection Hc' as <-. split; [right|by rewrite Est].
    specialize (Hst st eq_refl). destruct execution as [e|].
    + right. exists e, st. by destruct Hst.
    + destruct Hst as [-> Hn]. left. split_and!; [done|done|..]; by eapply nothing_later.
  - intros now _ d a w' H Hd Hr Hg Ha. split; [|done]. destruct (confirm_row _ _ _ _ _ _ _ _ Hd Hid H) as (y & Hy & Ea & Eid & E & _).
    assert (Hnow : cleanups (a_db w') !! id = Some a) by (rewrite E; apply lookup_insert_eq).
    split; [done|]. split; [by apply seen_now|]. destruct Ha as (_ & _ & L). rewrite L. apply working_later.
    destruct Hwork as (_ & d1 & d1' & c & ? & ? & ? & ? & ?). split; [done|]. exists d1, d1', c. split_and!; try done. congruence.
  - done.
Qed.

Lemma bind_holds r execution w : holding r w →
  wp (match execution with Some e => adb_call (λ now _, bind_execution now r e) | None => mret r end)
    (λ x w', match x with Ok r' => holding r' w' ∧ (execution = None → r' = r ∧ w' = w) | Err _ => sound w' end) w.
Proof.
  intros Hh. destruct execution as [e|]; [|by apply wp_ret]. pose proof Hh as (Hw & Hs & Hwork).
  assert (Hid : f_task_id r = id) by apply Hwork. apply wp_cleanup_call; [done|..].
  - intros now _ d a d' H. by eapply step_bind.
  - intros now _ d a d' H Hd Hr. by apply quiet_due, (bind_row _ _ _ _ _ _ Hd Hid H).
  - intros now _ d a w' H Hd Hr Hg Ha. split; [|done]. destruct (bind_row _ _ _ _ _ _ Hd Hid H) as (Hnow & Eid & Ea & _).
    split; [|done]. split; [done|]. split; [by apply seen_now|]. destruct Ha as (_ & _ & L). rewrite L. apply working_later.
    destruct Hwork as (_ & d1 & d1' & c & ? & ? & ? & ? & ?). split; [done|]. exists d1, d1', c. split_and!; try done. congruence.
  - done.
Qed.

(** The record with a proof of termination. *)
Lemma prove_holds r s w : holding r w →
  wp (execution ← resolve r s;
      bound ← (match execution with
               | Some e => adb_call (λ now _, bind_execution now r e)
               | None => mret r
               end);
      status ← (match execution with
                | Some e => confirm_terminal digest command_response artifact_response execution_result bound e
                | None => mret "NOT_REQUIRED"
                end);
      adb_call (λ now _, confirm now bound execution status (failure_message (f_reason bound) status)))
    (λ x w', match x with Ok r' => holding r' w' | Err _ => sound w' end) w.
Proof.
  intros Hh. apply wp_bind. eapply wp_mono; [by apply resolve_holds|]. intros [execution|e] w1 [H1 Hnone]; [|apply H1].
  apply wp_bind. eapply wp_mono; [by apply bind_holds|]. intros [bound|e] w2; [|done]. intros [H2 Hsame].
  apply wp_bind. destruct execution as [e|].
  - eapply wp_mono; [by apply confirm_terminal_holds|]. intros [st|e'] w3 [H3 Hst]; [|apply H3].
    by apply confirm_holds.
  - destruct (Hsame eq_refl) as [-> ->]. apply wp_ret, confirm_holds. split; [done|]. intros st [= <-].
    split; [done|]. by apply Hnone.
Qed.

Lemma cleanup_attempt_holds r w : holding r w →
  wp (cleanup_attempt turn_fp digest command_response artifact_response execution_result r) (λ _ w', sound w') w.
Proof.
  intros Hh. apply wp_bind, wp_state; [apply Hh| |by intros].
  intros s w1 _ Ha1. assert (H1 : holding r w1) by by eapply holding_one.
  apply wp_bind, wp_lift. destruct (validate_target turn_fp s r) as [t|e]; [|apply H1].
  assert (Hend : ∀ r' w2, holding r' w2 →
    wp (settle_graph turn_fp r';; adb_call (λ now fresh, finish_cleanup now fresh r')) (λ _ w', sound w') w2).
  { intros r' w2 H2. apply wp_bind. eapply wp_mono; [by apply settle_graph_holds|].
    intros [[]|e] w3 [H3 Hp]; [|apply H3]. apply finish_holds; [apply H3..|by apply Hp|by intros]. }
  apply wp_bind. destruct (f_executor_status r) as [st|]; [by apply wp_ret, Hend|].
  eapply wp_mono; [by apply prove_holds|]. intros [r'|e] w2 H2; [by apply Hend|done].
Qed.

Lemma claimed_attempt_holds r w : holding r w →
  wp (claimed_attempt turn_fp digest command_response artifact_response execution_result max_attempts retry r) (λ _ w', sound w') w.
Proof.
  intros Hh. pose proof Hh as (_ & _ & (Hid & _)). apply wp_try, (wp_with_timeout runs).
  assert (Hcatch : ∀ (x : result unit) w', sound w' → match x with Ok _ => sound w' | Err e => wp (if is_Exception e then
      adb_call (λ now _, defer now r (exn_name e +:+ ": " +:+ exn_str e) (backoff retry (f_attempts r))
        (is_unsafe_cleanup e || (max_attempts <=? f_attempts r))) else throw e) (λ _ w', sound w') w' end).
  { intros [[]|e] w' H'; [done|]. destruct (is_Exception e); [|by apply wp_throw]. apply wp_cleanup_call; [done|..|by intros].
    - intros now _ d [] d' H. by eapply step_defer_cleanup.
    - intros now _ d [] d' H Hd Hr. by eapply quiet_due, defer_row.
    - intros now _ d a w2 _ _ _ Hg _. by split. }
  eapply wp_mono; [by apply cleanup_attempt_holds|]. intros x w1 H1. split; [by apply Hcatch|]. intros _. split; [apply H1|].
  intros w2 Ha. assert (H2 : sound w2) by by eapply sound_nil.
  split; [exact (Hcatch (Err TimeoutError) w2 H2)|exact (Hcatch (Err CancelledError) w2 H2)].
Qed.

(** ** The whole execution *)

Lemma claim_row now delay d r d' : agent_ok d → claim_cleanup now id max_attempts delay d = Ok (r, d') →
  cleanups d' !! id = Some r ∧ f_task_id r = id ∧ quiet d d' ∧ (f_state r = F_PENDING → f_attempts r ≤ max_attempts).
Proof.
  intros Hd H. unfold claim_cleanup, put_cleanup in H. tx_inv. apply required_cleanup_Ok in Hrun as [Hc ->].
  destruct (cleanup_facts _ _ _ _ _ _ Hd Hc) as (Eid & _). destruct (bool_decide (f_state a = F_PENDING)) eqn:Ep; cbn [negb] in H.
  - apply bool_decide_eq_true in Ep. tx_inv. simpl. rewrite lookup_insert_eq.
    assert (Hq : ∀ c', f_executor_status c' = f_executor_status a → f_state c' ≠ F_DONE → quiet d (set_cleanups <[id:=c']> d))
      by (intros c' ? ?; by eapply put_row_quiet).
    destruct (max_attempts <=? f_attempts a) eqn:Em; (split; [done|split; [done|split; [by apply Hq|]]]); [done|].
    intros _. simpl. apply Z.leb_gt in Em. lia.
  - tx_inv. apply bool_decide_eq_false in Ep. split; [done|split; [done|split; [|done]]]. by apply quiet_same.
Qed.

Lemma claim_and_run_holds w : sound w →
  wp (claim_and_run turn_fp digest command_response artifact_response execution_result max_attempts retry id) (λ _ w', sound w') w.
Proof.
  intros Hw. apply wp_bind, wp_cleanup_call; [done|..|by intros].
  - intros now _ d a d' H. by eapply step_claim_cleanup.
  - intros now _ d a d' H Hd Hr. by eapply quiet_due, claim_row.
  - intros now _ d r w1 H Hd Hr H1 Ha. split; [|done]. destruct (claim_row _ _ _ _ _ Hd H) as (Hnow & Hid & _ & Hle).
    case_bool_decide as Hs; [|by apply wp_ret]. apply claimed_attempt_holds. split; [done|]. split; [by apply seen_now|].
    split; [done|]. exists d, (a_db w1), r. split; [eapply log_last; [exact Ha|by left]|]. by auto.
Qed.

Lemma cleanup_held_holds w : sound w →
  wp (cleanup_held turn_fp digest command_response artifact_response execution_result max_attempts retry id) (λ _ w', sound w') w.
Proof.
  intros Hw. apply wp_bind, wp_cleanup_read; [done| |by intros]. intros _ w1 H1 _. unfold get_cleanup.
  destruct (cleanups (a_db w1) !! id) as [r|] eqn:Hr; [|by apply wp_throw].
  assert (Hid : f_task_id r = id) by (eapply (cleanup_facts fp signal digest); [apply H1|done]).
  destruct (negb (bool_decide (f_state r = F_PENDING))); [by apply wp_ret|].
  destruct (missing (f_executor_status r) || missing (f_message r)); [by apply claim_and_run_holds|].
  apply wp_bind, wp_state; [done| |by intros]. intros s w2 H2 Ha2.
  assert (Hread : ReadState (f_session_id r) s ∈ a_log w2) by (eapply log_last; [exact Ha2|by left]).
  assert (Hseen : seen r (a_db w2)).
  { destruct Ha2 as (_ & R2 & _). eapply seen_later; [exact R2|by apply seen_now]. }
  destruct (already_settled turn_fp s r) as [[]|e] eqn:Es; [|by apply claim_and_run_holds|].
  - apply finish_holds; [done..| |by intros]. exists s. split; [done|]. unfold already_settled in Es.
    destruct (receipt_settled s r); [by left|]. apply result_bind_Ok in Es as (t & Et & [= ->%negb_true_iff]). by right; left.
  - destruct (is_unsafe_cleanup e); [|by apply wp_throw]. apply wp_cleanup_call; [done|..|by intros].
    + intros now _ d [] d' H. by eapply step_defer_cleanup.
    + intros now _ d [] d' H Hd Hrr. by eapply quiet_due, defer_row.
    + intros now _ d a w3 _ _ _ Hg _. by split.
Qed.

Lemma cleanup_busy_quiet now delay d u d' : cleanup_defer_busy now id delay d = Ok (u, d') → quiet d d'.
Proof.
  intros H. unfold cleanup_defer_busy, put_cleanup in H. tx_inv. apply required_cleanup_Ok in Hrun as [Hc ->].
  case_bool_decide as Es; tx_inv; [|by apply quiet_same]. eapply put_row_quiet; [exact Hc|done|done|]. simpl. congruence.
Qed.

Lemma execute_cleanup_holds w : sound w →
  wp (execute_cleanup turn_fp digest command_response artifact_response execution_result max_attempts retry id) (λ _ w', sound w') w.
Proof.
  intros Hw. apply wp_bind, wp_cleanup_read; [done| |by intros]. intros _ w1 H1 _. unfold get_cleanup.
  destruct (cleanups (a_db w1) !! id) as [r|]; [|by apply wp_ret]. destruct (negb (bool_decide (f_state r = F_PENDING))); [by apply wp_ret|].
  apply wp_try.
  assert (Hcatch : ∀ (x : result unit) w', sound w' → match x with Ok _ => sound w' | Err e => wp (if is_defer e then
      adb_call (λ now _, cleanup_defer_busy now id retry) else throw e) (λ _ w', sound w') w' end).
  { intros [[]|e] w' H'; [done|]. destruct (is_defer e); [|by apply wp_throw]. apply wp_cleanup_call; [done|..|by intros].
    - intros now _ d [] d' H. by eapply step_cleanup_busy.
    - intros now _ d [] d' H Hd Hr. by eapply quiet_due, cleanup_busy_quiet.
    - intros now _ d a w2 _ _ _ Hg _. by split. }
  apply (wp_ahold runs); [apply H1|..].
  - intros w2 e Ha. apply (Hcatch (Err e)). by eapply sound_nil.
  - intros w2 Ha. assert (H2 : sound w2) by by eapply sound_nil. eapply wp_mono; [by apply cleanup_held_holds|].
    intros x w3 H3. split; [apply H3|]. intros w4 Ha4. assert (H4 : sound w4) by by eapply sound_nil.
    split; [by apply Hcatch|]. intros e. by apply (Hcatch (Err e)).
Qed.
End Runs.

(** C5. For every schedule of faults, crash points and other processes,
    everything an execution of a cleanup does is justified by what it saw
    before: it never runs the graph; it sends nothing but the recorded
    cancellation of an execution that the Executor reported as still running;
    the proof of termination it writes down is a terminal status the Executor
    reported for the task's execution, or that nothing was ever submitted; it
    changes the graph only for an attempt claimed within the budget, with the
    proof at hand and after a snapshot showed the graph to be the task's; and
    it finishes the task only after a snapshot showed the graph settled. *)
Theorem cleanup_is_justified id w : agent_reachable fp signal digest (a_db w) → afair runs w → a_log w = [] →
  justified (cleanup_due id (a_db w))
    (a_log (execute_cleanup turn_fp digest command_response artifact_response execution_result max_attempts retry id w).2).
Proof.
  intros Hd Hf Hlog. refine (proj2 (proj2 (proj2 (execute_cleanup_holds id (a_db w) w _)))).
  split_and!; [done|by apply (reachable_agent_ok fp signal digest)|done|]. rewrite Hlog. apply justified_nil.
Qed.
End Cleanup.
