(* ===== verification/FailureCapture.v ===== *)
(** * Capturing failures

    A failed worker command is given up only with a proof that its event was
    applied or that the cleanup of its task is done; otherwise its task gets a
    cleanup. A blocked request becomes APPLIED only with a proof of it. While a
    cleanup exists, no event of its task reaches the handler. *)

From stdpp Require Import base gmap strings list relations.
From Stdlib Require Import ZArith Lia.
From S2P Require Import Prelude Text WorkerContracts WorkerStore Session AgentTables Admission FailureStore TaskProjections AgentWorld Executor Effects AgentInv AgentSteps AgentAccept AgentHistory AgentProps AdmissionService AdmissionServiceProps FailureService.
Local Open Scope Z_scope.
Set Default Proof Using "Type".

Section Capture.
Context `{EventCodec} (namespace : string) (fp : ApiRequest → string) (turn_fp : TaskTurn → string)
  (signal : json → result ResumeSignal) (digest : json → string).

Abbreviation agent_ok := (agent_ok fp signal digest).
Abbreviation agent_step := (agent_step fp signal digest).
Abbreviation runs := (rtc agent_step).

Lemma ensure_row now id s source reason e d r d' : agent_ok d → ensure now id s source reason e d = Ok (r, d') →
  is_Some (cleanups d' !! id).
Proof.
  intros Hd (t & _ & _ & [[Hc ->]|(_ & _ & _ & _ & _ & _ & _ & _ & d1 & _ & E)])%ensure_Ok; [by eexists|].
  unfold tables_of in E. injection E as _ _ _ -> _ _. simpl. rewrite lookup_insert_eq. by eexists.
Qed.

Lemma cleanup_stays d d' id : agent_ok d → runs d d' → is_Some (cleanups d !! id) → is_Some (cleanups d' !! id).
Proof.
  intros Hd Hr [c Hc]. destruct (agent_run_grows _ _ _ _ _ Hr Hd) as (_ & _ & _ & _ & Hk & _).
  destruct (Hk _ _ Hc) as (c' & -> & _). by eexists.
Qed.

(** ** Failed commands of the worker *)
Section Worker.
Context (command_id : uuid).

(** Why a failed command may be given up. *)
Definition skip_ok (l : list action) (d : adb) : Prop :=
  ∃ row ctx, ReadCommand (Some row) ∈ l ∧ c_state row.1.1 = FAILED ∧ context namespace command_id row = Ok ctx ∧
    ((∃ s, ReadState (ctx_session_id ctx) s ∈ l ∧
        st_ew_receipts (values s) !! uuid_str command_id = Some (uuid_str (event_id (ctx_event ctx))) ∧
        worker_owns s command_id = false) ∨
     (∃ task d1 c, parse_uuid (ctx_task_id ctx) = Ok task ∧ runs d1 d ∧ cleanups d1 !! task = Some c ∧
        f_state c = F_DONE ∧ f_session_id c = ctx_session_id ctx)).

(** The command is not failed any more, was given up, or its task has a
    cleanup. *)
Definition captured (l : list action) (d : adb) : Prop :=
  (∃ row, ReadCommand row ∈ l ∧ failed_row row = false) ∨
  (∃ reason, Skipped command_id reason ∈ l) ∨
  (∃ row ctx task, ReadCommand (Some row) ∈ l ∧ context namespace command_id row = Ok ctx ∧
     parse_uuid (ctx_task_id ctx) = Ok task ∧ is_Some (cleanups d !! task)).

Definition skips_ok (l : list action) (d : adb) : Prop :=
  ∀ c reason, Skipped c reason ∈ l → c = command_id ∧ skip_ok l d.

(** The run so far, and what it ends with. *)
Definition tracked (w : aworld) : Prop := afair runs w ∧ agent_ok (a_db w) ∧ skips_ok (a_log w) (a_db w).
Definition ends (x : result unit) (w : aworld) : Prop := tracked w ∧ (x = Ok tt → captured (a_log w) (a_db w)).

Lemma skip_ok_later l l' d d' : runs d d' → skip_ok l d → skip_ok (l ++ l') d'.
Proof.
  intros Hr (row & ctx & Hin & Hf & Hc & Hw). exists row, ctx. split_and!; [by apply elem_of_app; left|done|done|].
  destruct Hw as [(s & Hs & ?)|(task & d1 & c & ? & ? & ?)]; [left|right].
  - exists s. split; [by apply elem_of_app; left|done].
  - exists task, d1, c. split; [done|]. split; [by transitivity d|done].
Qed.

Lemma tracked_after w w' l : tracked w → after runs w w' l → (∀ c reason, Skipped c reason ∈ l →
  c = command_id ∧ skip_ok (a_log w') (a_db w')) → tracked w'.
Proof.
  intros (_ & Hd & Hs) (F & Hr & L) Hl. split_and!; [done|by eapply agent_run_ok|].
  intros c reason Hsk. assert (Hin : Skipped c reason ∈ a_log w ++ l) by by rewrite <- L.
  apply elem_of_app in Hin as [Hin|Hin]; [|by eapply Hl].
  destruct (Hs _ _ Hin) as [-> Hok]. split; [done|]. rewrite L. by eapply skip_ok_later.
Qed.

Lemma tracked_nil w w' : tracked w → after runs w w' [] → tracked w'.
Proof. intros Hw Ha. eapply tracked_after; [done..|]. intros c r Hin. by apply not_elem_of_nil in Hin. Qed.

(** An entry that is not a skip. *)
Lemma tracked_one w w' x : tracked w → after runs w w' [x] → (∀ c r, x ≠ Skipped c r) → tracked w'.
Proof. intros Hw Ha Hx. eapply tracked_after; [done..|]. intros c r Hin%list_elem_of_singleton. by destruct (Hx c r). Qed.

Lemma captured_later l l' d d' : agent_ok d → runs d d' → captured l d → captured (l ++ l') d'.
Proof.
  intros Hd Hr [(row & ? & ?)|[(reason & ?)|(row & ctx & task & ? & ? & ? & ?)]]; [left|right; left|right; right].
  - exists row. split; [by apply elem_of_app; left|done].
  - exists reason. by apply elem_of_app; left.
  - exists row, ctx, task. split_and!; [by apply elem_of_app; left|done|done|by eapply cleanup_stays].
Qed.

Lemma ends_err w e : tracked w → ends (Err e) w.
Proof. by split. Qed.


(** Giving the command up with a reason. *)
Lemma skip_ends w reason : tracked w → skip_ok (a_log w) (a_db w) → wp (skip_command command_id reason) ends w.
Proof.
  intros Hw Hok. apply (wp_skip_command runs); [apply Hw| |intros; apply ends_err; by eapply tracked_nil].
  intros x w1 Ha. assert (Hin : Skipped command_id reason ∈ a_log w1) by (eapply after_logged; [exact Ha|by left]).
  split; [|intros _; right; left; by eexists]. eapply tracked_after; [done..|].
  intros c r [= -> ->]%list_elem_of_singleton. split; [done|]. destruct Ha as (_ & Hr & ->). by eapply skip_ok_later.
Qed.

Lemma capture_new_ends row ctx task w : tracked w → ReadCommand (Some row) ∈ a_log w → c_state row.1.1 = FAILED →
  context namespace command_id row = Ok ctx → parse_uuid (ctx_task_id ctx) = Ok task →
  wp (capture_new row ctx task) ends w.
Proof.
  intros Hw Hin Hf Hctx Htask. assert (Hid : ctx_command_id ctx = command_id).
  { unfold context in Hctx. destruct row as [[c i] b]. by apply result_bind_Ok in Hctx as (ev & _ & [= <-]). }
  unfold capture_new. rewrite Hid.
  apply wp_bind, (wp_aget_state runs); [apply Hw| |intros; apply ends_err; by eapply tracked_nil].
  intros s w1 Ha1. assert (H1 : tracked w1) by by eapply tracked_one.
  assert (Hin1 : ReadCommand (Some row) ∈ a_log w1) by by eapply after_kept.
  destruct (bool_decide _ && negb _) eqn:Hp.
  - apply andb_true_iff in Hp as [Hr%bool_decide_eq_true Ho%negb_true_iff]. apply skip_ends; [done|].
    exists row, ctx. split_and!; [done..|]. left. exists s. split; [|done]. eapply after_logged; [exact Ha1|by left].
  - apply wp_bind, (wp_adb_call runs); [apply H1|..].
    + intros now _ d a d' Hm. by eapply rtc_once, step_ensure.
    + intros now _ d a w2 Hm Hr Ha2. assert (H2 : tracked w2) by by eapply tracked_one.
      split; [|intros e; by apply ends_err]. apply wp_ret. split; [done|]. intros _. right; right.
      exists row, ctx, task. split_and!; [by eapply after_kept|done|done|]. eapply ensure_row; [|exact Hm].
      eapply agent_run_ok; [exact Hr|apply H1].
    + intros; apply ends_err; by eapply tracked_nil.
    + intros; apply ends_err; by eapply tracked_nil.
Qed.

Lemma capture_worker_ends w : tracked w → wp (capture_worker namespace command_id) ends w.
Proof.
  intros Hw. apply wp_bind, (wp_worker_command runs); [apply Hw| |intros; apply ends_err; by eapply tracked_nil].
  intros row0 w1 Ha1. assert (H1 : tracked w1) by by eapply tracked_one.
  destruct (failed_row row0) eqn:Ef0; cbn [negb].
  2:{ apply wp_ret. split; [done|]. intros _. left. exists row0. split; [|done]. eapply after_logged; [exact Ha1|by left]. }
  apply (wp_ahold runs); [apply H1|intros; apply ends_err; by eapply tracked_nil|].
  intros w2 Ha2. assert (H2 : tracked w2) by by eapply tracked_nil.
  assert (Hend : ∀ x w3, ends x w3 → afair runs w3 ∧ ∀ w4, after runs w3 w4 [] → ends x w4 ∧ ∀ e, ends (Err e) w4).
  { intros x w3 [H3 Hc]. split; [apply H3|]. intros w4 Ha4. assert (H4 : tracked w4) by by eapply tracked_nil.
    split; [|intros e; by apply ends_err]. split; [done|]. intros Hx. destruct Ha4 as (_ & Hr & ->).
    eapply captured_later; [apply H3|done|by apply Hc]. }
  eapply wp_mono with (Q := ends); [|done].
  apply wp_bind, (wp_worker_command runs); [apply H2| |intros; apply ends_err; by eapply tracked_nil].
  intros row w3 Ha3. assert (H3 : tracked w3) by by eapply tracked_one.
  assert (Hin : ReadCommand row ∈ a_log w3) by (eapply after_logged; [exact Ha3|by left]).
  destruct row as [row|]; [|apply wp_ret; split; [done|]; intros _; left; by exists None].
  destruct (bool_decide (c_state row.1.1 = FAILED)) eqn:Ef; cbn [negb].
  2:{ apply wp_ret. split; [done|]. intros _. left. by exists (Some row). }
  apply bool_decide_eq_true in Ef. apply wp_bind, wp_lift.
  destruct (context namespace command_id row) as [ctx|e] eqn:Ectx; [|by apply ends_err].
  apply wp_bind, wp_lift. destruct (parse_uuid (ctx_task_id ctx)) as [task|e] eqn:Et; [|by apply ends_err].
  apply wp_bind, (wp_adb_read runs); [apply H3| |intros; apply ends_err; by eapply tracked_nil].
  intros _ w4 Ha4. assert (H4 : tracked w4) by by eapply tracked_nil.
  assert (Hin4 : ReadCommand (Some row) ∈ a_log w4) by by eapply after_kept.
  unfold get_cleanup. destruct (cleanups (a_db w4) !! task) as [c|] eqn:Ec; [|by apply capture_new_ends].
  apply wp_bind, wp_guard; intros Hg; [|by apply ends_err]. apply andb_true_iff in Hg as [Hs%String.eqb_eq _].
  case_bool_decide as Hdone.
  - apply skip_ends; [done|]. exists row, ctx. split_and!; [done..|]. right. by exists task, (a_db w4), c.
  - apply wp_ret. split; [done|]. intros _. right; right. exists row, ctx, task. split_and!; [done..|]. rewrite Ec. by eexists.
Qed.
End Worker.

(** ** Blocked requests of the service *)
Section Api.
Context (id : uuid).

Abbreviation proved := (proved turn_fp signal).

(** A commit makes the request APPLIED only when that is proved. *)
Definition applied_ok (l : list action) (x : action) : Prop :=
  match x with
  | Committed d d' => ∀ r', requests d' !! id = Some r' → r_state r' = R_APPLIED →
      ∃ r, requests d !! id = Some r ∧ (r_state r = R_APPLIED ∨ proved l r)
  | Invoked _ _ | Sent _ => False
  | _ => True
  end.

(** The request is not blocked, or its task has a cleanup. *)
Definition request_captured (d0 d : adb) : Prop :=
  (∃ d1, runs d0 d1 ∧ runs d1 d ∧ ∀ r, requests d1 !! id = Some r → r_state r ≠ R_BLOCKED) ∨
  (∃ d1 r task, runs d0 d1 ∧ runs d1 d ∧ requests d1 !! id = Some r ∧ parse_uuid (t_active_task_id (turn (r_command r))) = Ok task ∧
     is_Some (cleanups d !! task)).

Section From.
Context (d0 : adb).

Definition api_tracked (w : aworld) : Prop :=
  afair runs w ∧ agent_ok (a_db w) ∧ runs d0 (a_db w) ∧ justified applied_ok (a_log w).
Definition api_ends (x : result unit) (w : aworld) : Prop := api_tracked w ∧ (x = Ok tt → request_captured d0 (a_db w)).

Lemma api_one w w' x : api_tracked w → after runs w w' [x] → applied_ok (a_log w) x → api_tracked w'.
Proof.
  intros (_ & Hd & H0 & Hj) (F & Hr & L) Hx.
  split_and!; [done|by eapply agent_run_ok|by transitivity (a_db w)|rewrite L; by apply justified_snoc].
Qed.
Lemma api_nil w w' : api_tracked w → after runs w w' [] → api_tracked w'.
Proof.
  intros (_ & Hd & H0 & Hj) (F & Hr & L).
  split_and!; [done|by eapply agent_run_ok|by transitivity (a_db w)|by rewrite L, app_nil_r].
Qed.
Lemma api_err w e : api_tracked w → api_ends (Err e) w.
Proof. by split. Qed.

Lemma request_captured_later d d' : agent_ok d → runs d d' → request_captured d0 d → request_captured d0 d'.
Proof.
  intros Hd Hr [(d1 & ? & ? & ?)|(d1 & r & task & ? & ? & ? & ? & ?)]; [left; exists d1|right; exists d1, r, task].
  - split_and!; [done|by transitivity d|done].
  - split_and!; [done|by transitivity d|done|done|by eapply cleanup_stays].
Qed.

Lemma get_row r d : get fp signal id d = Ok r → requests d !! id = r.
Proof.
  unfold get. destruct (requests d !! id) as [q|]; [|by intros [= <-]]. intros (q' & Hq & [= <-])%result_bind_Ok.
  by apply record_of_Ok in Hq as (-> & _).
Qed.

(** A request that was not blocked when it was read is not captured. *)
Lemma not_blocked_ends w : api_tracked w → (∀ r, requests (a_db w) !! id = Some r → r_state r ≠ R_BLOCKED) → wp (mret tt) api_ends w.
Proof. intros Hw Hn. apply wp_ret. split; [done|]. intros _. left. exists (a_db w). split_and!; [apply Hw|done|done]. Qed.

Lemma resolve_row record d u d' : resolve_applied record d = Ok (u, d') →
  ∃ row, requests d !! request_id (r_command record) = Some row ∧
    requests d' = <[request_id (r_command record) := with_request_state R_APPLIED (r_attempts row) (r_next_attempt_at row) (r_last_error row) "AGENT" row]> (requests d).
Proof.
  intros H0. unfold resolve_applied, put_request in H0. tx_inv. apply required_Ok in Hrun as [Hr ->]. by exists a.
Qed.

Lemma capture_api_ends w : api_tracked w → wp (capture_api fp turn_fp signal id) api_ends w.
Proof.
  intros Hw. apply wp_bind, (wp_adb_read runs); [apply Hw| |intros; apply api_err; by eapply api_nil].
  intros _ w1 Ha1. assert (H1 : api_tracked w1) by by eapply api_nil.
  destruct (get fp signal id (a_db w1)) as [row0|e] eqn:E0; [|by apply api_err]. apply get_row in E0.
  destruct row0 as [r0|]; [|apply not_blocked_ends; [done|congruence]].
  destruct (bool_decide (r_state r0 = R_BLOCKED)) eqn:Eb0; cbn [negb];
    [|apply not_blocked_ends; [done|]; apply bool_decide_eq_false in Eb0; congruence].
  apply (wp_ahold runs); [apply H1|intros; apply api_err; by eapply api_nil|].
  intros w2 Ha2. assert (H2 : api_tracked w2) by by eapply api_nil. eapply wp_mono with (Q := api_ends).
  2:{ intros x w3 [H3 Hc]. split; [apply H3|]. intros w4 Ha4. assert (H4 : api_tracked w4) by by eapply api_nil.
      split; [|intros e; by apply api_err]. split; [done|]. intros Hx. destruct Ha4 as (_ & Hr & _).
      eapply request_captured_later; [apply H3|exact Hr|by apply Hc]. }
  apply wp_bind, (wp_adb_read runs); [apply H2| |intros; apply api_err; by eapply api_nil].
  intros _ w3 Ha3. assert (H3 : api_tracked w3) by by eapply api_nil.
  destruct (get fp signal id (a_db w3)) as [row|e] eqn:Er; [|by apply api_err]. apply get_row in Er.
  destruct row as [r|]; [|apply not_blocked_ends; [done|congruence]].
  destruct (bool_decide (r_state r = R_BLOCKED)) eqn:Eb; cbn [negb];
    [|apply not_blocked_ends; [done|]; apply bool_decide_eq_false in Eb; congruence].
  pose proof H3 as (_ & [Hrq _ _ _ _ _ _] & H03 & _). destruct (Hrq _ _ Er) as [Hid _ _ _ _ _ _].
  apply wp_bind, wp_lift. destruct (parse_uuid _) as [task|e] eqn:Et; [|by apply api_err].
  apply wp_bind, (wp_adb_read runs); [apply H3| |intros; apply api_err; by eapply api_nil].
  intros _ w4 Ha4. assert (H4 : api_tracked w4) by by eapply api_nil. unfold get_cleanup.
  assert (Hquiet : ∀ l d d', requests d' = requests d → applied_ok l (Committed d d')).
  { intros l d d' E q Hq Ha. exists q. rewrite <- E. auto. }
  assert (Hensure : ∀ w5 reason source, api_tracked w5 → runs (a_db w3) (a_db w5) →
    wp (adb_call (λ now _, ensure now task (thread_of r) source reason None);; mret tt) api_ends w5).
  { intros w5 reason source H5 R5. apply wp_bind, (wp_adb_call runs); [apply H5|..].
    - intros now _ d a d' Hm. by eapply rtc_once, step_ensure.
    - intros now _ d a w6 Hm Hr Ha6. assert (H6 : api_tracked w6) by (eapply api_one; [done..|]; by eapply Hquiet, ensure_requests).
      split; [|intros; by apply api_err]. apply wp_ret. split; [done|]. intros _. right. exists (a_db w3), r, task.
      split_and!; [done| |done|done|].
      + transitivity (a_db w5); [done|]. apply Ha6.
      + eapply ensure_row; [|exact Hm]. eapply agent_run_ok; [exact Hr|apply H5].
    - intros; apply api_err; by eapply api_nil.
    - intros; apply api_err; by eapply api_nil. }
  assert (R34 : runs (a_db w3) (a_db w4)) by apply Ha4. apply wp_bind.
  destruct (cleanups (a_db w4) !! task) as [c|]; [apply wp_ret; by apply Hensure|].
  apply wp_bind, (wp_aget_state runs); [apply H4| |intros; apply api_err; by eapply api_nil].
  intros s w5 Ha5. assert (H5 : api_tracked w5) by by eapply api_one.
  assert (R35 : runs (a_db w3) (a_db w5)) by (transitivity (a_db w4); [done|apply Ha5]).
  apply wp_lift. destruct (proves_applied turn_fp signal s r) as [[]|e] eqn:Ep; [|by apply Hensure|by apply api_err].
  assert (Hproof : proved (a_log w5) r).
  { exists s. split; [eapply after_logged; [exact Ha5|by left]|]. unfold proves_applied in Ep.
    destruct (accepted s r) as [[]|e]; cbn [mbind result_bind] in Ep; [|done|by destruct (is_RuntimeError e || is_ValueError e)].
    split; [done|]. destruct (next_invocation turn_fp signal s r) as [[i|]|e]; cbn [mbind result_bind] in Ep;
      [by rewrite bool_decide_eq_false_2 in Ep|done|by destruct (is_RuntimeError e || is_ValueError e)]. }
  apply (wp_adb_call runs); [apply H5|..].
  - intros _ _ d [] d' Hm. by eapply rtc_once, step_resolve_applied.
  - intros _ _ d [] w6 Hm Hr Ha6. assert (Hd : agent_ok d) by (eapply agent_run_ok; [exact Hr|apply H5]).
    destruct (resolve_row _ _ _ _ Hm) as (q & Hq & E). rewrite Hid in Hq, E.
    assert (H6 : api_tracked w6).
    { eapply api_one; [done..|]. intros r' Hr' _. exists q. split; [done|]. right.
      destruct (agent_run_grows fp signal digest (a_db w3) d) as (Hk & _); [by transitivity (a_db w5)|apply H3|].
      destruct (Hk _ _ Er) as (q' & Hq' & Hg). rewrite Hq in Hq'. injection Hq' as <-. by eapply proved_grows. }
    split; [|intros; by apply api_err]. split; [done|]. intros _. left. exists (a_db w6). split_and!; [apply H6|done|].
    intros q' Hq'. rewrite E, lookup_insert_eq in Hq'. by injection Hq' as <-.
  - intros; apply api_err; by eapply api_nil.
  - intros; apply api_err; by eapply api_nil.
Qed.
End From.
End Api.

(** ** Theorems *)

(** C28. For every schedule: a failed worker command is given up only when a
    snapshot shows that its event was applied and owns no pending work, or when
    the cleanup of its task, in its session, is done; and when
    [capture_worker] succeeds, the command is not failed any more, was given
    up, or its task has a cleanup. *)
Theorem failed_command_captured command_id w r w' : agent_reachable fp signal digest (a_db w) → afair runs w → a_log w = [] →
  capture_worker namespace command_id w = (r, w') →
  (∀ c reason, Skipped c reason ∈ a_log w' → c = command_id ∧ skip_ok command_id (a_log w') (a_db w')) ∧
  (r = Ok tt → captured command_id (a_log w') (a_db w')).
Proof.
  intros Hd Hf Hlog Hrun. apply (reachable_agent_ok fp signal digest) in Hd.
  assert (Hw : tracked command_id w).
  { split; [done|]. split; [done|]. intros c reason Hin. rewrite Hlog in Hin. by apply not_elem_of_nil in Hin. }
  destruct (wp_run _ _ _ _ _ (capture_worker_ends command_id w Hw) Hrun) as [(_ & _ & Hs) Hc]. by split.
Qed.

(** For every schedule: capturing a blocked request never runs the graph and
    sends nothing; it makes the request APPLIED only after a snapshot that
    proves it; and when it succeeds, the request was seen not blocked, or its
    task has a cleanup. *)
Theorem failed_request_captured id w r w' : agent_reachable fp signal digest (a_db w) → afair runs w → a_log w = [] →
  capture_api fp turn_fp signal id w = (r, w') →
  justified (applied_ok id) (a_log w') ∧ (r = Ok tt → request_captured id (a_db w) (a_db w')).
Proof.
  intros Hd Hf Hlog Hrun. apply (reachable_agent_ok fp signal digest) in Hd.
  assert (Hw : api_tracked id (a_db w) w) by (split_and!; [done|done|done|rewrite Hlog; apply justified_nil]).
  destruct (wp_run _ _ _ _ _ (capture_api_ends id (a_db w) w Hw) Hrun) as [(_ & _ & _ & Hj) Hc]. by split.
Qed.

(** The handler ran on a state without a cleanup of the task, or nothing
    happened. *)
Definition guarded (handler : EventContext → proc aworld unit) (ctx : EventContext) (w : aworld) (r : result unit) (w' : aworld)
    : Prop :=
  (∃ task w1, parse_uuid (ctx_task_id ctx) = Ok task ∧ after runs w w1 [] ∧ cleanups (a_db w1) !! task = None ∧
     handler ctx w1 = (r, w')) ∨
  after runs w w' [] ∧ (∃ e, r = Err e) ∧
    ∀ task c, parse_uuid (ctx_task_id ctx) = Ok task → cleanups (a_db w') !! task = Some c → f_session_id c = ctx_session_id ctx →
      r = Err (IgnoreEvent "Task failure cleanup has completed") ∧ f_state c = F_DONE ∨
      r = Err (DeferEvent "Task failure cleanup owns this invocation") ∧ f_state c ≠ F_DONE ∨
      (∃ e, r = Err (driver_fault e)).

(** The wrapped handler of the worker runs an event only when its task was
    seen without a cleanup; otherwise nothing happens and the event is ignored
    or deferred, or the call fails. *)
Theorem cleanup_blocks_handler handler ctx w r w' : afair runs w → protect handler ctx w = (r, w') → guarded handler ctx w r w'.
Proof.
  intros Hf Hrun. refine (wp_run (protect handler ctx) (guarded handler ctx w) w r w' _ Hrun).
  apply wp_bind, wp_lift. destruct (parse_uuid (ctx_task_id ctx)) as [task|e] eqn:Et.
  2:{ right. split; [by apply (after_refl runs)|]. split; [by eexists|congruence]. }
  apply wp_bind, (wp_adb_read runs); [done| |intros w1 e Ha; right; split; [done|]; split; [by eexists|]; intros; right; right; by eexists].
  intros _ w1 Ha. unfold get_cleanup. destruct (cleanups (a_db w1) !! task) as [c|] eqn:Ec.
  - apply wp_bind, wp_guard; intros Hs; [|right; split; [done|]; split; [by eexists|]].
    + case_bool_decide as Hdone; apply wp_throw; right; (split; [done|]; split; [by eexists|]);
        intros t y Ht Hy _; rewrite Et in Ht; injection Ht as <-; rewrite Ec in Hy; injection Hy as <-; [by left|right; by left].
    + intros t y Ht Hy Hsame. rewrite Et in Ht. injection Ht as <-. rewrite Ec in Hy. injection Hy as <-.
      by apply String.eqb_neq in Hs.
  - apply run_wp. intros x w2 E. left. by exists task, w1.
Qed.
End Capture.
