(* ===== verification/FailureLife.v ===== *)
(** * Progress of the compensation

    Without faults, a recorded cleanup whose execution the Executor reports as
    terminated settles its graph and its task in one attempt. *)

From stdpp Require Import base gmap strings list relations.
From Stdlib Require Import ZArith Lia.
From S2P Require Import Prelude Text WorkerContracts WorkerStore Session AgentTables Admission FailureStore TaskProjections AgentWorld Executor Effects AgentInv AgentSteps AgentAccept AgentHistory AgentProps AgentDemo AdmissionService AdmissionServiceProps AdmissionLife EffectsProps FailureService FailureServiceProps FailureCapture.
Local Open Scope Z_scope.
Set Default Proof Using "Type".

(** ** Calls that are answered while no other process interferes *)
Section Calm.
Context (now : timestamp).
Implicit Types (d : adb) (l : list atick) (log : list action).

Lemma wp_calm_call {A} (m : timestamp → uuid → tx adb A) Q a d l log x d' : m now 0%N d = Ok (x, d') →
  Q (Ok x) (mk_aworld d' l (log ++ [Committed d d'])) → wp (adb_call m) Q (mk_aworld d (calm now a :: l) log).
Proof. intros E HQ. unfold wp. by rewrite call_calm, E. Qed.

Lemma wp_calm_read {A} (q : timestamp → adb → result A) Q a d l log x : q now d = Ok x →
  Q (Ok x) (mk_aworld d l log) → wp (adb_read q) Q (mk_aworld d (calm now a :: l) log).
Proof. intros E HQ. unfold wp. by rewrite read_calm, E. Qed.

Lemma wp_calm_state thread Q s d l log :
  Q (Ok s) (mk_aworld d l (log ++ [ReadState thread s])) → wp (aget_state thread) Q (mk_aworld d (calm now (ASnapshot s) :: l) log).
Proof. done. Qed.

Lemma wp_calm_update thread node u Q a d l log :
  Q (Ok tt) (mk_aworld d l (log ++ [Updated thread node u])) →
  wp (aupdate_state thread node u) Q (mk_aworld d (calm now a :: l) log).
Proof. done. Qed.

Lemma wp_calm_get path params Q body text d l log :
  Q (Ok body) (mk_aworld d l (log ++ [Asked path params body])) →
  wp (http_get path params) Q (mk_aworld d (calm now (AHttp 200 (Some body) text) :: l) log).
Proof. done. Qed.

Lemma wp_calm_hold {A} (body : proc aworld A) Q a d l log :
  wp body (λ x w, ∃ b l', a_sched w = calm now b :: l' ∧ Q x (mk_aworld (a_db w) l' (a_log w))) (mk_aworld d l log) →
  wp (ahold body) Q (mk_aworld d (calm now a :: l) log).
Proof.
  intros Hb. unfold wp in *. destruct (body (mk_aworld d l log)) as [x w] eqn:E. cbn [fst snd] in Hb.
  destruct Hb as (b & l' & Hs & HQ). erewrite (hold_calm now a b body l x (a_db w) w l' (a_log w)); [exact HQ| |exact E].
  destruct w. simpl in *. by subst.
Qed.
End Calm.

Section Progress.
Context (fp : ApiRequest → string) (turn_fp : TaskTurn → string) (signal : json → result ResumeSignal)
  (digest : json → string) (command_response : json → result CommandResponse)
  (artifact_response : json → result json) (execution_result : json → result ExecutionResult)
  (max_attempts retry : Z).

Lemma add_id_member o ids u : u ∈ add_id o ids ↔ o = Some u ∨ u ∈ ids.
Proof.
  destruct o as [v|]; simpl; [rewrite elem_of_union, elem_of_singleton; split; intros [E|E]; auto; left; congruence|].
  split; [by right|]. by intros [[=]|E].
Qed.

Lemma only_identity here b t c refs e o :
  elements (add_id here (add_id b (add_id t (add_id c refs)))) = [e] → o ∈ [here; b; t; c] → other_execution o e = false.
Proof.
  intros E Ho. destruct o as [u|]; [|done]. unfold other_execution, mismatch. apply negb_false_iff, N.eqb_eq.
  assert (Hu : u ∈ elements (add_id here (add_id b (add_id t (add_id c refs))))).
  { rewrite elem_of_elements, !add_id_member. apply list_elem_of_In in Ho. simpl in Ho. destruct Ho as [Ho|[Ho|[Ho|[Ho|[]]]]]; rewrite <- Ho; tauto. }
  rewrite E in Hu. by apply list_elem_of_singleton in Hu.
Qed.

(** The rows of the cleanup during an attempt. *)
Definition claimed_cleanup (now : timestamp) (c : cleanup_row) : cleanup_row :=
  touch_cleanup now "AGENT" F_PENDING (f_attempts c + 1) (now + retry) (f_last_error c) c.
Definition bound_cleanup (now : timestamp) (e : uuid) (c : cleanup_row) : cleanup_row :=
  touch now "AGENT" (set_cleanup_result (Some e) (f_executor_status c) (f_message c) c).
Definition proved_cleanup (now : timestamp) (e : uuid) (st : string) (c : cleanup_row) : cleanup_row :=
  touch now "AGENT" (set_cleanup_result (Some e) (Some st) (Some (failure_message (f_reason c) st)) c).

Lemma claim_cleanup_run now d id c : cleanups d !! id = Some c → f_state c = F_PENDING → f_attempts c < max_attempts →
  claim_cleanup now id max_attempts retry d = Ok (claimed_cleanup now c, set_cleanups <[id := claimed_cleanup now c]> d).
Proof.
  intros Hc Hs Hlt. unfold claim_cleanup, required_cleanup, put_cleanup, mbind, tx_bind, tx_get, mret, tx_ret, tx_modify.
  rewrite Hc, Hs. cbn [bool_decide decide_rel negb]. rewrite bool_decide_eq_true_2 by done. cbn [negb].
  by rewrite (proj2 (Z.leb_gt max_attempts (f_attempts c))).
Qed.

Lemma confirm_run now d id c e st : cleanups d !! id = Some c → f_task_id c = id → f_state c = F_PENDING → st ∈ TERMINAL →
  confirm now c (Some e) st (failure_message (f_reason c) st) d =
  Ok (proved_cleanup now e st c, set_cleanups <[id := proved_cleanup now e st c]> d).
Proof.
  intros Hc Hid Hs Hst. unfold confirm, mbind, tx_bind, tx_guard.
  replace (existsb _ _) with true by (symmetry; apply existsb_exists; exists st; split;
    [right; by apply list_elem_of_In|by apply String.eqb_eq]).
  rewrite (fenced_run d id c c) by done. unfold put_cleanup, tx_modify, mret, tx_ret. by rewrite Hid.
Qed.

Lemma bind_run now d id c t lock e : cleanups d !! id = Some c → f_task_id c = id → f_state c = F_PENDING →
  tasks d !! id = Some t → session_locks d !! f_session_id c = Some lock → lk_active_task_id lock = id →
  other_execution (f_execution_id c) e = false → other_execution (k_execution_id t) e = false →
  other_execution (lk_execution_id lock) e = false →
  ∃ d', bind_execution now c e d = Ok (bound_cleanup now e c, d') ∧
    cleanups d' = <[id := bound_cleanup now e c]> (cleanups d) ∧ messages d' = messages d ∧
    tasks d' !! id = Some (set_task_execution (k_version t + 1) e t).
Proof.
  intros Hc Hid Hs Ht Hl Ha H1 H2 H3. eexists. unfold bind_execution, mbind, tx_bind, tx_guard, tx_get.
  rewrite (fenced_run d id c c) by done. rewrite H1, Hid. cbn [negb].
  rewrite Ht, H2. cbn [negb]. rewrite Hl, Ha, N.eqb_refl, H3. cbn [negb].
  unfold put_cleanup, put_task, put_lock, tx_modify, mret, tx_ret. split; [reflexivity|]. simpl.
  by rewrite ?Hid, ?lookup_insert_eq.
Qed.

Lemma finish_row_done now fresh c d d' : finish_cleanup now fresh c d = Ok (tt, d') →
  cleanups d !! f_task_id c = Some c → f_state c = F_PENDING →
  cleanups d' !! f_task_id c = Some (touch_cleanup now "AGENT" F_DONE (f_attempts c) (f_next_attempt_at c) None c).
Proof.
  intros H Hc Hs. unfold finish_cleanup, compensate, delete_locks, put_cleanup in H. tx_inv.
  rewrite (fenced_run d (f_task_id c) c c) in Hrun0 by done. injection Hrun0 as <- <-.
  destruct (tasks d !! f_task_id c); [|done]. tx_inv. simpl. by rewrite lookup_insert_eq.
Qed.

(** No other process interferes, every call is answered: the graph is in [s1]
    and after its tasks were cleared in [s3], the Executor answers [body], and
    the settled graph rests in [s4]. *)
Definition healing (now : timestamp) (s1 s2 s3 s4 : Snapshot) (body : json) : list atick :=
  map (calm now)
    [ANone; ANone; ANone; ANone; ASnapshot s1; ANone; ANone; ANone; ANone; AHttp 200 (Some body) ""; ANone;
     ASnapshot s2; ANone; ASnapshot s3; ANone; ASnapshot s4; ANone; ANone].

Lemma settle_graph_run now r m st s2 s3 s4 d l log Q : f_message r = Some m → String.eqb m "" = false →
  f_executor_status r = Some st → String.eqb st "" = false → validate_target turn_fp s2 r = Ok true → sn_next s2 ≠ [] →
  sn_next s4 = [] →
  (∀ log', Q (Ok tt) (mk_aworld d l log')) →
  wp (settle_graph turn_fp r) Q
    (mk_aworld d (calm now (ASnapshot s2) :: calm now ANone :: calm now (ASnapshot s3) :: calm now ANone ::
                  calm now (ASnapshot s4) :: l) log).
Proof.
  intros Em Hm Est Hst Ht Hn Hend HQ. unfold settle_graph. rewrite Em, Est. unfold missing, or_else. rewrite Hst, Hst, Hm. cbn [orb].
  apply wp_bind, wp_calm_state, wp_bind, wp_lift. rewrite Ht.
  assert (Hr : receipt_settled s2 r = false) by (unfold receipt_settled; by rewrite bool_decide_eq_false_2).
  rewrite Hr. cbn [negb orb]. apply wp_bind, wp_calm_update, wp_bind, wp_calm_state, wp_bind, wp_lift.
  assert (Hv : validate_turn (f_turn r) = Ok tt) by (by apply result_bind_Ok in Ht as ([] & Hv & _)).
  rewrite Hv. apply wp_bind, wp_calm_update, wp_bind, wp_calm_state, wp_guard; intros E; [apply HQ|].
  by apply bool_decide_eq_false in E.
Qed.

Lemma known_terminal now d l log body e st text Q : execution_result body = Ok (mk_execution_result e st) → is_terminal_status st = true →
  (∀ log', Q (Ok st) (mk_aworld d l log')) →
  wp (known_status execution_result e) Q (mk_aworld d (calm now (AHttp 200 (Some body) text) :: l) log).
Proof.
  intros Hb Ht HQ. unfold known_status, execution_status. apply wp_bind, wp_bind, wp_calm_get, wp_lift. rewrite Hb.
  apply wp_bind, wp_guard; [intros _|intros En; simpl in En; by rewrite N.eqb_refl in En].
  apply wp_bind, wp_guard; [intros _; apply wp_ret, HQ|]. intros En. exfalso.
  rewrite existsb_app in En. apply orb_false_iff in En as [En _].
  assert (Et : is_terminal_status st = false) by exact En. congruence.
Qed.

(** An attempt whose transactions commit as given settles the cleanup. *)
Lemma cleanup_attempt_run now d1 d2 d3 d4 c1 c2 c3 t s1 s2 s3 s4 body b here refs n e st m l log Q :
  f_executor_status c1 = None → validate_target turn_fp s1 c1 = Ok b → tasks d1 !! f_task_id c1 = Some t → checkpoint_id c1 s1 = Ok here →
  execution_references (f_task_id c1) d1 = Ok (refs, n) → (n ≤ 1)%nat →
  elements (add_id here (add_id (eb_execution_id <$> bindings d1 !! f_task_id c1) (add_id (k_execution_id t) (add_id (f_execution_id c1) refs)))) = [e] →
  execution_result body = Ok (mk_execution_result e st) → is_terminal_status st = true → String.eqb st "" = false →
  bind_execution now c1 e d1 = Ok (c2, d2) → confirm now c2 (Some e) st (failure_message (f_reason c2) st) d2 = Ok (c3, d3) →
  f_message c3 = Some m → String.eqb m "" = false → f_executor_status c3 = Some st → validate_target turn_fp s2 c3 = Ok true →
  sn_next s2 ≠ [] → sn_next s4 = [] → finish_cleanup now 0%N c3 d3 = Ok (tt, d4) →
  (∀ log', Q (Ok tt) (mk_aworld d4 l log')) →
  wp (cleanup_attempt turn_fp digest command_response artifact_response execution_result c1) Q
    (mk_aworld d1 (map (calm now)
      [ASnapshot s1; ANone; ANone; ANone; ANone; AHttp 200 (Some body) ""; ANone; ASnapshot s2; ANone; ASnapshot s3; ANone;
       ASnapshot s4; ANone] ++ l) log).
Proof.
  intros Hnone Hv1 Ht Hhere Hrefs Hn Hids Hbody Hterm Hstm Hstep2 Hstep3 Em Hm Est Hv2 Hn2 Hn4 Hstep4 HQ.
  unfold cleanup_attempt. cbn [map app]. apply wp_bind, wp_calm_state, wp_bind, wp_lift. rewrite Hv1, Hnone.
  apply wp_bind, wp_bind, wp_bind. eapply wp_calm_read; [by rewrite Ht|].
  apply wp_bind. eapply wp_calm_read; [reflexivity|].
  apply wp_bind, wp_lift. rewrite Hhere. apply wp_bind. eapply wp_calm_read; [exact Hrefs|].
  cbn [fst snd]. apply wp_bind, wp_guard; [intros _|intros En; apply Nat.leb_gt in En; lia].
  rewrite Hids. apply wp_ret. apply wp_bind. eapply wp_calm_call; [exact Hstep2|].
  apply wp_bind, wp_bind. eapply known_terminal; [exact Hbody|done|]. intros log1. rewrite Hterm. apply wp_ret.
  eapply wp_calm_call; [exact Hstep3|]. apply wp_bind.
  eapply (settle_graph_run now c3 m st s2 s3 s4); try done.
  intros log2. eapply wp_calm_call; [exact Hstep4|]. apply HQ.
Qed.

(** C29. Compensation makes progress: executed without faults or interference, a
    pending cleanup of an unfinished task (not one that preserves a terminal
    result) that has no proof of termination yet and whose budget is not spent
    is settled in one attempt, provided the session's lock is the task's and
    names no other execution, the records name one execution, the Executor
    reports it as terminated, the graph of the session is the task's, and it
    rests once it was given the settlement. The task is then FAILED with the
    message about its execution, none of its requests is active and its session
    is free. *)
Theorem cleanup_completes now id d c t lock s1 s2 s3 s4 body b here refs n e st : agent_reachable fp signal digest d →
  cleanups d !! id = Some c → f_state c = F_PENDING → f_preserve_terminal c = false → f_executor_status c = None →
  f_attempts c < max_attempts → tasks d !! id = Some t → is_terminal (k_status t) = false →
  session_locks d !! f_session_id c = Some lock → other_execution (lk_execution_id lock) e = false → messages d !! 0%N = None →
  validate_target turn_fp s1 c = Ok b → checkpoint_id c s1 = Ok here → execution_references id d = Ok (refs, n) → (n ≤ 1)%nat →
  elements (add_id here (add_id (eb_execution_id <$> bindings d !! id) (add_id (k_execution_id t) (add_id (f_execution_id c) refs)))) = [e] →
  execution_result body = Ok (mk_execution_result e st) → st ∈ TERMINAL →
  validate_target turn_fp s2 c = Ok true → sn_next s2 ≠ [] → sn_next s4 = [] →
  wp (execute_cleanup turn_fp digest command_response artifact_response execution_result max_attempts retry id)
    (λ r w', r = Ok tt ∧ ∃ c' t', cleanups (a_db w') !! id = Some c' ∧ f_state c' = F_DONE ∧ f_executor_status c' = Some st ∧
       f_execution_id c' = Some e ∧ tasks (a_db w') !! id = Some t' ∧ k_status t' = TASK_FAILED ∧
       k_terminal_message t' = Some (failure_message (f_reason c) st) ∧
       (∀ i r, requests (a_db w') !! i = Some r → r_task_id r = id → active (r_state r) = false) ∧
       (∀ s l, session_locks (a_db w') !! s = Some l → lk_active_task_id l ≠ id))
    (mk_aworld d (healing now s1 s2 s3 s4 body) []).
Proof.
  intros Hd Hc Hs Hpre Hnone Hlt Ht Hopen Hlock Hlo Hmsg Hv1 Hhere Hrefs Hn Hids Hbody Hst Hv2 Hn2 Hn4.
  pose proof (reachable_agent_ok fp signal digest _ Hd) as [_ _ _ _ Hcl _ _].
  destruct (Hcl _ _ Hc) as [Hid _ _ _ (t0 & Ht0 & _ & Hset)]. rewrite Ht in Ht0. injection Ht0 as <-.
  unfold cleanup_settled in Hset. rewrite Hs, Hpre in Hset.
  destruct Hset as [Hfail Hlk0]. destruct (Hlk0 Hopen) as (l0 & Hl0 & Ha0 & _).
  rewrite Hlock in Hl0. injection Hl0 as <-. rewrite Hid in Ha0.
  set (c1 := claimed_cleanup now c). set (d1 := set_cleanups <[id := c1]> d).
  assert (Hc1 : cleanups d1 !! id = Some c1) by apply lookup_insert_eq.
  assert (Hstep1 : claim_cleanup now id max_attempts retry d = Ok (c1, d1)) by by apply claim_cleanup_run.
  destruct (bind_run now d1 id c1 t lock e) as (d2 & Hstep2 & Ecl2 & Emsg2 & Etk2); [done|done|done|done|done|done| | |done|].
  1,2: eapply only_identity; [exact Hids|repeat constructor].
  set (c2 := bound_cleanup now e c1) in *.
  assert (Hc2 : cleanups d2 !! id = Some c2) by (rewrite Ecl2; apply lookup_insert_eq).
  set (c3 := proved_cleanup now e st c2). set (d3 := set_cleanups <[id := c3]> d2).
  assert (Hc3 : cleanups d3 !! id = Some c3) by apply lookup_insert_eq.
  assert (Hstep3 : confirm now c2 (Some e) st (failure_message (f_reason c2) st) d2 = Ok (c3, d3)) by by apply confirm_run.
  assert (Hd3 : agent_reachable fp signal digest d3).
  { eapply rtc_r; [eapply rtc_r; [eapply rtc_r; [exact Hd|]|]|];
      [by eapply step_claim_cleanup|by eapply step_bind|by eapply step_confirm]. }
  assert (Hstm : String.eqb st "" = false).
  { unfold TERMINAL in Hst. rewrite !elem_of_cons, elem_of_nil in Hst. destruct Hst as [->|[->|[->|[]]]]; reflexivity. }
  assert (Hterm : is_terminal_status st = true).
  { apply existsb_exists. exists st. split; [by apply list_elem_of_In|by apply String.eqb_eq]. }
  destruct (cleanup_can_finish fp signal digest now 0%N d3 id c3 (set_task_execution (k_version t + 1) e t)) as [d4 Hstep4]; try done.
  { unfold missing, or_else. simpl. by rewrite Hstm, Hstm. }
  { change (messages d2 !! 0%N = None). by rewrite Emsg2. }
  pose proof (finish_row_done _ _ _ _ _ Hstep4 ltac:(change (cleanups d3 !! f_task_id c = Some c3); by rewrite Hid) eq_refl) as Hc4.
  change (f_task_id c3) with (f_task_id c) in Hc4. rewrite Hid in Hc4.
  assert (Hd4 : agent_ok fp signal digest d4).
  { apply reachable_agent_ok. eapply rtc_r; [exact Hd3|]. by eapply step_finish_cleanup. }
  unfold execute_cleanup, healing. cbn [map].
  apply wp_bind. eapply wp_calm_read; [reflexivity|]. rewrite Hc, Hs, bool_decide_eq_true_2 by done. cbn [negb].
  apply wp_try, wp_calm_hold, wp_bind. eapply wp_calm_read; [reflexivity|]. rewrite Hc, Hs, Hnone, bool_decide_eq_true_2 by done. cbn [negb missing or_else String.eqb orb].
  apply wp_bind. eapply wp_calm_call; [exact Hstep1|]. rewrite bool_decide_eq_true_2 by done.
  apply wp_try, wp_try.
  eapply (cleanup_attempt_run now d1 d2 d3 d4 c1 c2 c3 t s1 s2 s3 s4 body b here refs n e st _ [calm now ANone]); try done;
    try (change (f_task_id c1) with (f_task_id c); rewrite ?Hid; done).
  intros log'.
  eexists _, _. split; [reflexivity|]. split; [done|].
  destruct Hd4 as [_ _ _ _ Hcl4 _ _]. destruct (Hcl4 _ _ Hc4) as [_ _ _ _ (t' & Ht' & _ & Est & Emsg & Hreq & Hlk)].
  assert (Eid : ∀ c', c' = touch_cleanup now "AGENT" F_DONE (f_attempts c3) (f_next_attempt_at c3) None c3 → f_task_id c' = id)
    by (intros ? ->; exact Hid).
  specialize (Eid _ eq_refl). rewrite Eid in Hreq, Hlk.
  eexists _, t'. split; [exact Hc4|]. do 3 (split; [reflexivity|]). split; [exact Ht'|].
  split; [rewrite Est; exact Hfail|]. split; [rewrite Emsg; reflexivity|]. by split.
Qed.
End Progress.
