(* ===== verification/FailureDemo.v ===== *)
(** * A run of the compensation

    The failed task of [AgentDemo] with an execution that the Executor reports
    as cancelled, on which the theorems about the compensation are applied. *)

From stdpp Require Import base gmap strings list sorting relations.
From Stdlib Require Import ZArith Lia.
From S2P Require Import Prelude Text WorkerContracts WorkerStore Session AgentTables Admission FailureStore TaskProjections AgentWorld Executor Effects AgentInv AgentSteps AgentAccept AgentHistory AgentProps AgentDemo AdmissionService AdmissionServiceProps AdmissionLife EffectsProps FailureService FailureServiceProps FailureCapture FailureLife.
Local Open Scope Z_scope.
Set Default Proof Using "Type".

Import AgentDemo LifeDemo DemoCodec.

Module FailureDemo.
Definition ensured_e := ensure 50 7 "s" (JObj []) "error" (Some 9%N) d4.
Definition e5 := state_of ensured_e.
Definition failed_task : cleanup_row := value_of no_cleanup ensured_e.
Definition no_task : task_row := mk_task "" "" "" 0 "" TASK_FAILED None None None 0 "" "".
Definition demo_task : task_row := default no_task (tasks e5 !! 7%N).
Definition demo_lock : session_lock := default (mk_lock 0 None false) (session_locks e5 !! "s").
Definition pending : Snapshot := mk_snapshot empty_session ["plan"] [] None.
Definition reply : json := JObj [].
Definition no_command (j : json) : result CommandResponse := Err (ValueError "no command").
Definition no_artifact (j : json) : result json := Err (ValueError "no artifact").
Definition cancelled (j : json) : result ExecutionResult := Ok (mk_execution_result 9 "CANCELLED").

Lemma ensured_e_run : ensure 50 7 "s" (JObj []) "error" (Some 9%N) d4 = Ok (failed_task, e5).
Proof. refine (commits_intro no_cleanup ensured_e _). vm_compute. reflexivity. Qed.
Lemma reach_e5 : reachable e5.
Proof.
  eapply rtc_r; [|eapply step_ensure; exact ensured_e_run]. eapply rtc_r; [|exact step4].
  eapply rtc_r; [|exact step3]. eapply rtc_r; [exact reach1|exact step2].
Qed.
Lemma e5_cleanup : cleanups e5 !! 7%N = Some failed_task. Proof. vm_compute. reflexivity. Qed.
Lemma e5_task : tasks e5 !! 7%N = Some demo_task. Proof. vm_compute. reflexivity. Qed.
Lemma e5_lock : session_locks e5 !! "s" = Some demo_lock. Proof. vm_compute. reflexivity. Qed.
Lemma e5_message : messages e5 !! 0%N = None. Proof. vm_compute. reflexivity. Qed.
Lemma e5_references : execution_references 7 e5 = Ok (∅, 0%nat). Proof. vm_compute. reflexivity. Qed.
Lemma e5_identity : elements (add_id None (add_id (eb_execution_id <$> bindings e5 !! 7%N) (add_id (k_execution_id demo_task)
  (add_id (f_execution_id failed_task) ∅)))) = [9%N].
Proof. vm_compute. reflexivity. Qed.
Lemma failed_task_fields : f_state failed_task = F_PENDING ∧ f_preserve_terminal failed_task = false ∧
  f_executor_status failed_task = None ∧ f_attempts failed_task = 0 ∧ f_session_id failed_task = "s" ∧
  other_execution (lk_execution_id demo_lock) 9 = false.
Proof. vm_compute. repeat split. Qed.
Lemma pending_target : validate_target turn_fp pending failed_task = Ok true. Proof. vm_compute. reflexivity. Qed.
Lemma pending_id : checkpoint_id failed_task pending = Ok None. Proof. vm_compute. reflexivity. Qed.

Definition unwell : aworld := mk_aworld e5 (healing 60 pending pending pending before reply) [].
Lemma unwell_fair : afair (rtc step) unwell.
Proof. unfold afair, unwell, healing, calm. simpl. repeat constructor. Qed.

(** A failed command of that task, and the event that is handled for it. *)
Definition failed_event : ExecutorEvent := WorkerContracts.mk_event 11 9 "execution.failed" 1 "1.0" "2026-01-01T00:00:00Z" [] [].
Definition failed_command : command_row * inbox_row * binding :=
  (WorkerStore.mk_command 11 9 1 FAILED 3 0 (Some "no answer") (WorkerStore.mk_audit 0 0 "worker" "worker"),
   mk_inbox 9 1 (DemoCodec.dump failed_event) ROUTED (WorkerStore.mk_audit 0 0 "worker" "worker"),
   mk_binding "s" (uuid_str 7) 1 0 None 0 0 (WorkerStore.mk_audit 0 0 "worker" "worker")).
Definition capturing (d : adb) : aworld := mk_aworld d (map (calm 60)
  [AWorker (Some failed_command); ANone; AWorker (Some failed_command); ANone; ASnapshot pending; ANone; ANone]) [].
Lemma capturing_fair d : afair (rtc step) (capturing d).
Proof. unfold afair, capturing, calm. simpl. repeat constructor. Qed.
Lemma captures : (capture_worker "ns" 3 (capturing e5)).1 = Ok tt. Proof. vm_compute. reflexivity. Qed.
Definition handled (ctx : EventContext) : proc aworld unit := mret tt.
Definition demo_ctx : EventContext := mk_context "ns" "s" (uuid_str 7) 9 3 failed_event.
Definition reading : aworld := mk_aworld e5 [calm 60 ANone] [].
Lemma reading_fair : afair (rtc step) reading.
Proof. unfold afair, reading, calm. simpl. repeat constructor. Qed.
Lemma protected : (protect handled demo_ctx reading).1 = Err (DeferEvent "Task failure cleanup owns this invocation").
Proof. vm_compute. reflexivity. Qed.

(** The blocked request of the run, captured. *)
Definition blocked_run_of (s : Snapshot) : aworld := mk_aworld d4 (map (calm 60)
  [ANone; ANone; ANone; ANone; ASnapshot s; ANone; ANone]) [].
Lemma blocked_fair s : afair (rtc step) (blocked_run_of s).
Proof. unfold afair, blocked_run_of, calm. simpl. repeat constructor. Qed.
Lemma reach4 : reachable d4.
Proof.
  eapply rtc_r; [|exact step4]. eapply rtc_r; [|exact step3]. eapply rtc_r; [exact reach1|exact step2].
Qed.
Lemma request_captures : (capture_api fp turn_fp no_signal 1 (blocked_run_of before)).1 = Ok tt.
Proof. vm_compute. reflexivity. Qed.
End FailureDemo.

Import FailureDemo.

Lemma cleanup_completes_witness : ∃ w', execute_cleanup turn_fp digest no_command no_artifact cancelled 20 5 7 unwell = (Ok tt, w') ∧
  ∃ t, tasks (a_db w') !! 7%N = Some t ∧ k_status t = TASK_FAILED ∧
    k_terminal_message t = Some (failure_message (f_reason failed_task) "CANCELLED").
Proof.
  destruct failed_task_fields as (H1 & H2 & H3 & H4 & H5 & H6).
  pose proof (cleanup_completes fp turn_fp no_signal digest no_command no_artifact cancelled 20 5 60 7 e5 failed_task demo_task demo_lock
    pending pending pending before reply true None ∅ 0 9 "CANCELLED" reach_e5 e5_cleanup H1 H2 H3
    ltac:(rewrite H4; done) e5_task eq_refl ltac:(rewrite H5; exact e5_lock) H6 e5_message pending_target pending_id e5_references ltac:(lia)
    e5_identity eq_refl ltac:(right; right; left) pending_target ltac:(done) eq_refl) as H.
  unfold wp in H. fold unwell in H. destruct (execute_cleanup _ _ _ _ _ _ _ _ _) as [r w'].
  cbn [fst snd] in H.
  destruct H as (-> & c' & t' & _ & _ & _ & _ & Ht & Hst & Hm & _). exists w'. split; [reflexivity|]. exists t'. exact (conj Ht (conj Hst Hm)).
Defined.

Lemma cleanup_is_justified_witness : justified (cleanup_due fp turn_fp no_signal digest cancelled 20 7 e5)
    (a_log (execute_cleanup turn_fp digest no_command no_artifact cancelled 20 5 7 unwell).2).
Proof.
  refine (cleanup_is_justified fp turn_fp no_signal digest no_command no_artifact cancelled 20 5 7 unwell reach_e5 unwell_fair eq_refl).
Defined.

Lemma failed_command_captured_witness : captured "ns" 3 (a_log (capture_worker "ns" 3 (capturing e5)).2) (a_db (capture_worker "ns" 3 (capturing e5)).2).
Proof.
  refine (proj2 (failed_command_captured "ns" fp no_signal digest 3 (capturing e5) (capture_worker "ns" 3 (capturing e5)).1
    (capture_worker "ns" 3 (capturing e5)).2 reach_e5 (capturing_fair e5) eq_refl _) captures).
  apply surjective_pairing.
Defined.

Lemma failed_request_captured_witness :
  request_captured fp no_signal digest 1 d4 (a_db (capture_api fp turn_fp no_signal 1 (blocked_run_of before)).2).
Proof.
  refine (proj2 (failed_request_captured fp turn_fp no_signal digest 1 (blocked_run_of before)
    (capture_api fp turn_fp no_signal 1 (blocked_run_of before)).1 _ reach4 (blocked_fair before) eq_refl _) request_captures).
  apply surjective_pairing.
Defined.

Lemma cleanup_blocks_handler_witness : guarded fp no_signal digest handled demo_ctx reading
  (Err (DeferEvent "Task failure cleanup owns this invocation")) (protect handled demo_ctx reading).2.
Proof.
  refine (cleanup_blocks_handler fp no_signal digest handled demo_ctx reading _ (protect handled demo_ctx reading).2 reading_fair _).
  rewrite <- protected. apply surjective_pairing.
Defined.
