(* ===== verification/TemplatesProps.v ===== *)
(** * Templates keep the work of their source

    Every parameter of a verified step has its slot in the template, and
    binding fills the slots again: the workflow runs with the parameters of its
    source task, the public defaults in their places, and its steps compile. *)

From stdpp Require Import base gmap strings list sorting.
From Stdlib Require Import Ascii ZArith Lia.
From S2P Require Import Prelude Text Plans AgentTables Templates.
Local Open Scope Z_scope.
Set Default Proof Using "Type".

(** ** Names of inputs *)

Lemma split_at c a b x y : string_all (λ c', c' ≠ c) a → string_all (λ c', c' ≠ c) b →
  a +:+ String c x = b +:+ String c y → a = b ∧ x = y.
Proof.
  revert b. induction a as [|c1 a IH]; intros [|c2 b]; cbn [string_all String.append].
  - by intros _ _ [= ->].
  - intros _ [H _] [= <- _]. done.
  - intros [H _] _ [= -> _]. done.
  - intros [_ Ha] [_ Hb] [= -> E]. by destruct (IH _ Ha Hb E) as [-> ->].
Qed.

Lemma N_str_no_underscore n : string_all (λ c, c ≠ "_"%char) (N_str n).
Proof.
  unfold N_str. eapply string_all_impl; [|apply (put_digits_all 10); [lia|done]].
  intros c (d & Hd & ->). apply digit_char_neq; [lia|done].
Qed.

(** Inputs of different steps have different names. *)
Lemma input_name_sequence i j p q : 0 ≤ i → 0 ≤ j → input_name i p = input_name j q → i = j.
Proof.
  unfold input_name. intros Hi Hj [= E]. apply split_at in E as [E _].
  - assert (int_str i = int_str j) as E' by done.
    pose proof (py_int_int_str i) as H1. rewrite E', py_int_int_str in H1. congruence.
  - destruct i; [apply N_str_no_underscore..|lia].
  - destruct j; [apply N_str_no_underscore..|lia].
Qed.

Section Template.
Context (registry : list (string * ToolManifest)) (defaults : list (string * json)).

(** The value of a parameter in the template. *)
Definition slot (i : Z) (n : string) : json :=
  match assoc (input_name i n) defaults with Some v => v | None => workflow_input (input_name i n) end.

Definition is_input (i : Z) (n : string) : Prop := assoc (input_name i n) defaults = None.

(** What the contract records about the inputs of one step. *)
Definition entry_of (i : Z) (m : ToolManifest) (n k : string) (e : input_spec) : Prop :=
  is_input i n ∧ k = input_name i n ∧
  ∃ spec, assoc n (mf_parameters m) = Some spec ∧ e = mk_input (sp_type spec) true i n.

Record contract_grows (i : Z) (m : ToolManifest) (names : list string) (c c' : list (string * input_spec)) : Prop := {
  cg_from : ∀ k e, assoc k c' = Some e → assoc k c = Some e ∨ ∃ n, n ∈ names ∧ entry_of i m n k e;
  cg_keep : ∀ k, is_Some (assoc k c) → is_Some (assoc k c');
  cg_has : ∀ n, n ∈ names → is_input i n → is_Some (assoc (input_name i n) c');
  cg_canonical : canonical c → canonical c'
}.

Record parameters_templated (i : Z) (m : ToolManifest) (names : list string) (st st' : template_state) : Prop := {
  pt_parameters : ts_parameters st' = ts_parameters st ++ map (λ n, (n, slot i n)) names;
  pt_contract : contract_grows i m names (ts_contract st) (ts_contract st');
  pt_fits : ∀ n, n ∈ names → ∃ spec, assoc n (mf_parameters m) = Some spec ∧
    ∀ v, assoc (input_name i n) defaults = Some v → matches_type v (sp_type spec) = true
}.

Lemma template_parameters_spec i m names : ∀ st st',
  StronglySorted str_lt (map fst (ts_parameters st) ++ names) →
  template_parameters defaults i m st names = Ok st' → parameters_templated i m names st st'.
Proof.
  induction names as [|n names IH]; intros st st' Hs; cbn [template_parameters].
  - intros [= <-]. split; [by rewrite app_nil_r| |by intros n ?%not_elem_of_nil]. split; [naive_solver|done|by intros n ?%not_elem_of_nil|done].
  - intros (st1 & H1 & H2)%result_bind_Ok. unfold template_parameter in H1.
    apply result_bind_Ok in H1 as (spec & Hspec & H1). unfold from_option_err in Hspec.
    destruct (assoc n (mf_parameters m)) as [spec'|] eqn:Hn; [injection Hspec as ->|done].
    assert (Hlt : Forall (λ k, str_lt k n) (map fst (ts_parameters st))).
    { apply Forall_forall. intros k Hk. eapply StronglySorted_app_1_elem_of; [exact Hs|done|left]. }
    assert (H3 : ts_parameters st1 = ts_parameters st ++ [(n, slot i n)] ∧
                 contract_grows i m [n] (ts_contract st) (ts_contract st1) ∧
                 (∀ v, assoc (input_name i n) defaults = Some v → matches_type v (sp_type spec) = true)).
    { unfold slot. destruct (assoc (input_name i n) defaults) as [v|] eqn:Hd.
      - apply result_bind_Ok in H1 as ([] & Hv & [= <-]). simpl. split_and!; [by apply assoc_set_last| |].
        + split; [naive_solver|done| |done]. intros n' ->%list_elem_of_singleton Hi. unfold is_input in Hi. congruence.
        + intros v' [= <-]. by apply raise_if_Ok, negb_false_iff in Hv.
      - injection H1 as <-. simpl. split_and!; [by apply assoc_set_last| |done]. split.
        + intros k e. rewrite assoc_assoc_set. destruct (String.eqb_spec k (input_name i n)) as [->|]; [|by left].
          intros [= <-]. right. exists n. split; [left|]. split_and!; [done..|]. by exists spec.
        + intros k. rewrite assoc_assoc_set. by destruct (String.eqb k _).
        + intros n' ->%list_elem_of_singleton _. by rewrite assoc_assoc_set, String.eqb_refl.
        + apply assoc_set_canonical. }
    destruct H3 as (Hp & [G1 G2 G3 G4] & Hf).
    apply IH in H2 as [Hp' [G1' G2' G3' G4'] Hf']; [|by rewrite Hp, map_app, <- app_assoc].
    split; [by rewrite Hp', Hp, <- app_assoc| |].
    + split.
      * intros k e [Hk|(n' & Hn' & He)]%G1'; [|right; exists n'; split; [by right|done]].
        destruct (G1 _ _ Hk) as [|(n' & ->%list_elem_of_singleton & He)]; [by left|].
        right. exists n. split; [left|done].
      * auto.
      * intros n' [->|Hn']%elem_of_cons Hi; [apply G2', G3; [left|done]|by apply G3'].
      * auto.
    + intros n' [->|Hn']%elem_of_cons; [by exists spec|by apply Hf'].
Qed.

Definition params (row : success_row) : list (string * json) := p_parameters (s_payload row).
Definition tool_of (row : success_row) (m : ToolManifest) : Prop :=
  ∃ t, p_tool (s_payload row) = Some t ∧ get_tool registry (tl_name t) = Ok m.

(** The parameters of a step with the value [f] gives each name. *)
Definition filled (f : string → json) (row : success_row) : list (string * json) :=
  map (λ nv, (nv.1, f nv.1)) (params row).

Lemma filled_map f row : map (λ n, (n, f n)) (map fst (params row)) = filled f row.
Proof. unfold filled. by rewrite map_map. Qed.

Lemma elem_of_filled f row n v : (n, v) ∈ filled f row ↔ n ∈ map fst (params row) ∧ v = f n.
Proof.
  rewrite <- filled_map, list_elem_of_fmap. split.
  - intros (n' & [= -> ->] & H). done.
  - intros [H ->]. by exists n.
Qed.

Lemma filled_names f row : map fst (filled f row) = map fst (params row).
Proof. unfold filled. by rewrite map_map. Qed.

Record steps_templated (k : Z) (rows : list success_row) (ss : list PlanStepDraft) (c c' : list (string * input_spec))
    : Prop := {
  st_length : length ss = length rows;
  st_step : ∀ j row, rows !! j = Some row → ∃ m, tool_of row m ∧
    ss !! j = Some (templated (k + Z.of_nat j) m (filled (slot (k + Z.of_nat j)) row) (s_payload row)) ∧
    ∀ n, n ∈ map fst (params row) → ∃ spec, assoc n (mf_parameters m) = Some spec ∧
      ∀ v, assoc (input_name (k + Z.of_nat j) n) defaults = Some v → matches_type v (sp_type spec) = true;
  st_from : ∀ key e, assoc key c' = Some e → assoc key c = Some e ∨
    ∃ j row m n, rows !! j = Some row ∧ tool_of row m ∧ n ∈ map fst (params row) ∧ entry_of (k + Z.of_nat j) m n key e;
  st_keep : ∀ key, is_Some (assoc key c) → is_Some (assoc key c');
  st_has : ∀ j row n, rows !! j = Some row → n ∈ map fst (params row) → is_input (k + Z.of_nat j) n →
    is_Some (assoc (input_name (k + Z.of_nat j) n) c');
  st_canonical : canonical c → canonical c'
}.

Lemma template_step_spec k names c row s names' c' : canonical (params row) →
  template_step registry defaults k names c row = Ok (s, names', c') →
  ∃ m, tool_of row m ∧ s = templated k m (filled (slot k) row) (s_payload row) ∧
    parameters_templated k m (map fst (params row)) (mk_ts [] names c) (mk_ts (filled (slot k) row) names' c').
Proof.
  unfold template_step. cbv zeta. intros Hc ([] & _ & H)%result_bind_Ok.
  apply result_bind_Ok in H as (t & Ht & H). apply result_bind_Ok in H as (m & Hm & H).
  apply result_bind_Ok in H as (st & Hst & [= <- <- <-]). exists m.
  unfold from_option_err in Ht. destruct (p_tool (s_payload row)) as [t'|] eqn:E; [injection Ht as ->|done].
  apply template_parameters_spec in Hst; [|done].
  assert (ts_parameters st = filled (slot k) row) as E'.
  { rewrite (pt_parameters _ _ _ _ _ Hst). simpl. apply filled_map. }
  split_and!; [by exists t|by rewrite E'|]. rewrite <- E'. by destruct st.
Qed.

Lemma template_steps_spec rows : ∀ k names c ss names' c', Forall (λ row, canonical (params row)) rows →
  template_steps registry defaults k names c rows = Ok (ss, names', c') → steps_templated k rows ss c c'.
Proof.
  induction rows as [|row rows IH]; intros k names c ss names' c' Hc; cbn [template_steps].
  - intros [= <- _ <-]. split; [done|by intros [] ?|naive_solver|done|by intros [] ?|done].
  - apply Forall_cons in Hc as [Hrow Hrows].
    intros ([[s names1] c1] & H1 & H)%result_bind_Ok. apply result_bind_Ok in H as ([[ss' names2] c2] & H2 & [= <- _ <-]).
    apply template_step_spec in H1 as (m & Hm & -> & [_ [G1 G2 G3 G4] Hf]); [|done].
    apply IH in H2 as [L1 L2 L3 L4 L5 L6]; [|done]. simpl in *.
    assert (Hk : ∀ j, k + 1 + Z.of_nat j = k + Z.of_nat (S j)) by lia.
    setoid_rewrite Hk in L2. setoid_rewrite Hk in L3. setoid_rewrite Hk in L5.
    split.
    + simpl. by rewrite L1.
    + intros [|j] r; simpl; [intros [= <-]|apply L2]. rewrite Z.add_0_r. by exists m.
    + intros key e [He|(j & r & m' & n & Hj & Hr)]%L3; [|right; by exists (S j), r, m', n].
      destruct (G1 _ _ He) as [|(n & Hn & He')]; [by left|]. right. exists 0%nat, row, m, n. simpl. by rewrite Z.add_0_r.
    + auto.
    + intros [|j] r n; simpl; [intros [= <-]|apply L5]. rewrite Z.add_0_r. auto.
    + auto.
Qed.
End Template.

(** ** Binding *)

(** A value [_resolve_parameter] takes for a reference to an input. *)
Definition is_reference (v : json) : bool :=
  match v with JObj [(k, _)] => String.eqb k "$workflow_input" | _ => false end.

(** The parameters of a source step with the public defaults in their places. *)
Definition with_defaults (defaults : list (string * json)) (i : nat) (row : success_row) : list (string * json) :=
  map (λ nv, (nv.1, match assoc (input_name (Z.of_nat i) nv.1) defaults with Some v => v | None => nv.2 end)) (params row).

Section Bind.
Context (container_str : json → string) (registry : list (string * ToolManifest)) (defaults : list (string * json)).
Implicit Types (values : list (string * json)).

Lemma resolve_plain v values : is_reference v = false → resolve_parameter container_str v values = Ok v.
Proof. destruct v as [| | | | |l|[|[k v] [|]]]; simpl; try done. by intros ->. Qed.

Lemma resolve_input n values :
  resolve_parameter container_str (workflow_input n) values = from_option_err (KeyError n) (assoc n values).
Proof. done. Qed.

Lemma bind_parameters_spec values l l' : bind_parameters container_str values l = Ok l' ↔
  Forall2 (λ nv nv', nv'.1 = nv.1 ∧ resolve_parameter container_str nv.2 values = Ok nv'.2) l l'.
Proof.
  revert l'. induction l as [|[n v] l IH]; intros l'; simpl.
  - split; [intros [= <-]; constructor|by intros ->%Forall2_nil_inv_l].
  - rewrite result_bind_Ok. split.
    + intros (v' & Hv & (l2 & Hl & [= <-])%result_bind_Ok). constructor; [done|]. by apply IH.
    + intros ([n' v'] & l2 & [Hn Hv] & Hl & ->)%Forall2_cons_inv_l. simpl in *. subst n'. exists v'. split; [done|].
      apply result_bind_Ok. exists l2. split; [by apply IH|done].
Qed.

Lemma bound_names values (l l' : list (string * json)) :
  Forall2 (λ nv nv', nv'.1 = nv.1 ∧ resolve_parameter container_str nv.2 values = Ok nv'.2) l l' → map fst l = map fst l'.
Proof. induction 1 as [|nv nv' l l' [E _] _ IH]; simpl; [done|]. by rewrite E, IH. Qed.

Lemma bind_steps_spec values l l' : bind_steps container_str values l = Ok l' ↔
  Forall2 (λ s s', ∃ ps, bind_parameters container_str values (p_parameters s) = Ok ps ∧ s' = with_parameters ps s) l l'.
Proof.
  revert l'. induction l as [|s l IH]; intros l'; simpl.
  - split; [intros [= <-]; constructor|by intros ->%Forall2_nil_inv_l].
  - rewrite result_bind_Ok. split.
    + intros (ps & Hp & (l2 & Hl & [= <-])%result_bind_Ok). constructor; [by exists ps|]. by apply IH.
    + intros (s' & l2 & (ps & Hp & ->) & Hl & ->)%Forall2_cons_inv_l. exists ps. split; [done|].
      apply result_bind_Ok. exists l2. split; [by apply IH|done].
Qed.

Lemma template_plan_spec source plan contract :
  Forall (λ row, canonical (params row)) (ps_steps source) →
  template_plan registry defaults source = Ok (plan, contract) →
  steps_templated registry defaults 0 (ps_steps source) (steps plan) [] contract.
Proof.
  intros Hc. unfold template_plan. intros (first & _ & H)%result_bind_Ok.
  apply result_bind_Ok in H as (base & _ & H). apply result_bind_Ok in H as ([[ss names] c] & Hs & H).
  apply raise_if_then in H as [_ [= <- <-]]. by eapply template_steps_spec.
Qed.

Lemma bind_workflow_inputs_Ok plan contract values plan' :
  bind_workflow_inputs container_str plan contract values = Ok plan' ↔
  (∀ k e, (k, e) ∈ contract → ∃ v, assoc k values = Some v ∧ matches_type v (i_type e) = true) ∧
  (∀ k, k ∈ map fst values → k ∈ map fst contract) ∧
  ∃ ss, bind_steps container_str values (steps plan) = Ok ss ∧
    plan' = mk_plan (objective plan) (strategy_summary plan) SINGLE (runtime_profile plan) ss (assumptions plan)
              (expected_artifacts plan).
Proof.
  unfold bind_workflow_inputs. rewrite !raise_if_then, !negb_false_iff, !forallb_forall, result_bind_Ok.
  setoid_rewrite <- list_elem_of_In. split.
  - intros (H1 & H2 & [] & H3%each_Ok & H4). rewrite Forall_forall in H3. split_and!.
    + intros k e Hin. specialize (H3 _ Hin). unfold check_input, from_option_err in H3. simpl in H3.
      destruct (assoc k values) as [v|]; [|done]. simpl in H3. exists v. split; [done|].
      by apply raise_if_Ok, negb_false_iff in H3.
    + intros k (kv & -> & Hin)%list_elem_of_fmap. apply has_key_true. by apply H2.
    + apply result_bind_Ok in H4 as (ss & Hss & [= <-]). by exists ss.
  - intros (H1 & H2 & ss & Hss & ->). split_and!.
    + intros [k e] Hin. destruct (H1 _ _ Hin) as (v & Hv & _). apply bool_decide_eq_true. simpl. by eexists.
    + intros [k v] Hin. apply has_key_true, H2. apply list_elem_of_fmap. by exists (k, v).
    + exists tt. split; [|by rewrite result_bind_Ok; eauto]. apply each_Ok, Forall_forall. intros [k e] Hin.
      destruct (H1 _ _ Hin) as (v & Hv & Ht). unfold check_input. simpl. rewrite Hv. simpl. unfold validate_value. simpl. by rewrite Ht.
Qed.
End Bind.

Section Roundtrip.
Context (container_str : json → string) (registry : list (string * ToolManifest)) (defaults : list (string * json)).
Context (source : PromotionSource) (plan : PlanDraft) (contract : list (string * input_spec)).
Context (Htemplate : template_plan registry defaults source = Ok (plan, contract)).
Context (Hcanonical : Forall (λ row, canonical (params row)) (ps_steps source)).
Context (Hplain : ∀ k v, (k, v) ∈ defaults → is_reference v = false).

Abbreviation rows := (ps_steps source).

Lemma source_templated : steps_templated registry defaults 0 rows (steps plan) [] contract.
Proof using Htemplate Hcanonical. by apply template_plan_spec. Qed.

(** The entries of the contract are the inputs of the steps. *)
Lemma contract_entry k e : (k, e) ∈ contract ↔ assoc k contract = Some e.
Proof using Htemplate Hcanonical.
  split; [|apply assoc_elem]. apply elem_assoc, canonical_NoDup.
  apply (st_canonical _ _ _ _ _ _ _ source_templated). constructor.
Qed.

Lemma contract_from k e : (k, e) ∈ contract → ∃ j row m n, rows !! j = Some row ∧ tool_of registry row m ∧
  n ∈ map fst (params row) ∧ entry_of defaults (Z.of_nat j) m n k e.
Proof using Htemplate Hcanonical. intros He%contract_entry. by destruct (st_from _ _ _ _ _ _ _ source_templated _ _ He). Qed.

(** Binding a template step by step. *)
Lemma bind_template_steps values (f : nat → list (string * json)) l :
  (∀ j s, l !! j = Some s → bind_parameters container_str values (p_parameters s) = Ok (f j)) →
  ∃ ss, bind_steps container_str values l = Ok ss ∧ map p_parameters ss = imap (λ j _, f j) l.
Proof using Type.
  revert f. induction l as [|s l IH]; intros f Hf; [by exists []|].
  destruct (IH (f ∘ S)) as (ss & Hss & E). { intros j s' Hj. by apply (Hf (S j)). }
  exists (with_parameters (f 0%nat) s :: ss). simpl. rewrite (Hf 0%nat s eq_refl), Hss. simpl. split; [done|]. by rewrite E.
Qed.

Lemma steps_plan_imap (f : nat → success_row → list (string * json)) :
  imap (λ j (_ : PlanStepDraft), from_option (f j) [] (rows !! j)) (steps plan) = imap f rows.
Proof using Htemplate Hcanonical.
  apply list_eq. intros j. rewrite !list_lookup_imap.
  destruct (rows !! j) as [row|] eqn:E; simpl.
  - destruct (st_step _ _ _ _ _ _ _ source_templated _ _ E) as (m & _ & Hs & _). by rewrite Hs.
  - apply lookup_ge_None in E. rewrite <- (st_length _ _ _ _ _ _ _ source_templated) in E.
    by rewrite (proj2 (lookup_ge_None _ _) E).
Qed.
End Roundtrip.

(** C15. A workflow run with the parameters of its source task as inputs
    executes every verified step with its own parameters again, the public
    defaults in their places, provided no public default is itself a reference
    to an input, the parameters of the source fit the schemas of their tools
    (and are dicts in canonical order),
    and the values given are those parameters, each under the name of its
    input, and no others (so parameters of a step that share an input name have
    one value; [shared_input_loses_parameter] is what happens otherwise). *)
Theorem workflow_reproduces_source container_str registry defaults source plan contract values :
  template_plan registry defaults source = Ok (plan, contract) →
  Forall (λ row, canonical (params row)) (ps_steps source) →
  (∀ k v, (k, v) ∈ defaults → is_reference v = false) →
  (∀ i row m, ps_steps source !! i = Some row → tool_of registry row m →
     (∀ n v, (n, v) ∈ params row → is_input defaults (Z.of_nat i) n → assoc (input_name (Z.of_nat i) n) values = Some v) ∧
     parameters_fit (params row) (mf_parameters m)) →
  (∀ k, k ∈ map fst values → ∃ i row n, ps_steps source !! i = Some row ∧ n ∈ map fst (params row) ∧
     is_input defaults (Z.of_nat i) n ∧ k = input_name (Z.of_nat i) n) →
  ∃ plan', bind_workflow_inputs container_str plan contract values = Ok plan' ∧ execution_mode plan' = SINGLE ∧
    map p_parameters (steps plan') = imap (with_defaults defaults) (ps_steps source).
Proof.
  intros Ht Hc Hp Hv Hk. pose proof (source_templated _ _ _ _ _ Ht Hc) as Hst.
  set (f := λ j : nat, from_option (with_defaults defaults j) [] (ps_steps source !! j)).
  destruct (bind_template_steps container_str values f (steps plan)) as (ss & Hss & Eq).
  { intros j s Hj. assert (is_Some (ps_steps source !! j)) as [row Hrow].
    { apply lookup_lt_is_Some. rewrite <- (st_length _ _ _ _ _ _ _ Hst). by apply lookup_lt_Some in Hj. }
    destruct (st_step _ _ _ _ _ _ _ Hst _ _ Hrow) as (m & Hm & Hs & _).
    change (0 + Z.of_nat j) with (Z.of_nat j) in Hs.
    assert (s = _) as -> by (rewrite Hs in Hj; injection Hj as <-; reflexivity).
    destruct (Hv _ _ _ Hrow Hm) as [Hin _]. unfold f. rewrite Hrow. simpl. apply bind_parameters_spec. unfold filled, with_defaults.
    apply Forall2_fmap, Forall_Forall2_diag, Forall_forall. intros [n v] Hnv. simpl. split; [done|]. unfold slot.
    destruct (assoc (input_name (Z.of_nat j) n) defaults) as [d|] eqn:E.
    - apply resolve_plain. by eapply Hp, assoc_elem.
    - rewrite resolve_input. by rewrite (Hin _ _ Hnv E). }
  exists (mk_plan (objective plan) (strategy_summary plan) SINGLE (runtime_profile plan) ss (assumptions plan) (expected_artifacts plan)).
  split; [|split; [done|]].
  - apply bind_workflow_inputs_Ok. split_and!; [| |by exists ss].
    + intros k e He. destruct (contract_from _ _ _ _ _ Ht Hc _ _ He) as (j & row & m & n & Hrow & Hm & Hn & Hi & -> & spec & Hspec & ->).
      destruct (Hv _ _ _ Hrow Hm) as [Hin [Hfit _]]. apply list_elem_of_fmap in Hn as ([n' v] & -> & Hnv).
      exists v. split; [by apply Hin|]. destruct (Hfit _ _ Hnv) as (spec' & Hs' & Hty). simpl in *. congruence.
    + intros k Hin. destruct (Hk _ Hin) as (i & row & n & Hrow & Hn & Hi & ->).
      destruct (st_has _ _ _ _ _ _ _ Hst _ _ _ Hrow Hn Hi) as [e He]. apply assoc_elem in He.
      apply list_elem_of_fmap. by exists (input_name (Z.of_nat i) n, e).
  - simpl. rewrite Eq. by apply (steps_plan_imap registry defaults source plan contract).
Qed.

(** A bound parameter has the type its tool asks for. *)
Lemma bound_parameter_typed container_str registry defaults source plan contract values plan' j row m n v spec :
  template_plan registry defaults source = Ok (plan, contract) →
  Forall (λ row, canonical (params row)) (ps_steps source) →
  (∀ k v, (k, v) ∈ defaults → is_reference v = false) →
  NoDup (map (input_name (Z.of_nat j)) (map fst (params row))) →
  bind_workflow_inputs container_str plan contract values = Ok plan' →
  ps_steps source !! j = Some row → tool_of registry row m → n ∈ map fst (params row) →
  assoc n (mf_parameters m) = Some spec →
  resolve_parameter container_str (slot defaults (Z.of_nat j) n) values = Ok v →
  matches_type v (sp_type spec) = true.
Proof.
  intros Ht Hc Hp Hnd Hb Hrow Hm Hn Hspec Hv. pose proof (source_templated _ _ _ _ _ Ht Hc) as Hst.
  destruct (st_step _ _ _ _ _ _ _ Hst _ _ Hrow) as (m' & (t & Ht1 & Hm1) & _ & Hfits).
  destruct Hm as (t' & Ht2 & Hm2). assert (m' = m) as -> by congruence.
  destruct (Hfits _ Hn) as (spec' & Hs & Hdef). assert (spec' = spec) as -> by congruence.
  change (0 + Z.of_nat j) with (Z.of_nat j) in Hdef. unfold slot in Hv.
  destruct (assoc (input_name (Z.of_nat j) n) defaults) as [d|] eqn:Hd.
  - rewrite resolve_plain in Hv by (by eapply Hp, assoc_elem). injection Hv as <-. by apply Hdef.
  - rewrite resolve_input in Hv. unfold from_option_err in Hv.
    destruct (assoc (input_name (Z.of_nat j) n) values) as [v'|] eqn:Hv'; [injection Hv as ->|done].
    destruct (st_has _ _ _ _ _ _ _ Hst _ _ _ Hrow Hn Hd) as [e He]. change (0 + Z.of_nat j) with (Z.of_nat j) in He.
    apply bind_workflow_inputs_Ok in Hb as (Hin & _). apply (contract_entry _ _ _ _ _ Ht Hc) in He.
    destruct (Hin _ _ He) as (v1 & Hv1 & Hty). assert (v1 = v) as -> by congruence.
    destruct (contract_from _ _ _ _ _ Ht Hc _ _ He) as (j' & row' & m' & n' & Hrow' & Hm' & Hn' & _ & Ek & spec' & Hs' & ->).
    apply input_name_sequence in Ek as E; [|lia..]. apply Nat2Z.inj in E as <-.
    assert (row' = row) as -> by congruence. assert (n' = n) as ->.
    { apply list_elem_of_lookup in Hn as [i1 H1]. apply list_elem_of_lookup in Hn' as [i2 H2].
      assert (i1 = i2) as <-; [|congruence]. eapply NoDup_lookup; [exact Hnd| |]; rewrite list_lookup_fmap.
      - by rewrite H1.
      - rewrite H2. simpl. by rewrite <- Ek. }
    destruct Hm' as (t3 & Ht3 & Hm3). assert (m' = m) as -> by congruence. simpl in Hty. congruence.
Qed.

Lemma eligible_row_lineage registry plans row : eligible_row registry plans row = Ok tt →
  p_planning_kind (s_payload row) = TOOL_PLAN ∧ ∃ m, get_tool registry (tl_name (mf_tool m)) = Ok m ∧
    p_tool (s_payload row) = Some (mf_tool m) ∧ p_skill (s_payload row) = Some (mf_skill m) ∧
    is_Some (plans !! s_plan_revision_id row).
Proof.
  unfold eligible_row. intros ([] & _ & H)%result_bind_Ok.
  apply raise_if_then in H as [Hk H]. apply bool_decide_eq_false in Hk. apply dec_stable in Hk. split; [done|].
  destruct (p_skill (s_payload row)) as [k|], (p_tool (s_payload row)) as [t|]; try done.
  apply result_bind_Ok in H as (m & Hm & H). destruct (get_tool registry (tl_name t)) as [m'|] eqn:E; [injection Hm as ->|done].
  apply raise_if_then in H as [Hl H]. apply negb_false_iff, andb_true_iff in Hl as [H1 H2].
  apply bool_decide_eq_true in H1, H2. subst. exists m. split_and!; [done..|].
  apply raise_if_Ok, bool_decide_eq_false in H. by apply not_eq_None_Some.
Qed.

(** Every step of a workflow bound to inputs compiles with the registry
    its source was checked against, provided no two parameters of one step
    share an input and no public default is itself a reference. *)
Theorem bound_workflow_compiles sha256 pformat check container_str registry defaults source plan contract values plan' :
  template_plan registry defaults source = Ok (plan, contract) →
  each (eligible_row registry (ps_plans source)) (ps_steps source) = Ok tt →
  Forall (λ row, canonical (params row)) (ps_steps source) →
  (∀ k v, (k, v) ∈ defaults → is_reference v = false) →
  (∀ i row m, ps_steps source !! i = Some row → tool_of registry row m →
     NoDup (map (input_name (Z.of_nat i)) (map fst (params row))) ∧ parameters_fit (params row) (mf_parameters m)) →
  bind_workflow_inputs container_str plan contract values = Ok plan' →
  Forall (λ s, ∃ c, compile sha256 pformat check registry s = Ok c) (steps plan').
Proof.
  intros Ht He%each_Ok Hc Hp Hv Hb. pose proof (source_templated _ _ _ _ _ Ht Hc) as Hst.
  pose proof Hb as (_ & _ & ss & Hss & ->)%bind_workflow_inputs_Ok. simpl. apply bind_steps_spec in Hss.
  apply Forall_lookup. intros j s' Hj. eapply Forall2_lookup_r in Hss as (s & Hs & ps & Hps & ->); [|exact Hj].
  assert (is_Some (ps_steps source !! j)) as [row Hrow].
  { apply lookup_lt_is_Some. rewrite <- (st_length _ _ _ _ _ _ _ Hst). by apply lookup_lt_Some in Hs. }
  destruct (st_step _ _ _ _ _ _ _ Hst _ _ Hrow) as (m & Hm & Hs' & _). change (0 + Z.of_nat j) with (Z.of_nat j) in Hs'.
  rewrite Hs' in Hs. injection Hs as <-. clear Hs'. cbn [templated p_parameters] in Hps.
  destruct (Hv _ _ _ Hrow Hm) as [Hnd [Hfit Hreq]].
  eapply Forall_lookup in He; [|exact Hrow]. apply eligible_row_lineage in He as (Hkind & m' & Hg & Htool & Hskill & _).
  assert (m' = m) as -> by (destruct Hm as (t & ? & ?); congruence).
  apply bind_parameters_spec in Hps.
  assert (parameters_fit ps (mf_parameters m)) as Hps_fit.
  { split.
    - intros n v Hin. apply list_elem_of_lookup in Hin as [i Hi].
      eapply Forall2_lookup_r in Hps as ([n' v0] & Hi' & [E Hr]); [|exact Hi].
      simpl in E, Hr. subst n'. apply list_elem_of_lookup_2, elem_of_filled in Hi' as [Hn ->].
      apply list_elem_of_fmap in Hn as H'. destruct H' as ([n1 v1] & E1 & Hnv). simpl in E1. subst n1.
      destruct (Hfit _ _ Hnv) as (spec & Hspec & _). exists spec. split; [done|].
      by eapply (bound_parameter_typed container_str registry defaults source).
    - intros n sp Hin Hr. specialize (Hreq _ _ Hin Hr).
      rewrite <- (filled_names (slot defaults (Z.of_nat j)) row), (bound_names _ _ _ _ Hps) in Hreq. done. }
  unfold compile. cbn [with_parameters templated p_planning_kind]. rewrite Hkind. unfold compile_tool_step.
  cbn [with_parameters templated p_tool p_skill p_parameters]. rewrite Htool, Hskill, Hg. cbn [mbind result_bind].
  rewrite !bool_decide_eq_true_2 by done. cbn [negb andb raise_if mbind result_bind].
  rewrite (proj2 (validate_parameters_Ok _ _) Hps_fit). by eexists.
Qed.

(** ** A concrete workflow *)
Module TemplateDemo.

Definition sha : string := "aaaaaaaaaaaaaaaaaaaaaaaaaaaaaaaaaaaaaaaaaaaaaaaaaaaaaaaaaaaaaaaa".
Definition skill : SkillReference := mk_skill "sales" "1.0" sha.
Definition task : task_row :=
  mk_task "ann" "p1" "s1" 11 "report" SUCCEEDED (Some 7%N) None (Some "done") 4 "ann" "AGENT".

Definition step (tool : ToolReference) (parameters : list (string * json)) : PlanStepDraft :=
  mk_step 0 "Load" "Load the rows" TOOL_PLAN (Some skill) (Some tool) parameters "needed" [] [] 60 None.
Definition tool (name : string) : ToolReference := mk_tool name "1.0" sha.
Definition manifest (name : string) (schema : list (string * ParameterSpec)) : string * ToolManifest :=
  (name, mk_manifest skill (tool name) "Loads rows" "kept for reports" schema "def load(): ...").
Definition source (name : string) (parameters : list (string * json)) : PromotionSource :=
  let s := step (tool name) parameters in
  mk_source 1 task [mk_success 5 6 8 sha s sha] {[ 8%N := mk_plan "Load" "Load it" SINGLE "basic" [s] [] [] ]}.

Definition registry : list (string * ToolManifest) :=
  [manifest "load" [("months", mk_spec "integer" true); ("region", mk_spec "string" false)]].
Definition parameters : list (string * json) := [("months", JInt 3); ("region", JStr "EU")].
Definition defaults : list (string * json) := [("step_0_region", JStr "KR")].
Definition values : list (string * json) := [("step_0_months", JInt 3)].

Definition made : PlanDraft * list (string * input_spec) :=
  match template_plan registry defaults (source "load" parameters) with
  | Ok x => x
  | Err _ => (mk_plan "" "" SINGLE "" [] [] [], [])
  end.

Lemma load_canonical : canonical parameters.
Proof. repeat constructor. Qed.

Lemma source_rows name ps i row : ps_steps (source name ps) !! i = Some row → i = 0%nat ∧ params row = ps.
Proof. destruct i as [|i]; simpl; [by intros [= <-]|by rewrite lookup_nil]. Qed.

Lemma source_tool reg name ps i row m : ps_steps (source name ps) !! i = Some row → tool_of reg row m →
  get_tool reg name = Ok m.
Proof. destruct i as [|i]; simpl; [|by rewrite lookup_nil]. intros [= <-] (t & [= <-] & Hm). done. Qed.

Lemma only_default k v : (k, v) ∈ defaults → is_reference v = false.
Proof. by intros [= -> ->]%list_elem_of_singleton. Qed.

Lemma load_fits : parameters_fit parameters [("months", mk_spec "integer" true); ("region", mk_spec "string" false)].
Proof. by apply validate_parameters_Ok. Qed.

(** Two parameters whose names differ by underscores share one input. *)
Definition shared_registry : list (string * ToolManifest) :=
  [manifest "load" [("x", mk_spec "string" true); ("x_", mk_spec "integer" true)]].
Definition shared_parameters : list (string * json) := [("x", JStr "EU"); ("x_", JInt 3)].
End TemplateDemo.
Import TemplateDemo.

Lemma workflow_reproduces_source_witness : ∃ plan',
  bind_workflow_inputs (λ _, "") (made.1) (made.2) values = Ok plan' ∧ execution_mode plan' = SINGLE ∧
  map p_parameters (steps plan') = [[("months", JInt 3); ("region", JStr "KR")]].
Proof.
  apply (workflow_reproduces_source (λ _, "") registry defaults (source "load" parameters) (made.1) (made.2) values).
  - vm_compute. reflexivity.
  - constructor; [apply load_canonical|constructor].
  - apply only_default.
  - intros i row m Hrow Hm. apply (source_tool _ _ _ _ _ _ Hrow) in Hm. injection Hm as <-.
    apply source_rows in Hrow as [-> Hp]. rewrite Hp. split; [|apply load_fits].
    intros n v [[= -> ->]|[[= -> ->]|[]%not_elem_of_nil]%elem_of_cons]%elem_of_cons Hi; [reflexivity|].
    vm_compute in Hi. discriminate.
  - intros k ->%list_elem_of_singleton. exists 0%nat, (mk_success 5 6 8 sha (step (tool "load") parameters) sha), "months".
    split_and!; [reflexivity|left|reflexivity|reflexivity].
Defined.

Lemma bound_workflow_compiles_witness : ∃ plan',
  bind_workflow_inputs (λ _, "") (made.1) (made.2) values = Ok plan' ∧
  Forall (λ s, ∃ c, compile id (λ _, "v") (λ _, Ok tt) registry s = Ok c) (steps plan').
Proof.
  eexists. split; [vm_compute; reflexivity|].
  apply (bound_workflow_compiles id (λ _, "v") (λ _, Ok tt) (λ _, "") registry defaults (source "load" parameters)
           (made.1) (made.2) values).
  - vm_compute. reflexivity.
  - vm_compute. reflexivity.
  - constructor; [apply load_canonical|constructor].
  - apply only_default.
  - intros i row m Hrow Hm. apply (source_tool _ _ _ _ _ _ Hrow) in Hm. injection Hm as <-.
    apply source_rows in Hrow as [-> Hp]. rewrite Hp. split; [|apply load_fits].
    apply (bool_decide_unpack _). vm_compute. exact I.
  - vm_compute. reflexivity.
Defined.

(** Such a task is accepted as a source, and no input values make its workflow
    run with the parameters of the task. *)
Theorem shared_input_loses_parameter : ∃ plan contract,
  each (eligible_row shared_registry (ps_plans (source "load" shared_parameters)))
    (ps_steps (source "load" shared_parameters)) = Ok tt ∧
  template_plan shared_registry [] (source "load" shared_parameters) = Ok (plan, contract) ∧
  ∀ container_str values plan', bind_workflow_inputs container_str plan contract values = Ok plan' →
    map p_parameters (steps plan') ≠ [shared_parameters].
Proof.
  do 2 eexists. split; [vm_compute; reflexivity|]. split; [vm_compute; reflexivity|].
  intros cs values plan' (_ & _ & ss & Hss & ->)%bind_workflow_inputs_Ok. cbn [steps] in *.
  cbn [bind_steps bind_parameters p_parameters resolve_parameter] in Hss. simpl in Hss.
  destruct (assoc "step_0_x" values) as [v|]; [|done]. simpl in Hss. injection Hss as <-. simpl. unfold shared_parameters. congruence.
Qed.
