(* ===== verification/PlanStore.v ===== *)
(** * Plans and verified steps
    ([ex_agent/persistence/repositories/plans.py] and the lineage part of
    [ex_agent/persistence/repositories/promotions.py])

    Revisions of a task's plan are appended, each once, and the steps the
    Executor ran successfully are recorded, each once. *)

From stdpp Require Import base gmap strings list sorting.
From Stdlib Require Import ZArith Lia.
From S2P Require Import Prelude Text AgentTables Plans Templates WorkflowTables.
Local Open Scope Z_scope.
Set Default Proof Using "Type".

Section PlanStore.
(** [_payload_hash] of a plan and of a step: SHA-256 of their canonical JSON. *)
Context (plan_hash : PlanDraft → string) (step_hash : PlanStepDraft → string).

Record PersistedPlan := mk_persisted {
  pp_plan_id : uuid;
  pp_plan_revision_id : uuid;
  pp_plan_revision_number : Z;
  pp_public_payload_hash : string;
  pp_compiled_bundle_id : uuid
}.

(** The identity of a compiled step that a revision is compared by. *)
Definition compiled_identity (c : CompiledStep * string) : Z * string * string :=
  (cs_sequence c.1, cs_source_sha256 c.1, c.2).

(** [_existing_revision]; the sorted lists are equal when the lists are
    permutations of each other. *)
Definition existing_revision (plan : option (uuid * plan_row)) (number : Z) (payload_hash registry_hash : string)
    (feedback : option string) (compiled : list (CompiledStep * string)) (d : wdb) : result (option PersistedPlan) :=
  let revision := match plan with
                  | None => None
                  | Some (pid, _) => first_where (λ _ r, (rv_plan_id r =? pid)%N && (rv_number r =? number)) (revisions d)
                  end in
  match revision with
  | None =>
      let expected := match plan with None => 1 | Some (_, p) => pl_current_revision p + 1 end in
      raise_if (negb (number =? expected)) (ValueError "Plan revision must advance exactly once");;
      Ok None
  | Some (rid, r) =>
      let actual := omap (λ kv : (uuid * Z) * plan_step_row,
          if (kv.1.1 =? rid)%N then Some (kv.1.2, pst_source_sha256 kv.2, pst_source_path kv.2) else None)
        (map_to_list (plan_steps d)) in
      raise_if (negb (String.eqb (rv_public_payload_hash r) payload_hash && String.eqb (rv_registry_hash r) registry_hash &&
                      bool_decide (rv_feedback r = feedback) && bool_decide (actual ≡ₚ map compiled_identity compiled)))
        (ValueError "Plan revision was reused with different input");;
      Ok (Some (mk_persisted (rv_plan_id r) rid (rv_number r) (rv_public_payload_hash r) (rv_compiled_bundle_id r)))
  end.

(** [UNIQUE (plan_id, revision_number)] *)
Definition insert_revision (id : uuid) (r : revision_row) : tx wdb unit :=
  d ← tx_get;
  tx_guard (bool_decide (revisions d !! id = None)) integrity_error;;
  tx_guard (bool_decide (is_Some (plans d !! rv_plan_id r))) integrity_error;;
  tx_guard (bool_decide (first_where (λ _ r', (rv_plan_id r' =? rv_plan_id r)%N && (rv_number r' =? rv_number r))
                           (revisions d) = None)) integrity_error;;
  tx_modify (set_revisions <[id := r]>).

(** [task_id] is unique among the plans. *)
Definition insert_plan (id : uuid) (p : plan_row) : tx wdb unit :=
  d ← tx_get;
  tx_guard (bool_decide (plans d !! id = None)) integrity_error;;
  tx_guard (bool_decide (is_Some (tasks (agent d) !! pl_task_id p))) integrity_error;;
  tx_guard (bool_decide (first_where (λ _ p', (pl_task_id p' =? pl_task_id p)%N) (plans d) = None)) integrity_error;;
  tx_modify (set_plans <[id := p]>).

(** [l[i]]: a negative index counts from the end. *)
Definition py_index {A} (l : list A) (i : Z) : option A :=
  let j := if i <? 0 then i + Z.of_nat (length l) else i in
  if j <? 0 then None else l !! Z.to_nat j.

(** The step rows of a revision. *)
Fixpoint add_plan_steps (revision : uuid) (plan : PlanDraft) (compiled : list (CompiledStep * string)) : tx wdb unit :=
  match compiled with
  | [] => mret tt
  | (c, path) :: compiled' =>
      draft ← wlift (from_option_err (OtherException "IndexError" "list index out of range")
                       (py_index (steps plan) (cs_sequence c)));
      d ← tx_get;
      tx_guard (bool_decide (plan_steps d !! (revision, cs_sequence c) = None)) integrity_error;;
      tx_modify (set_plan_steps <[(revision, cs_sequence c) :=
        mk_plan_step (p_title draft) (p_purpose draft) (p_selection_rationale draft) (p_skill draft) (p_tool draft)
          (p_parameters draft) (cs_source_sha256 c) path (p_timeout_seconds draft)]>);;
      add_plan_steps revision plan compiled'
  end.

Definition plan_of_task (task_id : uuid) (d : wdb) : option (uuid * plan_row) :=
  first_where (λ _ p, (pl_task_id p =? task_id)%N) (plans d).

(** The plan row with its revision counter moved, and the new number. *)
Definition next_revision (fresh_plan task_id : uuid) (plan : option (uuid * plan_row)) : tx wdb (uuid * Z) :=
  match plan with
  | None => insert_plan fresh_plan (mk_plan_row task_id 1);; mret (fresh_plan, 1)
  | Some (pid, p) =>
      let number := pl_current_revision p + 1 in
      tx_modify (set_plans <[pid := mk_plan_row (pl_task_id p) number]>);;
      mret (pid, number)
  end.

(** [PlanRepository.persist] *)
Definition persist (fresh_plan fresh_revision fresh_bundle task_id : uuid) (plan : PlanDraft)
    (compiled : list (CompiledStep * string)) (registry_hash : string) (feedback : option string)
    (expected : option Z) : tx wdb PersistedPlan :=
  let payload_hash := plan_hash plan in
  d ← tx_get;
  tx_guard (negb (bool_decide (is_Some expected)) || bool_decide (is_Some (tasks (agent d) !! task_id)))
    (LookupError "Unknown plan Task");;
  let row := plan_of_task task_id d in
  existing ← match expected with
             | None => mret None
             | Some number => wlift (existing_revision row number payload_hash registry_hash feedback compiled d)
             end;
  match existing with
  | Some p => mret p
  | None =>
      '(pid, number) ← next_revision fresh_plan task_id row;
      insert_revision fresh_revision (mk_revision pid number plan payload_hash fresh_bundle registry_hash feedback);;
      add_plan_steps fresh_revision plan compiled;;
      mret (mk_persisted pid fresh_revision number payload_hash fresh_bundle)
  end.

(** [PlanRepository.approved_steps] *)
Definition approved_steps (revision : uuid) (d : wdb) : list (Z * plan_step_row) :=
  order_by (λ s, (s.1, 0)) (omap (λ kv : (uuid * Z) * plan_step_row,
    if (kv.1.1 =? revision)%N then Some (kv.1.2, kv.2) else None) (map_to_list (plan_steps d))).

(** [WorkflowPromotionRepository.record_successful_steps]; the task is the one
    the graph runs, whose row exists. *)
Fixpoint record_successful_steps (task_id operation_id plan_id plan_revision_id : uuid) (registry_hash : string)
    (sequence : Z) (steps : list PlanStepDraft) : tx wdb unit :=
  match steps with
  | [] => mret tt
  | step :: steps' =>
      d ← tx_get;
      match successes d !! (task_id, sequence) with
      | Some existing =>
          tx_guard (String.eqb (s_payload_hash existing) (step_hash step) && (s_operation_id existing =? operation_id)%N)
            (ValueError "Successful execution Step lineage changed")
      | None =>
          tx_guard (bool_decide (is_Some (tasks (agent d) !! task_id))) integrity_error;;
          tx_modify (set_successes <[(task_id, sequence) :=
            mk_success operation_id plan_id plan_revision_id registry_hash step (step_hash step)]>)
      end;;
      record_successful_steps task_id operation_id plan_id plan_revision_id registry_hash (sequence + 1) steps'
  end.

(** [WorkflowPromotionRepository.source] *)
Definition promotion_source (task_id : uuid) (d : wdb) : result PromotionSource :=
  task ← from_option_err (LookupError "Unknown task") (tasks (agent d) !! task_id);
  let rows := order_by (λ s : Z * success_row, (s.1, 0)) (omap (λ kv : (uuid * Z) * success_row,
      if (kv.1.1 =? task_id)%N then Some (kv.1.2, kv.2) else None) (map_to_list (successes d))) in
  let revision_ids := map (λ s, s_plan_revision_id s.2) rows in
  let found := filter (λ kr : uuid * revision_row, kr.1 ∈ revision_ids) (revisions d) in
  raise_if (negb (forallb (λ kr, match validate_plan (rv_public_payload kr.2) with Ok _ => true | Err _ => false end)
                    (map_to_list found))) (ValueError "invalid plan");;
  Ok (mk_source task_id task (map snd rows) (rv_public_payload <$> found)).
End PlanStore.
