(* ===== verification/Workflows.v ===== *)
(** * Workflows and their versions
    ([ex_agent/persistence/repositories/promotions.py],
    [ex_agent/persistence/repositories/workflow_lifecycle.py],
    [ex_agent/persistence/repositories/workflows.py])

    A promotion creates a workflow with its first version; the lifecycle adds
    versions, reviews and activates them and switches the workflow on and off,
    each action once per idempotency key; the catalog offers what is active.
    [now] is the time of the call, the clocks of the database and of the
    process being the same. *)

From stdpp Require Import base gmap strings list sorting.
From Stdlib Require Import ZArith Lia.
From S2P Require Import Prelude Text AgentTables Plans Templates WorkflowTables.
Local Open Scope Z_scope.
Set Default Proof Using "Type".

Definition promotion_conflict (m : string) : exn := OtherException "WorkflowPromotionConflictError" m.

(** [try: ... except IntegrityError: raise e] *)
Definition on_integrity {A} (m : tx wdb A) (e : exn) : tx wdb A := λ d,
  match m d with
  | Ok r => Ok r
  | Err x => Err (if is_integrity_error x then e else x)
  end.

Section Workflows.
(** [hashlib.sha256] and [_payload_hash] of [{"plan": ..., "input_contract": ...}]. *)
Context (sha256 : string → string) (payload_hash : PlanDraft → list (string * input_spec) → string).

(** The keyword arguments [create] and [create_version] share. *)
Record version_input := mk_vinput {
  vi_request_examples : list string;
  vi_tags : list string;
  vi_plan : PlanDraft;
  vi_input_contract : list (string * input_spec);
  vi_embedding : list string;
  vi_embedding_model : string;
  vi_registry_hash : string;
  vi_policy_version : string;
  vi_searchable_text : string
}.

(** [_only_value] of a set *)
Definition only_value (l : list uuid) : option uuid :=
  match remove_dups l with [x] => Some x | _ => None end.

Definition content_of (source : PromotionSource) (actor : string) (i : version_input) : version_content :=
  mk_content (Some (ps_task_id source)) (only_value (map s_plan_id (ps_steps source)))
    (only_value (map s_plan_revision_id (ps_steps source))) (k_execution_id (ps_task source))
    (objective (vi_plan i)) (strategy_summary (vi_plan i)) (runtime_profile (vi_plan i)) (vi_input_contract i)
    (expected_artifacts (vi_plan i)) (vi_registry_hash i) (vi_searchable_text i) (sha256 (vi_searchable_text i))
    (vi_embedding_model i) (Some (vi_embedding i)) (vi_request_examples i) (vi_tags i) (vi_policy_version i)
    (vi_plan i) (payload_hash (vi_plan i) (vi_input_contract i)) actor actor.

(** [add_workflow_steps] *)
Fixpoint add_workflow_steps (version_id : uuid) (sequence : Z) (plan_steps : list PlanStepDraft)
    (source_steps : list success_row) : tx wdb unit :=
  match plan_steps, source_steps with
  | [], [] => mret tt
  | s :: plan_steps', row :: source_steps' =>
      match p_skill s, p_tool s with
      | Some k, Some t =>
          insert_wf_step version_id sequence
            (mk_wstep (Some (s_plan_revision_id row)) k t (p_purpose s) (p_selection_rationale s) (p_parameters s)
               (p_expected_outputs s) (p_validation_criteria s) (p_timeout_seconds s));;
          add_workflow_steps version_id (sequence + 1) plan_steps' source_steps'
      | _, _ => tx_raise (ValueError "Promoted Workflow Step requires Skill/Tool lineage")
      end
  | _, _ => tx_raise (ValueError "zip() arguments have different lengths")
  end.

(** ** Promotion *)

Record WorkflowPromotionResult := mk_presult {
  r_workflow_id : uuid;
  r_workflow_version_id : uuid;
  r_version : Z;
  r_created : bool;
  r_public_payload_hash : string
}.

Definition promotion_of (key : string) (d : wdb) : option (uuid * WorkflowPromotion) :=
  first_where (λ _ p, String.eqb (pr_idempotency_key p) key) (promotions d).

(** [_existing_result] *)
Definition promotion_result (p : WorkflowPromotion) (task_id : uuid) (actor request_hash : string) (d : wdb)
    : result WorkflowPromotionResult :=
  raise_if (negb ((pr_task_id p =? task_id)%N && String.eqb (pr_actor_user_id p) actor &&
                  String.eqb (pr_request_hash p) request_hash)) (promotion_conflict "Idempotency key payload mismatch");;
  v ← from_option_err (RuntimeError "Promoted Workflow version is missing") (versions d !! pr_workflow_version_id p);
  Ok (mk_presult (pr_workflow_id p) (pr_workflow_version_id p) (v_version v) false (vc_public_payload_hash (v_content v))).

(** [WorkflowPromotionRepository.existing] *)
Definition existing_promotion (task_id : uuid) (actor key request_hash : string) (d : wdb)
    : result (option WorkflowPromotionResult) :=
  match promotion_of key d with
  | None => Ok None
  | Some (_, p) => r ← promotion_result p task_id actor request_hash d; Ok (Some r)
  end.

(** The rows a promotion creates. *)
Definition promoted_workflow (now : timestamp) (source : PromotionSource) (actor name description : string) : Workflow :=
  mk_workflow name description (Some (k_user_id (ps_task source))) (Some (k_project_id (ps_task source))) "SERVICE" W_ACTIVE 1
    (JObj [("version", JStr "service-v1")]) None now now actor actor.

Definition first_version (now : timestamp) (workflow_id : uuid) (source : PromotionSource) (actor : string)
    (i : version_input) : WorkflowVersion :=
  mk_version workflow_id 1 (content_of source actor i) true APPROVED (Some actor) (Some now) None now now actor.

Definition promoted_event (workflow_id version_id : uuid) : json :=
  JObj [("version", JInt 1); ("workflow_id", JStr (uuid_str workflow_id)); ("workflow_version_id", JStr (uuid_str version_id))].

(** [WorkflowPromotionRepository.create] *)
Definition create_promotion (now : timestamp) (workflow_id version_id promotion_id : uuid) (source : PromotionSource)
    (actor key request_hash name description : string) (i : version_input) : tx wdb WorkflowPromotionResult :=
  d ← tx_get;
  match promotion_of key d with
  | Some (_, p) => wlift (promotion_result p (ps_task_id source) actor request_hash d)
  | None =>
      tx_guard (bool_decide (first_where (λ _ w, String.eqb (w_name w) name) (workflows d) = None))
        (promotion_conflict "Workflow name already exists");;
      on_integrity (insert_workflow workflow_id (promoted_workflow now source actor name description))
        (promotion_conflict "Workflow name already exists");;
      insert_version version_id (first_version now workflow_id source actor i);;
      on_integrity
        (add_workflow_steps version_id 0 (steps (vi_plan i)) (ps_steps source);;
         insert_promotion promotion_id (mk_promotion (ps_task_id source) actor key request_hash workflow_id version_id
                                          (vi_policy_version i));;
         insert_task_event (ps_task_id source) "workflow.promoted" (promoted_event workflow_id version_id))
        (promotion_conflict "Workflow promotion conflicts with existing data");;
      mret (mk_presult workflow_id version_id 1 true (payload_hash (vi_plan i) (vi_input_contract i)))
  end.

(** ** Lifecycle *)

Definition lifecycle_conflict (m : string) : exn := WorkflowLifecycleConflictError m.

Definition action_of_key (key : string) (d : wdb) : option (uuid * WorkflowLifecycleAction) :=
  first_where (λ _ a, String.eqb (a_idempotency_key a) key) (lifecycle d).

(** [_existing_result] *)
Definition existing_result (a : WorkflowLifecycleAction) (workflow_id : uuid) (actor : string) (action : lifecycle_action)
    (request_hash : string) : result WorkflowLifecycleResult :=
  raise_if (negb ((a_workflow_id a =? workflow_id)%N && String.eqb (a_actor_user_id a) actor &&
                  bool_decide (a_action a = action) && String.eqb (a_request_hash a) request_hash))
    (lifecycle_conflict "Idempotency key payload mismatch");;
  let r := a_result_payload a in
  Ok (mk_lresult (l_workflow_id r) (l_workflow_version_id r) (l_version r) (l_public_payload_hash r) (l_action r)
        (l_workflow_status r) (l_review_status r) (l_version_active r) false).

(** [existing] and [_locked_existing], the latter under the advisory lock of
    the key. *)
Definition existing_action (workflow_id : uuid) (actor : string) (action : lifecycle_action) (key request_hash : string)
    (d : wdb) : result (option WorkflowLifecycleResult) :=
  match action_of_key key d with
  | None => Ok None
  | Some (_, a) => r ← existing_result a workflow_id actor action request_hash; Ok (Some r)
  end.

(** [_locked_workflow] and [_workflow_version] *)
Definition locked_workflow (id : uuid) : tx wdb Workflow :=
  d ← tx_get; wlift (from_option_err (LookupError "Unknown Workflow") (workflows d !! id)).

Definition workflow_version (workflow_id version_id : uuid) : tx wdb WorkflowVersion :=
  d ← tx_get;
  match versions d !! version_id with
  | Some v => if (v_workflow_id v =? workflow_id)%N then mret v else tx_raise (LookupError "Unknown Workflow version")
  | None => tx_raise (LookupError "Unknown Workflow version")
  end.

(** Updates of the rows. *)
Definition set_workflow (now : timestamp) (status : workflow_status) (latest : Z) (actor : string) (w : Workflow) : Workflow :=
  mk_workflow (w_name w) (w_description w) (w_owner_user_id w) (w_owner_project_id w) (w_visibility w) status latest
    (w_access_policy w) (w_required_permission w) (w_created_at w) now (w_created_by w) actor.

Definition set_active (now : timestamp) (actor : string) (b : bool) (v : WorkflowVersion) : WorkflowVersion :=
  mk_version (v_workflow_id v) (v_version v) (v_content v) b (v_review_status v) (v_reviewed_by v) (v_reviewed_at v)
    (v_review_reason v) (v_created_at v) now actor.

Definition reviewed (now : timestamp) (actor : string) (s : review_status) (reason : option string) (v : WorkflowVersion)
    : WorkflowVersion :=
  mk_version (v_workflow_id v) (v_version v) (v_content v) (v_active v) s (Some actor) (Some now) reason
    (v_created_at v) now actor.

Definition put_workflow (id : uuid) (w : Workflow) : tx wdb unit := tx_modify (set_workflows <[id := w]>).

(** [_deactivate_versions] *)
Definition deactivate_versions (now : timestamp) (workflow_id : uuid) (actor : string) : tx wdb unit :=
  tx_modify (set_versions (update_where (λ _ v, (v_workflow_id v =? workflow_id)%N) (set_active now actor false))).

(** [_version_result] *)
Definition version_result (workflow_id : uuid) (w : Workflow) (version_id : uuid) (v : WorkflowVersion)
    (action : lifecycle_action) : WorkflowLifecycleResult :=
  mk_lresult workflow_id (Some version_id) (Some (v_version v)) (Some (vc_public_payload_hash (v_content v))) action
    (w_status w) (Some (v_review_status v)) (Some (v_active v)) true.

(** [_add_action] *)
Definition add_action (now : timestamp) (id : uuid) (r : WorkflowLifecycleResult) (actor key request_hash : string)
    (reason : option string) (policy_version : string) : tx wdb unit :=
  insert_action id (mk_laction (l_workflow_id r) (l_workflow_version_id r) actor (l_action r) key request_hash reason
                      policy_version r now now).

Definition opt_json {A} (f : A → json) (o : option A) : json := match o with Some x => f x | None => JNull end.

(** [result.model_dump(mode="json")] *)
Definition result_json (r : WorkflowLifecycleResult) : json :=
  JObj [("action", JStr (lifecycle_action_value (l_action r)));
        ("applied", JBool (l_applied r));
        ("public_payload_hash", opt_json JStr (l_public_payload_hash r));
        ("review_status", opt_json (λ s, JStr (review_status_value s)) (l_review_status r));
        ("version", opt_json JInt (l_version r));
        ("version_active", opt_json JBool (l_version_active r));
        ("workflow_id", JStr (uuid_str (l_workflow_id r)));
        ("workflow_status", JStr (workflow_status_value (l_workflow_status r)));
        ("workflow_version_id", opt_json (λ u, JStr (uuid_str u)) (l_workflow_version_id r))].

(** The arguments every action carries. *)
Record action_call := mk_call {
  c_workflow_id : uuid;
  c_actor : string;
  c_key : string;
  c_request_hash : string;
  c_policy_version : string
}.

(** The replay check that opens every action: [Some] result of an earlier
    call, or none. *)
Definition locked_existing (c : action_call) (action : lifecycle_action) : tx wdb (option WorkflowLifecycleResult) :=
  d ← tx_get; wlift (existing_action (c_workflow_id c) (c_actor c) action (c_key c) (c_request_hash c) d).

Definition new_version (now : timestamp) (c : action_call) (source : PromotionSource) (i : version_input) (next : Z)
    : WorkflowVersion :=
  mk_version (c_workflow_id c) next (content_of source (c_actor c) i) false PENDING_REVIEW None None None now now (c_actor c).

(** [WorkflowLifecycleRepository.create_version] *)
Definition create_version (now : timestamp) (version_id action_id : uuid) (c : action_call) (source : PromotionSource)
    (i : version_input) : tx wdb WorkflowLifecycleResult :=
  replay ← locked_existing c VERSION_CREATED;
  match replay with
  | Some r => mret r
  | None =>
      w ← locked_workflow (c_workflow_id c);
      let next := w_latest_version w + 1 in
      tx_guard (fits_int4 next) (OtherException "DBAPIError" "integer out of range");;
      let v := new_version now c source i next in
      insert_version version_id v;;
      put_workflow (c_workflow_id c) (set_workflow now (w_status w) next (c_actor c) w);;
      add_workflow_steps version_id 0 (steps (vi_plan i)) (ps_steps source);;
      let r := version_result (c_workflow_id c) w version_id v VERSION_CREATED in
      add_action now action_id r (c_actor c) (c_key c) (c_request_hash c) None (vi_policy_version i);;
      insert_task_event (ps_task_id source) "workflow.version_created" (result_json r);;
      mret r
  end.

Inductive review_decision := D_APPROVE | D_REJECT.

(** [WorkflowLifecycleRepository.review_version] *)
Definition review_version (now : timestamp) (action_id : uuid) (c : action_call) (version_id : uuid)
    (decision : review_decision) (reason : option string) : tx wdb WorkflowLifecycleResult :=
  let action := match decision with D_APPROVE => VERSION_APPROVED | D_REJECT => VERSION_REJECTED end in
  replay ← locked_existing c action;
  match replay with
  | Some r => mret r
  | None =>
      w ← locked_workflow (c_workflow_id c);
      v ← workflow_version (c_workflow_id c) version_id;
      tx_guard (bool_decide (v_review_status v = PENDING_REVIEW)) (lifecycle_conflict "Only PENDING_REVIEW versions can be reviewed");;
      let status := match decision with D_APPROVE => APPROVED | D_REJECT => REJECTED end in
      let v' := reviewed now (c_actor c) status reason v in
      update_version version_id v';;
      let v'' := match decision with D_APPROVE => set_active now (c_actor c) true v' | D_REJECT => v' end in
      match decision with
      | D_APPROVE =>
          deactivate_versions now (c_workflow_id c) (c_actor c);;
          update_version version_id v'';;
          put_workflow (c_workflow_id c) (set_workflow now (w_status w) (w_latest_version w) (c_actor c) w)
      | D_REJECT => mret tt
      end;;
      let r := version_result (c_workflow_id c) w version_id v'' action in
      add_action now action_id r (c_actor c) (c_key c) (c_request_hash c) reason (c_policy_version c);;
      mret r
  end.

(** [WorkflowLifecycleRepository.activate_version] *)
Definition activate_version (now : timestamp) (action_id : uuid) (c : action_call) (version_id : uuid)
    (reason : option string) : tx wdb WorkflowLifecycleResult :=
  replay ← locked_existing c VERSION_ACTIVATED;
  match replay with
  | Some r => mret r
  | None =>
      w ← locked_workflow (c_workflow_id c);
      v ← workflow_version (c_workflow_id c) version_id;
      tx_guard (bool_decide (v_review_status v = APPROVED)) (lifecycle_conflict "Only APPROVED versions can be activated");;
      deactivate_versions now (c_workflow_id c) (c_actor c);;
      let v' := set_active now (c_actor c) true v in
      update_version version_id v';;
      put_workflow (c_workflow_id c) (set_workflow now (w_status w) (w_latest_version w) (c_actor c) w);;
      let r := version_result (c_workflow_id c) w version_id v' VERSION_ACTIVATED in
      add_action now action_id r (c_actor c) (c_key c) (c_request_hash c) reason (c_policy_version c);;
      mret r
  end.

(** [WorkflowLifecycleRepository.update_status] *)
Definition update_status (now : timestamp) (action_id : uuid) (c : action_call) (status : workflow_status)
    (reason : option string) : tx wdb WorkflowLifecycleResult :=
  let action := match status with W_ACTIVE => WORKFLOW_ACTIVATED | W_INACTIVE => WORKFLOW_DEACTIVATED end in
  replay ← locked_existing c action;
  match replay with
  | Some r => mret r
  | None =>
      w ← locked_workflow (c_workflow_id c);
      put_workflow (c_workflow_id c) (set_workflow now status (w_latest_version w) (c_actor c) w);;
      let r := mk_lresult (c_workflow_id c) None None None action status None None true in
      add_action now action_id r (c_actor c) (c_key c) (c_request_hash c) reason (c_policy_version c);;
      mret r
  end.
End Workflows.

(** ** Reading *)

(** [WorkflowLifecycleRepository.workflow] and [.overview]: the workflow and
    its active version. *)
Definition get_workflow (id : uuid) (d : wdb) : result Workflow :=
  from_option_err (LookupError "Unknown Workflow") (workflows d !! id).

Definition overview (id : uuid) (d : wdb) : result (Workflow * option (uuid * Z)) :=
  w ← get_workflow id d;
  Ok (w, (λ kv, (kv.1, v_version kv.2)) <$> active_version id d).

(** [WorkflowLifecycleRepository.versions]: one row more than the page shows
    whether there is a next page. *)
Definition version_key (kv : uuid * WorkflowVersion) : sort_key := (- v_version kv.2, 0).
Definition versions_page (workflow_id : uuid) (before_version : option Z) (limit : nat) (d : wdb)
    : list (uuid * WorkflowVersion) * option Z :=
  let rows := keyset_page version_key (λ kv, (v_workflow_id kv.2 =? workflow_id)%N) ((λ b, (- b, 0)) <$> before_version)
                (limit + 1) (map_to_list (versions d)) in
  let visible := take limit rows in
  (visible, if (limit <? length rows)%nat then (λ kv, v_version kv.2) <$> last visible else None).

(** [WorkflowLifecycleRepository.actions] *)
Definition action_key (ka : uuid * WorkflowLifecycleAction) : sort_key := (- a_created_at ka.2, - Z.of_N ka.1).
Definition actions_page (workflow_id : uuid) (before : option (timestamp * uuid)) (limit : nat) (d : wdb)
    : list (uuid * WorkflowLifecycleAction) * option (timestamp * uuid) :=
  let rows := keyset_page action_key (λ ka, (a_workflow_id ka.2 =? workflow_id)%N)
                ((λ b, (- b.1, - Z.of_N b.2)) <$> before) (limit + 1) (map_to_list (lifecycle d)) in
  let visible := take limit rows in
  (visible, if (limit <? length rows)%nat then (λ ka, (a_created_at ka.2, ka.1)) <$> last visible else None).

(** [WorkflowLifecycleRepository.version_detail]: the version, its plan
    validated, and its steps in order. *)
Definition version_detail (workflow_id version_id : uuid) (d : wdb)
    : result (WorkflowVersion * list (Z * WorkflowStep)) :=
  v ← from_option_err (LookupError "Unknown Workflow version") (versions d !! version_id);
  raise_if (negb (v_workflow_id v =? workflow_id)%N) (LookupError "Unknown Workflow version");;
  validate_plan (vc_plan_payload (v_content v));;
  Ok (v, order_by (λ s, (s.1, 0)) (omap (λ kv : (uuid * Z) * WorkflowStep,
           if (kv.1.1 =? version_id)%N then Some (kv.1.2, kv.2) else None) (map_to_list (wf_steps d)))).

(** ** The catalog *)

(** The [WHERE] clause of [WorkflowCatalogRepository]. *)
Definition offered (d : wdb) (v : WorkflowVersion) : bool :=
  v_active v && bool_decide (v_review_status v = APPROVED) &&
  match workflows d !! v_workflow_id v with
  | Some w => bool_decide (w_status w = W_ACTIVE) && String.eqb (w_visibility w) "SERVICE"
  | None => false
  end.

(** [WorkflowCatalogRepository.version] *)
Definition catalog_version (id : uuid) (d : wdb) : result WorkflowVersion :=
  match versions d !! id with
  | Some v => if offered d v then Ok v else Err (LookupError "Unknown Workflow version")
  | None => Err (LookupError "Unknown Workflow version")
  end.

Record WorkflowCandidate := mk_candidate {
  cd_workflow_version_id : uuid;
  cd_name : string;
  cd_description : string;
  cd_score : string;
  cd_plan : PlanDraft;
  cd_input_contract : list (string * input_spec);
  cd_public_payload_hash : string
}.

Section Catalog.
(** pgvector's cosine distance, as a number in the order of the distances, and
    [max(0.0, 1.0 - distance)]. *)
Context (cosine_distance : list string → list string → Z) (score : Z → string).

(** [WorkflowCatalogRepository.candidates]; versions at the same distance come
    in any order, here in the order of the table. *)
Definition candidate_distance (embedding : list string) (kv : uuid * WorkflowVersion) : Z :=
  from_option (λ e, cosine_distance e embedding) 0 (vc_embedding (v_content kv.2)).

Definition candidate (embedding : list string) (d : wdb) (kv : uuid * WorkflowVersion) : result WorkflowCandidate :=
  let c := v_content kv.2 in
  validate_plan (vc_plan_payload c);;
  w ← get_workflow (v_workflow_id kv.2) d;
  Ok (mk_candidate kv.1 (w_name w) (w_description w) (score (candidate_distance embedding kv)) (vc_plan_payload c)
        (vc_input_contract c) (vc_public_payload_hash c)).

Definition candidate_rows (embedding : list string) (limit : nat) (d : wdb) : list (uuid * WorkflowVersion) :=
  select_page (λ kv, (candidate_distance embedding kv, 0))
    (λ kv, offered d kv.2 && bool_decide (is_Some (vc_embedding (v_content kv.2)))) limit (map_to_list (versions d)).

Fixpoint all_ok {A B} (f : A → result B) (l : list A) : result (list B) :=
  match l with
  | [] => Ok []
  | x :: l' => y ← f x; ys ← all_ok f l'; Ok (y :: ys)
  end.

Definition candidates (embedding : list string) (limit : nat) (d : wdb) : result (list WorkflowCandidate) :=
  all_ok (candidate embedding d) (candidate_rows embedding limit d).
End Catalog.
