(* ===== verification/WorkflowService.v ===== *)
(** * Who may change a workflow, and from what
    ([ex_agent/application/workflow_lifecycle.py] and the service of
    [ex_agent/application/promotions.py])

    The services read the database in transactions of their own before the
    repository's transaction runs: [d_auth], [d_seen] and [d_source] are the
    states those reads saw, the transaction runs on the state it finds. A call
    that fails in between has changed nothing. *)

From stdpp Require Import base gmap strings list sorting.
From Stdlib Require Import ZArith Lia.
From S2P Require Import Prelude Text AgentTables Plans Templates WorkflowTables PlanStore Workflows.
Local Open Scope Z_scope.
Set Default Proof Using "Type".

Section Services.
(** [hashlib.sha256]; the hash of a request's canonical JSON and of a plan with
    its contract; the embedding model and the settings' dimension and model. *)
Context (sha256 : string → string) (json_hash : json → string)
  (payload_hash : PlanDraft → list (string * input_spec) → string)
  (aembed_query : string → result (list string)) (embedding_dimensions : nat) (embedding_model : string)
  (registry : list (string * ToolManifest)).

(** ** Promotion *)

(** [AuthenticatedServicePromotionPolicy.evaluate] *)
Definition promotion_allowed (actor : string) (source : PromotionSource) : bool :=
  negb (String.eqb actor "") && String.eqb (k_user_id (ps_task source)) actor.
Definition promotion_policy_version : string := "authenticated-owner-v1".

(** [WorkflowPromotionService.eligible_source] *)
Definition eligible_source (task_id : uuid) (actor : string) (d : wdb) : result PromotionSource :=
  source ← promotion_source task_id d;
  raise_if (negb (promotion_allowed actor source)) (promotion_forbidden "actor does not own the source Task");;
  raise_if (negb (bool_decide (k_status (ps_task source) = SUCCEEDED))) (not_eligible "Only succeeded Tasks can be promoted");;
  raise_if (bool_decide (k_execution_id (ps_task source) = None)) (not_eligible "Task has no Executor execution lineage");;
  raise_if (bool_decide (ps_steps source = [])) (not_eligible "Task has no verified successful execution Steps");;
  each (eligible_row registry (ps_plans source)) (ps_steps source);;
  Ok source.

(** [_searchable_text] *)
Definition searchable_text (name description : string) (examples tags : list string) (plan : PlanDraft) : string :=
  let values := [name; description; objective plan; strategy_summary plan] ++ examples ++ tags ++
    concat (map (λ s, [p_title s; p_purpose s; p_selection_rationale s] ++ p_expected_outputs s ++
                      [from_option sk_name "" (p_skill s); from_option tl_name "" (p_tool s)]) (steps plan)) in
  String.concat newline (map strip (filter (λ v, is_blank v = false) values)).

(** Strings in the order of [sorted]. *)
Fixpoint insert_sorted (x : string) (l : list string) : list string :=
  match l with
  | [] => [x]
  | y :: l' => match String.compare x y with Gt => y :: insert_sorted x l' | _ => x :: l end
  end.
Definition sort_strings (l : list string) : list string := foldr insert_sorted [] l.

Definition registry_hash_of (source : PromotionSource) : string :=
  match sort_strings (remove_dups (map s_registry_hash (ps_steps source))) with
  | [h] => h
  | l => sha256 (String.concat newline l)
  end.

(** [WorkflowPromotionService.prepare_version] *)
Definition prepare_version (source : PromotionSource) (name description : string) (examples tags : list string)
    (defaults : list (string * json)) (policy_version : string) : result version_input :=
  '(plan, contract) ← template_plan registry defaults source;
  let plan := mk_plan name description (execution_mode plan) (runtime_profile plan) (steps plan) [] [] in
  let text := searchable_text name description examples tags plan in
  embedding ← aembed_query text;
  raise_if (negb (length embedding =? embedding_dimensions)%nat)
    (ValueError "Embedding dimension does not match the configured pgvector dimension");;
  Ok (mk_vinput examples tags plan contract embedding embedding_model (registry_hash_of source) policy_version text).

Record promotion_request := mk_prequest {
  pq_idempotency_key : string;
  pq_name : string;
  pq_description : string;
  pq_request_examples : list string;
  pq_tags : list string;
  pq_public_parameter_defaults : list (string * json)
}.

(** [request.model_dump(mode="json")] *)
Definition promotion_request_json (q : promotion_request) : json :=
  JObj [("description", JStr (pq_description q)); ("idempotency_key", JStr (pq_idempotency_key q)); ("name", JStr (pq_name q));
        ("public_parameter_defaults", JObj (pq_public_parameter_defaults q));
        ("request_examples", JArr (map JStr (pq_request_examples q))); ("tags", JArr (map JStr (pq_tags q)))].

(** [WorkflowPromotionService.promote] *)
Definition promote (d_seen d_source : wdb) (now : timestamp) (workflow_id version_id promotion_id task_id : uuid)
    (actor : string) (q : promotion_request) : tx wdb WorkflowPromotionResult :=
  let hash := json_hash (promotion_request_json q) in
  existing ← wlift (existing_promotion task_id actor (pq_idempotency_key q) hash d_seen);
  match existing with
  | Some r => mret r
  | None =>
      source ← wlift (eligible_source task_id actor d_source);
      i ← wlift (prepare_version source (pq_name q) (pq_description q) (pq_request_examples q) (pq_tags q)
                   (pq_public_parameter_defaults q) promotion_policy_version);
      create_promotion sha256 payload_hash now workflow_id version_id promotion_id source actor (pq_idempotency_key q) hash
        (pq_name q) (pq_description q) i
  end.

(** ** Lifecycle *)

(** [OwnerWorkflowLifecyclePolicy.evaluate] *)
Definition owner_allowed (actor : string) (w : Workflow) : bool :=
  negb (String.eqb actor "") && bool_decide (w_owner_user_id w = Some actor).
Definition owner_policy_version : string := "workflow-owner-v1".

(** [WorkflowLifecycleService._authorized] *)
Definition authorized (workflow_id : uuid) (actor : string) (d : wdb) : result Workflow :=
  w ← get_workflow workflow_id d;
  raise_if (negb (owner_allowed actor w)) (WorkflowLifecycleForbiddenError "actor does not own the Workflow");;
  Ok w.

(** [_request_hash] *)
Definition request_hash (context request : list (string * json)) : string :=
  json_hash (JObj [("context", JObj context); ("request", JObj request)]).
Definition version_context (version_id : uuid) : list (string * json) := [("workflow_version_id", JStr (uuid_str version_id))].

(** What every action does first: the owner is checked, then an earlier call
    with the key is answered. *)
Definition opened (d_auth d_seen : wdb) (c : action_call) (action : lifecycle_action)
    (body : Workflow → tx wdb WorkflowLifecycleResult) : tx wdb WorkflowLifecycleResult :=
  w ← wlift (authorized (c_workflow_id c) (c_actor c) d_auth);
  existing ← wlift (existing_action (c_workflow_id c) (c_actor c) action (c_key c) (c_request_hash c) d_seen);
  match existing with
  | Some r => mret r
  | None => body w
  end.

Record version_request := mk_vrequest {
  vq_idempotency_key : string;
  vq_source_task_id : uuid;
  vq_request_examples : list string;
  vq_tags : list string;
  vq_public_parameter_defaults : list (string * json)
}.

Definition version_request_json (q : version_request) : list (string * json) :=
  [("idempotency_key", JStr (vq_idempotency_key q)); ("public_parameter_defaults", JObj (vq_public_parameter_defaults q));
   ("request_examples", JArr (map JStr (vq_request_examples q))); ("source_task_id", JStr (uuid_str (vq_source_task_id q)));
   ("tags", JArr (map JStr (vq_tags q)))].

(** [WorkflowLifecycleService.create_version] *)
Definition create_workflow_version (d_auth d_seen d_source : wdb) (now : timestamp) (version_id action_id workflow_id : uuid)
    (actor : string) (q : version_request) : tx wdb WorkflowLifecycleResult :=
  let c := mk_call workflow_id actor (vq_idempotency_key q) (request_hash [] (version_request_json q)) owner_policy_version in
  opened d_auth d_seen c VERSION_CREATED (λ w,
    source ← wlift (eligible_source (vq_source_task_id q) actor d_source);
    i ← wlift (prepare_version source (w_name w) (w_description w) (vq_request_examples q) (vq_tags q)
                 (vq_public_parameter_defaults q) owner_policy_version);
    create_version sha256 payload_hash now version_id action_id c source i).

(** [WorkflowLifecycleService.review_version] *)
Definition review_workflow_version (d_auth d_seen : wdb) (now : timestamp) (action_id workflow_id version_id : uuid)
    (actor key : string) (decision : review_decision) (reason : option string) : tx wdb WorkflowLifecycleResult :=
  let c := mk_call workflow_id actor key
    (request_hash (version_context version_id)
       [("decision", JStr (match decision with D_APPROVE => "APPROVE" | D_REJECT => "REJECT" end));
        ("idempotency_key", JStr key); ("reason", opt_json JStr reason)]) owner_policy_version in
  opened d_auth d_seen c (match decision with D_APPROVE => VERSION_APPROVED | D_REJECT => VERSION_REJECTED end) (λ _,
    review_version now action_id c version_id decision reason).

(** [WorkflowLifecycleService.activate_version] *)
Definition activate_workflow_version (d_auth d_seen : wdb) (now : timestamp) (action_id workflow_id version_id : uuid)
    (actor key : string) (reason : option string) : tx wdb WorkflowLifecycleResult :=
  let c := mk_call workflow_id actor key
    (request_hash (version_context version_id) [("idempotency_key", JStr key); ("reason", opt_json JStr reason)])
    owner_policy_version in
  opened d_auth d_seen c VERSION_ACTIVATED (λ _, activate_version now action_id c version_id reason).

(** [WorkflowLifecycleService.update_status] *)
Definition update_workflow_status (d_auth d_seen : wdb) (now : timestamp) (action_id workflow_id : uuid)
    (actor key : string) (status : workflow_status) (reason : option string) : tx wdb WorkflowLifecycleResult :=
  let c := mk_call workflow_id actor key
    (request_hash [] [("idempotency_key", JStr key); ("reason", opt_json JStr reason);
                      ("status", JStr (workflow_status_value status))]) owner_policy_version in
  opened d_auth d_seen c (match status with W_ACTIVE => WORKFLOW_ACTIVATED | W_INACTIVE => WORKFLOW_DEACTIVATED end) (λ _,
    update_status now action_id c status reason).
End Services.
