(* ===== verification/WorkflowsInv.v ===== *)
(** * Invariant of workflows and versions

    What the transactions of promotion and lifecycle do to the two tables, and
    that each keeps them consistent: the versions of a workflow are numbered
    from one without a gap, exactly one of them is active, and it has been
    approved. *)

From stdpp Require Import base gmap strings list sorting.
From Stdlib Require Import ZArith Lia.
From S2P Require Import Prelude Text AgentTables Plans Templates WorkflowTables Workflows.
Local Open Scope Z_scope.
Set Default Proof Using "Type".

(** ** Queries *)
Section Queries.
Context {K} `{Countable K} {V} (p : K → V → bool) (t : gmap K V).

Lemma first_where_None : first_where p t = None ↔ ∀ k v, t !! k = Some v → p k v = false.
Proof.
  unfold first_where. rewrite head_omap_None. split.
  - intros Hn k v Hk%elem_of_map_to_list. specialize (Hn _ Hk). simpl in Hn. by destruct (p k v).
  - intros Hn [k v] Hk%elem_of_map_to_list. simpl. by rewrite (Hn _ _ Hk).
Qed.

Lemma first_where_Some k v : first_where p t = Some (k, v) → t !! k = Some v ∧ p k v = true.
Proof.
  unfold first_where. intros ([k' v'] & Hk%elem_of_map_to_list & E)%head_omap_Some. simpl in E.
  destruct (p k' v') eqn:Ep; [by injection E as <- <-|done].
Qed.
End Queries.

(** ** The invariant *)

Record tables_ok (wt : gmap uuid Workflow) (vt : gmap uuid WorkflowVersion) : Prop := {
  to_version : ∀ id v, vt !! id = Some v → ∃ w, wt !! v_workflow_id v = Some w ∧ 1 ≤ v_version v ≤ w_latest_version w;
  to_number : ∀ wid w n, wt !! wid = Some w → 1 ≤ n ≤ w_latest_version w →
    ∃ id v, vt !! id = Some v ∧ v_workflow_id v = wid ∧ v_version v = n;
  to_unique : ∀ i j v u, vt !! i = Some v → vt !! j = Some u → v_workflow_id v = v_workflow_id u →
    v_version v = v_version u → i = j;
  to_active : ∀ wid w, wt !! wid = Some w → ∃ id v, vt !! id = Some v ∧ v_workflow_id v = wid ∧ v_active v = true;
  to_one : ∀ i j v u, vt !! i = Some v → vt !! j = Some u → v_workflow_id v = v_workflow_id u →
    v_active v = true → v_active u = true → i = j;
  to_approved : ∀ id v, vt !! id = Some v → v_active v = true → v_review_status v = APPROVED;
  to_reviewed : ∀ id v, vt !! id = Some v → v_review_status v ≠ PENDING_REVIEW →
    is_Some (v_reviewed_by v) ∧ is_Some (v_reviewed_at v);
  to_name : ∀ i j w u, wt !! i = Some w → wt !! j = Some u → w_name w = w_name u → i = j
}.

Lemma empty_tables_ok : tables_ok ∅ ∅.
Proof. by split; intros *; rewrite ?lookup_empty. Qed.

(** A row of [<[k := v]> t]: the new one or an old one. *)
Ltac row_cases H := apply lookup_insert_Some in H as [[<- <-]|[? H]].

Section Keep.
Context (wt : gmap uuid Workflow) (vt : gmap uuid WorkflowVersion) (Hok : tables_ok wt vt).

(** A new workflow with its first version. *)
Lemma tables_promote wid vid w v : wt !! wid = None → vt !! vid = None →
  (∀ i u, wt !! i = Some u → w_name u ≠ w_name w) →
  v_workflow_id v = wid → v_version v = 1 → w_latest_version w = 1 → v_active v = true →
  v_review_status v = APPROVED → is_Some (v_reviewed_by v) → is_Some (v_reviewed_at v) →
  tables_ok (<[wid := w]> wt) (<[vid := v]> vt).
Proof using Hok.
  intros Hw Hv Hname E1 E2 E3 Ha Hr Hb Ht. destruct Hok as [O1 O2 O3 O4 O5 O6 O7 O8].
  assert (Hno : ∀ i u, vt !! i = Some u → v_workflow_id u ≠ wid).
  { intros i u Hu E. destruct (O1 _ _ Hu) as (w' & Hw' & _). rewrite E in Hw'. congruence. }
  assert (Hold : ∀ i u, vt !! i = Some u → <[vid := v]> vt !! i = Some u).
  { intros i u Hu. rewrite lookup_insert_ne; [done|congruence]. }
  split.
  - intros i u Hu. row_cases Hu; [exists w; rewrite E1, lookup_insert_eq; split; [done|lia]|].
    destruct (O1 _ _ Hu) as (w' & Hw' & ?). exists w'. rewrite lookup_insert_ne; [done|congruence].
  - intros i u n Hu Hn. row_cases Hu; [exists vid, v; rewrite lookup_insert_eq; split_and!; [done..|lia]|].
    destruct (O2 _ _ _ Hu Hn) as (id & x & Hx & ?). exists id, x. auto.
  - intros i j x y Hx Hy E En. row_cases Hx; row_cases Hy; [done|exfalso; eapply Hno; [exact Hy|congruence]..| |by eapply O3].
    exfalso. eapply Hno; [exact Hx|congruence].
  - intros i u Hu. row_cases Hu; [exists vid, v; by rewrite lookup_insert_eq|].
    destruct (O4 _ _ Hu) as (id & x & Hx & ?). exists id, x. auto.
  - intros i j x y Hx Hy E Hax Hay. row_cases Hx; row_cases Hy; [done|exfalso; eapply Hno; [exact Hy|congruence]..| |by eapply O5].
    exfalso. eapply Hno; [exact Hx|congruence].
  - intros i u Hu. row_cases Hu; [done|by apply (O6 i)].
  - intros i u Hu. row_cases Hu; [done|by apply (O7 i)].
  - intros i j x y Hx Hy E. row_cases Hx; row_cases Hy; [done|by destruct (Hname _ _ Hy)|by destruct (Hname _ _ Hx)|by eapply O8].
Qed.

(** The next version of a workflow, still to be reviewed. *)
Lemma tables_new_version wid vid w w' v : wt !! wid = Some w → vt !! vid = None →
  w_name w' = w_name w → w_latest_version w' = w_latest_version w + 1 →
  v_workflow_id v = wid → v_version v = w_latest_version w + 1 → v_active v = false → v_review_status v = PENDING_REVIEW →
  tables_ok (<[wid := w']> wt) (<[vid := v]> vt).
Proof using Hok.
  intros Hw Hv En El E1 E2 Ha Hr. destruct Hok as [O1 O2 O3 O4 O5 O6 O7 O8].
  assert (Hno : ∀ i u, vt !! i = Some u → v_workflow_id u = wid → v_version u ≤ w_latest_version w).
  { intros i u Hu E. destruct (O1 _ _ Hu) as (x & Hx & ?). rewrite E in Hx. assert (x = w) as -> by congruence. lia. }
  assert (0 ≤ w_latest_version w).
  { destruct (O4 _ _ Hw) as (id & x & Hx & E & _). specialize (Hno _ _ Hx E). destruct (O1 _ _ Hx) as (? & ? & ?). lia. }
  assert (Hold : ∀ i u, vt !! i = Some u → <[vid := v]> vt !! i = Some u).
  { intros i u Hu. rewrite lookup_insert_ne; [done|congruence]. }
  split.
  - intros i u Hu. row_cases Hu; [exists w'; rewrite E1, lookup_insert_eq; split; [done|lia]|].
    destruct (O1 _ _ Hu) as (x & Hx & ?). rewrite lookup_insert. case_decide as E; [|by exists x].
    exists w'. split; [done|]. assert (x = w) as -> by congruence. lia.
  - intros i u n Hu Hn. row_cases Hu.
    + destruct (decide (n = w_latest_version w + 1)) as [->|]; [exists vid, v; by rewrite lookup_insert_eq|].
      destruct (O2 _ _ n Hw) as (id & x & Hx & ?); [lia|]. exists id, x. auto.
    + destruct (O2 _ _ _ Hu Hn) as (id & x & Hx & ?). exists id, x. auto.
  - intros i j x y Hx Hy E En'. row_cases Hx; row_cases Hy; [done| | |by eapply O3].
    + assert (v_workflow_id y = wid) as Ey by congruence. specialize (Hno _ _ Hy Ey). lia.
    + assert (v_workflow_id x = wid) as Ex by congruence. specialize (Hno _ _ Hx Ex). lia.
  - intros i u Hu. assert (is_Some (wt !! i)) as [u0 Hu0] by (row_cases Hu; eauto).
    destruct (O4 _ _ Hu0) as (id & x & Hx & ?). exists id, x. auto.
  - intros i j x y Hx Hy E Hax Hay. row_cases Hx; row_cases Hy; [done|congruence..|by eapply O5].
  - intros i u Hu Hau. row_cases Hu; [congruence|by apply (O6 i)].
  - intros i u Hu Hru. row_cases Hu; [done|by apply (O7 i)].
  - intros i j x y Hx Hy E. row_cases Hx; row_cases Hy; [done|..|by eapply O8].
    + eapply O8; [exact Hw|exact Hy|congruence].
    + eapply O8; [exact Hx|exact Hw|congruence].
Qed.

(** A workflow's row is rewritten. *)
Lemma tables_workflow wid w w' : wt !! wid = Some w → w_name w' = w_name w → w_latest_version w' = w_latest_version w →
  tables_ok (<[wid := w']> wt) vt.
Proof using Hok.
  intros Hw En El. destruct Hok as [O1 O2 O3 O4 O5 O6 O7 O8]. split; [..|done|done|done| ]; try done.
  - intros i u Hu. destruct (O1 _ _ Hu) as (x & Hx & ?). rewrite lookup_insert. case_decide as E; [|by exists x].
    exists w'. split; [done|]. assert (x = w) as -> by congruence. lia.
  - intros i u n Hu Hn. row_cases Hu; [apply (O2 _ _ n Hw); lia|by eapply O2].
  - intros i u Hu. row_cases Hu; [by eapply O4|by eapply O4].
  - intros i j x y Hx Hy E. row_cases Hx; row_cases Hy; [done|..|by eapply O8].
    + eapply O8; [exact Hw|exact Hy|congruence].
    + eapply O8; [exact Hx|exact Hw|congruence].
Qed.

(** A version is rejected. *)
Lemma tables_reject vid v v' : vt !! vid = Some v → v_workflow_id v' = v_workflow_id v → v_version v' = v_version v →
  v_active v' = v_active v → v_review_status v = PENDING_REVIEW → is_Some (v_reviewed_by v') → is_Some (v_reviewed_at v') →
  tables_ok wt (<[vid := v']> vt).
Proof using Hok.
  intros Hv E1 E2 E3 Hr Hb Ht. destruct Hok as [O1 O2 O3 O4 O5 O6 O7 O8].
  assert (Hna : v_active v = false).
  { destruct (v_active v) eqn:E; [|done]. rewrite (O6 _ _ Hv E) in Hr. done. }
  assert (Hback : ∀ i u, <[vid := v']> vt !! i = Some u → ∃ u0, vt !! i = Some u0 ∧ v_workflow_id u = v_workflow_id u0 ∧
    v_version u = v_version u0 ∧ v_active u = v_active u0).
  { intros i u Hu. row_cases Hu; [by exists v|by exists u]. }
  assert (Hforth : ∀ i u, vt !! i = Some u → ∃ u', <[vid := v']> vt !! i = Some u' ∧ v_workflow_id u' = v_workflow_id u ∧
    v_version u' = v_version u ∧ v_active u' = v_active u).
  { intros i u Hu. rewrite lookup_insert. case_decide; subst; [|by exists u]. exists v'. split; [done|]. by simplify_eq. }
  split; try done.
  - intros i u (u0 & Hu & Ew & Ev & _)%Hback. rewrite Ew, Ev. by eapply O1.
  - intros wid w n Hw Hn. destruct (O2 _ _ _ Hw Hn) as (id & x & Hx & Ew & Ev).
    destruct (Hforth _ _ Hx) as (x' & Hx' & ? & ? & _). exists id, x'. split_and!; [done|congruence..].
  - intros i j x y (x0 & Hx & Ewx & Evx & _)%Hback (y0 & Hy & Ewy & Evy & _)%Hback E En. eapply O3; [exact Hx|exact Hy|congruence..].
  - intros wid w Hw. destruct (O4 _ _ Hw) as (id & x & Hx & Ew & Ea). destruct (Hforth _ _ Hx) as (x' & Hx' & ? & _ & ?).
    exists id, x'. split_and!; [done|congruence..].
  - intros i j x y (x0 & Hx & Ewx & _ & Eax)%Hback (y0 & Hy & Ewy & _ & Eay)%Hback E Hax Hay. eapply O5; [exact Hx|exact Hy|congruence..].
  - intros i u Hu Ha. row_cases Hu; [congruence|by apply (O6 i)].
  - intros i u Hu Hp. row_cases Hu; [done|by apply (O7 i)].
Qed.

(** The switch of the active version. *)
Definition switched (now : timestamp) (actor : string) (vid : uuid) (v' : WorkflowVersion) : gmap uuid WorkflowVersion :=
  <[vid := v']> (update_where (λ _ u, (v_workflow_id u =? v_workflow_id v')%N) (set_active now actor false) vt).

Lemma lookup_switched now actor vid v' i u : switched now actor vid v' !! i = Some u ↔
  (i = vid ∧ u = v') ∨ (i ≠ vid ∧ ∃ u0, vt !! i = Some u0 ∧
     u = if decide (v_workflow_id u0 = v_workflow_id v') then set_active now actor false u0 else u0).
Proof using Type.
  unfold switched. rewrite lookup_insert. case_decide as E; subst.
  - split; [intros [= <-]; by left|intros [[_ ->]|[? _]]; done].
  - rewrite lookup_update_where_Some. split.
    + intros (u0 & Hu0 & ->). right. split; [done|]. exists u0. split; [done|].
      destruct (N.eqb_spec (v_workflow_id u0) (v_workflow_id v')); [by rewrite decide_True|by rewrite decide_False].
    + intros [[-> _]|(_ & u0 & Hu0 & ->)]; [done|]. exists u0. split; [done|].
      destruct (N.eqb_spec (v_workflow_id u0) (v_workflow_id v')); [by rewrite decide_True|by rewrite decide_False].
Qed.

Lemma tables_switch now actor vid v v' : vt !! vid = Some v → v_workflow_id v' = v_workflow_id v → v_version v' = v_version v →
  v_active v' = true → v_review_status v' = APPROVED → is_Some (v_reviewed_by v') → is_Some (v_reviewed_at v') →
  tables_ok wt (switched now actor vid v').
Proof using Hok.
  intros Hv E1 E2 Ha Hr Hb Ht. destruct Hok as [O1 O2 O3 O4 O5 O6 O7 O8].
  assert (Hback : ∀ i u, switched now actor vid v' !! i = Some u → ∃ u0, vt !! i = Some u0 ∧
    v_workflow_id u = v_workflow_id u0 ∧ v_version u = v_version u0).
  { intros i u [[-> ->]|(_ & u0 & Hu0 & ->)]%lookup_switched; [by exists v|]. exists u0. by case_decide. }
  assert (Hforth : ∀ i u, vt !! i = Some u → ∃ u', switched now actor vid v' !! i = Some u' ∧
    v_workflow_id u' = v_workflow_id u ∧ v_version u' = v_version u ∧ (v_workflow_id u ≠ v_workflow_id v' → u' = u)).
  { intros i u Hu. destruct (decide (i = vid)) as [->|].
    - exists v'. simplify_eq. split_and!; [apply lookup_switched; by left|done|done|by rewrite E1].
    - eexists. split; [apply lookup_switched; right; split; [done|]; by exists u|]. by case_decide. }
  assert (Hact : ∀ i u, switched now actor vid v' !! i = Some u → v_active u = true →
    i = vid ∨ v_workflow_id u ≠ v_workflow_id v' ∧ vt !! i = Some u).
  { intros i u [[-> ->]|(_ & u0 & Hu0 & ->)]%lookup_switched; [by left|]. case_decide; [done|by right]. }
  split; try done.
  - intros i u (u0 & Hu & Ew & Ev)%Hback. rewrite Ew, Ev. by eapply O1.
  - intros wid w n Hw Hn. destruct (O2 _ _ _ Hw Hn) as (id & x & Hx & Ew & Ev).
    destruct (Hforth _ _ Hx) as (x' & Hx' & ? & ? & _). exists id, x'. split_and!; [done|congruence..].
  - intros i j x y (x0 & Hx & Ewx & Evx)%Hback (y0 & Hy & Ewy & Evy)%Hback E En. eapply O3; [exact Hx|exact Hy|congruence..].
  - intros wid w Hw. destruct (decide (wid = v_workflow_id v')) as [->|Hne].
    + exists vid, v'. split_and!; [apply lookup_switched; by left|done..].
    + destruct (O4 _ _ Hw) as (id & x & Hx & Ew & Ea). destruct (Hforth _ _ Hx) as (x' & Hx' & _ & _ & Hs).
      rewrite Hs in Hx' by congruence. by exists id, x.
  - intros i j x y Hx Hy E Hax Hay. apply Hact in Hx as Hx'; [|done]. apply Hact in Hy as Hy'; [|done].
    destruct Hx' as [->|[Nx Hx']], Hy' as [->|[Ny Hy']]; [done|..|by eapply O5].
    + apply lookup_switched in Hx as [[_ ->]|[]]; [|done]. congruence.
    + apply lookup_switched in Hy as [[_ ->]|[]]; [|done]. congruence.
  - intros i u Hu Hau. apply Hact in Hu as Hu'; [|done]. destruct Hu' as [->|[_ Hu']]; [|by eapply O6].
    by apply lookup_switched in Hu as [[_ ->]|[]].
  - intros i u [[-> ->]|(_ & u0 & Hu0 & ->)]%lookup_switched; [done|]. case_decide; simpl; by eapply O7.
Qed.
End Keep.
