(* ===== verification/WorkflowsSteps.v ===== *)
(** * What the workflow transactions commit

    Each transaction of promotion and lifecycle, when it commits, answers an
    earlier call without a change or makes one of five changes to the tables.
    The changes keep the invariant and never rewrite history. *)

From stdpp Require Import base gmap strings list sorting relations.
From Stdlib Require Import ZArith Lia.
From S2P Require Import Prelude Text AgentTables Plans Templates WorkflowTables PlanStore Workflows WorkflowsInv.
Local Open Scope Z_scope.
Set Default Proof Using "Type".

(** ** Changes *)

(** The action a call records. *)
Definition recorded (now : timestamp) (c : action_call) (r : WorkflowLifecycleResult) (reason : option string)
    (policy : string) : WorkflowLifecycleAction :=
  mk_laction (l_workflow_id r) (l_workflow_version_id r) (c_actor c) (l_action r) (c_key c) (c_request_hash c) reason policy r now now.

Definition key_free (key : string) (d : wdb) : Prop := ∀ id a, lifecycle d !! id = Some a → a_idempotency_key a ≠ key.

Definition same_workflows (d d' : wdb) : Prop :=
  workflows d' = workflows d ∧ versions d' = versions d ∧ wf_steps d' = wf_steps d ∧ promotions d' = promotions d ∧
  lifecycle d' = lifecycle d.

(** The row of a workflow after an action of [actor]. *)
Definition acted (w w' : Workflow) (status : workflow_status) (latest : Z) (actor : string) : Prop :=
  ∃ now, w' = set_workflow now status latest actor w.

(** A lifecycle action that changes the tables: [wt] and [vt] are the new
    tables of workflows and versions. *)
Inductive lifecycle_change (d : wdb) (actor : string)
    : lifecycle_action → uuid → gmap uuid Workflow → gmap uuid WorkflowVersion → Prop :=
| change_created wid w w' vid v :
    workflows d !! wid = Some w → versions d !! vid = None → acted w w' (w_status w) (w_latest_version w + 1) actor →
    v_workflow_id v = wid → v_version v = w_latest_version w + 1 → v_active v = false →
    v_review_status v = PENDING_REVIEW →
    lifecycle_change d actor VERSION_CREATED wid (<[wid := w']> (workflows d)) (<[vid := v]> (versions d))
| change_rejected wid w vid v now reason :
    workflows d !! wid = Some w → versions d !! vid = Some v → v_workflow_id v = wid → v_review_status v = PENDING_REVIEW →
    lifecycle_change d actor VERSION_REJECTED wid (workflows d)
      (<[vid := reviewed now actor REJECTED reason v]> (versions d))
| change_approved wid w w' vid v now reason :
    workflows d !! wid = Some w → versions d !! vid = Some v → v_workflow_id v = wid → v_review_status v = PENDING_REVIEW →
    acted w w' (w_status w) (w_latest_version w) actor →
    lifecycle_change d actor VERSION_APPROVED wid (<[wid := w']> (workflows d))
      (switched (versions d) now actor vid (set_active now actor true (reviewed now actor APPROVED reason v)))
| change_activated wid w w' vid v now :
    workflows d !! wid = Some w → versions d !! vid = Some v → v_workflow_id v = wid → v_review_status v = APPROVED →
    acted w w' (w_status w) (w_latest_version w) actor →
    lifecycle_change d actor VERSION_ACTIVATED wid (<[wid := w']> (workflows d))
      (switched (versions d) now actor vid (set_active now actor true v))
| change_status wid w w' status :
    workflows d !! wid = Some w → acted w w' status (w_latest_version w) actor →
    lifecycle_change d actor (match status with W_ACTIVE => WORKFLOW_ACTIVATED | W_INACTIVE => WORKFLOW_DEACTIVATED end) wid
      (<[wid := w']> (workflows d)) (versions d).

(** The call answers an earlier one, or applies its action and records it. *)
Inductive action_committed (c : action_call) (action : lifecycle_action) (d : wdb) (r : WorkflowLifecycleResult) (d' : wdb) : Prop :=
| action_replayed id a : lifecycle d !! id = Some a → a_idempotency_key a = c_key c →
    existing_result a (c_workflow_id c) (c_actor c) action (c_request_hash c) = Ok r → d' = d →
    action_committed c action d r d'
| action_applied id now reason policy wt vt :
    key_free (c_key c) d → lifecycle_change d (c_actor c) action (c_workflow_id c) wt vt →
    workflows d' = wt → versions d' = vt → (∀ k s, wf_steps d !! k = Some s → wf_steps d' !! k = Some s) →
    promotions d' = promotions d → lifecycle d !! id = None → lifecycle d' = <[id := recorded now c r reason policy]> (lifecycle d) →
    l_workflow_id r = c_workflow_id c → l_action r = action → l_applied r = true →
    set_task_events (λ _, []) (agent d') = set_task_events (λ _, []) (agent d) →
    (∃ es, task_events (agent d') = task_events (agent d) ++ es) →
    action_committed c action d r d'.

(** ** Inversion *)

Lemma wlift_Ok {A} (r : result A) d x d' : wlift r d = Ok (x, d') ↔ r = Ok x ∧ d' = d.
Proof. unfold wlift. destruct r; naive_solver. Qed.

(** Invert a committed run, the pure checks included. *)
Ltac wf_inv :=
  repeat (progress tx_inv || match goal with
    | H : wlift _ _ = Ok (_, _) |- _ => apply wlift_Ok in H as [? ->]
    | H : bool_decide _ = true |- _ => apply bool_decide_eq_true in H
    end).

Lemma existing_action_Ok w actor action key hash d o : existing_action w actor action key hash d = Ok o →
  match o with
  | None => key_free key d
  | Some r => ∃ id a, lifecycle d !! id = Some a ∧ a_idempotency_key a = key ∧ existing_result a w actor action hash = Ok r
  end.
Proof.
  unfold existing_action, action_of_key. destruct (first_where _ _) as [[id a]|] eqn:E.
  - intros (r & Hr & [= <-])%result_bind_Ok. apply first_where_Some in E as [Ha Hk]. apply String.eqb_eq in Hk. by exists id, a.
  - intros [= <-] id a Ha Hk. rewrite first_where_None in E. specialize (E _ _ Ha). by rewrite Hk, String.eqb_refl in E.
Qed.

Lemma locked_existing_Ok c action d o d' : locked_existing c action d = Ok (o, d') →
  d' = d ∧ existing_action (c_workflow_id c) (c_actor c) action (c_key c) (c_request_hash c) d = Ok o.
Proof. unfold locked_existing. intros H. by wf_inv. Qed.

Lemma locked_workflow_Ok id d w d' : locked_workflow id d = Ok (w, d') → d' = d ∧ workflows d !! id = Some w.
Proof. unfold locked_workflow. intros H. wf_inv. destruct (workflows _ !! id); naive_solver. Qed.

Lemma workflow_version_Ok wid vid d v d' : workflow_version wid vid d = Ok (v, d') →
  d' = d ∧ versions d !! vid = Some v ∧ v_workflow_id v = wid.
Proof.
  unfold workflow_version. intros H. wf_inv. match goal with _ : context [versions ?s !! vid] |- _ => destruct (versions s !! vid) as [u|] end; [|wf_inv].
  destruct (N.eqb_spec (v_workflow_id u) wid); by wf_inv.
Qed.

Lemma insert_action_Ok id a d u d' : insert_action id a d = Ok (u, d') →
  lifecycle d !! id = None ∧ key_free (a_idempotency_key a) d ∧ d' = set_lifecycle <[id := a]> d.
Proof.
  unfold insert_action. intros H. wf_inv. split_and!; [done| |done].
  intros k x Hx Hk. match goal with E : first_where _ _ = None |- _ => rewrite first_where_None in E; specialize (E _ _ Hx) end.
  by rewrite Hk, String.eqb_refl in *.
Qed.

Lemma update_version_Ok id v d u d' : update_version id v d = Ok (u, d') → d' = set_versions <[id := v]> d.
Proof. unfold update_version. intros H. by wf_inv. Qed.

Lemma insert_version_Ok id v d u d' : insert_version id v d = Ok (u, d') →
  versions d !! id = None ∧ d' = set_versions <[id := v]> d.
Proof. unfold insert_version. intros H. by wf_inv. Qed.

(** The steps of a version only add rows. *)
Lemma add_workflow_steps_Ok vid ps : ∀ sequence rows d u d', add_workflow_steps vid sequence ps rows d = Ok (u, d') →
  ∃ st, d' = set_wf_steps (λ _, st) d ∧ ∀ k s, wf_steps d !! k = Some s → st !! k = Some s.
Proof.
  induction ps as [|s ps IH]; intros sequence [|row rows] d u d' H; cbn [add_workflow_steps] in H; wf_inv.
  - exists (wf_steps d'). by destruct d'.
  - destruct (p_skill s), (p_tool s); wf_inv. unfold insert_wf_step in *. wf_inv.
    apply IH in H as (st & -> & Hst). exists st. split; [done|]. intros k x Hx. apply Hst. simpl.
    rewrite lookup_insert_ne; [done|congruence].
Qed.

(** ** What each transaction commits *)

Lemma switched_updated t now actor vid v v' :
  <[vid := v']> (update_where (λ _ u, (v_workflow_id u =? v_workflow_id v')%N) (set_active now actor false) (<[vid := v]> t))
  = switched t now actor vid v'.
Proof.
  unfold switched. apply map_eq. intros i. rewrite !lookup_insert. case_decide; [done|].
  rewrite !lookup_update_where. by rewrite lookup_insert_ne.
Qed.

Lemma replayed_committed c action d o d1 : locked_existing c action d = Ok (o, d1) →
  d1 = d ∧ match o with
           | Some r => ∀ d', d' = d → action_committed c action d r d'
           | None => key_free (c_key c) d
           end.
Proof.
  intros (-> & H)%locked_existing_Ok. split; [done|]. apply existing_action_Ok in H. destruct o as [r|]; [|done].
  destruct H as (id & a & Ha & Hk & Hr). intros d' ->. by eapply action_replayed.
Qed.

Ltac action_inv H :=
  wf_inv; match goal with E : locked_existing _ _ _ = Ok (?o, _) |- _ =>
    apply replayed_committed in E as [-> E]; destruct o; [by wf_inv; apply E|]; wf_inv end;
  repeat match goal with
  | E : locked_workflow _ _ = _ |- _ => apply locked_workflow_Ok in E as [-> ?]
  | E : workflow_version _ _ _ = _ |- _ => apply workflow_version_Ok in E as (-> & ? & ?)
  | E : update_version _ _ _ = _ |- _ => apply update_version_Ok in E as ->
  | E : insert_version _ _ _ = _ |- _ => apply insert_version_Ok in E as [? ->]
  | E : insert_action _ _ _ = _ |- _ => apply insert_action_Ok in E as (? & ? & ->)
  end.

(** The record of an applied action, its version table left. *)
Tactic Notation "applied" constr(id) constr(now) constr(reason) constr(policy) "by" tactic3(tac) :=
  eapply (action_applied _ _ _ _ _ id now reason policy);
  [ match goal with E : key_free (c_key _) _ |- _ => exact E end | tac | reflexivity | | intros ? ? Hs; exact Hs | reflexivity
  | match goal with E : lifecycle _ !! id = None |- _ => exact E end | reflexivity | reflexivity | reflexivity | reflexivity
  | reflexivity | by exists []; rewrite app_nil_r ].

Lemma update_status_committed now id c status reason d r d' : update_status now id c status reason d = Ok (r, d') →
  action_committed c (match status with W_ACTIVE => WORKFLOW_ACTIVATED | W_INACTIVE => WORKFLOW_DEACTIVATED end) d r d'.
Proof.
  unfold update_status, put_workflow, add_action. intros H. action_inv H.
  applied id now reason (c_policy_version c) by (eapply change_status; [eassumption|by eexists]).
  reflexivity.
Qed.

Lemma activate_version_committed now id c vid reason d r d' : activate_version now id c vid reason d = Ok (r, d') →
  action_committed c VERSION_ACTIVATED d r d'.
Proof.
  unfold activate_version, put_workflow, deactivate_versions, add_action. intros H. action_inv H.
  applied id now reason (c_policy_version c) by (eapply change_activated; [eassumption..|by eexists]).
  match goal with Hv : v_workflow_id _ = _ |- _ => rewrite <- Hv end. reflexivity.
Qed.

Lemma review_version_committed now id c vid decision reason d r d' :
  review_version now id c vid decision reason d = Ok (r, d') →
  action_committed c (match decision with D_APPROVE => VERSION_APPROVED | D_REJECT => VERSION_REJECTED end) d r d'.
Proof.
  unfold review_version, put_workflow, deactivate_versions, add_action. intros H. destruct decision; action_inv H.
  - applied id now reason (c_policy_version c) by (eapply change_approved; [eassumption..|by eexists]).
    match goal with Hv : v_review_status ?v = _ |- _ =>
      rewrite <- (switched_updated _ _ _ _ (reviewed now (c_actor c) APPROVED reason v)) end.
    match goal with Hv : v_workflow_id _ = _ |- _ => rewrite <- Hv end. reflexivity.
  - applied id now reason (c_policy_version c) by (eapply change_rejected; eassumption).
    reflexivity.
Qed.

Section Hashes.
Context (sha256 : string → string) (payload_hash : PlanDraft → list (string * input_spec) → string).

Lemma create_version_committed now vid id c source i d r d' :
  create_version sha256 payload_hash now vid id c source i d = Ok (r, d') → action_committed c VERSION_CREATED d r d'.
Proof.
  unfold create_version, put_workflow, add_action, insert_task_event. intros H. action_inv H.
  match goal with E : add_workflow_steps _ _ _ _ _ = Ok _ |- _ => apply add_workflow_steps_Ok in E as (st & -> & Hst) end.
  match goal with E : workflows d !! _ = Some ?w |- _ =>
    eapply (action_applied _ _ _ _ _ id now None (vi_policy_version i));
    [eassumption|apply (change_created _ _ _ w (set_workflow now (w_status w) (w_latest_version w + 1) (c_actor c) w) vid
      (new_version sha256 payload_hash now c source i (w_latest_version w + 1))); [exact E|..]|..] end.
  all: try reflexivity; try eassumption; by eexists.
Qed.

(** A promotion answers an earlier one or creates a workflow with its first
    version. *)
Inductive promotion_committed (source : PromotionSource) (actor key hash : string) (i : version_input) (d : wdb)
    (r : WorkflowPromotionResult) (d' : wdb) : Prop :=
| promotion_replayed id p : promotions d !! id = Some p → pr_idempotency_key p = key →
    promotion_result p (ps_task_id source) actor hash d = Ok r → d' = d → promotion_committed source actor key hash i d r d'
| promotion_applied wid vid pid w v policy :
    (∀ k p, promotions d !! k = Some p → pr_idempotency_key p ≠ key) →
    (∀ k u, workflows d !! k = Some u → w_name u ≠ w_name w) →
    workflows d !! wid = None → versions d !! vid = None → promotions d !! pid = None →
    w_latest_version w = 1 → w_owner_user_id w = Some (k_user_id (ps_task source)) → w_visibility w = "SERVICE" →
    v_workflow_id v = wid → v_version v = 1 → v_content v = content_of sha256 payload_hash source actor i → v_active v = true →
    v_review_status v = APPROVED → v_reviewed_by v = Some actor → is_Some (v_reviewed_at v) →
    workflows d' = <[wid := w]> (workflows d) → versions d' = <[vid := v]> (versions d) →
    (∀ k s, wf_steps d !! k = Some s → wf_steps d' !! k = Some s) →
    promotions d' = <[pid := mk_promotion (ps_task_id source) actor key hash wid vid policy]> (promotions d) →
    lifecycle d' = lifecycle d → r_workflow_id r = wid → r_workflow_version_id r = vid → r_created r = true →
    r_version r = v_version v → r_public_payload_hash r = vc_public_payload_hash (v_content v) →
    set_task_events (λ _, []) (agent d') = set_task_events (λ _, []) (agent d) →
    (∃ es, task_events (agent d') = task_events (agent d) ++ es) →
    promotion_committed source actor key hash i d r d'.

Lemma on_integrity_Ok {A} (m : tx wdb A) e d r : on_integrity m e d = Ok r ↔ m d = Ok r.
Proof. unfold on_integrity. destruct (m d); naive_solver. Qed.

Lemma create_promotion_committed now wid vid pid source actor key hash name description i d r d' :
  create_promotion sha256 payload_hash now wid vid pid source actor key hash name description i d = Ok (r, d') →
  promotion_committed source actor key hash i d r d'.
Proof.
  unfold create_promotion, promotion_of, insert_workflow, insert_promotion, insert_task_event. intros H. wf_inv.
  destruct (first_where _ (promotions _)) as [[k p]|] eqn:Hp; wf_inv.
  - apply first_where_Some in Hp as [Hp Hk]. apply String.eqb_eq in Hk. by eapply promotion_replayed.
  - repeat match goal with E : on_integrity _ _ _ = Ok _ |- _ => apply on_integrity_Ok in E end. wf_inv.
    repeat match goal with E : insert_version _ _ _ = _ |- _ => apply insert_version_Ok in E as [? ->] end.
    match goal with E : add_workflow_steps _ _ _ _ _ = Ok _ |- _ => apply add_workflow_steps_Ok in E as (st & -> & Hst) end.
    rewrite first_where_None in Hp.
    match goal with E : first_where _ (workflows _) = None |- _ => rewrite first_where_None in E; rename E into Hname end.
    eapply (promotion_applied _ _ _ _ _ _ _ _ wid vid pid (promoted_workflow now source actor name description)
      (first_version sha256 payload_hash now wid source actor i)); try reflexivity; try eassumption.
    + intros k p Hk E. specialize (Hp _ _ Hk). by rewrite E, String.eqb_refl in Hp.
    + intros k u Hk E. specialize (Hname _ _ Hk). by rewrite E, String.eqb_refl in Hname.
    + by eexists.
    + by eexists.
Qed.
End Hashes.
