(* ===== verification/WorkflowsRun.v ===== *)
(** * Runs of workflow transactions

    The transactions of promotion, lifecycle, plan storage and the agent
    service as steps, the invariant of every reachable state and what no step
    ever takes back. *)

From stdpp Require Import base gmap strings list sorting relations.
From Stdlib Require Import ZArith Lia.
From S2P Require Import Prelude Text Session AgentTables Admission FailureStore TaskProjections AgentWorld Effects AgentInv AgentSteps AgentAccept Plans Templates WorkflowTables PlanStore Workflows WorkflowsInv WorkflowsSteps.
Local Open Scope Z_scope.
Set Default Proof Using "Type".

(** ** Operations of the lifecycle *)

Inductive operation :=
| OpCreate (version_id : uuid) (source : PromotionSource) (input : version_input)
| OpReview (version_id : uuid) (decision : review_decision) (reason : option string)
| OpActivate (version_id : uuid) (reason : option string)
| OpStatus (status : workflow_status) (reason : option string).

Definition action_of_op (o : operation) : lifecycle_action :=
  match o with
  | OpCreate _ _ _ => VERSION_CREATED
  | OpReview _ D_APPROVE _ => VERSION_APPROVED
  | OpReview _ D_REJECT _ => VERSION_REJECTED
  | OpActivate _ _ => VERSION_ACTIVATED
  | OpStatus W_ACTIVE _ => WORKFLOW_ACTIVATED
  | OpStatus W_INACTIVE _ => WORKFLOW_DEACTIVATED
  end.

Section Runs.
Context (sha256 : string → string) (payload_hash : PlanDraft → list (string * input_spec) → string)
  (plan_hash : PlanDraft → string) (step_hash : PlanStepDraft → string).
Context (fp : ApiRequest → string) (signal : json → result ResumeSignal) (digest : json → string).

Definition run_operation (now : timestamp) (action_id : uuid) (c : action_call) (o : operation) : tx wdb WorkflowLifecycleResult :=
  match o with
  | OpCreate vid source i => create_version sha256 payload_hash now vid action_id c source i
  | OpReview vid decision reason => review_version now action_id c vid decision reason
  | OpActivate vid reason => activate_version now action_id c vid reason
  | OpStatus status reason => update_status now action_id c status reason
  end.

Lemma operation_committed now id c o d r d' : run_operation now id c o d = Ok (r, d') →
  action_committed c (action_of_op o) d r d'.
Proof.
  destruct o as [vid source i|vid [] reason|vid reason|[] reason]; simpl.
  - apply create_version_committed.
  - apply (review_version_committed _ _ _ _ D_APPROVE).
  - apply (review_version_committed _ _ _ _ D_REJECT).
  - apply activate_version_committed.
  - apply (update_status_committed _ _ _ W_ACTIVE).
  - apply (update_status_committed _ _ _ W_INACTIVE).
Qed.

Inductive wf_step (d d' : wdb) : Prop :=
| step_operation now id c o r : run_operation now id c o d = Ok (r, d') → wf_step d d'
| step_promote now wid vid pid source actor key hash name description i r :
    create_promotion sha256 payload_hash now wid vid pid source actor key hash name description i d = Ok (r, d') →
    wf_step d d'
| step_persist p1 p2 p3 task plan compiled registry feedback expected r :
    persist plan_hash p1 p2 p3 task plan compiled registry feedback expected d = Ok (r, d') → wf_step d d'
| step_record task op plan revision registry sequence l :
    record_successful_steps step_hash task op plan revision registry sequence l d = Ok (tt, d') → wf_step d d'
| step_agent a : agent_step fp signal digest (agent d) a → d' = set_agent (λ _, a) d → wf_step d d'.

(** ** The invariant *)

Record wf_ok (d : wdb) : Prop := {
  wo_tables : tables_ok (workflows d) (versions d);
  wo_key : ∀ i j a b, lifecycle d !! i = Some a → lifecycle d !! j = Some b →
    a_idempotency_key a = a_idempotency_key b → i = j;
  wo_action : ∀ id a, lifecycle d !! id = Some a → l_workflow_id (a_result_payload a) = a_workflow_id a ∧
    l_action (a_result_payload a) = a_action a ∧ l_applied (a_result_payload a) = true;
  wo_promotion_key : ∀ i j p q, promotions d !! i = Some p → promotions d !! j = Some q →
    pr_idempotency_key p = pr_idempotency_key q → i = j;
  wo_promotion : ∀ id p, promotions d !! id = Some p → ∃ v, versions d !! pr_workflow_version_id p = Some v ∧
    v_workflow_id v = pr_workflow_id p
}.

(** ** What only grows *)

Definition workflow_grows (w w' : Workflow) : Prop :=
  w_name w' = w_name w ∧ w_owner_user_id w' = w_owner_user_id w ∧ w_visibility w' = w_visibility w ∧
  w_latest_version w ≤ w_latest_version w'.

Definition version_grows (v v' : WorkflowVersion) : Prop :=
  v_workflow_id v' = v_workflow_id v ∧ v_version v' = v_version v ∧ v_content v' = v_content v ∧
  (v_review_status v = PENDING_REVIEW ∨
   v_review_status v' = v_review_status v ∧ v_reviewed_by v' = v_reviewed_by v ∧ v_review_reason v' = v_review_reason v).

#[global] Instance workflow_grows_preorder : PreOrder workflow_grows.
Proof. split; [intros w; by split_and!|]. intros x y z (?&?&?&?) (?&?&?&?). split_and!; [congruence..|lia]. Qed.
#[global] Instance version_grows_preorder : PreOrder version_grows.
Proof.
  split; [intros v; split_and!; auto|]. intros x y z (?&?&?&Hxy) (?&?&?&Hyz). split_and!; [congruence..|].
  destruct Hxy as [|(?&?&?)]; [by left|]. destruct Hyz as [|(?&?&?)]; [left|right; split_and!]; congruence.
Qed.

Definition wf_grows (d d' : wdb) : Prop :=
  keeps workflow_grows (workflows d) (workflows d') ∧ keeps version_grows (versions d) (versions d') ∧
  keeps eq (lifecycle d) (lifecycle d') ∧ keeps eq (promotions d) (promotions d') ∧ keeps eq (wf_steps d) (wf_steps d').

#[global] Instance wf_grows_preorder : PreOrder wf_grows.
Proof.
  split; [intros d; split_and!; reflexivity|]. intros x y z (?&?&?&?&?) (?&?&?&?&?). split_and!; by etransitivity.
Qed.

Lemma keeps_sub {K} `{Countable K} {V} (t t' : gmap K V) : (∀ k v, t !! k = Some v → t' !! k = Some v) → keeps eq t t'.
Proof. intros Hs k v Hv. exists v. split; [by apply Hs|done]. Qed.

Lemma acted_grows w w' status latest actor : acted w w' status latest actor → w_latest_version w ≤ latest → workflow_grows w w'.
Proof. intros [now ->] ?. by split_and!. Qed.

Lemma switched_grows now actor vid v v' t : t !! vid = Some v → version_grows v v' → keeps version_grows t (switched t now actor vid v').
Proof.
  intros Hv Hg i u Hu. destruct (decide (i = vid)) as [->|].
  - exists v'. split; [apply lookup_switched; by left|]. by simplify_eq.
  - eexists. split; [apply lookup_switched; right; split; [done|]; by exists u|].
    case_decide; [|reflexivity]. split_and!; auto.
Qed.

(** ** Every step keeps the invariant and grows *)

Lemma lifecycle_change_ok d actor action wid wt vt : wf_ok d → lifecycle_change d actor action wid wt vt →
  tables_ok wt vt ∧ keeps workflow_grows (workflows d) wt ∧ keeps version_grows (versions d) vt.
Proof.
  intros [Ht _ _ _ _] H. destruct H as [wid w w' vid v Hw Hv Ha E1 E2 E3 E4|wid w vid v now reason Hw Hv E1 E2
    |wid w w' vid v now reason Hw Hv E1 E2 Ha|wid w w' vid v now Hw Hv E1 E2 Ha|wid w w' status Hw Ha].
  - pose proof Ha as [now ->]. split_and!; [by eapply tables_new_version| |by (apply keeps_insert; try apply _)].
    apply (keeps_put _ _ w); [done|]. eapply acted_grows; [exact Ha|lia].
  - split_and!; [by eapply (tables_reject _ _ Ht _ v); [..|eexists|eexists]|reflexivity|].
    apply (keeps_put _ _ v); [done|]. split_and!; auto.
  - pose proof Ha as [t ->]. split_and!.
    + eapply (tables_workflow _ _); [|exact Hw|done|done]. by eapply (tables_switch _ _ Ht _ _ _ v); [..|eexists|eexists].
    + apply (keeps_put _ _ w); [done|]. by eapply acted_grows.
    + apply (switched_grows _ _ _ v); [done|]. split_and!; auto.
  - pose proof Ha as [t ->]. destruct (to_reviewed _ _ Ht _ _ Hv) as [Hb Hd]; [congruence|]. split_and!.
    + eapply (tables_workflow _ _); [|exact Hw|done|done]. by eapply (tables_switch _ _ Ht _ _ _ v).
    + apply (keeps_put _ _ w); [done|]. by eapply acted_grows.
    + apply (switched_grows _ _ _ v); [done|]. split_and!; auto.
  - pose proof Ha as [t ->]. split_and!; [by eapply tables_workflow| |reflexivity].
    apply (keeps_put _ _ w); [done|]. by eapply acted_grows.
Qed.

Lemma promotion_version_kept (vt vt' : gmap uuid WorkflowVersion) id wid : keeps version_grows vt vt' →
  (∃ v, vt !! id = Some v ∧ v_workflow_id v = wid) → ∃ v, vt' !! id = Some v ∧ v_workflow_id v = wid.
Proof. intros Hk (v & Hv & E). destruct (Hk _ _ Hv) as (v' & Hv' & Ew & _). exists v'. split; [done|congruence]. Qed.

Lemma operation_step_ok now id c o d r d' : wf_ok d → run_operation now id c o d = Ok (r, d') → wf_ok d' ∧ wf_grows d d'.
Proof.
  intros Hok [|aid t reason policy wt vt Hfree Hch Ew Ev Hsteps Ep Hn El E1 E2 E3 _ _]%operation_committed;
    [subst; split; [done|reflexivity]|].
  destruct (lifecycle_change_ok _ _ _ _ _ _ Hok Hch) as (Ht & Kw & Kv). destruct Hok as [_ Okey Oact Opk Op]. subst wt vt. split.
  - split; rewrite ?El, ?Ep; [done| | |done|].
    + intros i j x y Hx Hy E. row_cases Hx; row_cases Hy; [done|..|by eapply Okey].
      * by destruct (Hfree _ _ Hy).
      * by destruct (Hfree _ _ Hx).
    + intros i x Hx. row_cases Hx; [by split_and!|by apply (Oact i)].
    + intros i p Hp. eapply promotion_version_kept; [exact Kv|by eapply Op].
  - split_and!; [done|done| | |by apply keeps_sub]; [|by rewrite Ep].
    rewrite El. by (apply keeps_insert; try apply _).
Qed.

Lemma promotion_step_ok source actor key hash i d r d' : wf_ok d →
  promotion_committed sha256 payload_hash source actor key hash i d r d' →
  wf_ok d' ∧ wf_grows d d'.
Proof.
  intros Hok [|wid vid pid w v policy Hkey Hname Hw Hv Hp El _ _ E1 E2 _ E3 E4 E5 E6 Ew Ev Hsteps Ep Elc _ _ _ _ _ _ _];
    [subst; split; [done|reflexivity]|].
  destruct Hok as [Ot Okey Oact Opk Op].
  assert (Kv : keeps version_grows (versions d) (versions d')) by (rewrite Ev; by (apply keeps_insert; try apply _)). split.
  - split; rewrite ?Elc, ?Ep; [|done|done| |].
    + rewrite Ew, Ev. by apply tables_promote.
    + intros k j x y Hx Hy E. row_cases Hx; row_cases Hy; [done|..|by eapply Opk].
      * by destruct (Hkey _ _ Hy).
      * by destruct (Hkey _ _ Hx).
    + intros k p Hp'. row_cases Hp'; [exists v; rewrite Ev; simpl; by rewrite lookup_insert_eq|].
      eapply promotion_version_kept; [exact Kv|by eapply Op].
  - split_and!; [|done|by rewrite Elc| |by apply keeps_sub].
    + rewrite Ew. by (apply keeps_insert; try apply _).
    + rewrite Ep. by (apply keeps_insert; try apply _).
Qed.

(** Plans and verified steps are tables of their own. *)
Definition plans_only (d d' : wdb) : Prop := same_workflows d d' ∧ agent d' = agent d.

#[global] Instance plans_only_preorder : PreOrder plans_only.
Proof.
  split; [intros d; by split_and!|]. intros x y z [(?&?&?&?&?) ?] [(?&?&?&?&?) ?]. split; [split_and!|]; congruence.
Qed.

Lemma within_wlift {A} (r : result A) : within plans_only (wlift r).
Proof. intros d x d' [_ ->]%wlift_Ok. reflexivity. Qed.
Lemma within_tables f : (∀ d, plans_only d (f d)) → within plans_only (tx_modify f).
Proof. apply within_modify. Qed.

Ltac plans_split := repeat (progress within_split || apply within_wlift || (apply within_tables; intros ?; by split_and!)).

Lemma add_plan_steps_only revision plan l : within plans_only (add_plan_steps revision plan l).
Proof. induction l as [|[s path] l IH]; cbn [add_plan_steps]; plans_split; done. Qed.

Lemma persist_only p1 p2 p3 task plan compiled registry feedback expected :
  within plans_only (persist plan_hash p1 p2 p3 task plan compiled registry feedback expected).
Proof. unfold persist, next_revision, insert_plan, insert_revision. plans_split; apply add_plan_steps_only. Qed.

Lemma record_only task op plan revision registry l : ∀ sequence,
  within plans_only (record_successful_steps step_hash task op plan revision registry sequence l).
Proof. induction l as [|s l IH]; intros sequence; cbn [record_successful_steps]; plans_split; apply IH. Qed.

Lemma plans_only_ok d d' : plans_only d d' → wf_ok d → wf_ok d' ∧ wf_grows d d' ∧ agent d' = agent d.
Proof.
  intros [(Ew & Ev & Es & Ep & El) Ea] [O1 O2 O3 O4 O5]. split; [|split; [|done]].
  - split; rewrite ?Ew, ?Ev, ?Ep, ?El; done.
  - split_and!; rewrite ?Ew, ?Ev, ?Ep, ?El, ?Es; reflexivity.
Qed.

(** The tables of the service, with the agent's part. *)
Definition service_ok (d : wdb) : Prop := wf_ok d ∧ agent_ok fp signal digest (agent d).

Lemma events_agent_ok a a' : set_task_events (λ _, []) a' = set_task_events (λ _, []) a →
  agent_ok fp signal digest a → agent_ok fp signal digest a'.
Proof.
  intros E Ha. change (agent_ok fp signal digest (set_task_events (λ _, []) a')). rewrite E. exact Ha.
Qed.

Lemma wf_step_ok d d' : service_ok d → wf_step d d' → service_ok d' ∧ wf_grows d d'.
Proof.
  intros [Hok Ha] H. destruct H as [now id c o r H|now wid vid pid source actor key hash name description i r H
    |p1 p2 p3 task plan compiled registry feedback expected r H|task op plan revision registry sequence l H|a H ->].
  - destruct (operation_step_ok _ _ _ _ _ _ _ Hok H) as [H1 H2]. split; [|done]. split; [done|].
    apply operation_committed in H as [|]; [by subst|]. by eapply events_agent_ok.
  - apply create_promotion_committed in H. destruct (promotion_step_ok _ _ _ _ _ _ _ _ Hok H) as [H1 H2]. split; [|done].
    split; [done|]. destruct H; [by subst|]. by eapply events_agent_ok.
  - apply persist_only in H. destruct (plans_only_ok _ _ H Hok) as (H1 & H2 & E). split; [|done]. split; [done|]. by rewrite E.
  - apply record_only in H. destruct (plans_only_ok _ _ H Hok) as (H1 & H2 & E). split; [|done]. split; [done|]. by rewrite E.
  - split; [split; [by destruct Hok; split|by eapply agent_step_ok]|]. split_and!; reflexivity.
Qed.

Lemma wf_run_ok d d' : rtc wf_step d d' → service_ok d → service_ok d' ∧ wf_grows d d'.
Proof.
  induction 1 as [d|d d1 d' H _ IH]; intros Hok; [split; [done|reflexivity]|].
  destruct (wf_step_ok _ _ Hok H) as [H1 G1]. destruct (IH H1) as [H2 G2]. split; [done|by etransitivity].
Qed.

Lemma empty_service_ok a : agent_ok fp signal digest a → service_ok (empty_wdb a).
Proof.
  intros Ha. split; [|done]. split; [apply empty_tables_ok|..]; intros *; cbn [empty_wdb lifecycle promotions]; by rewrite lookup_empty.
Qed.
End Runs.
