(* ===== verification/WorkflowsProps.v ===== *)
(** * Properties of workflows

    What holds of the workflow tables in every reachable state, of repeated
    and of unauthorised calls, of reviews and of the catalog. *)

From stdpp Require Import base gmap strings list sorting relations.
From Stdlib Require Import ZArith Lia.
From S2P Require Import Prelude Text Session AgentTables Admission FailureStore TaskProjections AgentWorld Effects AgentInv Plans Templates WorkflowTables PlanStore Workflows WorkflowService WorkflowsInv WorkflowsSteps WorkflowsRun.
Local Open Scope Z_scope.
Set Default Proof Using "Type".

Lemma offered_true d v : offered d v = true ↔ v_active v = true ∧ v_review_status v = APPROVED ∧
  ∃ w, workflows d !! v_workflow_id v = Some w ∧ w_status w = W_ACTIVE ∧ w_visibility w = "SERVICE".
Proof.
  unfold offered. rewrite !andb_true_iff, bool_decide_eq_true. destruct (workflows d !! v_workflow_id v) as [w|].
  - rewrite andb_true_iff, bool_decide_eq_true, String.eqb_eq. naive_solver.
  - naive_solver.
Qed.

Lemma all_ok_Forall2 {A B} (f : A → result B) l l' : all_ok f l = Ok l' → Forall2 (λ x y, f x = Ok y) l l'.
Proof.
  revert l'. induction l as [|x l IH]; intros l'; simpl; [intros [= <-]; constructor|].
  intros (y & Hy & (ys & Hys & [= <-])%result_bind_Ok)%result_bind_Ok. constructor; auto.
Qed.

Section Props.
Context (sha256 : string → string) (payload_hash : PlanDraft → list (string * input_spec) → string)
  (plan_hash : PlanDraft → string) (step_hash : PlanStepDraft → string).
Context (fp : ApiRequest → string) (signal : json → result ResumeSignal) (digest : json → string).

Abbreviation wf_step := (wf_step sha256 payload_hash plan_hash step_hash fp signal digest).
Abbreviation service_ok := (service_ok fp signal digest).
Abbreviation run_operation := (run_operation sha256 payload_hash).

(** C8. In every state that promotions, lifecycle actions, plan storage and
    the agent service can reach, a workflow has exactly one active version, it
    was approved by someone, and its versions are numbered from one up to the
    latest without a gap or a repetition; the agent's own tables stay
    consistent. *)
Theorem workflow_versions_consistent a d :
  agent_ok fp signal digest a → rtc wf_step (empty_wdb a) d →
  (∀ wid w, workflows d !! wid = Some w →
     (∃ id v, versions d !! id = Some v ∧ v_workflow_id v = wid ∧ v_active v = true ∧ v_review_status v = APPROVED ∧
        is_Some (v_reviewed_by v) ∧
        ∀ id' v', versions d !! id' = Some v' → v_workflow_id v' = wid → v_active v' = true → id' = id) ∧
     (∀ n, 1 ≤ n ≤ w_latest_version w ↔ ∃ id v, versions d !! id = Some v ∧ v_workflow_id v = wid ∧ v_version v = n) ∧
     (∀ i j u v, versions d !! i = Some u → versions d !! j = Some v → v_workflow_id u = wid → v_workflow_id v = wid →
        v_version u = v_version v → i = j)) ∧
  agent_ok fp signal digest (agent d).
Proof.
  intros Ha Hr. destruct (wf_run_ok _ _ _ _ _ _ _ _ _ Hr) as [[[Ht _ _ _ _] Hd] _]; [by apply empty_service_ok|].
  split; [|done]. intros wid w Hw. split_and!.
  - destruct (to_active _ _ Ht _ _ Hw) as (id & v & Hv & E & Hact). exists id, v.
    pose proof (to_approved _ _ Ht _ _ Hv Hact) as Hap. split_and!; [done..| |].
    + apply (to_reviewed _ _ Ht _ _ Hv). congruence.
    + intros id' v' Hv' E' Hact'. eapply (to_one _ _ Ht); [exact Hv'|exact Hv|congruence|done..].
  - intros n. split; [by apply (to_number _ _ Ht)|]. intros (id & v & Hv & E & <-).
    destruct (to_version _ _ Ht _ _ Hv) as (w' & Hw' & Hn). rewrite E in Hw'. assert (w' = w) as -> by congruence. done.
  - intros i j u v Hu Hv E1 E2 En. eapply (to_unique _ _ Ht); [exact Hu|exact Hv|congruence..].
Qed.

(** ** Repeated calls *)

Definition unapplied (r : WorkflowLifecycleResult) : WorkflowLifecycleResult :=
  mk_lresult (l_workflow_id r) (l_workflow_version_id r) (l_version r) (l_public_payload_hash r) (l_action r)
    (l_workflow_status r) (l_review_status r) (l_version_active r) false.

Lemma existing_result_eq a wid actor action hash : existing_result a wid actor action hash =
  if bool_decide (a_workflow_id a = wid ∧ a_actor_user_id a = actor ∧ a_action a = action ∧ a_request_hash a = hash)
  then Ok (unapplied (a_result_payload a)) else Err (lifecycle_conflict "Idempotency key payload mismatch").
Proof.
  unfold existing_result. destruct (N.eqb_spec (a_workflow_id a) wid), (String.eqb_spec (a_actor_user_id a) actor),
    (decide (a_action a = action)) as [E|E], (String.eqb_spec (a_request_hash a) hash);
    rewrite ?(bool_decide_eq_true_2 (a_action a = action)), ?(bool_decide_eq_false_2 (a_action a = action)) by done; simpl;
    first [rewrite bool_decide_eq_true_2 by done; done|rewrite bool_decide_eq_false_2 by (intros (?&?&?&?); done); done].
Qed.

Lemma first_where_unique {K} `{Countable K} {V} (p : K → V → bool) (t : gmap K V) k v :
  t !! k = Some v → p k v = true → (∀ k' v', t !! k' = Some v' → p k' v' = true → k' = k) → first_where p t = Some (k, v).
Proof.
  intros Hk Hp Hu. destruct (first_where p t) as [[k' v']|] eqn:E.
  - apply first_where_Some in E as [Hk' Hp']. assert (k' = k) as -> by by eapply Hu. congruence.
  - rewrite first_where_None in E. rewrite (E _ _ Hk) in Hp. done.
Qed.

Lemma existing_action_row d id a wid actor action hash : wf_ok d → lifecycle d !! id = Some a →
  existing_action wid actor action (a_idempotency_key a) hash d =
    (r ← existing_result a wid actor action hash; Ok (Some r)).
Proof.
  intros Hok Ha. unfold existing_action, action_of_key.
  rewrite (first_where_unique _ (lifecycle d) id a); [done|done|apply String.eqb_refl|].
  intros id' a' Ha' E%String.eqb_eq. by eapply (wo_key _ Hok).
Qed.

Lemma run_existing now id c o d : run_operation now id c o d =
  match existing_action (c_workflow_id c) (c_actor c) (action_of_op o) (c_key c) (c_request_hash c) d with
  | Ok (Some r) => Ok (r, d)
  | Err e => Err e
  | Ok None => run_operation now id c o d
  end.
Proof.
  destruct (existing_action _ _ _ _ _ _) as [[r|]|e] eqn:E; [|done|];
    destruct o as [vid source i|vid [] reason|vid reason|[] reason]; simpl in *;
    unfold create_version, review_version, activate_version, update_status, locked_existing, mbind, tx_bind, tx_get, wlift;
    by rewrite E.
Qed.

(** The row an operation leaves behind under its key. *)
Lemma operation_recorded now id c o d r d' : service_ok d → run_operation now id c o d = Ok (r, d') →
  ∃ k a, lifecycle d' !! k = Some a ∧ a_idempotency_key a = c_key c ∧ a_workflow_id a = c_workflow_id c ∧
    a_actor_user_id a = c_actor c ∧ a_action a = action_of_op o ∧ a_request_hash a = c_request_hash c ∧
    unapplied (a_result_payload a) = unapplied r.
Proof.
  intros _ [k a Ha Hk He ->|k t reason policy wt vt _ _ _ _ _ _ _ El E1 E2 _ _ _]%operation_committed.
  - rewrite existing_result_eq in He. case_bool_decide as Hm; [|done]. destruct Hm as (?&?&?&?). injection He as <-.
    exists k, a. by split_and!.
  - exists k, (recorded t c r reason policy). rewrite El, lookup_insert_eq. by split_and!.
Qed.

(** C14. A lifecycle action is applied at most once per key: whatever happened
    since, the same call is answered with the result of the first one and
    changes nothing, and a call that reuses the key for another workflow,
    actor, action or request is refused. *)
Theorem lifecycle_action_applied_once now id c o d r d1 d2 :
  service_ok d → run_operation now id c o d = Ok (r, d1) → rtc wf_step d1 d2 →
  ∀ now' id' c' o', c_key c' = c_key c →
  run_operation now' id' c' o' d2 =
    if bool_decide (c_workflow_id c' = c_workflow_id c ∧ c_actor c' = c_actor c ∧ action_of_op o' = action_of_op o ∧
                    c_request_hash c' = c_request_hash c)
    then Ok (unapplied r, d2)
    else Err (WorkflowLifecycleConflictError "Idempotency key payload mismatch").
Proof.
  intros Hok Hrun Hr now' id' c' o' Hkey.
  destruct (operation_recorded _ _ _ _ _ _ _ Hok Hrun) as (k & a & Ha & Hk & E1 & E2 & E3 & E4 & Er).
  assert (Hok1 : service_ok d1).
  { eapply (wf_step_ok sha256 payload_hash plan_hash step_hash); [exact Hok|]. by eapply step_operation. }
  destruct (wf_run_ok _ _ _ _ _ _ _ _ _ Hr Hok1) as [[Hok2 _] (_ & _ & Kl & _)].
  destruct (Kl _ _ Ha) as (a' & Ha' & <-). rewrite run_existing, Hkey, <- Hk, (existing_action_row _ _ _ _ _ _ _ Hok2 Ha'), existing_result_eq.
  rewrite E1, E2, E3, E4, Er. case_bool_decide as H1; case_bool_decide as H2; [done|naive_solver..|done].
Qed.

(** ** Who acts *)

(** The requests of [WorkflowLifecycleService]. *)
Inductive service_call :=
| SvcCreate (q : version_request)
| SvcReview (version_id : uuid) (key : string) (decision : review_decision) (reason : option string)
| SvcActivate (version_id : uuid) (key : string) (reason : option string)
| SvcStatus (key : string) (status : workflow_status) (reason : option string).

Context (json_hash : json → string) (aembed_query : string → result (list string)) (dimensions : nat) (model : string)
  (registry : list (string * ToolManifest)).

Definition run_service (d_auth d_seen d_source : wdb) (now : timestamp) (version_id action_id workflow_id : uuid)
    (actor : string) (s : service_call) : tx wdb WorkflowLifecycleResult :=
  match s with
  | SvcCreate q => create_workflow_version sha256 json_hash payload_hash aembed_query dimensions model registry
                     d_auth d_seen d_source now version_id action_id workflow_id actor q
  | SvcReview vid key decision reason =>
      review_workflow_version json_hash d_auth d_seen now action_id workflow_id vid actor key decision reason
  | SvcActivate vid key reason => activate_workflow_version json_hash d_auth d_seen now action_id workflow_id vid actor key reason
  | SvcStatus key status reason => update_workflow_status json_hash d_auth d_seen now action_id workflow_id actor key status reason
  end.

Lemma authorized_Ok wid actor d w : authorized wid actor d = Ok w →
  workflows d !! wid = Some w ∧ w_owner_user_id w = Some actor ∧ actor ≠ "".
Proof.
  unfold authorized, get_workflow. intros (w' & Hw & H)%result_bind_Ok. apply raise_if_then in H as [Ho [= ->]].
  unfold from_option_err in Hw. destruct (workflows d !! wid) as [x|]; [injection Hw as ->|done].
  apply negb_false_iff, andb_true_iff in Ho as [H1 H2%bool_decide_eq_true]. split_and!; [done..|].
  intros ->. done.
Qed.

Lemma opened_Ok d_auth d_seen c action body d r d' : opened d_auth d_seen c action body d = Ok (r, d') →
  (∃ w, authorized (c_workflow_id c) (c_actor c) d_auth = Ok w ∧ (d' = d ∨ body w d = Ok (r, d'))).
Proof.
  unfold opened. intros H. wf_inv. eexists. split; [eassumption|].
  match goal with o : option WorkflowLifecycleResult |- _ => destruct o end; wf_inv; [by left|by right].
Qed.

(** A service call that changes the tables runs an operation of its workflow
    for the actor it authorised. *)
Lemma run_service_Ok d_auth d_seen d_source now vid aid wid actor s d r d' :
  run_service d_auth d_seen d_source now vid aid wid actor s d = Ok (r, d') →
  (∃ w, authorized wid actor d_auth = Ok w) ∧
  (d' = d ∨ ∃ c o, c_workflow_id c = wid ∧ c_actor c = actor ∧ run_operation now aid c o d = Ok (r, d')).
Proof.
  destruct s as [q|v key decision reason|v key reason|key status reason]; simpl; intros (w & Hw & H)%opened_Ok;
    (split; [by exists w|]); destruct H as [->|H]; try (by left); right.
  - wf_inv. eexists _, (OpCreate vid _ _). split; [|split; [|exact H]]; done.
  - eexists _, (OpReview v decision reason). split; [|split; [|exact H]]; done.
  - eexists _, (OpActivate v reason). split; [|split; [|exact H]]; done.
  - eexists _, (OpStatus status reason). split; [|split; [|exact H]]; done.
Qed.

Lemma lifecycle_change_local d actor action wid wt vt : lifecycle_change d actor action wid wt vt →
  (∀ k, k ≠ wid → wt !! k = workflows d !! k) ∧
  (∀ k v, versions d !! k = Some v → v_workflow_id v ≠ wid → vt !! k = Some v) ∧
  (∀ k v, vt !! k = Some v → v_workflow_id v ≠ wid → versions d !! k = Some v).
Proof.
  intros H. destruct H as [wid w w' vid v Hw Hv Ha E1 E2 E3 E4|wid w vid v now reason Hw Hv E1 E2
    |wid w w' vid v now reason Hw Hv E1 E2 Ha|wid w w' vid v now Hw Hv E1 E2 Ha|wid w w' status Hw Ha].
  - split_and!; [intros k Hk; by rewrite lookup_insert_ne|..].
    + intros k u Hu _. rewrite lookup_insert_ne; [done|congruence].
    + intros k u Hu Hne. by row_cases Hu.
  - split_and!; [done|..].
    + intros k u Hu Hne. rewrite lookup_insert_ne; [done|congruence].
    + intros k u Hu Hne. by row_cases Hu.
  - split_and!; [intros k Hk; by rewrite lookup_insert_ne|..].
    + intros k u Hu Hne. apply lookup_switched. right. split; [congruence|]. exists u. split; [done|].
      rewrite decide_False; [done|simpl; congruence].
    + intros k u [[-> ->]|(_ & u0 & Hu0 & ->)]%lookup_switched Hne; [done|]. by case_decide; simpl in *; [congruence|].
  - split_and!; [intros k Hk; by rewrite lookup_insert_ne|..].
    + intros k u Hu Hne. apply lookup_switched. right. split; [congruence|]. exists u. split; [done|].
      rewrite decide_False; [done|simpl; congruence].
    + intros k u [[-> ->]|(_ & u0 & Hu0 & ->)]%lookup_switched Hne; [done|]. by case_decide; simpl in *; [congruence|].
  - split_and!; [intros k Hk; by rewrite lookup_insert_ne|done..].
Qed.

(** C32. Only the owner of a workflow acts on it: when a service call commits,
    the actor it authorised earlier is still the owner, and no other workflow
    and none of their versions changed. *)
Theorem only_owner_changes_workflow d_auth d_seen d_source now vid aid wid actor s d r d' :
  service_ok d_auth → rtc wf_step d_auth d →
  run_service d_auth d_seen d_source now vid aid wid actor s d = Ok (r, d') →
  actor ≠ "" ∧ (∃ w, workflows d !! wid = Some w ∧ w_owner_user_id w = Some actor) ∧
  (∀ k, k ≠ wid → workflows d' !! k = workflows d !! k) ∧
  (∀ k v, v_workflow_id v ≠ wid → versions d' !! k = Some v ↔ versions d !! k = Some v).
Proof.
  intros Hok Hr ([w Hw] & H)%run_service_Ok. apply authorized_Ok in Hw as (Hw & Ho & Hne).
  destruct (wf_run_ok _ _ _ _ _ _ _ _ _ Hr Hok) as [Hokd (Kw & _)].
  split; [done|]. split. { destruct (Kw _ _ Hw) as (w' & Hw' & _ & E & _). exists w'. split; [done|congruence]. }
  destruct H as [->|(c & o & <- & <- & H)]; [done|]. apply operation_committed in H as [? ? ? ? ? ->|]; [done|].
  match goal with Hc : lifecycle_change _ _ _ _ _ _ |- _ => destruct (lifecycle_change_local _ _ _ _ _ _ Hc) as (L1 & L2 & L3) end.
  subst. split; [done|]. intros k v Hv. split; [intros ?; by eapply L3|intros ?; by eapply L2].
Qed.

(** ** Promotions *)

Abbreviation promote_call := (promote sha256 json_hash payload_hash aembed_query dimensions model registry).

Lemma eligible_source_Ok task_id actor d source : eligible_source registry task_id actor d = Ok source →
  promotion_source task_id d = Ok source ∧ actor ≠ "" ∧ k_user_id (ps_task source) = actor ∧
  k_status (ps_task source) = SUCCEEDED ∧ is_Some (k_execution_id (ps_task source)) ∧ ps_steps source ≠ [] ∧
  each (eligible_row registry (ps_plans source)) (ps_steps source) = Ok tt.
Proof.
  unfold eligible_source. intros (x & Hx & H)%result_bind_Ok.
  apply raise_if_then in H as [Ho H]. apply raise_if_then in H as [Hs H]. apply raise_if_then in H as [He H].
  apply raise_if_then in H as [Hn H]. apply result_bind_Ok in H as ([] & Hrow & [= ->]).
  apply negb_false_iff, andb_true_iff in Ho as [H1 H2%String.eqb_eq]. apply negb_false_iff, bool_decide_eq_true in Hs.
  apply bool_decide_eq_false in He, Hn. split_and!; try done; [by intros ->|by apply not_eq_None_Some].
Qed.

Lemma prepare_version_Ok source name description examples tags defaults policy i :
  prepare_version sha256 aembed_query dimensions model registry source name description examples tags defaults policy = Ok i →
  ∃ plan, template_plan registry defaults source = Ok (plan, vi_input_contract i) ∧ steps (vi_plan i) = steps plan.
Proof.
  unfold prepare_version. intros ([plan contract] & Ht & H)%result_bind_Ok. cbv zeta in H.
  apply result_bind_Ok in H as (e & _ & H). apply raise_if_then in H as [_ [= <-]]. by exists plan.
Qed.

Lemma promote_Ok d_seen d_source now wid vid pid task_id actor q d r d' :
  promote_call d_seen d_source now wid vid pid task_id actor q d = Ok (r, d') → r_created r = true →
  ∃ source i hash, eligible_source registry task_id actor d_source = Ok source ∧
    prepare_version sha256 aembed_query dimensions model registry source (pq_name q) (pq_description q)
      (pq_request_examples q) (pq_tags q) (pq_public_parameter_defaults q) promotion_policy_version = Ok i ∧
    create_promotion sha256 payload_hash now wid vid pid source actor (pq_idempotency_key q) hash (pq_name q)
      (pq_description q) i d = Ok (r, d').
Proof.
  unfold promote. intros H Hc. wf_inv. destruct a as [x|]; wf_inv; [|eauto 10]. exfalso.
  match goal with E : existing_promotion _ _ _ _ _ = Ok _ |- _ => revert E end. unfold existing_promotion.
  destruct (promotion_of _ _) as [[k p]|]; [|done]. intros (y & Hy & [= ->])%result_bind_Ok. unfold promotion_result in Hy.
  apply raise_if_then in Hy as [_ (v & _ & [= <-])%result_bind_Ok]. done.
Qed.

(** C31. A workflow is created only from a succeeded task of its actor with
    recorded successful steps, each of which passes the checks of a source (a
    valid tool step, its Skill and Tool as in the registry, its plan revision
    known; that every step of the plan has such a record is not checked); it
    belongs to that actor, and its first version carries the template of those
    steps, approved, active and recorded under the key of the request. *)
Theorem promoted_from_own_verified_task d_seen d_source now wid vid pid task_id actor q d r d' :
  promote_call d_seen d_source now wid vid pid task_id actor q d = Ok (r, d') → r_created r = true →
  ∃ source plan w v, eligible_source registry task_id actor d_source = Ok source ∧
    actor ≠ "" ∧ k_user_id (ps_task source) = actor ∧ k_status (ps_task source) = SUCCEEDED ∧ ps_steps source ≠ [] ∧
    each (eligible_row registry (ps_plans source)) (ps_steps source) = Ok tt ∧
    workflows d !! r_workflow_id r = None ∧ workflows d' !! r_workflow_id r = Some w ∧ w_owner_user_id w = Some actor ∧
    versions d' !! r_workflow_version_id r = Some v ∧ v_workflow_id v = r_workflow_id r ∧ v_version v = 1 ∧
    v_active v = true ∧ v_review_status v = APPROVED ∧
    template_plan registry (pq_public_parameter_defaults q) source = Ok (plan, vc_input_contract (v_content v)) ∧
    steps (vc_plan_payload (v_content v)) = steps plan ∧
    ∃ k p, promotions d' !! k = Some p ∧ pr_idempotency_key p = pq_idempotency_key q ∧
      pr_workflow_version_id p = r_workflow_version_id r.
Proof.
  intros H Hc. destruct (promote_Ok _ _ _ _ _ _ _ _ _ _ _ _ H Hc) as (source & i & hash & Hs & Hi & Hp).
  pose proof (eligible_source_Ok _ _ _ _ Hs) as (_ & H1 & H2 & H3 & _ & H4 & H5).
  destruct (prepare_version_Ok _ _ _ _ _ _ _ _ Hi) as (plan & Ht & Hst).
  apply create_promotion_committed in Hp as [k p _ _ Hr|wid' vid' pid' w v policy _ _ Hw _ _ _ Ho _ E1 E2 Ec E3 E4 _ _ Ew Ev _ Ep _ Er1 Er2].
  - exfalso. unfold promotion_result in Hr. apply raise_if_then in Hr as [_ (u & _ & [= <-])%result_bind_Ok]. done.
  - exists source, plan, w, v. rewrite Er1, Er2, Ew, Ev, !lookup_insert_eq, Ec, Ho, H2.
    split_and!; try done. exists pid'. eexists. rewrite Ep, lookup_insert_eq. by split_and!.
Qed.

(** ** The catalog *)

(** The catalog offers at most as many candidates as asked for, one per
    workflow, each the approved active version of an active workflow. *)
Theorem catalog_offers_reviewed distance score a d embedding limit l :
  agent_ok fp signal digest a → rtc wf_step (empty_wdb a) d → candidates distance score embedding limit d = Ok l →
  (length l ≤ limit)%nat ∧ NoDup (map cd_name l) ∧
  Forall (λ c, ∃ v w, versions d !! cd_workflow_version_id c = Some v ∧ workflows d !! v_workflow_id v = Some w ∧
    v_active v = true ∧ v_review_status v = APPROVED ∧ is_Some (v_reviewed_by v) ∧
    w_status w = W_ACTIVE ∧ w_visibility w = "SERVICE" ∧ cd_name c = w_name w ∧
    cd_plan c = vc_plan_payload (v_content v) ∧ validate_plan (cd_plan c) = Ok tt) l.
Proof.
  intros Ha Hr Hl. destruct (wf_run_ok _ _ _ _ _ _ _ _ _ Hr) as [[[Ht _ _ _ _] _] _]; [by apply empty_service_ok|].
  apply all_ok_Forall2 in Hl. set (rows := candidate_rows distance embedding limit d) in *.
  assert (Hrow : ∀ kv, kv ∈ rows → versions d !! kv.1 = Some kv.2 ∧ offered d kv.2 = true).
  { intros [k v] Hin. apply elem_of_take_elem in Hin. rewrite elem_of_order_by, list_elem_of_filter, andb_true_iff in Hin.
    destruct Hin as ([Ho _] & Hin%elem_of_map_to_list). done. }
  assert (Hnd : NoDup rows).
  { unfold rows, candidate_rows, select_page. eapply sublist_NoDup; [|apply sublist_take].
    rewrite order_by_Permutation. apply NoDup_filter, NoDup_map_to_list. }
  assert (Hcand : Forall2 (λ kv c, ∃ w, workflows d !! v_workflow_id kv.2 = Some w ∧ cd_workflow_version_id c = kv.1 ∧
    cd_name c = w_name w ∧ cd_plan c = vc_plan_payload (v_content kv.2) ∧ validate_plan (cd_plan c) = Ok tt) rows l).
  { eapply Forall2_impl; [exact Hl|]. intros kv c H. unfold candidate in H. cbv zeta in H.
    apply result_bind_Ok in H as ([] & Hv & (w & Hw & [= <-])%result_bind_Ok). exists w. split_and!; try done.
    unfold get_workflow, from_option_err in Hw. by destruct (workflows d !! _) as [x|]; [injection Hw as ->|]. }
  split_and!.
  - rewrite <- (Forall2_length _ _ _ Hl). apply length_take_le_bound.
  - apply NoDup_alt. intros i j x. rewrite !list_lookup_fmap, !fmap_Some.
    intros (c1 & H1 & ->) (c2 & H2 & E).
    eapply Forall2_lookup_r in Hcand as H1'; [|exact H1]. eapply Forall2_lookup_r in Hcand as H2'; [|exact H2].
    destruct H1' as ([k1 v1] & R1 & w1 & W1 & _ & N1 & _), H2' as ([k2 v2] & R2 & w2 & W2 & _ & N2 & _). simpl in *.
    assert (v_workflow_id v1 = v_workflow_id v2) as Ew by (eapply (to_name _ _ Ht); [exact W1|exact W2|congruence]).
    destruct (Hrow (k1, v1)) as [L1 O1]; [by eapply list_elem_of_lookup_2|].
    destruct (Hrow (k2, v2)) as [L2 O2]; [by eapply list_elem_of_lookup_2|]. simpl in *.
    apply offered_true in O1 as (A1 & _), O2 as (A2 & _).
    assert (k1 = k2) as -> by (by eapply (to_one _ _ Ht)). assert (v1 = v2) as -> by congruence.
    eapply NoDup_lookup; [exact Hnd|exact R1|exact R2].
  - apply Forall_lookup. intros j c Hj. eapply Forall2_lookup_r in Hcand as ([k v] & R & w & W & Ec & N & P & V); [|exact Hj].
    destruct (Hrow (k, v)) as [L O]; [by eapply list_elem_of_lookup_2|]. simpl in *.
    apply offered_true in O as (A1 & A2 & w' & W' & S1 & S2). assert (w' = w) as -> by congruence.
    exists v, w. rewrite Ec. split_and!; try done. apply (to_reviewed _ _ Ht _ _ L). congruence.
Qed.

(** ** Reviews *)

Lemma key_free_None key d : key_free key d → action_of_key key d = None.
Proof.
  intros Hf. apply first_where_None. intros k a Ha. apply String.eqb_neq. by apply (Hf k).
Qed.

(** The guards of the writes of an approval hold. *)
Lemma approve_commits now id c vid reason d w v :
  wf_ok d → key_free (c_key c) d → lifecycle d !! id = None → workflows d !! c_workflow_id c = Some w →
  versions d !! vid = Some v → v_workflow_id v = c_workflow_id c → v_review_status v = PENDING_REVIEW →
  ∃ r d', review_version now id c vid D_APPROVE reason d = Ok (r, d').
Proof.
  intros Hok Hf Hid Hw Hv E Hr.
  assert (Hna : v_active v = false).
  { destruct (v_active v) eqn:Ha; [|done]. pose proof (to_approved _ _ (wo_tables _ Hok) _ _ Hv Ha). congruence. }
  unfold review_version, locked_existing, existing_action, locked_workflow, workflow_version, deactivate_versions, add_action,
    insert_action, put_workflow, update_version, tx_modify, tx_get, tx_guard, wlift, mbind, tx_bind, mret, tx_ret.
  rewrite (key_free_None _ _ Hf), Hw. cbn [from_option_err]. rewrite Hv, E, N.eqb_refl, (bool_decide_eq_true_2 (v_review_status v = PENDING_REVIEW)) by done.
  cbn [reviewed v_active v_workflow_id]. rewrite Hna. cbn [negb orb].
  rewrite bool_decide_eq_true_2; [|].
  2:{ apply first_where_None. intros k u Hu. cbn [set_versions versions] in Hu.
      apply lookup_update_where_Some in Hu as (u0 & Hu0 & ->). destruct (N.eqb_spec k vid) as [->|Hk]; [done|].
      destruct (N.eqb_spec (v_workflow_id u0) (c_workflow_id c)) as [Eu|Eu]; simpl; rewrite E; [by rewrite Eu, N.eqb_refl|].
      by apply andb_false_intro1, N.eqb_neq. }
  rewrite orb_true_r. cbn [set_versions set_workflows set_lifecycle lifecycle workflows versions a_workflow_id a_workflow_version_id a_idempotency_key l_workflow_id l_workflow_version_id version_result].
  rewrite Hid, !lookup_insert_eq. rewrite !bool_decide_eq_true_2; [by eauto|..]; try done; try by eexists.
  by apply key_free_None.
Qed.

Lemma reject_commits now id c vid reason d w v :
  wf_ok d → key_free (c_key c) d → lifecycle d !! id = None → workflows d !! c_workflow_id c = Some w →
  versions d !! vid = Some v → v_workflow_id v = c_workflow_id c → v_review_status v = PENDING_REVIEW →
  ∃ r d', review_version now id c vid D_REJECT reason d = Ok (r, d').
Proof.
  intros Hok Hf Hid Hw Hv E Hr.
  assert (Hna : v_active v = false).
  { destruct (v_active v) eqn:Ha; [|done]. pose proof (to_approved _ _ (wo_tables _ Hok) _ _ Hv Ha). congruence. }
  unfold review_version, locked_existing, existing_action, locked_workflow, workflow_version, add_action,
    insert_action, put_workflow, update_version, tx_modify, tx_get, tx_guard, wlift, mbind, tx_bind, mret, tx_ret.
  rewrite (key_free_None _ _ Hf), Hw. cbn [from_option_err]. rewrite Hv, E, N.eqb_refl, (bool_decide_eq_true_2 (v_review_status v = PENDING_REVIEW)) by done.
  cbn [reviewed v_active]. rewrite Hna. cbn [negb orb].
  cbn [set_versions set_workflows set_lifecycle lifecycle workflows versions a_workflow_id a_workflow_version_id a_idempotency_key l_workflow_id l_workflow_version_id version_result].
  rewrite Hid, Hw, !lookup_insert_eq. rewrite !bool_decide_eq_true_2; [by eauto|..]; try done; try by eexists.
  by apply key_free_None.
Qed.

Lemma locked_existing_fresh c action d : key_free (c_key c) d → locked_existing c action d = Ok (None, d).
Proof.
  intros Hf. unfold locked_existing, existing_action, mbind, tx_bind, tx_get, wlift. by rewrite (key_free_None _ _ Hf).
Qed.

(** The tables after a review. *)
Lemma review_effect now id c vid decision reason d r d' w v : key_free (c_key c) d →
  workflows d !! c_workflow_id c = Some w → versions d !! vid = Some v → v_workflow_id v = c_workflow_id c →
  review_version now id c vid decision reason d = Ok (r, d') →
  l_applied r = true ∧ l_workflow_version_id r = Some vid ∧
  match decision with
  | D_APPROVE => versions d' = switched (versions d) now (c_actor c) vid (set_active now (c_actor c) true (reviewed now (c_actor c) APPROVED reason v)) ∧
      workflows d' = <[c_workflow_id c := set_workflow now (w_status w) (w_latest_version w) (c_actor c) w]> (workflows d)
  | D_REJECT => versions d' = <[vid := reviewed now (c_actor c) REJECTED reason v]> (versions d) ∧ workflows d' = workflows d
  end.
Proof.
  intros Hf Hw Hv E H. unfold review_version, deactivate_versions, put_workflow, add_action in H. cbv zeta in H.
  apply tx_bind_Ok in H as (o & d1 & H1 & H). rewrite locked_existing_fresh in H1 by done. injection H1 as <- <-.
  destruct decision; wf_inv;
    repeat match goal with
    | X : locked_workflow _ _ = _ |- _ => apply locked_workflow_Ok in X as [-> ?]
    | X : workflow_version _ _ _ = _ |- _ => apply workflow_version_Ok in X as (-> & ? & ?)
    | X : update_version _ _ _ = _ |- _ => apply update_version_Ok in X as ->
    | X : insert_action _ _ _ = _ |- _ => apply insert_action_Ok in X as (? & ? & ->)
    end; simplify_eq; (split; [done|]); (split; [done|]); [|done].
  rewrite <- (switched_updated _ _ _ _ (reviewed now (c_actor c) APPROVED reason v)).
  split; [|done]. cbn [set_active reviewed v_workflow_id]. by rewrite E.
Qed.

Lemma catalog_version_Ok id d : (∃ v, catalog_version id d = Ok v) ↔ ∃ v, versions d !! id = Some v ∧ offered d v = true.
Proof.
  unfold catalog_version. destruct (versions d !! id) as [v|]; [|split; [by intros [? ?]|by intros (? & ? & _)]].
  destruct (offered d v) eqn:E; split; [by exists v|by exists v|by intros [? ?]|intros (? & [= <-] & ?); congruence].
Qed.

(** The version as a review leaves it; the reviews and contents of all other
    versions stay. *)
Definition decided (now : timestamp) (actor : string) (vid : uuid) (decision : review_decision) (reason : option string)
    (v : WorkflowVersion) (d d' : wdb) : Prop :=
  (∃ v', versions d' !! vid = Some v' ∧ v_workflow_id v' = v_workflow_id v ∧ v_version v' = v_version v ∧ v_content v' = v_content v ∧
     v_review_status v' = match decision with D_APPROVE => APPROVED | D_REJECT => REJECTED end ∧
     v_active v' = match decision with D_APPROVE => true | D_REJECT => v_active v end ∧
     v_reviewed_by v' = Some actor ∧ v_reviewed_at v' = Some now ∧ v_review_reason v' = reason) ∧
  ∀ k u, k ≠ vid → versions d !! k = Some u → ∃ u', versions d' !! k = Some u' ∧ v_review_status u' = v_review_status u ∧ v_content u' = v_content u.

Lemma effect_decided now actor vid decision reason v d d' : versions d !! vid = Some v →
  match decision with
  | D_APPROVE => versions d' = switched (versions d) now actor vid (set_active now actor true (reviewed now actor APPROVED reason v))
  | D_REJECT => versions d' = <[vid := reviewed now actor REJECTED reason v]> (versions d)
  end → decided now actor vid decision reason v d d'.
Proof.
  intros Hv E. split.
  - destruct decision; rewrite E; eexists; [split; [by apply lookup_switched; left|]|split; [apply lookup_insert_eq|]]; by split_and!.
  - intros k u Hk Hu. destruct decision; rewrite E.
    + eexists. split; [apply lookup_switched; right; split; [done|]; by exists u|]. by case_decide.
    + exists u. by rewrite lookup_insert_ne.
Qed.

(** C33. A new review is decided by the state of its version alone: one that
    waits is decided, any other is refused without a change. The version is
    then APPROVED or REJECTED as the reviewer said, with the reviewer, the time
    and the reason. An approval makes it the active version, and the one version
    of its workflow that the catalog offers if the workflow is ACTIVE and has
    SERVICE visibility, and otherwise the catalog offers none; a rejected
    version is never offered and leaves the offer as it was. *)
Theorem review_decides now id c vid decision reason d :
  service_ok d → key_free (c_key c) d → lifecycle d !! id = None →
  match workflows d !! c_workflow_id c, versions d !! vid with
  | None, _ => review_version now id c vid decision reason d = Err (LookupError "Unknown Workflow")
  | Some w, None => review_version now id c vid decision reason d = Err (LookupError "Unknown Workflow version")
  | Some w, Some v =>
      if decide (v_workflow_id v = c_workflow_id c) then
        if decide (v_review_status v = PENDING_REVIEW) then
          ∃ r d', review_version now id c vid decision reason d = Ok (r, d') ∧ l_applied r = true ∧
            l_workflow_version_id r = Some vid ∧ decided now (c_actor c) vid decision reason v d d' ∧
            ∀ k u, versions d !! k = Some u → v_workflow_id u = c_workflow_id c →
              (∃ u', catalog_version k d' = Ok u') ↔
              match decision with
              | D_APPROVE => k = vid ∧ w_status w = W_ACTIVE ∧ w_visibility w = "SERVICE"
              | D_REJECT => ∃ u', catalog_version k d = Ok u'
              end
        else review_version now id c vid decision reason d =
               Err (WorkflowLifecycleConflictError "Only PENDING_REVIEW versions can be reviewed")
      else review_version now id c vid decision reason d = Err (LookupError "Unknown Workflow version")
  end.
Proof.
  intros Hs Hf Hid. pose proof Hs as [Hok _].
  destruct (workflows d !! c_workflow_id c) as [w|] eqn:Hw; [destruct (versions d !! vid) as [v|] eqn:Hv|].
  2-3: unfold review_version, locked_existing, existing_action, locked_workflow, workflow_version, tx_get, wlift, mbind, tx_bind, mret, tx_ret;
    rewrite (key_free_None _ _ Hf), Hw; cbn [from_option_err]; rewrite ?Hv; by destruct decision.
  destruct (decide (v_workflow_id v = c_workflow_id c)) as [E|E]; [destruct (decide (v_review_status v = PENDING_REVIEW)) as [Hp|Hp]|].
  2-3: unfold review_version, locked_existing, existing_action, locked_workflow, workflow_version, tx_guard, tx_get, wlift, mbind, tx_bind, mret, tx_ret;
    rewrite (key_free_None _ _ Hf), Hw; cbn [from_option_err]; rewrite Hv;
    rewrite ?(proj2 (N.eqb_eq _ _) E), ?(proj2 (N.eqb_neq _ _) E); rewrite ?bool_decide_eq_false_2 by done; by destruct decision.
  assert (∃ r d', review_version now id c vid decision reason d = Ok (r, d')) as (r & d' & Hrun).
  { destruct decision; [by eapply approve_commits|by eapply reject_commits]. }
  destruct (review_effect _ _ _ _ _ _ _ _ _ _ _ Hf Hw Hv E Hrun) as (Ha & Hvid & Heff).
  exists r, d'. do 3 (split; [done|]). split; [apply effect_decided; [done|by destruct decision; apply Heff]|]. intros k u Hu Eu.
  destruct decision; destruct Heff as [Ev Ew]; rewrite !catalog_version_Ok, Ev.
  - split.
    + intros (u' & [[-> ->]|(Hk & u0 & Hu0 & ->)]%lookup_switched & (Hact & _ & w' & Hw' & Hst & Hvis)%offered_true).
      * rewrite Ew in Hw'. simpl in Hw'. rewrite E, lookup_insert_eq in Hw'. injection Hw' as <-. by split_and!.
      * exfalso. assert (u0 = u) as -> by congruence. simpl in Hact. rewrite decide_True in Hact; [done|simpl; congruence].
    + intros (-> & Hst & Hvis). eexists. split; [apply lookup_switched; left; done|]. apply offered_true. split_and!; [done..|].
      rewrite Ew. simpl. rewrite E, lookup_insert_eq. eexists. split; [done|]. by split.
  - destruct (decide (k = vid)) as [->|Hk].
    + assert (u = v) as -> by congruence. rewrite lookup_insert_eq. split.
      * intros (u' & [= <-] & (_ & Hr & _)%offered_true). done.
      * intros (u' & Hu' & (_ & Hr & _)%offered_true). assert (u' = v) as -> by congruence. congruence.
    + rewrite lookup_insert_ne by done. unfold offered. by rewrite Ew.
Qed.
End Props.
