(* ===== verification/WorkflowDemo.v ===== *)
(** * A run of promotion and lifecycle

    A task succeeds, its plan becomes a workflow, a second version is created,
    reviewed and approved: the run on which the theorems about workflows are
    applied. *)

From stdpp Require Import base gmap strings list sorting relations.
From Stdlib Require Import ZArith Lia.
From S2P Require Import Prelude Text Session AgentTables Plans Templates WorkflowTables Admission FailureStore TaskProjections AgentWorld Effects AgentInv AgentSteps AgentAccept AgentHistory AgentProps AgentDemo TemplatesProps PlanStore Workflows WorkflowService WorkflowsInv WorkflowsSteps WorkflowsRun WorkflowsProps.
Local Open Scope Z_scope.
Set Default Proof Using "Type".

Module WorkflowDemo.
Import AgentDemo.

(** ** The task *)

Definition bound := binding_tx 7 21 1 (Some 22%N) (Some 1) true d2.
Definition t3 := state_of bound.
Definition succeeded := terminal_tx 40 77 7 SUCCEEDED "done" (JObj []) t3.
Definition t4 := state_of succeeded.

Lemma bound_run : binding_tx 7 21 1 (Some 22%N) (Some 1) true d2 = Ok (tt, t3).
Proof. refine (commits_unit bound _). vm_compute. reflexivity. Qed.
Lemma succeeded_run : terminal_tx 40 77 7 SUCCEEDED "done" (JObj []) t3 = Ok (tt, t4).
Proof. refine (commits_unit succeeded _). vm_compute. reflexivity. Qed.

Lemma task_ok : agent_ok fp no_signal digest t4.
Proof.
  eapply agent_run_ok; [|apply reachable_agent_ok; eapply rtc_r; [exact reach1|exact step2]].
  eapply rtc_l; [eapply step_binding; exact bound_run|]. apply rtc_once. eapply step_terminal; exact succeeded_run.
Qed.

(** ** The workflow *)

Definition sha256 (_ : string) : string := TemplateDemo.sha.
Definition json_hash (_ : json) : string := "h".
Definition payload_hash (_ : PlanDraft) (_ : list (string * input_spec)) : string := TemplateDemo.sha.
Definition plan_hash (_ : PlanDraft) : string := TemplateDemo.sha.
Definition step_hash (_ : PlanStepDraft) : string := TemplateDemo.sha.
Definition embed (_ : string) : result (list string) := Ok ["0.5"].

Definition task_plan : PlanDraft :=
  mk_plan "Load" "Load it" SINGLE "basic" [TemplateDemo.step (TemplateDemo.tool "load") TemplateDemo.parameters] [] [].
Definition compiled : list (CompiledStep * string) :=
  [(mk_compiled 0 "load()" TemplateDemo.sha (Some "sales") (Some "load") TemplateDemo.parameters, "7/1/step-0000.py")].
Definition request : promotion_request := mk_prequest "k1" "Monthly sales" "Loads sales" [] ["sales"] TemplateDemo.defaults.
Definition again_request : version_request := mk_vrequest "k2" 7 ["again"] [] TemplateDemo.defaults.

Definition wstate_of {A} (r : result (A * wdb)) : wdb := match r with Ok (_, d) => d | Err _ => empty_wdb empty_adb end.
Definition wvalue_of {A} (a : A) (r : result (A * wdb)) : A := match r with Ok (x, _) => x | Err _ => a end.

Lemma wcommits {A} (a : A) r : match r with Ok _ => true | Err _ => false end = true → r = Ok (wvalue_of a r, wstate_of r).
Proof. by destruct r as [[]|]. Qed.
Lemma wcommits_unit r : match r with Ok _ => true | Err _ => false end = true → r = Ok (tt, wstate_of r).
Proof. by destruct r as [[[] d]|]. Qed.

Definition no_result : WorkflowLifecycleResult := mk_lresult 0 None None None VERSION_CREATED W_ACTIVE None None true.

Definition demo_promote := promote sha256 json_hash payload_hash embed 1 "model" TemplateDemo.registry.
Definition service := run_service sha256 payload_hash json_hash embed 1 "model" TemplateDemo.registry.

Definition persisted := persist plan_hash 100 101 102 7 task_plan compiled "r" None (Some 1) (empty_wdb t4).
Definition w1 := wstate_of persisted.
Definition verified := record_successful_steps step_hash 7 22 100 101 "r" 0 (steps task_plan) w1.
Definition w2 := wstate_of verified.
Definition promoted := demo_promote w2 w2 50 200 201 202 7 "u" request w2.
Definition w3 := wstate_of promoted.
Definition created := service w3 w3 w3 60 203 204 200 "u" (SvcCreate again_request) w3.
Definition w4 := wstate_of created.
Definition approved := service w4 w4 w4 70 0 205 200 "u" (SvcReview 203 "k3" D_APPROVE None) w4.
Definition w5 := wstate_of approved.

Definition no_promotion : WorkflowPromotionResult := mk_presult 0 0 0 true "".

Lemma persisted_run : ∃ r, persist plan_hash 100 101 102 7 task_plan compiled "r" None (Some 1) (empty_wdb t4) = Ok (r, w1).
Proof. exists (wvalue_of (mk_persisted 0 0 0 "" 0) persisted). refine (wcommits _ persisted _). vm_compute. reflexivity. Qed.
Lemma verified_run : record_successful_steps step_hash 7 22 100 101 "r" 0 (steps task_plan) w1 = Ok (tt, w2).
Proof. refine (wcommits_unit verified _). vm_compute. reflexivity. Qed.
Lemma promoted_run : demo_promote w2 w2 50 200 201 202 7 "u" request w2 = Ok (wvalue_of no_promotion promoted, w3).
Proof. refine (wcommits no_promotion promoted _). vm_compute. reflexivity. Qed.
Lemma created_run : service w3 w3 w3 60 203 204 200 "u" (SvcCreate again_request) w3 = Ok (wvalue_of no_result created, w4).
Proof. refine (wcommits no_result created _). vm_compute. reflexivity. Qed.
Lemma approved_run : service w4 w4 w4 70 0 205 200 "u" (SvcReview 203 "k3" D_APPROVE None) w4 = Ok (wvalue_of no_result approved, w5).
Proof. refine (wcommits no_result approved _). vm_compute. reflexivity. Qed.

(** ** Its states are reachable *)

Abbreviation wstep := (wf_step sha256 payload_hash plan_hash step_hash fp no_signal digest).

Lemma service_steps d_auth d_seen d_source now vid aid wid actor s d r d' :
  service d_auth d_seen d_source now vid aid wid actor s d = Ok (r, d') → rtc wstep d d'.
Proof.
  intros (_ & [->|(c & o & _ & _ & H)])%run_service_Ok; [constructor|]. apply rtc_once. by eapply step_operation.
Qed.

Lemma reach_w3 : rtc wstep (empty_wdb t4) w3.
Proof.
  destruct persisted_run as [r Hr]. eapply rtc_l; [eapply step_persist; exact Hr|].
  eapply rtc_l; [eapply step_record; exact verified_run|].
  destruct (promote_Ok _ _ _ _ _ _ _ _ _ _ _ _ _ _ _ _ _ _ _ promoted_run) as (source & i & hash & _ & _ & H); [vm_compute; reflexivity|].
  apply rtc_once. eapply step_promote. exact H.
Qed.
Lemma reach_w4 : rtc wstep (empty_wdb t4) w4.
Proof. etransitivity; [exact reach_w3|eapply service_steps; exact created_run]. Qed.
Lemma reach_w5 : rtc wstep (empty_wdb t4) w5.
Proof. etransitivity; [exact reach_w4|eapply service_steps; exact approved_run]. Qed.

Lemma w3_ok : service_ok fp no_signal digest w3.
Proof. eapply wf_run_ok; [exact reach_w3|apply empty_service_ok, task_ok]. Qed.
Lemma w4_ok : service_ok fp no_signal digest w4.
Proof. eapply wf_run_ok; [exact reach_w4|apply empty_service_ok, task_ok]. Qed.

Definition call : action_call := mk_call 200 "u" "k3" "h" owner_policy_version.
Definition other_call : action_call := mk_call 200 "u" "k3" "g" owner_policy_version.
Definition approval : operation := OpReview 203 D_APPROVE None.

Definition applied := run_operation sha256 payload_hash 70 205 call approval w4.
Definition w6 := wstate_of applied.
Lemma approval_run : run_operation sha256 payload_hash 70 205 call approval w4 = Ok (wvalue_of no_result applied, w6).
Proof. refine (wcommits no_result applied _). vm_compute. reflexivity. Qed.

Lemma key_free_None_inv key d : action_of_key key d = None → key_free key d.
Proof. unfold action_of_key. rewrite first_where_None. intros H k a Ha E. specialize (H _ _ Ha). by rewrite E, String.eqb_refl in H. Qed.
End WorkflowDemo.
Import WorkflowDemo.

Lemma workflow_versions_consistent_witness : ∃ id v, versions w5 !! id = Some v ∧ v_workflow_id v = 200%N ∧
  v_active v = true ∧ v_review_status v = APPROVED.
Proof.
  destruct (workflow_versions_consistent sha256 payload_hash plan_hash step_hash AgentDemo.fp AgentDemo.no_signal AgentDemo.digest
              t4 w5 task_ok reach_w5) as [H _].
  destruct (workflows w5 !! 200%N) as [w|] eqn:E; [|vm_compute in E; discriminate].
  destruct (H _ _ E) as [(id & v & ? & ? & ? & ? & _) _]. exists id, v. split_and!; assumption.
Defined.

Lemma lifecycle_action_applied_once_witness :
  run_operation sha256 payload_hash 80 300 call approval w6 = Ok (unapplied (wvalue_of no_result applied), w6) ∧
  run_operation sha256 payload_hash 80 300 other_call approval w6 =
    Err (WorkflowLifecycleConflictError "Idempotency key payload mismatch").
Proof.
  assert (H := lifecycle_action_applied_once sha256 payload_hash plan_hash step_hash AgentDemo.fp AgentDemo.no_signal AgentDemo.digest
           70 205 call approval w4 _ w6 w6 w4_ok approval_run (rtc_refl _ _) 80 300%N).
  split; [exact (H call approval eq_refl)|exact (H other_call approval eq_refl)].
Defined.

Lemma only_owner_changes_workflow_witness :
  "u" ≠ "" ∧ (∃ w, workflows w4 !! 200%N = Some w ∧ w_owner_user_id w = Some "u") ∧
  ∀ k, k ≠ 200%N → workflows w5 !! k = workflows w4 !! k.
Proof.
  destruct (only_owner_changes_workflow sha256 payload_hash plan_hash step_hash AgentDemo.fp AgentDemo.no_signal AgentDemo.digest
    json_hash embed 1 "model" TemplateDemo.registry w4 w4 w4 70 0 205 200 "u" (SvcReview 203 "k3" D_APPROVE None) w4 _ w5
    w4_ok (rtc_refl _ _) approved_run) as (H1 & H2 & H3 & _).
  split_and!; assumption.
Defined.

Lemma promoted_from_own_verified_task_witness : ∃ source plan v,
  eligible_source TemplateDemo.registry 7 "u" w2 = Ok source ∧
  template_plan TemplateDemo.registry TemplateDemo.defaults source = Ok (plan, vc_input_contract (v_content v)) ∧
  versions w3 !! 201%N = Some v.
Proof.
  destruct (promoted_from_own_verified_task sha256 payload_hash json_hash embed 1 "model" TemplateDemo.registry
    w2 w2 50 200 201 202 7 "u" request w2 _ w3 promoted_run) as
    (source & plan & w & v & Hs & _ & _ & _ & _ & _ & _ & _ & _ & Hv & _ & _ & _ & _ & Ht & _); [vm_compute; reflexivity|].
  exists source, plan, v. split_and!; [exact Hs|exact Ht|]. replace 201%N with (r_workflow_version_id (wvalue_of no_promotion promoted)) by (vm_compute; reflexivity). exact Hv.
Defined.

Lemma catalog_offers_reviewed_witness : ∃ l, candidates (λ _ _, 0) (λ _, "1.0") ["0.5"] 3 w5 = Ok l ∧ length l = 1%nat ∧
  (length l ≤ 3)%nat ∧ NoDup (map cd_name l).
Proof.
  destruct (candidates (λ _ _, 0) (λ _, "1.0") ["0.5"] 3 w5) as [l|e] eqn:E; [|vm_compute in E; discriminate].
  destruct (catalog_offers_reviewed sha256 payload_hash plan_hash step_hash AgentDemo.fp AgentDemo.no_signal AgentDemo.digest
    (λ _ _, 0) (λ _, "1.0") t4 w5 ["0.5"] 3 l task_ok reach_w5 E) as (H1 & H2 & _).
  exists l. split_and!; [reflexivity| |assumption|assumption]. vm_compute in E. injection E as <-. reflexivity.
Defined.

Lemma review_decides_witness : ∃ r d', review_version 70 205 call 203 D_APPROVE None w4 = Ok (r, d') ∧ l_applied r = true.
Proof.
  assert (Hf : key_free (c_key call) w4) by (apply key_free_None_inv; vm_compute; reflexivity).
  assert (Hn : lifecycle w4 !! 205%N = None) by (vm_compute; reflexivity).
  assert (∃ w, workflows w4 !! c_workflow_id call = Some w) as [w Ew] by (eexists; vm_compute; reflexivity).
  assert (∃ v, versions w4 !! 203%N = Some v ∧ v_workflow_id v = c_workflow_id call ∧ v_review_status v = PENDING_REVIEW)
    as (v & Ev & Hw & Hp) by (eexists; split; [|split]; vm_compute; reflexivity).
  generalize w4_ok. revert Hf Hn Ew Ev. generalize w4. intros d Hf Hn Ew Ev Hok.
  assert (H := review_decides AgentDemo.fp AgentDemo.no_signal AgentDemo.digest 70 205 call 203 D_APPROVE None d Hok Hf Hn).
  rewrite Ew, Ev in H. rewrite decide_True in H by exact Hw. rewrite decide_True in H by exact Hp.
  destruct H as (r & d' & H1 & H2 & _). exists r, d'. split; assumption.
Defined.
