(* ===== verification/GraphState.v ===== *)
(** * The state of a session graph
    ([ex_agent/application/state.py], [agent/graph/state.py], the contracts of
    [ex_agent/domain/contracts.py] and [ex_agent/domain/enums.py] it holds)

    [WorkflowState] is a [TypedDict] with optional keys: a function from keys to
    optional values of the key's type. A node returns the entries it writes and
    the graph merges them. *)

From stdpp Require Import base gmap strings list.
From Stdlib Require Import ZArith Lia.
From S2P Require Import Prelude Text Session AgentTables Plans Templates WorkflowTables PlanStore Workflows.
Local Open Scope Z_scope.
Set Default Proof Using "Type".

(** ** Contracts *)

Inductive Intent := GENERAL_QA | DATA_ANALYSIS_QA | DATA_ANALYSIS_EXECUTION | CODE_EXECUTION.
#[global] Instance Intent_eq_dec : EqDecision Intent.
Proof. solve_decision. Defined.

Inductive RiskLevel := LOW | MEDIUM | HIGH | CRITICAL.
#[global] Instance RiskLevel_eq_dec : EqDecision RiskLevel.
Proof. solve_decision. Defined.

Inductive ExecutorOutcome :=
| O_WAITING | OPERATION_SUCCEEDED | OPERATION_FAILED | O_SUCCEEDED | O_FAILED | O_CANCELLED.
#[global] Instance ExecutorOutcome_eq_dec : EqDecision ExecutorOutcome.
Proof. solve_decision. Defined.

Inductive MultiAction := APPEND_STEP | REQUIRE_REAPPROVAL | FINALIZE | M_FAIL.
#[global] Instance MultiAction_eq_dec : EqDecision MultiAction.
Proof. solve_decision. Defined.

(** The fields of [IntentDecision] that the graph reads. *)
Record IntentDecision := mk_intent {
  id_intent : Intent;
  id_requires_clarification : bool;
  id_clarification_question : option string;
  id_requested_execution_mode : option ExecutionMode
}.

Record RiskReview := mk_risk {
  rv_level : RiskLevel;
  rv_categories : list string;
  rv_summary : string;
  rv_evidence : list string;
  rv_recommended_action : string
}.

(** [review.model_copy(update={"level": ...})] *)
Definition with_level (l : RiskLevel) (r : RiskReview) : RiskReview :=
  mk_risk l (rv_categories r) (rv_summary r) (rv_evidence r) (rv_recommended_action r).

(** A candidate of the catalog with the review that [search_workflows] adds. *)
Record ReviewedCandidate := mk_reviewed {
  rc_candidate : WorkflowCandidate;
  rc_risk : option RiskReview
}.

Record SubmissionReceipt := mk_receipt {
  sr_execution_id : uuid;
  sr_operation_id : uuid;
  sr_execution_version : Z;
  sr_persisted_plan : option PersistedPlan;
  sr_plan : option PlanDraft
}.

(** The fields of [ExecutorReconciliation] that the graph reads. *)
Record ExecutorReconciliation := mk_reconciliation {
  er_outcome : ExecutorOutcome;
  er_execution_id : uuid;
  er_error_message : option string
}.

Record MultiDecision := mk_decision {
  md_action : MultiAction;
  md_rationale : string;
  md_next_step : option PlanStepDraft
}.

(** [MultiDecision.validate_action] *)
Definition validate_action (d : MultiDecision) : result unit :=
  raise_if (bool_decide (md_action d = APPEND_STEP) && bool_decide (md_next_step d = None))
    (ValueError "APPEND_STEP requires next_step").

(** ** [WorkflowState] *)

Inductive key :=
| k_schema_version | k_user_id | k_project_id | k_session_id | k_active_task_id | k_current_input_message_id
| k_user_message | k_phase | k_intent_decision | k_clarification_count | k_planning_kind | k_execution_mode
| k_runtime_profile | k_workflow_candidates | k_workflow_proposal_version | k_selected_workflow_version_id
| k_workflow_input_values | k_plan | k_plan_id | k_plan_revision_id | k_plan_revision_number
| k_plan_public_payload_hash | k_request_risk | k_code_risk | k_risk_acknowledged | k_compiled_bundle_id
| k_execution_id | k_current_operation_id | k_last_executor_event_sequence | k_correction_count
| k_execution_finalized | k_executor_reconciliation | k_answer | k_report_markdown | k_report_artifact_id
| k_report_evidence | k_revision_feedback | k_review_action | k_external_signal | k_multi_action
| k_multi_decision | k_terminal_message.
#[global] Instance key_eq_dec : EqDecision key.
Proof. solve_decision. Defined.

(** The type of each key; a pydantic model that is stored as its JSON and
    validated again when it is read is the model itself. *)
Definition value_type (k : key) : Type :=
  match k with
  | k_phase => TaskStatus
  | k_intent_decision => IntentDecision
  | k_clarification_count | k_correction_count | k_workflow_proposal_version | k_plan_revision_number
  | k_last_executor_event_sequence => Z
  | k_planning_kind => PlanningKind
  | k_execution_mode => ExecutionMode
  | k_workflow_candidates => list ReviewedCandidate
  | k_workflow_input_values => list (string * json)
  | k_plan => PlanDraft
  | k_request_risk | k_code_risk => RiskReview
  | k_risk_acknowledged | k_execution_finalized => bool
  | k_executor_reconciliation => ExecutorReconciliation
  | k_report_evidence => json
  | k_external_signal => ResumeSignal
  | k_multi_action => MultiAction
  | k_multi_decision => MultiDecision
  | _ => string
  end.

Definition key_name (k : key) : string :=
  match k with
  | k_schema_version => "'schema_version'" | k_user_id => "'user_id'" | k_project_id => "'project_id'"
  | k_session_id => "'session_id'" | k_active_task_id => "'active_task_id'"
  | k_current_input_message_id => "'current_input_message_id'" | k_user_message => "'user_message'"
  | k_phase => "'phase'" | k_intent_decision => "'intent_decision'"
  | k_clarification_count => "'clarification_count'" | k_planning_kind => "'planning_kind'"
  | k_execution_mode => "'execution_mode'" | k_runtime_profile => "'runtime_profile'"
  | k_workflow_candidates => "'workflow_candidates'"
  | k_workflow_proposal_version => "'workflow_proposal_version'"
  | k_selected_workflow_version_id => "'selected_workflow_version_id'"
  | k_workflow_input_values => "'workflow_input_values'" | k_plan => "'plan'" | k_plan_id => "'plan_id'"
  | k_plan_revision_id => "'plan_revision_id'" | k_plan_revision_number => "'plan_revision_number'"
  | k_plan_public_payload_hash => "'plan_public_payload_hash'" | k_request_risk => "'request_risk'"
  | k_code_risk => "'code_risk'" | k_risk_acknowledged => "'risk_acknowledged'"
  | k_compiled_bundle_id => "'compiled_bundle_id'" | k_execution_id => "'execution_id'"
  | k_current_operation_id => "'current_operation_id'"
  | k_last_executor_event_sequence => "'last_executor_event_sequence'"
  | k_correction_count => "'correction_count'" | k_execution_finalized => "'execution_finalized'"
  | k_executor_reconciliation => "'executor_reconciliation'" | k_answer => "'answer'"
  | k_report_markdown => "'report_markdown'" | k_report_artifact_id => "'report_artifact_id'"
  | k_report_evidence => "'report_evidence'" | k_revision_feedback => "'revision_feedback'"
  | k_review_action => "'review_action'" | k_external_signal => "'external_signal'"
  | k_multi_action => "'multi_action'" | k_multi_decision => "'multi_decision'"
  | k_terminal_message => "'terminal_message'"
  end.

Definition WorkflowState : Type := ∀ k : key, option (value_type k).

(** [state[key]] and [state.get(key, default)] *)
Definition need (k : key) (w : WorkflowState) : result (value_type k) :=
  from_option_err (KeyError (key_name k)) (w k).

Definition put (k : key) (v : value_type k) (w : WorkflowState) : WorkflowState := λ k',
  match decide (k = k') with
  | left e => Some (eq_rect k value_type v k' e)
  | right _ => w k'
  end.

(** What a node writes: [{key: value, ...}], merged as [{**state, **updates}]. *)
Definition entry : Type := {k : key & value_type k}.
Definition merged (us : list entry) (w : WorkflowState) : WorkflowState :=
  foldl (λ w e, put (projT1 e) (projT2 e) w) w us.

Declare Scope graph_scope.
Delimit Scope graph_scope with graph.
Notation "k ↪ v" := (existT k v : entry) (at level 62, no associativity) : graph_scope.

(** ** [SessionState] with its nested workflow *)
Record GraphState := mk_graph {
  gs_turn : option TaskTurn;
  gs_user_id : option string;
  gs_project_id : option string;
  gs_session_id : option string;
  gs_active_task_id : option string;
  gs_execution_id : string;
  gs_workflow : option WorkflowState;
  gs_messages : list (string * string);
  gs_task_requests : gmap string string;
  gs_ew_pending : json;
  gs_ew_receipts : gmap string string;
  gs_ew_sequences : gmap string Z;
  gs_invocation_owner : gmap string string
}.

Definition empty_graph : GraphState :=
  mk_graph None None None None None "" None [] ∅ (JObj []) ∅ ∅ ∅.

(** [add_messages]: a message with a known id replaces the old one. *)
Fixpoint add_message (id content : string) (l : list (string * string)) : list (string * string) :=
  match l with
  | [] => [(id, content)]
  | (i, c) :: l' => if String.eqb i id then (id, content) :: l' else (i, c) :: add_message id content l'
  end.

(** ** Lemmas *)

Lemma put_same k v w : put k v w k = Some v.
Proof.
  unfold put. destruct (decide (k = k)) as [e|]; [|done]. f_equal.
  rewrite (Eqdep_dec.UIP_dec (λ a b : key, decide (a = b)) e eq_refl). done.
Qed.

Lemma put_other k v w k' : k ≠ k' → put k v w k' = w k'.
Proof. unfold put. by destruct (decide (k = k')). Qed.

(** A key no entry writes keeps its value. *)
Definition writes (us : list entry) : list key := map (λ e, projT1 e) us.

Lemma merged_other us w k : k ∉ writes us → merged us w k = w k.
Proof.
  unfold merged. revert w. induction us as [|e us IH]; intros w Hk; simpl; [done|].
  simpl in Hk. apply not_elem_of_cons in Hk as [He Hk]. rewrite IH by done. by rewrite put_other.
Qed.

Lemma merged_last us w k v : merged (us ++ [existT k v]) w k = Some v.
Proof. unfold merged. rewrite foldl_app. simpl. apply put_same. Qed.

(** Reads of a concrete key after concrete writes. *)
Ltac wf_simpl :=
  repeat first [rewrite put_same in * | rewrite put_other in * by discriminate].

Lemma need_Ok k w v : need k w = Ok v → w k = Some v.
Proof. unfold need. destruct (w k); [by intros [= ->]|done]. Qed.

(** The keys the node found in the state. *)
Ltac needs := repeat match goal with Hk : context [need ?k ?w] |- _ => apply (need_Ok k w) in Hk end.
