(* ===== verification/SessionGraph.v ===== *)
(** * The session graph
    ([ex_agent/graph/node_groups/], [ex_agent/graph/routes.py],
    [ex_agent/graph/topology.py], [agent/graph/nodes.py],
    [agent/graph/builder.py], and the checks of
    [ex_agent/application/capabilities/] that guard a node's service calls)

    LangGraph runs one node at a time: the node computes its updates from the
    state and from what its services, or the user its interrupt waits for,
    answer; the updates and the choice of the next node are checkpointed
    together, or, when anything raises, not at all. The receipt that
    [with_api_receipt] adds to a node's updates is modelled in
    [AdmissionService]; no node reads it. *)

From stdpp Require Import base gmap strings list relations.
From Stdlib Require Import ZArith Lia.
From S2P Require Import Prelude Text Session AgentTables Plans Templates WorkflowTables PlanStore Workflows WorkerContracts GraphState.
Local Open Scope Z_scope.
Local Open Scope graph_scope.
Set Default Proof Using "Type".

(** ** Nodes and answers *)

Inductive node :=
| hydrate_turn | classify_intent | clarify_request | answer_general | answer_data_question | commit_answer
| choose_execution_mode | review_request_risk | confirm_request_risk | search_workflows | choose_workflow
| load_selected_workflow | build_plan | compile_and_persist_plan | review_compiled_code_risk | review_plan
| verify_approval | submit_execution | wait_external_signal | reconcile_executor | adapt_multi_plan
| append_operation | finalize_execution | cancel_execution | build_report_evidence | generate_report
| commit_success | commit_rejected | commit_blocked | commit_failed | commit_cancelled
| begin_task | register_execution | record_event_receipt | failure_settled.
#[global] Instance node_eq_dec : EqDecision node.
Proof. solve_decision. Defined.

(** What the calls of a node came back with: results of the services, the
    value an interrupt was resumed with, or an exception. *)
Inductive answer :=
| ServiceDone
| GotIntent (d : IntentDecision)
| GotText (s : string)
| GotRisk (r : RiskReview)
| GotCandidates (l : list ReviewedCandidate)
| GotPlan (p : PlanDraft)
| GotPersisted (p : PersistedPlan)
| GotVersion (payload : PlanDraft) (contract : list (string * input_spec)) (hash : string) (p : PersistedPlan)
| GotReceipt (r : SubmissionReceipt)
| GotReconciliation (r : ExecutorReconciliation)
| GotDecision (d : MultiDecision)
| GotEvidence (j : json)
| GotReport (markdown : string) (artifact_id : uuid)
| Resumed (raw : json)
| Raised (e : exn).

Definition failed {A} (a : answer) : result A :=
  Err (match a with Raised e => e | _ => TypeError "unexpected answer" end).

Definition decision_value (d : PlanDecisionType) : string :=
  match d with APPROVE => "APPROVE" | REVISE => "REVISE" | REJECT => "REJECT" end.
Definition mode_value (m : ExecutionMode) : string := match m with SINGLE => "SINGLE" | MULTI => "MULTI" end.

(** [validate_plan_execution_mode] *)
Definition validate_plan_execution_mode (w : WorkflowState) (p : PlanDraft) : result unit :=
  expected ← need k_execution_mode w;
  raise_if (negb (bool_decide (execution_mode p = expected)))
    (ValueError "Plan execution mode does not match selected execution mode").

(** [persisted_plan_updates] *)
Definition persisted_plan_updates (plan : PlanDraft) (p : PersistedPlan) : list entry :=
  [k_plan ↪ plan; k_plan_id ↪ uuid_str (pp_plan_id p); k_plan_revision_id ↪ uuid_str (pp_plan_revision_id p);
   k_plan_revision_number ↪ pp_plan_revision_number p; k_plan_public_payload_hash ↪ pp_public_payload_hash p;
   k_compiled_bundle_id ↪ uuid_str (pp_compiled_bundle_id p)].

(** [isinstance(signal, ...)] of what an interrupt was resumed with. *)
Section Nodes.
Context `{EventCodec} (validate_resume_signal : json → result ResumeSignal) (container_str : json → string).
Context (sha256 : string → string) (pformat : json → string) (validate_custom_source : string → result unit)
  (registry : list (string * ToolManifest)) (correction_limit : Z).

Definition resumed (a : answer) : result ResumeSignal :=
  match a with Resumed raw => validate_resume_signal raw | a => failed a end.

(** *** [ConversationNodes] *)

Definition hydrate_turn_node (w : WorkflowState) (a : answer) : result (list entry) :=
  match a with
  | ServiceDone =>
      Ok [k_schema_version ↪ "1.0"; k_phase ↪ CLASSIFYING;
          k_clarification_count ↪ default 0 (w k_clarification_count); k_correction_count ↪ 0;
          k_risk_acknowledged ↪ false; k_runtime_profile ↪ default "basic" (w k_runtime_profile)]
  | a => failed a
  end.

Definition classify_intent_node (w : WorkflowState) (a : answer) : result (list entry) :=
  match a with
  | GotIntent d =>
      let mode := match id_requested_execution_mode d with Some m => [k_execution_mode ↪ m] | None => [] end in
      Ok ((k_intent_decision ↪ d) ::
          match id_intent d with
          | CODE_EXECUTION => (k_planning_kind ↪ CUSTOM_CODE) :: mode
          | DATA_ANALYSIS_EXECUTION => (k_planning_kind ↪ TOOL_PLAN) :: mode
          | _ => []
          end)
  | a => failed a
  end.

Definition clarify_request_node (w : WorkflowState) (a : answer) : result (list entry) :=
  _ ← need k_intent_decision w;
  signal ← resumed a;
  match signal with
  | ClarificationAnswer answer =>
      message ← need k_user_message w;
      Ok [k_user_message ↪ message +:+ newline +:+ newline +:+ "Clarification: " +:+ answer;
          k_clarification_count ↪ default 0 (w k_clarification_count) + 1]
  | _ => Err (TypeError "ClarificationAnswer is required")
  end.

(** [answer_general] and [answer_data_question] *)
Definition answer_node (w : WorkflowState) (a : answer) : result (list entry) :=
  match a with GotText s => Ok [k_phase ↪ ANSWERING; k_answer ↪ s] | a => failed a end.

Definition commit_answer_node (w : WorkflowState) (a : answer) : result (list entry) :=
  _ ← need k_answer w;
  match a with ServiceDone => Ok [k_phase ↪ SUCCEEDED] | a => failed a end.

(** *** [PlanningNodes] *)

Definition parse_mode (s : string) : result ExecutionMode :=
  if String.eqb s "SINGLE" then Ok SINGLE else if String.eqb s "MULTI" then Ok MULTI
  else Err (ValueError "not a valid ExecutionMode").

Definition choose_execution_mode_node (w : WorkflowState) (a : answer) : result (list entry) :=
  signal ← resumed a;
  match signal with
  | ExecutionModeDecision mode => m ← parse_mode mode; Ok [k_execution_mode ↪ m; k_planning_kind ↪ CUSTOM_CODE]
  | _ => Err (TypeError "ExecutionModeDecision is required")
  end.

Definition review_request_risk_node (w : WorkflowState) (a : answer) : result (list entry) :=
  match a with GotRisk r => Ok [k_request_risk ↪ r] | a => failed a end.

Definition confirm_request_risk_node (w : WorkflowState) (a : answer) : result (list entry) :=
  risk ← need k_request_risk w;
  signal ← resumed a;
  match signal with
  | RiskConfirmationDecision confirmed =>
      Ok (if confirmed then [k_risk_acknowledged ↪ true] else [k_request_risk ↪ with_level CRITICAL risk])
  | _ => Err (TypeError "RiskConfirmationDecision is required")
  end.

Definition search_workflows_node (w : WorkflowState) (a : answer) : result (list entry) :=
  match a with
  | GotCandidates l =>
      Ok [k_workflow_candidates ↪ l; k_workflow_proposal_version ↪ 1;
          k_execution_mode ↪ default MULTI (w k_execution_mode); k_planning_kind ↪ TOOL_PLAN]
  | a => failed a
  end.

Definition proposed (version : uuid) (l : list ReviewedCandidate) : option ReviewedCandidate :=
  List.find (λ c, (cd_workflow_version_id (rc_candidate c) =? version)%N) l.

Definition is_high_risk (r : option RiskReview) : bool :=
  match r with Some r => bool_decide (rv_level r = HIGH) | None => false end.

(** The checks of [choose_workflow] on a selected version. *)
Definition check_selection (version : uuid) (hash : string) (acknowledged : bool) (l : list ReviewedCandidate)
    : result unit :=
  match proposed version l with
  | None => Err (ValueError "Workflow was not in the proposed set")
  | Some c =>
      raise_if (negb (String.eqb hash (cd_public_payload_hash (rc_candidate c)))) (ValueError "Stale Workflow payload decision");;
      raise_if (is_high_risk (rc_risk c) && negb acknowledged) (ValueError "HIGH risk Workflow requires acknowledgement")
  end.

Definition choose_workflow_node (w : WorkflowState) (a : answer) : result (list entry) :=
  proposal ← need k_workflow_proposal_version w;
  candidates ← need k_workflow_candidates w;
  signal ← resumed a;
  match signal with
  | WorkflowSelectionDecision version number hash inputs acknowledged =>
      raise_if (negb (number =? proposal)) (ValueError "Stale Workflow proposal decision");;
      match version with
      | Some v =>
          check_selection v hash acknowledged candidates;;
          Ok [k_selected_workflow_version_id ↪ uuid_str v; k_workflow_input_values ↪ inputs; k_execution_mode ↪ SINGLE;
              k_planning_kind ↪ FIXED_WORKFLOW; k_review_action ↪ decision_value APPROVE; k_risk_acknowledged ↪ acknowledged]
      | None =>
          Ok [k_selected_workflow_version_id ↪ ""; k_workflow_input_values ↪ inputs;
              k_execution_mode ↪ default MULTI (w k_execution_mode);
              k_planning_kind ↪ TOOL_PLAN; k_review_action ↪ ""; k_risk_acknowledged ↪ acknowledged]
      end
  | _ => Err (TypeError "WorkflowSelectionDecision is required")
  end.

(** [compile_and_persist_plan] of [DurablePlans]: the mode is checked and every
    step compiled before the repository stores the revision. *)
Definition persist_plan (w : WorkflowState) (plan : PlanDraft) (p : PersistedPlan) : result (list entry) :=
  validate_plan_execution_mode w plan;;
  each (λ s, _ ← Plans.compile sha256 pformat validate_custom_source registry s; Ok tt) (steps plan);;
  Ok (persisted_plan_updates plan p).

Definition badly_formed : exn := ValueError "badly formed hexadecimal UUID string".

Definition load_selected_workflow_node (w : WorkflowState) (a : answer) : result (list entry) :=
  selected ← need k_selected_workflow_version_id w;
  version ← from_option_err badly_formed (uuid_parse selected);
  match proposed version (default [] (w k_workflow_candidates)) with
  | None => Err (ValueError "Selected Workflow was not in the proposed set")
  | Some c =>
      match a with
      | GotVersion payload contract hash p =>
          raise_if (negb (String.eqb hash (cd_public_payload_hash (rc_candidate c))))
            (ValueError "Selected Workflow version changed after proposal");;
          plan ← bind_workflow_inputs container_str payload contract (default [] (w k_workflow_input_values));
          persist_plan w plan p
      | a => failed a
      end
  end.

Definition build_plan_node (w : WorkflowState) (a : answer) : result (list entry) :=
  _ ← need k_request_risk w;
  _ ← need k_planning_kind w;
  _ ← need k_execution_mode w;
  match a with GotPlan p => Ok [k_phase ↪ PLANNING; k_plan ↪ p] | a => failed a end.

Definition compile_and_persist_plan_node (w : WorkflowState) (a : answer) : result (list entry) :=
  plan ← need k_plan w;
  match a with GotPersisted p => persist_plan w plan p | a => failed a end.

Definition review_compiled_code_risk_node (w : WorkflowState) (a : answer) : result (list entry) :=
  revision ← need k_plan_revision_id w;
  _ ← from_option_err badly_formed (uuid_parse revision);
  match a with GotRisk r => Ok [k_code_risk ↪ r] | a => failed a end.

Definition review_plan_node (w : WorkflowState) (a : answer) : result (list entry) :=
  revision ← need k_plan_revision_id w;
  number ← need k_plan_revision_number w;
  hash ← need k_plan_public_payload_hash w;
  _ ← need k_plan w;
  risk ← need k_code_risk w;
  signal ← resumed a;
  match signal with
  | PlanReviewDecision decision rid n h feedback acknowledged =>
      raise_if (negb (String.eqb (uuid_str rid) revision)) (ValueError "Stale Plan revision decision");;
      raise_if (negb (n =? number)) (ValueError "Stale Plan revision number");;
      raise_if (negb (String.eqb h hash)) (ValueError "Stale Plan payload decision");;
      raise_if (bool_decide (decision = APPROVE) && is_high_risk (Some risk) && negb acknowledged)
        (ValueError "HIGH risk Plan requires acknowledgement");;
      Ok [k_review_action ↪ decision_value decision; k_revision_feedback ↪ or_else feedback "";
          k_risk_acknowledged ↪ acknowledged]
  | _ => Err (TypeError "PlanReviewDecision is required")
  end.

(** With [PlanningCapability.verify_approval_and_lock]. *)
Definition verify_approval_node (w : WorkflowState) (a : answer) : result (list entry) :=
  raise_if (negb (bool_decide (w k_review_action = Some (decision_value APPROVE)))) (ValueError "Plan approval is required");;
  plan ← need k_plan w;
  validate_plan_execution_mode w plan;;
  match a with ServiceDone => Ok [k_phase ↪ QUEUED_FOR_EXECUTION] | a => failed a end.

(** *** [ExecutionNodes] *)

(** With the check of [DurableExecution.submit]. *)
Definition submit_execution_node (w : WorkflowState) (a : answer) : result (list entry) :=
  plan ← need k_plan w;
  validate_plan_execution_mode w plan;;
  match a with
  | GotReceipt r =>
      Ok [k_phase ↪ WAITING_FOR_EXECUTOR_EVENT; k_execution_id ↪ uuid_str (sr_execution_id r);
          k_current_operation_id ↪ uuid_str (sr_operation_id r)]
  | a => failed a
  end.

Definition reconcile_executor_node (w : WorkflowState) (a : answer) : result (list entry) :=
  signal ← need k_external_signal w;
  match signal with
  | ExecutorBoundarySignal _ _ sequence _ =>
      match a with
      | GotReconciliation r => Ok [k_executor_reconciliation ↪ r; k_last_executor_event_sequence ↪ sequence]
      | a => failed a
      end
  | _ => Err (ValueError "ExecutorBoundarySignal is required")
  end.

(** [ExecutionCapability.adapt_multi_plan] *)
Definition multi_decision (w : WorkflowState) (r : ExecutorReconciliation) (a : answer) : result MultiDecision :=
  if bool_decide (er_outcome r = OPERATION_FAILED) && (correction_limit <=? default 0 (w k_correction_count))
  then Ok (mk_decision M_FAIL "The automatic correction limit was reached." None)
  else
    _ ← need k_planning_kind w;
    _ ← need k_plan w;
    match a with
    | GotDecision d =>
        validate_action d;;
        match md_next_step d with
        | None => Ok d
        | Some s => s' ← canonicalize_step_lineage registry s; Ok (mk_decision (md_action d) (md_rationale d) (Some s'))
        end
    | a => failed a
    end.

Definition with_sequence (n : Z) (s : PlanStepDraft) : PlanStepDraft :=
  mk_step n (p_title s) (p_purpose s) (p_planning_kind s) (p_skill s) (p_tool s) (p_parameters s)
    (p_selection_rationale s) (p_expected_outputs s) (p_validation_criteria s) (p_timeout_seconds s) (p_custom_code s).
Definition with_steps (l : list PlanStepDraft) (p : PlanDraft) : PlanDraft :=
  mk_plan (objective p) (strategy_summary p) (execution_mode p) (runtime_profile p) l (assumptions p) (expected_artifacts p).

Definition adapt_multi_plan_node (w : WorkflowState) (a : answer) : result (list entry) :=
  r ← need k_executor_reconciliation w;
  d ← multi_decision w r a;
  let updates :=
    [k_multi_action ↪ md_action d; k_multi_decision ↪ d] ++
    (if bool_decide (er_outcome r = OPERATION_FAILED)
     then [k_correction_count ↪ default 0 (w k_correction_count) + 1] else []) in
  match md_next_step d with
  | None => Ok updates
  | Some s => plan ← need k_plan w; Ok (updates ++ [k_plan ↪ with_steps [with_sequence 0 s] plan])
  end.

(** With the checks of [DurableExecution.append]. *)
Definition append_operation_node (w : WorkflowState) (a : answer) : result (list entry) :=
  _ ← need k_multi_decision w;
  mode ← need k_execution_mode w;
  raise_if (negb (bool_decide (mode = MULTI))) (ValueError "Only MULTI may append an Operation");;
  plan ← need k_plan w;
  raise_if (bool_decide (steps plan = [])) (OtherException "IndexError" "list index out of range");;
  match a with
  | GotReceipt r =>
      let updates := [k_current_operation_id ↪ uuid_str (sr_operation_id r)] in
      match sr_persisted_plan r, sr_plan r with
      | None, _ => Ok updates
      | Some p, Some plan' => Ok (updates ++ persisted_plan_updates plan' p)
      | Some _, None => Err (ValueError "Append receipt requires persisted plan")
      end
  | a => failed a
  end.

Definition finalize_execution_node (w : WorkflowState) (a : answer) : result (list entry) :=
  match a with ServiceDone => Ok [k_execution_finalized ↪ true] | a => failed a end.

Definition cancel_execution_node (w : WorkflowState) (a : answer) : result (list entry) :=
  signal ← need k_external_signal w;
  if is_cancel signal then match a with ServiceDone => Ok [k_phase ↪ CANCEL_REQUESTED] | a => failed a end
  else Err (ValueError "CancelRequestedSignal is required").

(** *** [TerminalNodes] *)

Definition build_report_evidence_node (w : WorkflowState) (a : answer) : result (list entry) :=
  match a with GotEvidence j => Ok [k_phase ↪ GENERATING_REPORT; k_report_evidence ↪ j] | a => failed a end.

Definition generate_report_node (w : WorkflowState) (a : answer) : result (list entry) :=
  _ ← need k_report_evidence w;
  match a with
  | GotReport markdown artifact => Ok [k_report_markdown ↪ markdown; k_report_artifact_id ↪ uuid_str artifact]
  | a => failed a
  end.

Definition commit_success_node (w : WorkflowState) (a : answer) : result (list entry) :=
  _ ← need k_report_markdown w;
  match a with ServiceDone => Ok [k_phase ↪ SUCCEEDED] | a => failed a end.

Definition commit_terminal (status : TaskStatus) (message : string) (a : answer) : result (list entry) :=
  match a with ServiceDone => Ok [k_phase ↪ status; k_terminal_message ↪ message] | a => failed a end.

Definition commit_rejected_node (w : WorkflowState) (a : answer) : result (list entry) :=
  commit_terminal TASK_REJECTED "실행 계획이 거절되어 작업을 종료했습니다." a.

Definition commit_blocked_node (w : WorkflowState) (a : answer) : result (list entry) :=
  review ← (match w k_code_risk with Some r => Ok r | None => need k_request_risk w end);
  commit_terminal TASK_FAILED ("위험 판정으로 작업을 차단했습니다: " +:+ rv_summary review) a.

Definition commit_failed_node (w : WorkflowState) (a : answer) : result (list entry) :=
  r ← need k_executor_reconciliation w;
  commit_terminal TASK_FAILED
    (if String.eqb (or_else (er_error_message r) "") "" then "코드 실행에 실패했습니다." else or_else (er_error_message r) "") a.

Definition commit_cancelled_node (w : WorkflowState) (a : answer) : result (list entry) :=
  commit_terminal CANCELLED "Executor 취소 완료를 확인했습니다." a.

(** [getattr(WorkflowNodes(services), name)] *)
Definition business_node (n : node) (w : WorkflowState) (a : answer) : result (list entry) :=
  match n with
  | hydrate_turn => hydrate_turn_node w a
  | classify_intent => classify_intent_node w a
  | clarify_request => clarify_request_node w a
  | answer_general | answer_data_question => answer_node w a
  | commit_answer => commit_answer_node w a
  | choose_execution_mode => choose_execution_mode_node w a
  | review_request_risk => review_request_risk_node w a
  | confirm_request_risk => confirm_request_risk_node w a
  | search_workflows => search_workflows_node w a
  | choose_workflow => choose_workflow_node w a
  | load_selected_workflow => load_selected_workflow_node w a
  | build_plan => build_plan_node w a
  | compile_and_persist_plan => compile_and_persist_plan_node w a
  | review_compiled_code_risk => review_compiled_code_risk_node w a
  | review_plan => review_plan_node w a
  | verify_approval => verify_approval_node w a
  | submit_execution => submit_execution_node w a
  | reconcile_executor => reconcile_executor_node w a
  | adapt_multi_plan => adapt_multi_plan_node w a
  | append_operation => append_operation_node w a
  | finalize_execution => finalize_execution_node w a
  | cancel_execution => cancel_execution_node w a
  | build_report_evidence => build_report_evidence_node w a
  | generate_report => generate_report_node w a
  | commit_success => commit_success_node w a
  | commit_rejected => commit_rejected_node w a
  | commit_blocked => commit_blocked_node w a
  | commit_failed => commit_failed_node w a
  | commit_cancelled => commit_cancelled_node w a
  | _ => Err (KeyError "no business node")
  end.

(** ** Nodes of the session ([agent/graph/nodes.py]) *)

(** [turn.model_dump()] as a workflow state. *)
Definition turn_state (u : TaskTurn) : WorkflowState :=
  merged [k_user_id ↪ t_user_id u; k_project_id ↪ t_project_id u; k_session_id ↪ t_session_id u;
          k_active_task_id ↪ t_active_task_id u; k_current_input_message_id ↪ t_current_input_message_id u;
          k_user_message ↪ t_user_message u; k_runtime_profile ↪ t_runtime_profile u] (λ _, None).

Definition task_of (g : GraphState) : result string :=
  from_option_err (KeyError "'active_task_id'") (gs_active_task_id g).
Definition workflow_of (g : GraphState) : result WorkflowState :=
  from_option_err (KeyError "'workflow'") (gs_workflow g).

(** The turn of the task that begins; [fingerprint] hashes a turn. *)
Context (fingerprint : TaskTurn → string).

(** [begin_task]; [thread] is the thread of the invocation. *)
Definition begin_task_node (thread : string) (g : GraphState) : result GraphState :=
  u ← from_option_err (KeyError "'turn'") (gs_turn g);
  validate_turn u;;
  raise_if (negb (String.eqb thread (t_session_id u))) (ValueError "thread_id must equal session_id");;
  raise_if (negb (same_or_absent (gs_session_id g) (t_session_id u) && same_or_absent (gs_user_id g) (t_user_id u) &&
                  same_or_absent (gs_project_id g) (t_project_id u))) (ValueError "Session ownership cannot change");;
  match gs_workflow g with
  | Some w => phase ← need k_phase w;
      raise_if (negb (is_terminal phase)) (ValueError "The session already has an unfinished task")
  | None => Ok tt
  end;;
  raise_if (bool_decide (is_Some (gs_task_requests g !! t_active_task_id u))) (ValueError "Task ID has already been admitted");;
  Ok (mk_graph (Some u) (Some (t_user_id u)) (Some (t_project_id u)) (Some (t_session_id u)) (Some (t_active_task_id u)) ""
        (Some (merged [k_phase ↪ ACCEPTED] (turn_state u)))
        (add_message (t_current_input_message_id u) (t_user_message u) (gs_messages g))
        (<[t_active_task_id u := fingerprint u]> (gs_task_requests g)) (JObj []) (gs_ew_receipts g) (gs_ew_sequences g) ∅).

(** [state.get(a) or state.get(b) or state.get(c)] *)
Definition first_text (l : list (option string)) : option string :=
  List.find (λ s, negb (String.eqb s "")) (omap id l).

Definition set_workflow_state (execution_id : string) (w : WorkflowState) (messages : list (string * string)) (g : GraphState)
    : GraphState :=
  mk_graph (gs_turn g) (gs_user_id g) (gs_project_id g) (gs_session_id g) (gs_active_task_id g) execution_id (Some w) messages
    (gs_task_requests g) (gs_ew_pending g) (gs_ew_receipts g) (gs_ew_sequences g) (gs_invocation_owner g).

(** [lift_node] *)
Definition lift_node (n : node) (a : answer) (g : GraphState) : result GraphState :=
  w ← workflow_of g;
  us ← business_node n w a;
  let w' := merged us w in
  phase ← need k_phase w';
  messages ← (if is_terminal phase then
      match first_text [w' k_terminal_message; w' k_report_markdown; w' k_answer] with
      | Some m => t ← task_of g; Ok (add_message ("task:" +:+ t +:+ ":result") m (gs_messages g))
      | None => Ok (gs_messages g)
      end
    else Ok (gs_messages g));
  Ok (set_workflow_state (default "" (w' k_execution_id)) w' messages g).

Definition set_events (pending : json) (receipts : gmap string string) (sequences : gmap string Z)
    (owner : gmap string string) (w : option WorkflowState) (g : GraphState) : GraphState :=
  mk_graph (gs_turn g) (gs_user_id g) (gs_project_id g) (gs_session_id g) (gs_active_task_id g) (gs_execution_id g) w
    (gs_messages g) (gs_task_requests g) pending receipts sequences owner.

(** [register_execution] *)
Definition register_execution_node (a : answer) (g : GraphState) : result GraphState :=
  _ ← from_option_err badly_formed (uuid_parse (gs_execution_id g));
  _ ← task_of g;
  match a with
  | ServiceDone =>
      Ok (set_events (gs_ew_pending g) (gs_ew_receipts g)
            (<[gs_execution_id g := default 0 (gs_ew_sequences g !! gs_execution_id g)]> (gs_ew_sequences g))
            (gs_invocation_owner g) (gs_workflow g) g)
  | a => failed a
  end.

(** [action["key"]] *)
Definition item (k : string) (j : json) : result json := from_option_err (KeyError k) (jget k j).
Definition text_item (k : string) (j : json) : result string :=
  v ← item k j;
  match v with JStr s => Ok s | _ => Err (OtherException "AttributeError" "object has no attribute 'replace'") end.

(** [ExecutorBoundarySignal.model_validate] of the event's own fields. *)
Definition boundary_of (e : ExecutorEvent) : result ResumeSignal :=
  if (String.eqb (event_type e) "execution.operation_completed" || String.eqb (event_type e) "execution.completed") &&
     (1 <=? event_sequence e)
  then Ok (ExecutorBoundarySignal (ev_execution_id e) (event_id e) (event_sequence e) (event_type e))
  else Err (ValueError "ExecutorBoundarySignal").

Definition is_cancel_action (j : json) : bool := is_dict j && bool_decide (jget "type" j = Some (JStr "CANCEL_REQUESTED")).

(** [WorkerBoundaryNodes.wait_external_signal] *)
Definition wait_external_signal_node (a : answer) (g : GraphState) : result GraphState :=
  task ← task_of g;
  match a with
  | Resumed action =>
      if is_cancel_action action then
        signal ← validate_resume_signal action;
        match signal with
        | CancelRequestedSignal t _ =>
            raise_if (negb (String.eqb (uuid_str t) task)) (ValueError "Cancel task identity mismatch");;
            w ← workflow_of g;
            Ok (set_events (JObj []) (gs_ew_receipts g) (gs_ew_sequences g) (gs_invocation_owner g)
                  (Some (put k_external_signal signal w)) g)
        | _ => Err (ValueError "CancelRequestedSignal is required")
        end
      else
        raise_if (negb (is_dict action && bool_decide (jget "task_id" action = Some (JStr task))))
          (ValueError "Invalid worker action task identity");;
        command ← text_item "command_id" action;
        _ ← from_option_err badly_formed (uuid_parse command);
        raw ← item "event" action;
        event ← model_validate raw;
        raise_if (negb (String.eqb (uuid_str (ev_execution_id event)) (gs_execution_id g)))
          (ValueError "Invalid worker action execution identity");;
        raise_if (event_sequence event <=? default 0 (gs_ew_sequences g !! gs_execution_id g))
          (ValueError "Worker action sequence is already applied");;
        boundary ← boundary_of event;
        w ← workflow_of g;
        Ok (set_events action (gs_ew_receipts g) (gs_ew_sequences g) {["source" := "EXECUTOR"; "id" := command]}
              (Some (put k_external_signal boundary w)) g)
  | a => failed a
  end.

(** [WorkerBoundaryNodes.record_event_receipt] *)
Definition record_event_receipt_node (a : answer) (g : GraphState) : result GraphState :=
  match a with
  | ServiceDone =>
      let action := gs_ew_pending g in
      raw ← item "event" action;
      event ← model_validate raw;
      command ← text_item "command_id" action;
      Ok (set_events action (<[command := uuid_str (event_id event)]> (gs_ew_receipts g))
            (<[uuid_str (ev_execution_id event) := event_sequence event]> (gs_ew_sequences g))
            (gs_invocation_owner g) (gs_workflow g) g)
  | a => failed a
  end.

(** The node that [build_session_graph] installs under a name. *)
Definition run_node (thread : string) (n : node) (a : answer) (g : GraphState) : result GraphState :=
  match n with
  | begin_task => begin_task_node thread g
  | register_execution => register_execution_node a g
  | wait_external_signal => wait_external_signal_node a g
  | record_event_receipt => record_event_receipt_node a g
  | failure_settled => Ok g
  | n => lift_node n a g
  end.

(** ** Routes *)

Definition route_intent (w : WorkflowState) : result node :=
  d ← need k_intent_decision w;
  if id_requires_clarification d then Ok clarify_request else
  match id_intent d with
  | GENERAL_QA => Ok answer_general
  | DATA_ANALYSIS_QA => Ok answer_data_question
  | DATA_ANALYSIS_EXECUTION => Ok review_request_risk
  | CODE_EXECUTION =>
      match id_requested_execution_mode d with Some _ => Ok review_request_risk | None => Ok choose_execution_mode end
  end.

Definition route_request_risk (w : WorkflowState) : result node :=
  r ← need k_request_risk w;
  if bool_decide (rv_level r = CRITICAL) then Ok commit_blocked else
  if bool_decide (rv_level r = HIGH) && negb (default false (w k_risk_acknowledged)) then Ok confirm_request_risk else
  d ← need k_intent_decision w;
  if bool_decide (id_intent d = DATA_ANALYSIS_EXECUTION) then Ok search_workflows else Ok build_plan.

Definition route_workflow_search (w : WorkflowState) : result node :=
  match w k_workflow_candidates with Some (_ :: _) => Ok choose_workflow | _ => Ok build_plan end.

(** [bool(state.get(key))] of a string *)
Definition has_text (o : option string) : bool := negb (String.eqb (or_else o "") "").

Definition route_workflow_decision (w : WorkflowState) : result node :=
  Ok (if has_text (w k_selected_workflow_version_id) then load_selected_workflow else build_plan).

Definition route_code_risk (w : WorkflowState) : result node :=
  r ← need k_code_risk w;
  if bool_decide (rv_level r = CRITICAL) then Ok commit_blocked else
  kind ← need k_planning_kind w;
  if bool_decide (kind = FIXED_WORKFLOW) then
    if bool_decide (rv_level r = HIGH) && negb (default false (w k_risk_acknowledged)) then Ok review_plan
    else Ok verify_approval
  else Ok review_plan.

Definition route_plan_review (w : WorkflowState) : result node :=
  action ← need k_review_action w;
  Ok (if String.eqb action "REVISE" then build_plan else if String.eqb action "REJECT" then commit_rejected else verify_approval).

Definition route_approved_execution (w : WorkflowState) : result node :=
  Ok (if has_text (w k_execution_id) then append_operation else submit_execution).

Definition route_external_signal (w : WorkflowState) : result node :=
  signal ← need k_external_signal w; Ok (if is_cancel signal then cancel_execution else reconcile_executor).

Definition route_reconciliation (w : WorkflowState) : result node :=
  r ← need k_executor_reconciliation w;
  match er_outcome r with
  | O_WAITING => Ok wait_external_signal
  | O_SUCCEEDED => Ok build_report_evidence
  | O_CANCELLED => Ok commit_cancelled
  | outcome =>
      mode ← need k_execution_mode w;
      Ok (if bool_decide (mode = MULTI) && (bool_decide (outcome = OPERATION_SUCCEEDED) || bool_decide (outcome = OPERATION_FAILED))
          then adapt_multi_plan else commit_failed)
  end.

Definition route_multi_action (w : WorkflowState) : result node :=
  action ← need k_multi_action w;
  Ok (match action with
      | APPEND_STEP => append_operation
      | REQUIRE_REAPPROVAL => compile_and_persist_plan
      | FINALIZE => finalize_execution
      | M_FAIL => commit_failed
      end).

(** ** Topology *)

Inductive place := START | END | At (n : node).
#[local] Instance place_eq_dec : EqDecision place.
Proof. solve_decision. Defined.

Definition NODES : list node :=
  [hydrate_turn; classify_intent; clarify_request; answer_general; answer_data_question; commit_answer;
   choose_execution_mode; review_request_risk; confirm_request_risk; search_workflows; choose_workflow;
   load_selected_workflow; build_plan; compile_and_persist_plan; review_compiled_code_risk; review_plan; verify_approval;
   submit_execution; wait_external_signal; reconcile_executor; adapt_multi_plan; append_operation; finalize_execution;
   cancel_execution; build_report_evidence; generate_report; commit_success; commit_rejected; commit_blocked;
   commit_failed; commit_cancelled].

Definition EDGES : list (place * place) :=
  [(START, At hydrate_turn); (At hydrate_turn, At classify_intent); (At clarify_request, At classify_intent);
   (At answer_general, At commit_answer); (At answer_data_question, At commit_answer); (At commit_answer, END);
   (At choose_execution_mode, At review_request_risk); (At build_plan, At compile_and_persist_plan);
   (At compile_and_persist_plan, At review_compiled_code_risk); (At load_selected_workflow, At review_compiled_code_risk);
   (At submit_execution, At wait_external_signal); (At append_operation, At wait_external_signal);
   (At finalize_execution, At wait_external_signal); (At cancel_execution, At wait_external_signal);
   (At build_report_evidence, At generate_report); (At generate_report, At commit_success);
   (At commit_success, END); (At commit_rejected, END); (At commit_blocked, END); (At commit_failed, END);
   (At commit_cancelled, END)].

Definition ROUTES : list (node * (WorkflowState → result node)) :=
  [(classify_intent, route_intent); (review_request_risk, route_request_risk); (confirm_request_risk, route_request_risk);
   (search_workflows, route_workflow_search); (choose_workflow, route_workflow_decision);
   (review_compiled_code_risk, route_code_risk); (review_plan, route_plan_review);
   (verify_approval, route_approved_execution); (wait_external_signal, route_external_signal);
   (reconcile_executor, route_reconciliation); (adapt_multi_plan, route_multi_action)].

(** The edges that [build_session_graph] adds. *)
Definition lifted_edge (e : place * place) : list (place * place) :=
  if bool_decide (e.1 = START) then []
  else if bool_decide (e.1 = At submit_execution) then [(e.1, At register_execution); (At register_execution, e.2)]
  else [e].
Definition session_edges : list (place * place) :=
  [(At failure_settled, END); (START, At begin_task); (At begin_task, At hydrate_turn)] ++
  concat (map lifted_edge EDGES) ++ [(At reconcile_executor, At record_event_receipt)].
Definition session_routes : list (node * (WorkflowState → result node)) :=
  map (λ nr, (if bool_decide (nr.1 = reconcile_executor) then record_event_receipt else nr.1, nr.2)) ROUTES.

Definition edge_from (p : place) : option place :=
  snd <$> List.find (λ e : place * place, bool_decide (e.1 = p)) session_edges.
Definition route_from (n : node) : option (WorkflowState → result node) :=
  snd <$> List.find (λ nr : node * (WorkflowState → result node), bool_decide (nr.1 = n)) session_routes.

(** Where the graph goes after a node. *)
Definition successor (n : node) (g : GraphState) : result place :=
  match edge_from (At n) with
  | Some p => Ok p
  | None =>
      match route_from n with
      | Some route => w ← workflow_of g; n' ← route w; Ok (At n')
      | None => Ok END
      end
  end.

(** ** Runs of a session

    What a checkpoint holds, with the answers of the current task's nodes. *)
Record session := mk_session {
  ss_state : GraphState;
  ss_next : option node;
  ss_trace : list (node * answer)
}.

Definition pending (p : place) : option node := match p with At n => Some n | _ => None end.

Definition super_step (thread : string) (n : node) (a : answer) (s : session) : result session :=
  g ← run_node thread n a (ss_state s);
  p ← successor n g;
  Ok (mk_session g (pending p) (ss_trace s ++ [(n, a)])).

(** [graph.ainvoke({"turn": ...})] on a session at rest. *)
Definition with_turn (u : TaskTurn) (g : GraphState) : GraphState :=
  mk_graph (Some u) (gs_user_id g) (gs_project_id g) (gs_session_id g) (gs_active_task_id g) (gs_execution_id g) (gs_workflow g)
    (gs_messages g) (gs_task_requests g) (gs_ew_pending g) (gs_ew_receipts g) (gs_ew_sequences g) (gs_invocation_owner g).

(** The update of [settle_graph], after which the graph is at rest. *)
Definition settled_state (u : TaskTurn) (task_id execution_id : string) (status : TaskStatus) (message : string)
    (g : GraphState) : GraphState :=
  let base := if bool_decide (gs_active_task_id g = Some task_id) then default (λ _, None) (gs_workflow g) else turn_state u in
  let w := merged ([k_phase ↪ status; k_terminal_message ↪ message] ++
                   (if String.eqb execution_id "" then [] else [k_execution_id ↪ execution_id])) base in
  mk_graph (Some u) (Some (t_user_id u)) (Some (t_project_id u)) (Some (t_session_id u)) (Some task_id) execution_id (Some w)
    (add_message ("task:" +:+ task_id +:+ ":result") message
       (add_message (t_current_input_message_id u) (t_user_message u) (gs_messages g)))
    (<[task_id := fingerprint u]> (gs_task_requests g)) (JObj []) (gs_ew_receipts g)
    (if String.eqb execution_id "" then gs_ew_sequences g
     else <[execution_id := default 0 (gs_ew_sequences g !! execution_id)]> (gs_ew_sequences g))
    {["source" := "FAILURE"; "id" := task_id]}.

Inductive session_step (thread : string) : session → session → Prop :=
| session_start u s : ss_next s = None →
    session_step thread s (mk_session (with_turn u (ss_state s)) (Some begin_task) [])
| session_node n a s s' : ss_next s = Some n → super_step thread n a s = Ok s' → session_step thread s s'
| session_settled u task_id execution_id status message s : is_terminal status = true →
    session_step thread s (mk_session (settled_state u task_id execution_id status message (ss_state s)) None (ss_trace s)).

Definition empty_session : session := mk_session empty_graph None [].
Definition session_reachable (thread : string) : session → Prop := rtc (session_step thread) empty_session.
End Nodes.

(** ** What the interrupts show *)
Section Interrupts.
Context (plan_json : PlanDraft → json) (contract_json : list (string * input_spec) → json).

Definition risk_level_value (l : RiskLevel) : string :=
  match l with LOW => "LOW" | MEDIUM => "MEDIUM" | HIGH => "HIGH" | CRITICAL => "CRITICAL" end.

Definition risk_json (r : RiskReview) : json :=
  JObj [("categories", JArr (map JStr (rv_categories r))); ("evidence", JArr (map JStr (rv_evidence r)));
        ("level", JStr (risk_level_value (rv_level r))); ("recommended_action", JStr (rv_recommended_action r));
        ("summary", JStr (rv_summary r))].

Definition candidate_json (c : ReviewedCandidate) : json :=
  let k := rc_candidate c in
  JObj [("description", JStr (cd_description k)); ("input_contract", contract_json (cd_input_contract k));
        ("name", JStr (cd_name k)); ("plan", plan_json (cd_plan k));
        ("public_payload_hash", JStr (cd_public_payload_hash k)); ("risk", from_option risk_json JNull (rc_risk c));
        ("score", JFloat (cd_score k)); ("workflow_version_id", JStr (uuid_str (cd_workflow_version_id k)))].

(** The value a business node interrupts with. *)
Definition boundary (n : node) (w : WorkflowState) : result json :=
  task ← need k_active_task_id w;
  match n with
  | clarify_request =>
      d ← need k_intent_decision w;
      Ok (JObj [("kind", JStr "CLARIFICATION"); ("question", from_option JStr JNull (id_clarification_question d));
                ("task_id", JStr task)])
  | choose_execution_mode =>
      Ok (JObj [("kind", JStr "EXECUTION_MODE"); ("options", JArr [JStr "SINGLE"; JStr "MULTI"]); ("task_id", JStr task)])
  | confirm_request_risk =>
      r ← need k_request_risk w;
      Ok (JObj [("kind", JStr "REQUEST_RISK_CONFIRMATION"); ("risk", risk_json r); ("task_id", JStr task)])
  | choose_workflow =>
      proposal ← need k_workflow_proposal_version w;
      candidates ← need k_workflow_candidates w;
      Ok (JObj [("candidates", JArr (map candidate_json candidates));
                ("dynamic_execution_mode", JStr (mode_value (default MULTI (w k_execution_mode))));
                ("kind", JStr "WORKFLOW_SELECTION"); ("proposal_version", JInt proposal); ("task_id", JStr task)])
  | review_plan =>
      revision ← need k_plan_revision_id w;
      number ← need k_plan_revision_number w;
      hash ← need k_plan_public_payload_hash w;
      plan ← need k_plan w;
      risk ← need k_code_risk w;
      Ok (JObj [("kind", JStr "PLAN_REVIEW"); ("plan", plan_json plan); ("plan_revision_id", JStr revision);
                ("plan_revision_number", JInt number); ("public_payload_hash", JStr hash); ("risk", risk_json risk);
                ("task_id", JStr task)])
  | _ => Err (ValueError "the node does not interrupt")
  end.
End Interrupts.
