(* ===== verification/SessionGraphInv.v ===== *)
(** * Invariants of the session graph

    What holds at each node the graph may be about to run: the phase of the
    task, and which decision of the user covers the plan it works on. *)

From stdpp Require Import base gmap strings list relations.
From Stdlib Require Import ZArith Lia.
From S2P Require Import Prelude Text Session AgentTables Plans Templates WorkflowTables PlanStore Workflows WorkerContracts GraphState SessionGraph.
Local Open Scope Z_scope.
Local Open Scope graph_scope.
Set Default Proof Using "Type".

(** Inversion of a computation that came back with a value. *)
Ltac ok_inv H :=
  lazymatch type of H with
  | Ok _ = Ok _ => injection H as H; try subst
  | (raise_if _ _;; _) = Ok _ => apply raise_if_then in H as [? H]; ok_inv H
  | raise_if _ _ = Ok _ => apply raise_if_Ok in H
  | _ ≫= _ = Ok _ => apply result_bind_Ok in H as (? & ? & H); ok_inv H
  | failed _ = Ok _ => discriminate H
  | Err _ = Ok _ => discriminate H
  | context [match ?x with _ => _ end] => destruct x eqn:?; ok_inv H
  | _ => idtac
  end.

(** An invariant of the steps holds after every run. *)
Lemma rtc_invariant {A} (R : relation A) (P : A → Prop) x y :
  (∀ x y, P x → R x y → P y) → P x → rtc R x y → P y.
Proof. intros HR Hx. induction 1 as [|x y z Hs _ IH]; [done|]. apply IH. by eapply HR. Qed.

(** ** The compiled graph *)

(** Where each node leads; the routes are evaluated on the new state. *)
Lemma successor_eq n g : successor n g =
  let on (route : WorkflowState → result node) := w ← workflow_of g; n' ← route w; Ok (At n') in
  match n with
  | begin_task => Ok (At hydrate_turn)
  | hydrate_turn | clarify_request => Ok (At classify_intent)
  | classify_intent => on route_intent
  | answer_general | answer_data_question => Ok (At commit_answer)
  | choose_execution_mode => Ok (At review_request_risk)
  | review_request_risk | confirm_request_risk => on route_request_risk
  | search_workflows => on route_workflow_search
  | choose_workflow => on route_workflow_decision
  | build_plan => Ok (At compile_and_persist_plan)
  | load_selected_workflow | compile_and_persist_plan => Ok (At review_compiled_code_risk)
  | review_compiled_code_risk => on route_code_risk
  | review_plan => on route_plan_review
  | verify_approval => on route_approved_execution
  | submit_execution => Ok (At register_execution)
  | register_execution | append_operation | finalize_execution | cancel_execution => Ok (At wait_external_signal)
  | wait_external_signal => on route_external_signal
  | reconcile_executor => Ok (At record_event_receipt)
  | record_event_receipt => on route_reconciliation
  | adapt_multi_plan => on route_multi_action
  | build_report_evidence => Ok (At generate_report)
  | generate_report => Ok (At commit_success)
  | commit_answer | commit_success | commit_rejected | commit_blocked | commit_failed | commit_cancelled
  | failure_settled => Ok END
  end.
Proof. by destruct n. Qed.

Section Invariants.
Context `{EventCodec} (validate_resume_signal : json → result ResumeSignal) (container_str : json → string).
Context (sha256 : string → string) (pformat : json → string) (validate_custom_source : string → result unit)
  (registry : list (string * ToolManifest)) (correction_limit : Z) (fingerprint : TaskTurn → string) (thread : string).

Abbreviation business_node := (business_node validate_resume_signal container_str sha256 pformat validate_custom_source registry correction_limit).
Abbreviation run_node := (run_node validate_resume_signal container_str sha256 pformat validate_custom_source registry correction_limit fingerprint thread).
Abbreviation super_step := (super_step validate_resume_signal container_str sha256 pformat validate_custom_source registry correction_limit fingerprint thread).
Abbreviation session_step := (session_step validate_resume_signal container_str sha256 pformat validate_custom_source registry correction_limit fingerprint thread).
Abbreviation session_reachable := (session_reachable validate_resume_signal container_str sha256 pformat validate_custom_source registry correction_limit fingerprint thread).

(** What a node does to the workflow state. *)
Definition node_update (n : node) (a : answer) (w : WorkflowState) (us : list entry) : Prop :=
  match n with
  | begin_task | failure_settled => False
  | register_execution | record_event_receipt => us = []
  | wait_external_signal => ∃ signal, us = [k_external_signal ↪ signal]
  | n => business_node n w a = Ok us
  end.

Lemma run_node_workflow n a g g' : run_node n a g = Ok g' →
  (n = begin_task ∧ ∃ u, gs_workflow g' = Some (merged [k_phase ↪ ACCEPTED] (turn_state u))) ∨
  (n = failure_settled ∧ g' = g) ∨
  (n ≠ begin_task ∧ n ≠ failure_settled ∧
   (((n = register_execution ∨ n = record_event_receipt) ∧ gs_workflow g' = gs_workflow g) ∨
    ∃ w us, gs_workflow g = Some w ∧ node_update n a w us ∧ gs_workflow g' = Some (merged us w))).
Proof.
  assert (Hlift : lift_node validate_resume_signal container_str sha256 pformat validate_custom_source registry correction_limit n a g = Ok g' →
    ∃ w us, gs_workflow g = Some w ∧ business_node n w a = Ok us ∧ gs_workflow g' = Some (merged us w)).
  { unfold lift_node, workflow_of. intros E. destruct (gs_workflow g) as [w|]; [|discriminate E]. exists w.
    cbn [from_option_err] in E. apply result_bind_Ok in E as (? & [= <-] & E).
    apply result_bind_Ok in E as (us & Hus & E). exists us.
    apply result_bind_Ok in E as (? & _ & E). apply result_bind_Ok in E as (? & _ & E). injection E as <-. done. }
  intros E. destruct n; try (right; right; split_and!; [done..|right; apply Hlift, E]).
  - right; right. split_and!; [done..|]. right. cbn [SessionGraph.run_node] in E. unfold wait_external_signal_node, workflow_of in E.
    ok_inv E; match goal with Hw : from_option_err _ (gs_workflow g) = Ok _ |- _ =>
      destruct (gs_workflow g) as [w|]; [|discriminate Hw]; injection Hw as -> end; eexists _, [_ ↪ _]; (split_and!; [done|by eexists|done]).
  - left. split; [done|]. cbn [SessionGraph.run_node] in E. unfold begin_task_node in E. ok_inv E; eexists; reflexivity.
  - right; right. split_and!; [done..|]. left. split; [by auto|]. cbn [SessionGraph.run_node] in E.
    unfold register_execution_node in E. ok_inv E; done.
  - right; right. split_and!; [done..|]. left. split; [by auto|]. cbn [SessionGraph.run_node] in E.
    unfold record_event_receipt_node in E. ok_inv E; done.
  - right; left. by injection E as <-.
Qed.

(** Unfolds the business node [n] in [H] down to the entries it wrote. *)
Ltac business_inv H :=
  cbn [SessionGraph.business_node] in H;
  unfold hydrate_turn_node, classify_intent_node, clarify_request_node, answer_node, commit_answer_node,
    choose_execution_mode_node, review_request_risk_node, confirm_request_risk_node, search_workflows_node,
    choose_workflow_node, load_selected_workflow_node, build_plan_node, compile_and_persist_plan_node,
    review_compiled_code_risk_node, review_plan_node, verify_approval_node, submit_execution_node,
    reconcile_executor_node, adapt_multi_plan_node, append_operation_node, finalize_execution_node,
    cancel_execution_node, build_report_evidence_node, generate_report_node, commit_success_node, commit_rejected_node,
    commit_blocked_node, commit_failed_node, commit_cancelled_node, commit_terminal, persist_plan in H;
  ok_inv H.

(** Evaluates the goal's reads of the state a node left. *)
Ltac entries :=
  unfold persisted_plan_updates; cbn [app];
  repeat match goal with
  | |- context [if bool_decide (er_outcome ?r = OPERATION_FAILED) then _ else _] =>
      destruct (bool_decide (er_outcome r = OPERATION_FAILED))
  | |- context [match id_intent ?d with _ => _ end] => destruct (id_intent d) eqn:?
  | |- context [match id_requested_execution_mode ?d with _ => _ end] => destruct (id_requested_execution_mode d) eqn:?
  | |- context [if ?b then [existT k_risk_acknowledged _] else _] => destruct b
  end;
  unfold merged; cbn [app foldl projT1 projT2]; wf_simpl.

(** ** The phase *)

Definition commits (n : node) : bool :=
  match n with
  | commit_answer | commit_success | commit_rejected | commit_blocked | commit_failed | commit_cancelled => true
  | _ => false
  end.

Lemma business_phase n w a us : business_node n w a = Ok us →
  match merged us w k_phase with
  | Some p => if commits n then is_terminal p = true else is_terminal p = false ∨ w k_phase = Some p
  | None => w k_phase = None
  end.
Proof.
  intros E. destruct n; cbn [commits]; try discriminate E; business_inv E;
    entries; try done;
    try (left; done); (destruct (w k_phase); [by right|done]).
Qed.

Definition at_rest (w : option WorkflowState) : Prop :=
  match w with Some w => ∃ p, w k_phase = Some p ∧ is_terminal p = true | None => True end.
Definition at_work (w : option WorkflowState) : Prop :=
  match w with Some w => ∃ p, w k_phase = Some p ∧ is_terminal p = false | None => False end.

Definition phase_ok (s : session) : Prop :=
  match ss_next s with
  | None | Some begin_task => at_rest (gs_workflow (ss_state s))
  | Some failure_settled => False
  | Some _ => at_work (gs_workflow (ss_state s))
  end.

Lemma business_nodes_go_on n g p : successor n g = Ok p → commits n = false → n ≠ failure_settled →
  ∃ n', p = At n' ∧ n' ≠ begin_task ∧ n' ≠ failure_settled.
Proof.
  rewrite successor_eq. cbv zeta. intros E Hc Hn.
  assert (Hr : ∀ route : WorkflowState → result node, (w ← workflow_of g; n' ← route w; Ok (At n')) = Ok p →
    (∀ w n', route w = Ok n' → n' ≠ begin_task ∧ n' ≠ failure_settled) →
    ∃ n', p = At n' ∧ n' ≠ begin_task ∧ n' ≠ failure_settled).
  { intros route E' Hroute. apply result_bind_Ok in E' as (w & _ & E'). apply result_bind_Ok in E' as (n' & Hn' & E').
    injection E' as <-. exists n'. split; [done|by eapply Hroute]. }
  destruct n; try discriminate Hc; try done;
    try (injection E as <-; by eexists);
    (eapply Hr; [exact E|]); intros w n' En;
    unfold route_intent, route_request_risk, route_workflow_search, route_workflow_decision, route_code_risk,
      route_plan_review, route_approved_execution, route_external_signal, route_reconciliation, route_multi_action in En;
    ok_inv En; split; repeat case_match; done.
Qed.

Lemma session_phase_ok s : session_reachable s → phase_ok s.
Proof.
  apply rtc_invariant; [|done]. clear s. intros s1 s2 IH Hstep.
  destruct Hstep as [u s Hn|n a s s' Hn E|u t x st m s Hst].
  - unfold phase_ok in *. rewrite Hn in IH. cbn. exact IH.
  - unfold SessionGraph.super_step in E. apply result_bind_Ok in E as (g & Hg & E).
    apply result_bind_Ok in E as (p & Hp & E). injection E as <-.
    unfold phase_ok in IH. rewrite Hn in IH.
    apply run_node_workflow in Hg as [(-> & u & Hw)|[(-> & _)|(Hb & Hf & Hw)]]; [|done|].
    { rewrite successor_eq in Hp. injection Hp as <-. unfold phase_ok. cbn. rewrite Hw.
      exists ACCEPTED. unfold merged. cbn. by wf_simpl. }
    assert (Hwork : at_work (gs_workflow (ss_state s))) by (by destruct n).
    destruct (commits n) eqn:Hc.
    + assert (p = END) as -> by (rewrite successor_eq in Hp; destruct n; try discriminate Hc; congruence).
      unfold phase_ok. cbn. destruct Hw as [[Hin _]|(w & us & Hw & Hu & Hw')]; [exfalso; by destruct Hin as [-> | ->]|].
      rewrite Hw in Hwork. destruct Hwork as (ph & Hph & _). rewrite Hw'.
      assert (Hbus : business_node n w a = Ok us) by (by destruct n).
      apply business_phase in Hbus. rewrite Hc in Hbus. destruct (merged us w k_phase) as [q|] eqn:Hq; [by exists q|congruence].
    + destruct (business_nodes_go_on _ _ _ Hp Hc Hf) as (n' & -> & Hb' & Hf'). unfold phase_ok. cbn.
      assert (at_work (gs_workflow g)) as Hg'; [|by destruct n'].
      destruct Hw as [[_ ->]|(w & us & Hw & Hu & ->)]; [done|]. rewrite Hw in Hwork. destruct Hwork as (ph & Hph & Hnt).
      destruct n; try done; cbn [node_update] in Hu;
        lazymatch type of Hu with
        | us = [] => subst us; exists ph; by split
        | ∃ _, _ => destruct Hu as [sig ->]; exists ph; unfold merged; cbn; by wf_simpl
        | _ => apply business_phase in Hu; cbn [commits] in Hu; red;
            destruct (merged us w k_phase) as [q|] eqn:Hq; [|congruence]; exists q; split; [done|destruct Hu; congruence]
        end.
  - unfold phase_ok. cbn. exists st. split; [|done]. unfold merged.
    destruct (String.eqb x ""); cbn; by wf_simpl.
Qed.

(** ** The decision that covers a plan *)

(** The user chose version [v], seeing [hash], with [inputs]. *)
Definition selected (tr : list (node * answer)) (v : uuid) (hash : string) (inputs : list (string * json)) (ack : bool) : Prop :=
  ∃ raw number, (choose_workflow, Resumed raw) ∈ tr ∧
    validate_resume_signal raw = Ok (WorkflowSelectionDecision (Some v) number hash inputs ack).

(** The plan of the state is the selected version's, with the user's inputs. *)
Definition from_selection (w : WorkflowState) (tr : list (node * answer)) (ack : bool) : Prop :=
  ∃ v hash inputs payload contract p plan,
    selected tr v hash inputs ack ∧ (load_selected_workflow, GotVersion payload contract hash p) ∈ tr ∧
    bind_workflow_inputs container_str payload contract inputs = Ok plan ∧
    w k_plan = Some plan ∧ w k_plan_revision_id = Some (uuid_str (pp_plan_revision_id p)).

(** The user approved the revision of the state. *)
Definition from_review (w : WorkflowState) (tr : list (node * answer)) (ack : bool) : Prop :=
  ∃ raw rid number hash feedback, (review_plan, Resumed raw) ∈ tr ∧
    validate_resume_signal raw = Ok (PlanReviewDecision APPROVE rid number hash feedback ack) ∧
    w k_plan_revision_id = Some (uuid_str rid) ∧ w k_plan_revision_number = Some number ∧
    w k_plan_public_payload_hash = Some hash.

(** The plan of the state is not critical, and the user agreed to it, knowing
    of a high risk. *)
Definition covered (w : WorkflowState) (tr : list (node * answer)) : Prop :=
  ∃ r ack, w k_code_risk = Some r ∧ rv_level r ≠ CRITICAL ∧ (rv_level r = HIGH → ack = true) ∧
    (from_review w tr ack ∨ from_selection w tr ack).

(** Some plan of the task was agreed to. *)
Definition approved_once (tr : list (node * answer)) : Prop :=
  (∃ v hash inputs ack, selected tr v hash inputs ack) ∨
  (∃ raw rid number hash feedback ack, (review_plan, Resumed raw) ∈ tr ∧
     validate_resume_signal raw = Ok (PlanReviewDecision APPROVE rid number hash feedback ack)).

Definition mode_matches (w : WorkflowState) : Prop :=
  ∃ plan, w k_plan = Some plan ∧ w k_execution_mode = Some (execution_mode plan).

Definition is_fixed (w : WorkflowState) : Prop := w k_planning_kind = Some FIXED_WORKFLOW.
Definition fixed_single (w : WorkflowState) : Prop := is_fixed w → w k_execution_mode = Some SINGLE.
Definition acted (w : WorkflowState) (d : PlanDecisionType) : Prop := w k_review_action = Some (decision_value d).

(** The selection as [choose_workflow] left it. *)
Definition selection_made (w : WorkflowState) (tr : list (node * answer)) : Prop :=
  ∃ v hash inputs ack c, selected tr v hash inputs ack ∧ (v < 2 ^ 128)%N ∧
    w k_selected_workflow_version_id = Some (uuid_str v) ∧ w k_workflow_input_values = Some inputs ∧
    w k_risk_acknowledged = Some ack ∧ proposed v (default [] (w k_workflow_candidates)) = Some c ∧
    cd_public_payload_hash (rc_candidate c) = hash.

(** What holds when [n] is about to run. *)
Definition good (n : node) (w : WorkflowState) (tr : list (node * answer)) : Prop :=
  match n with
  | hydrate_turn | classify_intent | clarify_request | choose_execution_mode | review_request_risk | confirm_request_risk
  | search_workflows | choose_workflow => ¬ is_fixed w
  | load_selected_workflow => w k_execution_mode = Some SINGLE ∧ acted w APPROVE ∧ selection_made w tr
  | build_plan | compile_and_persist_plan => is_fixed w → w k_execution_mode = Some SINGLE ∧ acted w REVISE
  | review_compiled_code_risk => is_fixed w → w k_execution_mode = Some SINGLE ∧
      (acted w REVISE ∨ acted w APPROVE ∧ ∃ ack, w k_risk_acknowledged = Some ack ∧ from_selection w tr ack)
  | review_plan => fixed_single w ∧ ∃ r, w k_code_risk = Some r ∧ rv_level r ≠ CRITICAL
  | verify_approval => fixed_single w ∧ (acted w APPROVE → covered w tr)
  | submit_execution => fixed_single w ∧ covered w tr ∧ mode_matches w
  | append_operation =>
      fixed_single w ∧ (covered w tr ∨ approved_once tr ∧ w k_execution_mode = Some MULTI ∧ w k_multi_action = Some APPEND_STEP)
  | adapt_multi_plan => fixed_single w ∧ approved_once tr ∧ w k_execution_mode = Some MULTI
  | register_execution | wait_external_signal | reconcile_executor | record_event_receipt | finalize_execution
  | cancel_execution => fixed_single w ∧ approved_once tr
  | _ => True
  end.

Lemma selected_mono tr l v hash inputs ack : selected tr v hash inputs ack → selected (tr ++ l) v hash inputs ack.
Proof. intros (raw & number & Hin & Hv). exists raw, number. split; [|done]. apply elem_of_app. by left. Qed.

Lemma approved_once_mono tr l : approved_once tr → approved_once (tr ++ l).
Proof.
  intros [(v & h & i & k & Hs)|(raw & r & n & h & f & k & Hin & Hv)].
  - left. exists v, h, i, k. by apply selected_mono.
  - right. exists raw, r, n, h, f, k. split; [|done]. apply elem_of_app. by left.
Qed.

Lemma from_selection_mono w w' tr l ack : w' k_plan = w k_plan → w' k_plan_revision_id = w k_plan_revision_id →
  from_selection w tr ack → from_selection w' (tr ++ l) ack.
Proof.
  intros E1 E2 (v & h & i & pl & ct & p & plan & Hs & Hin & Hb & Hp & Hr). exists v, h, i, pl, ct, p, plan.
  rewrite E1, E2. split_and!; [by apply selected_mono|apply elem_of_app; by left|done..].
Qed.

Lemma from_review_mono w w' tr l ack : w' k_plan_revision_id = w k_plan_revision_id →
  w' k_plan_revision_number = w k_plan_revision_number → w' k_plan_public_payload_hash = w k_plan_public_payload_hash →
  from_review w tr ack → from_review w' (tr ++ l) ack.
Proof.
  intros E1 E2 E3 (raw & r & n & h & f & Hin & Hv & Hrest). exists raw, r, n, h, f. rewrite E1, E2, E3.
  split_and!; [apply elem_of_app; by left|done|apply Hrest..].
Qed.

(** A node that touches neither the plan nor its review keeps the cover. *)
Lemma covered_mono us w tr l :
  Forall (λ k, k ∉ writes us) [k_code_risk; k_plan; k_plan_revision_id; k_plan_revision_number; k_plan_public_payload_hash] →
  covered w tr → covered (merged us w) (tr ++ l).
Proof.
  rewrite !Forall_cons. intros (H1 & H2 & H3 & H4 & H5 & _) (r & ack & Hr & Hc & Hh & Hd). exists r, ack.
  rewrite (merged_other _ _ _ H1). split_and!; [done..|].
  destruct Hd as [Hd|Hd]; [left|right].
  - eapply from_review_mono; [by apply merged_other..|exact Hd].
  - eapply from_selection_mono; [by apply merged_other..|exact Hd].
Qed.

Lemma covered_once w tr : covered w tr → approved_once tr.
Proof.
  intros (r & ack & _ & _ & _ & [(raw & rid & n & h & f & Hin & Hv & _)|(v & h & i & pl & ct & p & plan & Hs & _)]).
  - right. by exists raw, rid, n, h, f, ack.
  - left. by exists v, h, i, ack.
Qed.

(** Takes the route that led to the next node. *)
Ltac route_inv H :=
  unfold route_intent, route_request_risk, route_workflow_search, route_workflow_decision, route_code_risk,
    route_plan_review, route_approved_execution, route_external_signal, route_reconciliation, route_multi_action in H;
  ok_inv H.

(** Reads of the new state in the hypotheses and the goal. *)
Ltac reads := unfold merged in *; cbn [app foldl projT1 projT2] in *; wf_simpl.

Definition step_ok (n : node) : Prop := ∀ a w us g n' tr, good n w tr → node_update n a w us →
  gs_workflow g = Some (merged us w) → successor n g = Ok (At n') → good n' (merged us w) (tr ++ [(n, a)]).

Lemma on_route (route : WorkflowState → result node) w m :
  (w' ← Ok w; n' ← route w'; Ok (At n')) = Ok (At m) → route w = Ok m.
Proof. cbn. destruct (route w) as [x|]; [|discriminate 1]. by intros [= ->]. Qed.

(** Opens a step of a concrete node. *)
Ltac step_inv :=
  intros a w us g n' tr Hgood Hu Hw Hs; rewrite successor_eq in Hs; unfold workflow_of in Hs; rewrite ?Hw in Hs; clear Hw;
  cbn [from_option_err] in Hs; first [apply on_route in Hs|injection Hs as <-];
  cbn [node_update] in Hu; cbn [good] in Hgood.

(** A key that none of the entries writes. *)
Ltac unwritten :=
  unfold writes, persisted_plan_updates; cbn [map app projT1];
  repeat (apply not_elem_of_cons; split; [discriminate|]); apply not_elem_of_nil.

Lemma fixed_single_other us w : k_planning_kind ∉ writes us → k_execution_mode ∉ writes us →
  fixed_single w → fixed_single (merged us w).
Proof. unfold fixed_single, is_fixed. intros H1 H2. by rewrite !merged_other. Qed.

(** Conversation and request risk *)
Lemma early_steps n : n ∈ [hydrate_turn; classify_intent; clarify_request; choose_execution_mode; review_request_risk;
  confirm_request_risk; search_workflows] → step_ok n.
Proof.
  unfold step_ok. intros Hn. repeat (apply elem_of_cons in Hn as [->|Hn]; [|]); [step_inv..|by apply not_elem_of_nil in Hn];
    business_inv Hu; try route_inv Hs; cbn [good]; unfold is_fixed in *; entries; try done.
Qed.

Lemma resumed_Ok a signal : resumed validate_resume_signal a = Ok signal → ∃ raw, a = Resumed raw ∧ validate_resume_signal raw = Ok signal.
Proof. destruct a; try discriminate 1. eauto. Qed.

Lemma in_last (tr : list (node * answer)) x : x ∈ tr ++ [x].
Proof. apply elem_of_app. right. by apply list_elem_of_singleton. Qed.

Lemma check_selection_Ok v hash ack l u : check_selection v hash ack l = Ok u →
  ∃ c, proposed v l = Some c ∧ cd_public_payload_hash (rc_candidate c) = hash.
Proof.
  unfold check_selection. destruct (proposed v l) as [c|]; [|discriminate 1]. intros E.
  apply raise_if_then in E as [E _]. apply negb_false_iff, String.eqb_eq in E. by exists c.
Qed.

Lemma load_selected_workflow_step : step_ok load_selected_workflow.
Proof.
  step_inv. destruct Hgood as (Hm & Hact & v & hash & inputs & ack & c & Hsel & Hv & Hid & Hin & Hack & Hc & Hhash).
  business_inv Hu. cbn [good]. intros _. unfold acted in *.
  needs.
  repeat match goal with Hk : w k_selected_workflow_version_id = Some ?x, Hi : w k_selected_workflow_version_id = Some (uuid_str v) |- _ =>
    lazymatch x with uuid_str v => fail | _ => rewrite Hi in Hk; injection Hk as <- end end.
  match goal with Hp : from_option_err _ (uuid_parse _) = Ok _ |- _ => rewrite uuid_parse_str in Hp by done; injection Hp as <- end.
  match goal with Hr : proposed v _ = Some r |- _ => rewrite Hc in Hr; injection Hr as <- end.
  match goal with Hh : negb _ = false |- _ => apply negb_false_iff, String.eqb_eq in Hh as -> end.
  split; [by entries|]. right. split; [by entries|]. exists ack. split; [by entries|].
  match goal with Hb : bind_workflow_inputs _ _ _ _ = Ok ?plan |- _ => rewrite Hin in Hb; exists v, (cd_public_payload_hash (rc_candidate c)), inputs, payload, contract, p, plan end.
  split_and!; [by apply selected_mono|apply in_last|done|by entries..].
Qed.

(** A new or changed plan *)
Lemma plan_steps n : n ∈ [build_plan; compile_and_persist_plan] → step_ok n.
Proof.
  intros Hn. repeat (apply elem_of_cons in Hn as [->|Hn]; [|]); [step_inv..|by apply not_elem_of_nil in Hn];
    business_inv Hu; cbn [good]; unfold is_fixed, acted in *; entries; [done|].
  intros Hf. destruct (Hgood Hf) as [? ?]. by split; [|left].
Qed.

(** The review of the compiled code: only a plan chosen as a workflow, and
    not of a high risk the user does not know of, goes on by itself. *)
Lemma code_risk_step : step_ok review_compiled_code_risk.
Proof.
  step_inv. business_inv Hu. unfold route_code_risk in Hs. ok_inv Hs; needs; cbn [good]; reads; simplify_eq/=; unfold fixed_single, is_fixed, acted; wf_simpl;
    try done; try (split; [intros Hf; by destruct (Hgood Hf)|eexists; split; [done|by eapply bool_decide_eq_false_1]]).
  match goal with Hk : bool_decide (?k = FIXED_WORKFLOW) = true |- _ => apply bool_decide_eq_true in Hk as -> end.
  destruct (Hgood ltac:(assumption)) as [Hm Hact]. split; [done|]. intros Ha.
  destruct Hact as [Hact|(_ & ack & Hack & Hsel)]; unfold acted in *; [rewrite Hact in Ha; discriminate Ha|].
  exists x1, ack. wf_simpl. split_and!; [done|by eapply bool_decide_eq_false_1|..].
  - intros Hh. match goal with Hb : _ && _ = false |- _ => rewrite Hh, Hack in Hb; cbn in Hb; by destruct ack end.
  - right. eapply from_selection_mono; [| |exact Hsel]; by wf_simpl.
Qed.

(** The user's decision on a plan *)
Lemma route_plan_review_eq w d : acted w d → route_plan_review w =
  Ok (match d with APPROVE => verify_approval | REVISE => build_plan | REJECT => commit_rejected end).
Proof. unfold acted, route_plan_review, need. intros ->. by destruct d. Qed.

Lemma review_plan_step : step_ok review_plan.
Proof.
  step_inv. destruct Hgood as (Hf & r & Hr & Hc). business_inv Hu. needs.
  match goal with Hk : w k_code_risk = Some ?x, Hr : w k_code_risk = Some r |- _ =>
    lazymatch x with r => fail | _ => rewrite Hr in Hk; injection Hk as <- end end.
  repeat match goal with
  | Hk : negb (String.eqb _ _) = false |- _ => apply negb_false_iff, String.eqb_eq in Hk; match type of Hk with _ = ?y => subst y end
  | Hk : negb (_ =? _) = false |- _ => apply negb_false_iff, Z.eqb_eq in Hk; match type of Hk with _ = ?y => subst y end
  end.
  match goal with Hk : resumed _ a = Ok _ |- _ => apply resumed_Ok in Hk as (raw & -> & Hraw) end.
  rewrite (route_plan_review_eq _ decision) in Hs by (red; by entries). injection Hs as <-.
  assert (Hf' := fixed_single_other [k_review_action ↪ decision_value decision; k_revision_feedback ↪ or_else feedback "";
    k_risk_acknowledged ↪ risk_acknowledged] w ltac:(unwritten) ltac:(unwritten) Hf).
  destruct decision; cbn [good]; [|intros Hx; split; [by apply Hf'|red; by entries]|done].
  split; [exact Hf'|]. intros _. exists r, risk_acknowledged. split; [by entries|]. split; [done|]. split.
  - intros Hh. match goal with Hk : _ && _ && _ = false |- _ => cbn in Hk; rewrite Hh in Hk; cbn in Hk; by destruct risk_acknowledged end.
  - left. exists raw, plan_revision_id, plan_revision_number, public_payload_hash, feedback.
    split_and!; [apply in_last|done|by entries..].
Qed.

Lemma validate_mode_Ok w p u : validate_plan_execution_mode w p = Ok u → w k_execution_mode = Some (execution_mode p).
Proof.
  unfold validate_plan_execution_mode. intros E. apply result_bind_Ok in E as (m & Hm & E).
  apply (need_Ok k_execution_mode w) in Hm. destruct u.
  apply raise_if_Ok, negb_false_iff, bool_decide_eq_true in E. by rewrite Hm, E.
Qed.

(** Approval is checked once more, and the execution begins or goes on. *)
Lemma verify_approval_step : step_ok verify_approval.
Proof.
  step_inv. destruct Hgood as [Hf Hc]. business_inv Hu. needs.
  match goal with Ha : negb (bool_decide _) = false |- _ => apply negb_false_iff, bool_decide_eq_true in Ha; specialize (Hc Ha) end.
  match goal with Hm : validate_plan_execution_mode _ _ = Ok _ |- _ => apply validate_mode_Ok in Hm as Hmode end.
  assert (Hf' : fixed_single (merged [k_phase ↪ QUEUED_FOR_EXECUTION] w)) by (apply fixed_single_other; [unwritten..|done]).
  assert (Hc' : covered (merged [k_phase ↪ QUEUED_FOR_EXECUTION] w) (tr ++ [(verify_approval, ServiceDone)]))
    by (apply covered_mono; [repeat constructor; unwritten|done]).
  unfold route_approved_execution in Hs. injection Hs as <-. destruct (has_text _); cbn [good].
  - split; [done|by left].
  - split_and!; [done..|]. exists x. split; by entries.
Qed.

(** ** The execution *)
Lemma going_on us w tr l : k_planning_kind ∉ writes us → k_execution_mode ∉ writes us →
  fixed_single w ∧ approved_once tr → fixed_single (merged us w) ∧ approved_once (tr ++ l).
Proof. intros H1 H2 [Hf Ha]. split; [by apply fixed_single_other|by apply approved_once_mono]. Qed.

Lemma executing_steps n : n ∈ [submit_execution; append_operation; register_execution; reconcile_executor;
  finalize_execution; cancel_execution] → step_ok n.
Proof.
  intros Hn. repeat (apply elem_of_cons in Hn as [->|Hn]; [|]); [step_inv..|by apply not_elem_of_nil in Hn].
  all: assert (fixed_single w ∧ approved_once tr) as Ha by
    (destruct Hgood as [Hf Hg]; split; [done|]; first [done|apply (covered_once w), Hg|destruct Hg as [Hg|Hg]; [by eapply covered_once|apply Hg]]).
  3: subst us.
  all: try (business_inv Hu); (apply going_on; [unwritten..|done]).
Qed.

Lemma wait_step : step_ok wait_external_signal.
Proof.
  step_inv. destruct Hu as [signal ->].
  assert (fixed_single (merged [k_external_signal ↪ signal] w) ∧ approved_once (tr ++ [(wait_external_signal, a)])) as Hg
    by (apply going_on; [unwritten..|done]).
  unfold route_external_signal in Hs. ok_inv Hs; by destruct (is_cancel _).
Qed.

Lemma record_step : step_ok record_event_receipt.
Proof.
  step_inv. subst us. apply (going_on [] w tr [(record_event_receipt, a)]) in Hgood as [Hf Ha]; [|unwritten..].
  unfold route_reconciliation in Hs. ok_inv Hs; needs; cbn [good]; try done;
    match goal with |- context [bool_decide (?m = MULTI) && ?b] =>
      destruct (bool_decide (m = MULTI)) eqn:Hm; [destruct b|]; cbn; try exact I;
      apply bool_decide_eq_true in Hm; subst m; by split_and!
    end.
Qed.

Lemma adapt_step : step_ok adapt_multi_plan.
Proof.
  step_inv. destruct Hgood as (Hf & Ha & Hm).
  assert (Hfix : ¬ is_fixed w) by (intros Hx; rewrite (Hf Hx) in Hm; discriminate Hm).
  assert (Hkeep : k_planning_kind ∉ writes us ∧ k_execution_mode ∉ writes us).
  { business_inv Hu; destruct (bool_decide (er_outcome _ = _)); split; unwritten. }
  destruct Hkeep as [Hk1 Hk2].
  assert (Hf' : fixed_single (merged us w)) by (by apply fixed_single_other).
  assert (Hfix' : ¬ is_fixed (merged us w)) by (unfold is_fixed; by rewrite merged_other).
  unfold route_multi_action in Hs. ok_inv Hs; needs.
  match goal with |- good (match ?act with _ => _ end) _ _ => destruct act end; cbn [good]; try done.
  - split; [done|]. right. split_and!; [by apply approved_once_mono|by rewrite merged_other|done].
  - split; [done|by apply approved_once_mono].
Qed.

(** Nodes whose successors nothing is asked of *)
Lemma free_steps n : n ∈ [answer_general; answer_data_question; build_report_evidence; generate_report; commit_answer;
  commit_success; commit_rejected; commit_blocked; commit_failed; commit_cancelled; failure_settled] → step_ok n.
Proof.
  intros Hn. unfold step_ok. intros a w us g n' tr _ _ _ Hs. rewrite successor_eq in Hs.
  repeat (apply elem_of_cons in Hn as [->|Hn]; [by injection Hs as <- || discriminate Hs|]). by apply not_elem_of_nil in Hn.
Qed.

Context (signal_version_valid : ∀ raw v number hash inputs ack,
  validate_resume_signal raw = Ok (WorkflowSelectionDecision (Some v) number hash inputs ack) → (v < 2 ^ 128)%N).

Lemma choose_workflow_step : step_ok choose_workflow.
Proof using Type*.
  step_inv. business_inv Hu; route_inv Hs; cbn [good].
  - split; [by entries|]. split; [red; by entries|].
    match goal with Hr : resumed _ a = Ok _ |- _ => apply resumed_Ok in Hr as (raw & -> & Hraw) end.
    match goal with Hc : check_selection _ _ _ _ = Ok _ |- _ => apply check_selection_Ok in Hc as (c & Hc & Hh) end.
    needs. exists n, public_payload_hash, input_values, risk_acknowledged, c.
    split; [by exists raw, proposal_version; split; [apply in_last|]|]. split; [by eapply signal_version_valid|].
    split_and!; try (by entries). entries. by match goal with Hl : context [w k_workflow_candidates] |- _ => rewrite Hl end.
  - unfold is_fixed. by entries.
Qed.

Lemma every_step n : n ≠ begin_task → step_ok n.
Proof using Type*.
  intros Hn. destruct n; try done;
    first [apply choose_workflow_step|apply load_selected_workflow_step|apply code_risk_step|apply review_plan_step
          |apply verify_approval_step|apply wait_step|apply record_step|apply adapt_step
          |apply early_steps; solve [repeat constructor]|apply plan_steps; solve [repeat constructor]
          |apply executing_steps; solve [repeat constructor]|apply free_steps; solve [repeat constructor]].
Qed.

(** What the invariant says of a session. *)
Definition session_good (s : session) : Prop :=
  match ss_next s with
  | Some begin_task => True
  | Some n => ∃ w, gs_workflow (ss_state s) = Some w ∧ good n w (ss_trace s)
  | None => True
  end.

Lemma session_is_good s : session_reachable s → session_good s.
Proof using Type*.
  apply rtc_invariant; [|done]. clear s. intros s1 s2 IH Hstep.
  destruct Hstep as [u s Hn|n a s s' Hn E|]; [done| |done].
  unfold SessionGraph.super_step in E. apply result_bind_Ok in E as (g & Hg & E).
  apply result_bind_Ok in E as (p & Hp & E). injection E as <-. unfold session_good. cbn.
  apply run_node_workflow in Hg as [(-> & u & Hw)|[(-> & _)|(Hb & Hf & Hw)]].
  - rewrite successor_eq in Hp. injection Hp as <-. cbn. eexists. split; [exact Hw|]. unfold is_fixed, merged. cbn.
    unfold turn_state, merged. cbn. by wf_simpl.
  - rewrite successor_eq in Hp. by injection Hp as <-.
  - unfold session_good in IH. rewrite Hn in IH.
    assert (∃ w, gs_workflow (ss_state s) = Some w ∧ good n w (ss_trace s)) as (w & Hws & Hgood) by (by destruct n).
    destruct p as [| |n']; [done..|]. cbn.
    assert (∃ us, node_update n a w us ∧ gs_workflow g = Some (merged us w)) as (us & Hu & Hg).
    { destruct Hw as [[Hin Hw]|(w' & us & Hw' & Hu & Hw)]; [|exists us; by replace w with w' by congruence].
      exists []. split; [by destruct Hin as [-> | ->]|by rewrite Hw, Hws]. }
    assert (good n' (merged us w) (ss_trace s ++ [(n, a)])) by (by eapply every_step).
    destruct n'; try done; by eexists.
Qed.
End Invariants.
