(* ===== verification/SessionGraphProps.v ===== *)
(** * Properties of the session graph

    No plan is executed without the user's decision on it; a session rests
    exactly when its task has a result; events are applied once and in order;
    a decision that was admitted is accepted by the node that waits for it. *)

From stdpp Require Import base gmap strings list relations.
From Stdlib Require Import ZArith Lia.
From S2P Require Import Prelude Text Session AgentTables Plans Templates WorkflowTables PlanStore Workflows WorkerContracts GraphState SessionGraph SessionGraphInv.
Local Open Scope Z_scope.
Local Open Scope graph_scope.
Set Default Proof Using "Type".

Section Properties.
Context `{EventCodec} (validate_resume_signal : json → result ResumeSignal) (container_str : json → string).
Context (sha256 : string → string) (pformat : json → string) (validate_custom_source : string → result ())
  (registry : list (string * ToolManifest)) (correction_limit : Z) (fingerprint : TaskTurn → string) (thread : string).

Abbreviation run_node := (run_node validate_resume_signal container_str sha256 pformat validate_custom_source registry correction_limit fingerprint thread).
Abbreviation super_step := (super_step validate_resume_signal container_str sha256 pformat validate_custom_source registry correction_limit fingerprint thread).
Abbreviation session_step := (session_step validate_resume_signal container_str sha256 pformat validate_custom_source registry correction_limit fingerprint thread).
Abbreviation session_reachable := (session_reachable validate_resume_signal container_str sha256 pformat validate_custom_source registry correction_limit fingerprint thread).
Abbreviation covered := (covered validate_resume_signal container_str).

(** C2. Whenever the graph is about to submit an execution, its plan is not
    critical, is of the selected mode, and is one the user agreed to in this
    task: by approving this very revision and payload, or by selecting a
    proposed workflow version whose stored plan, with the user's inputs, it is;
    and a high risk was acknowledged with that decision. An operation is
    appended only under such a decision, or as the agent's own next step of an
    adaptive execution that the user agreed to begin. *)
Theorem approved_before_execution s w :
  (∀ raw v number hash inputs ack,
     validate_resume_signal raw = Ok (WorkflowSelectionDecision (Some v) number hash inputs ack) → (v < 2 ^ 128)%N) →
  session_reachable s → gs_workflow (ss_state s) = Some w →
  match ss_next s with
  | Some submit_execution => covered w (ss_trace s) ∧ mode_matches w
  | Some append_operation => covered w (ss_trace s) ∨
      approved_once validate_resume_signal (ss_trace s) ∧ w k_execution_mode = Some MULTI ∧ w k_multi_action = Some APPEND_STEP
  | _ => True
  end.
Proof.
  intros Hv Hs%session_is_good Hw; [|exact Hv]. unfold session_good in Hs. destruct (ss_next s) as [n|]; [|done].
  destruct n; try done; destruct Hs as (w' & Hw' & Hg); replace w' with w in Hg by congruence; apply Hg.
Qed.

(** C4. A session rests only with a result: when the graph has nothing to run,
    or has only been told to begin its next task ([begin_task] is what it runs
    next), the phase of the last task, if there was one, is terminal; whenever
    anything else is to run, the phase is not. *)
Theorem session_rests_with_result s : session_reachable s →
  match ss_next s with
  | Some begin_task | None => at_rest (gs_workflow (ss_state s))
  | Some _ => at_work (gs_workflow (ss_state s))
  end.
Proof. intros Hs%session_phase_ok. unfold phase_ok in Hs. destruct (ss_next s) as [[]|]; done. Qed.

(** ** Events *)

(** The event a worker action carries, which is later than all recorded ones
    of its execution. *)
Definition fresh_pending (g : GraphState) : Prop :=
  ∃ raw event, item "event" (gs_ew_pending g) = Ok raw ∧ model_validate raw = Ok event ∧
    default 0 (gs_ew_sequences g !! uuid_str (ev_execution_id event)) < event_sequence event.

Definition events_ok (s : session) : Prop :=
  match ss_next s with
  | Some reconcile_executor | Some record_event_receipt => fresh_pending (ss_state s)
  | _ => True
  end.

(** What a node leaves of the event bookkeeping. *)
Lemma lifted_events n a g g' : lift_node validate_resume_signal container_str sha256 pformat validate_custom_source registry correction_limit n a g = Ok g' →
  gs_ew_pending g' = gs_ew_pending g ∧ gs_ew_sequences g' = gs_ew_sequences g ∧ gs_ew_receipts g' = gs_ew_receipts g.
Proof.
  unfold lift_node. intros E. do 4 (apply result_bind_Ok in E as (? & _ & E)). by injection E as <-.
Qed.

Lemma waited_fresh a g g' p : wait_external_signal_node validate_resume_signal a g = Ok g' →
  successor wait_external_signal g' = Ok p → p = At reconcile_executor → fresh_pending g'.
Proof.
  intros E Hp ->. rewrite successor_eq in Hp. unfold workflow_of in Hp. unfold wait_external_signal_node in E.
  ok_inv E; cbn in Hp.
  - unfold route_external_signal, need in Hp. rewrite put_same in Hp. discriminate Hp.
  - match goal with Hx : negb (String.eqb _ _) = false, Hm : model_validate _ = Ok ?e, Hi : item "event" _ = Ok _ |- _ =>
      apply negb_false_iff, String.eqb_eq in Hx; eexists _, e; split_and!; [exact Hi|exact Hm|]; cbn; rewrite Hx end.
    match goal with Hl : (_ <=? _) = false |- _ => apply Z.leb_gt in Hl; exact Hl end.
Qed.

Lemma recorded_events a g g' : record_event_receipt_node a g = Ok g' → fresh_pending g →
  ∃ e, gs_ew_sequences g' = <[uuid_str (ev_execution_id e) := event_sequence e]> (gs_ew_sequences g) ∧
    default 0 (gs_ew_sequences g !! uuid_str (ev_execution_id e)) < event_sequence e.
Proof.
  intros E (raw & e & Hraw & He & Hlt). unfold record_event_receipt_node in E. destruct a; try discriminate E.
  apply result_bind_Ok in E as (raw' & Hraw' & E). rewrite Hraw in Hraw'. injection Hraw' as <-.
  apply result_bind_Ok in E as (e' & He' & E). rewrite He in He'. injection He' as <-.
  apply result_bind_Ok in E as (command & _ & E). injection E as <-. by exists e.
Qed.

(** Only the wait leads to the reconciliation, and only that to the receipt. *)
Lemma successor_events n g p : successor n g = Ok p →
  (p = At reconcile_executor → n = wait_external_signal) ∧ (p = At record_event_receipt → n = reconcile_executor).
Proof.
  rewrite successor_eq. cbv zeta. intros E.
  assert (Hr : ∀ route : WorkflowState → result node, (w ← workflow_of g; n' ← route w; Ok (At n')) = Ok p →
    (∀ w n', route w = Ok n' → n' ≠ reconcile_executor ∧ n' ≠ record_event_receipt) →
    p ≠ At reconcile_executor ∧ p ≠ At record_event_receipt).
  { intros route E' Hroute. apply result_bind_Ok in E' as (w & _ & E'). apply result_bind_Ok in E' as (n' & Hn' & E').
    injection E' as <-. destruct (Hroute _ _ Hn'). by split; intros [= ?]. }
  destruct n; try (injection E as <-; by split); try (split; [done|]; intros ->; exfalso);
    try (eapply Hr in E as [H1 H2]; [by split|]; intros w n' En;
      unfold route_intent, route_request_risk, route_workflow_search, route_workflow_decision, route_code_risk,
        route_plan_review, route_approved_execution, route_reconciliation, route_multi_action in En;
      ok_inv En; split; repeat case_match; done).
  apply result_bind_Ok in E as (w & _ & E). apply result_bind_Ok in E as (n' & Hn' & E). injection E as ->.
  unfold route_external_signal in Hn'. ok_inv Hn'. by destruct (is_cancel _).
Qed.

Lemma waited_events a g g' : wait_external_signal_node validate_resume_signal a g = Ok g' →
  gs_ew_sequences g' = gs_ew_sequences g ∧ gs_ew_receipts g' = gs_ew_receipts g.
Proof. unfold wait_external_signal_node. intros E. ok_inv E; done. Qed.

Lemma registered_events a g g' : register_execution_node a g = Ok g' →
  gs_ew_receipts g' = gs_ew_receipts g ∧
  gs_ew_sequences g' = <[gs_execution_id g := default 0 (gs_ew_sequences g !! gs_execution_id g)]> (gs_ew_sequences g).
Proof. unfold register_execution_node. intros E. ok_inv E; done. Qed.

Lemma begun_events g g' : begin_task_node fingerprint thread g = Ok g' →
  gs_ew_sequences g' = gs_ew_sequences g ∧ gs_ew_receipts g' = gs_ew_receipts g.
Proof. unfold begin_task_node. intros E. ok_inv E; done. Qed.

(** The bookkeeping grows, and a receipt is written with a later sequence. *)
Definition events_grow (g g' : GraphState) : Prop :=
  (∀ x n, gs_ew_sequences g !! x = Some n → ∃ m, gs_ew_sequences g' !! x = Some m ∧ n ≤ m) ∧
  (gs_ew_receipts g' ≠ gs_ew_receipts g →
     ∃ x m, gs_ew_sequences g' !! x = Some m ∧ default 0 (gs_ew_sequences g !! x) < m).

Lemma events_same g g' : gs_ew_sequences g' = gs_ew_sequences g → gs_ew_receipts g' = gs_ew_receipts g → events_grow g g'.
Proof. intros E1 E2. split; [|by rewrite E2]. rewrite E1. eauto with lia. Qed.

Lemma events_kept_place g g' x : gs_ew_receipts g' = gs_ew_receipts g →
  gs_ew_sequences g' = <[x := default 0 (gs_ew_sequences g !! x)]> (gs_ew_sequences g) → events_grow g g'.
Proof.
  intros E1 E2. split; [|by rewrite E1]. intros y n Hy. rewrite E2. destruct (decide (x = y)) as [<-|Hn].
  - rewrite lookup_insert_eq, Hy. by exists n.
  - rewrite lookup_insert_ne by done. by exists n.
Qed.

Lemma node_events n a g g' : run_node n a g = Ok g' → (n = record_event_receipt → fresh_pending g) → events_grow g g'.
Proof.
  intros E Hf. destruct n; try (apply lifted_events in E as (_ & E1 & E2); by apply events_same).
  - apply waited_events in E as [E1 E2]. by apply events_same.
  - apply begun_events in E as [E1 E2]. by apply events_same.
  - apply registered_events in E as [E1 E2]. by eapply events_kept_place.
  - apply recorded_events in E as (e & E1 & Hlt); [|by apply Hf]. split.
    + intros x n Hx. rewrite E1. destruct (decide (uuid_str (ev_execution_id e) = x)) as [<-|Hn].
      * rewrite Hx in Hlt. cbn in Hlt. rewrite lookup_insert_eq. eexists. split; [done|lia].
      * rewrite lookup_insert_ne by done. by exists n.
    + intros _. exists (uuid_str (ev_execution_id e)), (event_sequence e). rewrite E1, lookup_insert_eq. by split.
  - injection E as <-. by apply events_same.
Qed.

Lemma settled_events u t x st m g : events_grow g (settled_state fingerprint u t x st m g).
Proof.
  unfold settled_state. destruct (String.eqb x "") eqn:Hx.
  - by apply events_same.
  - by eapply events_kept_place.
Qed.

Lemma session_events_ok s : session_reachable s → events_ok s.
Proof.
  apply rtc_invariant; [|done]. clear s. intros s1 s2 IH Hstep. destruct Hstep as [u s Hn|n a s s' Hn E|]; [done| |done].
  unfold SessionGraph.super_step in E. apply result_bind_Ok in E as (g & Hg & E).
  apply result_bind_Ok in E as (p & Hp & E). injection E as <-. unfold events_ok in *. cbn. rewrite Hn in IH.
  pose proof (successor_events _ _ _ Hp) as [H1 H2]. destruct p as [| |n']; [done..|]. cbn. destruct n'; try done.
  - rewrite (H1 eq_refl) in Hg, Hp. by eapply waited_fresh.
  - rewrite (H2 eq_refl) in Hg, IH. apply lifted_events in Hg as (E1 & E2 & _). unfold fresh_pending. by rewrite E1, E2.
Qed.

(** C11. Events of the Executor are applied once and in their order: no step of a
    session lowers the last applied sequence of an execution, and a receipt is
    written only together with a sequence that is later than the last one. *)
Theorem events_applied_in_order s s' : session_reachable s → session_step s s' → events_grow (ss_state s) (ss_state s').
Proof.
  intros Hs%session_events_ok Hstep. destruct Hstep as [u s Hn|n a s s' Hn E|u t x st m s Hst].
  - by apply events_same.
  - unfold SessionGraph.super_step in E. apply result_bind_Ok in E as (g & Hg & E).
    apply result_bind_Ok in E as (p & _ & E). injection E as <-. eapply node_events; [exact Hg|]. intros ->.
    unfold events_ok in Hs. by rewrite Hn in Hs.
  - apply settled_events.
Qed.

(** ** Decisions of the user *)

(** What pydantic promises of a parsed signal. *)
Definition signal_valid (signal : ResumeSignal) : Prop :=
  match signal with
  | WorkflowSelectionDecision (Some v) _ _ _ _ => (v < 2 ^ 128)%N
  | ExecutionModeDecision mode => mode = "SINGLE" ∨ mode = "MULTI"
  | _ => True
  end.

Definition candidates_valid (w : WorkflowState) : Prop :=
  Forall (λ c, cd_workflow_version_id (rc_candidate c) < 2 ^ 128)%N (default [] (w k_workflow_candidates)).

Context (plan_json : PlanDraft → json) (contract_json : list (string * input_spec) → json).

Lemma uuid_str_inj u v : (u < 2 ^ 128)%N → (v < 2 ^ 128)%N → uuid_str u = uuid_str v → u = v.
Proof. intros Hu%uuid_parse_str Hv%uuid_parse_str E. rewrite E, Hv in Hu. by injection Hu. Qed.

(** Looking a version up in the JSON of the candidates finds the candidate. *)
Lemma find_candidate_json v l : (v < 2 ^ 128)%N → Forall (λ c, cd_workflow_version_id (rc_candidate c) < 2 ^ 128)%N l →
  find_candidate (uuid_str v) (map (candidate_json plan_json contract_json) l) =
  Ok (candidate_json plan_json contract_json <$> proposed v l).
Proof.
  intros Hv Hl. induction Hl as [|c l Hc Hl IH]; [done|].
  cbn [map find_candidate]. change (is_dict (candidate_json plan_json contract_json c)) with true.
  change (jget "workflow_version_id" (candidate_json plan_json contract_json c))
    with (Some (JStr (uuid_str (cd_workflow_version_id (rc_candidate c))))).
  cbn [from_option_err]. unfold mbind at 1. cbn [result_bind]. unfold proposed. cbn [List.find].
  destruct (N.eqb_spec (cd_workflow_version_id (rc_candidate c)) v) as [->|Hn].
  - by rewrite bool_decide_eq_true_2.
  - rewrite bool_decide_eq_false_2; [exact IH|]. intros E. apply Hn, uuid_str_inj; [done..|]. congruence.
Qed.

Lemma high_level_json r : is_high (jget "level" (risk_json r)) = is_high_risk (Some r).
Proof. unfold is_high. cbn. by destruct (rv_level r). Qed.

Lemma selection_accepted proposal candidates task mode v number hash inputs ack :
  Forall (λ c, cd_workflow_version_id (rc_candidate c) < 2 ^ 128)%N candidates →
  (∀ u, v = Some u → (u < 2 ^ 128)%N) →
  validate_user_decision (JObj [("candidates", JArr (map (candidate_json plan_json contract_json) candidates));
      ("dynamic_execution_mode", mode); ("kind", JStr "WORKFLOW_SELECTION"); ("proposal_version", JInt proposal); ("task_id", task)])
    (WorkflowSelectionDecision v number hash inputs ack) = Ok tt →
  number = proposal ∧ ∀ u, v = Some u → check_selection u hash ack candidates = Ok tt.
Proof.
  intros Hl Hv E. cbn [validate_user_decision] in E. apply raise_if_then in E as [Hp E].
  apply negb_false_iff, bool_decide_eq_true in Hp. cbn in Hp. injection Hp as ->. split; [done|]. intros u ->.
  apply result_bind_Ok in E as (l & [= <-] & E). rewrite find_candidate_json in E by auto.
  unfold mbind at 1 in E. cbn [result_bind] in E. unfold check_selection.
  destruct (proposed u candidates) as [c|]; [|discriminate E]. cbn [fmap option_fmap option_map] in E.
  apply raise_if_then in E as [Hh E]. apply result_bind_Ok in E as (level & Hlevel & E).
  change (jget "public_payload_hash" (candidate_json plan_json contract_json c)) with (Some (JStr (cd_public_payload_hash (rc_candidate c)))) in Hh.
  change (jget "risk" (candidate_json plan_json contract_json c)) with (Some (from_option risk_json JNull (rc_risk c))) in Hlevel.
  apply negb_false_iff, bool_decide_eq_true in Hh. injection Hh as <-. rewrite String.eqb_refl.
  apply raise_if_Ok in E. destruct (rc_risk c) as [r|]; cbn in Hlevel; injection Hlevel as <-; [|done].
  change (is_high (jget "level" (risk_json r)) && negb ack = false) in E. rewrite high_level_json in E. cbn in E |- *. by rewrite E.
Qed.

(** Uses the keys that were found in the state. *)
Ltac found_keys := repeat match goal with Hk : context [need ?k ?w] |- context [need ?k ?w] => rewrite Hk end.

(** C12. A decision that admission accepted on the interrupt the user was shown is
    accepted by the node that waits for it: the node then never raises, so an
    admitted answer is always applied. *)
Theorem admitted_decision_accepted n w b raw signal :
  boundary plan_json contract_json n w = Ok b → validate_resume_signal raw = Ok signal → signal_valid signal →
  candidates_valid w → is_Some (w k_user_message) →
  jget "kind" b = Some (JStr (signal_type signal)) → validate_user_decision b signal = Ok tt →
  ∃ us, business_node validate_resume_signal container_str sha256 pformat validate_custom_source registry correction_limit n w (Resumed raw) = Ok us.
Proof.
  intros Hb Hraw Hv Hc [message Hm] Hk Hd. unfold boundary in Hb. apply result_bind_Ok in Hb as (task & _ & Hb).
  destruct n; try discriminate Hb; ok_inv Hb; destruct signal as [an|v nu h i ac|m|co|de rid nu h f ac|xid eid sq ty|tid re]; try discriminate Hk; clear Hk;
    cbn [business_node];
    unfold clarify_request_node, choose_execution_mode_node, confirm_request_risk_node, choose_workflow_node, review_plan_node;
    cbn [resumed]; found_keys; rewrite Hraw; unfold mbind; cbn [result_bind].
  - unfold need. rewrite Hm. by eexists.
  - destruct Hv as [-> | ->]; by eexists.
  - by eexists.
  - needs. unfold candidates_valid in Hc.
    match goal with Hl : w k_workflow_candidates = _ |- _ => rewrite Hl in Hc; cbn in Hc end.
    apply selection_accepted in Hd as [-> Hs]; [|done|by intros u ->]. rewrite Z.eqb_refl. cbn.
    destruct v as [v|]; [rewrite (Hs v eq_refl)|]; by eexists.
  - cbn [validate_user_decision] in Hd. apply raise_if_then in Hd as [He Hd]. cbn in He.
    apply negb_false_iff, andb_true_iff in He as [[E1%bool_decide_eq_true E2%bool_decide_eq_true]%andb_true_iff E3%bool_decide_eq_true].
    injection E1 as ->. injection E2 as ->. injection E3 as ->. rewrite !String.eqb_refl, Z.eqb_refl. cbn [negb raise_if result_bind].
    destruct (bool_decide (de = APPROVE)) eqn:Ha; cbn [andb]; [|by eexists].
    apply result_bind_Ok in Hd as (level & Hlevel & Hd). cbn in Hlevel. injection Hlevel as <-.
    change (raise_if (is_high (jget "level" (risk_json x3)) && negb ac) (conflict "Risk acknowledgement is required") = Ok tt) in Hd.
    rewrite high_level_json in Hd. apply raise_if_Ok in Hd as ->. by eexists.
Qed.

(** A plan that replaces a selected workflow is never submitted: after the
    user sent a selected workflow back for a new plan, the graph goes from a
    code review without high risk straight to the check of the approval, which
    refuses it whatever the services answer. *)
Theorem revised_workflow_refused (w : WorkflowState) (r : RiskReview) a :
  w k_planning_kind = Some FIXED_WORKFLOW → acted w REVISE → w k_code_risk = Some r →
  rv_level r ∉ [HIGH; CRITICAL] →
  route_code_risk w = Ok verify_approval ∧
  business_node validate_resume_signal container_str sha256 pformat validate_custom_source registry correction_limit verify_approval w a =
    Err (ValueError "Plan approval is required").
Proof.
  intros Hk Ha Hr Hl. unfold route_code_risk, need. rewrite Hr, Hk. cbn.
  rewrite (bool_decide_eq_false_2 (rv_level r = CRITICAL)) by (intros E; apply Hl; rewrite E; repeat constructor).
  rewrite (bool_decide_eq_false_2 (rv_level r = HIGH)) by (intros E; apply Hl; rewrite E; repeat constructor). split; [done|].
  unfold verify_approval_node. unfold acted in Ha. by rewrite Ha.
Qed.
End Properties.

(** ** Runs of the graph

    A task whose plan of high risk is approved and submitted, and one whose
    selected workflow the user sends back: the runs on which the theorems
    about the session graph are applied. *)

Module GraphDemo.
#[local] Existing Instance DemoCodec.codec.

(** A reader of the two signals the runs use. *)
Definition text (k : string) (j : json) : string := match jget k j with Some (JStr s) => s | _ => "" end.
Definition number (k : string) (j : json) : Z := match jget k j with Some (JInt z) => z | _ => 0 end.
Definition flag (k : string) (j : json) : bool := match jget k j with Some (JBool b) => b | _ => false end.
Definition small_uuid (s : string) : option uuid :=
  match uuid_parse s with Some u => if (u <? 2 ^ 128)%N then Some u else None | None => None end.
Definition read_signal (j : json) : result ResumeSignal :=
  if String.eqb (text "type" j) "PLAN_REVIEW" then
    Ok (PlanReviewDecision (if String.eqb (text "decision" j) "APPROVE" then APPROVE else REVISE)
          (default 0%N (small_uuid (text "plan_revision_id" j))) (number "plan_revision_number" j)
          (text "public_payload_hash" j) None (flag "risk_acknowledged" j))
  else if String.eqb (text "type" j) "WORKFLOW_SELECTION" then
    Ok (WorkflowSelectionDecision (small_uuid (text "workflow_version_id" j)) (number "proposal_version" j)
          (text "public_payload_hash" j) [] (flag "risk_acknowledged" j))
  else Err (ValueError "unknown signal").

Definition u0 : TaskTurn := mk_turn "user" "project" "session" "task" "message" "please" "basic".
Definition run (n : node) (a : answer) (s : session) : result session :=
  super_step read_signal (λ _, "{}") id (λ _, "None") (λ _, Ok tt) [] 2 t_user_message "session" n a s.
Definition advance_by (n : node) (a : answer) (s : session) : session :=
  match run n a s with Ok s' => s' | Err _ => s end.
Definition play (l : list (node * answer)) (s : session) : session := foldl (λ s na, advance_by na.1 na.2 s) s l.

Definition demo_step : PlanStepDraft := mk_step 0 "Print" "Print one" CUSTOM_CODE None None [] "asked" [] [] 60 (Some "print(1)").
Definition demo_plan : PlanDraft := mk_plan "Print" "Print it" SINGLE "basic" [demo_step] [] [].
Definition demo_persisted (n : Z) : PersistedPlan := mk_persisted 1%N 7%N n "hash" 9%N.
Definition demo_risk (l : RiskLevel) : RiskReview := mk_risk l [] "reviewed" [] "ALLOW".

Definition review (decision : string) (ack : bool) : json :=
  JObj [("decision", JStr decision); ("plan_revision_id", JStr (uuid_str 7)); ("plan_revision_number", JInt 1);
        ("public_payload_hash", JStr "hash"); ("risk_acknowledged", JBool ack); ("type", JStr "PLAN_REVIEW")].
Definition selection : json :=
  JObj [("proposal_version", JInt 1); ("public_payload_hash", JStr "stored"); ("risk_acknowledged", JBool false);
        ("type", JStr "WORKFLOW_SELECTION"); ("workflow_version_id", JStr (uuid_str 5))].

Definition started : session := mk_session (with_turn u0 empty_graph) (Some begin_task) [].

Definition approval : list (node * answer) :=
  [(begin_task, ServiceDone); (hydrate_turn, ServiceDone);
   (classify_intent, GotIntent (mk_intent CODE_EXECUTION false None (Some SINGLE)));
   (review_request_risk, GotRisk (demo_risk LOW)); (build_plan, GotPlan demo_plan);
   (compile_and_persist_plan, GotPersisted (demo_persisted 1)); (review_compiled_code_risk, GotRisk (demo_risk HIGH));
   (review_plan, Resumed (review "APPROVE" true)); (verify_approval, ServiceDone)].

Definition candidate5 : ReviewedCandidate :=
  mk_reviewed (mk_candidate 5%N "Print" "Prints" "0.9" demo_plan [] "stored") (Some (demo_risk LOW)).
Definition sent_back : list (node * answer) :=
  [(begin_task, ServiceDone); (hydrate_turn, ServiceDone);
   (classify_intent, GotIntent (mk_intent DATA_ANALYSIS_EXECUTION false None None));
   (review_request_risk, GotRisk (demo_risk LOW)); (search_workflows, GotCandidates [candidate5]);
   (choose_workflow, Resumed selection); (load_selected_workflow, GotVersion demo_plan [] "stored" (demo_persisted 1));
   (review_compiled_code_risk, GotRisk (demo_risk HIGH)); (review_plan, Resumed (review "REVISE" false));
   (build_plan, GotPlan demo_plan); (compile_and_persist_plan, GotPersisted (demo_persisted 2));
   (review_compiled_code_risk, GotRisk (demo_risk LOW))].

(** Every step of a list is one the graph takes. *)
Fixpoint plays (l : list (node * answer)) (s : session) : bool :=
  match l with
  | [] => true
  | (n, a) :: l' =>
      bool_decide (ss_next s = Some n) &&
      match run n a s with Ok s' => plays l' s' | Err _ => false end
  end.

Abbreviation reached := (session_reachable read_signal (λ _, "{}") id (λ _, "None") (λ _, Ok tt) [] 2 t_user_message "session").

Lemma reached_started : reached started.
Proof. eapply rtc_l; [|reflexivity]. by apply session_start. Qed.

Lemma reached_play l s : plays l s = true → reached s → reached (play l s).
Proof.
  revert s. induction l as [|[n a] l IH]; intros s Hp Hs; [done|]. cbn in Hp. apply andb_true_iff in Hp as [Hn%bool_decide_eq_true Hp].
  unfold play, advance_by. cbn. destruct (run n a s) as [s'|] eqn:E; [|done]. apply IH; [done|].
  eapply rtc_r; [exact Hs|]. by eapply session_node.
Qed.

Lemma version_small raw v n h i k : read_signal raw = Ok (WorkflowSelectionDecision (Some v) n h i k) → (v < 2 ^ 128)%N.
Proof.
  unfold read_signal. destruct (String.eqb _ _); [done|]. destruct (String.eqb _ _); [|done]. intros [= E _ _ _ _].
  unfold small_uuid in E. destruct (uuid_parse _) as [u|]; [|done]. destruct (N.ltb_spec u (2 ^ 128)); [|done]. by injection E as <-.
Qed.

Definition state_of (s : session) : WorkflowState := default (λ _, None) (gs_workflow (ss_state s)).

Lemma approval_reached : reached (play approval started).
Proof. apply reached_play; [vm_compute; reflexivity|apply reached_started]. Qed.
Lemma sent_back_reached : reached (play sent_back started).
Proof. apply reached_play; [vm_compute; reflexivity|apply reached_started]. Qed.

(** The approved execution, up to the receipt of its first event. *)
Definition action : json :=
  JObj [("command_id", JStr (uuid_str 3));
        ("event", DemoCodec.dump (mk_event 4%N 8%N "execution.completed" 1 "1.0" "now" [] [])); ("task_id", JStr "task")].
Definition executed : list (node * answer) := approval ++
  [(submit_execution, GotReceipt (mk_receipt 8%N 6%N 1 None None)); (register_execution, ServiceDone);
   (wait_external_signal, Resumed action); (reconcile_executor, GotReconciliation (mk_reconciliation O_SUCCEEDED 8%N None))].
Definition receipt : session := advance_by record_event_receipt ServiceDone (play executed started).

Lemma executed_reached : reached (play executed started).
Proof. apply reached_play; [vm_compute; reflexivity|apply reached_started]. Qed.

Lemma run_Ok n a s : match run n a s with Ok _ => true | Err _ => false end = true → run n a s = Ok (advance_by n a s).
Proof. unfold advance_by. by destruct (run n a s). Qed.

Lemma run_step n a s s' : ss_next s = Some n → run n a s = Ok s' →
  session_step read_signal (λ _, "{}") id (λ _, "None") (λ _, Ok tt) [] 2 t_user_message "session" s s'.
Proof. intros Hn E. by eapply session_node. Qed.

Lemma receipt_step : session_step read_signal (λ _, "{}") id (λ _, "None") (λ _, Ok tt) [] 2 t_user_message "session"
  (play executed started) receipt.
Proof. apply (run_step record_event_receipt ServiceDone); [|apply run_Ok]; vm_compute; reflexivity. Qed.

Lemma has_state s : match gs_workflow (ss_state s) with Some _ => true | None => false end = true →
  gs_workflow (ss_state s) = Some (state_of s).
Proof. unfold state_of. by destruct (gs_workflow (ss_state s)). Qed.
(** The review that is shown, and the user's answer to it. *)
Definition shown : json :=
  match boundary (λ _, JNull) (λ _, JNull) review_plan (state_of (play (take 7 approval) started)) with Ok b => b | Err _ => JNull end.
Definition approval_signal : ResumeSignal := PlanReviewDecision APPROVE 7%N 1 "hash" None true.

Lemma shown_boundary : boundary (λ _, JNull) (λ _, JNull) review_plan (state_of (play (take 7 approval) started)) = Ok shown.
Proof. vm_compute. reflexivity. Qed.
Lemma shown_message : is_Some (state_of (play (take 7 approval) started) k_user_message).
Proof. exists "please". vm_compute. reflexivity. Qed.
Lemma shown_candidates : state_of (play (take 7 approval) started) k_workflow_candidates = None.
Proof. vm_compute. reflexivity. Qed.
Lemma approval_read : read_signal (review "APPROVE" true) = Ok approval_signal.
Proof. vm_compute. reflexivity. Qed.
Lemma approval_admitted : validate_user_decision shown approval_signal = Ok tt.
Proof. vm_compute. reflexivity. Qed.
End GraphDemo.

Section Witnesses.
Import GraphDemo.
#[local] Existing Instance DemoCodec.codec.

Lemma approved_before_execution_witness :
  let s := play approval started in
  ss_next s = Some submit_execution ∧ covered read_signal (λ _, "{}") (state_of s) (ss_trace s) ∧ mode_matches (state_of s).
Proof.
  pose proof (approved_before_execution read_signal (λ _, "{}") id (λ _, "None") (λ _, Ok tt) [] 2 t_user_message "session"
    (play approval started) (state_of (play approval started)) version_small approval_reached
    (has_state (play approval started) ltac:(vm_compute; reflexivity))) as Hc.
  assert (Hn : ss_next (play approval started) = Some submit_execution) by (vm_compute; reflexivity).
  revert Hc Hn. generalize (play approval started). intros s Hc Hn. rewrite Hn in Hc. by split.
Defined.

Lemma session_rests_with_result_witness :
  let s := play approval started in ss_next s = Some submit_execution ∧ at_work (gs_workflow (ss_state s)).
Proof.
  pose proof (session_rests_with_result read_signal (λ _, "{}") id (λ _, "None") (λ _, Ok tt) [] 2 t_user_message "session"
    (play approval started) approval_reached) as Hc.
  assert (Hn : ss_next (play approval started) = Some submit_execution) by (vm_compute; reflexivity).
  revert Hc Hn. generalize (play approval started). intros s Hc Hn. rewrite Hn in Hc. by split.
Defined.

Lemma events_applied_in_order_witness :
  gs_ew_receipts (ss_state receipt) !! uuid_str 3 = Some (uuid_str 4) ∧
  events_grow (ss_state (play executed started)) (ss_state receipt).
Proof.
  split; [vm_compute; reflexivity|].
  exact (events_applied_in_order read_signal (λ _, "{}") id (λ _, "None") (λ _, Ok tt) [] 2 t_user_message "session"
    _ _ executed_reached receipt_step).
Defined.

(** The state on which the approval of the run was asked for. *)
Lemma admitted_decision_accepted_witness :
  let w := state_of (play (take 7 approval) started) in
  ∃ us, business_node read_signal (λ _, "{}") id (λ _, "None") (λ _, Ok tt) [] 2 review_plan w (Resumed (review "APPROVE" true)) = Ok us.
Proof.
  cbv zeta. pose proof shown_boundary as Hb. pose proof shown_message as Hm. pose proof shown_candidates as Hc.
  revert Hb Hm Hc. generalize (state_of (play (take 7 approval) started)). intros w Hb Hm Hc.
  apply (admitted_decision_accepted read_signal (λ _, "{}") id (λ _, "None") (λ _, Ok tt) [] 2 (λ _, JNull) (λ _, JNull)
    review_plan w shown (review "APPROVE" true) approval_signal Hb approval_read I).
  - unfold candidates_valid. rewrite Hc. constructor.
  - exact Hm.
  - reflexivity.
  - exact approval_admitted.
Defined.

Lemma revised_workflow_refused_witness :
  let s := play sent_back started in
  reached s ∧ ss_next s = Some verify_approval ∧ ∀ a,
  business_node read_signal (λ _, "{}") id (λ _, "None") (λ _, Ok tt) [] 2 verify_approval (state_of s) a =
    Err (ValueError "Plan approval is required").
Proof.
  cbv zeta. split; [apply sent_back_reached|]. split; [vm_compute; reflexivity|]. intros a.
  apply (revised_workflow_refused read_signal (λ _, "{}") id (λ _, "None") (λ _, Ok tt) [] 2 _ (demo_risk LOW));
    [vm_compute; reflexivity..|]. vm_compute. intros Hin. repeat (apply elem_of_cons in Hin as [Hin|Hin]; [discriminate Hin|]). by apply not_elem_of_nil in Hin.
Defined.
End Witnesses.
