(* ===== verification/DurableEffects.v ===== *)
(** * The Executor calls of the session graph
    ([agent/effects/execution.py], [agent/effects/plans.py],
    [agent/effects/reporting.py], [agent/effects/files.py])

    Submission, append, finalization, cancellation and report run through the
    effect journal; the request of each is built from the approved steps, the
    binding and the staged files, and its receipt moves the binding. *)

From stdpp Require Import base gmap strings list relations.
From Stdlib Require Import ZArith Lia.
From S2P Require Import Prelude Text WorkerContracts WorkerStore Session AgentTables Plans Templates WorkflowTables PlanStore TaskProjections AgentWorld Executor Effects GraphState SessionGraph.
Local Open Scope Z_scope.
Set Default Proof Using "Type".

Section Durable.
(** pydantic dumps and parses the models; the compiler's parameters are those
    of [Plans]. *)
Context (digest : json → string) (command_response : json → result CommandResponse)
  (artifact_response : json → result json) (execution_result : json → result ExecutionResult)
  (sha256 : string → string) (pformat : json → string) (validate_custom_source : string → result unit)
  (registry : ToolRegistry) (registry_hash : string) (plan_hash : PlanDraft → string)
  (plan_json : PlanDraft → json) (plan_model : json → result PlanDraft) (decision_json : MultiDecision → json)
  (operation_wait_timeout : Z).
(** [root / "requests"], resolved, by its components; and
    [(request_root / text).resolve()]. *)
Context (request_root : list string) (resolve : list string → string → list string).

Abbreviation send := (send command_response artifact_response).

(** [task_id(state)] *)
Definition state_task_id (w : WorkflowState) : result uuid :=
  active ← need k_active_task_id w; from_option_err badly_formed (uuid_parse active).

(** ** Files ([agent/effects/files.py]) *)

(** [input_file]: its path, and the file itself. *)
Definition input_path (task_id content suffix : string) : string :=
  task_id +:+ "/effects/" +:+ sha256 content +:+ "." +:+ suffix.
Definition input_file (task_id content suffix : string) : json :=
  JObj [("path", JStr (input_path task_id content suffix)); ("sha256", JStr (sha256 content)); ("content", JStr content)].

(** [capture_files]; the bytes that are read are the text they decode to. *)
Definition source_path (j : json) : result string :=
  match j with JStr s => Ok s | _ => Err (TypeError "unsupported operand type(s) for /") end.
Definition capture_file (step : json) : proc aworld json :=
  source ← lift_result (p ← item_of "payload" step; item_of "source" p);
  path ← lift_result (item_of "path" source);
  relative ← lift_result (source_path path);
  guard_or (bool_decide (request_root `prefix_of` resolve request_root relative)) (ValueError "Executor source escaped requests root");;
  content ← atext;
  checksum ← lift_result (item_of "sha256" source);
  guard_or (bool_decide (JStr (sha256 content) = checksum)) (ValueError "Approved Executor source checksum mismatch");;
  mret (JObj [("path", path); ("sha256", checksum); ("content", JStr content)]).
Fixpoint capture_files (steps : list json) : proc aworld (list json) :=
  match steps with
  | [] => mret []
  | step :: steps' => file ← capture_file step; files ← capture_files steps'; mret (file :: files)
  end.

(** [executor_step] *)
Definition executor_step (row : Z * plan_step_row) : json :=
  executor_step_payload row.1 (pst_source_path row.2) (pst_source_sha256 row.2) (pst_timeout_seconds row.2)
    (sk_name <$> pst_skill_ref row.2) (tl_name <$> pst_tool_ref row.2) (pst_parameters row.2).

(** ** Plans ([agent/effects/plans.py]) *)

(** [DurablePlans._compile] *)
Fixpoint compile_steps (w : WorkflowState) (l : list PlanStepDraft) : result (list (CompiledStep * string)) :=
  match l with
  | [] => Ok []
  | step :: l' =>
      item ← Plans.compile sha256 pformat validate_custom_source registry step;
      active ← need k_active_task_id w;
      rest ← compile_steps w l';
      Ok ((item, input_path active (cs_source item) "py") :: rest)
  end.

(** [DurablePlans.persist] *)
Definition persist_durable (w : WorkflowState) (plan : PlanDraft) : proc aworld PersistedPlan :=
  lift_result (validate_plan_execution_mode w plan);;
  compiled ← lift_result (compile_steps w (steps plan));
  restore_files;;
  task ← lift_result (state_task_id w);
  plans_call (λ ids, persist plan_hash ids.1.1 ids.1.2 ids.2 task plan compiled registry_hash (w k_revision_feedback)
                       (Some (default 0 (w k_plan_revision_number) + 1))).

(** [repository.approved_steps] and [repository.binding_for_task] *)
Definition approved_rows (revision : uuid) : proc aworld (list (Z * plan_step_row)) :=
  plans_call (λ _ d, Ok (approved_steps revision d, d)).
Definition binding_for_task (task : uuid) : proc aworld executor_binding :=
  adb_read (λ _ d, from_option_err (LookupError "Task has no Executor binding") (bindings d !! task)).

(** ** Receipts *)

Definition int_of (j : json) : result Z :=
  match j with JInt z => Ok z | _ => Err (ValueError "Input should be a valid integer") end.

(** [SubmissionReceipt.model_validate] of a recorded receipt *)
Definition submission_receipt (j : json) : result SubmissionReceipt :=
  execution ← (v ← item_of "execution_id" j; uuid_of v);
  operation ← (v ← item_of "operation_id" j; uuid_of v);
  version ← (v ← item_of "execution_version" j; int_of v);
  raise_if (version <? 0) (ValueError "Input should be greater than or equal to 0");;
  Ok (mk_receipt execution operation version None None).

(** The receipt of a row of the journal. *)
Definition row_response (x : effect_row) : json := default JNull (x_response x).

(** [PersistedPlan.model_dump] and [model_validate] *)
Definition persisted_json (p : PersistedPlan) : json :=
  JObj [("plan_id", JStr (uuid_str (pp_plan_id p))); ("plan_revision_id", JStr (uuid_str (pp_plan_revision_id p)));
        ("plan_revision_number", JInt (pp_plan_revision_number p)); ("public_payload_hash", JStr (pp_public_payload_hash p));
        ("compiled_bundle_id", JStr (uuid_str (pp_compiled_bundle_id p)))].
Definition str_of (j : json) : result string :=
  match j with JStr s => Ok s | _ => Err (ValueError "Input should be a valid string") end.
Definition persisted_model (j : json) : result PersistedPlan :=
  plan ← (v ← item_of "plan_id" j; uuid_of v);
  revision ← (v ← item_of "plan_revision_id" j; uuid_of v);
  number ← (v ← item_of "plan_revision_number" j; int_of v);
  raise_if (number <? 1) (ValueError "Input should be greater than or equal to 1");;
  hash ← (v ← item_of "public_payload_hash" j; str_of v);
  raise_if (negb (is_sha256 hash)) (ValueError "String should match pattern");;
  bundle ← (v ← item_of "compiled_bundle_id" j; uuid_of v);
  Ok (mk_persisted plan revision number hash bundle).

(** ** Submission ([DurableExecution.submit]) *)

Definition submit_key (active : string) (number : Z) : string := "task:" +:+ active +:+ ":submit:" +:+ int_str number.

Definition submit_inputs (w : WorkflowState) (plan : PlanDraft) : json :=
  JObj [("plan_revision_id", opt_json (w k_plan_revision_id));
        ("plan_revision_number", from_option JInt JNull (w k_plan_revision_number));
        ("plan_public_payload_hash", opt_json (w k_plan_public_payload_hash));
        ("runtime_profile", opt_json (w k_runtime_profile));
        ("execution_mode", opt_json (mode_value <$> w k_execution_mode));
        ("user_id", opt_json (w k_user_id)); ("project_id", opt_json (w k_project_id));
        ("session_id", opt_json (w k_session_id));
        ("selected_workflow_version_id", opt_json (w k_selected_workflow_version_id)); ("plan", plan_json plan)].

(** The body, from the state of the graph. *)
Definition submit_body (w : WorkflowState) (key : string) (mode : ExecutionMode) (steps : list json) : result json :=
  profile ← need k_runtime_profile w;
  user ← need k_user_id w;
  project ← need k_project_id w;
  session ← need k_session_id w;
  active ← need k_active_task_id w;
  submit_payload key (mode_value mode) operation_wait_timeout profile user project session active
    (w k_selected_workflow_version_id) steps.

Definition prepare_submit (w : WorkflowState) (key : string) : proc aworld json :=
  revision ← lift_result (r ← need k_plan_revision_id w; from_option_err badly_formed (uuid_parse r));
  rows ← approved_rows revision;
  mode ← lift_result (need k_execution_mode w);
  let rows := if bool_decide (mode = MULTI) then take 1 rows else rows in
  guard_or (negb (bool_decide (rows = []))) (ValueError "Execution requires approved Steps");;
  let steps := map executor_step rows in
  body ← lift_result (submit_body w key mode steps);
  files ← capture_files steps;
  mret (JObj [("kind", JStr "submit"); ("path", JStr "/executions"); ("body", body); ("files", JArr files);
              ("next_step_sequence", JInt (Z.of_nat (length rows)))]).

Definition durable_submit (w : WorkflowState) : proc aworld SubmissionReceipt :=
  plan ← lift_result (need k_plan w);
  lift_result (validate_plan_execution_mode w plan);;
  active ← lift_result (need k_active_task_id w);
  number ← lift_result (need k_plan_revision_number w);
  let key := submit_key active number in
  task ← lift_result (state_task_id w);
  record ← journal_run digest task key "submit" (submit_inputs w plan) (prepare_submit w key) send;
  receipt ← lift_result (submission_receipt (row_response record));
  next ← lift_result (v ← item_of "next_step_sequence" (x_request record); int_of v);
  adb_call (λ _ _, binding_tx task (sr_execution_id receipt) (sr_execution_version receipt)
                     (Some (sr_operation_id receipt)) (Some next) true);;
  mret receipt.

(** ** Append ([DurableExecution.append]) *)

(** [step.model_copy(update={"sequence": 0})] and
    [plan.model_copy(update={"steps": [step]})] *)
Definition first_step (s : PlanStepDraft) : PlanStepDraft :=
  mk_step 0 (p_title s) (p_purpose s) (p_planning_kind s) (p_skill s) (p_tool s) (p_parameters s)
    (p_selection_rationale s) (p_expected_outputs s) (p_validation_criteria s) (p_timeout_seconds s) (p_custom_code s).
Definition one_step_plan (p : PlanDraft) (s : PlanStepDraft) : PlanDraft :=
  mk_plan (objective p) (strategy_summary p) (execution_mode p) (runtime_profile p) [s] (assumptions p) (expected_artifacts p).

Definition append_key (active operation : string) : string := "task:" +:+ active +:+ ":append:" +:+ operation.

Definition append_inputs (execution operation revision : string) (plan : PlanDraft) (decision : MultiDecision) : json :=
  JObj [("execution_id", JStr execution); ("previous_operation_id", JStr operation); ("plan_revision_id", JStr revision);
        ("plan", plan_json plan); ("decision", decision_json decision)].

(** [payload["sequence"] = ...] *)
Definition with_payload_sequence (n : Z) (payload : json) : json :=
  match payload with JObj l => JObj (dict_set "sequence" (JInt n) l) | j => j end.

Definition operations_path (execution : uuid) : string := "/executions/" +:+ uuid_str execution +:+ "/operations".

Definition append_request (b : executor_binding) (body : json) (files : list json) (persisted : PersistedPlan)
    (plan : PlanDraft) : json :=
  JObj [("kind", JStr "append"); ("execution_id", JStr (uuid_str (eb_execution_id b)));
        ("path", JStr (operations_path (eb_execution_id b))); ("body", body); ("files", JArr files);
        ("next_step_sequence", JInt (eb_next_step_sequence b + 1)); ("persisted_plan", persisted_json persisted);
        ("plan", plan_json plan)].

Definition prepare_append (w : WorkflowState) (key : string) (plan : PlanDraft) : proc aworld json :=
  persisted ← persist_durable w plan;
  rows ← approved_rows (pp_plan_revision_id persisted);
  task ← lift_result (state_task_id w);
  b ← binding_for_task task;
  execution ← lift_result (need k_execution_id w);
  operation ← lift_result (need k_current_operation_id w);
  guard_or (String.eqb (uuid_str (eb_execution_id b)) execution && String.eqb (uuid_str (eb_operation_id b)) operation)
    (ValueError "Append input has a stale Execution binding");;
  row ← lift_result (from_option_err (OtherException "IndexError" "list index out of range") (head rows));
  let payload := with_payload_sequence (eb_next_step_sequence b) (executor_step row) in
  body ← lift_result (append_payload key (eb_execution_version b) [payload]);
  files ← capture_files [payload];
  mret (append_request b body files persisted plan).

Definition durable_append (w : WorkflowState) (decision : MultiDecision) : proc aworld SubmissionReceipt :=
  mode ← lift_result (need k_execution_mode w);
  guard_or (bool_decide (mode = MULTI)) (ValueError "Only MULTI may append an Operation");;
  plan ← lift_result (need k_plan w);
  step ← lift_result (from_option_err (OtherException "IndexError" "list index out of range") (head (steps plan)));
  let plan := one_step_plan plan (first_step step) in
  active ← lift_result (need k_active_task_id w);
  operation ← lift_result (need k_current_operation_id w);
  execution ← lift_result (need k_execution_id w);
  revision ← lift_result (need k_plan_revision_id w);
  let key := append_key active operation in
  task ← lift_result (state_task_id w);
  record ← journal_run digest task key "append" (append_inputs execution operation revision plan decision)
             (prepare_append w key plan) send;
  receipt ← lift_result (submission_receipt (row_response record));
  next ← lift_result (v ← item_of "next_step_sequence" (x_request record); int_of v);
  adb_call (λ _ _, binding_tx task (sr_execution_id receipt) (sr_execution_version receipt)
                     (Some (sr_operation_id receipt)) (Some next) false);;
  persisted ← lift_result (v ← item_of "persisted_plan" (x_request record); persisted_model v);
  plan ← lift_result (v ← item_of "plan" (x_request record); plan_model v);
  mret (mk_receipt (sr_execution_id receipt) (sr_operation_id receipt) (sr_execution_version receipt) (Some persisted) (Some plan)).

(** ** Finalization and cancellation ([DurableExecution.lifecycle]) *)

Definition lifecycle_key (active kind : string) : string := "task:" +:+ active +:+ ":" +:+ kind.
Definition lifecycle_inputs (execution user : string) (reason : option string) : json :=
  JObj [("execution_id", JStr execution); ("user_id", JStr user); ("reason", opt_json reason)].

Definition lifecycle_request (kind key user : string) (reason : option string) (b : executor_binding) : json :=
  JObj [("kind", JStr kind); ("execution_id", JStr (uuid_str (eb_execution_id b)));
        ("path", JStr ("/executions/" +:+ uuid_str (eb_execution_id b) +:+ "/" +:+ kind));
        ("body", if String.eqb kind "finalize" then finalize_payload key (eb_execution_version b)
                 else cancel_payload key "USER" user reason)].

Definition prepare_lifecycle (w : WorkflowState) (kind key : string) (reason : option string) : proc aworld json :=
  task ← lift_result (state_task_id w);
  b ← binding_for_task task;
  execution ← lift_result (need k_execution_id w);
  guard_or (String.eqb (uuid_str (eb_execution_id b)) execution) (ValueError "Lifecycle input has another Execution");;
  user ← lift_result (need k_user_id w);
  mret (lifecycle_request kind key user reason b).

Definition durable_lifecycle (w : WorkflowState) (kind : string) (reason : option string) : proc aworld unit :=
  guard_or (String.eqb kind "finalize" || String.eqb kind "cancel") (ValueError "Unsupported lifecycle effect");;
  active ← lift_result (need k_active_task_id w);
  execution ← lift_result (need k_execution_id w);
  user ← lift_result (need k_user_id w);
  let key := lifecycle_key active kind in
  task ← lift_result (state_task_id w);
  record ← journal_run digest task key kind (lifecycle_inputs execution user reason) (prepare_lifecycle w kind key reason) send;
  guard_or (bool_decide (is_Some (x_response record))) AssertionError;;
  execution ← lift_result (v ← item_of "execution_id" (row_response record); uuid_of v);
  version ← lift_result (v ← item_of "execution_version" (row_response record); int_of v);
  adb_call (λ _ _, binding_tx task execution version None None false).

(** ** Reports ([agent/effects/reporting.py]) *)

Record ReportResult := mk_report { rr_markdown : string; rr_artifact_id : uuid }.

Definition report_key (active : string) : string := "task:" +:+ active +:+ ":report".

Definition report_request (active execution key markdown : string) : json :=
  JObj [("kind", JStr "report"); ("path", JStr ("/executions/" +:+ execution +:+ "/artifacts"));
        ("body", report_payload key (input_path active markdown "md") (sha256 markdown));
        ("files", JArr [input_file active markdown "md"]); ("markdown", JStr markdown)].

(** [self.generate] asks the model that writes the report. *)
Definition prepare_report (w : WorkflowState) (key : string) : proc aworld json :=
  markdown ← atext;
  active ← lift_result (need k_active_task_id w);
  execution ← lift_result (need k_execution_id w);
  mret (report_request active execution key markdown).

Definition durable_report (w : WorkflowState) (evidence : json) : proc aworld ReportResult :=
  r ← lift_result (v ← item_of "executor_result" evidence; execution_result v);
  succeeded ← lift_result
    (if String.eqb (xr_status r) "SUCCEEDED"
     then execution ← need k_execution_id w; Ok (String.eqb (uuid_str (xr_execution_id r)) execution)
     else Ok false);
  guard_or succeeded (ValueError "Report requires this Execution's success result");;
  active ← lift_result (need k_active_task_id w);
  let key := report_key active in
  task ← lift_result (state_task_id w);
  execution ← lift_result (need k_execution_id w);
  record ← journal_run digest task key "report" (JObj [("execution_id", JStr execution); ("evidence", evidence)])
             (prepare_report w key) send;
  guard_or (bool_decide (is_Some (x_response record))) AssertionError;;
  markdown ← lift_result (v ← item_of "markdown" (x_request record); str_of v);
  artifact ← lift_result (v ← item_of "artifact_id" (row_response record); uuid_of v);
  guard_or (negb (String.eqb markdown "")) (ValueError "String should have at least 1 character");;
  mret (mk_report markdown artifact).
End Durable.
