(* ===== verification/DurableEffectsProps.v ===== *)
(** * Properties of the Executor calls of the graph

    What the calls of [DurableEffects] send is recorded before it is sent, and
    for ever; what they record was built from approved steps whose sources have
    the approved checksums, and from the binding the state names. *)

From stdpp Require Import base gmap strings list relations.
From Stdlib Require Import ZArith Lia.
From S2P Require Import Prelude Text WorkerContracts WorkerStore Session AgentTables Plans Templates WorkflowTables Admission FailureStore TaskProjections AgentWorld Executor Effects AgentInv AgentSteps AgentAccept AgentHistory AgentProps AgentDemo EffectsProps PlanStore GraphState SessionGraph DurableEffects.
Local Open Scope Z_scope.
Set Default Proof Using "Type".

Section Durable.
Context (fp : ApiRequest → string) (signal : json → result ResumeSignal).
Context (digest : json → string) (command_response : json → result CommandResponse)
  (artifact_response : json → result json) (execution_result : json → result ExecutionResult)
  (sha256 : string → string) (pformat : json → string) (validate_custom_source : string → result unit)
  (registry : ToolRegistry) (registry_hash : string) (plan_hash : PlanDraft → string)
  (plan_json : PlanDraft → json) (plan_model : json → result PlanDraft) (decision_json : MultiDecision → json)
  (operation_wait_timeout : Z) (request_root : list string) (resolve : list string → string → list string).

Abbreviation agent_ok := (agent_ok fp signal digest).
Abbreviation runs := (rtc (agent_step fp signal digest)).
Abbreviation built := (built fp signal digest).
Abbreviation prepares := (prepares fp signal digest).
Abbreviation submit := (durable_submit digest command_response artifact_response sha256 plan_json operation_wait_timeout request_root resolve).
Abbreviation append := (durable_append digest command_response artifact_response sha256 pformat validate_custom_source registry
  registry_hash plan_hash plan_json plan_model decision_json request_root resolve).

(** ** The closures *)

(** What a closure leaves: entries of the plan tables only, and a request that
    [P] admits, of the log so far and the tables. *)
Abbreviation log := (list action).
Definition planned {A} (P : log → adb → A → Prop) (w : aworld) (r : result A) (w' : aworld) : Prop :=
  ∃ l, after runs w w' l ∧ (∀ a, a ∈ l → planning a) ∧
    ∀ q, r = Ok q → ∃ L d, L `prefix_of` a_log w' ∧ runs (a_db w) d ∧ runs d (a_db w') ∧ P L d q.

Lemma planned_err {A} (P : log → adb → A → Prop) w e w' l : after runs w w' l → (∀ a, a ∈ l → planning a) → planned P w (Err e) w'.
Proof. intros Ha Hl. by exists l. Qed.

Lemma planned_ret {A} (P : log → adb → A → Prop) w q : afair runs w → P (a_log w) (a_db w) q → planned P w (Ok q) w.
Proof.
  intros Hf HP. exists []. split; [by apply (after_refl runs)|]. split; [by intros a Ha%not_elem_of_nil|].
  intros y [= <-]. by exists (a_log w), (a_db w).
Qed.

Lemma planned_step {A} (P : log → adb → A → Prop) w w1 l r w' : after runs w w1 l → (∀ a, a ∈ l → planning a) →
  planned P w1 r w' → planned P w r w'.
Proof.
  intros Ha Hl (l' & Ha' & Hl' & Hb). exists (l ++ l'). split; [by eapply (after_trans runs)|].
  split; [intros a [Hin|Hin]%elem_of_app; auto|]. intros q Hq. destruct (Hb q Hq) as (L & d & HL & R1 & R2 & HP).
  destruct Ha as (_ & R & _). exists L, d. split; [done|]. split; [by transitivity (a_db w1)|done].
Qed.

Lemma none_planning a : a ∈ ([] : list action) → planning a.
Proof. by intros Ha%not_elem_of_nil. Qed.
Lemma one_planning d d' a : a ∈ [Planned d d'] → planning a.
Proof. by intros ->%list_elem_of_singleton. Qed.

(** A closure continues after one that only planned. *)
Lemma wp_planned_bind {A B} (P : log → adb → A → Prop) (P' : log → adb → B → Prop) m f w : afair runs w →
  wp m (planned P w) w →
  (∀ q w1 L d, afair runs w1 → a_log w `prefix_of` a_log w1 → L `prefix_of` a_log w1 → runs (a_db w) d → runs d (a_db w1) → P L d q →
    wp (f q) (planned P' w1) w1) →
  wp (m ≫= f) (planned P' w) w.
Proof.
  intros Hf Hm Hk. apply wp_bind. eapply wp_mono; [exact Hm|]. intros [q|e] w1 (l & Ha & Hl & Hb); [|by eapply planned_err].
  destruct (Hb q eq_refl) as (L & d & HL & R1 & R2 & HP).
  eapply wp_mono; [by eapply (Hk q w1 L d); [apply Ha|by eapply after_log_prefix|..]|].
  intros r w2. by apply (planned_step P' w w1 l).
Qed.

Lemma wp_planned_lift {A} (P : log → adb → A → Prop) (x : result A) w : afair runs w →
  (∀ q, x = Ok q → P (a_log w) (a_db w) q) → wp (lift_result x) (planned P w) w.
Proof.
  intros Hf HP. apply wp_lift. destruct x as [q|e]; [apply planned_ret; auto|].
  eapply planned_err; [by apply (after_refl runs)|apply none_planning].
Qed.

Lemma wp_planned_guard (ok : bool) e w : afair runs w → wp (guard_or ok e) (planned (λ _ _ _, ok = true) w) w.
Proof.
  intros Hf. apply wp_guard; intros E; [by apply planned_ret|]. eapply planned_err; [by apply (after_refl runs)|apply none_planning].
Qed.

Lemma wp_planned_text w : afair runs w → wp atext (planned (λ _ _ _, True) w) w.
Proof.
  intros Hf. apply (wp_atext runs); [done|]. intros x w1 Ha. exists []. split; [done|]. split; [apply none_planning|].
  intros q _. exists (a_log w1), (a_db w). split; [done|]. split; [done|split; [apply Ha|done]].
Qed.

Lemma wp_planned_call {A} (m : uuid * uuid * uuid → tx wdb A) w : afair runs w →
  wp (plans_call m) (planned (λ L d a, ∃ ids t t', agent t = d ∧ m ids t = Ok (a, t') ∧ Planned t t' ∈ L) w) w.
Proof.
  intros Hf. apply (wp_plans_call runs); [done| |].
  - intros a d d' w1 ids Hd Hm Ha. exists [Planned d d']. split; [done|]. split; [apply one_planning|].
    intros q [= <-]. destruct Ha as (_ & R & E). exists (a_log w1), (a_db w1). do 3 (split; [done|]). exists ids, d, d'. do 2 (split; [done|]).
    rewrite E. apply elem_of_app. right. by left.
  - intros w1 e Ha. eapply planned_err; [done|apply none_planning].
Qed.

Lemma wp_planned_binding task w : afair runs w →
  wp (binding_for_task task) (planned (λ _ d b, bindings d !! task = Some b) w) w.
Proof.
  intros Hf. apply (wp_adb_read runs); [done| |intros w1 e Ha; eapply planned_err; [done|apply none_planning]].
  intros _ w1 Ha. exists []. split; [done|]. split; [apply none_planning|]. intros b Hb. destruct Ha as (_ & R & _).
  exists (a_log w1), (a_db w1). do 3 (split; [done|]). destruct (bindings (a_db w1) !! task); [by injection Hb as ->|done].
Qed.

Lemma planned_weaken {A} (P P' : log → adb → A → Prop) w r w' : (∀ L d q, P L d q → P' L d q) → planned P w r w' → planned P' w r w'.
Proof.
  intros HP (l & Ha & Hl & Hb). exists l. split; [done|]. split; [done|]. intros q Hq.
  destruct (Hb q Hq) as (L & d & ? & ? & ? & ?). exists L, d. auto.
Qed.

(** ** Files *)

Lemma item_of_Ok k j v : item_of k j = Ok v → jget k j = Some v.
Proof. unfold item_of. destruct (is_dict j); [|done]. by destruct (jget k j); [intros [= ->]|]. Qed.

(** A file of a step: the staged bytes have the checksum of its source. *)
Definition source_of (step : json) : option json := p ← jget "payload" step; jget "source" p.
Definition staged (step file : json) : Prop :=
  ∃ source path checksum content, source_of step = Some source ∧ jget "path" source = Some (JStr path) ∧
    request_root `prefix_of` resolve request_root path ∧
    jget "sha256" source = Some checksum ∧ JStr (sha256 content) = checksum ∧
    file = JObj [("path", JStr path); ("sha256", checksum); ("content", JStr content)].

Lemma capture_file_plans step w : afair runs w → wp (capture_file sha256 request_root resolve step) (planned (λ _ _ file, staged step file) w) w.
Proof.
  intros Hf. eapply wp_planned_bind; [done|apply (wp_planned_lift (λ _ _ s, source_of step = Some s)); [done|]|].
  { intros s (p & Hp%item_of_Ok & Hs%item_of_Ok)%result_bind_Ok. unfold source_of. by rewrite Hp. }
  intros source w1 L1 d1 F1 G1 K1 _ _ Hs.
  eapply wp_planned_bind; [done|apply (wp_planned_lift (λ _ _ v, jget "path" source = Some v)); [done|apply item_of_Ok]|].
  intros path w2 L2 d2 F2 G2 K2 _ _ Hp.
  eapply wp_planned_bind; [done|apply (wp_planned_lift (λ _ _ v, path = JStr v)); [done|intros v; destruct path; [..|by intros [= ->]| |]; done]|].
  intros text w8 L8 d8 F8 G8 K8 _ _ ->. eapply wp_planned_bind; [done|by apply wp_planned_guard|].
  intros [] w9 L9 d9 F9 G9 K9 _ _ Hroot%bool_decide_eq_true.
  eapply wp_planned_bind; [done|by apply wp_planned_text|]. intros content w3 L3 d3 F3 G3 K3 _ _ _.
  eapply wp_planned_bind; [done|apply (wp_planned_lift (λ _ _ v, jget "sha256" source = Some v)); [done|apply item_of_Ok]|].
  intros checksum w4 L4 d4 F4 G4 K4 _ _ Hc. eapply wp_planned_bind; [done|by apply wp_planned_guard|]. intros [] w5 L5 d5 F5 G5 K5 _ _ Hsum.
  apply wp_ret, planned_ret; [done|]. apply bool_decide_eq_true in Hsum. by exists source, text, checksum, content.
Qed.

Lemma capture_files_plans l w : afair runs w → wp (capture_files sha256 request_root resolve l) (planned (λ _ _ files, Forall2 staged l files) w) w.
Proof.
  revert w. induction l as [|step l IH]; intros w Hf; simpl; [by apply wp_ret, planned_ret|].
  eapply wp_planned_bind; [done|by apply capture_file_plans|]. intros file w1 L1 d1 F1 G1 K1 _ _ H1.
  eapply wp_planned_bind; [done|by apply IH|]. intros files w2 L2 d2 F2 G2 K2 _ _ H2. apply wp_ret, planned_ret; [done|]. by constructor.
Qed.

(** ** Submission *)

(** The file of a row holds the source the row was approved with. *)
Definition approved_file (row : Z * plan_step_row) (file : json) : Prop :=
  ∃ content, sha256 content = pst_source_sha256 row.2 ∧ request_root `prefix_of` resolve request_root (pst_source_path row.2) ∧
    file = JObj [("path", JStr (pst_source_path row.2)); ("sha256", JStr (pst_source_sha256 row.2)); ("content", JStr content)].

Lemma staged_row row file : staged (executor_step row) file → approved_file row file.
Proof.
  intros (source & path & checksum & content & Hs & Hp & Hroot & Hc & Hsum & ->). cbn in Hs. injection Hs as <-.
  cbn in Hp, Hc. assert (Ep : path = pst_source_path row.2) by congruence. subst path.
  assert (Ec : checksum = JStr (pst_source_sha256 row.2)) by congruence. exists content. split; [congruence|]. split; [done|by rewrite Ec].
Qed.

(** The request of a submission: the approved steps of the revision in the
    plan tables [t], the first one for MULTI, with their files. *)
Definition submit_request_of (w : WorkflowState) (key : string) (t : wdb) (q : json) : Prop :=
  ∃ text revision mode body files,
    w k_plan_revision_id = Some text ∧ uuid_parse text = Some revision ∧ w k_execution_mode = Some mode ∧
    let rows := if bool_decide (mode = MULTI) then take 1 (approved_steps revision t) else approved_steps revision t in
    rows ≠ [] ∧ submit_body operation_wait_timeout w key mode (map executor_step rows) = Ok body ∧
    Forall2 approved_file rows files ∧
    q = JObj [("kind", JStr "submit"); ("path", JStr "/executions"); ("body", body); ("files", JArr files);
              ("next_step_sequence", JInt (Z.of_nat (length rows)))].

(** ... that the run read, as its log says, while the agent's tables led to
    [d]. *)
Definition submit_built (w : WorkflowState) (key : string) (L : log) (d : adb) (q : json) : Prop :=
  ∃ t, Planned t t ∈ L ∧ runs (agent t) d ∧ submit_request_of w key t q.

Lemma prepare_submit_built w key : prepares (submit_built w key) (prepare_submit sha256 operation_wait_timeout request_root resolve w key).
Proof.
  intros a Hf. change (wp (prepare_submit sha256 operation_wait_timeout request_root resolve w key) (planned (submit_built w key) a) a).
  eapply wp_planned_bind; [done| |].
  { apply (wp_planned_lift (λ _ _ r, ∃ text, w k_plan_revision_id = Some text ∧ uuid_parse text = Some r)); [done|].
    intros r (text & Ht & Hr)%result_bind_Ok. needs. exists text. split; [done|]. by destruct (uuid_parse text); [injection Hr as ->|]. }
  intros revision a1 L1 d1 F1 G1 K1 _ _ (text & Ht & Hr). eapply wp_planned_bind; [done|by apply wp_planned_call|].
  intros rows a2 L2 d2 F2 G2 K2 _ R2 (ids & t & t' & <- & Hrows & Hread). injection Hrows as <- <-.
  eapply wp_planned_bind; [done|apply (wp_planned_lift (λ _ _ m, w k_execution_mode = Some m)); [done|intros m Hm; by needs]|].
  intros mode a3 L3 d3 F3 G3 K3 R23 R33 Hmode. cbv zeta.
  eapply wp_planned_bind; [done|by apply wp_planned_guard|]. intros [] a4 L4 d4 F4 G4 K4 R34 R44 Hne.
  apply negb_true_iff, bool_decide_eq_false in Hne. set (rows := if bool_decide (mode = MULTI) then take 1 (approved_steps revision t) else approved_steps revision t) in *.
  eapply wp_planned_bind; [done|by apply (wp_planned_lift (λ _ _ b, submit_body operation_wait_timeout w key mode (map executor_step rows) = Ok b))|].
  intros body a5 L5 d5 F5 G5 K5 R45 R55 Hbody. eapply wp_planned_bind; [done|by apply capture_files_plans|].
  intros files a6 L6 d6 F6 G6 K6 R56 R66 Hfiles. apply wp_ret, planned_ret; [done|]. exists t.
  split; [eapply elem_of_prefix; [exact Hread|]; by repeat (etransitivity; [eassumption|])|].
  split; [by repeat (etransitivity; [eassumption|])|]. exists text, revision, mode, body, files. cbv zeta. fold rows.
  do 5 (split; [done|]). split; [|done]. apply (Forall2_fmap_l executor_step) in Hfiles. eapply Forall2_impl; [exact Hfiles|].
  intros row file. apply staged_row.
Qed.
(** ** Append *)

(** The request of an append: for the binding [b] that the state names, the
    first approved step of the persisted plan with the binding's sequence, of
    plan tables that the log says were read. *)
Definition append_request_of (w : WorkflowState) (key : string) (plan : PlanDraft) (L : log) (b : executor_binding) (q : json) : Prop :=
  ∃ persisted t row body file, Planned t t ∈ L ∧
    w k_execution_id = Some (uuid_str (eb_execution_id b)) ∧ w k_current_operation_id = Some (uuid_str (eb_operation_id b)) ∧
    head (approved_steps (pp_plan_revision_id persisted) t) = Some row ∧
    append_payload key (eb_execution_version b) [with_payload_sequence (eb_next_step_sequence b) (executor_step row)] = Ok body ∧
    approved_file row file ∧ q = append_request plan_json b body [file] persisted plan.

Definition append_built (w : WorkflowState) (key : string) (plan : PlanDraft) (L : log) (d : adb) (q : json) : Prop :=
  ∃ text task d0 b, w k_active_task_id = Some text ∧ uuid_parse text = Some task ∧ runs d0 d ∧ bindings d0 !! task = Some b ∧
    append_request_of w key plan L b q.

Lemma state_task_id_Ok w task : state_task_id w = Ok task → ∃ text, w k_active_task_id = Some text ∧ uuid_parse text = Some task.
Proof.
  intros (text & Ht & Hr)%result_bind_Ok. needs. exists text. split; [done|]. by destruct (uuid_parse text); [injection Hr as ->|].
Qed.

Lemma wp_planned_restore w : afair runs w → wp restore_files (planned (λ _ _ _, True) w) w.
Proof.
  intros Hf. apply wp_bind, (wp_adraw runs); [done|]. intros t w1 Ha.
  destruct (at_out t); [apply wp_ret; exists []; split; [done|]; split; [apply none_planning|]; intros q _|
    apply wp_throw; eapply planned_err; [done|apply none_planning]..].
  exists (a_log w1), (a_db w). split; [done|]. split; [done|split; [apply Ha|done]].
Qed.

Lemma persist_plans w plan a : afair runs a →
  wp (persist_durable sha256 pformat validate_custom_source registry registry_hash plan_hash w plan) (planned (λ _ _ _, True) a) a.
Proof.
  intros Hf. eapply wp_planned_bind; [done|by apply (wp_planned_lift (λ _ _ _, True))|]. intros [] a1 L1 d1 F1 G1 K1 _ _ _.
  eapply wp_planned_bind; [done|by apply (wp_planned_lift (λ _ _ _, True))|]. intros compiled a2 L2 d2 F2 G2 K2 _ _ _.
  eapply wp_planned_bind; [done|by apply wp_planned_restore|]. intros [] a3 L3 d3 F3 G3 K3 _ _ _.
  eapply wp_planned_bind; [done|by apply (wp_planned_lift (λ _ _ _, True))|]. intros task a4 L4 d4 F4 G4 K4 _ _ _.
  eapply wp_mono; [by apply wp_planned_call|]. intros r a5. by apply planned_weaken.
Qed.

Lemma prepare_append_built w key plan : prepares (append_built w key plan)
  (prepare_append sha256 pformat validate_custom_source registry registry_hash plan_hash plan_json request_root resolve w key plan).
Proof.
  intros a Hf. change (wp (prepare_append sha256 pformat validate_custom_source registry registry_hash plan_hash plan_json request_root resolve w key plan)
    (planned (append_built w key plan) a) a).
  eapply wp_planned_bind; [done|by apply persist_plans|]. intros persisted a1 L1 d1 F1 G1 K1 _ _ _.
  eapply wp_planned_bind; [done|by apply wp_planned_call|]. intros rows a2 L2 d2 F2 G2 K2 _ _ (ids & t & t' & _ & Hrows & Hread). injection Hrows as <- <-.
  eapply wp_planned_bind; [done|apply (wp_planned_lift (λ _ _ k, state_task_id w = Ok k)); done|]. intros task a3 L3 d3 F3 G3 K3 _ _ Htask.
  eapply wp_planned_bind; [done|by apply wp_planned_binding|]. intros b a4 L4 d4 F4 G4 K4 _ R44 Hb.
  eapply wp_planned_bind; [done|apply (wp_planned_lift (λ _ _ x, w k_execution_id = Some x)); [done|intros x Hx; by needs]|].
  intros execution a5 L5 d5 F5 G5 K5 R45 R55 He.
  eapply wp_planned_bind; [done|apply (wp_planned_lift (λ _ _ x, w k_current_operation_id = Some x)); [done|intros x Hx; by needs]|].
  intros operation a6 L6 d6 F6 G6 K6 R56 R66 Ho.
  eapply wp_planned_bind; [done|by apply wp_planned_guard|]. intros [] a7 L7 d7 F7 G7 K7 R67 R77 Hsame.
  apply andb_true_iff in Hsame as [<-%String.eqb_eq <-%String.eqb_eq].
  eapply wp_planned_bind; [done|apply (wp_planned_lift (λ _ _ x, head (approved_steps (pp_plan_revision_id persisted) t) = Some x)); [done|]|].
  { intros row Hr. by destruct (head _); [injection Hr as ->|]. }
  intros row a8 L8 d8 F8 G8 K8 R78 R88 Hrow. cbv zeta.
  eapply wp_planned_bind; [done|by apply (wp_planned_lift (λ _ _ x, append_payload key (eb_execution_version b)
    [with_payload_sequence (eb_next_step_sequence b) (executor_step row)] = Ok x))|].
  intros body a9 L9 d9 F9 G9 K9 R89 R99 Hbody. eapply wp_planned_bind; [done|by apply capture_files_plans|].
  intros files a10 L10 d10 F10 G10 K10 R9 R10 Hfiles. apply wp_ret, planned_ret; [done|].
  destruct (state_task_id_Ok _ _ Htask) as (text & Ht & Hp). exists text, task, d4, b.
  split; [done|]. split; [done|]. split; [by repeat (etransitivity; [eassumption|])|]. split; [done|].
  apply Forall2_cons_inv_l in Hfiles as (file & files' & Hfile & Hnil & ->). apply Forall2_nil_inv_l in Hnil as ->.
  exists persisted, t, row, body, file.
  split; [eapply elem_of_prefix; [exact Hread|]; by repeat (etransitivity; [eassumption|])|]. do 4 (split; [done|]). split; [by apply staged_row|done].
Qed.
(** ** The calls *)

(** What a call whose request [P] admits may leave in the log: only the request
    recorded under [key] is sent, and what is recorded there was built. *)
Section Calls.
Context (P : list action → adb → json → Prop) (task : uuid) (key kind : string) (inputs : json).

Definition call_entry (d0 : adb) (L : list action) (d1 : adb) (a : action) : Prop :=
  match a with
  | Sent q => ∃ x d, runs d0 d ∧ runs d d1 ∧ effects d !! key = Some x ∧ x_request x = q ∧
      validate_identity x task kind (digest inputs) = Ok tt
  | Committed d d' => ∀ x, effects d !! key = None → effects d' !! key = Some x → built P d0 L d1 (x_request x)
  | Planned _ _ => True
  | _ => False
  end.

Lemma call_entry_later d0 d0' L L' d1 d1' a : runs d0' d0 → L `prefix_of` L' → runs d1 d1' →
  call_entry d0 L d1 a → call_entry d0' L' d1' a.
Proof.
  intros H0 HL H1. destruct a; try done.
  - intros (x & d & ? & ? & Hx). exists x, d. split; [by etransitivity|]. split; [by etransitivity|done].
  - intros Hb x Hn Hx. by eapply built_later, Hb.
Qed.

Definition called {A} (C : A → adb → Prop) (w : aworld) (r : result A) (w' : aworld) : Prop :=
  ∃ l, after runs w w' l ∧ (∀ a, a ∈ l → call_entry (a_db w) (a_log w') (a_db w') a) ∧ ∀ v, r = Ok v → C v (a_db w').

Lemma called_ret {A} (C : A → adb → Prop) w v : afair runs w → C v (a_db w) → called C w (Ok v) w.
Proof.
  intros Hf HC. exists []. split; [by apply (after_refl runs)|]. split; [by intros a Ha%not_elem_of_nil|]. by intros y [= <-].
Qed.
Lemma called_err {A} (C : A → adb → Prop) w e : afair runs w → called C w (Err e) w.
Proof. intros Hf. exists []. split; [by apply (after_refl runs)|]. split; [by intros a Ha%not_elem_of_nil|done]. Qed.

Lemma wp_called_lift {A} (C : A → adb → Prop) (x : result A) w : afair runs w →
  (∀ v, x = Ok v → C v (a_db w)) → wp (lift_result x) (called C w) w.
Proof. intros Hf HC. apply wp_lift. destruct x; [apply called_ret; auto|by apply called_err]. Qed.

Lemma wp_called_need (w : WorkflowState) (k : GraphState.key) (v : value_type k) a : w k = Some v → afair runs a →
  wp (lift_result (need k w)) (called (λ x _, x = v) a) a.
Proof. intros E Hf. apply wp_called_lift; [done|]. unfold need. rewrite E. by intros ? [= <-]. Qed.

Lemma wp_called_task (w : WorkflowState) text k a : w k_active_task_id = Some text → uuid_parse text = Some k → afair runs a →
  wp (lift_result (state_task_id w)) (called (λ x _, x = k) a) a.
Proof.
  intros Ht Hk Hf. apply wp_called_lift; [done|]. intros k' Hk'. destruct (state_task_id_Ok _ _ Hk') as (t & Ht' & Hp). congruence.
Qed.

Lemma wp_called_guard (C : unit → adb → Prop) (ok : bool) e w : afair runs w → (ok = true → C tt (a_db w)) →
  wp (guard_or ok e) (called C w) w.
Proof. intros Hf HC. apply wp_guard; intros E; [by apply called_ret, HC|by apply called_err]. Qed.

Lemma wp_called_bind {A B} (C : A → adb → Prop) (C' : B → adb → Prop) m f w : wp m (called C w) w →
  (∀ v w1, afair runs w1 → runs (a_db w) (a_db w1) → C v (a_db w1) → wp (f v) (called C' w1) w1) →
  wp (m ≫= f) (called C' w) w.
Proof.
  intros Hm Hk. apply wp_bind. eapply wp_mono; [exact Hm|]. intros [v|e] w1 (l & Ha & Hl & HC).
  - eapply wp_mono; [apply (Hk v w1); [apply Ha|apply Ha|by apply HC]|]. intros r w2 (l2 & Ha2 & Hl2 & HC2).
    exists (l ++ l2). split; [by eapply (after_trans runs)|split; [|done]]. pose proof (after_log_prefix _ _ _ _ Ha2) as G.
    destruct Ha as (_ & R1 & _), Ha2 as (_ & R2 & _).
    intros a [Hin|Hin]%elem_of_app; [by eapply call_entry_later; [reflexivity|exact G|exact R2|apply Hl]|].
    by eapply call_entry_later; [exact R1|reflexivity|reflexivity|apply Hl2].
  - by exists l.
Qed.

(** The journal's part of a call. *)
Lemma wp_called_journal m w : prepares P m → afair runs w → agent_ok (a_db w) →
  wp (journal_run digest task key kind inputs m (Executor.send command_response artifact_response))
    (called (λ x d, effects d !! key = Some x ∧ is_Some (x_response x)) w) w.
Proof.
  intros Hm Hf Hd. eapply wp_mono; [by apply (journal_run_good fp signal digest command_response artifact_response P task key kind inputs m w)|].
  intros r w' (l & Ha & Hl & Hr). exists l. split; [done|]. split; [|done]. intros a Hin. specialize (Hl a Hin).
  destruct a; try done. by destruct Hl as [_ Hb].
Qed.

Lemma binding_names id e v op next create d d' : binding_tx id e v op next create d = Ok (tt, d') →
  effects d' = effects d ∧ ∃ b, bindings d' !! id = Some b ∧ eb_execution_id b = e.
Proof.
  intros H. unfold binding_tx, create_binding, integer_columns, put_task, put_lock, insert_binding in H. tx_inv.
  apply get_task_Ok in Hrun as [-> ->]. destruct (tasks d !! id); [|done]. tx_inv.
  destruct (bindings d !! id) eqn:Eb.
  - agent_inv. split; [done|]. simpl. rewrite lookup_insert_eq. by eexists.
  - destruct op; [|done]. tx_inv. destruct next; [|done]. tx_inv.
    destruct (session_locks _ !! _) as [l|]; [destruct (_ =? _)%N|]; tx_inv; simpl; rewrite lookup_insert_eq;
      (split; [done|by eexists]).
Qed.

Lemma wp_called_binding id e v op next create w : afair runs w →
  wp (adb_call (λ _ _, binding_tx id e v op next create))
    (called (λ _ d, ∃ b, bindings d !! id = Some b ∧ eb_execution_id b = e) w) w.
Proof.
  intros Hf. apply (wp_adb_call runs); [done|..].
  - intros _ _ d [] d' H. by eapply rtc_once, step_binding.
  - intros _ _ d [] w2 H Hr Ha. destruct (binding_names _ _ _ _ _ _ _ _ H) as [He Hb].
    assert (Hl : ∀ a, a ∈ [Committed d (a_db w2)] → call_entry (a_db w) (a_log w2) (a_db w2) a).
    { intros a ->%list_elem_of_singleton x Hn Hx. congruence. }
    split; [exists [Committed d (a_db w2)]; split; [done|split; [done|by intros ? [= <-]]]|]. intros e'. by exists [Committed d (a_db w2)].
  - intros _ _ w1 e' Ha _. exists []. by split; [|split; [intros a Hn%not_elem_of_nil|]].
  - intros w1 e' Ha. exists []. by split; [|split; [intros a Hn%not_elem_of_nil|]].
Qed.

(** The completed row stays. *)
Lemma completed_stays d d' x : agent_ok d → runs d d' → effects d !! key = Some x → is_Some (x_response x) → effects d' !! key = Some x.
Proof.
  intros Hd Hr Hk Hs. destruct (agent_run_grows _ _ _ _ _ Hr Hd) as (_ & _ & _ & _ & _ & He & _).
  destruct (He _ _ Hk) as (y & Hy & Hg). by rewrite <- (effect_final x y).
Qed.
End Calls.

(** ** Theorems *)

(** What a submission of [w] ends with: the receipt of the recorded row, and
    the task bound to its execution. *)
Definition submitted (key : string) (task : uuid) (receipt : SubmissionReceipt) (d : adb) : Prop :=
  (∃ x j, effects d !! key = Some x ∧ x_response x = Some j ∧ submission_receipt j = Ok receipt) ∧
  ∃ b, bindings d !! task = Some b ∧ eb_execution_id b = sr_execution_id receipt.

Lemma submit_called (w : WorkflowState) active number task plan a : w k_plan = Some plan → w k_active_task_id = Some active →
  w k_plan_revision_number = Some number → uuid_parse active = Some task → afair runs a → agent_ok (a_db a) →
  wp (submit w) (called (submit_built w (submit_key active number)) task (submit_key active number) "submit" (submit_inputs plan_json w plan)
    (submitted (submit_key active number) task) a) a.
Proof.
  intros Hplan Hactive Hnumber Htask Hf Hd. set (key := submit_key active number).
  set (P := submit_built w key). set (inputs := submit_inputs plan_json w plan). unfold durable_submit.
  eapply wp_called_bind; [by apply (wp_called_need _ _ _ _ _ w k_plan plan)|]. intros ? a1 F1 R1 ->.
  eapply wp_called_bind; [apply (wp_called_lift _ _ _ _ _ (λ _ _, True)); done|]. intros [] a2 F2 R2 _.
  eapply wp_called_bind; [by apply (wp_called_need _ _ _ _ _ w k_active_task_id active)|]. intros ? a3 F3 R3 ->.
  eapply wp_called_bind; [by apply (wp_called_need _ _ _ _ _ w k_plan_revision_number number)|]. intros ? a4 F4 R4 ->. cbv zeta. fold key.
  eapply wp_called_bind; [by apply (wp_called_task _ _ _ _ _ w active task)|]. intros ? a5 F5 R5 ->.
  assert (D5 : agent_ok (a_db a5)) by (eapply agent_run_ok; [|exact Hd]; by repeat (etransitivity; [eassumption|])).
  eapply wp_called_bind; [apply wp_called_journal; [apply prepare_submit_built|done|done]|]. intros x a6 F6 R6 [Hx Hs].
  assert (D6 : agent_ok (a_db a6)) by by eapply agent_run_ok.
  eapply wp_called_bind; [apply (wp_called_lift _ _ _ _ _ (λ r _, submission_receipt (row_response x) = Ok r)); done|].
  intros receipt a7 F7 R7 Hr.
  eapply wp_called_bind; [apply (wp_called_lift _ _ _ _ _ (λ _ _, True)); done|]. intros next a8 F8 R8 _.
  eapply wp_called_bind; [by apply wp_called_binding|]. intros [] a9 F9 R9 Hb. apply wp_ret, called_ret; [done|].
  split; [|done]. destruct Hs as [j Hj]. exists x, j. unfold row_response in Hr. rewrite Hj in Hr.
  split; [|done]. eapply completed_stays; [exact D6| |done|by eexists]. by repeat (etransitivity; [eassumption|]).
Qed.
Lemma binding_stays d d' task b : agent_ok d → runs d d' → bindings d !! task = Some b →
  ∃ b', bindings d' !! task = Some b' ∧ eb_execution_id b' = eb_execution_id b.
Proof.
  intros Hd Hr Hb. destruct (agent_run_grows _ _ _ _ _ Hr Hd) as (_ & _ & _ & _ & _ & _ & He).
  destruct (He _ _ Hb) as (b' & Hb' & E & _). by exists b'.
Qed.

(** What an append of [w] ends with: moreover the plan and its revision that
    were recorded with the request. *)
Definition appended (key : string) (task : uuid) (receipt : SubmissionReceipt) (d : adb) : Prop :=
  (∃ x j r p pl v u, effects d !! key = Some x ∧ x_response x = Some j ∧ submission_receipt j = Ok r ∧
     sr_execution_id receipt = sr_execution_id r ∧ sr_operation_id receipt = sr_operation_id r ∧
     jget "persisted_plan" (x_request x) = Some v ∧ persisted_model v = Ok p ∧ sr_persisted_plan receipt = Some p ∧
     jget "plan" (x_request x) = Some u ∧ plan_model u = Ok pl ∧ sr_plan receipt = Some pl) ∧
  ∃ b, bindings d !! task = Some b ∧ eb_execution_id b = sr_execution_id receipt.

Lemma append_called (w : WorkflowState) decision active operation execution revision task plan step a :
  w k_plan = Some plan → head (steps plan) = Some step → w k_active_task_id = Some active →
  w k_current_operation_id = Some operation → w k_execution_id = Some execution → w k_plan_revision_id = Some revision →
  uuid_parse active = Some task → afair runs a → agent_ok (a_db a) →
  let plan' := one_step_plan plan (first_step step) in
  wp (append w decision) (called (append_built w (append_key active operation) plan') task (append_key active operation) "append"
    (append_inputs plan_json decision_json execution operation revision plan' decision)
    (appended (append_key active operation) task) a) a.
Proof.
  intros Hplan Hstep Hactive Hop Hex Hrev Htask Hf Hd plan'. set (key := append_key active operation).
  set (P := append_built w key plan'). set (inputs := append_inputs _ _ _ _ _ _ _). unfold durable_append.
  eapply wp_called_bind; [apply (wp_called_lift _ _ _ _ _ (λ _ _, True)); done|]. intros mode a0 F0 R0 _.
  eapply wp_called_bind; [apply (wp_called_guard _ _ _ _ _ (λ _ _, True)); done|]. intros [] a1 F1 R1 _.
  eapply wp_called_bind; [by apply (wp_called_need _ _ _ _ _ w k_plan plan)|]. intros ? a2 F2 R2 ->.
  eapply wp_called_bind; [apply (wp_called_lift _ _ _ _ _ (λ s _, s = step)); [done|intros s; rewrite Hstep; by intros [= <-]]|].
  intros ? a3 F3 R3 ->. cbv zeta. fold plan'.
  eapply wp_called_bind; [by apply (wp_called_need _ _ _ _ _ w k_active_task_id active)|]. intros ? a4 F4 R4 ->.
  eapply wp_called_bind; [by apply (wp_called_need _ _ _ _ _ w k_current_operation_id operation)|]. intros ? a5 F5 R5 ->.
  eapply wp_called_bind; [by apply (wp_called_need _ _ _ _ _ w k_execution_id execution)|]. intros ? a6 F6 R6 ->.
  eapply wp_called_bind; [by apply (wp_called_need _ _ _ _ _ w k_plan_revision_id revision)|]. intros ? a7 F7 R7 ->. fold key.
  eapply wp_called_bind; [by apply (wp_called_task _ _ _ _ _ w active task)|]. intros ? a8 F8 R8 ->.
  assert (D8 : agent_ok (a_db a8)) by (eapply agent_run_ok; [|exact Hd]; by repeat (etransitivity; [eassumption|])).
  eapply wp_called_bind; [apply wp_called_journal; [apply prepare_append_built|done|done]|]. intros x a9 F9 R9 [Hx Hs].
  assert (D9 : agent_ok (a_db a9)) by by eapply agent_run_ok.
  eapply wp_called_bind; [apply (wp_called_lift _ _ _ _ _ (λ r _, submission_receipt (row_response x) = Ok r)); done|].
  intros receipt a10 F10 R10 Hr.
  eapply wp_called_bind; [apply (wp_called_lift _ _ _ _ _ (λ _ _, True)); done|]. intros next a11 F11 R11 _.
  eapply wp_called_bind; [by apply wp_called_binding|]. intros [] a12 F12 R12 Hb.
  eapply wp_called_bind; [apply (wp_called_lift _ _ _ _ _
    (λ p _, ∃ v, jget "persisted_plan" (x_request x) = Some v ∧ persisted_model v = Ok p)); [done|]|].
  { intros p (v & Hv%item_of_Ok & Hp)%result_bind_Ok. by exists v. }
  intros p a13 F13 R13 (v & Hv & Hp).
  eapply wp_called_bind; [apply (wp_called_lift _ _ _ _ _
    (λ p _, ∃ v, jget "plan" (x_request x) = Some v ∧ plan_model v = Ok p)); [done|]|].
  { intros q (u & Hu%item_of_Ok & Hq)%result_bind_Ok. by exists u. }
  intros q a14 F14 R14 (u & Hu & Hq). apply wp_ret, called_ret; [done|].
  assert (D12 : agent_ok (a_db a12)) by (repeat first [exact D9|eapply agent_run_ok; [eassumption|]]).
  destruct Hb as (b & Hb & Eb). destruct (binding_stays (a_db a12) (a_db a14) task b) as (b' & Hb' & Eb'); [done|by transitivity (a_db a13)|done|].
  split; [|exists b'; split; [done|simpl; congruence]]. destruct Hs as [j Hj]. unfold row_response in Hr. rewrite Hj in Hr.
  exists x, j, receipt, p, q, v, u. split; [|by repeat split].
  apply (completed_stays key (a_db a9) _ x D9); [by repeat (etransitivity; [eassumption|])|done|by eexists].
Qed.

(** A submission of a task counts for ever. *)
Lemma submission_counts key task d x refs n : effects d !! key = Some x → x_task_id x = task → x_kind x = "submit" →
  execution_references task d = Ok (refs, n) → n ≠ 0%nat.
Proof.
  intros Hx Ht Hk (ids & _ & [= _ <-])%result_bind_Ok Hn. apply length_zero_iff_nil in Hn.
  assert (Hin : x ∈ filter (λ x, x_kind x = "submit") (task_effects task d)).
  { apply list_elem_of_filter. split; [done|]. apply list_elem_of_filter. split; [done|]. apply list_elem_of_fmap.
    exists (key, x). split; [done|]. by apply elem_of_map_to_list. }
  rewrite Hn in Hin. by apply not_elem_of_nil in Hin.
Qed.

(** C6. For every schedule of faults, crash points and other processes: a
    submission is sent only as the request recorded for its task and revision,
    which stays recorded, so that it is never unknown later that something was
    submitted for the task; and a submission returns only the receipt that is
    recorded, with the task bound to its execution for ever. *)
Theorem submission_recorded_first (w : WorkflowState) active number task plan a r a' d2 :
  w k_plan = Some plan → w k_active_task_id = Some active → w k_plan_revision_number = Some number →
  uuid_parse active = Some task → agent_reachable fp signal digest (a_db a) → afair runs a → a_log a = [] →
  submit w a = (r, a') → runs (a_db a') d2 →
  (∀ q, Sent q ∈ a_log a' →
     (∃ x, effects d2 !! submit_key active number = Some x ∧ x_request x = q ∧ x_kind x = "submit" ∧ x_task_id x = task) ∧
     ∀ refs n, execution_references task d2 = Ok (refs, n) → n ≠ 0%nat) ∧
  (∀ receipt, r = Ok receipt → submitted (submit_key active number) task receipt d2).
Proof.
  intros Hp Ha Hn Ht Hd Hf Hlog Hrun Hr. apply (reachable_agent_ok fp signal digest) in Hd.
  destruct (wp_run _ _ _ _ _ (submit_called w active number task plan a Hp Ha Hn Ht Hf Hd) Hrun) as (l & (_ & R & L) & Hl & HC).
  assert (D' : agent_ok (a_db a')) by by eapply agent_run_ok. split.
  - rewrite L, Hlog. intros q (x & d & R1 & R2 & Hx & <- & Hv)%Hl.
    destruct (agent_run_grows fp signal digest d d2) as (_ & _ & _ & _ & _ & He & _);
      [by transitivity (a_db a')|by eapply agent_run_ok|].
    destruct (He _ _ Hx) as (y & Hy & _ & Et & Ek & _ & _ & Eq & _). apply raise_if_Ok, negb_false_iff in Hv.
    apply andb_true_iff in Hv as [[Hv1%N.eqb_eq Hv2%String.eqb_eq]%andb_true_iff _].
    assert (Hy' : x_kind y = "submit" ∧ x_task_id y = task) by (split; congruence).
    split; [by exists y|]. destruct Hy' as [Hk Hk']. intros refs n. exact (submission_counts (submit_key active number) task d2 y refs n Hy Hk' Hk).
  - intros receipt Hok. destruct (HC _ Hok) as [(x & j & Hx & Hj & Hr') (b & Hb & E)]. split.
    + exists x, j. split; [|done]. apply (completed_stays (submit_key active number) (a_db a') d2 x D' Hr Hx). by eexists.
    + destruct (binding_stays _ _ _ _ D' Hr Hb) as (b' & Hb' & E'). exists b'. split; [done|congruence].
Qed.

(** C39. What a submission records was built from plan tables that this run
    read, as its log says: from the approved steps of the revision that the
    state names, their sources, each with a file below the requests root that
    has the approved checksum; for MULTI only from the first of them. *)
Theorem submission_from_approved_steps (w : WorkflowState) active number task plan a r a' d d' x :
  w k_plan = Some plan → w k_active_task_id = Some active → w k_plan_revision_number = Some number →
  uuid_parse active = Some task → agent_reachable fp signal digest (a_db a) → afair runs a → a_log a = [] →
  submit w a = (r, a') → Committed d d' ∈ a_log a' → effects d !! submit_key active number = None →
  effects d' !! submit_key active number = Some x →
  ∃ t, Planned t t ∈ a_log a' ∧ submit_request_of w (submit_key active number) t (x_request x) ∧ runs (agent t) (a_db a').
Proof.
  intros Hp Ha Hn Ht Hd Hf Hlog Hrun Hin Hn0 Hx. apply (reachable_agent_ok fp signal digest) in Hd.
  destruct (wp_run _ _ _ _ _ (submit_called w active number task plan a Hp Ha Hn Ht Hf Hd) Hrun) as (l & (_ & R & L) & Hl & _).
  rewrite L, Hlog in Hin. destruct (Hl _ Hin x Hn0 Hx) as (L0 & dd & HL & _ & R2 & t & Hread & R3 & Hq). exists t.
  split; [by eapply elem_of_prefix|]. split; [done|by transitivity dd].
Qed.
(** For every schedule: what an append sends is the request recorded for its
    task and the operation before it; what it records was built for the binding
    that named this execution and this operation, with its version and its next
    sequence, and from the first approved step of the plan it persisted; and
    it returns only the receipt, plan and revision that are recorded. *)
Theorem append_follows_binding (w : WorkflowState) decision active operation execution revision task plan step a r a' :
  w k_plan = Some plan → head (steps plan) = Some step → w k_active_task_id = Some active →
  w k_current_operation_id = Some operation → w k_execution_id = Some execution → w k_plan_revision_id = Some revision →
  uuid_parse active = Some task → agent_reachable fp signal digest (a_db a) → afair runs a → a_log a = [] →
  append w decision a = (r, a') →
  (∀ q, Sent q ∈ a_log a' → ∃ x, effects (a_db a') !! append_key active operation = Some x ∧ x_request x = q ∧ x_kind x = "append") ∧
  (∀ d d' x, Committed d d' ∈ a_log a' → effects d !! append_key active operation = None →
     effects d' !! append_key active operation = Some x →
     ∃ d0 b, runs d0 (a_db a') ∧ bindings d0 !! task = Some b ∧
       append_request_of w (append_key active operation) (one_step_plan plan (first_step step)) (a_log a') b (x_request x)) ∧
  (∀ receipt, r = Ok receipt → appended (append_key active operation) task receipt (a_db a')).
Proof.
  intros Hp Hs Ha Ho He Hr Ht Hd Hf Hlog Hrun. apply (reachable_agent_ok fp signal digest) in Hd.
  destruct (wp_run _ _ _ _ _ (append_called w decision active operation execution revision task plan step a
    Hp Hs Ha Ho He Hr Ht Hf Hd) Hrun) as (l & (_ & R & L) & Hl & HC).
  split; [|split; [|exact HC]].
  - rewrite L, Hlog. intros q (x & d & R1 & R2 & Hx & <- & Hv)%Hl.
    destruct (agent_run_grows fp signal digest d (a_db a')) as (_ & _ & _ & _ & _ & Hg & _); [done|by eapply agent_run_ok|].
    destruct (Hg _ _ Hx) as (y & Hy & _ & _ & Ek & _ & _ & Eq & _). exists y. apply raise_if_Ok, negb_false_iff in Hv.
    apply andb_true_iff in Hv as [[_ Hv%String.eqb_eq]%andb_true_iff _]. split; [done|split; congruence].
  - intros d d' x Hin Hn Hx. rewrite L, Hlog in Hin. destruct (Hl _ Hin x Hn Hx) as (L0 & dd & HL & _ & R2 & text & k & d0 & b & Hk & Hpk & R0 & Hb & Hq).
    assert (k = task) as -> by congruence. exists d0, b. split; [by transitivity dd|]. split; [done|].
    destruct Hq as (persisted & t & row & body & file & Hread & Hq). exists persisted, t, row, body, file. split; [by eapply elem_of_prefix|done].
Qed.
End Durable.

(** ** A submission and an append

    The task of [AgentDemo] submits the approved step of its plan and appends
    another one; the theorems of [DurableEffectsProps] are applied to them. *)

Import AgentDemo.

Module DurableDemo.
Definition sha (s : string) : string := s.
Definition pformat (j : json) : string := "".
Definition no_check (s : string) : result unit := Ok tt.
Definition hash (p : PlanDraft) : string := "0000000000000000000000000000000000000000000000000000000000000000".
Definition demo_step : PlanStepDraft := mk_step 0 "t" "p" CUSTOM_CODE None None [] "r" [] [] 60 (Some "code").
Definition demo_plan : PlanDraft := mk_plan "o" "s" MULTI "basic" [demo_step] [] [].
Definition demo_plan_json (p : PlanDraft) : json := JObj [].
Definition demo_plan_model (j : json) : result PlanDraft := Ok demo_plan.
Definition demo_decision_json (d : MultiDecision) : json := JObj [].
Definition decision : MultiDecision := mk_decision APPEND_STEP "r" (Some demo_step).
Definition answered (j : json) : result CommandResponse := Ok (mk_command_response 9 (Some 4%N) 1).
Definition answered_next (j : json) : result CommandResponse := Ok (mk_command_response 9 (Some 5%N) 2).

Definition demo_root : list string := ["srv"; "requests"].
Definition demo_resolve (root : list string) (text : string) : list string := root ++ [text].
Definition row : plan_step_row := mk_plan_step "t" "p" "r" None None [] "code" "s.py" 60.
Definition tables : wdb := set_plan_steps <[(20%N, 0) := row]> (empty_wdb empty_adb).

Definition no_state : WorkflowState := λ _, None.
Definition state : WorkflowState :=
  put k_plan demo_plan (put k_active_task_id (uuid_str 7) (put k_plan_revision_number 1 (put k_plan_revision_id (uuid_str 20)
    (put k_execution_mode MULTI (put k_runtime_profile "basic" (put k_user_id "u" (put k_project_id "p" (put k_session_id "s"
      (put k_execution_id (uuid_str 9) (put k_current_operation_id (uuid_str 4) no_state)))))))))).

Definition tick (a : areply) : atick := mk_atick (λ d, d) 50 0 (ADone a).
Definition http : areply := AHttp 200 (Some (JObj [])) "{}".
Definition submitting : aworld :=
  mk_aworld d1 (map tick [ANone; APlans tables (1, 2, 3)%N; AText "code"; ANone; ANone; http; ANone; ANone]) [].
Definition submitted_run :=
  durable_submit digest answered Ok sha demo_plan_json 60 demo_root demo_resolve state submitting.
Definition d2' : adb := a_db submitted_run.2.

Lemma submitting_fair : afair (rtc step) submitting.
Proof. unfold afair, submitting, tick. simpl. repeat constructor. Qed.

(** The append persists its plan as the next revision of the task's plan. *)
Definition appending : aworld :=
  mk_aworld d2' (map tick [ANone; ANone; APlans (set_plan_steps (λ _, ∅) (set_revisions (λ _, ∅) tables)) (1, 2, 3)%N;
    APlans (set_plan_steps (λ _, {[(2%N, 0) := row]}) tables) (1, 2, 3)%N; ANone; AText "code"; ANone; ANone; http; ANone; ANone]) [].
Definition append_state : WorkflowState := put k_plan_revision_number 0 state.
Definition appended_run :=
  durable_append digest answered_next Ok sha pformat no_check [] "r" hash demo_plan_json demo_plan_model demo_decision_json
    demo_root demo_resolve append_state decision appending.

Definition submit_key_1 : string := submit_key (uuid_str 7) 1.
Definition append_key_4 : string := append_key (uuid_str 7) (uuid_str 4).
Definition is_sent (a : action) : bool := match a with Sent _ => true | _ => false end.
Definition recorded (key : string) (a : action) : option (adb * adb * effect_row) :=
  match a with
  | Committed d d' => match effects d !! key, effects d' !! key with None, Some x => Some (d, d', x) | _, _ => None end
  | _ => None
  end.

Lemma sent_of l : existsb is_sent l = true → ∃ q, Sent q ∈ l.
Proof. intros (a & Hin & Ha)%existsb_exists. apply list_elem_of_In in Hin. destruct a; try done. by eexists. Qed.
Lemma recorded_of key l : existsb (λ a, bool_decide (is_Some (recorded key a))) l = true →
  ∃ d d' x, Committed d d' ∈ l ∧ effects d !! key = None ∧ effects d' !! key = Some x.
Proof.
  intros (a & Hin & [[[d d'] x] Ha]%bool_decide_eq_true)%existsb_exists. apply list_elem_of_In in Hin. destruct a as [| | | | | | |e f|]; try done.
  simpl in Ha. destruct (effects e !! key) eqn:E1; [done|]. destruct (effects f !! key) eqn:E2; [|done]. by exists e, f, e0.
Qed.

Lemma submits : ∃ r, submitted_run.1 = Ok r. Proof. vm_compute. by eexists. Qed.
Lemma submit_sends : ∃ q, Sent q ∈ a_log submitted_run.2. Proof. apply sent_of. vm_compute. reflexivity. Qed.
Lemma submit_records : ∃ d d' x, Committed d d' ∈ a_log submitted_run.2 ∧ effects d !! submit_key_1 = None ∧ effects d' !! submit_key_1 = Some x.
Proof. apply recorded_of. vm_compute. reflexivity. Qed.
Lemma appends : ∃ r, appended_run.1 = Ok r. Proof. vm_compute. by eexists. Qed.
Lemma append_records : ∃ d d' x, Committed d d' ∈ a_log appended_run.2 ∧ effects d !! append_key_4 = None ∧ effects d' !! append_key_4 = Some x.
Proof. apply recorded_of. vm_compute. reflexivity. Qed.

Lemma state_plan : state k_plan = Some demo_plan. Proof. unfold state. by wf_simpl. Qed.
Lemma state_task : state k_active_task_id = Some (uuid_str 7). Proof. unfold state. by wf_simpl. Qed.
Lemma state_number : state k_plan_revision_number = Some 1. Proof. unfold state. by wf_simpl. Qed.
Lemma append_plan : append_state k_plan = Some demo_plan. Proof. unfold append_state, state. by wf_simpl. Qed.
Lemma append_task : append_state k_active_task_id = Some (uuid_str 7). Proof. unfold append_state, state. by wf_simpl. Qed.
Lemma append_operation : append_state k_current_operation_id = Some (uuid_str 4). Proof. unfold append_state, state. by wf_simpl. Qed.
Lemma append_execution : append_state k_execution_id = Some (uuid_str 9). Proof. unfold append_state, state. by wf_simpl. Qed.
Lemma append_revision : append_state k_plan_revision_id = Some (uuid_str 20). Proof. unfold append_state, state. by wf_simpl. Qed.
Lemma task_uuid : uuid_parse (uuid_str 7) = Some 7%N. Proof. vm_compute. reflexivity. Qed.

Lemma reach2' : reachable d2'.
Proof.
  refine (transitivity (R := rtc step) reach1 _). destruct submits as [r Hr].
  refine (wp_run _ (λ r w', rtc step (a_db submitting) (a_db w')) submitting (Ok r) submitted_run.2 _ _).
  - eapply wp_mono; [apply (submit_called fp no_signal digest answered Ok sha demo_plan_json 60 demo_root demo_resolve state (uuid_str 7) 1 7 demo_plan submitting);
      [exact state_plan|exact state_task|exact state_number|exact task_uuid|exact submitting_fair|
       apply (reachable_agent_ok fp no_signal digest), reach1]|].
    intros r' w' (l & (_ & R & _) & _). exact R.
  - rewrite <- Hr. apply surjective_pairing.
Qed.
Lemma appending_fair : afair (rtc step) appending.
Proof. unfold afair, appending, tick. simpl. repeat constructor. Qed.
End DurableDemo.

Import DurableDemo.

Lemma submission_recorded_first_witness :
  (∀ refs n, execution_references 7 d2' = Ok (refs, n) → n ≠ 0%nat) ∧ ∃ r, submitted submit_key_1 7 r d2'.
Proof.
  destruct (submission_recorded_first fp no_signal digest answered Ok sha demo_plan_json 60 demo_root demo_resolve state (uuid_str 7) 1 7 demo_plan submitting
    submitted_run.1 submitted_run.2 d2' state_plan state_task state_number task_uuid reach1 submitting_fair eq_refl
    (surjective_pairing _) (rtc_refl _ _)) as [H1 H2].
  destruct submit_sends as [q Hq], submits as [r Hr]. split; [exact (proj2 (H1 q Hq))|]. exists r. exact (H2 r Hr).
Defined.

Lemma submission_from_approved_steps_witness :
  ∃ x t, Planned t t ∈ a_log submitted_run.2 ∧ submit_request_of sha 60 demo_root demo_resolve state submit_key_1 t (x_request x).
Proof.
  destruct submit_records as (d & d' & x & Hin & Hn & Hx).
  destruct (submission_from_approved_steps fp no_signal digest answered Ok sha demo_plan_json 60 demo_root demo_resolve state (uuid_str 7) 1 7 demo_plan submitting
    submitted_run.1 submitted_run.2 d d' x state_plan state_task state_number task_uuid reach1 submitting_fair eq_refl
    (surjective_pairing _) Hin Hn Hx) as (t & Hr & Ht & _). exists x, t. exact (conj Hr Ht).
Defined.

Lemma append_follows_binding_witness :
  (∃ x b, append_request_of sha demo_plan_json demo_root demo_resolve append_state append_key_4 (one_step_plan demo_plan (first_step demo_step))
    (a_log appended_run.2) b (x_request x)) ∧
  ∃ r, appended demo_plan_model append_key_4 7 r (a_db appended_run.2).
Proof.
  destruct append_records as (d & d' & x & Hin & Hn & Hx), appends as [r Hr].
  destruct (append_follows_binding fp no_signal digest answered_next Ok sha pformat no_check [] "r" hash demo_plan_json demo_plan_model
    demo_decision_json demo_root demo_resolve append_state decision (uuid_str 7) (uuid_str 4) (uuid_str 9) (uuid_str 20) 7 demo_plan demo_step appending
    appended_run.1 appended_run.2 append_plan eq_refl append_task append_operation append_execution append_revision task_uuid
    reach2' appending_fair eq_refl (surjective_pairing _)) as (_ & H2 & H3).
  split; [|exists r; exact (H3 r Hr)]. destruct (H2 d d' x Hin Hn Hx) as (d0 & b & _ & _ & Hq). exists x, b. exact Hq.
Defined.
