(* ===== verification/StreamTrim.v ===== *)
(** * Safe trimming of streams
    ([ex_agent/transport/stream_maintenance.py])

    The Lua script that removes old entries of a stream, and the plan that is
    computed in Python. Redis is an interface, [RedisStream], with the
    documented behaviour of the commands the script calls. *)

From stdpp Require Import base gmap strings list sorting relations.
From Stdlib Require Import Ascii ZArith Lia.
From S2P Require Import Prelude Text RedisStreams.
Local Open Scope Z_scope.
Set Default Proof Using "Type".

(** ** Ids as the script compares them *)

(** [string.gsub(s, '^0+', '')] *)
Fixpoint drop_zeros (s : string) : string :=
  match s with
  | String c s' => if decide (c = "0"%char) then drop_zeros s' else s
  | EmptyString => EmptyString
  end.

(** [<] of Lua strings, byte by byte. *)
Fixpoint text_less (s t : string) : bool :=
  match s, t with
  | _, EmptyString => false
  | EmptyString, String _ _ => true
  | String c s', String d t' =>
      let a := Ascii.N_of_ascii c in let b := Ascii.N_of_ascii d in
      (a <? b)%N || (a =? b)%N && text_less s' t'
  end.

(** [decimal_less] *)
Definition decimal_less (left right : string) : bool :=
  let trim s := let s' := drop_zeros s in if String.eqb s' "" then "0" else s' in
  let left := trim left in
  let right := trim right in
  if negb (String.length left =? String.length right)%nat
  then (String.length left <? String.length right)%nat
  else text_less left right.

Definition decimal_char (c : ascii) : bool := let n := Ascii.N_of_ascii c in (48 <=? n)%N && (n <=? 57)%N.
Fixpoint all_decimal (s : string) : bool :=
  match s with EmptyString => true | String c s' => decimal_char c && all_decimal s' end.

(** [string.match(id, '^(%d+)%-(%d+)$')] *)
Definition id_match (id : string) : option (string * string) :=
  match split_dash id with
  | [a; b] => if negb (String.eqb a "") && all_decimal a && (negb (String.eqb b "") && all_decimal b) then Some (a, b) else None
  | _ => None
  end.

Definition lua_error : exn := ResponseError "bad argument #1 to 'gsub'".

(** [id_less] *)
Definition id_less (left right : string) : result bool :=
  match id_match left, id_match right with
  | Some (left_ms, left_seq), Some (right_ms, right_seq) =>
      if String.eqb left_ms right_ms then Ok (decimal_less left_seq right_seq)
      else Ok (decimal_less left_ms right_ms)
  | _, _ => Err lua_error
  end.

(** [minimum] *)
Definition minimum (left right : string) : result string :=
  b ← id_less right left; Ok (if b : bool then right else left).

(** ** What the comparison computes *)

(** The number a decimal text denotes, read after [v]. *)
Fixpoint decimal_value (v : N) (s : string) : N :=
  match s with
  | EmptyString => v
  | String c s' => decimal_value (v * 10 + (Ascii.N_of_ascii c - 48)) s'
  end.

Definition decimal (s : string) : Prop := string_all (λ c, decimal_char c = true) s.

Lemma decimal_value_acc v s : (decimal_value v s = v * 10 ^ N.of_nat (String.length s) + decimal_value 0 s)%N.
Proof.
  revert v. induction s as [|c s IH]; intros v; [simpl; lia|].
  cbn [decimal_value String.length]. rewrite IH, (IH (0 * 10 + _)%N), Nat2N.inj_succ, N.pow_succ_r'. lia.
Qed.

Lemma decimal_value_bound s : decimal s → (decimal_value 0 s < 10 ^ N.of_nat (String.length s))%N.
Proof.
  induction s as [|c s IH]; [simpl; lia|]. intros [Hc Hs]. specialize (IH Hs).
  cbn [decimal_value String.length]. rewrite decimal_value_acc, Nat2N.inj_succ, N.pow_succ_r'.
  unfold decimal_char in Hc. apply andb_true_iff in Hc as [H1%N.leb_le H2%N.leb_le].
  assert (Ascii.N_of_ascii c - 48 ≤ 9)%N by lia. nia.
Qed.

Lemma text_less_value s t : decimal s → decimal t → String.length s = String.length t →
  text_less s t = (decimal_value 0 s <? decimal_value 0 t)%N.
Proof.
  revert t. induction s as [|c s IH]; intros [|d t] Hs Ht Hlen; try done. destruct Hs as [Hc Hs], Ht as [Hd Ht].
  injection Hlen as Hlen. cbn [text_less decimal_value]. rewrite decimal_value_acc, (decimal_value_acc (0 * 10 + _)%N t), Hlen.
  pose proof (decimal_value_bound s Hs) as B1. pose proof (decimal_value_bound t Ht) as B2. rewrite Hlen in B1.
  unfold decimal_char in Hc, Hd. apply andb_true_iff in Hc as [C1%N.leb_le C2%N.leb_le].
  apply andb_true_iff in Hd as [D1%N.leb_le D2%N.leb_le]. rewrite IH by done.
  set (a := Ascii.N_of_ascii c) in *. set (b := Ascii.N_of_ascii d) in *. set (p := (10 ^ N.of_nat (String.length t))%N) in *.
  destruct (N.ltb_spec a b) as [Hab|Hab]; simpl.
  - symmetry. apply N.ltb_lt. nia.
  - destruct (N.eqb_spec a b) as [->|Hne]; simpl.
    + destruct (N.ltb_spec (decimal_value 0 s) (decimal_value 0 t)); symmetry; [apply N.ltb_lt|apply N.ltb_ge]; lia.
    + symmetry. apply N.ltb_ge. nia.
Qed.

(** A decimal text without leading zeros. *)
Definition normal (s : string) : Prop :=
  decimal s ∧ (s = "0" ∨ ∃ c s', s = String c s' ∧ c ≠ "0"%char).

Lemma drop_zeros_spec s : decimal s →
  decimal (drop_zeros s) ∧ decimal_value 0 (drop_zeros s) = decimal_value 0 s ∧
  (drop_zeros s = "" ∨ ∃ c s', drop_zeros s = String c s' ∧ c ≠ "0"%char).
Proof.
  induction s as [|c s IH]; intros Hs; [split; [done|split; [done|by left]]|]. simpl. case_decide as Hc.
  - subst c. destruct Hs as [_ Hs]. exact (IH Hs).
  - split; [done|]. split; [done|]. right. by exists c, s.
Qed.

Lemma normal_trim s : decimal s → let s' := drop_zeros s in let u := if String.eqb s' "" then "0" else s' in
  normal u ∧ decimal_value 0 u = decimal_value 0 s.
Proof.
  intros Hs. destruct (drop_zeros_spec s Hs) as (Hd & Hv & Hn). cbv zeta.
  destruct (String.eqb_spec (drop_zeros s) "") as [E|E].
  - rewrite <- Hv, E. split; [split; [done|by left]|done].
  - split; [split; [done|]|done]. destruct Hn as [|Hn]; [done|by right].
Qed.

Lemma normal_value s : normal s → (s = "0" ∨ 10 ^ N.of_nat (pred (String.length s)) ≤ decimal_value 0 s)%N ∧
  (decimal_value 0 s < 10 ^ N.of_nat (String.length s))%N ∧ (0 < String.length s)%nat.
Proof.
  intros [Hd Hn]. split; [|split; [by apply decimal_value_bound|]].
  - destruct Hn as [|(c & s' & -> & Hc)]; [by left|]. right. cbn [decimal_value String.length pred]. rewrite decimal_value_acc.
    destruct Hd as [Hd _]. unfold decimal_char in Hd. apply andb_true_iff in Hd as [H1%N.leb_le H2%N.leb_le].
    assert (Ascii.N_of_ascii c ≠ 48)%N.
    { intros E. apply Hc. rewrite <- (Ascii.ascii_N_embedding c), E. done. }
    assert (1 ≤ 0 * 10 + (Ascii.N_of_ascii c - 48))%N by lia. nia.
  - destruct Hn as [->|(c & s' & -> & _)]; simpl; lia.
Qed.

Lemma normal_length_less s t : normal s → normal t → (String.length s < String.length t)%nat →
  (decimal_value 0 s < decimal_value 0 t)%N.
Proof.
  intros Hs Ht Hlen. destruct (normal_value s Hs) as (_ & B & Hpos), (normal_value t Ht) as ([->|Hl] & _ & _); [simpl in Hlen; lia|].
  assert (10 ^ N.of_nat (String.length s) ≤ 10 ^ N.of_nat (pred (String.length t)))%N by (apply N.pow_le_mono_r; lia). lia.
Qed.

(** [decimal_less] compares the numbers. *)
Lemma decimal_less_value s t : decimal s → decimal t → decimal_less s t = (decimal_value 0 s <? decimal_value 0 t)%N.
Proof.
  intros Hs Ht. unfold decimal_less. destruct (normal_trim s Hs) as [Ns Vs], (normal_trim t Ht) as [Nt Vt]. cbv zeta in *.
  set (u := if String.eqb (drop_zeros s) "" then "0" else drop_zeros s) in *.
  set (v := if String.eqb (drop_zeros t) "" then "0" else drop_zeros t) in *. rewrite <- Vs, <- Vt.
  destruct (Nat.eqb_spec (String.length u) (String.length v)) as [E|E]; simpl.
  - apply text_less_value; [apply Ns|apply Nt|done].
  - destruct (Nat.ltb_spec (String.length u) (String.length v)) as [Hlt|Hge]; symmetry.
    + by apply N.ltb_lt, normal_length_less.
    + apply N.ltb_ge, N.lt_le_incl, normal_length_less; [done..|lia].
Qed.

(** The texts Redis writes ids with. *)
Lemma is_digit_decimal c : is_digit 10 c → decimal_char c = true.
Proof.
  intros (d & Hd & ->). unfold digit_char, decimal_char. rewrite (proj2 (N.ltb_lt d 10) Hd).
  rewrite Ascii.N_ascii_embedding by lia. apply andb_true_iff. split; apply N.leb_le; lia.
Qed.

Lemma decimal_char_digit c : decimal_char c = true → char_digit c = Some (Ascii.N_of_ascii c - 48)%N ∧ c ≠ "_"%char.
Proof.
  intros Hc. unfold char_digit, decimal_char in *. rewrite Hc. split; [done|]. intros ->. done.
Qed.

Lemma read_decimal v s : decimal s → read_digits 10 v false s = Some (decimal_value v s).
Proof.
  revert v. induction s as [|c s IH]; intros v; [done|]. intros [Hc Hs]. destruct (decimal_char_digit c Hc) as [Hd Hu].
  cbn [read_digits decimal_value]. rewrite decide_False, Hd by done.
  unfold decimal_char in Hc. apply andb_true_iff in Hc as [H1%N.leb_le H2%N.leb_le].
  rewrite (proj2 (N.ltb_lt _ _)) by lia. by apply IH.
Qed.

Lemma int_str_decimal z : 0 ≤ z → decimal (int_str z) ∧ decimal_value 0 (int_str z) = Z.to_N z ∧ int_str z ≠ "".
Proof.
  intros Hz. assert (E : int_str z = N_str (Z.to_N z)) by (destruct z; [done..|lia]). rewrite E. clear E.
  generalize (Z.to_N z). clear. intros n. unfold N_str. set (fuel := S (N.to_nat (N.log2 n))).
  assert (Hd : decimal (put_digits 10 fuel n "")).
  { eapply string_all_impl; [apply is_digit_decimal|]. by apply put_digits_all. }
  destruct (put_digits_head 10 fuel n "") as (d & s & Hd36 & E); [done..|].
  split; [done|]. split; [|by rewrite E].
  assert (Hf : (n < 2 ^ N.of_nat fuel)%N).
  { unfold fuel. rewrite Nat2N.inj_succ, N2Nat.id. destruct (decide (n = 0%N)) as [->|]; [done|]. apply N.log2_spec. lia. }
  pose proof (read_put_digits 10 fuel n "" ltac:(lia) ltac:(lia) Hf) as Hr.
  rewrite E in *. destruct Hd as [Hc Hs]. destruct (decimal_char_digit _ Hc) as [Hcd Hu].
  cbn [read_digits] in Hr. rewrite decide_False, Hcd in Hr by done.
  cbn [decimal_value]. destruct (_ <? 10)%N; [|done]. rewrite read_decimal in Hr by done. simpl in Hr. by injection Hr as ->.
Qed.

Lemma all_decimal_true s : decimal s → all_decimal s = true.
Proof. induction s as [|c s IH]; [done|]. intros [Hc Hs]. simpl. by rewrite Hc, IH. Qed.

Lemma id_match_text id : valid_id id → id_match (id_text id) = Some (int_str id.1, int_str id.2).
Proof.
  intros [H1 H2]. unfold id_match, id_text. rewrite split_dash_app, split_dash_digits by (apply int_str_digits; lia).
  destruct (int_str_decimal id.1) as (D1 & _ & N1); [lia|]. destruct (int_str_decimal id.2) as (D2 & _ & N2); [lia|].
  apply String.eqb_neq in N1, N2. by rewrite N1, N2, !all_decimal_true.
Qed.

Lemma id_less_text a b : valid_id a → valid_id b → id_less (id_text a) (id_text b) = Ok (bool_decide (key_lt a b)).
Proof.
  intros Ha Hb. unfold id_less. rewrite !id_match_text by done. destruct Ha as [Ha1 Ha2], Hb as [Hb1 Hb2].
  destruct (int_str_decimal a.1) as (Da1 & Va1 & _); [lia|]. destruct (int_str_decimal a.2) as (Da2 & Va2 & _); [lia|].
  destruct (int_str_decimal b.1) as (Db1 & Vb1 & _); [lia|]. destruct (int_str_decimal b.2) as (Db2 & Vb2 & _); [lia|].
  rewrite !decimal_less_value by done. rewrite Va1, Va2, Vb1, Vb2. unfold key_lt.
  destruct (String.eqb_spec (int_str a.1) (int_str b.1)) as [E|E].
  - assert (a.1 = b.1) by (apply (f_equal py_int) in E; rewrite !py_int_int_str in E; congruence). f_equal.
    destruct (N.ltb_spec (Z.to_N a.2) (Z.to_N b.2)); symmetry; [apply bool_decide_eq_true_2|apply bool_decide_eq_false_2]; lia.
  - assert (a.1 ≠ b.1) by congruence. f_equal.
    destruct (N.ltb_spec (Z.to_N a.1) (Z.to_N b.1)); symmetry; [apply bool_decide_eq_true_2|apply bool_decide_eq_false_2]; lia.
Qed.

(** ** Streams of the server *)

(** A consumer group: how far it was delivered, and what it has not
    acknowledged, in id order. *)
Record stream_group := mk_sgroup { sg_name : string; sg_last : Z * Z; sg_pel : list (Z * Z) }.

(** The commands as documented: XLEN counts the entries; XREVRANGE lists them
    newest first; XINFO GROUPS and XPENDING report the groups; XTRIM MINID
    removes what is below an id, XDEL the listed entries, and neither touches
    the groups; XRANGE lists the oldest entries up to an id. *)
Class RedisStream := {
  rs : Type;
  rs_ids : rs → list (Z * Z);
  rs_groups : rs → list stream_group;
  x_exists : rs → bool;
  x_len : rs → Z;
  x_revrange : Z → rs → list string;
  x_groups : rs → list group_info;
  x_pending_min : string → rs → option string;
  x_trim_minid : string → rs → Z * rs;
  x_range_to : string → Z → rs → list string;
  x_del : list string → rs → Z * rs;
  x_exists_ids : ∀ s, x_exists s = false → rs_ids s = [];
  x_len_ids : ∀ s, x_len s = Z.of_nat (length (rs_ids s));
  x_revrange_ids : ∀ n s, x_revrange n s = map id_text (take (Z.to_nat n) (reverse (rs_ids s)));
  x_groups_of : ∀ s, Forall2 (λ i g, g_name i = sg_name g ∧ g_pending i = Z.of_nat (length (sg_pel g)) ∧
    g_last_delivered i = id_text (sg_last g)) (x_groups s) (rs_groups s);
  x_pending_of : ∀ s g, NoDup (map sg_name (rs_groups s)) → g ∈ rs_groups s → x_pending_min (sg_name g) s = id_text <$> head (sg_pel g);
  x_trim_of : ∀ b s, valid_id b → rs_ids (x_trim_minid (id_text b) s).2 = filter (λ x : Z * Z, ¬ key_lt x b) (rs_ids s) ∧
    (x_trim_minid (id_text b) s).1 = Z.of_nat (length (filter (λ x : Z * Z, key_lt x b) (rs_ids s))) ∧
    rs_groups (x_trim_minid (id_text b) s).2 = rs_groups s;
  x_range_of : ∀ b n s, valid_id b → x_range_to (id_text b) n s = map id_text (take (Z.to_nat n) (filter (λ x : Z * Z, key_le x b) (rs_ids s)));
  x_del_of : ∀ l s, Forall valid_id l → NoDup l → (∀ x, x ∈ l → x ∈ rs_ids s) →
    rs_ids (x_del (map id_text l) s).2 = filter (λ x : Z * Z, x ∉ l) (rs_ids s) ∧
    (x_del (map id_text l) s).1 = Z.of_nat (length l) ∧ rs_groups (x_del (map id_text l) s).2 = rs_groups s
}.

Section Trim.
Context `{RedisStream}.

(** *** [_SAFE_TRIM_SCRIPT] *)

(** The loop over the groups. *)
Fixpoint group_bounds (groups : list group_info) (s : rs) (boundary : string) : result string :=
  match groups with
  | [] => Ok boundary
  | g :: groups' =>
      boundary ← minimum boundary (g_last_delivered g);
      boundary ← (if 0 <? g_pending g
                  then match x_pending_min (g_name g) s with Some p => minimum boundary p | None => Ok boundary end
                  else Ok boundary);
      group_bounds groups' s boundary
  end.

(** The ids below the boundary. *)
Fixpoint below (rows : list string) (boundary : string) : result (list string) :=
  match rows with
  | [] => Ok []
  | row :: rows' => b ← id_less row boundary; ids ← below rows' boundary; Ok (if b : bool then row :: ids else ids)
  end.

(** The deletion, and the reply with the stream it leaves. *)
Definition remove_below (native : bool) (boundary : string) (s : rs) : result (Z * rs) :=
  if native then Ok (x_trim_minid boundary s) else
  ids ← below (x_range_to boundary 500 s) boundary;
  if bool_decide (ids = []) then Ok (0, s) else Ok (x_del ids s).

Definition safe_trim_script (retention : string) (minimum_entries : Z) (native : bool) (s : rs)
    : result ((Z * string * Z * Z) * rs) :=
  if negb (x_exists s) then Ok ((0, "0-0", 0, 0), s) else
  let length_ := x_len s in
  if length_ <=? minimum_entries then Ok ((0, "0-0", 0, length_), s) else
  let tail := x_revrange minimum_entries s in
  if (0 <? minimum_entries) && (Z.of_nat (length tail) <? minimum_entries) then Ok ((0, "0-0", 0, length_), s) else
  boundary ← (if 0 <? minimum_entries then minimum retention (default "" (last tail)) else Ok retention);
  let groups := x_groups s in
  boundary ← group_bounds groups s boundary;
  '(removed, s') ← remove_below native boundary s;
  Ok ((removed, boundary, Z.of_nat (length groups), length_), s').

(** *** [SafeStreamTrimmer] *)

Record ConsumerGroupBoundary := mk_boundary {
  cg_name : string;
  cg_last_delivered_id : string;
  cg_pending_count : Z;
  cg_oldest_pending_id : option string
}.
Record StreamTrimPlan := mk_trim_plan {
  tp_stream_exists : bool;
  tp_stream_length : Z;
  tp_retention_boundary_id : string;
  tp_tail_boundary_id : option string;
  tp_groups : list ConsumerGroupBoundary;
  tp_trim_before_id : option string
}.
Record StreamTrimResult := mk_trim_result {
  tr_removed_entries : Z;
  tr_trim_before_id : string;
  tr_inspected_groups : Z;
  tr_stream_length_before : Z
}.

(** [StreamTrimPlan.can_trim] *)
Definition can_trim (p : StreamTrimPlan) : bool :=
  match tp_trim_before_id p with Some b => negb (String.eqb b "0-0") | None => false end.

(** [SafeStreamTrimmer.__init__] *)
Definition trimmer_init (retention_seconds minimum_retained_entries : Z) (mode : string) : result unit :=
  raise_if (retention_seconds <? 1) (ValueError "retention_seconds must be positive");;
  raise_if (minimum_retained_entries <? 0) (ValueError "minimum_retained_entries cannot be negative");;
  raise_if (negb (String.eqb mode "compat" || String.eqb mode "native")) (ValueError "redis_stream_mode must be compat or native").

(** [_retention_boundary]; [now_ms] is the current time in milliseconds. *)
Definition retention_cutoff (retention_seconds now_ms : Z) : Z := Z.max 0 (now_ms - retention_seconds * 1000).
Definition retention_boundary (retention_seconds now_ms : Z) : string := int_str (retention_cutoff retention_seconds now_ms) +:+ "-0".

(** [_stream_id_parts]: [value.split("-", 1)] *)
Fixpoint split_first (s : string) : option (string * string) :=
  match s with
  | EmptyString => None
  | String c s' => if decide (c = "-"%char) then Some ("", s') else (λ p, (String c p.1, p.2)) <$> split_first s'
  end.
Definition stream_id_parts (value : string) : result (Z * Z) :=
  let bad := ValueError ("Invalid Redis Stream ID: " +:+ value) in
  match split_first value with
  | Some (a, b) => m ← from_option_err bad (py_int a); q ← from_option_err bad (py_int b); Ok (m, q)
  | None => Err bad
  end.

(** [min(boundaries, key=_stream_id_parts)] *)
Fixpoint min_from (best : string) (key : Z * Z) (l : list string) : result string :=
  match l with
  | [] => Ok best
  | x :: l' => k ← stream_id_parts x; if bool_decide (key_lt k key) then min_from x k l' else min_from best key l'
  end.
Definition min_boundary (first : string) (l : list string) : result string := k ← stream_id_parts first; min_from first k l.

(** [_groups]; every call is a command of its own. *)
Definition groups_of (s_groups : rs) (s_pending : string → rs) : list ConsumerGroupBoundary :=
  map (λ g, mk_boundary (g_name g) (g_last_delivered g) (g_pending g)
        (if negb (g_pending g =? 0) then x_pending_min (g_name g) (s_pending (g_name g)) else None)) (x_groups s_groups).

(** [_tail_boundary] *)
Definition tail_boundary (minimum_entries : Z) (s : rs) : option string :=
  if minimum_entries =? 0 then None else
  let rows := x_revrange minimum_entries s in
  if Z.of_nat (length rows) <? minimum_entries then None else last rows.

Definition validate_stream (stream : string) : result unit :=
  raise_if (String.eqb (strip stream) "") (ValueError "stream cannot be empty").

(** [SafeStreamTrimmer.plan]; its commands may see different streams. *)
Definition plan (stream : string) (retention_seconds minimum_entries now_ms : Z) (s_exists s_len s_tail s_groups : rs) (s_pending : string → rs)
    : result StreamTrimPlan :=
  validate_stream stream;;
  let retention := retention_boundary retention_seconds now_ms in
  if negb (x_exists s_exists) then Ok (mk_trim_plan false 0 retention None [] None) else
  let length_ := x_len s_len in
  let groups := groups_of s_groups s_pending in
  if length_ <=? minimum_entries then Ok (mk_trim_plan true length_ retention None groups None) else
  let tail := tail_boundary minimum_entries s_tail in
  before ← min_boundary retention
    (option_list tail ++ concat (map (λ g, cg_last_delivered_id g :: option_list (cg_oldest_pending_id g)) groups));
  Ok (mk_trim_plan true length_ retention tail groups (Some before)).

(** [SafeStreamTrimmer.trim] *)
Definition trim (stream : string) (retention_seconds minimum_entries now_ms : Z) (native : bool) (s : rs) : result (StreamTrimResult * rs) :=
  validate_stream stream;;
  '((removed, before, groups, length_), s') ← safe_trim_script (retention_boundary retention_seconds now_ms) minimum_entries native s;
  Ok (mk_trim_result removed before groups length_, s').
End Trim.
