(* ===== verification/StreamTrimProps.v ===== *)
(** * Properties of the safe trim

    What the trim removes was delivered to every group and acknowledged, is
    older than the retention and not among the newest entries; the plan
    announces exactly the boundary the script uses; and the bounded deletion
    removes the oldest entries of what the native command removes. *)

From stdpp Require Import base gmap strings list sorting relations.
From Stdlib Require Import Ascii ZArith Lia.
From S2P Require Import Prelude Text RedisStreams StreamTrim.
Local Open Scope Z_scope.
Set Default Proof Using "Type".

(** ** Minima of ids *)

Definition kmin (a b : Z * Z) : Z * Z := if decide (key_lt b a) then b else a.

Lemma kmin_le a b : key_le (kmin a b) a ∧ key_le (kmin a b) b.
Proof. unfold kmin. case_decide; split; auto using key_lt_le, key_le_not, key_le_refl. Qed.

Lemma kmin_valid a b : valid_id a → valid_id b → valid_id (kmin a b).
Proof. intros. unfold kmin. by case_decide. Qed.

Lemma fold_kmin_le b l : key_le (foldl kmin b l) b ∧ ∀ x, x ∈ l → key_le (foldl kmin b l) x.
Proof.
  revert b. induction l as [|y l IH]; intros b; simpl.
  - split; [apply key_le_refl|by intros x Hx%not_elem_of_nil].
  - destruct (IH (kmin b y)) as [H1 H2], (kmin_le b y) as [H3 H4]. split; [by etransitivity|].
    intros x [->|Hx]%elem_of_cons; [by etransitivity|by apply H2].
Qed.

Lemma fold_kmin_valid b l : valid_id b → Forall valid_id l → valid_id (foldl kmin b l).
Proof.
  revert b. induction l as [|y l IH]; intros b Hb Hl; simpl; [done|]. inversion Hl; subst.
  apply IH; [by apply kmin_valid|done].
Qed.

Lemma minimum_text a b : valid_id a → valid_id b → minimum (id_text a) (id_text b) = Ok (id_text (kmin a b)).
Proof.
  intros Ha Hb. unfold minimum. rewrite id_less_text by done. simpl. unfold kmin. case_decide as Hl.
  - by rewrite bool_decide_eq_true_2.
  - by rewrite bool_decide_eq_false_2.
Qed.

Lemma split_first_app s t : string_all (λ c, c ≠ "-"%char) s → split_first (s +:+ "-" +:+ t) = Some (s, t).
Proof.
  induction s as [|c s IH]; intros Hs; [done|]. destruct Hs as [Hc Hs].
  change (split_first (String c (s +:+ "-" +:+ t)) = Some (String c s, t)). cbn [split_first].
  rewrite decide_False, IH by done. done.
Qed.

Lemma stream_id_parts_text a : valid_id a → stream_id_parts (id_text a) = Ok a.
Proof.
  intros [H1 H2]. unfold stream_id_parts, id_text. rewrite split_first_app by (apply int_str_digits; lia).
  rewrite !py_int_int_str. simpl. by destruct a.
Qed.

Lemma min_from_text b l : valid_id b → Forall valid_id l → min_from (id_text b) b (map id_text l) = Ok (id_text (foldl kmin b l)).
Proof.
  revert b. induction l as [|y l IH]; intros b Hb Hl; [done|]. inversion Hl as [|?? Hy Hl']; subst. cbn [map min_from foldl].
  rewrite stream_id_parts_text by done. cbn [mbind result_bind]. unfold kmin. case_decide as E.
  - rewrite bool_decide_eq_true_2 by done. by apply IH.
  - rewrite bool_decide_eq_false_2 by done. by apply IH.
Qed.

Section Trim.
Context `{RedisStream}.

(** What Redis guarantees of a stream. *)
Record stream_ok (s : rs) : Prop := {
  so_ids : Forall valid_id (rs_ids s);
  so_sorted : StronglySorted key_lt (rs_ids s);
  so_last : ∀ g, g ∈ rs_groups s → valid_id (sg_last g);
  so_pel : ∀ g, g ∈ rs_groups s → Forall valid_id (sg_pel g) ∧ StronglySorted key_lt (sg_pel g);
  so_names : NoDup (map sg_name (rs_groups s))
}.

(** The ids nothing at or above which may go: the oldest of the retained tail,
    and for every group how far it was delivered and its oldest pending entry. *)
Definition group_ids (g : stream_group) : list (Z * Z) := sg_last g :: option_list (head (sg_pel g)).
Definition tail_id (minimum_entries : Z) (s : rs) : option (Z * Z) :=
  if 0 <? minimum_entries then last (take (Z.to_nat minimum_entries) (reverse (rs_ids s))) else None.
Definition limits (minimum_entries : Z) (s : rs) : list (Z * Z) :=
  option_list (tail_id minimum_entries s) ++ concat (map group_ids (rs_groups s)).
Definition safe_boundary (b0 : Z * Z) (minimum_entries : Z) (s : rs) : Z * Z := foldl kmin b0 (limits minimum_entries s).

Lemma tail_id_valid s n : stream_ok s → Forall valid_id (option_list (tail_id n s)).
Proof.
  intros Hs. unfold tail_id. destruct (0 <? n); [|constructor]. destruct (last _) as [x|] eqn:E; simpl; [|constructor].
  constructor; [|constructor]. apply last_Some_elem_of, elem_of_take_elem in E. rewrite elem_of_reverse in E.
  pose proof (so_ids s Hs) as Hv. rewrite Forall_forall in Hv. auto.
Qed.

Lemma group_ids_valid s g : stream_ok s → g ∈ rs_groups s → Forall valid_id (group_ids g).
Proof.
  intros Hs Hg. constructor; [by eapply so_last|]. destruct (so_pel s Hs g Hg) as [Hp _].
  destruct (sg_pel g); [constructor|]. inversion Hp; subst. simpl. constructor; [done|constructor].
Qed.

Lemma limits_valid s n : stream_ok s → Forall valid_id (limits n s).
Proof.
  intros Hs. apply Forall_app. split; [by apply tail_id_valid|]. apply Forall_concat, Forall_forall.
  intros l (g & -> & Hg)%list_elem_of_fmap. by eapply group_ids_valid.
Qed.

Lemma limits_groups s n g x : g ∈ rs_groups s → x ∈ group_ids g → x ∈ limits n s.
Proof.
  intros Hg Hx. apply elem_of_app. right. apply list_elem_of_In, in_concat. exists (group_ids g).
  split; apply list_elem_of_In; [|done]. apply list_elem_of_fmap. by exists g.
Qed.

(** The loop over the groups takes their limits into account. *)
Lemma group_bounds_text s infos groups b : stream_ok s → valid_id b → (∀ g, g ∈ groups → g ∈ rs_groups s) →
  Forall2 (λ i g, g_name i = sg_name g ∧ g_pending i = Z.of_nat (length (sg_pel g)) ∧ g_last_delivered i = id_text (sg_last g)) infos groups →
  group_bounds infos s (id_text b) = Ok (id_text (foldl kmin b (concat (map group_ids groups)))).
Proof.
  intros Hs. revert groups b. induction infos as [|i infos IH]; intros groups b Hb Hin Hf; inversion Hf as [|? g ? groups' (En & Ep & El) Hf']; subst; [done|].
  assert (Hg : g ∈ rs_groups s) by (apply Hin; left). pose proof (group_ids_valid s g Hs Hg) as Hv. inversion Hv as [|?? Hv1 Hv2]; subst.
  cbn [group_bounds map concat group_ids]. rewrite El, minimum_text by done. cbn [mbind result_bind].
  assert (Hk : valid_id (kmin b (sg_last g))) by by apply kmin_valid.
  rewrite Ep, En. rewrite (x_pending_of s g) by (done || apply Hs). cbn [app foldl]. rewrite foldl_app.
  unfold group_ids at 1. destruct (sg_pel g) as [|p pel] eqn:Epel; rewrite ?Epel; cbn [length head option_list foldl fmap option_fmap option_map].
  - simpl. apply IH; [done|intros; apply Hin; by right|done].
  - rewrite (proj2 (Z.ltb_lt 0 _)) by lia. inversion Hv2 as [|?? Hp _]; subst. rewrite minimum_text by done. cbn [mbind result_bind].
    apply IH; [by apply kmin_valid|intros; apply Hin; by right|done].
Qed.

Lemma script_boundary s b0 n : stream_ok s → valid_id b0 → 0 ≤ n → n < x_len s →
  (boundary ← (if 0 <? n then minimum (id_text b0) (default "" (last (x_revrange n s))) else Ok (id_text b0));
   group_bounds (x_groups s) s boundary) = Ok (id_text (safe_boundary b0 n s)).
Proof.
  intros Hs Hb Hn Hlen. unfold safe_boundary, limits, tail_id. rewrite foldl_app.
  assert (Hg : ∀ b, valid_id b → group_bounds (x_groups s) s (id_text b) = Ok (id_text (foldl kmin b (concat (map group_ids (rs_groups s)))))).
  { intros b Hbv. apply group_bounds_text; [done|done|done|apply x_groups_of]. }
  destruct (0 <? n) eqn:E0; [|cbn; by apply Hg]. rewrite x_revrange_ids. 
  replace (last (map id_text (take (Z.to_nat n) (reverse (rs_ids s))))) with (id_text <$> last (take (Z.to_nat n) (reverse (rs_ids s))))
    by (symmetry; apply fmap_last).
  pose proof (tail_id_valid s n Hs) as Ht. unfold tail_id in Ht. rewrite E0 in Ht.
  destruct (last (take (Z.to_nat n) (reverse (rs_ids s)))) as [t|] eqn:El.
  - inversion Ht; subst. change (default "" (id_text <$> Some t)) with (id_text t). rewrite minimum_text by done. cbn. apply Hg. by apply kmin_valid.
  - exfalso. apply last_None in El. apply (f_equal length) in El. rewrite length_take, length_reverse in El. simpl in El.
    rewrite x_len_ids in Hlen. apply Z.ltb_lt in E0. lia.
Qed.

(** ** The removal *)

Lemma filter_sorted_take (l : list (Z * Z)) b : StronglySorted key_lt l →
  filter (λ x : Z * Z, key_lt x b) l = take (length (filter (λ x : Z * Z, key_lt x b) l)) l ∧
  filter (λ x : Z * Z, ¬ key_lt x b) l = drop (length (filter (λ x : Z * Z, key_lt x b) l)) l.
Proof.
  induction 1 as [|a l Hl IH Ha]; [done|]. change sort_key with (Z * Z)%type in *. rewrite !filter_cons. destruct IH as [IH1 IH2].
  destruct (decide (key_lt a b)) as [Hab|Hab].
  - rewrite decide_False by auto. simpl. split; [by f_equal|done].
  - rewrite decide_True by done. assert (E : filter (λ x : Z * Z, key_lt x b) l = []).
    { apply filter_none. intros x Hx Hxb. rewrite Forall_forall in Ha. apply Hab.
      pose proof (Ha x Hx) as Hax. unfold key_lt in *. destruct a, x, b; simpl in *. lia. }
    change sort_key with (Z * Z)%type in E. rewrite E in *. simpl. split; [done|]. f_equal. exact IH2.
Qed.

Lemma below_text ids b : valid_id b → Forall valid_id ids → below (map id_text ids) (id_text b) = Ok (map id_text (filter (λ x : Z * Z, key_lt x b) ids)).
Proof.
  intros Hb. induction 1 as [|x ids Hx Hids IH]; [done|]. cbn [map below]. rewrite id_less_text by done. cbn [mbind result_bind].
  rewrite IH. cbn [mbind result_bind]. rewrite filter_cons. case_decide.
  - by rewrite bool_decide_eq_true_2.
  - by rewrite bool_decide_eq_false_2.
Qed.

(** What lies below the boundary, and how much of it a mode removes. *)
Definition removable (b : Z * Z) (s : rs) : nat := length (filter (λ x : Z * Z, key_lt x b) (rs_ids s)).
Definition quota (native : bool) (n : nat) : nat := if native then n else min 500 n.

Lemma take_below (l : list (Z * Z)) b n : StronglySorted key_lt l →
  filter (λ x : Z * Z, key_lt x b) (take n (filter (λ x : Z * Z, key_le x b) l)) = take n (filter (λ x : Z * Z, key_lt x b) l).
Proof.
  intros Hs. revert n. induction Hs as [|a l Hl IH Ha]; intros n; [by destruct n|]. change sort_key with (Z * Z)%type in *. rewrite !filter_cons.
  destruct (decide (key_lt a b)) as [Hab|Hab].
  - rewrite decide_True by by apply key_lt_le. destruct n as [|n]; [done|]. simpl. rewrite filter_cons_True by done. by rewrite IH.
  - assert (E : filter (λ x : Z * Z, key_lt x b) l = []).
    { apply filter_none. intros x Hx Hxb. rewrite Forall_forall in Ha. apply Hab.
      pose proof (Ha x Hx) as Hax. unfold key_lt in *. destruct a, x, b; simpl in *. lia. }
    change sort_key with (Z * Z)%type in E. rewrite E, take_nil. case_decide as Hle.
    + destruct n as [|n]; [done|]. simpl. rewrite filter_cons_False by done. apply filter_none. intros x Hx%elem_of_take_elem Hxb.
      apply list_elem_of_filter in Hx as [_ Hx]. assert (x ∈ ([] : list (Z * Z))) as Hin by (rewrite <- E; by apply list_elem_of_filter).
      by apply not_elem_of_nil in Hin.
    + apply filter_none. intros x Hx%elem_of_take_elem Hxb.
      apply list_elem_of_filter in Hx as [_ Hx]. assert (x ∈ ([] : list (Z * Z))) as Hin by (rewrite <- E; by apply list_elem_of_filter).
      by apply not_elem_of_nil in Hin.
Qed.

Lemma sorted_NoDup (l : list (Z * Z)) : StronglySorted key_lt l → NoDup l.
Proof.
  induction 1 as [|a l Hl IH Ha]; constructor; [|done]. intros Hin. rewrite Forall_forall in Ha. by apply (key_lt_irrefl a), Ha.
Qed.

Lemma filter_not_in_prefix (l1 l2 : list (Z * Z)) : NoDup (l1 ++ l2) → filter (λ x : Z * Z, x ∉ l1) (l1 ++ l2) = l2.
Proof.
  intros (_ & Hd & _)%NoDup_app. rewrite filter_app. rewrite (filter_none _ l1) by (intros x Hx Hn; by apply Hn).
  simpl. apply filter_all. intros x Hx Ht. by apply (Hd x).
Qed.

Lemma filter_not_in_take (l : list (Z * Z)) n : NoDup l → filter (λ x : Z * Z, x ∉ take n l) l = drop n l.
Proof.
  intros Hnd. pose proof (filter_not_in_prefix (take n l) (drop n l)) as Hf. rewrite take_drop in Hf. by apply Hf.
Qed.

(** The removal drops the oldest entries below the boundary. *)
Lemma remove_below_drops native b s : stream_ok s → valid_id b →
  ∃ s', remove_below native (id_text b) s = Ok (Z.of_nat (quota native (removable b s)), s') ∧
    rs_ids s' = drop (quota native (removable b s)) (rs_ids s) ∧ rs_groups s' = rs_groups s.
Proof.
  intros Hs Hb. pose proof (so_sorted s Hs) as Hsort. destruct (filter_sorted_take (rs_ids s) b Hsort) as [Et Ed].
  unfold remove_below, quota, removable. destruct native.
  - destruct (x_trim_of b s Hb) as (Hi & Hc & Hg). destruct (x_trim_minid (id_text b) s) as [n s'] eqn:E. simpl in *. subst n.
    exists s'. split; [done|]. split; [|done]. by rewrite Hi, Ed.
  - rewrite x_range_of by done. rewrite below_text; [|done|].
    2:{ apply Forall_forall. intros x Hx%elem_of_take_elem. apply list_elem_of_filter in Hx as [_ Hx].
        pose proof (so_ids s Hs) as Hv. rewrite Forall_forall in Hv. auto. }
    cbn [mbind result_bind]. rewrite take_below by done. change (Z.to_nat 500) with 500%nat.
    rewrite Et, take_take. set (k := min 500 _).
    assert (Hlen : length (take k (rs_ids s)) = k).
    { rewrite length_take. unfold k. pose proof (filter_length_le (λ x : Z * Z, key_lt x b) (rs_ids s)). lia. }
    destruct (bool_decide_reflect (map id_text (take k (rs_ids s)) = [])) as [Hnil|Hnil].
    + apply (f_equal length) in Hnil. rewrite length_map, Hlen in Hnil. cbn [length] in Hnil.
      exists s. rewrite <- Et. fold k. rewrite Hnil. split; [done|]. by rewrite drop_0.
    + destruct (x_del_of (take k (rs_ids s)) s) as (Hi & Hc & Hg).
      * apply Forall_take, Hs.
      * by eapply sublist_NoDup; [apply sorted_NoDup|apply sublist_take].
      * by intros x Hx%elem_of_take_elem.
      * destruct (x_del _ s) as [n s'] eqn:E. simpl in *. subst n. exists s'. rewrite Hlen, <- Et. fold k.
        split; [done|]. split; [|done]. rewrite Hi. by apply filter_not_in_take, sorted_NoDup.
Qed.
(** ** The newest entries *)

Lemma take_reverse_app {A} (l1 l2 : list A) : take (length l2) (reverse (l1 ++ l2)) = reverse l2.
Proof. rewrite reverse_app. rewrite take_app_le by (by rewrite length_reverse). by rewrite take_ge by (by rewrite length_reverse). Qed.

(** The newest [n] entries are the end of the stream. *)
Lemma newest (l : list (Z * Z)) n : (n ≤ length l)%nat → take n (reverse l) = reverse (drop (length l - n) l).
Proof.
  intros Hn. pose proof (take_reverse_app (take (length l - n) l) (drop (length l - n) l)) as E.
  rewrite take_drop, length_drop in E. by replace (length l - (length l - n))%nat with n in E by lia.
Qed.

Lemma newest_least (l : list (Z * Z)) n t : StronglySorted key_lt l → (0 < n ≤ length l)%nat →
  last (take n (reverse l)) = Some t → head (drop (length l - n) l) = Some t ∧ ∀ y, y ∈ take n (reverse l) → key_le t y.
Proof.
  intros Hs Hn. rewrite newest by lia. set (e := drop (length l - n) l).
  assert (He : StronglySorted key_lt e).
  { rewrite <- (take_drop (length l - n) l) in Hs. by apply StronglySorted_app_1_r in Hs. }
  rewrite last_reverse. intros Ht. split; [done|]. intros y. rewrite elem_of_reverse.
  destruct e as [|a e']; [done|]. injection Ht as ->. inversion He as [|?? _ Ha]; subst. intros [->|Hy]%elem_of_cons; [apply key_le_refl|].
  rewrite Forall_forall in Ha. by apply key_lt_le, Ha.
Qed.

(** ** The trim as a whole *)

(** How many entries a trim removes. *)
Definition trimmed (b0 : Z * Z) (n : Z) (native : bool) (s : rs) : nat :=
  if negb (x_exists s) then 0%nat else if x_len s <=? n then 0%nat else quota native (removable (safe_boundary b0 n s) s).

Lemma retention_text retention now : retention_boundary retention now = id_text (retention_cutoff retention now, 0).
Proof. done. Qed.

Lemma enough_tail s n : n < x_len s → 0 < n → Z.of_nat (length (x_revrange n s)) = n.
Proof. intros Hl Hn. rewrite x_revrange_ids, length_map, length_take, length_reverse. rewrite x_len_ids in Hl. lia. Qed.

Lemma script_trims b0 n native s : stream_ok s → valid_id b0 → 0 ≤ n →
  ∃ before groups len s', safe_trim_script (id_text b0) n native s = Ok ((Z.of_nat (trimmed b0 n native s), before, groups, len), s') ∧
    rs_ids s' = drop (trimmed b0 n native s) (rs_ids s) ∧ rs_groups s' = rs_groups s ∧
    (x_exists s = true → n < x_len s → before = id_text (safe_boundary b0 n s) ∧ len = x_len s).
Proof.
  intros Hs Hb Hn. unfold safe_trim_script, trimmed. destruct (x_exists s) eqn:Ex; cbn [negb].
  2:{ eexists _, _, _, s. split; [reflexivity|]. rewrite drop_0. repeat split; done. }
  destruct (Z.leb_spec (x_len s) n) as [Hle|Hlt].
  { eexists _, _, _, s. split; [reflexivity|]. rewrite drop_0. split; [done|]. split; [done|]. intros _ Hlt. lia. }
  replace ((0 <? n) && (Z.of_nat (length (x_revrange n s)) <? n)) with false.
  2:{ symmetry. destruct (Z.ltb_spec 0 n); [|done]. simpl. apply Z.ltb_ge. rewrite enough_tail; lia. }
  pose proof (script_boundary s b0 n Hs Hb Hn Hlt) as Hbound. cbv zeta.
  destruct (if 0 <? n then _ else _) as [b1|] eqn:E1; [|done]. cbn [mbind result_bind] in Hbound |- *.
  rewrite Hbound. cbn [mbind result_bind].
  destruct (remove_below_drops native (safe_boundary b0 n s) s Hs) as (s' & Hr & Hi & Hg).
  { apply fold_kmin_valid; [done|by apply limits_valid]. }
  rewrite Hr. cbn [mbind result_bind]. eexists _, _, _, s'. split; [reflexivity|]. by repeat split.
Qed.

(** What a trim removes is below the boundary. *)
Lemma trimmed_below b0 n native s x : stream_ok s → x ∈ take (trimmed b0 n native s) (rs_ids s) →
  x_exists s = true ∧ n < x_len s ∧ key_lt x (safe_boundary b0 n s).
Proof.
  intros Hs. unfold trimmed. destruct (x_exists s); simpl; [|by intros Hx%not_elem_of_nil].
  destruct (Z.leb_spec (x_len s) n); [by intros Hx%not_elem_of_nil|]. intros Hx. split; [done|]. split; [done|].
  destruct (filter_sorted_take (rs_ids s) (safe_boundary b0 n s) (so_sorted s Hs)) as [Et _].
  assert (Hin : x ∈ filter (λ x : Z * Z, key_lt x (safe_boundary b0 n s)) (rs_ids s)).
  { rewrite Et. apply elem_of_take in Hx as (i & Hi & Hlt). apply elem_of_take. exists i. split; [done|].
    unfold quota, removable in Hlt. destruct native; lia. }
  by apply list_elem_of_filter in Hin as [? _].
Qed.

(** What a trim removes is safe to remove, in both modes: the entries it
    removes are the oldest ones, as many as it reports; each of them is older
    than the retention, was delivered to every group, is pending in none, and
    is not one of the newest entries that must stay; the groups keep what they
    have. *)
Theorem trim_removes_only_safe stream retention n now native s : stream_ok s → 0 ≤ n → strip stream ≠ "" →
  valid_id (retention_cutoff retention now, 0) →
  ∃ r s' k, trim stream retention n now native s = Ok (r, s') ∧ tr_removed_entries r = Z.of_nat k ∧
    rs_ids s' = drop k (rs_ids s) ∧ rs_groups s' = rs_groups s ∧
    ∀ x, x ∈ take k (rs_ids s) → key_lt x (retention_cutoff retention now, 0) ∧
      (∀ g, g ∈ rs_groups s → key_lt x (sg_last g) ∧ x ∉ sg_pel g) ∧ x ∉ take (Z.to_nat n) (reverse (rs_ids s)).
Proof.
  intros Hs Hn Hstream Hb. destruct (script_trims _ n native s Hs Hb Hn) as (before & groups & len & s' & Hrun & Hi & Hg & _).
  unfold trim, validate_stream. apply String.eqb_neq in Hstream. rewrite Hstream. cbn [raise_if mbind result_bind].
  rewrite retention_text, Hrun. cbn [mbind result_bind]. eexists _, s', _. split; [reflexivity|]. split; [reflexivity|].
  split; [exact Hi|]. split; [exact Hg|]. intros x Hx. destruct (trimmed_below _ _ _ _ _ Hs Hx) as (Hex & Hlen & Hlt).
  destruct (fold_kmin_le (retention_cutoff retention now, 0) (limits n s)) as [H1 H2]. split; [by eapply key_lt_le_trans|]. split.
  - intros g Hgr. split.
    + eapply key_lt_le_trans; [exact Hlt|]. apply H2. eapply limits_groups; [done|left].
    + intros Hp. destruct (so_pel s Hs g Hgr) as [_ Hsort]. destruct (sg_pel g) as [|p pel] eqn:Ep; [by apply not_elem_of_nil in Hp|].
      assert (Hpl : key_lt x p).
      { eapply key_lt_le_trans; [exact Hlt|]. apply H2. eapply limits_groups; [done|]. unfold group_ids. rewrite Ep. right. left. }
      inversion Hsort as [|?? _ Ha]; subst. apply elem_of_cons in Hp as [->|Hp]; [by apply (key_lt_irrefl p)|].
      rewrite Forall_forall in Ha. apply (key_lt_irrefl x). eapply key_lt_le_trans; [exact Hpl|]. by apply key_lt_le, Ha.
  - intros Hnew. rewrite x_len_ids in Hlen.
    destruct (Z.ltb_spec 0 n) as [Hpos|Hz]; [|replace (Z.to_nat n) with 0%nat in Hnew by lia; by apply not_elem_of_nil in Hnew].
    destruct (last (take (Z.to_nat n) (reverse (rs_ids s)))) as [t|] eqn:El; [|by apply last_None in El; rewrite El in Hnew; apply not_elem_of_nil in Hnew].
    destruct (newest_least (rs_ids s) (Z.to_nat n) t (so_sorted s Hs)) as [_ Hleast]; [lia|done|].
    apply (key_lt_irrefl x). eapply key_lt_le_trans; [exact Hlt|]. etransitivity; [apply H2|by apply Hleast].
    apply elem_of_app. left. unfold tail_id. rewrite (proj2 (Z.ltb_lt 0 n)) by done. rewrite El. left.
Qed.
(** ** The plan *)

Lemma plan_groups s infos groups : NoDup (map sg_name (rs_groups s)) → (∀ g, g ∈ groups → g ∈ rs_groups s) →
  Forall2 (λ i g, g_name i = sg_name g ∧ g_pending i = Z.of_nat (length (sg_pel g)) ∧ g_last_delivered i = id_text (sg_last g)) infos groups →
  concat (map (λ g, cg_last_delivered_id g :: option_list (cg_oldest_pending_id g))
    (map (λ g, mk_boundary (g_name g) (g_last_delivered g) (g_pending g)
        (if negb (g_pending g =? 0) then x_pending_min (g_name g) s else None)) infos)) = map id_text (concat (map group_ids groups)).
Proof.
  intros Hnd. revert groups. induction infos as [|i infos IH]; intros groups Hin Hf; inversion Hf as [|? g ? groups' (En & Ep & El) Hf']; subst; [done|].
  cbn [map concat]. rewrite map_app, (IH groups') by (done || (intros; apply Hin; by right)). f_equal.
  cbn [cg_last_delivered_id cg_oldest_pending_id]. rewrite El, Ep, En, (x_pending_of s g) by (done || (apply Hin; left)).
  unfold group_ids. destruct (sg_pel g) as [|p pel]; [done|]. by rewrite (proj2 (Z.eqb_neq _ 0)) by (simpl; lia).
Qed.

(** The announced boundary: the oldest entries were removed, as many as
    reported, all below it; and the native command left none below it. *)
Definition removed_below (before : string) (native : bool) (removed : Z) (s s' : rs) : Prop :=
  ∃ key, before = id_text key ∧ rs_ids s' = drop (Z.to_nat removed) (rs_ids s) ∧
    (∀ x, x ∈ take (Z.to_nat removed) (rs_ids s) → key_lt x key) ∧
    (native = true → ∀ x, x ∈ rs_ids s' → ¬ key_lt x key).

Lemma trimmed_removed b0 n native s s' : stream_ok s → x_exists s = true → n < x_len s →
  rs_ids s' = drop (trimmed b0 n native s) (rs_ids s) →
  removed_below (id_text (safe_boundary b0 n s)) native (Z.of_nat (trimmed b0 n native s)) s s'.
Proof.
  intros Hs Ex Hlt Hi. exists (safe_boundary b0 n s). rewrite Nat2Z.id. split; [done|]. split; [done|]. split.
  - intros x Hx. by apply (trimmed_below b0 n native s).
  - intros -> x. rewrite Hi. unfold trimmed. rewrite Ex, (proj2 (Z.leb_gt _ _) Hlt). cbn [negb quota]. unfold removable.
    destruct (filter_sorted_take (rs_ids s) (safe_boundary b0 n s) (so_sorted s Hs)) as [_ <-]. by intros [? _]%list_elem_of_filter.
Qed.

(** C25. The plan and the script agree: on a stream that does not change, the
    boundary the plan announces is the very boundary the script removes below,
    although the plan compares numbers and the script texts; and when the plan
    announces none, the script removes nothing. (Also below an announced
    boundary there may be nothing to remove.) *)
Theorem plan_announces_trim stream retention n now native s : stream_ok s → 0 ≤ n → strip stream ≠ "" →
  valid_id (retention_cutoff retention now, 0) →
  ∃ p r s', plan stream retention n now s s s s (λ _, s) = Ok p ∧ trim stream retention n now native s = Ok (r, s') ∧
    match tp_trim_before_id p with
    | Some before => tr_trim_before_id r = before ∧ tr_stream_length_before r = tp_stream_length p ∧
        removed_below before native (tr_removed_entries r) s s'
    | None => tr_removed_entries r = 0 ∧ rs_ids s' = rs_ids s
    end.
Proof.
  intros Hs Hn Hstream Hb. destruct (script_trims _ n native s Hs Hb Hn) as (before & groups & len & s' & Hrun & Hi & Hg & Hbef).
  unfold plan, trim, validate_stream. apply String.eqb_neq in Hstream. rewrite Hstream. cbn [raise_if mbind result_bind].
  rewrite retention_text, Hrun. cbn [mbind result_bind]. destruct (x_exists s) eqn:Ex; cbn [negb].
  2:{ eexists _, _, s'. split; [reflexivity|]. split; [reflexivity|]. cbn. unfold trimmed in *. rewrite Ex in *. split; [done|]. by rewrite Hi, drop_0. }
  destruct (Z.leb_spec (x_len s) n) as [Hle|Hlt].
  { eexists _, _, s'. split; [reflexivity|]. split; [reflexivity|]. cbn. unfold trimmed in *. rewrite Ex in *.
    apply Z.leb_le in Hle. rewrite Hle in *. split; [done|]. by rewrite Hi, drop_0. }
  destruct (Hbef eq_refl Hlt) as [-> ->].
  assert (El : option_list (tail_boundary n s) ++
      concat (map (λ g, cg_last_delivered_id g :: option_list (cg_oldest_pending_id g)) (groups_of s (λ _, s))) = map id_text (limits n s)).
  { unfold limits. rewrite map_app. f_equal; [|unfold groups_of; apply plan_groups; [apply Hs|done|apply x_groups_of]].
    unfold tail_boundary, tail_id. destruct (Z.eqb_spec n 0) as [->|Hn0]; [done|]. rewrite (proj2 (Z.ltb_lt 0 n)) by lia.
    rewrite enough_tail, Z.ltb_irrefl, x_revrange_ids by lia.
    replace (last (map id_text (take (Z.to_nat n) (reverse (rs_ids s))))) with (id_text <$> last (take (Z.to_nat n) (reverse (rs_ids s))))
      by (symmetry; apply fmap_last). by destruct (last _). }
  rewrite El. unfold min_boundary. rewrite stream_id_parts_text by done. cbn [mbind result_bind].
  rewrite min_from_text by (done || by apply limits_valid). cbn [mbind result_bind].
  eexists _, _, s'. split; [reflexivity|]. split; [reflexivity|]. split; [done|]. split; [done|]. by apply trimmed_removed.
Qed.

(** ** The bounded deletion *)

(** The [m]-th of the trims one after the other. *)
Fixpoint trims (stream : string) (retention n now : Z) (m : nat) (s : rs) : result rs :=
  match m with
  | O => Ok s
  | S m' => '(_, s1) ← trim stream retention n now false s; trims stream retention n now m' s1
  end.

Lemma StronglySorted_drop_keys (l : list (Z * Z)) j : StronglySorted key_lt l → StronglySorted key_lt (drop j l).
Proof. intros Hs. rewrite <- (take_drop j l) in Hs. by apply StronglySorted_app_1_r in Hs. Qed.

Lemma partial_ok s s' j : stream_ok s → rs_ids s' = drop j (rs_ids s) → rs_groups s' = rs_groups s → stream_ok s'.
Proof.
  intros [H1 H2 H3 H4 H5] Ei Eg. split; rewrite ?Ei, ?Eg; try done; [by apply Forall_drop|by apply StronglySorted_drop_keys].
Qed.

(** The newest entries are never below the boundary. *)
Lemma removable_bound b0 n s : stream_ok s → 0 ≤ n → n < x_len s →
  (removable (safe_boundary b0 n s) s + Z.to_nat n ≤ length (rs_ids s))%nat.
Proof.
  intros Hs Hn Hlen. rewrite x_len_ids in Hlen. unfold removable.
  destruct (filter_sorted_take (rs_ids s) (safe_boundary b0 n s) (so_sorted s Hs)) as [Et _].
  set (k := length (filter (λ x : Z * Z, key_lt x (safe_boundary b0 n s)) (rs_ids s))) in *.
  destruct (decide (Z.to_nat n = 0)%nat) as [->|Hn0]; [pose proof (filter_length_le (λ x : Z * Z, key_lt x (safe_boundary b0 n s)) (rs_ids s)); lia|].
  destruct (decide (k + Z.to_nat n ≤ length (rs_ids s))%nat) as [|Hgt]; [done|exfalso].
  destruct (last (take (Z.to_nat n) (reverse (rs_ids s)))) as [t|] eqn:El.
  2:{ apply last_None in El. apply (f_equal length) in El. rewrite length_take, length_reverse in El. simpl in El. lia. }
  destruct (newest_least (rs_ids s) (Z.to_nat n) t (so_sorted s Hs)) as [Hhead _]; [lia|done|].
  assert (Ht : t ∈ filter (λ x : Z * Z, key_lt x (safe_boundary b0 n s)) (rs_ids s)).
  { rewrite Et. apply elem_of_take. exists (length (rs_ids s) - Z.to_nat n)%nat. split; [|lia].
    rewrite head_lookup, lookup_drop in Hhead. by rewrite Nat.add_0_r in Hhead. }
  apply list_elem_of_filter in Ht as [Ht _]. apply (key_lt_irrefl t). eapply key_lt_le_trans; [exact Ht|].
  apply fold_kmin_le, elem_of_app. left. unfold tail_id. rewrite (proj2 (Z.ltb_lt 0 n)) by lia. rewrite El. left.
Qed.

(** A partial trim leaves the boundary where it was. *)
Lemma partial_boundary b0 n s s' j : rs_ids s' = drop j (rs_ids s) → rs_groups s' = rs_groups s → 0 ≤ n → n < x_len s' → (j ≤ length (rs_ids s))%nat →
  safe_boundary b0 n s' = safe_boundary b0 n s.
Proof.
  intros Ei Eg Hn Hlen Hj. rewrite x_len_ids, Ei, length_drop in Hlen.
  unfold safe_boundary, limits, tail_id. rewrite Eg. do 3 f_equal. destruct (0 <? n); [|done]. f_equal. rewrite Ei, !newest by (rewrite ?length_drop; lia).
  f_equal. rewrite drop_drop, length_drop. f_equal. lia.
Qed.

Lemma partial_trimmed b0 n s s' j : stream_ok s → rs_ids s' = drop j (rs_ids s) → rs_groups s' = rs_groups s → 0 ≤ n →
  x_exists s = true → n < x_len s → (j ≤ removable (safe_boundary b0 n s) s)%nat →
  trimmed b0 n false s' = min 500 (removable (safe_boundary b0 n s) s - j).
Proof.
  intros Hs Ei Eg Hn Hex Hlen Hj. pose proof (removable_bound b0 n s Hs Hn Hlen) as Hk. set (k := removable (safe_boundary b0 n s) s) in *.
  pose proof (x_len_ids s') as Hlen'. rewrite Ei, length_drop in Hlen'. unfold trimmed.
  destruct (x_exists s') eqn:Ex; cbn [negb].
  2:{ apply x_exists_ids in Ex. rewrite Ei in Ex. apply (f_equal length) in Ex. rewrite length_drop in Ex. simpl in Ex. lia. }
  destruct (Z.leb_spec (x_len s') n) as [Hle|Hlt]; [lia|].
  rewrite (partial_boundary b0 n s s' j) by (done || lia). unfold quota. f_equal. unfold removable.
  destruct (filter_sorted_take (rs_ids s) (safe_boundary b0 n s) (so_sorted s Hs)) as [Et Ed]. fold (removable (safe_boundary b0 n s) s) in Et, Ed. fold k in Et, Ed.
  rewrite Ei. assert (E : rs_ids s = take k (rs_ids s) ++ drop k (rs_ids s)) by (symmetry; apply take_drop).
  rewrite E, drop_app_le by (rewrite length_take; lia). rewrite filter_app, length_app.
  rewrite <- Ed. rewrite (filter_none (λ x : Z * Z, key_lt x (safe_boundary b0 n s)) (filter _ _)) by (by intros x [Hx _]%list_elem_of_filter).
  rewrite filter_all; [rewrite length_drop, length_take; simpl; lia|]. intros x Hx.
  assert (Hin : x ∈ take k (rs_ids s)) by (rewrite <- (take_drop j (take k (rs_ids s))); apply elem_of_app; by right).
  rewrite <- Et in Hin. by apply list_elem_of_filter in Hin as [? _].
Qed.

(** The bounded deletion of the compatible mode catches up with the native
    command: while nothing else changes the stream, [m] trims remove the
    oldest [500 * m] of the entries one native trim removes, and all of them
    as soon as that is enough. *)
Theorem bounded_trims_reach_native stream retention n now m s : stream_ok s → 0 ≤ n → strip stream ≠ "" →
  valid_id (retention_cutoff retention now, 0) → x_exists s = true → n < x_len s →
  ∃ r s1 s2, trim stream retention n now true s = Ok (r, s1) ∧ trims stream retention n now m s = Ok s2 ∧
    rs_ids s2 = drop (min (500 * m) (Z.to_nat (tr_removed_entries r))) (rs_ids s) ∧
    ((Z.to_nat (tr_removed_entries r) ≤ 500 * m)%nat → rs_ids s2 = rs_ids s1).
Proof.
  intros Hs Hn Hstream Hb Hex Hlen. set (b0 := (retention_cutoff retention now, 0)). pose proof Hstream as Hstream'.
  apply String.eqb_neq in Hstream'. set (k := removable (safe_boundary b0 n s) s).
  assert (Hstep : ∀ native s', stream_ok s' → ∃ r s2, trim stream retention n now native s' = Ok (r, s2) ∧
    tr_removed_entries r = Z.of_nat (trimmed b0 n native s') ∧ rs_ids s2 = drop (trimmed b0 n native s') (rs_ids s') ∧ rs_groups s2 = rs_groups s').
  { intros native s' Hs'. destruct (script_trims b0 n native s' Hs' Hb Hn) as (before & groups & len & s2 & Hrun & Hi & Hg & _).
    unfold trim, validate_stream. rewrite Hstream'. cbn [raise_if mbind result_bind]. rewrite retention_text. fold b0. rewrite Hrun.
    cbn [mbind result_bind]. eexists _, s2. by split. }
  assert (Hall : ∀ m s' j, rs_ids s' = drop j (rs_ids s) → rs_groups s' = rs_groups s → (j ≤ k)%nat →
    ∃ s2, trims stream retention n now m s' = Ok s2 ∧ rs_ids s2 = drop (min (j + 500 * m) k) (rs_ids s)).
  { clear m. induction m as [|m IH]; intros s' j Ei Eg Hj.
    - exists s'. split; [done|]. rewrite Ei. f_equal. lia.
    - destruct (Hstep false s' (partial_ok s s' j Hs Ei Eg)) as (r & s2 & Hrun & _ & Hi & Hg).
      rewrite (partial_trimmed b0 n s s' j) in Hi by done. fold k in Hi.
      destruct (IH s2 (j + min 500 (k - j))%nat) as (s3 & Hrun3 & Hi3); [by rewrite Hi, Ei, drop_drop|congruence|lia|].
      exists s3. cbn [trims]. rewrite Hrun. cbn [mbind result_bind]. split; [done|]. rewrite Hi3. f_equal. lia. }
  destruct (Hstep true s Hs) as (r & s1 & Hrun & Hr & Hi & _).
  assert (Ek : trimmed b0 n true s = k). { unfold trimmed. rewrite Hex. cbn [negb]. by rewrite (proj2 (Z.leb_gt _ _) Hlen). }
  destruct (Hall m s 0%nat) as (s2 & Hrun2 & Hi2); [by rewrite drop_0|done|lia|]. exists r, s1, s2.
  rewrite Hr, Nat2Z.id, Ek. split; [done|]. split; [done|]. split; [exact Hi2|]. intros Hle. rewrite Hi2, Hi, Ek. f_equal. lia.
Qed.
End Trim.

(** ** A stream server

    An instance of [RedisStream] on lists of ids, and a stream of four entries
    with two groups, one of which still holds an entry. *)

Module TinyStream.
Record tiny_stream := mk_tiny { ti_ids : option (list (Z * Z)); ti_groups : list stream_group }.

Definition ids_in (s : tiny_stream) : list (Z * Z) := default [] (ti_ids s).
Definition read_id (t : string) : option (Z * Z) := match stream_id_parts t with Ok k => Some k | Err _ => None end.
Definition put_ids (l : list (Z * Z)) (s : tiny_stream) : tiny_stream := mk_tiny ((λ _, l) <$> ti_ids s) (ti_groups s).

Lemma read_id_text k : valid_id k → read_id (id_text k) = Some k.
Proof. intros Hk. unfold read_id. by rewrite stream_id_parts_text. Qed.

Lemma read_ids_text l : Forall valid_id l → omap read_id (map id_text l) = l.
Proof. induction 1 as [|k l Hk _ IH]; [done|]. cbn. by rewrite read_id_text, IH. Qed.

Definition tiny_pending (name : string) (s : tiny_stream) : option string :=
  g ← List.find (λ g, String.eqb (sg_name g) name) (ti_groups s); id_text <$> head (sg_pel g).

Lemma tiny_pending_of s g : NoDup (map sg_name (ti_groups s)) → g ∈ ti_groups s → tiny_pending (sg_name g) s = id_text <$> head (sg_pel g).
Proof.
  unfold tiny_pending. induction (ti_groups s) as [|h gs IH]; [by intros _ []%not_elem_of_nil|]. cbn [map List.find].
  intros [Hh Hnd]%NoDup_cons [->|Hg]%elem_of_cons; [by rewrite String.eqb_refl|].
  destruct (String.eqb_spec (sg_name h) (sg_name g)) as [E|]; [|by apply IH].
  destruct Hh. rewrite E. by apply list_elem_of_fmap_2.
Qed.

Lemma put_ids_in l s : (ti_ids s = None → l = []) → ids_in (put_ids l s) = l.
Proof. unfold ids_in, put_ids. destruct (ti_ids s); [done|]. intros E. by rewrite E. Qed.

#[export] Program Instance tiny_streams : RedisStream := {|
  rs := tiny_stream;
  rs_ids := ids_in;
  rs_groups := ti_groups;
  x_exists s := bool_decide (is_Some (ti_ids s));
  x_len s := Z.of_nat (length (ids_in s));
  x_revrange n s := map id_text (take (Z.to_nat n) (reverse (ids_in s)));
  x_groups s := map (λ g, mk_group (sg_name g) (Z.of_nat (length (sg_pel g))) (Some 0) (id_text (sg_last g))) (ti_groups s);
  x_pending_min := tiny_pending;
  x_trim_minid t s := match read_id t with
    | Some b => (Z.of_nat (length (filter (λ x : Z * Z, key_lt x b) (ids_in s))), put_ids (filter (λ x : Z * Z, ¬ key_lt x b) (ids_in s)) s)
    | None => (0, s) end;
  x_range_to t n s := match read_id t with
    | Some b => map id_text (take (Z.to_nat n) (filter (λ x : Z * Z, key_le x b) (ids_in s)))
    | None => [] end;
  x_del l s := let ids := omap read_id l in
    (Z.of_nat (length (filter (λ x : Z * Z, x ∈ ids_in s) ids)), put_ids (filter (λ x : Z * Z, x ∉ ids) (ids_in s)) s)
|}.
Next Obligation. intros s Hs%bool_decide_eq_false. unfold ids_in. destruct (ti_ids s); [by destruct Hs|done]. Qed.
Next Obligation. done. Qed.
Next Obligation. done. Qed.
Next Obligation. intros s. cbn. induction (ti_groups s) as [|g gs IH]; cbn; constructor; done. Qed.
Next Obligation. exact tiny_pending_of. Qed.
Next Obligation.
  intros b s Hb. cbn. rewrite read_id_text by done. cbn. split; [|done]. apply put_ids_in. unfold ids_in. by intros ->.
Qed.
Next Obligation. intros b n s Hb. cbn. by rewrite read_id_text. Qed.
Next Obligation.
  intros l s Hl Hnd Hin. cbn. rewrite read_ids_text by done. split; [apply put_ids_in; unfold ids_in; by intros ->|].
  split; [|done]. do 2 f_equal. by apply filter_all.
Qed.

Definition demo_stream : @rs tiny_streams :=
  mk_tiny (Some [(1000, 0); (1000, 1); (2000, 0); (9000, 0)])
    [mk_sgroup "workers" (2000, 0) [(1000, 1); (2000, 0)]; mk_sgroup "audit" (9000, 0) []].

#[local] Instance valid_id_dec id : Decision (valid_id id).
Proof. unfold valid_id. apply _. Defined.
Lemma valid_ids l : forallb (λ id, bool_decide (valid_id id)) l = true → Forall valid_id l.
Proof. intros Hl%Is_true_true%forallb_True. apply (Forall_impl _ _ _ Hl). intros x. apply bool_decide_unpack. Qed.

Lemma demo_stream_ok : stream_ok demo_stream.
Proof.
  split; cbn.
  - by apply valid_ids.
  - repeat constructor; unfold key_lt; cbn; lia.
  - intros g Hg. repeat (apply elem_of_cons in Hg as [->|Hg]); [..|by apply not_elem_of_nil in Hg]; by apply (bool_decide_unpack _).
  - intros g Hg. repeat (apply elem_of_cons in Hg as [->|Hg]); [..|by apply not_elem_of_nil in Hg];
      (split; [by apply valid_ids|repeat constructor; unfold key_lt; cbn; lia]).
  - repeat constructor; set_solver.
Qed.

(** The entries below the pending one are removed. *)
Lemma trim_removes_only_safe_witness :
  ∃ r s' k, trim "commands" 1 1 6000 true demo_stream = Ok (r, s') ∧ tr_removed_entries r = Z.of_nat k ∧
    rs_ids s' = drop k (rs_ids demo_stream) ∧ rs_groups s' = rs_groups demo_stream ∧
    ∀ x, x ∈ take k (rs_ids demo_stream) → key_lt x (retention_cutoff 1 6000, 0) ∧
      (∀ g, g ∈ rs_groups demo_stream → key_lt x (sg_last g) ∧ x ∉ sg_pel g) ∧ x ∉ take (Z.to_nat 1) (reverse (rs_ids demo_stream)).
Proof.
  apply (trim_removes_only_safe "commands" 1 1 6000 true demo_stream); [apply demo_stream_ok|lia|by vm_compute|by apply (bool_decide_unpack _)].
Defined.

Example demo_trim : trim "commands" 1 1 6000 true demo_stream =
  Ok (mk_trim_result 1 "1000-1" 2 4, mk_tiny (Some [(1000, 1); (2000, 0); (9000, 0)]) (ti_groups demo_stream)).
Proof. reflexivity. Qed.

Lemma plan_announces_trim_witness :
  ∃ p r s', plan "commands" 1 1 6000 demo_stream demo_stream demo_stream demo_stream (λ _, demo_stream) = Ok p ∧
    trim "commands" 1 1 6000 false demo_stream = Ok (r, s') ∧
    match tp_trim_before_id p with
    | Some before => tr_trim_before_id r = before ∧ tr_stream_length_before r = tp_stream_length p ∧
        removed_below before false (tr_removed_entries r) demo_stream s'
    | None => tr_removed_entries r = 0 ∧ rs_ids s' = rs_ids demo_stream
    end.
Proof.
  apply (plan_announces_trim "commands" 1 1 6000 false demo_stream); [apply demo_stream_ok|lia|by vm_compute|by apply (bool_decide_unpack _)].
Defined.

Lemma bounded_trims_reach_native_witness :
  ∃ r s1 s2, trim "commands" 1 1 6000 true demo_stream = Ok (r, s1) ∧ trims "commands" 1 1 6000 1 demo_stream = Ok s2 ∧
    rs_ids s2 = drop (min (500 * 1) (Z.to_nat (tr_removed_entries r))) (rs_ids demo_stream) ∧
    ((Z.to_nat (tr_removed_entries r) ≤ 500 * 1)%nat → rs_ids s2 = rs_ids s1).
Proof.
  apply (bounded_trims_reach_native "commands" 1 1 6000 1 demo_stream);
    [apply demo_stream_ok|lia|by vm_compute|by apply (bool_decide_unpack _)|reflexivity|cbn; lia].
Defined.
End TinyStream.
