(* ===== verification/Identity.v ===== *)
(** * Signed requests of the frontend ([ex_agent/api/identity.py])

    The verification of the HMAC a backend-for-frontend puts on a request, and
    the protection against replays. HMAC, SHA-256, base64 and json are
    parameters; Redis is the interface [RedisNonces] with the documented
    effect of SET with NX and EX. Header texts are latin-1 as ASGI decodes
    them: a character is a code point below 256. *)

From stdpp Require Import base gmap strings list sorting.
From Stdlib Require Import Ascii ZArith Lia.
From S2P Require Import Prelude Text.
Local Open Scope Z_scope.
Set Default Proof Using "Type".

(** ** Text *)

Definition in_range (lo hi : N) (c : ascii) : bool := let n := Ascii.N_of_ascii c in (lo <=? n)%N && (n <=? hi)%N.
Definition is_decimal (c : ascii) : bool := in_range 48 57 c.
(** [A-Za-z0-9._-] *)
Definition key_char (c : ascii) : bool :=
  in_range 65 90 c || in_range 97 122 c || is_decimal c || bool_decide (c ∈ ["."%char; "_"%char; "-"%char]).
(** [A-Za-z0-9._:-] *)
Definition nonce_char (c : ascii) : bool := key_char c || bool_decide (c = ":"%char).
(** [A-Za-z0-9_-] *)
Definition signature_char (c : ascii) : bool :=
  in_range 65 90 c || in_range 97 122 c || is_decimal c || bool_decide (c ∈ ["_"%char; "-"%char]).

Fixpoint all_chars (p : ascii → bool) (s : string) : bool :=
  match s with EmptyString => true | String c s' => p c && all_chars p s' end.
(** [re.fullmatch] of one character class repeated between [lo] and [hi] times. *)
Definition class_match (p : ascii → bool) (lo hi : nat) (s : string) : bool :=
  (lo <=? String.length s)%nat && (String.length s <=? hi)%nat && all_chars p s.

(** [_KEY_ID], [_NONCE], [_SIGNATURE] *)
Definition is_key_id : string → bool := class_match key_char 1 64.
Definition is_nonce : string → bool := class_match nonce_char 16 128.
Definition is_signature : string → bool := class_match signature_char 43 43.

(** [str.upper] of ASCII text *)
Definition upper_char (c : ascii) : ascii :=
  if in_range 97 122 c then Ascii.ascii_of_N (Ascii.N_of_ascii c - 32) else c.
Fixpoint upper (s : string) : string :=
  match s with EmptyString => EmptyString | String c s' => String (upper_char c) (upper s') end.

(** [str.encode()]: UTF-8, code points from 128 on take two bytes. *)
Definition encode_char (c : ascii) (rest : string) : string :=
  let n := Ascii.N_of_ascii c in
  if (n <? 128)%N then String c rest
  else String (Ascii.ascii_of_N (192 + n / 64)) (String (Ascii.ascii_of_N (128 + n mod 64)) rest).
Fixpoint encode (s : string) : string :=
  match s with EmptyString => EmptyString | String c s' => encode_char c (encode s') end.

Definition carriage_return : ascii := "013"%char.
Definition has_char (c : ascii) (s : string) : bool := negb (all_chars (λ d, negb (bool_decide (d = c))) s).

(** ["\n".join(parts)] *)
Fixpoint join_lines (parts : list string) : string :=
  match parts with
  | [] => ""
  | [p] => p
  | p :: parts' => p +:+ String newline (join_lines parts')
  end.

(** ** Requests *)

Record IdentityHeaders := mk_headers {
  h_user_id : option string;
  h_signature_version : option string;
  h_key_id : option string;
  h_timestamp : option string;
  h_nonce : option string;
  h_signature : option string
}.

(** What ASGI says of a request: [raw_path] of the scope when it is there. *)
Record identity_request := mk_request {
  q_method : string;
  q_raw_path : option string;
  q_url_path : string;
  q_query_string : string;
  q_body : string
}.

(** [_unauthorized], and the 503 of [user_id]: [str] of an [HTTPException]. *)
Definition http_error (status : Z) (detail : string) : exn := OtherException "HTTPException" (int_str status +:+ ": " +:+ detail).
Definition unauthorized (detail : string) : exn := http_error 401 detail.

(** [bytes.decode("ascii")] *)
Definition decode_ascii (s : string) : result string :=
  if all_chars (λ c, (Ascii.N_of_ascii c <? 128)%N) s then Ok s
  else Err (OtherException "UnicodeDecodeError" "ordinal not in range(128)").

(** [_raw_path], [_raw_query] *)
Definition raw_path (r : identity_request) : result string :=
  match q_raw_path r with Some p => decode_ascii p | None => Ok (q_url_path r) end.
Definition raw_query (r : identity_request) : result string := decode_ascii (q_query_string r).

(** [not value] of an optional text *)
Definition not_given (value : option string) : bool :=
  match value with None => true | Some s => String.eqb s "" end.

(** [_required_user] *)
Definition required_user (value : option string) : result string :=
  match value with
  | Some v =>
      if String.eqb v "" || (255 <? String.length v)%nat || has_char newline v || has_char carriage_return v
      then Err (unauthorized "X-User-ID header is required") else Ok v
  | None => Err (unauthorized "X-User-ID header is required")
  end.

(** [TrustedHeaderIdentityProvider.user_id] *)
Definition trusted_user_id (h : IdentityHeaders) : result string := required_user (h_user_id h).

(** [canonical_bff_request] *)
Definition canonical_fields (method path query user : string) (timestamp : Z) (nonce body_sha256 : string) : list string :=
  ["v1"; upper method; path; query; user; int_str timestamp; nonce; body_sha256].
Definition canonical_bff_request (method path query user : string) (timestamp : Z) (nonce body_sha256 : string) : string :=
  encode (join_lines (canonical_fields method path query user timestamp nonce body_sha256)).

(** ** Redis

    SET with NX and EX at a server time in milliseconds: a key that has not
    expired is left alone, any other is set for that many seconds. A key is
    expired once its time has passed. *)
Class RedisNonces := {
  nonces : Type;
  expires : nonces → string → option Z;
  set_nx_ex : string → string → Z → Z → nonces → bool * nonces;
  live (now : Z) (s : nonces) (k : string) : bool := match expires s k with Some e => now <=? e | None => false end;
  set_live : ∀ k v ttl now s, live now s k = true → set_nx_ex k v ttl now s = (false, s);
  set_free : ∀ k v ttl now s, live now s k = false → 0 < ttl →
    (set_nx_ex k v ttl now s).1 = true ∧
    ∀ k', expires (set_nx_ex k v ttl now s).2 k' = if decide (k' = k) then Some (now + ttl * 1000) else expires s k'
}.

(** What becomes of a call to Redis. *)
Inductive call_fate : Type := Served | Refused | ReplyLost.

Section Identity.
Context `{RedisNonces} (sha256 : string → string) (hmac_b64 : string → string → string)
  (b64decode : string → option string).

(** [sign_bff_request]: [hmac_b64] is HMAC-SHA256 in base64url without padding. *)
Definition sign_bff_request (secret method path query user : string) (timestamp : Z) (nonce body : string) : string :=
  hmac_b64 secret (canonical_bff_request method path query user timestamp nonce (sha256 body)).

(** [_replay_key] *)
Definition replay_key (prefix key_id nonce : string) : string :=
  prefix +:+ ":" +:+ sha256 (encode (key_id +:+ String "000" nonce)).

(** [_decode_keys]: the object json reads. *)
Definition padded (encoded : string) : string :=
  encoded +:+ match (String.length encoded mod 4)%nat with 1%nat => "===" | 2%nat => "==" | 3%nat => "=" | _ => "" end.
Definition decode_key (key_id : string) (encoded : json) : result string :=
  raise_if (negb (is_key_id key_id)) (ValueError "Invalid BFF HMAC key ID");;
  text ← match encoded with JStr t => Ok t | _ => Err (ValueError "BFF HMAC key must be base64url text") end;
  secret ← from_option_err (ValueError "Invalid base64url BFF HMAC key") (b64decode (padded text));
  raise_if (String.length secret <? 32)%nat (ValueError "BFF HMAC keys must contain at least 32 bytes");;
  Ok secret.
Fixpoint decode_entries (values : list (string * json)) (keys : list (string * string)) : result (list (string * string)) :=
  match values with
  | [] => Ok keys
  | (key_id, encoded) :: values' => secret ← decode_key key_id encoded; decode_entries values' (assoc_set key_id secret keys)
  end.
Definition decode_keys (parsed : result json) : result (list (string * string)) :=
  match parsed with
  | Ok (JObj ((_ :: _) as values)) => decode_entries values []
  | Ok _ => Err (ValueError "At least one BFF HMAC key is required")
  | Err _ => Err (ValueError "BFF HMAC keys must be a JSON object")
  end.

(** *** [SignedBffIdentityProvider] *)

Record provider := mk_provider { p_keys : list (string * string); p_skew : Z; p_prefix : string }.

(** [str.rstrip(":")] *)
Definition rstrip_colon : string → string := rstrip_by (λ c, bool_decide (c = ":"%char)).

(** [__init__] *)
Definition provider_init (parsed : result json) (skew : Z) (prefix : string) : result provider :=
  raise_if (skew <? 1) (ValueError "BFF clock skew must be positive");;
  raise_if (String.eqb (strip prefix) "") (ValueError "BFF nonce prefix cannot be empty");;
  keys ← decode_keys parsed;
  Ok (mk_provider keys skew (rstrip_colon prefix)).

(** What is checked before the body is awaited: the user, the timestamp, the
    secret, the nonce and the signature of the headers. [clock] is
    [int(self._clock())], in seconds. *)
Definition check_headers (p : provider) (clock : Z) (h : IdentityHeaders) : result (string * Z * string * string * string * string) :=
  user ← required_user (h_user_id h);
  raise_if (negb (bool_decide (h_signature_version h = Some "v1"))) (unauthorized "Unsupported BFF signature version");;
  raise_if (not_given (h_key_id h) || negb (is_key_id (default "" (h_key_id h)))) (unauthorized "Invalid BFF key ID");;
  raise_if (not_given (h_nonce h) || negb (is_nonce (default "" (h_nonce h)))) (unauthorized "Invalid BFF nonce");;
  raise_if (not_given (h_signature h) || negb (is_signature (default "" (h_signature h)))) (unauthorized "Invalid BFF signature");;
  raise_if (not_given (h_timestamp h) || negb (all_chars is_decimal (default "" (h_timestamp h)))) (unauthorized "Invalid BFF timestamp");;
  timestamp ← from_option_err (unauthorized "Invalid BFF timestamp") (py_int (default "" (h_timestamp h)));
  raise_if (p_skew p <? Z.abs (clock - timestamp)) (unauthorized "Expired BFF signature");;
  secret ← from_option_err (unauthorized "Unknown BFF key ID") (assoc (default "" (h_key_id h)) (p_keys p));
  Ok (user, timestamp, secret, default "" (h_key_id h), default "" (h_nonce h), default "" (h_signature h)).

(** What is checked of the body, and the key that remembers the nonce. *)
Definition check_signature (p : provider) (clock : Z) (r : identity_request) (h : IdentityHeaders) : result (string * string) :=
  '(user, timestamp, secret, key_id, nonce, signature) ← check_headers p clock h;
  path ← raw_path r;
  query ← raw_query r;
  let expected := sign_bff_request secret (q_method r) path query user timestamp nonce (q_body r) in
  raise_if (negb (String.eqb expected signature)) (unauthorized "Invalid BFF signature");;
  Ok (user, replay_key (p_prefix p) key_id nonce).

(** [SignedBffIdentityProvider.user_id]; [now] is the server's time at which
    the nonce is set, in milliseconds. *)
Definition user_id (p : provider) (clock : Z) (r : identity_request) (h : IdentityHeaders) (fate : call_fate) (now : Z) (s : nonces)
    : result string * nonces :=
  match check_signature p clock r h with
  | Err e => (Err e, s)
  | Ok (user, key) =>
      let set := set_nx_ex key "1" (p_skew p * 2 + 1) now s in
      match fate with
      | Refused => (Err (http_error 503 "BFF replay protection is unavailable"), s)
      | ReplyLost => (Err (http_error 503 "BFF replay protection is unavailable"), set.2)
      | Served => (if set.1 then Ok user else Err (unauthorized "Replayed BFF request"), set.2)
      end
  end.
End Identity.
