(* ===== verification/IdentityProps.v ===== *)
(** * What a signed request proves

    The exact condition of acceptance, what a signature binds, and that a
    signed request is accepted once while it is fresh, over every
    interleaving of the calls of any number of processes. *)

From stdpp Require Import base gmap strings list sorting.
From Stdlib Require Import Ascii ZArith Lia.
From S2P Require Import Prelude Text Identity.
Local Open Scope Z_scope.
Set Default Proof Using "Type".

(** ** Texts *)

Lemma ascii_N_inj c d : Ascii.N_of_ascii c = Ascii.N_of_ascii d → c = d.
Proof. intros E. by rewrite <- (Ascii.ascii_N_embedding c), E, Ascii.ascii_N_embedding. Qed.

Lemma encode_char_inj c d r r' : encode_char c r = encode_char d r' → c = d ∧ r = r'.
Proof.
  unfold encode_char. pose proof (Ascii.N_ascii_bounded c) as Bc. pose proof (Ascii.N_ascii_bounded d) as Bd.
  assert (Q : ∀ n, (128 ≤ n → n < 256 → 192 + n / 64 < 256 ∧ 128 + n mod 64 < 256 ∧ 192 ≤ 192 + n / 64)%N).
  { intros n H1 H2. pose proof (N.mod_lt n 64 ltac:(lia)). pose proof (N.Div0.div_mod n 64). set (a := (n / 64)%N) in *. set (b := (n mod 64)%N) in *. clearbody a b. lia. }
  destruct (N.ltb_spec (Ascii.N_of_ascii c) 128) as [Hc|Hc], (N.ltb_spec (Ascii.N_of_ascii d) 128) as [Hd|Hd].
  - by intros [= -> ->].
  - intros [= E _]. exfalso. apply (f_equal Ascii.N_of_ascii) in E. destruct (Q _ Hd Bd) as (Q1 & _ & Q2).
    rewrite Ascii.N_ascii_embedding in E by lia. lia.
  - intros [= E _]. exfalso. apply (f_equal Ascii.N_of_ascii) in E. destruct (Q _ Hc Bc) as (Q1 & _ & Q2).
    rewrite Ascii.N_ascii_embedding in E by lia. lia.
  - intros [= E1 E2 ->]. split; [|done]. destruct (Q _ Hc Bc) as (C1 & C2 & _), (Q _ Hd Bd) as (D1 & D2 & _).
    apply (f_equal Ascii.N_of_ascii) in E1, E2. rewrite !Ascii.N_ascii_embedding in E1, E2 by lia.
    apply ascii_N_inj. rewrite (N.Div0.div_mod (Ascii.N_of_ascii c) 64), (N.Div0.div_mod (Ascii.N_of_ascii d) 64). f_equal; [f_equal|]; revert E1 E2; clear; intros; by eapply N.add_cancel_l.
Qed.

Lemma encode_char_cons c r : encode_char c r ≠ "".
Proof. unfold encode_char. by destruct (_ <? _)%N. Qed.

Lemma encode_inj s t : encode s = encode t → s = t.
Proof.
  revert t. induction s as [|c s IH]; intros [|d t] E; [done|symmetry in E| |]; try by apply encode_char_cons in E.
  apply encode_char_inj in E as [-> E]. f_equal. by apply IH.
Qed.

Definition one_line (s : string) : Prop := string_all (λ c, c ≠ newline) s.

Lemma one_line_app s t u v : one_line s → one_line t → s +:+ String newline u = t +:+ String newline v → s = t ∧ u = v.
Proof.
  revert t. induction s as [|c s IH]; intros [|d t] Hs Ht E.
  - by injection E.
  - injection E as E _. by destruct Ht as [Ht _]; destruct Ht.
  - injection E as E _. by destruct Hs as [Hs _]; destruct Hs.
  - injection E as -> E. destruct (IH t (proj2 Hs) (proj2 Ht) E) as [-> ->]. done.
Qed.

Lemma join_lines_inj l l' : length l = length l' → Forall one_line l → Forall one_line l' → join_lines l = join_lines l' → l = l'.
Proof.
  revert l'. induction l as [|p l IH]; intros [|q l'] Hlen Hl Hl' E; try done.
  inversion Hl as [|?? Hp Hl1]; subst. inversion Hl' as [|?? Hq Hl1']; subst. injection Hlen as Hlen.
  destruct l as [|p2 l], l' as [|q2 l']; try done; [by simpl in E; subst|].
  apply one_line_app in E as [-> E]; [|done..]. f_equal. by apply IH.
Qed.

Lemma has_char_one_line s : has_char newline s = false → one_line s.
Proof.
  unfold has_char. rewrite negb_false_iff. induction s as [|c s IH]; [done|]. simpl. rewrite andb_true_iff. intros [Hc Hs].
  split; [|by apply IH]. by apply negb_true_iff, bool_decide_eq_false in Hc.
Qed.

Lemma all_chars_one_line p s : p newline = false → all_chars p s = true → one_line s.
Proof.
  intros Hp. induction s as [|c s IH]; [done|]. simpl. rewrite andb_true_iff. intros [Hc Hs]. split; [|by apply IH].
  intros ->. congruence.
Qed.

Lemma upper_one_line s : one_line s → one_line (upper s).
Proof.
  induction s as [|c s IH]; [done|]. intros [Hc Hs]. split; [|by apply IH]. unfold upper_char, in_range.
  destruct (N.leb_spec 97 (Ascii.N_of_ascii c)) as [H1|]; [|done]. destruct (N.leb_spec (Ascii.N_of_ascii c) 122) as [H2|]; [|done].
  simpl. intros E. apply (f_equal Ascii.N_of_ascii) in E. rewrite Ascii.N_ascii_embedding in E by lia. change (Ascii.N_of_ascii newline) with 10%N in E. lia.
Qed.

Lemma int_str_one_line z : one_line (int_str z).
Proof.
  assert (Hd : ∀ n, one_line (N_str n)).
  { intros n. eapply string_all_impl; [|by apply put_digits_all]. intros c (d & Hd & ->). apply digit_char_neq; [lia|done]. }
  unfold int_str. destruct z; [apply Hd..|split; [done|apply Hd]].
Qed.

Section Props.
Context `{RedisNonces} (sha256 : string → string) (hmac_b64 : string → string → string).
(** A hex digest is one line. *)
Context (Hsha : ∀ s, one_line (sha256 s)).

Abbreviation check_signature := (check_signature sha256 hmac_b64).
Abbreviation user_id := (user_id sha256 hmac_b64).
Abbreviation replay_key := (replay_key sha256).

(** What the headers of an accepted request are. *)
Record signed_by (p : provider) (clock : Z) (r : identity_request) (h : IdentityHeaders)
    (user key_id nonce signature path query secret : string) (timestamp : Z) : Prop := {
  sb_user : h_user_id h = Some user ∧ required_user (Some user) = Ok user;
  sb_version : h_signature_version h = Some "v1";
  sb_key : h_key_id h = Some key_id ∧ is_key_id key_id = true;
  sb_nonce : h_nonce h = Some nonce ∧ is_nonce nonce = true;
  sb_signature : h_signature h = Some signature ∧ is_signature signature = true;
  sb_timestamp : ∃ t, h_timestamp h = Some t ∧ t ≠ "" ∧ all_chars is_decimal t = true ∧ py_int t = Some timestamp;
  sb_fresh : Z.abs (clock - timestamp) ≤ p_skew p;
  sb_secret : assoc key_id (p_keys p) = Some secret;
  sb_path : raw_path r = Ok path;
  sb_query : raw_query r = Ok query;
  sb_signed : sign_bff_request sha256 hmac_b64 secret (q_method r) path query user timestamp nonce (q_body r) = signature
}.

Lemma required_user_Some value user : required_user value = Ok user → value = Some user ∧ required_user (Some user) = Ok user.
Proof. unfold required_user. destruct value as [v|]; [|done]. destruct (_ || _) eqn:E; [done|]. intros [= ->]. by rewrite E. Qed.

Lemma present value q : not_given value || negb (q (default "" value)) = false → ∃ v, value = Some v ∧ v ≠ "" ∧ q v = true.
Proof.
  intros [Hm Hq%negb_false_iff]%orb_false_iff. destruct value as [v|]; [|done]. exists v. split; [done|]. split; [|done].
  by apply String.eqb_neq.
Qed.

Lemma check_signature_Ok p clock r h user key : check_signature p clock r h = Ok (user, key) ↔
  ∃ key_id nonce signature path query secret timestamp,
    signed_by p clock r h user key_id nonce signature path query secret timestamp ∧ key = replay_key (p_prefix p) key_id nonce.
Proof.
  unfold Identity.check_signature, check_headers. split.
  - intros Hc. apply result_bind_Ok in Hc as ((((((u & ts) & sec) & k) & n) & sg) & Hh & Hc).
    apply result_bind_Ok in Hh as (u' & Hu & Hh). apply raise_if_then in Hh as [Hv Hh].
    apply raise_if_then in Hh as [Hk Hh]. apply raise_if_then in Hh as [Hn Hh]. apply raise_if_then in Hh as [Hsg Hh].
    apply raise_if_then in Hh as [Ht Hh]. apply result_bind_Ok in Hh as (ts' & Hts & Hh). apply raise_if_then in Hh as [Hf Hh].
    apply result_bind_Ok in Hh as (sec' & Hsec & [= <- <- <- <- <- <-]).
    apply result_bind_Ok in Hc as (path & Hp & Hc). apply result_bind_Ok in Hc as (query & Hq & Hc).
    apply raise_if_then in Hc as [Hs [= <- <-]]. apply present in Hk as (k & Ek & _ & Hk), Hn as (n & En & _ & Hn), Hsg as (sg & Esg & _ & Hsg).
    apply present in Ht as (t & Et & Hne & Ht). rewrite Ek, En, Esg in *. rewrite Et in Hts. simpl in *.
    exists k, n, sg, path, query, sec', ts'. split; [|done]. split; try done.
    + by apply required_user_Some.
    + by apply negb_false_iff, bool_decide_eq_true in Hv.
    + exists t. split; [done|]. split; [done|]. split; [done|]. destruct (py_int t); [by injection Hts as ->|done].
    + by apply Z.ltb_ge.
    + destruct (assoc k (p_keys p)); [by injection Hsec as ->|done].
    + by apply negb_false_iff, String.eqb_eq in Hs.
  - intros (k & n & sg & path & query & sec & ts & [[Eu Hu] Hv [Ek Hk] [En Hn] [Esg Hsg] (t & Et & Hne & Ht & Hts) Hf Hsec Hp Hq Hs] & ->).
    assert (Hm : ∀ v q, q v = true → v ≠ "" → not_given (Some v) || negb (q (default "" (Some v))) = false).
    { intros v q Hqv Hv0. simpl. rewrite Hqv. simpl. rewrite orb_false_r. by apply String.eqb_neq. }
    assert (Hc : ∀ q lo hi v, class_match q (S lo) hi v = true → v ≠ "") by (by intros ???? Hcm ->).
    rewrite Eu, Hu, Hv, Ek, En, Esg, Et. cbn [mbind result_bind]. rewrite bool_decide_eq_true_2 by done. cbn [negb raise_if mbind result_bind].
    rewrite !(Hm _ _ Hk), !(Hm _ _ Hn), !(Hm _ _ Hsg), !(Hm t _ Ht) by (done || by eapply Hc). cbn [raise_if mbind result_bind].
    unfold default, from_option, id. rewrite Hts. cbn [from_option_err mbind result_bind]. rewrite (proj2 (Z.ltb_ge _ _) Hf), Hsec. cbn [raise_if from_option_err mbind result_bind].
    rewrite Hp, Hq. cbn [mbind result_bind]. by rewrite Hs, String.eqb_refl.
Qed.

(** A request is accepted exactly when its headers are well formed, its
    timestamp is within the skew of the clock, its signature is the HMAC of
    its own method, path, query, user, timestamp, nonce and body under the
    named key, and its nonce is not remembered; the nonce is remembered then,
    for twice the skew and a second. *)
Lemma signed_request_accepted_iff p clock r h now s user s' : 0 < p_skew p →
  user_id p clock r h Served now s = (Ok user, s') ↔
  ∃ key_id nonce signature path query secret timestamp,
    signed_by p clock r h user key_id nonce signature path query secret timestamp ∧
    live now s (replay_key (p_prefix p) key_id nonce) = false ∧
    s' = (set_nx_ex (replay_key (p_prefix p) key_id nonce) "1" (p_skew p * 2 + 1) now s).2.
Proof.
  intros Hskew. unfold Identity.user_id. split.
  - destruct (check_signature p clock r h) as [[u key]|e] eqn:Hc; [|done].
    apply check_signature_Ok in Hc as (k & n & sg & path & query & sec & ts & Hsb & ->). intros [= Hu <-].
    destruct (live now s (replay_key (p_prefix p) k n)) eqn:Hl; [by rewrite set_live in Hu|].
    destruct (set_free (replay_key (p_prefix p) k n) "1" (p_skew p * 2 + 1) now s Hl) as [E _]; [lia|]. rewrite E in Hu. injection Hu as ->.
    by exists k, n, sg, path, query, sec, ts.
  - intros (k & n & sg & path & query & sec & ts & Hsb & Hl & ->).
    assert (Hc : check_signature p clock r h = Ok (user, replay_key (p_prefix p) k n)).
    { apply check_signature_Ok. by exists k, n, sg, path, query, sec, ts. }
    rewrite Hc. destruct (set_free (replay_key (p_prefix p) k n) "1" (p_skew p * 2 + 1) now s Hl) as [E _]; [lia|]. by rewrite E.
Qed.

Lemma accepted p clock r h fate now s u : 0 < p_skew p → Ok u = (user_id p clock r h fate now s).1 →
  ∃ key_id nonce signature path query secret timestamp,
    signed_by p clock r h u key_id nonce signature path query secret timestamp ∧
    live now s (replay_key (p_prefix p) key_id nonce) = false ∧
    (user_id p clock r h fate now s).2 = (set_nx_ex (replay_key (p_prefix p) key_id nonce) "1" (p_skew p * 2 + 1) now s).2.
Proof.
  intros Hskew Hu. assert (fate = Served) as ->.
  { unfold Identity.user_id in Hu. destruct (check_signature p clock r h) as [[? ?]|]; [|done]. by destruct fate. }
  apply (signed_request_accepted_iff p clock r h now s u); [done|]. rewrite Hu. apply surjective_pairing.
Qed.

(** ** What a signature binds *)

(** A request as HTTP delivers it: method and target are one line. *)
Definition http_line (r : identity_request) : Prop :=
  one_line (q_method r) ∧ (∀ path, raw_path r = Ok path → one_line path) ∧ (∀ query, raw_query r = Ok query → one_line query).

Lemma signed_fields p clock r h user key_id nonce signature path query secret timestamp : http_line r →
  signed_by p clock r h user key_id nonce signature path query secret timestamp →
  Forall one_line (canonical_fields (q_method r) path query user timestamp nonce (sha256 (q_body r))).
Proof using Hsha.
  intros (Hm & Hp & Hq) Hsb. destruct (sb_user _ _ _ _ _ _ _ _ _ _ _ _ Hsb) as [_ Hu]. destruct (sb_nonce _ _ _ _ _ _ _ _ _ _ _ _ Hsb) as [_ Hn].
  assert (Hu1 : one_line user).
  { unfold required_user in Hu. destruct (_ || _) eqn:E in Hu; [done|]. apply orb_false_iff in E as [E _]. apply orb_false_iff in E as [_ E].
    by apply has_char_one_line. }
  assert (Hn1 : one_line nonce).
  { unfold is_nonce, class_match in Hn. apply andb_true_iff in Hn as [_ Hn]. by eapply all_chars_one_line; [|done]. }
  unfold canonical_fields. apply Forall_cons_2; [split; [done|split; done]|]. apply Forall_cons_2; [by apply upper_one_line|].
  apply Forall_cons_2; [eapply Hp, sb_path, Hsb|]. apply Forall_cons_2; [eapply Hq, sb_query, Hsb|]. apply Forall_cons_2; [exact Hu1|].
  apply Forall_cons_2; [apply int_str_one_line|]. apply Forall_cons_2; [exact Hn1|]. apply Forall_cons_2; [apply Hsha|apply Forall_nil_2].
Qed.

(** A signature binds the whole request: if one signature under one key is
    accepted for two requests, they have the same method up to case, path,
    query, user, timestamp, nonce and digest of the body, unless HMAC gives
    two different texts the same code. *)
Theorem signature_binds_request p clock1 r1 h1 clock2 r2 h2 u1 u2 k n1 n2 sg path1 path2 query1 query2 secret ts1 ts2 :
  http_line r1 → http_line r2 →
  signed_by p clock1 r1 h1 u1 k n1 sg path1 query1 secret ts1 → signed_by p clock2 r2 h2 u2 k n2 sg path2 query2 secret ts2 →
  (upper (q_method r1) = upper (q_method r2) ∧ path1 = path2 ∧ query1 = query2 ∧ u1 = u2 ∧ ts1 = ts2 ∧ n1 = n2 ∧
    sha256 (q_body r1) = sha256 (q_body r2)) ∨
  ∃ text1 text2, text1 ≠ text2 ∧ hmac_b64 secret text1 = hmac_b64 secret text2.
Proof using Hsha.
  intros L1 L2 S1 S2. pose proof (signed_fields _ _ _ _ _ _ _ _ _ _ _ _ L1 S1) as F1. pose proof (signed_fields _ _ _ _ _ _ _ _ _ _ _ _ L2 S2) as F2.
  pose proof (sb_signed _ _ _ _ _ _ _ _ _ _ _ _ S1) as E1. pose proof (sb_signed _ _ _ _ _ _ _ _ _ _ _ _ S2) as E2.
  unfold sign_bff_request in E1, E2.
  set (t1 := canonical_bff_request (q_method r1) path1 query1 u1 ts1 n1 (sha256 (q_body r1))) in *.
  set (t2 := canonical_bff_request (q_method r2) path2 query2 u2 ts2 n2 (sha256 (q_body r2))) in *.
  destruct (decide (t1 = t2)) as [E|E]; [left|right; exists t1, t2; split; congruence].
  apply encode_inj, join_lines_inj in E; [|done..]. injection E as E3 E4 E5 E6 E7 E8 E9.
  apply (f_equal py_int) in E7. rewrite !py_int_int_str in E7. injection E7 as E7. done.
Qed.

(** ** A signed request is used once *)

(** The calls of the processes and whatever else happens on the server, in the
    order in which the server sees them. A process reads its clock before the
    server sets the nonce, and other clients leave the nonces alone. *)
Inductive event : Type :=
| Called (clock : Z) (r : identity_request) (h : IdentityHeaders) (fate : call_fate) (now : Z) (out : result string)
| Elsewhere.

Inductive step (p : provider) : Z * nonces → event → Z * nonces → Prop :=
| step_call t s clock r h fate now : t ≤ now → clock * 1000 ≤ now →
    step p (t, s) (Called clock r h fate now (user_id p clock r h fate now s).1) (now, (user_id p clock r h fate now s).2)
| step_other t t' s s' : t ≤ t' →
    (∀ key_id nonce now, t' ≤ now → live now s' (replay_key (p_prefix p) key_id nonce) = live now s (replay_key (p_prefix p) key_id nonce)) →
    step p (t, s) Elsewhere (t', s').

Inductive history (p : provider) : Z * nonces → list event → Z * nonces → Prop :=
| history_nil c : history p c [] c
| history_cons c1 e c2 l c3 : step p c1 e c2 → history p c2 l c3 → history p c1 (e :: l) c3.

Lemma history_app p c1 l1 l2 c3 : history p c1 (l1 ++ l2) c3 → ∃ c2, history p c1 l1 c2 ∧ history p c2 l2 c3.
Proof.
  revert c1. induction l1 as [|e l1 IH]; intros c1 Hh; [exists c1; split; [constructor|done]|].
  inversion Hh as [|? ? c2 ? ? Hs Hr]; subst. destruct (IH _ Hr) as (c4 & H1 & H2). exists c4. split; [by econstructor|done].
Qed.

Lemma step_called p c clock r h fate now out c' : step p c (Called clock r h fate now out) c' →
  c.1 ≤ now ∧ clock * 1000 ≤ now ∧ out = (user_id p clock r h fate now c.2).1 ∧ c' = (now, (user_id p clock r h fate now c.2).2).
Proof. by inversion 1. Qed.

(** A nonce that is remembered at a time stays remembered until then. *)
Lemma step_keeps p t s e t' s' key_id nonce until : 0 < p_skew p → step p (t, s) e (t', s') → t ≤ t' ∧
  ((∀ now, t ≤ now → now ≤ until → live now s (replay_key (p_prefix p) key_id nonce) = true) →
   ∀ now, t' ≤ now → now ≤ until → live now s' (replay_key (p_prefix p) key_id nonce) = true).
Proof.
  intros Hskew Hs. inversion Hs as [? ? clock r h fate ? Ht Hc|? ? ? ? Ht Ho]; subst.
  - split; [done|]. intros Hl now Hn Hu. specialize (Hl now ltac:(lia) Hu) as Hnow. unfold Identity.user_id.
    destruct (check_signature p clock r h) as [[u key]|e]; [|done].
    assert (Hset : live now (set_nx_ex key "1" (p_skew p * 2 + 1) t' s).2 (replay_key (p_prefix p) key_id nonce) = true).
    { destruct (live t' s key) eqn:El; [by rewrite set_live|].
      destruct (set_free key "1" (p_skew p * 2 + 1) t' s El) as [_ E]; [lia|]. unfold live in *. rewrite E. case_decide as Ek; [|done].
      subst key. specialize (Hl t' Ht ltac:(lia)). unfold live in Hl. congruence. }
    by destruct fate.
  - split; [done|]. intros Hl now Hn Hu. rewrite Ho by done. apply Hl; [lia|done].
Qed.

Lemma history_keeps p c l c' key_id nonce until : 0 < p_skew p → history p c l c' →
  (∀ now, c.1 ≤ now → now ≤ until → live now c.2 (replay_key (p_prefix p) key_id nonce) = true) →
  ∀ now, c'.1 ≤ now → now ≤ until → live now c'.2 (replay_key (p_prefix p) key_id nonce) = true.
Proof.
  intros Hskew. induction 1 as [|[t s] e [t' s'] l c3 Hs _ IH]; [done|]. intros Hl. apply IH.
  destruct (step_keeps p t s e t' s' key_id nonce until Hskew Hs) as [_ Hk]. by apply Hk.
Qed.

(** C27. A signed request is accepted at most once while it is fresh: if two
    calls, of any processes, accept headers with the same key, nonce and
    timestamp, the second set its nonce when the timestamp had run out. *)
Theorem signed_request_used_once p c1 l1 clock1 r1 h1 f1 now1 u1 l2 clock2 r2 h2 f2 now2 u2 l3 c2 timestamp : 0 < p_skew p →
  history p c1 (l1 ++ Called clock1 r1 h1 f1 now1 (Ok u1) :: l2 ++ Called clock2 r2 h2 f2 now2 (Ok u2) :: l3) c2 →
  h_key_id h1 = h_key_id h2 → h_nonce h1 = h_nonce h2 → h_timestamp h1 = h_timestamp h2 →
  from_option py_int None (h_timestamp h1) = Some timestamp →
  timestamp + p_skew p < now2 / 1000.
Proof.
  intros Hskew Hh Ek En Et Hts. apply history_app in Hh as ([t0 s0] & _ & Hh).
  inversion Hh as [|? ? [t1 s1] ? ? Hstep1 Hh1]; subst. apply history_app in Hh1 as ([t2 s2] & Hmid & Hh2).
  inversion Hh2 as [|? ? [t3 s3] ? ? Hstep2 _]; subst.
  apply step_called in Hstep1 as (Ht1 & Hc1 & Ho1 & [= -> ->]), Hstep2 as (Ht2 & Hc2 & Ho2 & _). cbn [fst snd] in *.
  destruct (accepted _ _ _ _ _ _ _ _ Hskew Ho1) as (k & n & sg & path & query & sec & ts & B1 & L1 & E1).
  destruct (accepted _ _ _ _ _ _ _ _ Hskew Ho2) as (k' & n' & sg' & path' & query' & sec' & ts' & B2 & L2 & _).
  destruct (sb_key _ _ _ _ _ _ _ _ _ _ _ _ B1) as [Hk _], (sb_key _ _ _ _ _ _ _ _ _ _ _ _ B2) as [Hk' _].
  destruct (sb_nonce _ _ _ _ _ _ _ _ _ _ _ _ B1) as [Hn _], (sb_nonce _ _ _ _ _ _ _ _ _ _ _ _ B2) as [Hn' _].
  destruct (sb_timestamp _ _ _ _ _ _ _ _ _ _ _ _ B1) as (t & Ht & _ & _ & Hp). pose proof (sb_fresh _ _ _ _ _ _ _ _ _ _ _ _ B1) as Hf.
  assert (ts = timestamp) as -> by (rewrite Ht in Hts; simpl in Hts; congruence).
  assert (k' = k) as -> by congruence. assert (n' = n) as -> by congruence.
  destruct (set_free (replay_key (p_prefix p) k n) "1" (p_skew p * 2 + 1) now1 s0 L1) as [_ Hset]; [lia|].
  assert (Hl : ∀ now, now1 ≤ now → now ≤ now1 + (p_skew p * 2 + 1) * 1000 →
    live now (user_id p clock1 r1 h1 f1 now1 s0).2 (replay_key (p_prefix p) k n) = true).
  { intros now _ Hu. rewrite E1. unfold live. rewrite Hset, decide_True by done. by apply Z.leb_le. }
  pose proof (history_keeps p _ _ _ k n _ Hskew Hmid Hl) as Hkeep. cbn [fst snd] in Hkeep.
  destruct (Z.leb_spec now2 (now1 + (p_skew p * 2 + 1) * 1000)) as [Hle|Hgt]; [|assert (timestamp + p_skew p + 1 ≤ now2 / 1000) by (apply Z.div_le_lower_bound; lia); lia].
  rewrite (Hkeep now2) in L2 by lia. done.
Qed.

End Props.

(** ** The keys of a provider *)

Lemma elem_of_assoc_set {A} k (v : A) l x : x ∈ assoc_set k v l → x = (k, v) ∨ x ∈ l.
Proof.
  induction l as [|[k1 v1] l IH]; simpl; [intros ->%list_elem_of_singleton; by left|].
  case_match; intros [->|Hin]%elem_of_cons; rewrite ?elem_of_cons in *; tauto.
Qed.

Lemma decode_entries_keys b64decode values keys out :
  (∀ x, x ∈ keys → is_key_id x.1 = true ∧ (32 ≤ String.length x.2)%nat) → decode_entries b64decode values keys = Ok out →
  ∀ x, x ∈ out → is_key_id x.1 = true ∧ (32 ≤ String.length x.2)%nat.
Proof.
  revert keys. induction values as [|[key e] values IH]; intros keys Hk; [by intros [= <-]|]. cbn [decode_entries].
  intros (secret & Hd & Hr)%result_bind_Ok. refine (IH _ _ Hr). intros x [->|Hx]%elem_of_assoc_set; [|by apply Hk].
  unfold decode_key in Hd. apply raise_if_then in Hd as [Hid Hd]. apply result_bind_Ok in Hd as (text & _ & Hd).
  apply result_bind_Ok in Hd as (s & _ & Hd). apply raise_if_then in Hd as [Hlen [= <-]]. by apply negb_false_iff in Hid; apply Nat.ltb_ge in Hlen.
Qed.

(** A provider knows only keys of at least 32 bytes under valid names, and at
    least one second of skew. *)
Lemma provider_keys_strong b64decode parsed skew prefix p : provider_init b64decode parsed skew prefix = Ok p →
  1 ≤ p_skew p ∧ ∀ x, x ∈ p_keys p → is_key_id x.1 = true ∧ (32 ≤ String.length x.2)%nat.
Proof.
  unfold provider_init. intros Hi. apply raise_if_then in Hi as [Hs Hi]. apply raise_if_then in Hi as [_ Hi].
  apply result_bind_Ok in Hi as (keys & Hd & [= <-]). apply Z.ltb_ge in Hs. split; [done|]. cbn [p_keys]. unfold decode_keys in Hd.
  destruct parsed as [[]|]; try done. destruct l; [done|]. eapply decode_entries_keys, Hd. by intros ? ?%not_elem_of_nil.
Qed.

(** ** A table of nonces

    An instance of [RedisNonces], the theorems of [IdentityProps] on a request,
    and a replay that is accepted because its body arrives late. *)

Module NonceTable.
Definition remembered (s : gmap string Z) (k : string) (now : Z) : bool := match s !! k with Some e => now <=? e | None => false end.

#[export] Program Instance nonce_table : RedisNonces := {|
  nonces := gmap string Z;
  expires s k := s !! k;
  set_nx_ex k v ttl now s :=
    if remembered s k now then (false, s) else (true, <[k := now + ttl * 1000]> s)
|}.
Next Obligation. intros k v ttl now s Hl. cbn. by replace (remembered s k now) with true. Qed.
Next Obligation.
  intros k v ttl now s Hl _. cbn. replace (remembered s k now) with false by done. split; [done|]. intros k'. cbn. case_decide as Hk; [subst k'; by rewrite lookup_insert_eq|by rewrite lookup_insert_ne].
Qed.

Definition demo_sha (s : string) : string := "digest".
Definition demo_signature : string := "AAAAAAAAAAAAAAAAAAAAAAAAAAAAAAAAAAAAAAAAAAA".
Definition demo_hmac (secret text : string) : string := demo_signature.

Lemma demo_sha_line s : one_line (demo_sha s).
Proof. by apply has_char_one_line. Qed.

Definition demo_provider : provider := mk_provider [("web", "an opaque secret of 32 bytes and")] 300 "agent:bff-auth:nonce".
Definition demo_request : identity_request := mk_request "GET" (Some "/tasks") "/tasks" "limit=10" "".
Definition demo_headers : IdentityHeaders :=
  mk_headers (Some "alice") (Some "v1") (Some "web") (Some "1000") (Some "0123456789abcdef") (Some demo_signature).

(** The first call sets the nonce at 1000 s. The replay is checked at 1300 s,
    and its nonce is set when the body is there, at 1602 s. *)
Definition demo_events : list event :=
  [Called 1000 demo_request demo_headers Served 1000000 (Ok "alice");
   Called 1001 demo_request demo_headers Served 1001000 (Err (unauthorized "Replayed BFF request"));
   Called 1300 demo_request demo_headers Served 1602000 (Ok "alice")].

Definition demo_call (clock now : Z) (s : gmap string Z) : result string * gmap string Z :=
  user_id demo_sha demo_hmac demo_provider clock demo_request demo_headers Served now s.

Lemma demo_step clock now t s out : t ≤ now → clock * 1000 ≤ now → (demo_call clock now s).1 = out →
  step demo_sha demo_hmac demo_provider (t, s) (Called clock demo_request demo_headers Served now out) (now, (demo_call clock now s).2).
Proof. intros Ht Hc <-. by apply (@step_call nonce_table demo_sha demo_hmac demo_provider t s). Qed.

Lemma demo_history : ∃ c, history demo_sha demo_hmac demo_provider (0, (∅ : gmap string Z)) demo_events c.
Proof.
  eexists. eapply history_cons; [apply demo_step; [lia..|by vm_compute]|].
  eapply history_cons; [apply demo_step; [lia..|by vm_compute]|].
  eapply history_cons; [apply demo_step; [lia..|by vm_compute]|]. apply history_nil.
Qed.

(** A replay whose body arrives late is accepted. *)
Lemma late_replay_accepted : ∃ c, history demo_sha demo_hmac demo_provider (0, (∅ : gmap string Z)) demo_events c ∧
  h_nonce demo_headers = Some "0123456789abcdef" ∧
  Called 1000 demo_request demo_headers Served 1000000 (Ok "alice") ∈ demo_events ∧
  Called 1300 demo_request demo_headers Served 1602000 (Ok "alice") ∈ demo_events.
Proof. destruct demo_history as [c Hc]. exists c. split; [done|]. split; [done|]. split; set_solver. Qed.

Lemma signed_request_used_once_witness : 1000 + 300 < 1602000 / 1000.
Proof.
  destruct demo_history as [c Hc].
  apply (@signed_request_used_once nonce_table demo_sha demo_hmac demo_provider (0, (∅ : gmap string Z)) [] 1000 demo_request demo_headers Served 1000000 "alice"
    [Called 1001 demo_request demo_headers Served 1001000 (Err (unauthorized "Replayed BFF request"))]
    1300 demo_request demo_headers Served 1602000 "alice" [] c 1000); [done|exact Hc|reflexivity..].
Defined.

Lemma demo_signed clock : Z.abs (clock - 1000) ≤ 300 → signed_by demo_sha demo_hmac demo_provider clock demo_request demo_headers
  "alice" "web" "0123456789abcdef" demo_signature "/tasks" "limit=10" "an opaque secret of 32 bytes and" 1000.
Proof. intros Hc. split; try done. by exists "1000". Qed.

Lemma demo_http_line : http_line demo_request.
Proof. split; [by apply has_char_one_line|]. split; intros ? [= <-]; by apply has_char_one_line. Qed.

Lemma signature_binds_request_witness :
  (upper (q_method demo_request) = upper (q_method demo_request) ∧ "/tasks" = "/tasks" ∧ "limit=10" = "limit=10" ∧ "alice" = "alice" ∧
    1000 = 1000 ∧ "0123456789abcdef" = "0123456789abcdef" ∧ demo_sha (q_body demo_request) = demo_sha (q_body demo_request)) ∨
  ∃ text1 text2, text1 ≠ text2 ∧ demo_hmac "an opaque secret of 32 bytes and" text1 = demo_hmac "an opaque secret of 32 bytes and" text2.
Proof.
  apply (signature_binds_request demo_sha demo_hmac demo_sha_line demo_provider 1000 demo_request demo_headers 1100 demo_request demo_headers
    "alice" "alice" "web" "0123456789abcdef" "0123456789abcdef" demo_signature "/tasks" "/tasks" "limit=10" "limit=10"
    "an opaque secret of 32 bytes and" 1000 1000); [apply demo_http_line|apply demo_http_line|apply demo_signed; lia..].
Defined.
End NonceTable.
