(* ===== verification/DeadLetters.v ===== *)
(** * Dead letters ([ex_agent/transport/dlq.py])

    The operator's manager of a dead-letter stream: listing, replaying and
    discarding entries. The Lua scripts run as one command, but an error
    inside does not undo what they did before, so they are coroutines over the
    server. Redis is the interface [RedisDlq]; json, cjson and SHA-256 are
    parameters. *)

From stdpp Require Import base gmap strings list sorting.
From Stdlib Require Import Ascii ZArith Lia.
From S2P Require Import Prelude Text WorkerContracts RedisStreams.
Local Open Scope Z_scope.
Set Default Proof Using "Type".

(** ** The server

    Streams in id order and string keys. XADD generates an id above every id
    the stream ever had; XDEL removes one entry; neither touches another key.
    An error of XADD (a key of another type) changes nothing. An id without a
    sequence means the whole millisecond for XRANGE and sequence 0 for XDEL. *)
Class RedisDlq := {
  rd : Type;
  rd_entries : rd → string → list ((Z * Z) * entry_fields);
  rd_last : rd → string → Z * Z;
  rd_text : rd → string → option string;
  d_xrange : string → string → string → option Z → rd → list (string * entry_fields);
  d_xadd : string → entry_fields → proc rd string;
  d_xdel : string → string → rd → rd;
  d_set_ex : string → string → Z → rd → rd;
  rd_moved (k : string) (s s' : rd) : Prop := rd_entries s' k = rd_entries s k ∧ rd_last s' k = rd_last s k;
  xrange_at : ∀ k id count s, valid_id id →
    d_xrange k (id_text id) (id_text id) count s =
    map (λ e, (id_text e.1, e.2)) (filter (λ e, e.1 = id) (rd_entries s k));
  xrange_after : ∀ k id n s, valid_id id →
    d_xrange k (id_text id) "+" (Some n) s =
    map (λ e, (id_text e.1, e.2)) (take (Z.to_nat n) (filter (λ e, key_le id e.1) (rd_entries s k)));
  xrange_all : ∀ k n s, d_xrange k "-" "+" (Some n) s = map (λ e, (id_text e.1, e.2)) (take (Z.to_nat n) (rd_entries s k));
  xrange_millisecond : ∀ k ms count s, 0 ≤ ms ≤ max_id_part →
    d_xrange k (int_str ms) (int_str ms) count s =
    map (λ e, (id_text e.1, e.2))
      (let found := filter (λ e, e.1.1 = ms) (rd_entries s k) in match count with Some n => take (Z.to_nat n) found | None => found end);
  xadd_error : ∀ k f s e, (d_xadd k f s).1 = Err e → (d_xadd k f s).2 = s;
  xadd_empty : ∀ k s, ∃ e, (d_xadd k [] s).1 = Err e;
  xadd_of : ∀ k f s t, (d_xadd k f s).1 = Ok t → ∃ id, t = id_text id ∧ valid_id id ∧ key_lt (rd_last s k) id ∧
    rd_entries (d_xadd k f s).2 k = rd_entries s k ++ [(id, f)] ∧ rd_last (d_xadd k f s).2 k = id ∧
    (∀ k', k' ≠ k → rd_moved k' s (d_xadd k f s).2) ∧ rd_text (d_xadd k f s).2 = rd_text s;
  xdel_at : ∀ k id s, valid_id id → rd_entries (d_xdel k (id_text id) s) k = filter (λ e, e.1 ≠ id) (rd_entries s k);
  xdel_millisecond : ∀ k ms s, 0 ≤ ms ≤ max_id_part → rd_entries (d_xdel k (int_str ms) s) k = filter (λ e, e.1 ≠ (ms, 0)) (rd_entries s k);
  xdel_any : ∀ k t s, rd_entries (d_xdel k t s) k ⊆ rd_entries s k ∧ rd_last (d_xdel k t s) k = rd_last s k ∧
    (∀ k', k' ≠ k → rd_moved k' s (d_xdel k t s)) ∧ rd_text (d_xdel k t s) = rd_text s;
  set_ex_of : ∀ k v ttl s k', rd_text (d_set_ex k v ttl s) k' = (if decide (k' = k) then Some v else rd_text s k') ∧
    (k' ≠ k → rd_moved k' s (d_set_ex k v ttl s))
}.

Inductive DeadLetterAction : Type := REPLAYED | DISCARDED.
#[global] Instance DeadLetterAction_eq_dec : EqDecision DeadLetterAction.
Proof. solve_decision. Defined.
Definition action_value (a : DeadLetterAction) : string := match a with REPLAYED => "REPLAYED" | DISCARDED => "DISCARDED" end.
Definition dead_action_of (s : string) : option DeadLetterAction :=
  if String.eqb s "REPLAYED" then Some REPLAYED else if String.eqb s "DISCARDED" then Some DISCARDED else None.

Record DeadLetterEntry := mk_dead_entry {
  de_entry_id : string;
  de_schema_version : string;
  de_failure_id : string;
  de_source_stream : string;
  de_source_group : string;
  de_source_message_id : string;
  de_reason : string;
  de_retry_attempts : Z;
  de_fields : entry_fields;
  de_dead_lettered_at : option string;
  de_consumer : option string;
  de_error_type : option string;
  de_reclaimed : bool
}.
Record DeadLetterPage := mk_dead_page { dp_entries : list DeadLetterEntry; dp_next_cursor : option string }.
Record DeadLetterActionResult := mk_action_result {
  ar_entry_id : string;
  ar_action : DeadLetterAction;
  ar_applied : bool;
  ar_target_message_id : option string
}.

(** [str.lower] of ASCII text *)
Definition lower_char (c : ascii) : ascii :=
  let n := Ascii.N_of_ascii c in if (65 <=? n)%N && (n <=? 90)%N then Ascii.ascii_of_N (n + 32) else c.
Fixpoint lower (s : string) : string :=
  match s with EmptyString => EmptyString | String c s' => String (lower_char c) (lower s') end.

Section DeadLetters.
Context `{EventCodec} `{RedisDlq}.
(** [sha256] of a text in hex, [json.dumps] of a dict with sorted keys, the
    table cjson reads in the order [pairs] visits it, the object cjson writes,
    and Python's [str] of a json value. *)
Context (sha256 : string → string) (dumps : entry_fields → string) (cjson_decode : string → result entry_fields)
  (cjson_encode : entry_fields → string) (py_str : json → string).

(** ** Entries *)

(** [_stable_identity] *)
Definition stable_identity (stream group message_id : string) : string :=
  sha256 (stream +:+ String "000" (group +:+ String "000" message_id)).

Definition field (k : string) (values : entry_fields) : result string := from_option_err (KeyError ("'" +:+ k +:+ "'")) (assoc k values).

(** The [try] of [from_redis] *)
Definition required_fields (values : entry_fields) : result (entry_fields * string * string * string * string * Z) :=
  text ← field "fields" values;
  parsed ← json_loads text;
  fields ← match parsed with JObj l => Ok l | _ => Err (TypeError "fields is not an object") end;
  source_stream ← field "source_stream" values;
  source_group ← field "source_group" values;
  source_message_id ← field "source_message_id" values;
  reason ← field "reason" values;
  attempts ← from_option_err (ValueError "invalid literal for int() with base 10") (py_int (default "0" (assoc "retry_attempts" values)));
  Ok (map (λ kv, (kv.1, py_str kv.2)) fields, source_stream, source_group, source_message_id, reason, attempts).

Definition format_error (entry_id : string) (e : exn) : exn :=
  OtherException "DeadLetterFormatError" ("Invalid DLQ entry " +:+ entry_id +:+ ": " +:+ exn_str e).

(** [DeadLetterEntry.from_redis] *)
Definition entry_from_redis (entry_id : string) (values : entry_fields) : result DeadLetterEntry :=
  match required_fields values with
  | Err e => Err (format_error entry_id e)
  | Ok (fields, source_stream, source_group, source_message_id, reason, attempts) =>
      let failure_id := default "" (assoc "failure_id" values) in
      Ok (mk_dead_entry entry_id (default "0" (assoc "schema_version" values))
        (if String.eqb failure_id "" then stable_identity source_stream source_group source_message_id else failure_id)
        source_stream source_group source_message_id reason attempts fields
        (assoc "dead_lettered_at" values) (assoc "consumer" values) (assoc "error_type" values)
        (String.eqb (lower (default "false" (assoc "reclaimed" values))) "true"))
  end.

(** ** The scripts *)

Definition audit_fields (action : DeadLetterAction) (dlq_stream entry_id failure_id source_stream source_message_id target_id actor reason acted_at : string)
    : entry_fields :=
  [("schema_version", "1"); ("action", action_value action); ("dlq_stream", dlq_stream); ("dlq_entry_id", entry_id);
   ("failure_id", failure_id); ("source_stream", source_stream); ("source_message_id", source_message_id);
   ("target_message_id", target_id); ("actor", actor); ("reason", reason); ("acted_at", acted_at)].

(** [_REPLAY_SCRIPT] *)
Definition replay_script (dlq_stream target marker audit entry_id fields failure_id source_message_id actor reason acted_at : string) (ttl : Z)
    : proc rd (Z * string) :=
  prior ← gets (λ s, rd_text s marker);
  match prior with
  | Some prior => mret (0, prior)
  | None =>
      existing ← gets (d_xrange dlq_stream entry_id entry_id None);
      if bool_decide (existing = []) then mret (-1, "missing") else
      arguments ← lift_result (cjson_decode fields);
      target_id ← d_xadd target arguments;
      d_xadd audit (audit_fields REPLAYED dlq_stream entry_id failure_id target source_message_id target_id actor reason acted_at);;
      modify (d_xdel dlq_stream entry_id);;
      let marker_value := cjson_encode [("action", "REPLAYED"); ("target_message_id", target_id)] in
      modify (d_set_ex marker marker_value ttl);;
      mret (1, marker_value)
  end.

(** [_DISCARD_SCRIPT] *)
Definition discard_script (dlq_stream marker audit entry_id failure_id source_stream source_message_id actor reason acted_at : string) (ttl : Z)
    : proc rd (Z * string) :=
  prior ← gets (λ s, rd_text s marker);
  match prior with
  | Some prior => mret (0, prior)
  | None =>
      existing ← gets (d_xrange dlq_stream entry_id entry_id None);
      if bool_decide (existing = []) then mret (-1, "missing") else
      d_xadd audit (audit_fields DISCARDED dlq_stream entry_id failure_id source_stream source_message_id "" actor reason acted_at);;
      modify (d_xdel dlq_stream entry_id);;
      let marker_value := cjson_encode [("action", "DISCARDED")] in
      modify (d_set_ex marker marker_value ttl);;
      mret (1, marker_value)
  end.

(** ** [DeadLetterManager] *)

Record manager := mk_manager { dm_dlq_stream : string; dm_audit_stream : string; dm_marker_prefix : string; dm_ttl : Z }.

(** [__init__] *)
Definition manager_init (dlq_stream : string) (audit_stream : option string) (prefix : string) (ttl : Z) : result manager :=
  raise_if (String.eqb dlq_stream "") (ValueError "dlq_stream cannot be empty");;
  raise_if (String.eqb prefix "") (ValueError "marker_prefix cannot be empty");;
  raise_if (ttl <? 1) (ValueError "marker_ttl_seconds must be positive");;
  let audit := default "" audit_stream in
  Ok (mk_manager dlq_stream (if String.eqb audit "" then dlq_stream +:+ ".audit" else audit) prefix ttl).

(** [_marker_key] *)
Definition marker_key (m : manager) (entry_id : string) : string :=
  dm_marker_prefix m +:+ ":" +:+ sha256 (dm_dlq_stream m +:+ String "000" entry_id).

(** Entries that become results, in order; the first that does not, raises. *)
Fixpoint entries_from_redis (rows : list (string * entry_fields)) : result (list DeadLetterEntry) :=
  match rows with
  | [] => Ok []
  | (entry_id, values) :: rows' => e ← entry_from_redis entry_id values; es ← entries_from_redis rows'; Ok (e :: es)
  end.

(** [list_entries] *)
Definition list_entries (m : manager) (limit : Z) (after : option string) (s : rd) : result DeadLetterPage :=
  raise_if (negb ((1 <=? limit) && (limit <=? 1000))) (ValueError "limit must be between 1 and 1000");;
  minimum ← match after with None => Ok (Some "-") | Some after => next_stream_id after end;
  match minimum with
  | None => Ok (mk_dead_page [] None)
  | Some minimum =>
      let rows := d_xrange (dm_dlq_stream m) minimum "+" (Some (limit + 1)) s in
      entries ← entries_from_redis (take (Z.to_nat limit) rows);
      Ok (mk_dead_page entries (if (limit <? Z.of_nat (length rows)) then de_entry_id <$> last entries else None))
  end.

(** [get] *)
Definition get_entry (m : manager) (entry_id : string) (s : rd) : result (option DeadLetterEntry) :=
  match d_xrange (dm_dlq_stream m) entry_id entry_id (Some 1) s with
  | [] => Ok None
  | (row_id, values) :: _ => e ← entry_from_redis row_id values; Ok (Some e)
  end.

(** [_validate_action] *)
Definition validate_operator (actor reason : string) : result unit :=
  raise_if (String.eqb (strip actor) "") (ValueError "actor cannot be empty");;
  raise_if (String.eqb (strip reason) "") (ValueError "reason cannot be empty").

(** [_marker_result] *)
Definition marker_result (entry_id marker : string) : result DeadLetterActionResult :=
  let invalid := RuntimeError "DLQ action marker is invalid" in
  match json_loads marker with
  | Ok (JObj payload) =>
      match assoc "action" payload with
      | Some (JStr a) =>
          action ← from_option_err invalid (dead_action_of a);
          Ok (mk_action_result entry_id action false
            (match assoc "target_message_id" payload with
             | Some t => if json_truthy t then Some (py_str t) else None
             | None => None
             end))
      | _ => Err invalid
      end
  | _ => Err invalid
  end.

Definition unknown_entry (entry_id : string) : exn := LookupError ("Unknown DLQ entry: " +:+ entry_id).

(** [_script_result] *)
Definition script_result (entry_id : string) (r : Z * string) : result DeadLetterActionResult :=
  if r.1 =? -1 then Err (unknown_entry entry_id) else
  parsed ← marker_result entry_id r.2;
  Ok (mk_action_result (ar_entry_id parsed) (ar_action parsed) (r.1 =? 1) (ar_target_message_id parsed)).

(** What becomes of the EVAL. *)
Inductive eval_fate : Type := Served | Refused | ReplyLost.

Definition lost : exn := OtherException "ConnectionError" "Connection closed by server.".

(** The script and the reading of its reply. *)
Definition eval_result (fate : eval_fate) (entry_id : string) (script : proc rd (Z * string)) (s : rd) : result DeadLetterActionResult * rd :=
  match fate with
  | Refused => (Err lost, s)
  | ReplyLost => (Err lost, (script s).2)
  | Served => (r ← (script s).1; script_result entry_id r, (script s).2)
  end.

(** [replay] and [discard] up to the EVAL: the marker is read on one state of
    the server, the entry on another. *)
Definition before_eval (m : manager) (entry_id actor reason : string) (s_marker s_entry : rd) : result (DeadLetterActionResult + DeadLetterEntry) :=
  validate_operator actor reason;;
  match rd_text s_marker (marker_key m entry_id) with
  | Some marker => r ← marker_result entry_id marker; Ok (inl r)
  | None =>
      entry ← get_entry m entry_id s_entry;
      match entry with None => Err (unknown_entry entry_id) | Some e => Ok (inr e) end
  end.

(** [replay] *)
Definition replay (m : manager) (entry_id actor reason acted_at : string) (s_marker s_entry : rd) (fate : eval_fate) (s : rd)
    : result DeadLetterActionResult * rd :=
  match before_eval m entry_id actor reason s_marker s_entry with
  | Err e => (Err e, s)
  | Ok (inl r) => (Ok r, s)
  | Ok (inr entry) =>
      eval_result fate entry_id
        (replay_script (dm_dlq_stream m) (de_source_stream entry) (marker_key m entry_id) (dm_audit_stream m) entry_id
          (dumps (de_fields entry)) (de_failure_id entry) (de_source_message_id entry) actor reason acted_at (dm_ttl m)) s
  end.

(** [discard] *)
Definition discard (m : manager) (entry_id actor reason acted_at : string) (s_marker s_entry : rd) (fate : eval_fate) (s : rd)
    : result DeadLetterActionResult * rd :=
  match before_eval m entry_id actor reason s_marker s_entry with
  | Err e => (Err e, s)
  | Ok (inl r) => (Ok r, s)
  | Ok (inr entry) =>
      eval_result fate entry_id
        (discard_script (dm_dlq_stream m) (marker_key m entry_id) (dm_audit_stream m) entry_id
          (de_failure_id entry) (de_source_stream entry) (de_source_message_id entry) actor reason acted_at (dm_ttl m)) s
  end.

(** [replay_many] and [discard_many]: one entry after the other, the first
    error ends it. Each call comes with what others do before its commands. *)
Record pace := mk_pace { before_marker : rd → rd; before_entry : rd → rd; before_script : rd → rd; pace_fate : eval_fate }.

Fixpoint act_many (act : string → rd → rd → eval_fate → rd → result DeadLetterActionResult * rd) (entries : list (string * pace)) (s : rd)
    : result (list DeadLetterActionResult) * rd :=
  match entries with
  | [] => (Ok [], s)
  | (entry_id, p) :: entries' =>
      let s1 := before_marker p s in let s2 := before_entry p s1 in
      match act entry_id s1 s2 (pace_fate p) (before_script p s2) with
      | (Err e, s3) => (Err e, s3)
      | (Ok r, s3) => let '(rs, s4) := act_many act entries' s3 in (rs ← rs; Ok (r :: rs), s4)
      end
  end.
Definition replay_many (m : manager) (actor reason acted_at : string) : list (string * pace) → rd → result (list DeadLetterActionResult) * rd :=
  act_many (λ entry_id, replay m entry_id actor reason acted_at).
Definition discard_many (m : manager) (actor reason acted_at : string) : list (string * pace) → rd → result (list DeadLetterActionResult) * rd :=
  act_many (λ entry_id, discard m entry_id actor reason acted_at).
End DeadLetters.
