(* ===== verification/DeadLettersProps.v ===== *)
(** * What the operator's actions on dead letters guarantee

    Over every interleaving of the calls of any number of operators with the
    consumers that write the stream and the expiry of markers, an entry is
    acted on at most once and every answer agrees on it; an applied replay
    moves the entry; the pages of a listing hold every entry once. *)

From stdpp Require Import base gmap strings list sorting.
From Stdlib Require Import ZArith Lia Ascii.
From S2P Require Import Prelude Text WorkerContracts RedisStreams DeadLetters.
Local Open Scope Z_scope.
Set Default Proof Using "Type".

Section Streams.
Context `{RedisDlq}.

(** ** How a stream changes *)

Definition bounded (k : string) (s : rd) : Prop := ∀ x, x ∈ rd_entries s k → key_le x.1 (rd_last s k).

(** New entries have ids no entry ever had. *)
Record evolves (k : string) (s s' : rd) : Prop := {
  ev_entries : ∀ x, x ∈ rd_entries s' k → x ∈ rd_entries s k ∨ key_lt (rd_last s k) x.1;
  ev_last : key_le (rd_last s k) (rd_last s' k);
  ev_bounded : bounded k s → bounded k s'
}.

#[export] Instance evolves_preorder k : PreOrder (evolves k).
Proof.
  split.
  - intros s. split; [tauto|apply key_le_refl|done].
  - intros s1 s2 s3 [A1 A2 A3] [B1 B2 B3]. split; [|by transitivity (rd_last s2 k)|tauto].
    intros x [Hx|Hx]%B1; [by apply A1|right]. eapply key_le_lt_trans; eassumption.
Qed.

Lemma moved_evolves k s s' : rd_moved k s s' → evolves k s s'.
Proof. intros [E1 E2]. unfold bounded. split; rewrite ?E1, ?E2; [tauto|apply key_le_refl|]. unfold bounded. by rewrite E1, E2. Qed.

Lemma xadd_evolves k k' f s t : (d_xadd k' f s).1 = Ok t → evolves k s (d_xadd k' f s).2.
Proof.
  intros (id & _ & _ & Hlt & He & Hl & Ho & _)%xadd_of. destruct (decide (k = k')) as [->|Hk]; [|by apply moved_evolves, Ho].
  split; unfold bounded; rewrite ?He, ?Hl.
  - intros x [Hx| ->%list_elem_of_singleton]%elem_of_app; [by left|by right].
  - by apply key_lt_le.
  - intros Hb x [Hx| ->%list_elem_of_singleton]%elem_of_app; [|apply key_le_refl]. apply key_lt_le. eapply key_le_lt_trans; [by apply Hb|done].
Qed.

Lemma xdel_evolves k k' t s : evolves k s (d_xdel k' t s).
Proof.
  destruct (xdel_any k' t s) as (He & Hl & Ho & _). destruct (decide (k = k')) as [->|Hk]; [|by apply moved_evolves, Ho].
  split; unfold bounded; rewrite ?Hl; [by intros x ?%He; left|apply key_le_refl|by intros Hb x ?%He; apply Hb].
Qed.

Lemma set_evolves k k' v ttl s : k ≠ k' → evolves k s (d_set_ex k' v ttl s).
Proof. intros Hk. apply moved_evolves. by apply (set_ex_of k' v ttl s k). Qed.
End Streams.

Section Props.
Context `{EventCodec} `{RedisDlq}.
Context (sha256 : string → string) (dumps : entry_fields → string) (cjson_decode : string → result entry_fields)
  (cjson_encode : entry_fields → string) (py_str : json → string).
(** cjson writes objects of texts that json reads back. *)
Context (Hencode : ∀ l, NoDup (map fst l) → ∃ l', json_loads (cjson_encode l) = Ok (JObj l') ∧ ∀ k, assoc k l' = JStr <$> assoc k l)
  (Hstr : ∀ s, py_str (JStr s) = s).

Abbreviation marker_key := (marker_key sha256).
Abbreviation replay := (replay sha256 dumps cjson_decode cjson_encode py_str).
Abbreviation discard := (discard sha256 cjson_encode py_str).
Abbreviation marker_result := (marker_result py_str).

(** ** Listing *)

(** All pages, one after the other; [fuel] bounds their number. *)
Fixpoint list_pages (fuel : nat) (m : manager) (limit : Z) (after : option string) (s : rd) : result (list DeadLetterEntry) :=
  match fuel with
  | O => Err (OtherException "OutOfFuel" "")
  | S fuel' =>
      page ← list_entries sha256 py_str m limit after s;
      match dp_next_cursor page with
      | None => Ok (dp_entries page)
      | Some c => rest ← list_pages fuel' m limit (Some c) s; Ok (dp_entries page ++ rest)
      end
  end.

Definition stream_row : Type := (Z * Z) * entry_fields.
Definition row_of (e : stream_row) : string * entry_fields := (id_text e.1, e.2).
Abbreviation entries_of := (entries_from_redis sha256 py_str).

Lemma entries_of_app l1 l2 out : entries_of (l1 ++ l2) = Ok out → ∃ o1 o2, entries_of l1 = Ok o1 ∧ entries_of l2 = Ok o2 ∧ out = o1 ++ o2.
Proof.
  revert out. induction l1 as [|[id v] l1 IH]; intros out; [by exists [], out|]. cbn.
  intros (e & He & (es & (o1 & o2 & E1 & E2 & ->)%IH & [= <-])%result_bind_Ok)%result_bind_Ok. exists (e :: o1), o2.
  rewrite He. cbn. by rewrite E1.
Qed.

Lemma entry_id_of id v e : entry_from_redis sha256 py_str id v = Ok e → de_entry_id e = id.
Proof. unfold entry_from_redis. destruct (required_fields py_str v) as [[[[[[f a] b] c] d] n]|]; [|done]. by intros [= <-]. Qed.

Lemma entries_of_last l out : entries_of l = Ok out → de_entry_id <$> last out = fst <$> last l.
Proof.
  revert out. induction l as [|[id v] l IH]; intros out; [by intros [= <-]|]. cbn.
  intros (e & He & (es & Hes & [= <-])%result_bind_Ok)%result_bind_Ok. specialize (IH es Hes). apply entry_id_of in He.
  destruct l as [|r l]; [injection Hes as <-; simpl; by rewrite He|].
  destruct es as [|e' es]; [destruct r; cbn in Hes; apply result_bind_Ok in Hes as (? & _ & (? & _ & [=])%result_bind_Ok)|exact IH].
Qed.

Lemma filter_ext_in {A} (P Q : A → Prop) `{!∀ x, Decision (P x), !∀ x, Decision (Q x)} (l : list A) :
  (∀ x, x ∈ l → P x ↔ Q x) → filter P l = filter Q l.
Proof.
  induction l as [|x l IH]; intros Hl; [done|]. rewrite !filter_cons. rewrite IH by (intros; apply Hl; by right).
  assert (P x ↔ Q x) by (apply Hl; left). by repeat case_decide; tauto.
Qed.

Lemma after_last (pre suf : list stream_row) x : StronglySorted (λ a b : stream_row, key_lt a.1 b.1) (pre ++ suf) → last pre = Some x →
  filter (λ e : stream_row, key_lt x.1 e.1) (pre ++ suf) = suf.
Proof.
  intros Hs Hx. rewrite filter_app. apply last_Some in Hx as [pre' ->]. rewrite filter_none, filter_all; [done| |].
  - intros y Hy. rewrite <- app_assoc in Hs. apply StronglySorted_app_1_r in Hs. cbn in Hs. inversion Hs as [|?? _ Hf]; subst.
    rewrite Forall_forall in Hf. by apply Hf.
  - intros y [Hy|Hy%list_elem_of_singleton]%elem_of_app; [|subst; apply key_lt_irrefl].
    apply StronglySorted_app_1_l in Hs. apply (λ Hin, StronglySorted_app_1_elem_of _ _ _ y x Hs Hin) in Hy; [|left].
    intros Hlt. apply (key_lt_irrefl y.1). eapply key_lt_le_trans; [exact Hy|by apply key_lt_le].
Qed.

(** The rows after a cursor. *)
Lemma rows_after k id n s : valid_id id → Forall (λ e : stream_row, valid_id e.1) (rd_entries s k) →
  (next_stream_id (id_text id) = Ok None ∧ filter (λ e : stream_row, key_lt id e.1) (rd_entries s k) = []) ∨
  ∃ from, next_stream_id (id_text id) = Ok (Some from) ∧
    d_xrange k from "+" (Some n) s = map row_of (take (Z.to_nat n) (filter (λ e : stream_row, key_lt id e.1) (rd_entries s k))).
Proof.
  intros Hid Hv. rewrite Forall_forall in Hv. destruct (next_stream_id_spec id Hid) as [[E Hmax]|(id' & E & Hid' & Hlt & Hleast)]; [left|right].
  - split; [done|]. apply filter_none. intros x Hx Hk. apply (key_lt_irrefl x.1). eapply key_le_lt_trans; [by apply Hmax, Hv|done].
  - exists (id_text id'). split; [done|]. rewrite xrange_after by done. unfold row_of. do 2 f_equal. apply filter_ext_in.
    intros x Hx. split; [by eapply key_lt_le_trans|]. intros Hk. apply Hleast; [by apply Hv|done].
Qed.

Lemma last_row (l : list stream_row) x : last l = Some x → fst <$> last (map row_of l) = Some (id_text x.1).
Proof. intros [l' ->]%last_Some. rewrite map_app. cbn [map]. by rewrite last_snoc. Qed.

(** The page at a cursor that has [suf] after it. *)
Lemma page_at m limit s after pre suf out : 1 ≤ limit ≤ 1000 → Forall (λ e : stream_row, valid_id e.1) (rd_entries s (dm_dlq_stream m)) →
  StronglySorted (λ a b : stream_row, key_lt a.1 b.1) (rd_entries s (dm_dlq_stream m)) →
  rd_entries s (dm_dlq_stream m) = pre ++ suf → (after = None ∧ pre = [] ∨ ∃ x, last pre = Some x ∧ after = Some (id_text x.1)) →
  entries_of (map row_of (take (Z.to_nat limit) suf)) = Ok out →
  list_entries sha256 py_str m limit after s =
  Ok (mk_dead_page out (if limit <? Z.of_nat (length suf) then fst <$> last (map row_of (take (Z.to_nat limit) suf)) else None)).
Proof.
  intros Hlim Hv Hs E Hafter Hout. unfold list_entries. rewrite (proj2 (Z.leb_le 1 limit)), (proj2 (Z.leb_le limit 1000)) by lia. cbn [andb negb raise_if mbind result_bind].
  assert (Hrows : (∃ o, match after with None => Ok (Some "-") | Some a => next_stream_id a end = Ok o ∧
      match o with None => suf = [] | Some from => d_xrange (dm_dlq_stream m) from "+" (Some (limit + 1)) s = map row_of (take (Z.to_nat (limit + 1)) suf) end)).
  { destruct Hafter as [[-> ->]|(x & Hx & ->)].
    - exists (Some "-"). split; [done|]. rewrite xrange_all, E. done.
    - assert (Hvx : valid_id x.1).
      { rewrite Forall_forall in Hv. apply Hv. rewrite E. apply elem_of_app. left. apply last_Some in Hx as [l ->]. apply elem_of_app. right. left. }
      assert (Haft : filter (λ e : stream_row, key_lt x.1 e.1) (rd_entries s (dm_dlq_stream m)) = suf) by (rewrite E in *; by apply after_last).
      destruct (rows_after (dm_dlq_stream m) x.1 (limit + 1) s Hvx Hv) as [[-> En]|(from & -> & Er)]; eexists; (split; [reflexivity|]).
      + by rewrite <- Haft.
      + cbv beta iota. by rewrite Er, Haft. }
  destruct Hrows as (o & -> & Ho). cbn [mbind result_bind]. destruct o as [from|].
  - rewrite Ho. replace (take (Z.to_nat limit) (map row_of (take (Z.to_nat (limit + 1)) suf))) with (map row_of (take (Z.to_nat limit) suf))
      by (rewrite firstn_map, take_take, Nat.min_l by lia; done).
    rewrite Hout. cbn [mbind result_bind]. rewrite (entries_of_last _ _ Hout), length_map, length_take. do 2 f_equal.
    change stream_row with ((Z * Z) * entry_fields)%type in *.
    destruct (Z.ltb_spec limit (Z.of_nat (length suf))), (Z.ltb_spec limit (Z.of_nat (min (Z.to_nat (limit + 1)) (length suf)))); done || lia.
  - subst suf. rewrite take_nil in *. injection Hout as <-. by destruct (_ <? _).
Qed.

(** C37. Listing the pages from the first to the one without a cursor returns
    every entry of the stream once and in order, after at most as many pages
    as there are entries and one, while the stream does not change and its
    entries can be read. *)
Theorem listing_complete m limit s out fuel : 1 ≤ limit ≤ 1000 → Forall (λ e : stream_row, valid_id e.1) (rd_entries s (dm_dlq_stream m)) →
  StronglySorted (λ a b : stream_row, key_lt a.1 b.1) (rd_entries s (dm_dlq_stream m)) →
  entries_of (map row_of (rd_entries s (dm_dlq_stream m))) = Ok out →
  (length (rd_entries s (dm_dlq_stream m)) < fuel)%nat →
  list_pages fuel m limit None s = Ok out.
Proof.
  intros Hlim Hv Hs Hout Hfuel.
  assert (Hgen : ∀ fuel after pre suf out, rd_entries s (dm_dlq_stream m) = pre ++ suf →
    (after = None ∧ pre = [] ∨ ∃ x, last pre = Some x ∧ after = Some (id_text x.1)) →
    entries_of (map row_of suf) = Ok out → (length suf < fuel)%nat → list_pages fuel m limit after s = Ok out).
  { clear Hout Hfuel out fuel. induction fuel as [|fuel IH]; intros after pre suf out E Ha Hout Hlen; [lia|].
    rewrite <- (take_drop (Z.to_nat limit) suf), map_app in Hout. apply entries_of_app in Hout as (o1 & o2 & H1 & H2 & ->).
    cbn [list_pages]. rewrite (page_at m limit s after pre suf o1) by done. cbn [mbind result_bind dp_next_cursor dp_entries].
    destruct (Z.ltb_spec limit (Z.of_nat (length suf))) as [Hlt|Hge].
    - destruct (last (take (Z.to_nat limit) suf)) as [x|] eqn:Hx.
      2:{ apply last_None in Hx. apply (f_equal length) in Hx. rewrite length_take in Hx. simpl in Hx. lia. }
      rewrite (last_row _ _ Hx).
      rewrite (IH (Some (id_text x.1)) (pre ++ take (Z.to_nat limit) suf) (drop (Z.to_nat limit) suf) o2); [done|by rewrite <- app_assoc, take_drop| |done|rewrite length_drop; lia].
      right. exists x. split; [|done]. apply last_Some in Hx as [l ->]. by rewrite app_assoc, last_snoc.
    - rewrite drop_ge in H2 by lia. injection H2 as <-. by rewrite app_nil_r. }
  apply (Hgen fuel None [] (rd_entries s (dm_dlq_stream m))); [done|by left|done|done].
Qed.

(** ** Markers *)

Lemma id_text_nonempty id : id_text id ≠ "".
Proof. unfold id_text. by destruct (int_str id.1). Qed.

Lemma marker_reads entry_id a target : target ≠ Some "" →
  marker_result entry_id (cjson_encode (("action", action_value a) :: from_option (λ t, [("target_message_id", t)]) [] target)) =
  Ok (mk_action_result entry_id a false target).
Proof using Hencode Hstr.
  intros Ht. destruct (Hencode (("action", action_value a) :: from_option (λ t, [("target_message_id", t)]) [] target)) as (l & E & Hl).
  { destruct target; simpl; [apply NoDup_cons; split; [by intros [=]%list_elem_of_singleton|]|]; apply NoDup_singleton. }
  unfold DeadLetters.marker_result. rewrite E, !Hl. replace (assoc "action" _) with (Some (action_value a)) by done. cbn [fmap option_fmap option_map].
  replace (dead_action_of (action_value a)) with (Some a) by (by destruct a). cbn [from_option_err mbind result_bind]. do 2 f_equal.
  destruct target as [t|]; [|done]. simpl. rewrite Hstr. destruct (String.eqb_spec t "") as [->|]; [by destruct Ht|done].
Qed.

(** ** The scripts *)

Abbreviation replay_script := (replay_script cjson_decode cjson_encode).
Abbreviation discard_script := (discard_script cjson_encode).

(** What is common to both: the entry is removed and the marker set. *)
Definition script_settles (a : DeadLetterAction) (target : option string) (dlq_stream marker entry_id : string) (s : rd) (r : Z * string) (s' : rd) : Prop :=
  rd_text s marker = None ∧ d_xrange dlq_stream entry_id entry_id None s ≠ [] ∧ evolves dlq_stream s s' ∧
  r = (1, cjson_encode (("action", action_value a) :: from_option (λ t, [("target_message_id", t)]) [] target)) ∧
  (∀ k, rd_text s' k = if decide (k = marker) then Some r.2 else rd_text s k) ∧
  target ≠ Some "" ∧ ∃ s1, evolves dlq_stream s s1 ∧ rd_entries s' dlq_stream = rd_entries (d_xdel dlq_stream entry_id s1) dlq_stream.

(** A run of a script: it finds a marker, or no entry, or fails without
    touching a marker, or settles the entry. *)
Definition script_run (dlq_stream marker entry_id : string) (s : rd) (r : result (Z * string)) (s' : rd) : Prop :=
  (∃ prior, rd_text s marker = Some prior ∧ r = Ok (0, prior) ∧ s' = s) ∨
  (r = Ok (-1, "missing") ∧ s' = s) ∨
  (∃ e, r = Err e ∧ evolves dlq_stream s s' ∧ rd_text s' = rd_text s) ∨
  (∃ a target x, r = Ok x ∧ script_settles a target dlq_stream marker entry_id s x s').

Lemma finish_settles a target dlq_stream marker entry_id ttl s s1 : marker ≠ dlq_stream → target ≠ Some "" →
  rd_text s marker = None → d_xrange dlq_stream entry_id entry_id None s ≠ [] → evolves dlq_stream s s1 → rd_text s1 = rd_text s →
  let v := cjson_encode (("action", action_value a) :: from_option (λ t, [("target_message_id", t)]) [] target) in
  script_settles a target dlq_stream marker entry_id s (1, v) (d_set_ex marker v ttl (d_xdel dlq_stream entry_id s1)).
Proof.
  intros Hm Ht Hn Hx He Et v. split; [done|]. split; [done|]. split.
  { transitivity s1; [done|]. transitivity (d_xdel dlq_stream entry_id s1); [apply xdel_evolves|by apply set_evolves]. }
  split; [done|]. split.
  { intros k. rewrite (proj1 (set_ex_of marker v ttl _ k)). case_decide; [done|]. destruct (xdel_any dlq_stream entry_id s1) as (_ & _ & _ & ->). by rewrite Et. }
  split; [done|]. exists s1. split; [done|]. by apply (set_ex_of marker v ttl _ dlq_stream).
Qed.

Lemma replay_script_run dlq_stream target marker audit entry_id fields failure_id source_message_id actor reason acted_at ttl s :
  marker ≠ dlq_stream →
  let '(r, s') := replay_script dlq_stream target marker audit entry_id fields failure_id source_message_id actor reason acted_at ttl s in
  script_run dlq_stream marker entry_id s r s'.
Proof.
  intros Hm. unfold DeadLetters.replay_script, gets, modify, lift_result, mbind, proc_bind, mret, proc_ret. cbv beta.
  destruct (rd_text s marker) as [prior|] eqn:Hp; [left; by exists prior|].
  case_bool_decide as Hx; [right; by left|].
  destruct (cjson_decode fields) as [args|e]; [|right; right; left; by exists e].
  destruct (d_xadd target args s) as [r1 s1] eqn:E1. destruct r1 as [t|e].
  2:{ right; right; left. exists e. pose proof (xadd_error target args s e) as Hs. rewrite E1 in Hs. specialize (Hs eq_refl). simpl in Hs. by subst s1. }
  set (af := audit_fields _ _ _ _ _ _ _ _ _ _). destruct (d_xadd audit af s1) as [r2 s2] eqn:E2.
  pose proof (xadd_evolves dlq_stream target args s t) as V1. rewrite E1 in V1. specialize (V1 eq_refl). simpl in V1.
  destruct (xadd_of target args s t) as (id & -> & _ & _ & _ & _ & _ & T1); [by rewrite E1|]. rewrite E1 in T1. simpl in T1.
  destruct r2 as [t2|e].
  2:{ right; right; left. exists e. pose proof (xadd_error audit af s1 e) as Hs. rewrite E2 in Hs. specialize (Hs eq_refl). simpl in Hs. by subst s2. }
  pose proof (xadd_evolves dlq_stream audit af s1 t2) as V2. rewrite E2 in V2. specialize (V2 eq_refl). simpl in V2.
  destruct (xadd_of audit af s1 t2) as (id2 & _ & _ & _ & _ & _ & _ & T2); [by rewrite E2|]. rewrite E2 in T2. simpl in T2.
  right; right; right. exists REPLAYED, (Some (id_text id)). eexists. split; [reflexivity|].
  apply (finish_settles REPLAYED (Some (id_text id))); [done|by intros [= ?%id_text_nonempty]|done|done|by transitivity s1|congruence].
Qed.

Lemma discard_script_run dlq_stream marker audit entry_id failure_id source_stream source_message_id actor reason acted_at ttl s :
  marker ≠ dlq_stream →
  let '(r, s') := discard_script dlq_stream marker audit entry_id failure_id source_stream source_message_id actor reason acted_at ttl s in
  script_run dlq_stream marker entry_id s r s'.
Proof.
  intros Hm. unfold DeadLetters.discard_script, gets, modify, mbind, proc_bind, mret, proc_ret. cbv beta.
  destruct (rd_text s marker) as [prior|] eqn:Hp; [left; by exists prior|].
  case_bool_decide as Hx; [right; by left|].
  set (af := audit_fields _ _ _ _ _ _ _ _ _ _). destruct (d_xadd audit af s) as [r1 s1] eqn:E1. destruct r1 as [t|e].
  2:{ right; right; left. exists e. pose proof (xadd_error audit af s e) as Hs. rewrite E1 in Hs. specialize (Hs eq_refl). simpl in Hs. by subst s1. }
  pose proof (xadd_evolves dlq_stream audit af s t) as V1. rewrite E1 in V1. specialize (V1 eq_refl). simpl in V1.
  destruct (xadd_of audit af s t) as (id & _ & _ & _ & _ & _ & _ & T1); [by rewrite E1|]. rewrite E1 in T1. simpl in T1.
  right; right; right. exists DISCARDED, None. eexists. split; [reflexivity|]. by apply (finish_settles DISCARDED None).
Qed.

(** ** Calls *)

Lemma marker_result_form entry_id t r : marker_result entry_id t = Ok r → ar_entry_id r = entry_id ∧ ar_applied r = false.
Proof.
  unfold DeadLetters.marker_result. destruct (json_loads t) as [[]|]; try done. destruct (assoc "action" l) as [[]|]; try done.
  by intros (a & _ & [= <-])%result_bind_Ok.
Qed.

(** What a call does to the server, and what its answer rests on: a marker
    that was there, or its own script. *)
Definition call_spec (m : manager) (entry_id : string) (s_marker s : rd) (out : result DeadLetterActionResult) (s' : rd) : Prop :=
  evolves (dm_dlq_stream m) s s' ∧
  ((rd_text s' = rd_text s ∧
     ∀ r, out = Ok r → ∃ st t, (st = s_marker ∨ st = s) ∧ rd_text st (marker_key m entry_id) = Some t ∧ marker_result entry_id t = Ok r) ∨
   (∃ a target x, script_settles a target (dm_dlq_stream m) (marker_key m entry_id) entry_id s x s' ∧
     ∀ r, out = Ok r → r = mk_action_result entry_id a true target)).

Lemma eval_spec m fate entry_id script s_marker s :
  (let '(r, s') := script s in script_run (dm_dlq_stream m) (marker_key m entry_id) entry_id s r s') →
  let '(out, s') := eval_result py_str fate entry_id script s in call_spec m entry_id s_marker s out s'.
Proof using Hencode Hstr.
  destruct (script s) as [r s'] eqn:E. intros Hr.
  assert (V : call_spec m entry_id s_marker s (r ← r; script_result py_str entry_id r) s').
  { destruct Hr as [(prior & Hp & -> & ->)|[[-> ->]|[(e & -> & He & Et)|(a & target & x & -> & Hs)]]].
    - split; [done|]. left. split; [done|]. cbn [mbind result_bind]. unfold script_result. cbn [fst snd]. intros r.
      change (0 =? -1) with false. cbn match. intros (r' & Hm & [= <-])%result_bind_Ok. exists s, prior. split; [by right|]. split; [done|].
      rewrite Hm. destruct r' as [e a ap t]. destruct (marker_result_form _ _ _ Hm) as [_ Ha]. simpl in Ha. by subst ap.
    - split; [done|]. by left.
    - split; [done|]. left. by split.
    - split; [by apply Hs|]. right. exists a, target, x. split; [done|]. destruct Hs as (_ & _ & _ & -> & _ & Ht & _).
      cbn [mbind result_bind]. unfold script_result. cbn [fst snd]. change (1 =? -1) with false. cbn match.
      rewrite (marker_reads entry_id a target Ht). cbn [mbind result_bind]. by intros r [= <-]. }
  unfold eval_result. destruct fate; rewrite ?E; cbn [fst snd]; [done| |].
  - split; [done|]. by left.
  - destruct V as [Ve [[Et _]|(a & target & x & Hs & _)]]; (split; [done|]); [by left|]. right. by exists a, target, x.
Qed.

Lemma before_eval_inl m entry_id actor reason s_marker s_entry s r :
  before_eval sha256 py_str m entry_id actor reason s_marker s_entry = Ok (inl r) → call_spec m entry_id s_marker s (Ok r) s.
Proof.
  unfold before_eval. intros (u & _ & Hb)%result_bind_Ok. destruct (rd_text s_marker _) as [t|] eqn:Et.
  - apply result_bind_Ok in Hb as (r' & Hm & [= <-]). split; [done|]. left. split; [done|]. intros r0 [= <-].
    exists s_marker, t. split; [by left|done].
  - apply result_bind_Ok in Hb as (e & _ & Hb). by destruct e.
Qed.

Lemma call_spec_error m entry_id s_marker s e : call_spec m entry_id s_marker s (Err e) s.
Proof. split; [done|]. by left. Qed.

Lemma replay_spec m entry_id actor reason acted_at s_marker s_entry fate s : marker_key m entry_id ≠ dm_dlq_stream m →
  let '(out, s') := replay m entry_id actor reason acted_at s_marker s_entry fate s in call_spec m entry_id s_marker s out s'.
Proof using Hencode Hstr.
  intros Hm. unfold DeadLetters.replay. destruct (before_eval _ _ _ _ _ _ _ _) as [[r|entry]|e] eqn:Hb; [by eapply before_eval_inl| |apply call_spec_error].
  apply eval_spec, replay_script_run, Hm.
Qed.

Lemma discard_spec m entry_id actor reason acted_at s_marker s_entry fate s : marker_key m entry_id ≠ dm_dlq_stream m →
  let '(out, s') := discard m entry_id actor reason acted_at s_marker s_entry fate s in call_spec m entry_id s_marker s out s'.
Proof using Hencode Hstr.
  intros Hm. unfold DeadLetters.discard. destruct (before_eval _ _ _ _ _ _ _ _) as [[r|entry]|e] eqn:Hb; [by eapply before_eval_inl| |apply call_spec_error].
  apply eval_spec, discard_script_run, Hm.
Qed.

(** ** Every interleaving *)

(** The answers the operators got, newest first. *)
Record answer := mk_answer { an_entry_id : string; an_out : result DeadLetterActionResult }.

(** The states of the server, newest first, under calls of any operators,
    which read the marker and the entry on earlier states, and moves of other
    clients: they add entries, remove entries, and markers expire. *)
Inductive operated (m : manager) : list rd → list answer → Prop :=
| operated_start s : bounded (dm_dlq_stream m) s → operated m [s] []
| operated_replay s past answers entry_id actor reason acted_at s_marker s_entry fate out s' :
    operated m (s :: past) answers → s_marker ∈ s :: past → s_entry ∈ s :: past →
    replay m entry_id actor reason acted_at s_marker s_entry fate s = (out, s') →
    operated m (s' :: s :: past) (mk_answer entry_id out :: answers)
| operated_discard s past answers entry_id actor reason acted_at s_marker s_entry fate out s' :
    operated m (s :: past) answers → s_marker ∈ s :: past → s_entry ∈ s :: past →
    discard m entry_id actor reason acted_at s_marker s_entry fate s = (out, s') →
    operated m (s' :: s :: past) (mk_answer entry_id out :: answers)
| operated_other s s' past answers : operated m (s :: past) answers → evolves (dm_dlq_stream m) s s' →
    (∀ entry_id, rd_text s' (marker_key m entry_id) = rd_text s (marker_key m entry_id) ∨ rd_text s' (marker_key m entry_id) = None) →
    operated m (s' :: s :: past) answers.

(** The answers that say that the call acted on the entry. *)
Definition applied_on (entry_id : string) (a : answer) : bool :=
  String.eqb (an_entry_id a) entry_id && match an_out a with Ok r => ar_applied r | Err _ => false end.

(** What holds of an entry: [o] is what was done with it. *)
Record acted (m : manager) (id : Z * Z) (o : option (DeadLetterAction * option string)) (s : rd) (past : list rd) (answers : list answer) : Prop := {
  ac_bounded : bounded (dm_dlq_stream m) s;
  ac_markers : ∀ st t, st ∈ s :: past → rd_text st (marker_key m (id_text id)) = Some t →
    ∃ a target, o = Some (a, target) ∧ marker_result (id_text id) t = Ok (mk_action_result (id_text id) a false target);
  ac_answers : ∀ r, mk_answer (id_text id) (Ok r) ∈ answers → o = Some (ar_action r, ar_target_message_id r);
  ac_once : (length (List.filter (applied_on (id_text id)) answers) ≤ if o then 1 else 0)%nat;
  ac_gone : o ≠ None → (∀ x, x ∈ rd_entries s (dm_dlq_stream m) → x.1 ≠ id) ∧ key_le id (rd_last s (dm_dlq_stream m))
}.

Lemma gone_evolves k s s' id : evolves k s s' → (∀ x, x ∈ rd_entries s k → x.1 ≠ id) → key_le id (rd_last s k) →
  (∀ x, x ∈ rd_entries s' k → x.1 ≠ id) ∧ key_le id (rd_last s' k).
Proof.
  intros [He Hl _] Hx Hk. split; [|by transitivity (rd_last s k)]. intros x [Hin|Hlt]%He; [by apply Hx|]. intros E.
  apply (key_lt_irrefl id). rewrite E in Hlt. eapply key_le_lt_trans; eassumption.
Qed.

Lemma acted_other m id o s past answers s' : acted m id o s past answers → evolves (dm_dlq_stream m) s s' →
  (rd_text s' (marker_key m (id_text id)) = rd_text s (marker_key m (id_text id)) ∨ rd_text s' (marker_key m (id_text id)) = None) →
  acted m id o s' (s :: past) answers.
Proof.
  intros [A1 A2 A3 A4 A5] He Ht. split; [by apply He| |done|done|].
  - intros st t [->|Hst]%elem_of_cons Hm; [|by apply (A2 st t)]. destruct Ht as [Ht|Ht]; [|congruence]. apply (A2 s t); [left|congruence].
  - intros Ho. destruct (A5 Ho) as [Hx Hk]. by eapply gone_evolves.
Qed.

(** An answer that rests on a marker, or an error. *)
Lemma acted_answer m id o s past answers entry_id out : acted m id o s past answers →
  (entry_id = id_text id → ∀ r, out = Ok r → ar_applied r = false ∧ o = Some (ar_action r, ar_target_message_id r)) →
  acted m id o s past (mk_answer entry_id out :: answers).
Proof.
  intros [A1 A2 A3 A4 A5] Hr. split; [done|done| | |done].
  - intros r [[= <- <-]|Hin]%elem_of_cons; [by apply (Hr eq_refl r)|by apply A3].
  - cbn [List.filter]. unfold applied_on at 1. cbn [an_entry_id an_out]. destruct (String.eqb_spec entry_id (id_text id)) as [->|]; [|done].
    destruct out as [r|]; [|done]. by rewrite (proj1 (Hr eq_refl r eq_refl)).
Qed.

Lemma acted_call m id o s past answers entry_id s_marker out s' : valid_id id →
  (∀ t, marker_key m t = marker_key m (id_text id) → t = id_text id) →
  acted m id o s past answers → s_marker ∈ s :: past → call_spec m entry_id s_marker s out s' →
  ∃ o', acted m id o' s' (s :: past) (mk_answer entry_id out :: answers) ∧ (o ≠ None → o' = o).
Proof using Hencode Hstr.
  intros Hid Hkey Ha Hsm [He [[Et Hr]|(a & target & x & Hs & Hr)]].
  - exists o. split; [|done]. apply acted_answer.
    { apply acted_other; [done|done|]. left. by rewrite Et. }
    intros -> r Hout. destruct (Hr r Hout) as (st & t & Hst & Hm & Hmr).
    assert (Hin : st ∈ s :: past) by (destruct Hst as [->| ->]; [done|left]).
    destruct (ac_markers _ _ _ _ _ _ Ha st t Hin Hm) as (a & target & -> & E). rewrite E in Hmr. by injection Hmr as <-.
  - destruct Hs as (Hn & Hx & _ & -> & Ht & Hne & s1 & He1 & Ed). destruct (decide (entry_id = id_text id)) as [->|Hother].
    + assert (o = None) as ->.
      { destruct o as [[a0 t0]|]; [|done]. destruct (ac_gone _ _ _ _ _ _ Ha) as [Hg _]; [done|]. destruct Hx.
        rewrite xrange_at by done. rewrite (filter_none (λ e, e.1 = id)); [done|]. intros y Hy. by apply Hg. }
      assert (Hold : key_le id (rd_last s (dm_dlq_stream m))).
      { rewrite xrange_at in Hx by done. destruct (filter (λ e, e.1 = id) (rd_entries s (dm_dlq_stream m))) as [|y l] eqn:Ef; [done|].
        assert (Hy : y ∈ filter (λ e, e.1 = id) (rd_entries s (dm_dlq_stream m))) by (rewrite Ef; left).
        apply list_elem_of_filter in Hy as [<- Hy]. by apply (ac_bounded _ _ _ _ _ _ Ha). }
      exists (Some (a, target)). split; [|done]. destruct Ha as [A1 A2 A3 A4 A5]. split; [by apply He| | | |].
      * intros st t [->|Hst]%elem_of_cons Hm.
        -- rewrite Ht, decide_True in Hm by done. injection Hm as <-. exists a, target. split; [done|]. by apply marker_reads.
        -- destruct (A2 st t Hst Hm) as (? & ? & ? & _). done.
      * intros r [[= E]|Hin]%elem_of_cons; [|by specialize (A3 r Hin)]. by rewrite (Hr r (eq_sym E)).
      * cbn [List.filter]. destruct (applied_on _ _); simpl; lia.
      * intros _. split.
        -- rewrite Ed, xdel_at by done. by intros y [Hy _]%list_elem_of_filter.
        -- transitivity (rd_last s (dm_dlq_stream m)); [done|apply He].
    + exists o. split; [|done]. apply acted_answer; [|by intros ->]. apply acted_other; [done|done|]. left.
      rewrite Ht, decide_False; [done|]. intros E. apply Hother. by apply Hkey.
Qed.

Lemma operated_acted m past answers id : valid_id id →
  (∀ t, marker_key m t = marker_key m (id_text id) → t = id_text id) → (∀ t, marker_key m t ≠ dm_dlq_stream m) →
  operated m past answers → (∀ s, last past = Some s → rd_text s (marker_key m (id_text id)) = None) →
  ∃ o s past', past = s :: past' ∧ acted m id o s past' answers.
Proof using Hencode Hstr.
  intros Hid Hkey Hd Hop. induction Hop as [s Hb|s past answers e actor reason at_ sm se fate out s' Hop IH Hsm Hse Hc
    |s past answers e actor reason at_ sm se fate out s' Hop IH Hsm Hse Hc|s s' past answers Hop IH He Ht]; intros Hlast.
  - exists None, s, []. split; [done|]. split; [done| |by intros ? ?%not_elem_of_nil|done|done].
    intros st t ->%list_elem_of_singleton Hm. by rewrite Hlast in Hm.
  - destruct (IH Hlast) as (o & s0 & past' & [= <- <-] & Ha). pose proof (replay_spec m e actor reason at_ sm se fate s (Hd e)) as V. rewrite Hc in V.
    destruct (acted_call m id o s past answers e sm out s' Hid Hkey Ha Hsm V) as (o' & Ha' & _). by exists o', s', (s :: past).
  - destruct (IH Hlast) as (o & s0 & past' & [= <- <-] & Ha). pose proof (discard_spec m e actor reason at_ sm se fate s (Hd e)) as V. rewrite Hc in V.
    destruct (acted_call m id o s past answers e sm out s' Hid Hkey Ha Hsm V) as (o' & Ha' & _). by exists o', s', (s :: past).
  - destruct (IH Hlast) as (o & s0 & past' & [= <- <-] & Ha). exists o, s', (s :: past). split; [done|]. by eapply acted_other.
Qed.

(** C26. An entry is acted on once by the calls that name it by its complete
    id: however the calls of any operators, under this and other names, lost
    replies, expiring markers and the consumers that write the stream
    interleave, at most one call with the complete id reports that it replayed
    or discarded the entry, every other successful answer to that id repeats
    its action and target message, and the entry is not in the stream after the
    first of them. (A call that leaves out the sequence of the id is not
    counted: see [incomplete_id_publishes_twice].) *)
Theorem dead_letter_acted_once m s past answers id : valid_id id →
  (∀ t, marker_key m t = marker_key m (id_text id) → t = id_text id) → (∀ t, marker_key m t ≠ dm_dlq_stream m) →
  operated m (s :: past) answers → (∀ s0, last (s :: past) = Some s0 → rd_text s0 (marker_key m (id_text id)) = None) →
  (length (List.filter (applied_on (id_text id)) answers) ≤ 1)%nat ∧
  (∀ r r', mk_answer (id_text id) (Ok r) ∈ answers → mk_answer (id_text id) (Ok r') ∈ answers →
     ar_action r = ar_action r' ∧ ar_target_message_id r = ar_target_message_id r') ∧
  (∀ r, mk_answer (id_text id) (Ok r) ∈ answers → ∀ x, x ∈ rd_entries s (dm_dlq_stream m) → x.1 ≠ id).
Proof using Hencode Hstr.
  intros Hid Hkey Hd Hop Hlast. destruct (operated_acted m _ _ id Hid Hkey Hd Hop Hlast) as (o & s1 & past' & [= <- <-] & [A1 A2 A3 A4 A5]).
  split; [destruct o; lia|]. split.
  - intros r r' E1%A3 E2%A3. rewrite E1 in E2. by injection E2.
  - intros r E%A3. apply A5. by rewrite E.
Qed.

(** ** What an applied replay did *)

(** cjson reads the objects [json.dumps] writes, in an order of its own. *)
Context (Hdecode : ∀ f, NoDup (map fst f) → ∃ f', cjson_decode (dumps f) = Ok f' ∧ f' ≡ₚ f).

Lemma replay_script_applied dlq_stream target marker audit entry_id fields failure_id source_message_id actor reason acted_at ttl s v s' :
  replay_script dlq_stream target marker audit entry_id fields failure_id source_message_id actor reason acted_at ttl s = (Ok (1, v), s') →
  rd_text s marker = Some v ∨ ∃ args t t2 s1 s2, cjson_decode fields = Ok args ∧ d_xadd target args s = (Ok t, s1) ∧
    d_xadd audit (audit_fields REPLAYED dlq_stream entry_id failure_id target source_message_id t actor reason acted_at) s1 = (Ok t2, s2) ∧
    v = cjson_encode [("action", "REPLAYED"); ("target_message_id", t)] ∧ s' = d_set_ex marker v ttl (d_xdel dlq_stream entry_id s2).
Proof.
  unfold DeadLetters.replay_script, gets, modify, lift_result, mbind, proc_bind, mret, proc_ret. cbv beta.
  destruct (rd_text s marker) as [prior|]; [done|]. case_bool_decide; [done|]. destruct (cjson_decode fields) as [args|]; [|done].
  destruct (d_xadd target args s) as [[t|] s1] eqn:E1; [|done].
  destruct (d_xadd audit _ s1) as [[t2|] s2] eqn:E2; [|done]. intros [= <- <-]. right. by exists args, t, t2, s1, s2.
Qed.

(** A replay that reports that it acted has moved the entry: its fields are
    the last message of the stream they came from, under the id the answer
    names, the audit stream has one more record, which names the entry, its
    new message, the operator and the reason, the entry is the only one gone
    from the dead letters, and the marker is set. *)
Theorem replay_moves_entry m id actor reason acted_at s_marker s_entry entry s r s' : valid_id id →
  get_entry sha256 py_str m (id_text id) s_entry = Ok (Some entry) → NoDup (map fst (de_fields entry)) →
  let mk := marker_key m (id_text id) in
  NoDup [mk; dm_dlq_stream m; dm_audit_stream m; de_source_stream entry] →
  replay m (id_text id) actor reason acted_at s_marker s_entry Served s = (Ok r, s') → ar_applied r = true →
  ∃ new aid fields, ar_target_message_id r = Some (id_text new) ∧ ar_action r = REPLAYED ∧ fields ≡ₚ de_fields entry ∧
    rd_entries s' (de_source_stream entry) = rd_entries s (de_source_stream entry) ++ [(new, fields)] ∧
    rd_entries s' (dm_audit_stream m) = rd_entries s (dm_audit_stream m) ++
      [(aid, audit_fields REPLAYED (dm_dlq_stream m) (id_text id) (de_failure_id entry) (de_source_stream entry)
          (de_source_message_id entry) (id_text new) actor reason acted_at)] ∧
    rd_entries s' (dm_dlq_stream m) = filter (λ e, e.1 ≠ id) (rd_entries s (dm_dlq_stream m)) ∧
    rd_text s' mk = Some (cjson_encode [("action", "REPLAYED"); ("target_message_id", id_text new)]).
Proof using Hencode Hstr Hdecode.
  intros Hid Hget Hnd mk Hks. apply NoDup_cons in Hks as [K1 Hks]. apply NoDup_cons in Hks as [K2 Hks]. apply NoDup_cons in Hks as [K3 _].
  unfold DeadLetters.replay, before_eval. destruct (validate_operator actor reason) as [[]|]; [|done]. cbn [mbind result_bind].
  destruct (rd_text s_marker _) as [t|].
  { destruct (marker_result (id_text id) t) as [r0|] eqn:Hm; [|done]. cbn [mbind result_bind]. intros [= <- <-] Ha.
    apply marker_result_form in Hm as [_ Hm]. congruence. }
  rewrite Hget. cbn [mbind result_bind]. unfold eval_result. destruct (replay_script _ _ _ _ _ _ _ _ _ _ _ _ s) as [out s2] eqn:Hrun.
  cbn [fst snd]. intros [= Hr <-] Happ. apply result_bind_Ok in Hr as ([status v] & -> & Hr).
  assert (status = 1) as ->.
  { unfold script_result in Hr. cbn [fst snd] in Hr. destruct (status =? -1); [done|]. apply result_bind_Ok in Hr as (? & _ & [= <-]).
    cbn in Happ. by apply Z.eqb_eq. }
  pose proof Hrun as Hrun'. apply replay_script_applied in Hrun as [Hp|(args & t & t2 & s1 & s3 & Hd & E1 & E2 & -> & ->)].
  { unfold DeadLetters.replay_script, gets, mbind, proc_bind, mret, proc_ret in Hrun'. cbv beta in Hrun'. by rewrite Hp in Hrun'. }
  destruct (Hdecode _ Hnd) as (f & Hf & Hperm). assert (args = f) as -> by congruence.
  destruct (xadd_of (de_source_stream entry) f s t) as (new & -> & _ & _ & A1 & _ & A2 & _); [by rewrite E1|].
  set (af := audit_fields _ _ _ _ _ _ _ _ _ _) in *.
  destruct (xadd_of (dm_audit_stream m) af s1 t2) as (aid & -> & _ & _ & B1 & _ & B2 & _); [by rewrite E2|]. rewrite E1 in *. rewrite E2 in *. cbn [fst snd] in *.
  destruct (xdel_any (dm_dlq_stream m) (id_text id) s3) as (_ & _ & C2 & _).
  set (v := cjson_encode _) in *.
  assert (D : ∀ k, k ≠ mk → rd_entries (d_set_ex mk v (dm_ttl m) (d_xdel (dm_dlq_stream m) (id_text id) s3)) k =
    rd_entries (d_xdel (dm_dlq_stream m) (id_text id) s3) k) by (intros k Hk; by apply set_ex_of).
  pose proof (marker_reads (id_text id) REPLAYED (Some (id_text new)) ltac:(by intros [= ?%id_text_nonempty])) as Hm.
  unfold script_result in Hr. cbn [fst snd] in Hr. change (1 =? -1) with false in Hr. cbn match in Hr.
  change (cjson_encode _) with v in Hm. rewrite Hm in Hr. cbn [mbind result_bind] in Hr. injection Hr as <-.
  exists new, aid, f. split; [done|]. split; [done|]. split; [done|].
  assert (Kmd : dm_dlq_stream m ≠ mk) by (intros E; apply K1; rewrite E; left).
  assert (Kma : dm_audit_stream m ≠ mk) by (intros E; apply K1; rewrite E; right; left).
  assert (Kms : de_source_stream entry ≠ mk) by (intros E; apply K1; rewrite E; right; right; left).
  assert (Kda : dm_dlq_stream m ≠ dm_audit_stream m) by (intros E; apply K2; rewrite E; left).
  assert (Kds : dm_dlq_stream m ≠ de_source_stream entry) by (intros E; apply K2; rewrite E; right; left).
  assert (Kas : dm_audit_stream m ≠ de_source_stream entry) by (intros E; apply K3; rewrite E; left).
  split; [|split; [|split]].
  - by rewrite D, (proj1 (C2 (de_source_stream entry) (not_eq_sym Kds))), (proj1 (B2 (de_source_stream entry) (not_eq_sym Kas))).
  - rewrite D, (proj1 (C2 (dm_audit_stream m) (not_eq_sym Kda))), B1 by done. f_equal. by apply A2.
  - rewrite D, xdel_at by done. f_equal. rewrite (proj1 (B2 (dm_dlq_stream m) Kda)). by apply A2.
  - rewrite (proj1 (set_ex_of mk v _ _ mk)). by rewrite decide_True.
Qed.
End Props.

(** ** Dead letters on a concrete server

    An instance of [RedisDlq], the theorems of [DeadLettersProps] on a replay
    of two operators, and two ways in which a replay publishes twice. *)

(** ** A text for every dict *)

Fixpoint put_text (s rest : string) : string :=
  match s with EmptyString => String "." rest | String c s' => String "," (String c (put_text s' rest)) end.
Fixpoint put_pairs (l : entry_fields) : string :=
  match l with [] => "" | (k, v) :: l' => put_text k (put_text v (put_pairs l')) end.
Fixpoint read_texts (s acc : string) : list string :=
  match s with
  | EmptyString => []
  | String m s' =>
      if bool_decide (m = "."%char) then acc :: read_texts s' ""
      else match s' with EmptyString => [] | String c s'' => read_texts s'' (acc +:+ String c "") end
  end.
Fixpoint pair_up (l : list string) : entry_fields :=
  match l with k :: v :: l' => (k, v) :: pair_up l' | _ => [] end.
Definition read_pairs (s : string) : entry_fields := pair_up (read_texts s "").

Lemma read_put_text s rest acc : read_texts (put_text s rest) acc = (acc +:+ s) :: read_texts rest "".
Proof.
  revert acc. induction s as [|c s IH]; intros acc; simpl; [by rewrite string_app_nil|]. rewrite IH, string_app_assoc. done.
Qed.
Lemma read_put_pairs l : read_pairs (put_pairs l) = l.
Proof.
  unfold read_pairs. induction l as [|[k v] l IH]; [done|]. cbn [put_pairs]. rewrite !read_put_text. cbn [pair_up].
  by rewrite IH.
Qed.

#[export] Instance text_codec : EventCodec.
Proof.
  refine (Build_EventCodec (λ s, Ok (JObj (map (λ kv, (kv.1, JStr kv.2)) (read_pairs s)))) (@model_validate DemoCodec.codec) (@model_dump DemoCodec.codec) _ _ _ _).
  - done.
  - apply DemoCodec.codec.
  - apply DemoCodec.codec.
  - apply DemoCodec.codec.
Defined.

Definition text_of (j : json) : string := match j with JStr s => s | _ => "" end.

Lemma put_pairs_reads l : NoDup (map fst l) → ∃ l', json_loads (put_pairs l) = Ok (JObj l') ∧ ∀ k, assoc k l' = JStr <$> assoc k l.
Proof.
  intros _. eexists. split; [cbn; rewrite read_put_pairs; reflexivity|]. intros k. induction l as [|[k' v] l IH]; [done|]. simpl.
  destruct (String.eqb k k'); [done|exact IH].
Qed.

(** ** The server *)

Record tiny_server := mk_server {
  ts_entries : gmap string (list ((Z * Z) * entry_fields));
  ts_last : gmap string (Z * Z);
  ts_text : gmap string string
}.
Definition stream_of (s : tiny_server) (k : string) : list ((Z * Z) * entry_fields) := default [] (ts_entries s !! k).
Definition last_of (s : tiny_server) (k : string) : Z * Z := default (0, 0) (ts_last s !! k).

#[local] Instance valid_id_decision id : Decision (valid_id id).
Proof. unfold valid_id. apply _. Defined.

Definition tiny_xadd (k : string) (f : entry_fields) : proc tiny_server string := λ s,
  let id := ((last_of s k).1, (last_of s k).2 + 1) in
  if bool_decide (f ≠ [] ∧ ts_text s !! k = None ∧ valid_id id)
  then (Ok (id_text id), mk_server (<[k := stream_of s k ++ [(id, f)]]> (ts_entries s)) (<[k := id]> (ts_last s)) (ts_text s))
  else (Err (ResponseError "ERR"), s).

Definition put_stream (k : string) (l : list ((Z * Z) * entry_fields)) (s : tiny_server) : tiny_server :=
  mk_server (<[k := l]> (ts_entries s)) (ts_last s) (ts_text s).

(** A complete id, or a millisecond. *)
Definition read_part (t : string) : (Z * Z) + option Z := match parse_id t with Ok id => inl id | Err _ => inr (py_int t) end.

Definition tiny_xdel (k t : string) (s : tiny_server) : tiny_server :=
  match read_part t with
  | inl id => put_stream k (filter (λ e : (Z * Z) * entry_fields, e.1 ≠ id) (stream_of s k)) s
  | inr (Some ms) => put_stream k (filter (λ e : (Z * Z) * entry_fields, e.1 ≠ (ms, 0)) (stream_of s k)) s
  | inr None => s
  end.

Definition tiny_rows (k a b : string) (s : tiny_server) : list ((Z * Z) * entry_fields) :=
  if String.eqb a "-" then stream_of s k else
  match read_part a with
  | inl id => if String.eqb b "+" then filter (λ e : (Z * Z) * entry_fields, key_le id e.1) (stream_of s k)
              else filter (λ e : (Z * Z) * entry_fields, e.1 = id) (stream_of s k)
  | inr (Some ms) => filter (λ e : (Z * Z) * entry_fields, e.1.1 = ms) (stream_of s k)
  | inr None => []
  end.

Definition is_complete (a b : string) : bool := match read_part a with inl _ => negb (String.eqb b "+") | inr _ => false end.
Definition tiny_xrange (k a b : string) (count : option Z) (s : tiny_server) : list (string * entry_fields) :=
  let found := tiny_rows k a b s in
  map (λ e : (Z * Z) * entry_fields, (id_text e.1, e.2))
    (if is_complete a b then found else match count with Some n => take (Z.to_nat n) found | None => found end).

Lemma read_part_id id : valid_id id → read_part (id_text id) = inl id.
Proof. intros Hid. unfold read_part. by rewrite parse_id_text. Qed.
Lemma read_part_int ms : 0 ≤ ms → read_part (int_str ms) = inr (Some ms).
Proof. intros Hms. unfold read_part, parse_id. by rewrite split_dash_digits, py_int_int_str by (by apply int_str_digits). Qed.
Lemma id_text_sign id t : valid_id id → t = "-" ∨ t = "+" → String.eqb (id_text id) t = false.
Proof.
  intros Hid Ht. apply String.eqb_neq. intros E. apply parse_id_text in Hid. rewrite E in Hid. by destruct Ht as [->| ->].
Qed.
Lemma int_str_sign ms t : t = "-" ∨ t = "+" → String.eqb (int_str ms) t = false.
Proof.
  intros Ht. apply String.eqb_neq. intros E. apply (f_equal py_int) in E. rewrite py_int_int_str in E. by destruct Ht as [->| ->].
Qed.

Lemma put_stream_at k l s : stream_of (put_stream k l s) k = l.
Proof. unfold stream_of, put_stream. cbn. by rewrite lookup_insert_eq. Qed.
Lemma put_stream_other k l s k' : k' ≠ k → stream_of (put_stream k l s) k' = stream_of s k'.
Proof. intros Hk. unfold stream_of, put_stream. cbn. by rewrite lookup_insert_ne by done. Qed.

#[export] Program Instance tiny_redis : RedisDlq := {|
  rd := tiny_server;
  rd_entries := stream_of;
  rd_last := last_of;
  rd_text s k := ts_text s !! k;
  d_xrange := tiny_xrange;
  d_xadd := tiny_xadd;
  d_xdel := tiny_xdel;
  d_set_ex k v ttl s := mk_server (ts_entries s) (ts_last s) (<[k := v]> (ts_text s))
|}.
Next Obligation.
  intros k id count s Hid. cbn. unfold tiny_xrange, is_complete, tiny_rows.
  by rewrite read_part_id, (id_text_sign id "-"), (id_text_sign id "+") by auto.
Qed.
Next Obligation.
  intros k id n s Hid. cbn. unfold tiny_xrange, is_complete, tiny_rows. by rewrite read_part_id, (id_text_sign id "-") by auto.
Qed.
Next Obligation. done. Qed.
Next Obligation.
  intros k ms count s [Hms _]. cbn. unfold tiny_xrange, is_complete, tiny_rows. by rewrite read_part_int, (int_str_sign ms "-") by auto.
Qed.
Next Obligation. intros k f s e. cbn. unfold tiny_xadd. by case_bool_decide. Qed.
Next Obligation. intros k s. exists (ResponseError "ERR"). unfold tiny_xadd. case_bool_decide as Hc; [by destruct Hc|done]. Qed.
Next Obligation.
  intros k f s t. cbn. unfold tiny_xadd. case_bool_decide as Hc; [|done]. destruct Hc as (_ & _ & Hid). cbn. intros [= <-].
  eexists. split; [reflexivity|]. split; [done|]. split; [right; cbn; lia|]. unfold stream_of, last_of. cbn. rewrite !lookup_insert_eq.
  split; [done|]. split; [done|]. split; [|done]. intros k' Hk. by rewrite !lookup_insert_ne by done.
Qed.
Next Obligation. intros k id s Hid. cbn. unfold tiny_xdel. by rewrite read_part_id, put_stream_at. Qed.
Next Obligation. intros k ms s [Hms _]. cbn. unfold tiny_xdel. by rewrite read_part_int, put_stream_at. Qed.
Next Obligation.
  assert (Hput : ∀ k (P : (Z * Z) * entry_fields → Prop) `{!∀ x, Decision (P x)} s, stream_of (put_stream k (filter P (stream_of s k)) s) k ⊆ stream_of s k).
  { intros k P HP s x. rewrite put_stream_at. by intros [_ ?]%list_elem_of_filter. }
  intros k t s. cbn. unfold tiny_xdel. destruct (read_part t) as [id|[ms|]]; (split; [by (apply Hput || done)|]); (split; [done|]); (split; [|done]);
    intros k' Hk; by rewrite ?put_stream_other.
Qed.
Next Obligation.
  intros k v ttl s k'. cbn. split; [|done]. case_decide as Hk; [subst k'; by rewrite lookup_insert_eq|by rewrite lookup_insert_ne].
Qed.

(** ** A replay *)

Definition demo_manager : manager := mk_manager "d" "d.audit" "m" 7776000.
Definition demo_values : entry_fields :=
  [("fields", put_pairs [("command_id", "c1")]); ("source_stream", "commands"); ("source_group", "workers");
   ("source_message_id", "1-1"); ("reason", "retries exhausted"); ("failure_id", "f1")].
Definition demo_server : tiny_server :=
  mk_server {["d" := [((5, 1), demo_values)]; "commands" := [((1, 1), [("command_id", "c0")])]]} {["d" := (5, 1); "commands" := (1, 1)]} ∅.
Definition demo_entry : DeadLetterEntry :=
  mk_dead_entry "5-1" "0" "f1" "commands" "workers" "1-1" "retries exhausted" 0 [("command_id", "c1")] None None None false.

Definition hash (s : string) : string := s.
Abbreviation demo_replay := (replay hash put_pairs (λ t, Ok (read_pairs t)) put_pairs text_of demo_manager).

Definition replayed_marker : string := put_pairs [("action", "REPLAYED"); ("target_message_id", "1-2")].
Definition demo_audit (entry_id target : string) : entry_fields :=
  audit_fields REPLAYED "d" entry_id "f1" "commands" "1-1" target "op" "fixed" "now".
Definition replayed_server : tiny_server := (demo_replay "5-1" "op" "fixed" "now" demo_server demo_server Served demo_server).2.

Lemma demo_replays : demo_replay "5-1" "op" "fixed" "now" demo_server demo_server Served demo_server =
  (Ok (mk_action_result "5-1" REPLAYED true (Some "1-2")), replayed_server).
Proof. by vm_compute. Qed.

(** A second operator read the marker and the entry before the first acted. *)
Lemma demo_replays_again : demo_replay "5-1" "op2" "fixed" "later" demo_server demo_server Served replayed_server =
  (Ok (mk_action_result "5-1" REPLAYED false (Some "1-2")), replayed_server).
Proof. by vm_compute. Qed.

Definition demo_answers : list answer :=
  [mk_answer "5-1" (Ok (mk_action_result "5-1" REPLAYED false (Some "1-2"))); mk_answer "5-1" (Ok (mk_action_result "5-1" REPLAYED true (Some "1-2")))].

Lemma demo_operated : @operated text_codec tiny_redis hash put_pairs (λ t, Ok (read_pairs t)) put_pairs text_of demo_manager
  [replayed_server; replayed_server; demo_server] demo_answers.
Proof.
  refine (@operated_replay text_codec tiny_redis hash put_pairs (λ t, Ok (read_pairs t)) put_pairs text_of demo_manager
    replayed_server [demo_server] _ "5-1" "op2" "fixed" "later" demo_server demo_server Served _ _ _ _ _ demo_replays_again); [|right; left|right; left].
  refine (@operated_replay text_codec tiny_redis hash put_pairs (λ t, Ok (read_pairs t)) put_pairs text_of demo_manager
    demo_server [] _ "5-1" "op" "fixed" "now" demo_server demo_server Served _ _ _ _ _ demo_replays); [|left|left].
  apply operated_start. intros x Hx.
  change (x ∈ [((5, 1), demo_values)]) in Hx. apply list_elem_of_singleton in Hx as ->. right. by split.
Qed.

Definition demo_id : Z * Z := (5, 1).

Lemma demo_marker_keys : (∀ t, marker_key hash demo_manager t = marker_key hash demo_manager (id_text demo_id) → t = id_text demo_id) ∧
  ∀ t, marker_key hash demo_manager t ≠ dm_dlq_stream demo_manager.
Proof. split; [by intros t [= E]|done]. Qed.

Lemma demo_valid_id id : bool_decide (valid_id id) = true → valid_id id.
Proof. apply bool_decide_eq_true. Qed.

Lemma dead_letter_acted_once_witness :
  (length (List.filter (applied_on (id_text demo_id)) demo_answers) ≤ 1)%nat ∧
  (∀ r r', mk_answer (id_text demo_id) (Ok r) ∈ demo_answers → mk_answer (id_text demo_id) (Ok r') ∈ demo_answers →
     ar_action r = ar_action r' ∧ ar_target_message_id r = ar_target_message_id r') ∧
  (∀ r, mk_answer (id_text demo_id) (Ok r) ∈ demo_answers → ∀ x, x ∈ rd_entries replayed_server (dm_dlq_stream demo_manager) → x.1 ≠ demo_id).
Proof.
  apply (@dead_letter_acted_once text_codec tiny_redis hash put_pairs (λ t, Ok (read_pairs t)) put_pairs text_of put_pairs_reads (λ _, eq_refl)
    demo_manager replayed_server [replayed_server; demo_server] demo_answers demo_id);
    [by apply demo_valid_id|apply demo_marker_keys|apply demo_marker_keys|apply demo_operated|by intros s [= <-]].
Defined.

Lemma demo_reads_back f : NoDup (map fst f) → ∃ f', Ok (read_pairs (put_pairs f)) = Ok f' ∧ f' ≡ₚ f.
Proof. intros _. exists f. by rewrite read_put_pairs. Qed.

Lemma replay_moves_entry_witness :
  ∃ new aid fields, ar_target_message_id (mk_action_result "5-1" REPLAYED true (Some "1-2")) = Some (id_text new) ∧
    ar_action (mk_action_result "5-1" REPLAYED true (Some "1-2")) = REPLAYED ∧ fields ≡ₚ de_fields demo_entry ∧
    rd_entries replayed_server "commands" = rd_entries (demo_server : @rd tiny_redis) "commands" ++ [(new, fields)] ∧
    rd_entries replayed_server "d.audit" = rd_entries (demo_server : @rd tiny_redis) "d.audit" ++
      [(aid, audit_fields REPLAYED "d" (id_text demo_id) "f1" "commands" "1-1" (id_text new) "op" "fixed" "now")] ∧
    rd_entries replayed_server "d" = filter (λ e, e.1 ≠ demo_id) (rd_entries (demo_server : @rd tiny_redis) "d") ∧
    rd_text replayed_server (marker_key hash demo_manager (id_text demo_id)) = Some (put_pairs [("action", "REPLAYED"); ("target_message_id", id_text new)]).
Proof.
  apply (@replay_moves_entry text_codec tiny_redis hash put_pairs (λ t, Ok (read_pairs t)) put_pairs text_of put_pairs_reads (λ _, eq_refl) demo_reads_back
    demo_manager demo_id "op" "fixed" "now" demo_server demo_server demo_entry demo_server
    (mk_action_result "5-1" REPLAYED true (Some "1-2")) replayed_server); [by apply demo_valid_id|by vm_compute|apply NoDup_singleton| |exact demo_replays|done].
  by apply (bool_decide_unpack _).
Defined.

Lemma demo_sorted : StronglySorted (λ a b : stream_row, key_lt a.1 b.1) (rd_entries (demo_server : @rd tiny_redis) "d").
Proof. change (rd_entries (demo_server : @rd tiny_redis) "d") with [((5, 1), demo_values)]. repeat constructor. Qed.
Lemma demo_ids : Forall (λ e : stream_row, valid_id e.1) (rd_entries (demo_server : @rd tiny_redis) "d").
Proof.
  change (rd_entries (demo_server : @rd tiny_redis) "d") with [((5, 1), demo_values)]. apply Forall_singleton. by apply demo_valid_id.
Qed.

Lemma listing_complete_witness : list_pages hash text_of 2 demo_manager 1 None demo_server = Ok [demo_entry].
Proof.
  apply (@listing_complete text_codec tiny_redis hash text_of demo_manager 1 demo_server [demo_entry] 2);
    [lia|apply demo_ids|apply demo_sorted|by vm_compute|vm_compute; lia].
Defined.

(** ** Publishing twice *)

(** An id without a sequence names the entries of a millisecond when it is
    looked up and sequence 0 when it is deleted: the entry is published, is
    not removed, and is published again under its whole id. *)
Lemma incomplete_id_publishes_twice :
  let '(r1, s1) := demo_replay "5" "op" "fixed" "now" demo_server demo_server Served demo_server in
  let '(r2, s2) := demo_replay "5-1" "op" "fixed" "now" s1 s1 Served s1 in
  r1 = Ok (mk_action_result "5" REPLAYED true (Some "1-2")) ∧ r2 = Ok (mk_action_result "5-1" REPLAYED true (Some "1-3")) ∧
  rd_entries s2 "commands" = [((1, 1), [("command_id", "c0")]); ((1, 2), [("command_id", "c1")]); ((1, 3), [("command_id", "c1")])].
Proof. vm_compute. done. Qed.

(** The script is not undone when the audit record cannot be written: the
    message stays published, the entry stays, and the next replay publishes it
    again. *)
Lemma failed_audit_publishes_twice :
  let broken := mk_server (ts_entries demo_server) (ts_last demo_server) {["d.audit" := "not a stream"]} in
  let '(r1, s1) := demo_replay "5-1" "op" "fixed" "now" broken broken Served broken in
  let repaired := mk_server (ts_entries s1) (ts_last s1) ∅ in
  let '(r2, s2) := demo_replay "5-1" "op" "fixed" "now" repaired repaired Served repaired in
  r1 = Err (ResponseError "ERR") ∧ r2 = Ok (mk_action_result "5-1" REPLAYED true (Some "1-3")) ∧
  rd_entries s2 "commands" = [((1, 1), [("command_id", "c0")]); ((1, 2), [("command_id", "c1")]); ((1, 3), [("command_id", "c1")])].
Proof. vm_compute. done. Qed.
