(* ===== verification/Maintenance.v ===== *)
(** * Durable trimming jobs ([ex_agent/maintenance/])

    The table of jobs ([models.py]), its store ([store.py]), the recovery that
    executes jobs ([recovery.py]) and the operator's calls with their policy
    ([operations.py], [contracts.py]). The streams are those of [StreamTrim]. *)

From stdpp Require Import base gmap strings list sorting relations.
From Stdlib Require Import ZArith Lia.
From S2P Require Import Prelude Text RedisStreams StreamTrim.
Local Open Scope Z_scope.
Set Default Proof Using "Type".

(** ** The table *)

Inductive job_action : Type := PLAN | TRIM.
Inductive job_state : Type := JOB_PENDING | JOB_RUNNING | JOB_SUCCEEDED | JOB_FAILED.
#[global] Instance job_action_eq_dec : EqDecision job_action.
Proof. solve_decision. Defined.
#[global] Instance job_state_eq_dec : EqDecision job_state.
Proof. solve_decision. Defined.

Definition action_text (a : job_action) : string := match a with PLAN => "PLAN" | TRIM => "TRIM" end.
Definition state_text (s : job_state) : string :=
  match s with JOB_PENDING => "PENDING" | JOB_RUNNING => "RUNNING" | JOB_SUCCEEDED => "SUCCEEDED" | JOB_FAILED => "FAILED" end.

(** [StreamMaintenanceJob]; its id is the key of the table. *)
Record job_row := mk_job {
  j_stream_alias : string;
  j_stream_key : string;
  j_action : job_action;
  j_state : job_state;
  j_idempotency_key : string;
  j_request_hash : string;
  j_reason : string;
  j_retention_seconds : Z;
  j_minimum_retained_entries : Z;
  j_attempts : Z;
  j_next_attempt_at : timestamp;
  j_claimed_at : option timestamp;
  j_result : option json;
  j_last_error : option string;
  j_created_by : string;
  j_updated_by : string;
  j_created_at : timestamp;
  j_updated_at : timestamp
}.
Abbreviation jobs := (gmap uuid job_row) (only parsing).

Definition job_conflict (m : string) : exn := OtherException "StreamMaintenanceConflict" m.
Definition integrity_error (m : string) : exn := OtherException "IntegrityError" m.
Definition is_IntegrityError (e : exn) : bool := match e with OtherException c _ => String.eqb c "IntegrityError" | _ => false end.

Definition is_active (s : job_state) : bool := match s with JOB_PENDING | JOB_RUNNING => true | _ => false end.
(** The rows of the partial unique index on active trims. *)
Definition active_trim (j : job_row) : bool := bool_decide (j_action j = TRIM) && is_active (j_state j).

(** The unique constraint and index, the checks and the column sizes an insert meets. *)
Definition job_fits (j : job_row) : bool :=
  (String.length (j_stream_alias j) <=? 64)%nat && (String.length (j_stream_key j) <=? 255)%nat &&
  (String.length (j_idempotency_key j) <=? 255)%nat && (String.length (j_request_hash j) <=? 64)%nat &&
  (String.length (j_created_by j) <=? 255)%nat && fits_int4 (j_retention_seconds j) && fits_int4 (j_minimum_retained_entries j).
Definition job_unique (id : uuid) (j : job_row) (d : jobs) : bool :=
  bool_decide (d !! id = None) &&
  forallb (λ kr : uuid * job_row, negb (String.eqb (j_created_by kr.2) (j_created_by j) && String.eqb (j_idempotency_key kr.2) (j_idempotency_key j)) &&
    negb (active_trim kr.2 && active_trim j && String.eqb (j_stream_key kr.2) (j_stream_key j))) (map_to_list d).

Definition insert_job (id : uuid) (j : job_row) : tx jobs unit := λ d,
  if negb (job_fits j) then Err (OtherException "DataError" "value out of range") else
  if negb ((0 <? j_retention_seconds j) && (0 <=? j_minimum_retained_entries j)) then Err (integrity_error "check constraint") else
  if negb (job_unique id j d) then Err (integrity_error "unique constraint") else
  Ok (tt, <[id := j]> d).

(** ** The store *)

(** [by_idempotency] *)
Definition by_idempotency (actor key : string) (d : jobs) : option (uuid * job_row) :=
  List.find (λ kr : uuid * job_row, String.eqb (j_created_by kr.2) actor && String.eqb (j_idempotency_key kr.2) key) (map_to_list d).

(** [_replay] *)
Definition replay_job (kr : uuid * job_row) (request_hash : string) : result ((uuid * job_row) * bool) :=
  raise_if (negb (String.eqb (j_request_hash kr.2) request_hash)) (job_conflict "Idempotency key was reused with another request");;
  Ok (kr, true).

(** The row [create] adds. *)
Definition new_job (now : timestamp) (stream_alias stream_key : string) (action : job_action) (actor key request_hash reason : string)
    (retention minimum : Z) : job_row :=
  mk_job stream_alias stream_key action JOB_PENDING key request_hash (slice_to 2000 reason) retention minimum 0 now None None None actor actor now now.

(** [_claimed] *)
Definition claimed_job (id : uuid) (attempt : Z) : tx jobs job_row := λ d,
  match d !! id with
  | None => Err (LookupError ("Unknown Stream maintenance job: " +:+ uuid_str id))
  | Some row =>
      if bool_decide (j_state row = JOB_RUNNING) && (j_attempts row =? attempt) then Ok (row, d)
      else Err (job_conflict "Maintenance claim was superseded")
  end.

(** An update of a row by [actor]; [updated_at] follows. *)
Definition set_job (now : timestamp) (actor : string) (state : job_state) (attempts : Z) (next : timestamp) (claimed : option timestamp)
    (result : option json) (error : option string) (j : job_row) : job_row :=
  mk_job (j_stream_alias j) (j_stream_key j) (j_action j) state (j_idempotency_key j) (j_request_hash j) (j_reason j)
    (j_retention_seconds j) (j_minimum_retained_entries j) attempts next claimed result error (j_created_by j) actor (j_created_at j) now.

(** [StreamMaintenanceStore.claim] *)
Definition claim_job (now : timestamp) (id : uuid) (claim_timeout : Z) (actor : string) : tx jobs (option job_row) := λ d,
  match d !! id with
  | None => Ok (None, d)
  | Some row =>
      if negb (is_active (j_state row)) then Ok (None, d) else
      if bool_decide (j_state row = JOB_RUNNING) && (match j_claimed_at row with None => true | Some c => (now - claim_timeout <=? c) end)
      then Ok (None, d) else
      if bool_decide (j_state row = JOB_PENDING) && (now <? j_next_attempt_at row) then Ok (None, d) else
      let row' := set_job now actor JOB_RUNNING (j_attempts row + 1) (j_next_attempt_at row) (Some now) (j_result row) (j_last_error row) row in
      if negb (fits_int4 (j_attempts row + 1)) then Err (OtherException "DataError" "integer out of range") else
      Ok (Some row', <[id := row']> d)
  end.

(** [StreamMaintenanceStore.succeed] *)
Definition succeed_job (now : timestamp) (id : uuid) (attempt : Z) (result : json) (actor : string) : tx jobs unit :=
  row ← claimed_job id attempt;
  tx_modify (insert id (set_job now actor JOB_SUCCEEDED (j_attempts row) (j_next_attempt_at row) None (Some result) None row)).

(** [StreamMaintenanceStore.fail] *)
Definition fail_job (now : timestamp) (id : uuid) (attempt : Z) (error : string) (max_attempts retry : Z) (actor : string) : tx jobs unit :=
  row ← claimed_job id attempt;
  let error := Some (slice_to 2000 error) in
  tx_modify (insert id
    (if max_attempts <=? j_attempts row
     then set_job now actor JOB_FAILED (j_attempts row) (j_next_attempt_at row) None (j_result row) error row
     else set_job now actor JOB_PENDING (j_attempts row) (now + retry) None (j_result row) error row)).

(** [StreamMaintenanceStore.due] *)
Definition due_job (now claim_timeout : Z) (j : job_row) : bool :=
  bool_decide (j_state j = JOB_PENDING) && (j_next_attempt_at j <=? now) ||
  bool_decide (j_state j = JOB_RUNNING) && match j_claimed_at j with Some c => c <? now - claim_timeout | None => false end.
Definition due_job_key (kr : uuid * job_row) : sort_key := (j_next_attempt_at kr.2, Z.of_N kr.1).
Definition due_jobs (now limit claim_timeout : Z) (d : jobs) : list uuid :=
  map fst (select_page due_job_key (λ kr, due_job now claim_timeout kr.2) (Z.to_nat limit) (map_to_list d)).

(** [StreamMaintenanceStore.page]: newest first, one row more than asked. *)
Definition job_key (kr : uuid * job_row) : sort_key := (- j_created_at kr.2, - Z.of_N kr.1).
Definition job_page (before : option (timestamp * uuid)) (limit : Z) (d : jobs) : result (list (uuid * job_row)) :=
  raise_if (negb ((1 <=? limit) && (limit <=? 100))) (ValueError "Page size must be between 1 and 100");;
  Ok (keyset_page job_key (λ _, true) ((λ b : timestamp * uuid, (- b.1, - Z.of_N b.2)) <$> before) (Z.to_nat (limit + 1)) (map_to_list d)).

(** ** The policy ([StreamMaintenancePolicy]) *)

Record StreamMaintenanceRequest := mk_trim_request {
  mr_stream : string;
  mr_idempotency_key : string;
  mr_reason : string;
  mr_retention_seconds : option Z;
  mr_minimum_retained_entries : option Z
}.

(** The settings of the server. *)
Record maintenance_settings := mk_settings {
  ms_operators : list string;
  ms_retention_floor : Z;
  ms_minimum_floor : Z;
  ms_streams : list (string * string)
}.

(** [authorize] *)
Definition authorize (settings : maintenance_settings) (actor : string) : result unit :=
  raise_if (negb (bool_decide (actor ∈ ms_operators settings)))
    (OtherException "StreamMaintenanceForbidden" "User is not authorized for Stream maintenance").

(** [resolve]: [request.retention_seconds or floor] *)
Definition resolve_policy (settings : maintenance_settings) (request : StreamMaintenanceRequest) : result (Z * Z) :=
  let retention := match mr_retention_seconds request with
    | Some r => if r =? 0 then ms_retention_floor settings else r | None => ms_retention_floor settings end in
  let minimum := default (ms_minimum_floor settings) (mr_minimum_retained_entries request) in
  raise_if (retention <? ms_retention_floor settings) (ValueError "retention_seconds cannot be below the server policy");;
  raise_if (minimum <? ms_minimum_floor settings) (ValueError "minimum_retained_entries cannot be below the server policy");;
  Ok (retention, minimum).

(** [_request_hash] *)
Definition hash_payload (action : job_action) (request : StreamMaintenanceRequest) (retention minimum : Z) : json :=
  JObj [("action", JStr (action_text action)); ("idempotency_key", JStr (mr_idempotency_key request));
        ("minimum_retained_entries", JInt minimum); ("reason", JStr (mr_reason request));
        ("retention_seconds", JInt retention); ("stream", JStr (mr_stream request))].

(** ** Calls of the database and of the streams

    The world of a coroutine: the jobs, the streams by their key, what it
    trimmed so far, and the schedule: before each call others act, then the
    call is served at some time, refused, or served without its reply
    arriving. No turn left is a crash. *)

Inductive call_fate : Type := Served | Refused | ReplyLost.

Section Jobs.
Context `{RedisStream}.

Record trimmed_stream := mk_trimmed { td_job : uuid; td_key : string; td_now_ms : Z; td_before : rs; td_after : rs }.
Record mstate := mk_mstate { m_jobs : jobs; m_streams : string → rs }.
Record turn := mk_turn { t_others : mstate → mstate; t_fate : call_fate; t_now : timestamp }.
Record mworld := mk_mworld { mw_state : mstate; mw_turns : list turn; mw_log : list trimmed_stream }.

Definition connection_lost : exn := OtherException "OperationalError" "server closed the connection unexpectedly".

(** A call, and what it logs of the state it was served on. *)
Definition call_logged {A} (f : timestamp → mstate → result A * mstate) (log : timestamp → mstate → list trimmed_stream) : proc mworld A := λ w,
  match mw_turns w with
  | [] => (Err CancelledError, w)
  | t :: ts =>
      let s := t_others t (mw_state w) in
      let '(r, s') := f (t_now t) s in
      match t_fate t with
      | Refused => (Err connection_lost, mk_mworld s ts (mw_log w))
      | Served => (r, mk_mworld s' ts (log (t_now t) s ++ mw_log w))
      | ReplyLost => (Err connection_lost, mk_mworld s' ts (log (t_now t) s ++ mw_log w))
      end
  end.

Definition in_jobs {A} (m : timestamp → tx jobs A) : timestamp → mstate → result A * mstate := λ now s,
  match m now (m_jobs s) with Ok (a, d) => (Ok a, mk_mstate d (m_streams s)) | Err e => (Err e, s) end.
Definition jobs_db {A} (m : timestamp → tx jobs A) : proc mworld A := call_logged (in_jobs m) (λ _ _, []).
Definition jobs_read {A} (f : jobs → A) : proc mworld A := jobs_db (λ _ d, Ok (f d, d)).

(** [StreamMaintenanceStore.create]: the SELECT, the INSERT, and after an
    integrity error another SELECT; [id] is the random id of the row. *)
Definition create (id : uuid) (stream_alias stream_key : string) (action : job_action) (actor key request_hash reason : string)
    (retention minimum : Z) : proc mworld ((uuid * job_row) * bool) :=
  existing ← jobs_read (by_idempotency actor key);
  match existing with
  | Some kr => lift_result (replay_job kr request_hash)
  | None =>
      try_except
        (jobs_db (λ now, let row := new_job now stream_alias stream_key action actor key request_hash reason retention minimum in
                    insert_job id row;; mret ((id, row), false)))
        (λ e, if is_IntegrityError e
              then existing ← jobs_read (by_idempotency actor key);
                   match existing with
                   | Some kr => lift_result (replay_job kr request_hash)
                   | None => throw (job_conflict ("Another trim is active for Stream: " +:+ stream_alias))
                   end
              else throw e)
  end.

(** *** [StreamMaintenanceRecovery] *)

Context (native : bool) (claim_timeout max_attempts retry : Z) (plan_json : StreamTrimPlan → json) (trim_json : StreamTrimResult → list (string * json)).

(** [__init__] *)
Definition jobs_recovery_init (concurrency batch_size poll : Z) : result unit :=
  raise_if (bool_decide (foldr Z.min concurrency [batch_size; poll; claim_timeout; max_attempts; retry] ≤ 0))
    (ValueError "Maintenance recovery budgets must be positive").

(** Milliseconds of a time in microseconds. *)
Definition to_ms (now : timestamp) : Z := now / 1000.

Definition put_stream (key : string) (x : rs) (streams : string → rs) : string → rs := λ k, if String.eqb k key then x else streams k.

(** [trimmer.trim], one command. *)
Definition trim_call (row : job_row) (now : timestamp) (s : mstate) : result StreamTrimResult * mstate :=
  match trim (j_stream_key row) (j_retention_seconds row) (j_minimum_retained_entries row) (to_ms now) native (m_streams s (j_stream_key row)) with
  | Ok (r, x) => (Ok r, mk_mstate (m_jobs s) (put_stream (j_stream_key row) x (m_streams s)))
  | Err e => (Err e, s)
  end.
Definition trim_log (id : uuid) (row : job_row) (now : timestamp) (s : mstate) : list trimmed_stream :=
  match trim (j_stream_key row) (j_retention_seconds row) (j_minimum_retained_entries row) (to_ms now) native (m_streams s (j_stream_key row)) with
  | Ok (r, x) => [mk_trimmed id (j_stream_key row) (to_ms now) (m_streams s (j_stream_key row)) x]
  | Err _ => []
  end.

(** [trimmer.plan]: its commands are served together. *)
Definition plan_call (row : job_row) (now : timestamp) (s : mstate) : result StreamTrimPlan * mstate :=
  let x := m_streams s (j_stream_key row) in
  (plan (j_stream_key row) (j_retention_seconds row) (j_minimum_retained_entries row) (to_ms now) x x x x (λ _, x), s).

(** The result a job stores. *)
Definition job_result (id : uuid) (row : job_row) : proc mworld json :=
  lift_result (trimmer_init (j_retention_seconds row) (j_minimum_retained_entries row) (if native then "native" else "compat"));;
  match j_action row with
  | PLAN => outcome ← call_logged (plan_call row) (λ _ _, []); mret (plan_json outcome)
  | TRIM => outcome ← call_logged (trim_call row) (trim_log id row);
            mret (JObj (assoc_set "result_recalculated_after_retry" (JBool (1 <? j_attempts row)) (trim_json outcome)))
  end.

(** [execute] *)
Definition execute_job (id : uuid) (actor : string) : proc mworld unit :=
  row ← jobs_db (λ now, claim_job now id claim_timeout actor);
  match row with
  | None => mret tt
  | Some row =>
      try_except
        (result ← job_result id row;
         jobs_db (λ now, succeed_job now id (j_attempts row) result actor))
        (λ e, if is_Exception e
              then jobs_db (λ now, fail_job now id (j_attempts row) (exn_name e +:+ ": " +:+ exn_str e) max_attempts retry actor)
              else throw e)
  end.

(** [once]: the jobs one after the other; an error of one does not keep the
    others from running, and is raised at the end. *)
Fixpoint execute_all (ids : list uuid) (error : option exn) : proc mworld unit :=
  match ids with
  | [] => match error with Some e => throw e | None => mret tt end
  | id :: ids' =>
      e ← try_except (execute_job id "WORKER";; mret None) (λ e, mret (Some e));
      execute_all ids' (match error with Some _ => error | None => e end)
  end.
Definition recover_once (batch_size : Z) : proc mworld Z :=
  ids ← jobs_db (λ now d, Ok (due_jobs now batch_size claim_timeout d, d));
  execute_all ids None;; mret (Z.of_nat (length ids)).

(** *** [StreamMaintenanceOperations] *)

Context (settings : maintenance_settings) (digest : json → string).

(** [_create] *)
Definition create_operation (id : uuid) (action : job_action) (actor : string) (request : StreamMaintenanceRequest) : proc mworld ((uuid * job_row) * bool) :=
  lift_result (authorize settings actor);;
  stream_key ← lift_result (from_option_err (ValueError ("Unknown registered Stream: " +:+ mr_stream request)) (assoc (mr_stream request) (ms_streams settings)));
  '(retention, minimum) ← lift_result (resolve_policy settings request);
  create id (mr_stream request) stream_key action actor (mr_idempotency_key request) (digest (hash_payload action request retention minimum))
    (mr_reason request) retention minimum.

(** [_required] *)
Definition required_job (id : uuid) : proc mworld job_row :=
  row ← jobs_read (λ d, d !! id);
  lift_result (from_option_err (LookupError ("Unknown Stream maintenance job: " +:+ uuid_str id)) row).

(** [plan] *)
Definition plan_operation (id : uuid) (actor : string) (request : StreamMaintenanceRequest) : proc mworld ((uuid * job_row) * bool) :=
  '(kr, replayed) ← create_operation id PLAN actor request;
  if bool_decide (j_state kr.2 = JOB_PENDING)
  then execute_job kr.1 actor;; row ← required_job kr.1; mret ((kr.1, row), replayed)
  else mret (kr, replayed).

(** [submit_trim] *)
Definition submit_trim (id : uuid) (actor : string) (request : StreamMaintenanceRequest) : proc mworld ((uuid * job_row) * bool) :=
  create_operation id TRIM actor request.

(** [detail], [jobs] *)
Definition job_detail (id : uuid) (actor : string) : proc mworld job_row :=
  lift_result (authorize settings actor);; required_job id.
Definition list_jobs (before : option (timestamp * uuid)) (limit : Z) (actor : string) : proc mworld (list (uuid * job_row) * option (timestamp * uuid) * bool) :=
  lift_result (authorize settings actor);;
  page ← jobs_read (job_page before limit);
  rows ← lift_result page;
  let has_more := limit <? Z.of_nat (length rows) in
  let visible := take (Z.to_nat limit) rows in
  mret (visible, (if has_more then (λ kr : uuid * job_row, (j_created_at kr.2, kr.1)) <$> last visible else None), has_more).
End Jobs.
