(* ===== verification/MaintenanceProps.v ===== *)
(** * What durable trimming jobs guarantee

    The consistency of the table over every run of the store's transactions,
    the fencing of claims, one job per idempotency key, and the safety of the
    trims a job makes under the server's policy. *)

From stdpp Require Import base gmap strings list sorting relations.
From Stdlib Require Import ZArith Lia.
From S2P Require Import Prelude Text RedisStreams StreamTrim StreamTrimProps Maintenance.
Local Open Scope Z_scope.
Set Default Proof Using "Type".

(** ** Runs of the store *)

Section Store.
Context (settings : maintenance_settings).

(** What the policy lets into the table. *)
Definition within_policy (j : job_row) : Prop :=
  ms_retention_floor settings ≤ j_retention_seconds j ∧ ms_minimum_floor settings ≤ j_minimum_retained_entries j.

Inductive job_step : jobs → jobs → Prop :=
| step_insert id j d d' : insert_job id j d = Ok (tt, d') → j_state j = JOB_PENDING → j_attempts j = 0 → within_policy j → job_step d d'
| step_claim now id timeout actor r d d' : claim_job now id timeout actor d = Ok (r, d') → job_step d d'
| step_succeed now id attempt result actor d d' : succeed_job now id attempt result actor d = Ok (tt, d') → job_step d d'
| step_fail now id attempt error max_attempts retry actor d d' :
    fail_job now id attempt error max_attempts retry actor d = Ok (tt, d') → job_step d d'.

Definition job_runs : relation jobs := rtc job_step.

(** How a row changes: what was asked for never does, attempts only grow, an
    attempt that is not running any more does not run again, and a settled
    row stays as it is. *)
Record row_next (j j' : job_row) : Prop := {
  rn_stream : j_stream_key j' = j_stream_key j ∧ j_stream_alias j' = j_stream_alias j ∧ j_action j' = j_action j;
  rn_identity : j_created_by j' = j_created_by j ∧ j_idempotency_key j' = j_idempotency_key j ∧ j_request_hash j' = j_request_hash j;
  rn_policy : j_retention_seconds j' = j_retention_seconds j ∧ j_minimum_retained_entries j' = j_minimum_retained_entries j;
  rn_attempts : j_attempts j ≤ j_attempts j';
  rn_left : j_attempts j = j_attempts j' → j_state j ≠ JOB_RUNNING → j_state j' ≠ JOB_RUNNING;
  rn_active : is_active (j_state j') = true → is_active (j_state j) = true;
  rn_final : is_active (j_state j) = false → j' = j
}.

#[export] Instance row_next_preorder : PreOrder row_next.
Proof.
  split.
  - intros j. by split.
  - intros j1 j2 j3 [A1 A2 A3 A4 A5 A6 A7] [B1 B2 B3 B4 B5 B6 B7]. split; [intuition congruence..|lia| |tauto|].
    + intros E Hs. assert (E1 : j_attempts j1 = j_attempts j2) by lia. apply B5; [lia|]. by apply A5.
    + intros Hf. specialize (A7 Hf) as ->. by apply B7.
Qed.

(** The updates of a row that is active. *)
Lemma set_job_next now actor state attempts next claimed res error j : is_active (j_state j) = true →
  (attempts = j_attempts j ∧ (j_state j ≠ JOB_RUNNING → state ≠ JOB_RUNNING) ∨ attempts = j_attempts j + 1) →
  row_next j (set_job now actor state attempts next claimed res error j).
Proof.
  intros Ha Hn. split; cbn; try done.
  - lia.
  - intros E Hs. destruct Hn as [[_ Hn]|Hn]; [by apply Hn|lia].
  - congruence.
Qed.

Lemma claim_job_Some now id timeout actor row d d' : claim_job now id timeout actor d = Ok (Some row, d') →
  ∃ row0, d !! id = Some row0 ∧ is_active (j_state row0) = true ∧ row_next row0 row ∧ j_state row = JOB_RUNNING ∧
    j_attempts row = j_attempts row0 + 1 ∧ d' = <[id := row]> d.
Proof.
  unfold claim_job. destruct (d !! id) as [row0|]; [|done]. destruct (is_active (j_state row0)) eqn:Ha; [cbn [negb]|done].
  destruct (bool_decide (j_state row0 = JOB_RUNNING) && _); [done|]. destruct (bool_decide (j_state row0 = JOB_PENDING) && _); [done|].
  destruct (negb _); [done|]. intros [= <- <-]. exists row0. split; [done|]. split; [done|].
  split; [apply set_job_next; [done|by right]|done].
Qed.

Lemma claim_job_None now id timeout actor d d' : claim_job now id timeout actor d = Ok (None, d') → d' = d.
Proof. unfold claim_job. destruct (d !! id); [|by intros [= <-]]. repeat case_match; congruence. Qed.

Lemma claimed_job_Ok id attempt d row d' : claimed_job id attempt d = Ok (row, d') →
  d' = d ∧ d !! id = Some row ∧ j_state row = JOB_RUNNING ∧ j_attempts row = attempt.
Proof.
  unfold claimed_job. destruct (d !! id) as [r|]; [|done]. destruct (_ && _) eqn:E; [|done]. intros [= <- <-].
  by apply andb_true_iff in E as [?%bool_decide_eq_true ?%Z.eqb_eq].
Qed.

Lemma succeed_job_Ok now id attempt result actor d d' : succeed_job now id attempt result actor d = Ok (tt, d') →
  ∃ row row', d !! id = Some row ∧ j_state row = JOB_RUNNING ∧ j_attempts row = attempt ∧ row_next row row' ∧
    j_state row' = JOB_SUCCEEDED ∧ d' = <[id := row']> d.
Proof.
  unfold succeed_job. intros (row & d1 & (-> & Hr & Hs & Ha)%claimed_job_Ok & [= <-])%tx_bind_Ok.
  eexists row, _. split; [done|]. split; [done|]. split; [done|]. split; [|by split; [|reflexivity]].
  apply set_job_next; [by rewrite Hs|left; by split].
Qed.

Lemma fail_job_Ok now id attempt error max_attempts retry actor d d' : fail_job now id attempt error max_attempts retry actor d = Ok (tt, d') →
  ∃ row row', d !! id = Some row ∧ j_state row = JOB_RUNNING ∧ j_attempts row = attempt ∧ row_next row row' ∧
    j_state row' = (if max_attempts <=? attempt then JOB_FAILED else JOB_PENDING) ∧ d' = <[id := row']> d.
Proof.
  unfold fail_job. intros (row & d1 & (-> & Hr & Hs & Ha)%claimed_job_Ok & [= <-])%tx_bind_Ok.
  exists row. rewrite Ha. destruct (max_attempts <=? attempt); eexists; (split; [done|]); (split; [done|]); (split; [done|]);
    (split; [|by split; [|reflexivity]]); (apply set_job_next; [by rewrite Hs|left; by split]).
Qed.

Lemma insert_job_Ok id j d d' : insert_job id j d = Ok (tt, d') → job_unique id j d = true ∧ d' = <[id := j]> d.
Proof. unfold insert_job. repeat (case_match; try done). intros [= <-]. split; [by apply negb_false_iff|done]. Qed.

(** Every step keeps each row, changed by [row_next]. *)
Lemma step_rows d d' : job_step d d' → keeps row_next d d'.
Proof.
  intros Hs. destruct Hs as [id j d d' Hi _ _ _|now id timeout actor r d d' Hc|now id attempt res actor d d' Hs|now id attempt error mx retry actor d d' Hf].
  - apply insert_job_Ok in Hi as [Hu ->]. apply keeps_insert; [apply _|]. unfold job_unique in Hu.
    apply andb_true_iff in Hu as [Hu _]. by apply bool_decide_eq_true in Hu.
  - destruct r as [row|]; [|apply claim_job_None in Hc as ->; intros k v Hv; exists v; split; [done|reflexivity]].
    apply claim_job_Some in Hc as (row0 & H0 & _ & Hn & _ & _ & ->). eapply keeps_put; [apply _|exact H0|exact Hn].
  - apply succeed_job_Ok in Hs as (row & row' & H0 & _ & _ & Hn & _ & ->). eapply keeps_put; [apply _|exact H0|exact Hn].
  - apply fail_job_Ok in Hf as (row & row' & H0 & _ & _ & Hn & _ & ->). eapply keeps_put; [apply _|exact H0|exact Hn].
Qed.

Lemma runs_rows d d' : job_runs d d' → keeps row_next d d'.
Proof.
  induction 1 as [d|d1 d2 d3 Hs _ IH]; [intros k v Hv; exists v; split; [done|reflexivity]|].
  etransitivity; [by apply step_rows|exact IH].
Qed.

(** ** The table is consistent *)

Record jobs_ok (d : jobs) : Prop := {
  jo_identity : ∀ i i' j j', d !! i = Some j → d !! i' = Some j' → j_created_by j = j_created_by j' →
    j_idempotency_key j = j_idempotency_key j' → i = i';
  jo_trim : ∀ i i' j j', d !! i = Some j → d !! i' = Some j' → active_trim j = true → active_trim j' = true →
    j_stream_key j = j_stream_key j' → i = i';
  jo_policy : ∀ i j, d !! i = Some j → within_policy j
}.

Lemma active_trim_next j j' : row_next j j' → active_trim j' = true → active_trim j = true.
Proof.
  intros Hn. unfold active_trim. rewrite !andb_true_iff, !bool_decide_eq_true. destruct (rn_stream _ _ Hn) as (_ & _ & ->).
  intros [? ?%(rn_active _ _ Hn)]. done.
Qed.

(** A row that follows one of the table keeps it consistent. *)
Lemma jobs_ok_put id j j' d : jobs_ok d → d !! id = Some j → row_next j j' → jobs_ok (<[id := j']> d).
Proof.
  intros Hd Hj Hn. assert (Hold : ∀ i v, <[id := j']> d !! i = Some v → ∃ v0, d !! i = Some v0 ∧ row_next v0 v).
  { intros i v Hv. apply lookup_insert_Some in Hv as [[<- <-]|[_ Hv]]; [by exists j|by exists v]. }
  split.
  - intros i i' v v' (v0 & H0 & N0)%Hold (v1 & H1 & N1)%Hold. destruct (rn_identity _ _ N0) as (-> & -> & _), (rn_identity _ _ N1) as (-> & -> & _).
    by apply (jo_identity _ Hd i i').
  - intros i i' v v' (v0 & H0 & N0)%Hold (v1 & H1 & N1)%Hold. intros A0%(active_trim_next _ _ N0) A1%(active_trim_next _ _ N1).
    destruct (rn_stream _ _ N0) as (-> & _), (rn_stream _ _ N1) as (-> & _). by apply (jo_trim _ Hd i i' v0 v1).
  - intros i v (v0 & H0 & N0)%Hold. unfold within_policy. destruct (rn_policy _ _ N0) as [-> ->]. by apply (jo_policy _ Hd i).
Qed.

Lemma job_unique_spec id j d : job_unique id j d = true → d !! id = None ∧
  ∀ i v, d !! i = Some v → ¬ (j_created_by v = j_created_by j ∧ j_idempotency_key v = j_idempotency_key j) ∧
    ¬ (active_trim v = true ∧ active_trim j = true ∧ j_stream_key v = j_stream_key j).
Proof.
  unfold job_unique. rewrite andb_true_iff, bool_decide_eq_true. intros [Hn Hf]. split; [done|]. intros i v Hv.
  apply elem_of_map_to_list in Hv. rewrite <- Is_true_true, forallb_True, Forall_forall in Hf. specialize (Hf _ Hv). cbn in Hf.
  apply Is_true_true, andb_true_iff in Hf as [H1%negb_true_iff H2%negb_true_iff]. split.
  - intros [E1 E2]. by rewrite E1, E2, !String.eqb_refl in H1.
  - intros (E1 & E2 & E3). by rewrite E1, E2, E3, String.eqb_refl in H2.
Qed.

Lemma step_jobs_ok d d' : job_step d d' → jobs_ok d → jobs_ok d'.
Proof.
  intros Hs Hd. destruct Hs as [id j d d' Hi _ _ Hp|now id timeout actor r d d' Hc|now id attempt res actor d d' Hs|now id attempt error mx retry actor d d' Hf].
  - apply insert_job_Ok in Hi as [Hu ->]. apply job_unique_spec in Hu as [Hn Hu]. split.
    + intros i i' v v' [[<- <-]|[Hi Hv]]%lookup_insert_Some [[<- <-]|[Hi' Hv']]%lookup_insert_Some E1 E2; try done.
      * destruct (Hu _ _ Hv') as [Hx _]. by destruct Hx.
      * destruct (Hu _ _ Hv) as [Hx _]. by destruct Hx.
      * by apply (jo_identity _ Hd i i' v v').
    + intros i i' v v' [[<- <-]|[Hi Hv]]%lookup_insert_Some [[<- <-]|[Hi' Hv']]%lookup_insert_Some A1 A2 E; try done.
      * destruct (Hu _ _ Hv') as [_ Hx]. by destruct Hx.
      * destruct (Hu _ _ Hv) as [_ Hx]. by destruct Hx.
      * by apply (jo_trim _ Hd i i' v v').
    + intros i v [[<- <-]|[_ Hv]]%lookup_insert_Some; [done|by apply (jo_policy _ Hd i)].
  - destruct r as [row|]; [|by apply claim_job_None in Hc as ->].
    apply claim_job_Some in Hc as (row0 & H0 & _ & Hn & _ & _ & ->). by eapply jobs_ok_put.
  - apply succeed_job_Ok in Hs as (row & row' & H0 & _ & _ & Hn & _ & ->). by eapply jobs_ok_put.
  - apply fail_job_Ok in Hf as (row & row' & H0 & _ & _ & Hn & _ & ->). by eapply jobs_ok_put.
Qed.

Lemma runs_jobs_ok d d' : job_runs d d' → jobs_ok d → jobs_ok d'.
Proof. induction 1 as [|d1 d2 d3 Hs _ IH]; [done|]. intros Hd. by apply IH, (step_jobs_ok d1). Qed.

(** Over every run of the store's transactions the table stays consistent:
    one job per actor and idempotency key, at most one active trim per stream,
    and no job below the retention and the entries the server keeps. *)
Theorem jobs_consistent d : job_runs ∅ d → jobs_ok d.
Proof. intros Hr. apply (runs_jobs_ok ∅); [done|]. split; by intros. Qed.

(** C38. A claim that was superseded settles nothing: once a job is not running
    in the attempt of a claim any more, that claim can neither succeed nor
    fail it, now or later, and a job that succeeded or failed stays so. *)
Theorem claim_fencing now id timeout actor d d1 d2 d3 row row2 : claim_job now id timeout actor d = Ok (Some row, d1) →
  job_runs d1 d2 → d2 !! id = Some row2 → ¬ (j_state row2 = JOB_RUNNING ∧ j_attempts row2 = j_attempts row) → job_runs d2 d3 →
  (∀ now' result actor', succeed_job now' id (j_attempts row) result actor' d3 = Err (job_conflict "Maintenance claim was superseded")) ∧
  (∀ now' error mx retry actor', fail_job now' id (j_attempts row) error mx retry actor' d3 = Err (job_conflict "Maintenance claim was superseded")) ∧
  (is_active (j_state row2) = false → d3 !! id = Some row2).
Proof.
  intros (row0 & _ & _ & _ & Hst & _ & ->)%claim_job_Some R1 H2 Hleft R2.
  destruct (runs_rows _ _ R1 id row) as (row2' & H2' & N1); [by rewrite lookup_insert_eq|]. assert (row2' = row2) as -> by congruence.
  destruct (runs_rows _ _ R2 id row2 H2) as (row3 & H3 & N2).
  assert (Hc : claimed_job id (j_attempts row) d3 = Err (job_conflict "Maintenance claim was superseded")).
  { unfold claimed_job. rewrite H3. destruct (bool_decide (j_state row3 = JOB_RUNNING)) eqn:E1; [|done]. apply bool_decide_eq_true in E1.
    destruct (Z.eqb_spec (j_attempts row3) (j_attempts row)) as [E2|]; [|done]. exfalso.
    pose proof (rn_attempts _ _ N1). pose proof (rn_attempts _ _ N2). apply (rn_left _ _ N2); [lia| |done].
    intros E. apply Hleft. split; [done|lia]. }
  split; [|split].
  - intros. unfold succeed_job, mbind, tx_bind. by rewrite Hc.
  - intros. unfold fail_job, mbind, tx_bind. by rewrite Hc.
  - intros Hf. rewrite H3. f_equal. by apply (rn_final _ _ N2).
Qed.
End Store.

(** ** The coroutines *)

Section Coroutines.
Context `{RedisStream} (settings : maintenance_settings) (native : bool) (claim_timeout max_attempts retry : Z)
  (plan_json : StreamTrimPlan → json) (trim_json : StreamTrimResult → list (string * json)).
Context (Hretention : 0 < ms_retention_floor settings) (Hminimum : 0 ≤ ms_minimum_floor settings).

Abbreviation execute_job := (execute_job native claim_timeout max_attempts retry plan_json trim_json).
Abbreviation runs := (job_runs settings).

Definition streams_ok (s : mstate) : Prop := ∀ k, stream_ok (m_streams s k).

(** Others make transactions of the store and leave streams that are ones; a
    time is a time of the id space. *)
Definition fair_turn (t : turn) : Prop :=
  0 ≤ to_ms (t_now t) ≤ max_id_part ∧
  ∀ s, jobs_ok settings (m_jobs s) → streams_ok s → runs (m_jobs s) (m_jobs (t_others t s)) ∧ streams_ok (t_others t s).

Record good (w : mworld) : Prop := {
  gd_jobs : jobs_ok settings (m_jobs (mw_state w));
  gd_streams : streams_ok (mw_state w);
  gd_turns : Forall fair_turn (mw_turns w)
}.

(** What a trim of a job may do: remove the oldest entries, each older than
    the server's retention, delivered to every group, pending in none, and not
    among the newest entries the server keeps. *)
Definition safe_trim (e : trimmed_stream) : Prop :=
  ∃ k, rs_ids (td_after e) = drop k (rs_ids (td_before e)) ∧ rs_groups (td_after e) = rs_groups (td_before e) ∧
    ∀ x, x ∈ take k (rs_ids (td_before e)) →
      key_lt x (retention_cutoff (ms_retention_floor settings) (td_now_ms e), 0) ∧
      (∀ g, g ∈ rs_groups (td_before e) → key_lt x (sg_last g) ∧ x ∉ sg_pel g) ∧
      x ∉ take (Z.to_nat (ms_minimum_floor settings)) (reverse (rs_ids (td_before e))).

(** What a coroutine does: transactions, and trims that satisfy [P]. *)
Definition does (P : trimmed_stream → Prop) (w w' : mworld) : Prop :=
  good w' ∧ runs (m_jobs (mw_state w)) (m_jobs (mw_state w')) ∧ ∃ l, mw_log w' = l ++ mw_log w ∧ Forall P l.

Lemma does_refl P w : good w → does P w w.
Proof. intros Hw. split; [done|]. split; [apply rtc_refl|]. by exists []. Qed.
Lemma does_trans P w1 w2 w3 : does P w1 w2 → does P w2 w3 → does P w1 w3.
Proof.
  intros (_ & R1 & l1 & E1 & F1) (G & R2 & l2 & E2 & F2). split; [done|]. split; [by etransitivity|]. exists (l2 ++ l1).
  rewrite E2, E1, app_assoc. split; [done|by apply Forall_app].
Qed.

(** A call, from what it does to a good state. *)
Lemma wp_job_call {A} (f : timestamp → mstate → result A * mstate) log (P : trimmed_stream → Prop) (Q : A → mworld → Prop) w : good w →
  (∀ now s r s', 0 ≤ to_ms now ≤ max_id_part → jobs_ok settings (m_jobs s) → streams_ok s → runs (m_jobs (mw_state w)) (m_jobs s) → f now s = (r, s') →
     runs (m_jobs s) (m_jobs s') ∧ streams_ok s' ∧ Forall P (log now s) ∧
     ∀ a ts lg, r = Ok a → Q a (mk_mworld s' ts lg)) →
  wp (call_logged f log) (λ r w', does P w w' ∧ ∀ a, r = Ok a → Q a w') w.
Proof.
  intros Hw Hf. unfold wp, call_logged. destruct (mw_turns w) as [|t ts] eqn:Et; [split; [by apply does_refl|done]|].
  destruct Hw as [Gj Gs Gt]. rewrite Et in Gt. apply Forall_cons in Gt as [[Hnow Ho] Gt].
  destruct (Ho _ Gj Gs) as [R1 Gs1]. pose proof (runs_jobs_ok settings _ _ R1 Gj) as Gj1.
  destruct (f (t_now t) (t_others t (mw_state w))) as [r s'] eqn:Ef.
  destruct (Hf _ _ _ _ Hnow Gj1 Gs1 R1 Ef) as (R2 & Gs2 & Hlog & HQ).
  destruct (t_fate t); cbn [fst snd].
  - split; [|intros a ->; by apply HQ]. split; [split; [by eapply runs_jobs_ok|done|done]|]. split; [by etransitivity|]. by eexists.
  - split; [|done]. split; [by split|]. split; [done|]. by exists [].
  - split; [|done]. split; [split; [by eapply runs_jobs_ok|done|done]|]. split; [by etransitivity|]. by eexists.
Qed.

Lemma wp_db {A} (m : timestamp → tx jobs A) P (Q : A → jobs → Prop) w : good w →
  (∀ now d a d', jobs_ok settings d → runs (m_jobs (mw_state w)) d → m now d = Ok (a, d') → runs d d' ∧ Q a d') →
  wp (jobs_db m) (λ r w', does P w w' ∧ ∀ a, r = Ok a → Q a (m_jobs (mw_state w'))) w.
Proof.
  intros Hw Hm. apply (wp_job_call _ _ P (λ a w', Q a (m_jobs (mw_state w')))); [done|].
  intros now s r s' _ Hj Hs R. unfold in_jobs. destruct (m now (m_jobs s)) as [[a d]|e] eqn:E; intros [= <- <-].
  - destruct (Hm now (m_jobs s) a d Hj R E) as [R2 HQ]. split; [done|]. split; [done|]. split; [done|]. by intros ??? [= ->].
  - split; [apply rtc_refl|]. split; [done|]. by split.
Qed.

Lemma wp_job_read {A} (f : jobs → A) P (Q : A → jobs → Prop) w : good w →
  (∀ d, jobs_ok settings d → runs (m_jobs (mw_state w)) d → Q (f d) d) →
  wp (jobs_read f) (λ r w', does P w w' ∧ ∀ a, r = Ok a → Q a (m_jobs (mw_state w'))) w.
Proof.
  intros Hw Hf. apply wp_db; [done|]. intros now d a d' Hd R [= <- <-]. split; [apply rtc_refl|by apply Hf].
Qed.

(** Continuing after a call. *)
Lemma wp_then {A B} (m : proc mworld A) (f : A → proc mworld B) P (Q : A → mworld → Prop) (R : result B → mworld → Prop) w :
  wp m (λ r w', does P w w' ∧ ∀ a, r = Ok a → Q a w') w →
  (∀ e w', does P w w' → R (Err e) w') →
  (∀ a w', does P w w' → Q a w' → wp (f a) R w') →
  wp (m ≫= f) R w.
Proof.
  intros Hm He Hf. apply wp_bind. eapply wp_mono; [exact Hm|]. intros [a|e] w' [Hd HQ]; [apply Hf; [done|by apply HQ]|by apply He].
Qed.

(** ** The trims of a job *)

Lemma cutoff_mono r r' now : r' ≤ r → retention_cutoff r now ≤ retention_cutoff r' now.
Proof. unfold retention_cutoff. lia. Qed.

Lemma cutoff_valid r now : 0 ≤ r → 0 ≤ now ≤ max_id_part → valid_id (retention_cutoff r now, 0).
Proof. intros Hr Hn. unfold valid_id, retention_cutoff, max_id_part in *. cbn. lia. Qed.

Lemma trim_is_safe id row now s r x : within_policy settings row → 0 ≤ now ≤ max_id_part → stream_ok s →
  trim (j_stream_key row) (j_retention_seconds row) (j_minimum_retained_entries row) now native s = Ok (r, x) →
  stream_ok x ∧ safe_trim (mk_trimmed id (j_stream_key row) now s x).
Proof using Hretention Hminimum.
  intros [Hr Hm] Hnow Hs Ht. destruct (String.eqb_spec (strip (j_stream_key row)) "") as [E|E].
  { unfold trim, validate_stream in Ht. rewrite E in Ht. done. }
  destruct (trim_removes_only_safe (j_stream_key row) (j_retention_seconds row) (j_minimum_retained_entries row) now native s)
    as (r0 & x0 & k & Hrun & _ & Hi & Hg & Hsafe); [done|lia|done|apply cutoff_valid; lia|].
  rewrite Ht in Hrun. injection Hrun as <- <-. split; [by eapply partial_ok|]. exists k. split; [done|]. split; [done|].
  intros y Hy. destruct (Hsafe y Hy) as (H1 & H2 & H3). split; [|split; [done|]].
  - eapply key_lt_le_trans; [exact H1|]. destruct (Z.eq_dec (retention_cutoff (j_retention_seconds row) now) (retention_cutoff (ms_retention_floor settings) now)) as [->|];
      [apply key_le_refl|left; pose proof (cutoff_mono (j_retention_seconds row) (ms_retention_floor settings) now Hr); cbn; lia].
  - intros Hin. apply H3. apply elem_of_take in Hin as (i & Hi' & Hlt). apply elem_of_take. exists i. split; [done|lia].
Qed.

Definition of_job (id : uuid) (row : job_row) (e : trimmed_stream) : Prop :=
  td_job e = id ∧ td_key e = j_stream_key row ∧ j_action row = TRIM ∧ safe_trim e.

Lemma put_stream_ok key x streams : (∀ k, stream_ok (streams k)) → stream_ok x → ∀ k, stream_ok (put_stream key x streams k).
Proof. intros Hs Hx k. unfold put_stream. by destruct (String.eqb k key). Qed.

Lemma job_result_does id row w : good w → within_policy settings row →
  wp (job_result native plan_json trim_json id row) (λ r w', does (of_job id row) w w') w.
Proof using Hretention Hminimum.
  intros Hw Hp. unfold job_result. apply wp_bind, wp_lift. destruct (trimmer_init _ _ _); [|by apply does_refl].
  destruct (j_action row) eqn:Ha.
  - eapply (wp_then _ _ (of_job id row) (λ _ _, True)); [apply wp_job_call; [done|]|done|by intros].
    intros now s r s' _ _ Hs R [= <- <-]. split; [apply rtc_refl|]. by split.
  - eapply (wp_then _ _ (of_job id row) (λ _ _, True)); [apply wp_job_call; [done|]|done|by intros].
    intros now s r s' Hnow _ Hs R. unfold trim_call, trim_log.
    destruct (trim _ _ _ _ _ _) as [[r0 x]|e] eqn:Et; intros [= <- <-]; [|split; [apply rtc_refl|by split]].
    destruct (trim_is_safe id row (to_ms now) _ r0 x Hp Hnow (Hs _) Et) as [Hx Hsafe].
    split; [apply rtc_refl|]. split; [intros k; by apply put_stream_ok|]. split; [|done]. apply Forall_singleton. by split.
Qed.

(** A job may be claimed when it waits and its time has come, or when it runs
    under a claim that timed out. *)
Definition ready_to_claim (now : timestamp) (row : job_row) : Prop :=
  j_state row = JOB_PENDING ∧ j_next_attempt_at row ≤ now ∨
  j_state row = JOB_RUNNING ∧ ∃ t, j_claimed_at row = Some t ∧ t < now - claim_timeout.

(** Between two states of the table [actor] committed a claim of a job that
    could be claimed: [row] is the claimed row, with a new attempt. *)
Definition claim_made (actor : string) (id : uuid) (row : job_row) (d d' : jobs) : Prop :=
  ∃ now d0 row0, runs d d0 ∧ d0 !! id = Some row0 ∧ ready_to_claim now row0 ∧ j_state row = JOB_RUNNING ∧
    j_attempts row = j_attempts row0 + 1 ∧ j_claimed_at row = Some now ∧ j_updated_by row = actor ∧ runs (<[id := row]> d0) d'.

Lemma claim_job_claims now id actor row d d' : claim_job now id claim_timeout actor d = Ok (Some row, d') →
  d' = <[id := row]> d ∧ claim_made actor id row d d'.
Proof.
  unfold claim_job. destruct (d !! id) as [row0|] eqn:H0; [|done]. destruct (is_active (j_state row0)) eqn:Ha; [cbn [negb]|done].
  destruct (bool_decide (j_state row0 = JOB_RUNNING) && _) eqn:Hr; [done|]. destruct (bool_decide (j_state row0 = JOB_PENDING) && _) eqn:Hp; [done|].
  destruct (negb _); [done|]. intros [= <- <-]. split; [done|]. exists now, d, row0. do 2 (split; [done|]). split; [|by split_and!].
  unfold ready_to_claim. destruct (j_state row0); try done.
  - left. split; [done|]. cbn in Hp. apply Z.ltb_ge in Hp. lia.
  - right. split; [done|]. cbn in Hr. destruct (j_claimed_at row0) as [t|]; [|done]. exists t. split; [done|]. apply Z.leb_gt in Hr. lia.
Qed.

(** C24. The trims of a job are safe under the server's policy, for every
    schedule of faults, crash points, other workers and other clients: an
    execution trims only after it committed a claim of the job, which waited
    and was due or whose last claim had timed out, only if the job is a TRIM
    job and only on that job's stream; and every entry a trim removes is older
    than the server's retention, delivered to every group, pending in none and
    not among the newest entries the server keeps. It changes the jobs by
    transactions of the store only. *)
Theorem maintenance_trims_safely id actor w r w' : good w → execute_job id actor w = (r, w') →
  runs (m_jobs (mw_state w)) (m_jobs (mw_state w')) ∧ ∃ l, mw_log w' = l ++ mw_log w ∧ ∀ e, e ∈ l → safe_trim e ∧ td_job e = id ∧
    ∃ row, claim_made actor id row (m_jobs (mw_state w)) (m_jobs (mw_state w')) ∧ j_action row = TRIM ∧ j_stream_key row = td_key e.
Proof using Hretention Hminimum.
  intros Hw Hrun.
  set (R := λ w', runs (m_jobs (mw_state w)) (m_jobs (mw_state w')) ∧ ∃ l, mw_log w' = l ++ mw_log w ∧ ∀ e, e ∈ l → safe_trim e ∧ td_job e = id ∧
    ∃ row, claim_made actor id row (m_jobs (mw_state w)) (m_jobs (mw_state w')) ∧ j_action row = TRIM ∧ j_stream_key row = td_key e).
  assert (Hnone : ∀ w1, does (λ _, False) w w1 → R w1).
  { intros w1 (_ & R1 & l & E & F). split; [done|]. exists l. split; [done|]. intros e He. rewrite Forall_forall in F. by destruct (F e He). }
  refine (wp_run (execute_job id actor) (λ _ w', R w') w r w' _ Hrun).
  assert (Hjob : ∀ row w1 w2, does (λ _, False) w w1 → claim_made actor id row (m_jobs (mw_state w)) (m_jobs (mw_state w1)) →
    does (of_job id row) w1 w2 → R w2).
  { intros row w1 w2 (_ & R1 & l1 & E1 & F1) Hrow (_ & R2 & l2 & E2 & F2). split; [by etransitivity|].
    assert (l1 = []) as -> by (destruct l1 as [|e l1]; [done|by inversion F1]). exists l2. split; [by rewrite E2, E1|]. intros e He.
    rewrite Forall_forall in F2. destruct (F2 e He) as (Hid & Hk & Ha & Hsafe). split; [done|]. split; [done|].
    exists row. split; [|by split]. destruct Hrow as (now & d0 & row0 & A1 & A2 & A3 & A4 & A5 & A6 & A7 & A8).
    exists now, d0, row0. split_and!; [done..|]. by etransitivity. }
  eapply (wp_then _ _ (λ _, False) (λ row w1, ∀ j, row = Some j → m_jobs (mw_state w1) !! id = Some j ∧
    claim_made actor id j (m_jobs (mw_state w)) (m_jobs (mw_state w1)))).
  { apply (wp_db _ _ (λ row d, ∀ j, row = Some j → d !! id = Some j ∧ claim_made actor id j (m_jobs (mw_state w)) d)); [done|].
    intros now d row d' Hd Hr Hc. split; [by eapply rtc_once, step_claim|]. intros j ->.
    apply claim_job_claims in Hc as [-> (now' & d0 & row0 & A1 & A2)]. rewrite lookup_insert_eq. split; [done|].
    exists now', d0, row0. split; [by etransitivity|done]. }
  { intros e w1. apply Hnone. }
  intros [row|] w1 D1 Hrow; [|by apply wp_ret, Hnone]. destruct (Hrow row eq_refl) as [Hin Hclaim].
  assert (Hp : within_policy settings row) by (eapply jo_policy; [apply D1|done]).
  assert (Hsettle : ∀ {A} (m : timestamp → tx jobs A) w2, does (of_job id row) w1 w2 → (∀ now d a d', m now d = Ok (a, d') → job_step settings d d') →
    wp (jobs_db m) (λ _ w', R w') w2).
  { intros A m w2 D2 Hm. eapply wp_mono; [apply (wp_db m (of_job id row) (λ _ _, True)); [apply D2|]|].
    - intros now d a d' _ _ Hd. split; [by eapply rtc_once, Hm|done].
    - intros r2 w3 [D3 _]. by eapply Hjob, does_trans. }
  apply wp_try, wp_bind. eapply wp_mono; [apply (job_result_does id row w1); [apply D1|done]|]. intros [res|e] w2 D2.
  - eapply wp_mono; [apply wp_and; [apply (Hsettle _ _ w2 D2)|]|].
    + intros now d [] d' Hd. by eapply step_succeed.
    + apply (wp_db _ (of_job id row) (λ _ _, True)); [apply D2|]. intros now d [] d' _ _ Hd. split; [by eapply rtc_once, step_succeed|done].
    + intros [[]|e] w3 [HR [D3 _]]; [done|]. destruct (is_Exception e); [|done]. apply (Hsettle _ _ w3); [by eapply does_trans|].
      intros now d [] d' Hd. by eapply step_fail.
  - destruct (is_Exception e); [|apply wp_throw; by eapply Hjob]. apply (Hsettle _ _ w2 D2). intros now d [] d' Hd. by eapply step_fail.
Qed.

(** ** Creating jobs *)

Lemma by_idempotency_Some actor key d kr : by_idempotency actor key d = Some kr →
  d !! kr.1 = Some kr.2 ∧ j_created_by kr.2 = actor ∧ j_idempotency_key kr.2 = key.
Proof.
  unfold by_idempotency. intros [Hin Hp]%List.find_some. apply list_elem_of_In in Hin. destruct kr as [i row].
  apply elem_of_map_to_list in Hin. apply andb_true_iff in Hp as [?%String.eqb_eq ?%String.eqb_eq]. done.
Qed.

Lemma resolve_within_policy request retention minimum : resolve_policy settings request = Ok (retention, minimum) →
  ms_retention_floor settings ≤ retention ∧ ms_minimum_floor settings ≤ minimum.
Proof.
  unfold resolve_policy. intros Hr. apply raise_if_then in Hr as [?%Z.ltb_ge Hr]. apply raise_if_then in Hr as [?%Z.ltb_ge [= <- <-]]. done.
Qed.

(** The job a create answers with. *)
Definition created (actor key request_hash : string) (kr : uuid * job_row) (d : jobs) : Prop :=
  ∃ row, d !! kr.1 = Some row ∧ j_created_by row = actor ∧ j_idempotency_key row = key ∧ j_request_hash row = request_hash.

Lemma replay_job_Ok kr request_hash out : replay_job kr request_hash = Ok out → out = (kr, true) ∧ j_request_hash kr.2 = request_hash.
Proof. unfold replay_job. intros Hr. by apply raise_if_then in Hr as [?%negb_false_iff%String.eqb_eq [= <-]]. Qed.

Lemma create_does id stream_alias stream_key action actor key request_hash reason retention minimum w : good w →
  ms_retention_floor settings ≤ retention → ms_minimum_floor settings ≤ minimum →
  wp (create id stream_alias stream_key action actor key request_hash reason retention minimum)
    (λ r w', does (λ _, False) w w' ∧ ∀ kr replayed, r = Ok (kr, replayed) → created actor key request_hash kr (m_jobs (mw_state w'))) w.
Proof.
  intros Hw Hr Hm. unfold create.
  set (found := λ (o : option (uuid * job_row)) (d : jobs), ∀ kr, o = Some kr →
    d !! kr.1 = Some kr.2 ∧ j_created_by kr.2 = actor ∧ j_idempotency_key kr.2 = key).
  assert (Hread : ∀ w1, good w1 → wp (jobs_read (by_idempotency actor key))
    (λ r w', does (λ _, False) w1 w' ∧ ∀ a, r = Ok a → found a (m_jobs (mw_state w'))) w1).
  { intros w1 Hw1. apply wp_job_read; [done|]. intros d _ _ kr. by apply by_idempotency_Some. }
  assert (Hreplay : ∀ kr d out, found (Some kr) d → replay_job kr request_hash = Ok out → ∀ kr' b, out = (kr', b) → created actor key request_hash kr' d).
  { intros kr d out Hf [-> Hh]%replay_job_Ok kr' b [= <- <-]. destruct (Hf kr eq_refl) as (H1 & H2 & H3). by exists kr.2. }
  eapply wp_then; [by apply Hread| |].
  { intros e w1 D. by split. }
  intros [kr|] w1 D1 Hf.
  { apply wp_lift. split; [done|]. intros kr' b Hout. by eapply (Hreplay kr). }
  apply wp_try. eapply wp_mono; [apply (wp_db _ (λ _, False) (λ a d, created actor key request_hash a.1 d)); [apply D1|]|].
  - intros now d a d' _ _ (u & d1 & Hi & [= <- <-])%tx_bind_Ok. destruct u. split.
    + eapply rtc_once, step_insert; [exact Hi|done|done|by split].
    + apply insert_job_Ok in Hi as [_ ->]. cbn. eexists. rewrite lookup_insert_eq. by split.
  - intros [[kr b]|e] w2 [D2 HQ].
    + split; [by eapply does_trans|]. intros kr' b' [= <- <-]. apply (HQ _ eq_refl).
    + destruct (is_IntegrityError e); [|split; [by eapply does_trans|done]].
      eapply wp_then; [apply Hread, D2| |].
      * intros e2 w3 D3. split; [|done]. eapply does_trans; [exact D1|by eapply does_trans].
      * intros [kr|] w3 D3 Hf3; (split; [eapply does_trans; [exact D1|by eapply does_trans]|]); [|done].
        intros kr' b Hout. by eapply (Hreplay kr).
Qed.

(** An operator's request makes one job: a call that succeeds was made by
    an authorised operator for a registered stream, and answers with the job
    of that operator and idempotency key, which was asked for with the same
    request and policy, and no run of the store ever has another job for them;
    the call trims nothing. *)
Theorem job_created_once digest id action actor request w kr replayed w' : good w →
  create_operation settings digest id action actor request w = (Ok (kr, replayed), w') →
  ∃ retention minimum, resolve_policy settings request = Ok (retention, minimum) ∧ actor ∈ ms_operators settings ∧
    is_Some (assoc (mr_stream request) (ms_streams settings)) ∧
    created actor (mr_idempotency_key request) (digest (hash_payload action request retention minimum)) kr (m_jobs (mw_state w')) ∧
    mw_log w' = mw_log w ∧ runs (m_jobs (mw_state w)) (m_jobs (mw_state w')) ∧
    ∀ d id2 row2, runs (m_jobs (mw_state w')) d → d !! id2 = Some row2 → j_created_by row2 = actor →
      j_idempotency_key row2 = mr_idempotency_key request → id2 = kr.1.
Proof.
  intros Hw. unfold create_operation. intros (u & w1 & Hau & Hrun)%proc_bind_Ok. injection Hau as Hau <-.
  apply proc_bind_Ok in Hrun as (stream_key & w2 & Hs & Hrun). injection Hs as Hs <-.
  apply proc_bind_Ok in Hrun as ([retention minimum] & w3 & Hr & Hrun). injection Hr as Hr <-.
  destruct (resolve_within_policy _ _ _ Hr) as [P1 P2]. exists retention, minimum. split; [done|].
  split. { unfold authorize in Hau. destruct u. by apply raise_if_Ok, negb_false_iff, bool_decide_eq_true in Hau. }
  split. { destruct (assoc _ _); [by eexists|done]. }
  destruct (wp_run _ _ _ _ _ (create_does id (mr_stream request) stream_key action actor (mr_idempotency_key request)
    (digest (hash_payload action request retention minimum)) (mr_reason request) retention minimum w Hw P1 P2) Hrun) as [(G & R & l & E & F) Hc].
  specialize (Hc kr replayed eq_refl). split; [done|]. split.
  { destruct l as [|e l]; [done|by inversion F]. }
  split; [done|]. intros d id2 row2 Rd H2 A1 A2. destruct Hc as (row & H1 & B1 & B2 & _).
  destruct (runs_rows settings _ _ Rd _ _ H1) as (row' & H1' & Hn). destruct (rn_identity _ _ Hn) as (C1 & C2 & _).
  eapply (jo_identity settings d); [eapply runs_jobs_ok; [exact Rd|apply G]|exact H2|exact H1'|congruence|congruence].
Qed.
End Coroutines.

(** ** One job

    The theorems on one job on the stream of [TinyStream]. *)

Module OneJob.
Import StreamTrimProps.TinyStream.
Definition demo_settings : maintenance_settings := mk_settings ["op"] 1 1 [("agent_commands", "commands")].
Definition demo_request : StreamMaintenanceRequest := mk_trim_request "agent_commands" "weekly" "clean up" None None.
Definition demo_digest (j : json) : string := "hash".

Definition seconds (n : Z) : timestamp := n * 1000000.
Definition served (n : Z) : turn := mk_turn (λ s, s) Served (seconds n).
Definition demo_state (d : gmap N job_row) : mstate := mk_mstate d (λ _, demo_stream).
Definition demo_world : mworld := mk_mworld (demo_state ∅) [served 5; served 5] [].

Definition demo_job : job_row := new_job (seconds 5) "agent_commands" "commands" TRIM "op" "weekly" "hash" "clean up" 1 1.
Definition demo_jobs : gmap N job_row := {[7%N := demo_job]}.
Definition claimed_job_row : job_row := set_job (seconds 6) "WORKER" JOB_RUNNING 1 (seconds 5) (Some (seconds 6)) None None demo_job.
Definition execute_demo : proc mworld unit := execute_job true 60000000 5 5000000 (λ _, JNull) (λ _, []) 7 "WORKER".
Definition trimming_world : mworld := mk_mworld (demo_state demo_jobs) [served 6; served 6; served 6] [].

Lemma demo_fair n : 0 ≤ n ≤ 1000000 → fair_turn demo_settings (served n).
Proof.
  intros Hn. split; [|by intros s _ Hs].
  unfold to_ms, served, seconds, max_id_part. cbn [t_now]. replace (n * 1000000) with (n * 1000 * 1000) by lia. rewrite Z.div_mul by lia. lia.
Qed.

Lemma demo_empty_ok : jobs_ok demo_settings ∅.
Proof. split; by intros. Qed.

Lemma demo_inserted : job_step demo_settings ∅ demo_jobs.
Proof. apply (step_insert demo_settings 7 demo_job); [by vm_compute|done|done|split; cbn; lia]. Qed.
Lemma demo_claimed : claim_job (seconds 6) 7 60000000 "WORKER" demo_jobs = Ok (Some claimed_job_row, <[7%N := claimed_job_row]> demo_jobs).
Proof. by vm_compute. Qed.

Lemma jobs_consistent_witness : jobs_ok demo_settings demo_jobs.
Proof. apply (jobs_consistent demo_settings demo_jobs). apply rtc_once, demo_inserted. Defined.

Lemma demo_good d : jobs_ok demo_settings d → ∀ turns, Forall (fair_turn demo_settings) turns → good demo_settings (mk_mworld (demo_state d) turns []).
Proof. intros Hd turns Ht. split; [done|intros k; apply demo_stream_ok|done]. Qed.

(** The trim removes the oldest entry, as the log says. *)
Example demo_execution : map (λ e, (td_job e, td_key e, rs_ids (td_after e))) (mw_log (execute_demo trimming_world).2) =
  [(7%N, "commands", [(1000, 1); (2000, 0); (9000, 0)])].
Proof. by vm_compute. Qed.
Example demo_succeeded : j_state <$> (m_jobs (mw_state (execute_demo trimming_world).2) !! 7%N) = Some JOB_SUCCEEDED.
Proof. by vm_compute. Qed.

Lemma maintenance_trims_safely_witness :
  job_runs demo_settings demo_jobs (m_jobs (mw_state (execute_demo trimming_world).2)) ∧
  ∃ l, mw_log (execute_demo trimming_world).2 = l ++ [] ∧ ∀ e, e ∈ l → safe_trim demo_settings e ∧ td_job e = 7%N ∧
    ∃ row, claim_made demo_settings 60000000 "WORKER" 7 row demo_jobs (m_jobs (mw_state (execute_demo trimming_world).2)) ∧ j_action row = TRIM ∧
      j_stream_key row = td_key e.
Proof.
  apply (maintenance_trims_safely demo_settings true 60000000 5 5000000 (λ _, JNull) (λ _, []) (ltac:(done)) (ltac:(done)) 7 "WORKER" trimming_world
    (execute_demo trimming_world).1 (execute_demo trimming_world).2); [|apply surjective_pairing].
  apply demo_good; [eapply step_jobs_ok; [apply demo_inserted|apply demo_empty_ok]|]. repeat (apply Forall_cons_2; [apply demo_fair; lia|]). apply Forall_nil_2.
Defined.

Definition create_demo : proc mworld ((N * job_row) * bool) := create_operation demo_settings demo_digest 7 TRIM "op" demo_request.
Lemma demo_creates_job : (create_demo demo_world).1 = Ok ((7%N, demo_job), false).
Proof. by vm_compute. Qed.
Lemma demo_creates : create_demo demo_world = (Ok ((7%N, demo_job), false), (create_demo demo_world).2).
Proof. rewrite <- demo_creates_job. apply surjective_pairing. Qed.

Lemma job_created_once_witness :
  ∃ retention minimum, resolve_policy demo_settings demo_request = Ok (retention, minimum) ∧ "op" ∈ ms_operators demo_settings ∧
    is_Some (assoc (mr_stream demo_request) (ms_streams demo_settings)) ∧
    created "op" (mr_idempotency_key demo_request) (demo_digest (hash_payload TRIM demo_request retention minimum)) (7%N, demo_job)
      (m_jobs (mw_state (create_demo demo_world).2)) ∧
    mw_log (create_demo demo_world).2 = mw_log demo_world ∧
    job_runs demo_settings (m_jobs (mw_state demo_world)) (m_jobs (mw_state (create_demo demo_world).2)) ∧
    ∀ d id2 row2, job_runs demo_settings (m_jobs (mw_state (create_demo demo_world).2)) d → d !! id2 = Some row2 → j_created_by row2 = "op" →
      j_idempotency_key row2 = mr_idempotency_key demo_request → id2 = (7%N, demo_job).1.
Proof.
  apply (job_created_once demo_settings demo_digest 7 TRIM "op" demo_request demo_world (7%N, demo_job) false (create_demo demo_world).2);
    [|exact demo_creates].
  apply demo_good; [apply demo_empty_ok|]. repeat (apply Forall_cons_2; [apply demo_fair; lia|]). apply Forall_nil_2.
Defined.

(** A worker whose claim timed out: another one claimed the job again. *)
Definition reclaimed_job_row : job_row := set_job (seconds 90) "WORKER" JOB_RUNNING 2 (seconds 5) (Some (seconds 90)) None None claimed_job_row.

Lemma demo_reclaimed : claim_job (seconds 90) 7 60000000 "WORKER" (<[7%N := claimed_job_row]> demo_jobs) =
  Ok (Some reclaimed_job_row, <[7%N := reclaimed_job_row]> (<[7%N := claimed_job_row]> demo_jobs)).
Proof. by vm_compute. Qed.

Lemma claim_fencing_witness :
  let d3 := <[7%N := reclaimed_job_row]> (<[7%N := claimed_job_row]> demo_jobs) in
  (∀ now' result actor', succeed_job now' 7 1 result actor' d3 = Err (job_conflict "Maintenance claim was superseded")) ∧
  (∀ now' error mx retry actor', fail_job now' 7 1 error mx retry actor' d3 = Err (job_conflict "Maintenance claim was superseded")) ∧
  (is_active (j_state reclaimed_job_row) = false → d3 !! 7%N = Some reclaimed_job_row).
Proof.
  apply (claim_fencing demo_settings (seconds 6) 7 60000000 "WORKER" demo_jobs (<[7%N := claimed_job_row]> demo_jobs)
    (<[7%N := reclaimed_job_row]> (<[7%N := claimed_job_row]> demo_jobs)) (<[7%N := reclaimed_job_row]> (<[7%N := claimed_job_row]> demo_jobs))
    claimed_job_row reclaimed_job_row); [exact demo_claimed| |by vm_compute|by intros [_ [=]]|apply rtc_refl].
  eapply rtc_once, step_claim, demo_reclaimed.
Defined.
End OneJob.
