(* ===== verification/Results.v ===== *)
(** * Result files of an execution ([ex_agent/executor/results.py])

    The previews of result files that a report or a decision is given: which
    files are opened, what is checked of them and how much of them is kept.
    The file system, UTF-8 decoding, SHA-256 and json are parameters. *)

From stdpp Require Import base gmap strings list.
From Stdlib Require Import Ascii ZArith Lia.
From S2P Require Import Prelude Text WorkerContracts.
Local Open Scope Z_scope.
Set Default Proof Using "Type".

(** [StepResult], [ResultStep], [ResultOperation] and the identity of
    [ExecutionResult] ([ex_agent/executor/contracts.py]) *)
Record StepResult := mk_step_result {
  sr_status : string;
  sr_output_summary : json;
  sr_error_message : option string;
  sr_result_ref : option (list (string * json))
}.
Record ResultStep := mk_result_step { rs_step_id : uuid; rs_sequence : Z; rs_lineage : json; rs_result : StepResult }.
Record ResultOperation := mk_result_operation { ro_operation_number : Z; ro_steps : list ResultStep }.
Record result_of_execution := mk_result_of { re_execution_id : uuid; re_operations : list ResultOperation }.

(** A text that was decoded: its code points. *)
Abbreviation text := (list N) (only parsing).

Record output_preview := mk_preview {
  op_ordinal : option json;
  op_kind : option json;
  op_stream_name : option json;
  op_media_type : string;
  op_content : text;
  op_truncated : bool
}.
Record step_summary := mk_summary {
  ss_operation_number : Z;
  ss_step_id : uuid;
  ss_sequence : Z;
  ss_lineage : json;
  ss_result : StepResult;
  ss_result_ref : option (option json * option json);
  ss_output_previews : list output_preview
}.

Definition text_media_types : list string := ["application/json"; "text/csv"; "text/html"; "text/markdown"; "text/plain"].

(** [path] with its components, as [Path.resolve] returns it. *)
Abbreviation path := (list string) (only parsing).

(** The [n] first bytes. *)
Fixpoint prefix (n : nat) (s : string) : string :=
  match n, s with S n', String c s' => String c (prefix n' s') | _, _ => "" end.

(** [_required_string], [_required_int] *)
Definition required_string (value : list (string * json)) (key : string) : result string :=
  match assoc key value with
  | Some (JStr s) => if String.eqb s "" then Err (ValueError ("Executor result_ref " +:+ key +:+ " must be a string")) else Ok s
  | _ => Err (ValueError ("Executor result_ref " +:+ key +:+ " must be a string"))
  end.
Definition required_int (value : list (string * json)) (key : string) : result Z :=
  match assoc key value with
  | Some (JInt z) => Ok z
  | _ => Err (ValueError ("Executor result_ref " +:+ key +:+ " must be an integer"))
  end.

(** What [dict.get] returns, and Python's [==] of two such values: a boolean
    equals its number. *)
Definition or_null (value : option json) : json :=
  match default JNull value with JBool b => JInt (if b then 1 else 0) | j => j end.

(** [dict.get] is [True] *)
Definition is_true (key : string) (value : list (string * json)) : bool := bool_decide (assoc key value = Some (JBool true)).

Section Results.
Context `{EventCodec} (sha256 : string → string) (decode : string → text) (py_str : option json → string).
(** [(root / relative).resolve()], whether a text is an absolute path, and
    what reading the file at a path returns: its chunks in order. *)
Context (is_absolute : string → bool) (resolve : path → string → path) (open_file : path → result (list string)).

(** [_safe_path] *)
Definition safe_path (root : path) (relative_path : string) : result path :=
  raise_if (is_absolute relative_path) (ValueError "Executor result path must be relative");;
  let resolved := resolve root relative_path in
  raise_if (negb (bool_decide (root `prefix_of` resolved))) (ValueError "Executor result path escaped shared storage");;
  Ok resolved.

(** The loop of [_read_verified_file] over the chunks. *)
Fixpoint read_chunks (chunks : list string) (preview_bytes : Z) (size : Z) (content preview : string) : Z * string * string :=
  match chunks with
  | [] => (size, content, preview)
  | chunk :: chunks' =>
      let preview' := if Z.of_nat (String.length preview) <? preview_bytes
                      then preview +:+ prefix (Z.to_nat (preview_bytes - Z.of_nat (String.length preview))) chunk else preview in
      read_chunks chunks' preview_bytes (size + Z.of_nat (String.length chunk)) (content +:+ chunk) preview'
  end.

(** [_read_verified_file]; the digest is that of all bytes read. *)
Definition read_verified_file (file : path) (expected_size : Z) (expected_sha256 : string) (preview_bytes : Z) : result (string * bool) :=
  raise_if (expected_size <? 0) (ValueError "Executor result size cannot be negative");;
  chunks ← open_file file;
  let '(actual_size, content, preview) := read_chunks chunks preview_bytes 0 "" "" in
  raise_if (negb (actual_size =? expected_size)) (ValueError "Executor result file size mismatch");;
  raise_if (negb (String.eqb (sha256 content) expected_sha256)) (ValueError "Executor result file checksum mismatch");;
  Ok (preview, Z.of_nat (String.length preview) <? actual_size).

(** [_validate_manifest_identity] *)
Definition validate_manifest_identity (manifest : list (string * json)) (execution_id : uuid) (step : ResultStep) (reference : list (string * json)) : result unit :=
  raise_if (negb (is_true "complete" manifest)) (ValueError "Executor result manifest is incomplete");;
  identity ← match assoc "identity" manifest with Some (JObj l) => Ok l | _ => Err (ValueError "Executor result manifest identity is missing") end;
  let expected := [("execution_id", Some (JStr (uuid_str execution_id))); ("step_id", Some (JStr (uuid_str (rs_step_id step))));
                   ("execution_attempt_id", Some (JStr (py_str (assoc "attempt_id" reference)))); ("fencing_token", assoc "fencing_token" reference)] in
  raise_if (existsb (λ kv, negb (bool_decide (or_null (assoc kv.1 identity) = or_null kv.2))) expected)
    (ValueError "Executor result manifest identity mismatch").

(** One representation: skipped, or a preview. *)
Definition read_representation (manifest_dir : path) (output : list (string * json)) (representation : json) (max_chars consumed : Z)
    : result (option output_preview) :=
  representation ← match representation with JObj l => Ok l | _ => Err (ValueError "Executor result representation must be an object") end;
  raise_if (negb (is_true "complete" representation)) (ValueError "Executor result representation is incomplete");;
  let media_type := match assoc "media_type" representation with None => "" | m => py_str m end in
  if negb (bool_decide (media_type ∈ text_media_types)) || (max_chars <=? consumed) then Ok None else
  relative ← required_string representation "relative_path";
  file ← safe_path manifest_dir relative;
  let allowed_chars := max_chars - consumed in
  size ← required_int representation "size_bytes";
  checksum ← required_string representation "checksum_sha256";
  '(content, truncated) ← read_verified_file file size checksum (Z.max (allowed_chars * 4) 1);
  let text := decode content in
  let bounded := take (Z.to_nat allowed_chars) text in
  Ok (Some (mk_preview (assoc "ordinal" output) (assoc "kind" output) (assoc "stream_name" output) media_type bounded
    (truncated || bool_decide (length bounded < length text)%nat))).

Fixpoint read_representations (manifest_dir : path) (output : list (string * json)) (representations : list json) (max_chars consumed : Z)
    : result (list output_preview * Z) :=
  match representations with
  | [] => Ok ([], consumed)
  | r :: representations' =>
      p ← read_representation manifest_dir output r max_chars consumed;
      let consumed' := match p with Some p => consumed + Z.of_nat (length (op_content p)) | None => consumed end in
      '(ps, consumed'') ← read_representations manifest_dir output representations' max_chars consumed';
      Ok (option_list p ++ ps, consumed'')
  end.

Fixpoint read_outputs (manifest_dir : path) (outputs : list json) (max_chars consumed : Z) : result (list output_preview * Z) :=
  match outputs with
  | [] => Ok ([], consumed)
  | o :: outputs' =>
      output ← match o with JObj l => Ok l | _ => Err (ValueError "Executor result output must be an object") end;
      representations ← iterate (default (JArr []) (assoc "representations" output));
      '(ps, consumed') ← read_representations manifest_dir output representations max_chars consumed;
      '(qs, consumed'') ← read_outputs manifest_dir outputs' max_chars consumed';
      Ok (ps ++ qs, consumed'')
  end.

(** [_read_result_preview] *)
Definition read_result_preview (root : path) (execution_id : uuid) (step : ResultStep) (reference : list (string * json)) (max_chars max_manifest_bytes : Z)
    : result (list output_preview * Z) :=
  raise_if (negb (bool_decide (assoc "storage" reference = Some (JStr "SHARED_PV")))) (ValueError "Executor result_ref storage must be SHARED_PV");;
  raise_if (negb (String.eqb (py_str (assoc "execution_id" reference)) (uuid_str execution_id))) (ValueError "Executor result_ref execution identity mismatch");;
  raise_if (negb (String.eqb (py_str (assoc "step_id" reference)) (uuid_str (rs_step_id step)))) (ValueError "Executor result_ref step identity mismatch");;
  raise_if (negb (is_true "complete" reference)) (ValueError "Executor result_ref is incomplete");;
  relative_path ← required_string reference "relative_path";
  manifest_path ← safe_path root relative_path;
  size ← required_int reference "size_bytes";
  raise_if (max_manifest_bytes <? size) (ValueError "Executor result manifest exceeds size limit");;
  checksum ← required_string reference "checksum_sha256";
  '(raw, _) ← read_verified_file manifest_path size checksum max_manifest_bytes;
  parsed ← json_loads raw;
  manifest ← match parsed with JObj l => Ok l | _ => Err (ValueError "Executor result manifest must be an object") end;
  validate_manifest_identity manifest execution_id step reference;;
  outputs ← iterate (default (JArr []) (assoc "outputs" manifest));
  read_outputs (removelast manifest_path) outputs max_chars 0.

(** The summary of a step, with what remains of the context. *)
Definition summarize_step (root : path) (execution_id : uuid) (operation_number : Z) (step : ResultStep) (remaining max_manifest_bytes : Z)
    : result (step_summary * Z) :=
  let summary := mk_summary operation_number (rs_step_id step) (rs_sequence step) (rs_lineage step) (rs_result step) in
  match sr_result_ref (rs_result step) with
  | None => Ok (summary None [], remaining)
  | Some reference =>
      '(previews, consumed) ← read_result_preview root execution_id step reference remaining max_manifest_bytes;
      Ok (summary (Some (assoc "relative_path" reference, assoc "checksum_sha256" reference)) previews, remaining - consumed)
  end.

Fixpoint summarize_steps (root : path) (execution_id : uuid) (steps : list (Z * ResultStep)) (remaining max_manifest_bytes : Z) : result (list step_summary) :=
  match steps with
  | [] => Ok []
  | (operation_number, step) :: steps' =>
      '(summary, remaining') ← summarize_step root execution_id operation_number step remaining max_manifest_bytes;
      rest ← summarize_steps root execution_id steps' remaining' max_manifest_bytes;
      Ok (summary :: rest)
  end.

(** [_validated_result_summaries]; [root] is resolved. *)
Definition validated_result_summaries (r : result_of_execution) (root : path) (max_context_chars max_manifest_bytes : Z) : result (list step_summary) :=
  summarize_steps root (re_execution_id r) (concat (map (λ o, map (λ s, (ro_operation_number o, s)) (ro_steps o)) (re_operations r)))
    max_context_chars max_manifest_bytes.
End Results.
