(* ===== verification/ResultsProps.v ===== *)
(** * What the previews of result files are

    The previews of all steps fit the context they are made for, and each is
    the beginning of a file under the shared root whose size and digest are
    those of a manifest that is itself verified and names the step. *)

From stdpp Require Import base gmap strings list.
From Stdlib Require Import Ascii ZArith Lia.
From S2P Require Import Prelude Text WorkerContracts Results.
Local Open Scope Z_scope.
Set Default Proof Using "Type".

(** ** Bytes *)

Lemma string_length_app s t : String.length (s +:+ t) = (String.length s + String.length t)%nat.
Proof. induction s as [|c s IH]; [done|]. change (String.length (String c s +:+ t)) with (S (String.length (s +:+ t))). simpl. by rewrite IH. Qed.

Lemma prefix_length n s : String.length (prefix n s) = min n (String.length s).
Proof. revert s. induction n as [|n IH]; intros [|c s]; simpl; [done..|]. by rewrite IH. Qed.
Lemma prefix_all n s : (String.length s ≤ n)%nat → prefix n s = s.
Proof. revert s. induction n as [|n IH]; intros [|c s] Hl; simpl in *; [done|lia|done|]. by rewrite IH by lia. Qed.
Lemma prefix_app n s t : (String.length s ≤ n)%nat → prefix n (s +:+ t) = s +:+ prefix (n - String.length s) t.
Proof.
  revert n. induction s as [|c s IH]; intros n Hl; [by rewrite Nat.sub_0_r|]. destruct n as [|n]; simpl in Hl; [lia|].
  change (String c (prefix n (s +:+ t)) = String c (s +:+ prefix (n - String.length s) t)). by rewrite IH by lia.
Qed.
Lemma prefix_stop n s t : (n ≤ String.length s)%nat → prefix n (s +:+ t) = prefix n s.
Proof. revert s. induction n as [|n IH]; intros [|c s] Hl; simpl in *; [by destruct t|done|lia|]. f_equal. apply IH. lia. Qed.

Fixpoint join_chunks (chunks : list string) : string := match chunks with [] => "" | c :: cs => c +:+ join_chunks cs end.

(** The loop reads everything and keeps the first bytes. *)
Lemma read_chunks_spec chunks n size content preview : 0 ≤ n → size = Z.of_nat (String.length content) → preview = prefix (Z.to_nat n) content →
  read_chunks chunks n size content preview =
  (Z.of_nat (String.length (content +:+ join_chunks chunks)), content +:+ join_chunks chunks, prefix (Z.to_nat n) (content +:+ join_chunks chunks)).
Proof.
  intros Hn. revert size content preview. induction chunks as [|c chunks IH]; intros size content preview -> ->; cbn [read_chunks join_chunks].
  { by rewrite string_app_nil. }
  rewrite <- string_app_assoc. apply IH; [rewrite string_length_app; lia|]. rewrite prefix_length.
  destruct (Z.ltb_spec (Z.of_nat (min (Z.to_nat n) (String.length content))) n) as [Hlt|Hge].
  - rewrite (prefix_all _ content), prefix_app by lia. do 2 f_equal. lia.
  - by rewrite prefix_stop by lia.
Qed.

Section Props.
Context `{EventCodec} (sha256 : string → string) (decode : string → list N) (py_str : option json → string).
Context (is_absolute : string → bool) (resolve : list string → string → list string) (open_file : list string → result (list string)).

Abbreviation read_verified_file := (read_verified_file sha256 open_file).
Abbreviation read_representation := (read_representation sha256 decode py_str is_absolute resolve open_file).
Abbreviation read_representations := (read_representations sha256 decode py_str is_absolute resolve open_file).
Abbreviation read_outputs := (read_outputs sha256 decode py_str is_absolute resolve open_file).
Abbreviation read_result_preview := (read_result_preview sha256 decode py_str is_absolute resolve open_file).
Abbreviation summarize_step := (summarize_step sha256 decode py_str is_absolute resolve open_file).
Abbreviation summarize_steps := (summarize_steps sha256 decode py_str is_absolute resolve open_file).
Abbreviation validated_result_summaries := (validated_result_summaries sha256 decode py_str is_absolute resolve open_file).

Lemma read_verified_file_Ok file size checksum n preview truncated : 0 ≤ n →
  read_verified_file file size checksum n = Ok (preview, truncated) →
  ∃ chunks, open_file file = Ok chunks ∧ let content := join_chunks chunks in
    Z.of_nat (String.length content) = size ∧ sha256 content = checksum ∧ preview = prefix (Z.to_nat n) content ∧
    truncated = (n <? size).
Proof.
  intros Hn. unfold Results.read_verified_file. intros Hr. apply raise_if_then in Hr as [_ Hr]. apply result_bind_Ok in Hr as (chunks & Hc & Hr).
  rewrite (read_chunks_spec chunks n 0 "" "") in Hr by (done || by destruct (Z.to_nat n)). cbn match in Hr.
  change ("" +:+ join_chunks chunks) with (join_chunks chunks) in Hr.
  apply raise_if_then in Hr as [Hs Hr]. apply raise_if_then in Hr as [Hd [= <- <-]].
  apply negb_false_iff in Hs, Hd. apply Z.eqb_eq in Hs. apply String.eqb_eq in Hd. exists chunks. split; [done|]. split; [done|]. split; [done|]. split; [done|].
  rewrite prefix_length, Hs. destruct (Z.ltb_spec (Z.of_nat (min (Z.to_nat n) (String.length (join_chunks chunks)))) size), (Z.ltb_spec n size); done || lia.
Qed.

(** ** Previews *)

(** A preview of the file a representation of an output names, below [dir]:
    the file has the size and the digest the representation gives. *)
Definition preview_of (dir : list string) (output representation : list (string * json)) (p : output_preview) : Prop :=
  op_ordinal p = assoc "ordinal" output ∧ op_kind p = assoc "kind" output ∧ op_stream_name p = assoc "stream_name" output ∧
  is_true "complete" representation = true ∧
  ∃ relative chunks n, assoc "relative_path" representation = Some (JStr relative) ∧
    dir `prefix_of` resolve dir relative ∧ open_file (resolve dir relative) = Ok chunks ∧
    assoc "size_bytes" representation = Some (JInt (Z.of_nat (String.length (join_chunks chunks)))) ∧
    assoc "checksum_sha256" representation = Some (JStr (sha256 (join_chunks chunks))) ∧
    op_content p = take (Z.to_nat n) (decode (prefix (Z.to_nat (Z.max (n * 4) 1)) (join_chunks chunks))) ∧
    (op_truncated p = false → op_content p = decode (join_chunks chunks)) ∧ op_media_type p ∈ text_media_types.

(** ... for an output and a representation that the manifest lists. *)
Definition listed_output (outputs : list json) (output representation : list (string * json)) : Prop :=
  ∃ representations, JObj output ∈ outputs ∧
    iterate (default (JArr []) (assoc "representations" output)) = Ok representations ∧ JObj representation ∈ representations.
Definition verified_preview (dir : list string) (outputs : list json) (p : output_preview) : Prop :=
  ∃ output representation, listed_output outputs output representation ∧ preview_of dir output representation p.

Lemma required_string_Ok v k s : required_string v k = Ok s → assoc k v = Some (JStr s).
Proof. unfold required_string. destruct (assoc k v) as [[]|]; try done. destruct (String.eqb _ _); [done|]. by intros [= ->]. Qed.
Lemma required_int_Ok v k z : required_int v k = Ok z → assoc k v = Some (JInt z).
Proof. unfold required_int. destruct (assoc k v) as [[]|]; try done. by intros [= ->]. Qed.
Lemma safe_path_Ok root rel file : safe_path is_absolute resolve root rel = Ok file → file = resolve root rel ∧ root `prefix_of` file.
Proof.
  unfold safe_path. intros Hs. apply raise_if_then in Hs as [_ Hs]. apply raise_if_then in Hs as [Hp [= <-]].
  split; [done|]. by apply negb_false_iff, bool_decide_eq_true in Hp.
Qed.

Lemma read_representation_Ok dir output r max consumed p : read_representation dir output r max consumed = Ok (Some p) →
  ∃ rep, r = JObj rep ∧ preview_of dir output rep p ∧ Z.of_nat (length (op_content p)) ≤ max - consumed.
Proof.
  unfold Results.read_representation. intros Hr. apply result_bind_Ok in Hr as (rep & Hrep & Hr). apply raise_if_then in Hr as [Hcomplete Hr].
  set (media := match assoc "media_type" rep with None => "" | m => py_str m end) in *.
  destruct (negb (bool_decide (media ∈ text_media_types)) || (max <=? consumed)) eqn:Hm; [done|].
  apply orb_false_iff in Hm as [Hm%negb_false_iff%bool_decide_eq_true Hlt%Z.leb_gt].
  apply result_bind_Ok in Hr as (rel & Hrel%required_string_Ok & Hr). apply result_bind_Ok in Hr as (file & [-> Hf]%safe_path_Ok & Hr).
  apply result_bind_Ok in Hr as (size & Hsize%required_int_Ok & Hr). apply result_bind_Ok in Hr as (checksum & Hsum%required_string_Ok & Hr).
  apply result_bind_Ok in Hr as ([content truncated] & Hv & [= <-]). apply read_verified_file_Ok in Hv as (chunks & Ho & Hl & Hd & -> & ->); [|lia].
  exists rep. split; [by destruct r; try done; injection Hrep as ->|]. split; [|cbn; rewrite length_take; lia]. apply negb_false_iff in Hcomplete.
  do 4 (split; [done|]). exists rel, chunks, (max - consumed). cbn. do 3 (split; [done|]). split; [by rewrite Hl|]. split; [by rewrite Hd|]. split; [done|]. split; [|done].
  intros [Ht%Z.ltb_ge Hb%bool_decide_eq_false]%orb_false_iff. rewrite prefix_all in * by lia. apply take_ge. rewrite length_take in Hb. lia.
Qed.

(** The previews of a list fit, and the counter says how much they take. *)
Definition previews_ok (P : output_preview → Prop) (max consumed : Z) (r : list output_preview * Z) : Prop :=
  Forall P r.1 ∧ r.2 = consumed + Z.of_nat (list_sum (map (λ p, length (op_content p)) r.1)) ∧ (consumed ≤ max → r.2 ≤ max).

Lemma read_representations_Ok dir output l max consumed r : read_representations dir output l max consumed = Ok r →
  previews_ok (λ p, ∃ rep, JObj rep ∈ l ∧ preview_of dir output rep p) max consumed r.
Proof.
  revert consumed r. induction l as [|x l IH]; intros consumed r; cbn [Results.read_representations].
  { intros [= <-]. split; [done|]. cbn. split; [lia|done]. }
  intros (p & Hp & Hr)%result_bind_Ok. apply result_bind_Ok in Hr as ([ps c] & Hps & [= <-]). destruct (IH _ _ Hps) as (Hv & Hc & Hm). cbn [fst snd] in *.
  assert (Hv' : Forall (λ p, ∃ rep, JObj rep ∈ x :: l ∧ preview_of dir output rep p) ps).
  { eapply Forall_impl; [exact Hv|]. intros q (rep & Hin & Hq). exists rep. split; [by right|done]. }
  destruct p as [p|].
  - change (option_list (Some p) ++ ps) with (p :: ps). apply read_representation_Ok in Hp as (rep & -> & Hp & Hlen).
    split; [apply Forall_cons_2; [exists rep; by split; [left|]|done]|]. unfold list_sum in *. cbn [option_list app map foldr fst snd] in *. split; [lia|]. intros _. apply Hm. lia.
  - by split.
Qed.

Lemma read_outputs_Ok dir l max consumed r : read_outputs dir l max consumed = Ok r → previews_ok (verified_preview dir l) max consumed r.
Proof.
  revert consumed r. induction l as [|x l IH]; intros consumed r; cbn [Results.read_outputs].
  { intros [= <-]. split; [done|]. cbn. split; [lia|done]. }
  intros (o & Ho & Hr)%result_bind_Ok. apply result_bind_Ok in Hr as (reps & Hreps & Hr). apply result_bind_Ok in Hr as ([ps c] & Hps & Hr).
  apply result_bind_Ok in Hr as ([qs c'] & Hqs & [= <-]). apply read_representations_Ok in Hps as (V1 & C1 & M1). destruct (IH _ _ Hqs) as (V2 & C2 & M2).
  cbn [fst snd] in *. assert (x = JObj o) as -> by (destruct x; try done; by injection Ho as ->). split.
  { apply Forall_app_2; [eapply Forall_impl; [exact V1|]|eapply Forall_impl; [exact V2|]].
    - intros p (rep & Hin & Hp). exists o, rep. split; [|done]. exists reps. split; [by left|done].
    - intros p (o' & rep & (reps' & Hin & Hr') & Hp). exists o', rep. split; [|done]. exists reps'. split; [by right|done]. } cbn [fst snd]. rewrite map_app, list_sum_app. split; [lia|]. intros Hle. by apply M2, M1.
Qed.

(** The manifest of a step: the file its reference names, with the size and
    digest of the reference, which names the execution and the step and lists
    the outputs. *)
Definition verified_manifest (root : list string) (execution_id : uuid) (step : ResultStep) (file : list string) (outputs : list json) : Prop :=
  ∃ reference chunks manifest, sr_result_ref (rs_result step) = Some reference ∧ root `prefix_of` file ∧ open_file file = Ok chunks ∧
    assoc "size_bytes" reference = Some (JInt (Z.of_nat (String.length (join_chunks chunks)))) ∧
    assoc "checksum_sha256" reference = Some (JStr (sha256 (join_chunks chunks))) ∧
    json_loads (join_chunks chunks) = Ok (JObj manifest) ∧ validate_manifest_identity py_str manifest execution_id step reference = Ok tt ∧
    iterate (default (JArr []) (assoc "outputs" manifest)) = Ok outputs.

Lemma read_result_preview_Ok root execution_id step reference max max_bytes r : 0 ≤ max_bytes → sr_result_ref (rs_result step) = Some reference →
  read_result_preview root execution_id step reference max max_bytes = Ok r →
  ∃ file outputs, verified_manifest root execution_id step file outputs ∧ previews_ok (verified_preview (removelast file) outputs) max 0 r.
Proof.
  intros Hmax Href. unfold Results.read_result_preview. intros Hr. do 4 apply raise_if_then in Hr as [_ Hr].
  apply result_bind_Ok in Hr as (rel & _ & Hr). apply result_bind_Ok in Hr as (file & [_ Hf]%safe_path_Ok & Hr).
  apply result_bind_Ok in Hr as (size & Hsize%required_int_Ok & Hr). apply raise_if_then in Hr as [Hle%Z.ltb_ge Hr].
  apply result_bind_Ok in Hr as (checksum & Hsum%required_string_Ok & Hr). apply result_bind_Ok in Hr as ([raw tr] & Hv & Hr).
  apply read_verified_file_Ok in Hv as (chunks & Ho & Hl & Hd & -> & _); [|done]. rewrite prefix_all in Hr by lia.
  apply result_bind_Ok in Hr as (parsed & Hj & Hr). apply result_bind_Ok in Hr as (manifest & Hm & Hr).
  destruct parsed; try done. injection Hm as ->. apply result_bind_Ok in Hr as (u & Hi & Hr). destruct u.
  apply result_bind_Ok in Hr as (outputs & Hout & Hr%read_outputs_Ok). exists file, outputs. split; [|done].
  exists reference, chunks, manifest. rewrite Hl, Hd. done.
Qed.

(** What a summary shows. *)
Definition summary_ok (root : list string) (execution_id : uuid) (step : ResultStep) (s : step_summary) : Prop :=
  ss_step_id s = rs_step_id step ∧ ss_result s = rs_result step ∧
  (ss_output_previews s = [] ∨ ∃ file outputs, verified_manifest root execution_id step file outputs ∧ root `prefix_of` removelast file ∧
    Forall (verified_preview (removelast file) outputs) (ss_output_previews s)).

Definition preview_chars (s : step_summary) : nat := list_sum (map (λ p, length (op_content p)) (ss_output_previews s)).

(** The files next to a file below the root, which is a directory. *)
Lemma below_root (root file : list string) : root `prefix_of` file → file ≠ root → root `prefix_of` removelast file.
Proof. intros [k ->] Hk. rewrite removelast_app; [by eexists|]. intros ->. by rewrite app_nil_r in Hk. Qed.

Lemma summarize_step_Ok root execution_id n step remaining max_bytes s remaining' : (∀ chunks, open_file root ≠ Ok chunks) → 0 ≤ max_bytes → 0 ≤ remaining →
  summarize_step root execution_id n step remaining max_bytes = Ok (s, remaining') →
  summary_ok root execution_id step s ∧ remaining' = remaining - Z.of_nat (preview_chars s) ∧ 0 ≤ remaining'.
Proof.
  intros Hroot Hmax Hrem. unfold Results.summarize_step. destruct (sr_result_ref (rs_result step)) as [reference|] eqn:Href.
  - intros ([ps c] & Hp & [= <- <-])%result_bind_Ok. apply (read_result_preview_Ok root execution_id step reference) in Hp as (file & outputs & Hm & Hv & Hc & Hle); [|done..].
    cbn [fst snd] in *. specialize (Hle Hrem). split; [|unfold preview_chars; cbn [ss_output_previews]; lia]. split; [done|]. split; [done|]. right. exists file, outputs. split; [done|].
    split; [|done]. destruct Hm as (ref & chunks & m & _ & Hp & Ho & _). apply below_root; [done|]. intros ->. by destruct (Hroot chunks).
  - intros [= <- <-]. split; [|cbn; lia]. split; [done|]. split; [done|by left].
Qed.

(** The steps of a result, in order. *)
Definition steps_of (r : result_of_execution) : list ResultStep := concat (map ro_steps (re_operations r)).

(** C40. The previews of a result fit the context they are made for and show
    verified files only: there is one summary per step, in order; together
    their previews are at most as long as the context; and each preview is the
    beginning of the file below the shared root that a representation names
    which the manifest of the step lists under one of its outputs, and that
    file has the size and digest the representation gives; the manifest has the
    size and digest the step's reference gives and names the execution and the
    step. A preview that does not say that it is truncated is the whole file. *)
Theorem previews_bounded_and_verified r root max max_bytes out : (∀ chunks, open_file root ≠ Ok chunks) → 0 ≤ max → 0 ≤ max_bytes →
  validated_result_summaries r root max max_bytes = Ok out →
  Z.of_nat (list_sum (map preview_chars out)) ≤ max ∧ Forall2 (summary_ok root (re_execution_id r)) (steps_of r) out.
Proof.
  intros Hroot Hmax Hbytes. unfold Results.validated_result_summaries, steps_of.
  replace (concat (map ro_steps (re_operations r))) with (map snd (concat (map (λ o, map (λ s, (ro_operation_number o, s)) (ro_steps o)) (re_operations r)))).
  2:{ rewrite concat_map, map_map. f_equal. apply map_ext. intros o. rewrite map_map. apply map_id. }
  generalize (concat (map (λ o, map (λ s, (ro_operation_number o, s)) (ro_steps o)) (re_operations r))). intros l. revert max Hmax out.
  induction l as [|[n step] l IH]; intros max Hmax out; cbn [Results.summarize_steps map snd].
  { intros [= <-]. cbn. split; [lia|constructor]. }
  intros ([s rem] & Hs & Hr)%result_bind_Ok. apply result_bind_Ok in Hr as (rest & Hrest & [= <-]).
  destruct (summarize_step_Ok root (re_execution_id r) n step max max_bytes s rem Hroot Hbytes Hmax Hs) as (Hok & -> & Hrem).
  destruct (IH _ Hrem _ Hrest) as [Hsum Hall]. split; [unfold list_sum in *; cbn [map foldr]; lia|by constructor].
Qed.
End Props.

(** ** One file

    A step whose manifest names one text file, of which the context takes the
    first characters. *)

Module OneFile.
(** Digests name their texts here; the manifest is the only text json reads. *)
Definition demo_digest (s : string) : string := "sha-" +:+ s.
Definition demo_decode (s : string) : list N := map Ascii.N_of_ascii (String.list_ascii_of_string s).
Definition demo_py_str (value : option json) : string := match value with Some (JStr s) => s | _ => "None" end.

Definition file_text : string := "id,name".
Definition manifest_text : string := "manifest".
Definition demo_manifest : json :=
  JObj [("complete", JBool true);
        ("identity", JObj [("execution_id", JStr (uuid_str 1)); ("step_id", JStr (uuid_str 2)); ("execution_attempt_id", JStr "a1"); ("fencing_token", JInt 3)]);
        ("outputs", JArr [JObj [("kind", JStr "TABLE"); ("ordinal", JInt 0);
          ("representations", JArr [JObj [("complete", JBool true); ("media_type", JStr "text/csv"); ("relative_path", JStr "table.csv");
            ("size_bytes", JInt 7); ("checksum_sha256", JStr (demo_digest file_text))]])]])].

#[export] Instance manifest_codec : EventCodec.
Proof.
  refine (Build_EventCodec (λ s, if String.eqb s manifest_text then Ok demo_manifest else Err (ValueError "Expecting value"))
    (@model_validate DemoCodec.codec) (@model_dump DemoCodec.codec) _ _ _ _).
  - intros s e. destruct (String.eqb s manifest_text); [done|]. intros [= <-]. by eexists.
  - apply DemoCodec.codec.
  - apply DemoCodec.codec.
  - apply DemoCodec.codec.
Defined.

Definition shared_root : list string := ["shared"].
Definition demo_resolve (root : list string) (relative : string) : list string := root ++ [relative].
Definition demo_open (file : list string) : result (list string) :=
  if bool_decide (file = ["shared"; "manifest.json"]) then Ok ["mani"; "fest"]
  else if bool_decide (file = ["shared"; "table.csv"]) then Ok ["id,"; "name"]
  else Err (OtherException "FileNotFoundError" "").

Definition demo_reference : list (string * json) :=
  [("storage", JStr "SHARED_PV"); ("execution_id", JStr (uuid_str 1)); ("step_id", JStr (uuid_str 2)); ("complete", JBool true);
   ("relative_path", JStr "manifest.json"); ("size_bytes", JInt 8); ("checksum_sha256", JStr (demo_digest manifest_text));
   ("attempt_id", JStr "a1"); ("fencing_token", JInt 3)].
Definition demo_step : ResultStep := mk_result_step 2 1 (JObj []) (mk_step_result "SUCCEEDED" (JObj []) None (Some demo_reference)).
Definition demo_result : result_of_execution := mk_result_of 1 [mk_result_operation 1 [demo_step]].
Definition demo_summaries : result (list step_summary) :=
  validated_result_summaries demo_digest demo_decode demo_py_str (λ _, false) demo_resolve demo_open demo_result shared_root 4 1000.

Definition demo_preview : output_preview := mk_preview (Some (JInt 0)) (Some (JStr "TABLE")) None "text/csv" (demo_decode "id,n") true.
Definition demo_summary : step_summary :=
  mk_summary 1 2 1 (JObj []) (rs_result demo_step) (Some (Some (JStr "manifest.json"), Some (JStr (demo_digest manifest_text)))) [demo_preview].

Lemma demo_previews : demo_summaries = Ok [demo_summary].
Proof. by vm_compute. Qed.

Lemma previews_bounded_and_verified_witness :
  Z.of_nat (list_sum (map preview_chars [demo_summary])) ≤ 4 ∧
  Forall2 (summary_ok demo_digest demo_decode demo_py_str demo_resolve demo_open shared_root 1) (steps_of demo_result) [demo_summary].
Proof.
  apply (previews_bounded_and_verified demo_digest demo_decode demo_py_str (λ _, false) demo_resolve demo_open demo_result shared_root 4 1000 [demo_summary]);
    [by vm_compute|lia|lia|exact demo_previews].
Defined.
End OneFile.
