(* ===== verification/FailureOperations.v ===== *)
(** * Operator calls on failed cleanups
    ([agent/failure/operations.py], [agent/failure/contracts.py],
    [ex_agent/api/routers/failures.py])

    Authorised listing, reading, retrying and finalizing of the cleanups that
    stopped in the state BLOCKED, and the HTTP statuses of the routes. The
    execution of a cleanup is the argument [execute], which
    [FailureService.execute_cleanup] instantiates; [uuid5] is Python's with the
    URL namespace and [digest] the SHA-256 of a canonical JSON text. *)

From stdpp Require Import base gmap strings list sorting.
From Stdlib Require Import Ascii ZArith Lia.
From S2P Require Import Prelude Text Cursors Routes Session AgentTables FailureStore AgentWorld.
Local Open Scope Z_scope.
Set Default Proof Using "Type".

(** ** Contracts *)

Record FailureCleanupView := mk_view {
  cv_task_id : uuid;
  cv_session_id : string;
  cv_state : cleanup_state;
  cv_version : Z;
  cv_reason : string;
  cv_source : json;
  cv_attempts : Z;
  cv_next_attempt_at : timestamp;
  cv_last_error : option string;
  cv_execution_id : option uuid;
  cv_executor_status : option string;
  cv_evidence_complete : bool;
  cv_preserve_terminal : bool;
  cv_final_status : TaskStatus;
  cv_message : option string;
  cv_last_operation : option (uuid * string * string * timestamp * string);
  cv_updated_at : timestamp;
  cv_updated_by : string
}.

Record FailureCleanupPage := mk_page { cp_items : list FailureCleanupView; cp_next_cursor : option string; cp_has_more : bool }.
Record FailureOperationResult := mk_operation { or_cleanup : FailureCleanupView; or_replayed : bool }.
Record FailureOperationInput := mk_input { fi_idempotency_key : string; fi_expected_version : Z; fi_reason : string }.

(** The field constraints of [FailureOperationInput]. *)
Definition between (low high : nat) (s : string) : bool := (low <=? String.length s)%nat && (String.length s <=? high)%nat.
Definition validate_input (q : FailureOperationInput) : result unit :=
  raise_if (negb (between 1 255 (fi_idempotency_key q) && (1 <=? fi_expected_version q) && between 1 2000 (fi_reason q)))
    (ValueError "validation error").

(** [_view]; the operation is shown without its hash. *)
Definition view (row : cleanup_row) : FailureCleanupView :=
  mk_view (f_task_id row) (f_session_id row) (f_state row) (f_version row) (f_reason row) (f_source row) (f_attempts row)
    (f_next_attempt_at row) (f_last_error row) (f_execution_id row) (f_executor_status row)
    (negb (missing (f_executor_status row)) && negb (missing (f_message row)))
    (f_preserve_terminal row) (f_final_status row) (f_message row)
    ((λ op : uuid * string * string * string * timestamp * string,
        let '(id, action, _, reason, at_, by_) := op in (id, action, reason, at_, by_)) <$> f_last_operation row)
    (f_updated_at row) (f_updated_by row).

(** ** The policy ([FailureOperatorPolicy]) *)

(** [text.split(sep)] *)
Fixpoint split_on (sep : ascii) (s : string) : list string :=
  match s with
  | EmptyString => [""]
  | String c s' =>
      match split_on sep s' with
      | [] => []
      | part :: parts => if decide (c = sep) then "" :: part :: parts else String c part :: parts
      end
  end.
Definition operator_ids (user_ids : string) : list string :=
  filter (λ id, id ≠ "") (map strip (split_on ","%char user_ids)).

Definition failure_forbidden : exn := OtherException "FailureOperationsForbidden" "User is not authorized for failure operations".
Definition authorize (user_ids actor : string) : result unit :=
  raise_if (negb (bool_decide (actor ∈ operator_ids user_ids))) failure_forbidden.

(** ** Replies of the routes ([failure_router]) *)

(** The status of an exception a route handles; FastAPI answers 422 to input
    that does not validate. *)
Definition is_forbidden (e : exn) : bool := match e with OtherException c _ => String.eqb c "FailureOperationsForbidden" | _ => false end.
Definition is_lookup (e : exn) : bool := match e with LookupError _ | KeyError _ => true | _ => false end.
Definition is_conflict (e : exn) : bool := match e with FailureOperationConflict _ => true | _ => false end.

(** A route of [failure_router]; a process without the operations answers 503. *)
Definition answer {A} (available : bool) (status : Z) (handled : exn → option Z) (m : proc aworld A) : proc aworld (reply A) :=
  respond status (
    guard_or available (http_error 503 "Failure operations runtime is unavailable");;
    handling handled m).

Definition list_status (e : exn) : option Z :=
  if is_ValueError e then Some 422 else if is_forbidden e then Some 403 else None.
Definition detail_status (e : exn) : option Z :=
  if is_forbidden e then Some 403 else if is_lookup e then Some 404 else None.
Definition operation_status (e : exn) : option Z :=
  if is_forbidden e then Some 403 else if is_lookup e then Some 404 else if is_conflict e then Some 409 else None.

(** ** The operations ([FailureOperations]) *)

Definition unknown_cleanup (task_id : uuid) : exn := LookupError ("Unknown failure cleanup: " +:+ uuid_str task_id).

Section Operations.
Context `{CursorCodec} (uuid5 : string → uuid) (digest : json → string).
Context (execute : uuid → proc aworld unit) (user_ids : string).

(** [_encode_cursor] and [_decode_cursor] *)
Definition blocked_cursor (kr : uuid * cleanup_row) : string :=
  row_cursor "blocked_failure" "updated_at" "task_id" (f_updated_at kr.2) kr.1.
Definition read_blocked_cursor (cursor : string) : result (timestamp * uuid) :=
  read_row_cursor "blocked_failure" "updated_at" "task_id" "Invalid blocked failure cursor" cursor.

(** [if cursor]: an empty cursor is none. *)
Definition optional_cursor {A} (read : string → result A) (cursor : option string) : result (option A) :=
  match cursor with
  | None => Ok None
  | Some c => if String.eqb c "" then Ok None else a ← read c; Ok (Some a)
  end.

(** [blocked] *)
Definition blocked (actor : string) (cursor : option string) (limit : Z) : proc aworld FailureCleanupPage :=
  lift_result (authorize user_ids actor);;
  before ← lift_result (optional_cursor read_blocked_cursor cursor);
  rows ← adb_read (λ _, cleanup_page before limit);
  let has_more := limit <? Z.of_nat (length rows) in
  let visible := take (Z.to_nat limit) rows in
  mret (mk_page (map (λ kr, view kr.2) visible) (if has_more then blocked_cursor <$> last visible else None) has_more).

(** [detail] *)
Definition detail (task_id : uuid) (actor : string) : proc aworld FailureCleanupView :=
  lift_result (authorize user_ids actor);;
  row ← adb_read (λ _, get_cleanup task_id);
  row ← lift_result (from_option_err (unknown_cleanup task_id) row);
  mret (view row).

(** [_request_hash] *)
Definition operation_payload (task_id : uuid) (action : string) (q : FailureOperationInput) : json :=
  JObj [("action", JStr action); ("expected_version", JInt (fi_expected_version q));
        ("idempotency_key", JStr (fi_idempotency_key q)); ("reason", JStr (fi_reason q)); ("task_id", JStr (uuid_str task_id))].

(** The identity of an operation: who asks, for what, under which key. *)
Definition operation_key (actor : string) (task_id : uuid) (q : FailureOperationInput) : uuid :=
  uuid5 ("ex-agent/failure-operation/" +:+ actor +:+ "/" +:+ uuid_str task_id +:+ "/" +:+ fi_idempotency_key q).

(** The first half of [_request]: the transaction of the operator. *)
Definition requested (task_id : uuid) (action actor : string) (q : FailureOperationInput) : proc aworld (cleanup_row * bool) :=
  lift_result (authorize user_ids actor);;
  adb_call (λ now _, retry_blocked now task_id (operation_key actor task_id q) (digest (operation_payload task_id action q))
    action actor (fi_reason q) (fi_expected_version q)).

(** [_request] *)
Definition operate (task_id : uuid) (action actor : string) (q : FailureOperationInput) (finalize : bool)
    : proc aworld FailureOperationResult :=
  '(row, replay) ← requested task_id action actor q;
  row ← (if finalize && bool_decide (f_state row = F_PENDING) then
           execute task_id;;
           stored ← adb_read (λ _, get_cleanup task_id);
           lift_result (from_option_err (unknown_cleanup task_id) stored)
         else mret row);
  guard_or (negb (finalize && negb (bool_decide (f_state row = F_DONE))))
    (FailureOperationConflict (or_else (f_last_error row) "Terminal Executor and checkpoint evidence is incomplete"));;
  mret (mk_operation (view row) replay).

(** [retry], [finalize] *)
Definition retry (task_id : uuid) (actor : string) (q : FailureOperationInput) : proc aworld FailureOperationResult :=
  operate task_id "RETRY" actor q false.
Definition finalize (task_id : uuid) (actor : string) (q : FailureOperationInput) : proc aworld FailureOperationResult :=
  operate task_id "FINALIZE" actor q true.

(** ** The routes *)

(** The query of the listing: a cursor of at most 2048 characters and 1 to 100
    rows. *)
Definition blocked_failures (available : bool) (actor : string) (cursor : option string) (limit : Z) : proc aworld (reply FailureCleanupPage) :=
  if negb (from_option (between 0 2048) true cursor && (1 <=? limit) && (limit <=? 100))
  then mret validation_error
  else answer available 200 list_status (blocked actor cursor limit).
Definition failure_detail (available : bool) (task_id : uuid) (actor : string) : proc aworld (reply FailureCleanupView) :=
  answer available 200 detail_status (detail task_id actor).
Definition retry_failure (available : bool) (task_id : uuid) (actor : string) (q : FailureOperationInput) : proc aworld (reply FailureOperationResult) :=
  match validate_input q with
  | Err _ => mret validation_error
  | Ok _ => answer available 202 operation_status (retry task_id actor q)
  end.
Definition finalize_failure (available : bool) (task_id : uuid) (actor : string) (q : FailureOperationInput) : proc aworld (reply FailureOperationResult) :=
  match validate_input q with
  | Err _ => mret validation_error
  | Ok _ => answer available 200 operation_status (finalize task_id actor q)
  end.
End Operations.

Example operators_of : operator_ids " ann, bob ,,carol" = ["ann"; "bob"; "carol"].
Proof. vm_compute. done. Qed.
