(* ===== verification/FailureOperationsProps.v ===== *)
(** * Operator calls: what they guarantee

    Only operators act; a request is applied at most once, whoever sends it
    again and whatever runs in between; an answered finalization is that of a
    settled task; and a client that follows the cursors sees every blocked
    cleanup. *)

From stdpp Require Import base gmap strings list sorting relations.
From Stdlib Require Import Ascii ZArith Lia.
From S2P Require Import Prelude Text Cursors Routes WorkerContracts WorkerStore Session AgentTables Admission FailureStore TaskProjections AgentWorld Executor Effects AgentConforms AgentInv AgentSteps AgentAccept AgentHistory AgentProps AdmissionServiceProps FailureService FailureServiceProps FailureOperations.
Local Open Scope Z_scope.
Set Default Proof Using "Type".

(** ** The executor of cleanups

    What the operations rely on: it only makes the service's transactions. *)
Class CleanupExecutor (R : relation adb) (execute : uuid → proc aworld unit) : Prop :=
  execute_conforms : ∀ id, conforming R (execute id).

(** The failure service is one. *)
Section Service.
Context (fp : ApiRequest → string) (turn_fp : TaskTurn → string) (signal : json → result ResumeSignal)
  (digest : json → string) (command_response : json → result CommandResponse)
  (artifact_response : json → result json) (execution_result : json → result ExecutionResult) (max_attempts retry_delay : Z).
Abbreviation runs := (rtc (agent_step fp signal digest)).
Abbreviation service := (execute_cleanup turn_fp digest command_response artifact_response execution_result max_attempts retry_delay).

Lemma journal_conforms id key kind inputs m f : conforming runs m → (∀ q, conforming runs (f q)) →
  conforming runs (journal_run digest id key kind inputs m f).
Proof.
  intros Hm Hf. unfold journal_run. cbv zeta. conforming_parts; one_step.
Qed.
Lemma status_conforms e : conforming runs (known_status execution_result e).
Proof. unfold known_status, execution_status. conforming_parts. Qed.
#[local] Hint Resolve journal_conforms status_conforms : conforming.
Lemma attempt_conforms r : conforming runs (cleanup_attempt turn_fp digest command_response artifact_response execution_result r).
Proof.
  unfold cleanup_attempt, settle_graph, resolve, find_task_execution, confirm_terminal. cbv zeta.
  conforming_parts; one_step.
Qed.
#[local] Hint Resolve attempt_conforms : conforming.
Lemma claimed_conforms id : conforming runs (claim_and_run turn_fp digest command_response artifact_response execution_result max_attempts retry_delay id).
Proof.
  unfold claim_and_run, claimed_attempt. conforming_parts; one_step.
Qed.
#[local] Hint Resolve claimed_conforms : conforming.
Lemma held_conforms id : conforming runs (cleanup_held turn_fp digest command_response artifact_response execution_result max_attempts retry_delay id).
Proof.
  unfold cleanup_held. conforming_parts; one_step.
Qed.
#[local] Hint Resolve held_conforms : conforming.

#[export] Instance service_conforms : CleanupExecutor runs service.
Proof.
  intros id. unfold execute_cleanup. conforming_parts; one_step.
Qed.
End Service.

(** ** The operations *)

Section Operations.
Context (fp : ApiRequest → string) (signal : json → result ResumeSignal) (digest : json → string).
Abbreviation runs := (rtc (agent_step fp signal digest)).
Abbreviation agent_ok := (agent_ok fp signal digest).
Context (uuid5 : string → uuid) (op_digest : json → string).
Context (execute : uuid → proc aworld unit) `{Hex : !CleanupExecutor runs execute} (user_ids : string).
Abbreviation operate := (operate uuid5 op_digest execute user_ids).
Abbreviation requested := (requested uuid5 op_digest user_ids).
Abbreviation finalize := (finalize uuid5 op_digest execute user_ids).

(** What one applied request does to the row. *)
Definition released (task : uuid) (version : Z) (d d' : adb) : Prop :=
  ∃ row row', cleanups d !! task = Some row ∧ f_state row = F_BLOCKED ∧ f_version row = version ∧
    cleanups d' !! task = Some row' ∧ f_state row' = F_PENDING ∧ f_attempts row' = 0 ∧ f_version row' = version + 1.

Lemma retry_blocked_cases now task op hash action actor reason version d row replay d' :
  retry_blocked now task op hash action actor reason version d = Ok ((row, replay), d') →
  cleanups d' !! task = Some row ∧
  (replay = true ∧ d' = d ∧ (∃ o, f_last_operation row = Some o ∧ operation_id o = op ∧ operation_hash o = hash) ∨
   replay = false ∧ released task version d d').
Proof.
  unfold retry_blocked, put_cleanup. intros Hr. agent_inv. apply required_cleanup_Ok in Hrun0 as [Hc ->].
  destruct a1; agent_inv.
  - split; [done|left]. split_and!; [done..|]. unfold replayed in *.
    match goal with He : match f_last_operation row with _ => _ end = _ |- _ => destruct (f_last_operation row) as [o|] eqn:Eo; [|done] end.
    destruct (N.eqb_spec (operation_id o) op); [|done].
    match goal with He : (raise_if _ _;; _) = _ |- _ => apply raise_if_then in He as [He%negb_false_iff%String.eqb_eq _] end.
    by exists o.
  - match goal with He : add_task_event _ _ _ _ = _ |- _ => unfold add_task_event, tx_modify in He; injection He as _ <- end.
    simpl. rewrite lookup_insert, decide_True by done. split; [done|right]. split; [done|].
    match goal with Hg : bool_decide _ = true |- _ => apply bool_decide_eq_true in Hg end.
    match goal with Hg : (_ =? _) = true |- _ => apply Z.eqb_eq in Hg as <- end.
    exists a0. eexists. split_and!; [done|done|done|simpl; rewrite lookup_insert; by rewrite decide_True|done|done|done].
Qed.

Lemma retry_blocked_step now task op hash action actor reason version d x d' :
  retry_blocked now task op hash action actor reason version d = Ok (x, d') → runs d d'.
Proof. intros Hr. apply rtc_once. by eapply step_retry. Qed.

(** The transaction of a request: where it committed, or a driver fault. *)
Lemma requested_wp task action actor q Q w : afair runs w → actor ∈ operator_ids user_ids →
  (∀ d w1 row replay, runs (a_db w) d → runs d (a_db w1) → after runs w w1 [Committed d (a_db w1)] → cleanups (a_db w1) !! task = Some row →
     (replay = true ∧ a_db w1 = d ∨ replay = false ∧ released task (fi_expected_version q) d (a_db w1)) → Q (Ok (row, replay)) w1) →
  (∀ w1 e l, after runs w w1 l → Q (Err e) w1) →
  wp (requested task action actor q) Q w.
Proof.
  intros Hf Ha Hok Herr. unfold requested, FailureOperations.requested, authorize. rewrite bool_decide_eq_true_2 by done.
  apply wp_bind, wp_lift. apply (wp_adb_call runs); [done|..].
  - intros now _ d a d' Hr. by eapply retry_blocked_step.
  - intros now _ d [row replay] w2 Hr Hd Haft. split; [|intros e; by eapply Herr].
    apply retry_blocked_cases in Hr as Hcases. destruct Hcases as [Hc [(? & ? & _)|[? ?]]] ; (eapply Hok; [done|by eapply retry_blocked_step|done..|]); tauto.
  - intros now _ w1 e Haft _. by eapply Herr.
  - intros w1 e Haft. by eapply Herr.
Qed.

Lemma operate_forbidden task action actor q fin w : actor ∉ operator_ids user_ids →
  operate task action actor q fin w = (Err failure_forbidden, w).
Proof.
  intros Ha. unfold FailureOperations.operate, FailureOperations.requested, mbind, proc_bind, lift_result, authorize. by rewrite bool_decide_eq_false_2.
Qed.

(** What an answer of an operation is evidence of: the committed transaction of
    the operator, and a row of the cleanup seen afterwards. *)
Definition answered (task : uuid) (q : FailureOperationInput) (fin : bool) (w : aworld) (r : FailureOperationResult) (w' : aworld) : Prop :=
  ∃ d d', runs (a_db w) d ∧ runs d d' ∧ runs d' (a_db w') ∧ Committed d d' ∈ a_log w' ∧
    (or_replayed r = true ∧ d' = d ∨ or_replayed r = false ∧ released task (fi_expected_version q) d d') ∧
    ∃ d2 c, runs d' d2 ∧ runs d2 (a_db w') ∧ cleanups d2 !! task = Some c ∧ or_cleanup r = view c ∧ (fin = true → f_state c = F_DONE).

Lemma finish_operation task (fin replay : bool) row d2 Q w : runs d2 (a_db w) → cleanups d2 !! task = Some row →
  (∀ c, runs d2 (a_db w) → cleanups d2 !! task = Some c → (fin = true → f_state c = F_DONE) → Q (Ok (mk_operation (view c) replay)) w) →
  (∀ e, Q (Err e) w) →
  wp (guard_or (negb (fin && negb (bool_decide (f_state row = F_DONE))))
    (FailureOperationConflict (or_else (f_last_error row) "Terminal Executor and checkpoint evidence is incomplete"));;
    mret (mk_operation (view row) replay)) Q w.
Proof.
  intros Hr Hc Hok Herr. apply wp_bind, wp_guard; intros Hg; [|apply Herr]. apply wp_ret, Hok; [done..|].
  intros ->. apply negb_true_iff, andb_false_iff in Hg as [|Hg%negb_false_iff]; [done|]. by apply bool_decide_eq_true in Hg.
Qed.

Lemma operate_answers task action actor q fin w : afair runs w → agent_ok (a_db w) →
  wp (operate task action actor q fin) (λ x w', ∀ r, x = Ok r → actor ∈ operator_ids user_ids ∧ answered task q fin w r w') w.
Proof using Hex.
  intros Hf Hok. destruct (decide (actor ∈ operator_ids user_ids)) as [Ha|Ha].
  2:{ unfold wp. by rewrite operate_forbidden. }
  apply wp_bind, requested_wp; [done..| |by intros]. intros d w1 row replay Hd Hstep Haft Hc Hreq.
  assert (Hans : ∀ d2 c w2 l, after runs w1 w2 l → runs (a_db w1) d2 → runs d2 (a_db w2) → cleanups d2 !! task = Some c →
    (fin = true → f_state c = F_DONE) → ∀ r, Ok (mk_operation (view c) replay) = Ok r → actor ∈ operator_ids user_ids ∧ answered task q fin w r w2).
  { intros d2 c w2 l (_ & R2 & L2) H1 H2 Hc2 Hfin r [= <-]. split; [done|]. exists d, (a_db w1).
    split_and!; [done|done|done|..]; [|done|by exists d2, c].
    rewrite L2. destruct Haft as (_ & _ & ->). apply elem_of_app. left. apply elem_of_app. right. left. }
  apply wp_bind. destruct (fin && bool_decide (f_state row = F_PENDING)).
  - apply wp_bind. eapply wp_mono; [apply (execute_conforms (R := runs)), Haft|].
    intros [[]|e] w2 [l Haft2]; [|done]. apply wp_bind, (wp_adb_read runs); [apply Haft2| |by intros].
    intros _ w3 Haft3. cbn beta. unfold get_cleanup. apply wp_lift. destruct (cleanups (a_db w3) !! task) as [c|] eqn:Hc3; [|done]. cbn [from_option_err].
    pose proof (after_trans runs _ _ _ _ _ Haft2 Haft3) as Haft'.
    eapply finish_operation; [reflexivity|done| |by intros]. intros c' _ Hc' Hfin. eapply (Hans (a_db w3)); [exact Haft'|apply Haft'|reflexivity|done|done].
  - apply wp_ret. eapply finish_operation; [reflexivity|done| |by intros]. intros c' _ Hc' Hfin.
    eapply (Hans (a_db w1)); [apply after_refl; [apply _|apply Haft]|reflexivity|reflexivity|done|done].
Qed.

Lemma released_version task version d d' d2 : agent_ok d' → released task version d d' → runs d' d2 →
  ∃ c, cleanups d2 !! task = Some c ∧ version + 1 ≤ f_version c.
Proof.
  intros Hok (r & r' & _ & _ & _ & Hr' & _ & _ & Hv) Hruns. apply agent_run_grows in Hruns as Hg; [|done].
  destruct Hg as (_ & _ & _ & _ & Hg & _). destruct (Hg _ _ Hr') as (c & Hc & Hc'). exists c. split; [done|].
  destruct Hc' as (_ & _ & _ & _ & _ & _ & _ & Hle & _). lia.
Qed.

(** C21. A request of an operator is applied at most once: an answer that is not
    a replay is of a committed transaction that released the blocked cleanup at
    the version the operator had seen, and from then on every answer to a
    request made at that version, of any operator, key or action, after any
    transactions of the service, is a replay. *)
Theorem operator_request_applied_once task action actor q fin w r w' : agent_reachable fp signal digest (a_db w) → afair runs w →
  operate task action actor q fin w = (Ok r, w') → or_replayed r = false →
  ∃ d d', Committed d d' ∈ a_log w' ∧ runs (a_db w) d ∧ runs d' (a_db w') ∧ released task (fi_expected_version q) d d' ∧
    ∀ action2 actor2 q2 fin2 w2 r2 w2', afair runs w2 → runs d' (a_db w2) → fi_expected_version q2 = fi_expected_version q →
      operate task action2 actor2 q2 fin2 w2 = (Ok r2, w2') → or_replayed r2 = true.
Proof using Hex.
  intros Hd Hf Hrun Hr. apply reachable_agent_ok in Hd.
  destruct (wp_run _ _ _ _ _ (operate_answers task action actor q fin w Hf Hd) Hrun r eq_refl) as (_ & d & d' & H1 & H2 & H3 & Hin & Hreq & _).
  destruct Hreq as [[Ht _]|[_ Hrel]]; [congruence|]. assert (Hd' : agent_ok d') by (eapply agent_run_ok; [exact H2|by eapply agent_run_ok]).
  exists d, d'. split_and!; [done..|]. intros action2 actor2 q2 fin2 w2 r2 w2' Hf2 Hd2 Hv Hrun2.
  assert (Hok2 : agent_ok (a_db w2)) by by eapply agent_run_ok.
  destruct (wp_run _ _ _ _ _ (operate_answers task action2 actor2 q2 fin2 w2 Hf2 Hok2) Hrun2 r2 eq_refl) as (_ & d2 & d2' & G1 & _ & _ & _ & Hreq2 & _).
  destruct Hreq2 as [[? _]|[_ (row & _ & Hrow & _ & Hrv & _)]]; [done|exfalso].
  destruct (released_version task (fi_expected_version q) d d' d2) as (c & Hc & Hle); [done|done|by etransitivity|].
  rewrite Hrow in Hc. injection Hc as <-. lia.
Qed.

(** C22. A finalization is answered only with a cleanup that is done: at that
    moment the task has the terminal status and the message of the cleanup, none
    of its requests is active and it holds no session lock; whatever
    interleaves and whatever fails. *)
Theorem finalized_task_is_settled task actor q w r w' : agent_reachable fp signal digest (a_db w) → afair runs w →
  finalize task actor q w = (Ok r, w') →
  ∃ d c t, runs (a_db w) d ∧ runs d (a_db w') ∧ cleanups d !! task = Some c ∧ or_cleanup r = view c ∧ f_state c = F_DONE ∧
    tasks d !! task = Some t ∧ is_terminal (k_status t) = true ∧ k_status t = f_final_status c ∧ k_terminal_message t = f_message c ∧
    (∀ id q, requests d !! id = Some q → r_task_id q = task → active (r_state q) = false) ∧
    (∀ s l, session_locks d !! s = Some l → lk_active_task_id l ≠ task).
Proof using Hex.
  intros Hd Hf Hrun. apply reachable_agent_ok in Hd.
  destruct (wp_run _ _ _ _ _ (operate_answers task "FINALIZE" actor q true w Hf Hd) Hrun r eq_refl)
    as (_ & d & d' & H1 & H2 & _ & _ & _ & d2 & c & H3 & H4 & Hc & Hview & Hdone).
  specialize (Hdone eq_refl). assert (Hok : agent_ok d2) by (eapply agent_run_ok; [exact H3|]; eapply agent_run_ok; [exact H2|by eapply agent_run_ok]).
  destruct (ok_cleanup _ _ _ _ _ _ _ _ _ Hok task c Hc) as [Hid _ _ Hfin (t & Ht & _ & Hset)].
  unfold cleanup_settled in Hset. rewrite Hdone in Hset. destruct Hset as (Hst & Hm & Hreq & Hlk). rewrite Hid in *.
  exists d2, c, t. split_and!; try done; [etransitivity; [exact H1|]; etransitivity; [exact H2|exact H3]|by rewrite Hst].
Qed.
End Operations.

(** ** Listing *)

Section Listing.
Context `{CursorCodec} (user_ids actor : string) (limit : Z).
Hypothesis Hactor : actor ∈ operator_ids user_ids.
Hypothesis Hlimit : 1 ≤ limit ≤ 100.

(** A page as the client of a listing sees it. *)
Definition blocked_pages (cursor : option string) : proc aworld (list FailureCleanupView * option string) :=
  page ← blocked user_ids actor cursor limit; mret (cp_items page, cp_next_cursor page).

Definition is_blocked_row (kr : uuid * cleanup_row) : bool := bool_decide (f_state kr.2 = F_BLOCKED).
Definition keys_ok (d : adb) : Prop := ∀ k c, cleanups d !! k = Some c → f_task_id c = k ∧ (k < 2 ^ 128)%N.

Lemma cleanup_table_ok (m : gmap uuid cleanup_row) : table_ok cleanup_key (map_to_list m).
Proof using Type.
  split; [|apply NoDup_map_to_list]. intros [k c] [k' c'] Hin Hin' E. apply elem_of_map_to_list in Hin, Hin'.
  unfold cleanup_key in E. simpl in E. injection E as _ E. assert (k = k') as <- by lia. congruence.
Qed.

(** The tables [P] holds of are what the pages see: others keep [P], and so do
    the reads. *)
Context (P : adb → Prop) (HP : ∀ d, P d → keys_ok d).
Let R (d d' : adb) : Prop := P d → P d'.

#[local] Instance R_preorder : PreOrder R.
Proof using Type. split; unfold R; [by intros d|intros d1 d2 d3; auto]. Qed.

Definition seen_table (l : list (uuid * cleanup_row)) : Prop := ∃ d, P d ∧ l = map_to_list (cleanups d).

Lemma blocked_page_shows : page_shows blocked_pages cleanup_key is_blocked_row (Z.to_nat limit) (λ kr, view kr.2) blocked_cursor
  (λ w, afair R w ∧ P (a_db w)) seen_table (λ e, ∃ e', e = driver_fault e').
Proof using All.
  intros after w [Hf HPw] Hafter. unfold blocked_pages, blocked, authorize. rewrite bool_decide_eq_true_2 by done.
  apply wp_bind, wp_bind, wp_lift. apply wp_bind.
  assert (Hread : optional_cursor read_blocked_cursor (cursor_of blocked_cursor after) = Ok ((λ kr, (f_updated_at kr.2, kr.1)) <$> after)).
  { destruct after as [[k c]|]; [|done]. destruct (Hafter _ eq_refl) as (l & (d & Hd & ->) & Hin). apply elem_of_map_to_list in Hin.
    destruct (HP d Hd k c Hin) as [_ Hk]. cbn [cursor_of fmap option_fmap option_map optional_cursor].
    assert (Hne : String.eqb (blocked_cursor (k, c)) "" = false) by apply String.eqb_neq, encode_cursor_text.
    rewrite Hne. unfold read_blocked_cursor, blocked_cursor.
    rewrite row_cursor_reads; [done|done|]. repeat (apply NoDup_cons; split; [by set_solver|]). by apply NoDup_nil_2. }
  rewrite Hread. apply wp_lift, wp_bind, (wp_adb_read R); [done|..].
  - intros _ w1 (F1 & R1 & _). unfold cleanup_page. rewrite (proj2 (Z.leb_le 1 limit)), (proj2 (Z.leb_le limit 100)) by lia.
    cbn [andb negb raise_if mbind result_bind]. apply wp_ret, wp_ret. split; [split; [done|by apply R1]|].
    exists (map_to_list (cleanups (a_db w1))). split; [exists (a_db w1); split; [by apply R1|done]|]. cbn [cp_items cp_next_cursor].
    unfold next_of, fetched. rewrite Z2Nat.inj_add, Nat.add_1_r by lia.
    replace (keyset_page cleanup_key (λ kr, bool_decide (f_state kr.2 = F_BLOCKED)) ((λ b : timestamp * uuid, (- b.1, - Z.of_N b.2)) <$> ((λ kr, (f_updated_at kr.2, kr.1)) <$> after)) (S (Z.to_nat limit)) (map_to_list (cleanups (a_db w1))))
      with (keyset_page cleanup_key is_blocked_row (position_of cleanup_key after) (S (Z.to_nat limit)) (map_to_list (cleanups (a_db w1)))) by by destruct after.
    split; [done|]. destruct (Z.ltb_spec limit (Z.of_nat (length (keyset_page cleanup_key is_blocked_row (position_of cleanup_key after) (S (Z.to_nat limit)) (map_to_list (cleanups (a_db w1)))))));
      destruct (Nat.ltb_spec (Z.to_nat limit) (length (keyset_page cleanup_key is_blocked_row (position_of cleanup_key after) (S (Z.to_nat limit)) (map_to_list (cleanups (a_db w1)))))); done || lia.
  - intros w1 e (F1 & R1 & _). split; [split; [done|by apply R1]|by exists e].
Qed.
End Listing.

Lemma filter_only {A} (Q : A → Prop) `{!∀ x, Decision (Q x)} (l : list A) x :
  NoDup l → x ∈ l → Q x → (∀ y, y ∈ l → Q y → y = x) → filter Q l = [x].
Proof.
  induction l as [|a l IH]; [set_solver|]. intros [Ha Hn]%NoDup_cons Hx HQ Hu. rewrite filter_cons. destruct (decide (Q a)) as [Hqa|Hqa].
  - assert (a = x) as -> by (apply Hu; [left|done]). f_equal. apply filter_none. intros y Hy Hqy.
    apply Ha. rewrite <- (Hu y); [done|by right|done].
  - apply IH; [done| |done|intros y Hy; apply Hu; by right]. apply elem_of_cons in Hx as [->|]; done.
Qed.

Lemma key_sorted_NoDup {A} (key : A → sort_key) l : StronglySorted (λ x y, key_lt (key x) (key y)) l → NoDup l.
Proof.
  induction 1 as [|x l Hl IH Hx]; [constructor|]. constructor; [|done]. intros Hin. rewrite Forall_forall in Hx.
  by apply (key_lt_irrefl (key x)), Hx.
Qed.

Section Listed.
Context `{CursorCodec} (user_ids actor : string) (limit : Z).
Hypothesis Hactor : actor ∈ operator_ids user_ids.
Hypothesis Hlimit : 1 ≤ limit ≤ 100.

Lemma listing_follows (still : adb → Prop) fuel w : (∀ d, still d → keys_ok d) → still (a_db w) →
  afair (λ d d', still d → still d') w →
  wp (list_all (blocked_pages user_ids actor limit) fuel None) (λ x _,
    match x with
    | Ok vs => ∃ ls rows, follows cleanup_key is_blocked_row (Z.to_nat limit) None ls rows ∧ Forall (seen_table still) ls ∧
        vs = map (λ kr : uuid * cleanup_row, view kr.2) rows
    | Err e => (∃ e', e = driver_fault e') ∨
        ∀ l, (∀ l', seen_table still l' → l' = l) → (fuel ≤ length (rest_after cleanup_key is_blocked_row None l))%nat
    end) w.
Proof using Hactor Hlimit.
  intros Hk Hw Hf.
  eapply wp_mono; [apply (list_all_follows (blocked_pages user_ids actor limit) cleanup_key is_blocked_row (Z.to_nat limit)
    (λ kr, view kr.2) blocked_cursor (λ w, afair (λ d d', still d → still d') w ∧ still (a_db w)) (seen_table still)
    (λ e, ∃ e', e = driver_fault e') fuel None)|].
  - lia.
  - intros l (d & _ & ->). apply cleanup_table_ok.
  - by apply blocked_page_shows.
  - done.
  - done.
  - intros [vs|e] w1 [_ Hx]; [done|]. destruct Hx as [?|[_ ?]]; [by left|by right].
Qed.

Lemma seen_tables_ok still ls : Forall (seen_table still) ls → Forall (table_ok cleanup_key) ls.
Proof using Type. intros HT. eapply Forall_impl; [exact HT|]. intros l (d & _ & ->). apply cleanup_table_ok. Qed.

(** An operator who follows the cursors of the listing sees every cleanup
    that stays blocked exactly once, however the other cleanups change, appear
    or disappear between the pages. *)
Theorem blocked_cleanup_listed_once id c fuel items w w' : f_state c = F_BLOCKED →
  let still d := keys_ok d ∧ cleanups d !! id = Some c in
  still (a_db w) → afair (λ d d', still d → still d') w →
  list_all (blocked_pages user_ids actor limit) fuel None w = (Ok items, w') →
  filter (λ v, cv_task_id v = id) items = [view c].
Proof using Hactor Hlimit.
  intros Hs still Hw Hf Hrun.
  destruct (wp_run _ _ _ _ _ (listing_follows still fuel w ltac:(by intros d [? _]) Hw Hf) Hrun) as (ls & rows & Hfol & HT & ->).
  pose proof (seen_tables_ok _ _ HT) as Hok.
  assert (Hin : (id, c) ∈ rows).
  { eapply follows_complete; [exact Hfol|exact Hok| |by apply bool_decide_eq_true|done].
    eapply Forall_impl; [exact HT|]. intros l (d & [_ Hd] & ->). by apply elem_of_map_to_list. }
  change [view c] with (map (λ kr : uuid * cleanup_row, view kr.2) [(id, c)]).
  rewrite <- (filter_only (λ kr : uuid * cleanup_row, cv_task_id (view kr.2) = id) rows (id, c)); [|..].
  - clear. induction rows as [|x rows IH]; [done|]. cbn [map]. rewrite !filter_cons. case_decide; cbn [map]; by rewrite IH.
  - eapply key_sorted_NoDup, follows_sorted; [exact Hfol|done].
  - done.
  - destruct Hw as [Hk Hc]. by destruct (Hk id c Hc).
  - intros [k c'] Hy Hid. destruct (follows_elem _ _ _ _ _ _ _ Hfol Hok Hy) as (_ & _ & l & Hl & Hkc).
    rewrite Forall_forall in HT. destruct (HT l Hl) as (d & [Hk Hc] & ->). apply elem_of_map_to_list in Hkc.
    destruct (Hk k c' Hkc) as [Hkid _]. simpl in Hid. assert (k = id) as -> by congruence. congruence.
Qed.

(** While no cleanup changes the listing is all of the blocked ones, newest
    first, in at most as many pages as there are cleanups and one. *)
Theorem blocked_listing_complete fuel w : keys_ok (a_db w) → afair (λ d d', cleanups d' = cleanups d) w →
  (length (filter (λ kr, is_blocked_row kr = true) (map_to_list (cleanups (a_db w)))) < fuel)%nat →
  wp (list_all (blocked_pages user_ids actor limit) fuel None) (λ x _,
    match x with
    | Ok items => items = map (λ kr : uuid * cleanup_row, view kr.2)
        (order_by cleanup_key (filter (λ kr, is_blocked_row kr = true) (map_to_list (cleanups (a_db w)))))
    | Err e => ∃ e', e = driver_fault e'
    end) w.
Proof using Hactor Hlimit.
  intros Hw Hf Hfuel. set (still := λ d, keys_ok d ∧ cleanups d = cleanups (a_db w)).
  eapply wp_mono; [apply (listing_follows still)|].
  - by intros d [? _].
  - done.
  - eapply Forall_impl; [exact Hf|]. intros t Ht d [Hk Hd]. split; [|by rewrite Ht]. intros k c. rewrite Ht. apply Hk.
  - assert (Heq : ∀ l, seen_table still l → l = map_to_list (cleanups (a_db w))) by (intros l (d & [_ ->] & ->); done).
    assert (Hrest : rest_after cleanup_key is_blocked_row None (map_to_list (cleanups (a_db w))) =
      order_by cleanup_key (filter (λ kr, is_blocked_row kr = true) (map_to_list (cleanups (a_db w))))) by (by apply filter_all).
    intros [items|e] w1 Hx.
    + destruct Hx as (ls & rows & Hfol & HT & ->). f_equal. rewrite <- Hrest. eapply follows_still; [exact Hfol|apply cleanup_table_ok|].
      eapply Forall_impl; [exact HT|]. intros l Hl. symmetry. by apply Heq.
    + destruct Hx as [?|Hx]; [done|]. specialize (Hx _ Heq).
      rewrite Hrest, order_by_Permutation in Hx. lia.
Qed.
End Listed.

(** ** The routes *)

(** Without the permission the routes answer 403, do nothing and show nothing. *)
Theorem only_operators `{CursorCodec} uuid5 digest execute user_ids actor task q cursor limit w : actor ∉ operator_ids user_ids →
  1 ≤ limit ≤ 100 → from_option (between 0 2048) true cursor = true → validate_input q = Ok tt →
  let forbidden {A} : result (reply A) := Ok (Refusal 403 (JStr "User is not authorized for failure operations")) in
  blocked_failures user_ids true actor cursor limit w = (forbidden, w) ∧ failure_detail user_ids true task actor w = (forbidden, w) ∧
  retry_failure uuid5 digest execute user_ids true task actor q w = (forbidden, w) ∧
  finalize_failure uuid5 digest execute user_ids true task actor q w = (forbidden, w).
Proof.
  intros Ha Hl Hc Hq forbidden. unfold blocked_failures, failure_detail, retry_failure, finalize_failure. rewrite Hc, Hq.
  rewrite (proj2 (Z.leb_le 1 limit)), (proj2 (Z.leb_le limit 100)) by lia. cbn [andb negb].
  unfold answer, respond, handling, guard_or, try_except, retry, finalize, mbind, proc_bind, blocked, detail. rewrite !operate_forbidden by done.
  unfold mbind, proc_bind, lift_result, authorize. by rewrite bool_decide_eq_false_2.
Qed.

(** A cursor whose identifier is not a text is not refused as invalid input:
    [UUID] raises an [AttributeError], which nothing handles. *)
Theorem cursor_identifier_not_text `{CursorCodec} user_ids actor limit n t w : actor ∈ operator_ids user_ids → 1 ≤ limit ≤ 100 →
  let cursor := encode_cursor [("kind", JStr "blocked_failure"); ("task_id", JInt n); ("updated_at", JStr (isoformat t))] in
  between 0 2048 cursor = true → blocked_failures user_ids true actor (Some cursor) limit w = (Ok internal_error, w).
Proof.
  intros Ha Hl cursor Hlen. unfold blocked_failures, from_option. rewrite Hlen, (proj2 (Z.leb_le 1 limit)), (proj2 (Z.leb_le limit 100)) by lia.
  cbn [andb negb]. unfold answer, respond, handling, guard_or, try_except, blocked, authorize, mbind, proc_bind. rewrite bool_decide_eq_true_2 by done. cbn [negb raise_if lift_result].
  assert (Hread : optional_cursor read_blocked_cursor (Some cursor) = Err (OtherException "AttributeError" "no attribute 'replace'")); [|by rewrite Hread].
  cbn [optional_cursor]. rewrite (proj2 (String.eqb_neq _ _)) by apply encode_cursor_text.
  unfold read_blocked_cursor, read_row_cursor, cursor.
  match goal with |- context [encode_cursor ?l] => assert (Hc : canonical l) by (unfold canonical; repeat constructor); pose proof (cursor_decodes l Hc) as Hd end.
  destruct (cursor_payload _) as [p|]; [|done]. cbn [mbind result_bind] in Hd |- *. rewrite Hd. cbn [mbind result_bind].
  cbn. rewrite fromisoformat_isoformat. done.
Qed.
