(* ===== verification/FailureOperationsDemo.v ===== *)
(** * A run of the operator calls

    A codec of cursors, and the blocked cleanup of [AgentDemo] that an operator
    lists, releases and finalizes, on which the theorems are applied. *)

From stdpp Require Import base gmap strings list sorting relations countable.
From Stdlib Require Import Ascii ZArith Lia.
From S2P Require Import Prelude Text Cursors Routes WorkerContracts WorkerStore Session AgentTables Admission FailureStore TaskProjections AgentWorld Executor Effects AgentConforms AgentInv AgentSteps AgentAccept AgentHistory AgentProps AgentDemo AdmissionService AdmissionServiceProps AdmissionLife EffectsProps FailureService FailureServiceProps FailureCapture FailureLife FailureDemo FailureOperations FailureOperationsProps.
Local Open Scope Z_scope.
Set Default Proof Using "Type".

Import AgentDemo LifeDemo FailureDemo.

(** A codec: the text of a value is the bits of its code. *)
Module DemoCursors.
Abbreviation tree := (gen_tree (string + Z)).
Fixpoint to_tree (j : json) : tree :=
  match j with
  | JNull => GenNode 0 []
  | JBool b => GenNode 1 [GenLeaf (inr (if b then 1 else 0))]
  | JInt z => GenNode 2 [GenLeaf (inr z)]
  | JFloat r => GenNode 3 [GenLeaf (inl r)]
  | JStr s => GenNode 4 [GenLeaf (inl s)]
  | JArr l => GenNode 5 (map to_tree l)
  | JObj l => GenNode 6 (map (λ kv, GenNode 7 [GenLeaf (inl kv.1); to_tree kv.2]) l)
  end.
Fixpoint of_tree (t : tree) : option json :=
  let list_of := fix list_of (l : list tree) : option (list json) :=
    match l with [] => Some [] | t :: l' => j ← of_tree t; js ← list_of l'; Some (j :: js) end in
  let items_of := fix items_of (l : list tree) : option (list (string * json)) :=
    match l with
    | [] => Some []
    | GenNode 7 [GenLeaf (inl k); t] :: l' => j ← of_tree t; kvs ← items_of l'; Some ((k, j) :: kvs)
    | _ => None
    end in
  match t with
  | GenNode 0 [] => Some JNull
  | GenNode 1 [GenLeaf (inr z)] => Some (JBool (z =? 1))
  | GenNode 2 [GenLeaf (inr z)] => Some (JInt z)
  | GenNode 3 [GenLeaf (inl r)] => Some (JFloat r)
  | GenNode 4 [GenLeaf (inl s)] => Some (JStr s)
  | GenNode 5 l => js ← list_of l; Some (JArr js)
  | GenNode 6 l => kvs ← items_of l; Some (JObj kvs)
  | _ => None
  end.
Lemma of_to_tree j : of_tree (to_tree j) = Some j.
Proof.
  revert j. fix IH 1. intros [|[]| | | |l|l]; try reflexivity.
  - cbn. match goal with |- (?f _ ≫= _) = _ => assert (E : f (map to_tree l) = Some l) end; [|by rewrite E].
    induction l as [|j l IHl]; [done|]. cbn. rewrite IH. cbn. by rewrite IHl.
  - cbn. match goal with |- (?f _ ≫= _) = _ => assert (E : f (map (λ kv : string * json, GenNode 7 [GenLeaf (inl kv.1); to_tree kv.2]) l) = Some l) end; [|by rewrite E].
    induction l as [|[k j] l IHl]; [done|]. cbn. rewrite IH. cbn. by rewrite IHl.
Qed.

Fixpoint bits (p : positive) : string :=
  match p with xH => "1" | xO p => String "o" (bits p) | xI p => String "i" (bits p) end.
Fixpoint of_bits (s : string) : option positive :=
  match s with
  | String c s' => if decide (c = "o"%char) then xO <$> of_bits s' else if decide (c = "i"%char) then xI <$> of_bits s' else Some xH
  | EmptyString => None
  end.
Lemma of_to_bits p : of_bits (bits p) = Some p.
Proof. induction p as [p IH|p IH|]; cbn; [by rewrite IH|by rewrite IH|done]. Qed.

Definition demo_dumps (j : json) : string := bits (encode (to_tree j)).
Definition demo_loads (s : string) : result json :=
  from_option_err (ValueError "Expecting value") (p ← of_bits s; t ← decode p; of_tree t).
Definition demo_fromiso (s : string) : result (timestamp * bool) :=
  match py_int s with Some t => Ok (t, true) | None => Err (ValueError "Invalid isoformat string") end.

#[export] Program Instance demo_codec : CursorCodec := {
  json_dumps := demo_dumps; json_loads := demo_loads; isoformat := int_str; fromisoformat := demo_fromiso
}.
Next Obligation. intros j. unfold demo_dumps. by destruct (encode (to_tree j)). Qed.
Next Obligation. intros l _. unfold demo_loads, demo_dumps. rewrite of_to_bits. cbn [mbind option_bind]. rewrite decode_encode. cbn [mbind option_bind]. by rewrite of_to_tree. Qed.
Next Obligation. intros t. unfold demo_fromiso. by rewrite py_int_int_str. Qed.
End DemoCursors.

Import DemoCursors.

Module OperatorDemo.
Definition demo_uuid5 (s : string) : uuid := 5.
Definition demo_request : FailureOperationInput := mk_input "failure-retry-0001" 3 "again".
Abbreviation service := (execute_cleanup turn_fp digest no_command no_artifact cancelled 20 5).
Abbreviation demo_operate := (operate demo_uuid5 digest service "operator, root").

(** The state of the run in which the cleanup is blocked, and the schedules of
    a release and of a finalization. *)
Definition releasing : aworld := mk_aworld b7 [calm 80 ANone] [].
Definition finalizing : aworld := mk_aworld b7 (map (calm 80)
  [ANone; ANone; ANone; ANone; ANone; ASnapshot pending; ANone; ANone; ANone; ANone;
   ASnapshot pending; ANone; ASnapshot pending; ANone; ASnapshot before; ANone; ANone; ANone]) [].
Definition no_view : FailureOperationResult := mk_operation (view no_cleanup) true.
Definition answer_of (x : result FailureOperationResult) : FailureOperationResult := match x with Ok r => r | Err _ => no_view end.
Definition release := demo_operate 7 "RETRY" "operator" demo_request false releasing.
Definition finish := finalize demo_uuid5 digest service "operator, root" 7 "root" demo_request finalizing.

Lemma run_answers (x : result FailureOperationResult * aworld) : match x.1 with Ok _ => true | Err _ => false end = true → x = (Ok (answer_of x.1), x.2).
Proof. by destruct x as [[r|e] w]. Qed.
Lemma release_run : release = (Ok (answer_of release.1), release.2).
Proof. apply run_answers. vm_compute. reflexivity. Qed.
Lemma release_first : or_replayed (answer_of release.1) = false.
Proof. vm_compute. reflexivity. Qed.
Lemma finalize_run : finish = (Ok (answer_of finish.1), finish.2).
Proof. apply run_answers. vm_compute. reflexivity. Qed.
Lemma quiet_fair d l : afair (rtc step) (mk_aworld d (map (calm 80) l) []).
Proof. unfold afair. simpl. induction l as [|r l IH]; simpl; constructor; [by intros d'|done]. Qed.

(** A second blocked cleanup, and the listing in pages of one row. *)
Definition blocked_row : cleanup_row := default no_cleanup (cleanups b7 !! 7%N).
Definition later_row : cleanup_row := mk_cleanup 8 "s2" demo_turn JNull "error" F_BLOCKED 1 1 0 None None None false TASK_FAILED None None 90 "AGENT".
Definition listed_tables : adb := set_cleanups (λ _, <[8%N := later_row]> (<[7%N := blocked_row]> ∅)) b7.
Definition listing : aworld := mk_aworld listed_tables (map (calm 80) [ANone; ANone; ANone]) [].
Definition shown := list_all (blocked_pages "operator" "operator" 1) 3 None listing.
Lemma blocked_row_task : f_task_id blocked_row = 7%N.
Proof. vm_compute. reflexivity. Qed.
Lemma listed_keys : keys_ok listed_tables ∧ cleanups listed_tables !! 7%N = Some blocked_row.
Proof.
  assert (E : cleanups listed_tables = <[8%N := later_row]> (<[7%N := blocked_row]> ∅)) by reflexivity.
  split; [|by rewrite E, lookup_insert_ne, lookup_insert_eq]. intros k c. rewrite E, !lookup_insert, lookup_empty.
  case_decide as E1; [intros Hc; apply (inj Some) in Hc as <-; rewrite <- E1; split; [reflexivity|lia]|].
  case_decide as E2; [intros Hc; apply (inj Some) in Hc as <-; rewrite <- E2; split; [apply blocked_row_task|lia]|done].
Qed.
Definition views_of (x : result (list FailureCleanupView)) : list FailureCleanupView := match x with Ok l => l | Err _ => [] end.
Lemma shown_run : list_all (blocked_pages "operator" "operator" 1) 3 None listing = (Ok (views_of shown.1), shown.2).
Proof.
  fold shown.
  assert (E : match shown.1 with Ok _ => true | Err _ => false end = true) by (vm_compute; reflexivity).
  destruct shown as [[l|e] w]; [done|discriminate E].
Qed.
End OperatorDemo.
Import OperatorDemo.

Lemma operator_request_applied_once_witness : ∃ d d', Committed d d' ∈ a_log release.2 ∧ released 7 3 d d' ∧
  ∀ actor2 w2 r2 w2', afair (rtc step) w2 → rtc step d' (a_db w2) → demo_operate 7 "FINALIZE" actor2 demo_request true w2 = (Ok r2, w2') → or_replayed r2 = true.
Proof.
  destruct (operator_request_applied_once fp no_signal digest demo_uuid5 digest service "operator, root" 7 "RETRY" "operator" demo_request false
    releasing (answer_of release.1) release.2 reach_b7 (quiet_fair b7 [ANone]) release_run release_first) as (d & d' & H1 & _ & _ & H2 & H3).
  exists d, d'. split; [exact H1|split; [exact H2|]]. intros actor2 w2 r2 w2' Hf Hr Hrun. exact (H3 _ _ _ _ _ _ _ Hf Hr eq_refl Hrun).
Defined.

Lemma finalized_task_is_settled_witness : ∃ d t, tasks d !! 7%N = Some t ∧ is_terminal (k_status t) = true ∧
  k_terminal_message t = cv_message (or_cleanup (answer_of finish.1)).
Proof.
  destruct (finalized_task_is_settled fp no_signal digest demo_uuid5 digest service "operator, root" 7 "root" demo_request
    finalizing (answer_of finish.1) finish.2 reach_b7 (quiet_fair b7 _) finalize_run) as (d & c & t & _ & _ & _ & E & _ & Ht & Hterm & _ & Hm & _).
  exists d, t. rewrite E. exact (conj Ht (conj Hterm Hm)).
Defined.

Lemma blocked_cleanup_listed_once_witness : filter (λ v, cv_task_id v = 7%N) (views_of shown.1) = [view blocked_row].
Proof.
  refine (blocked_cleanup_listed_once "operator" "operator" 1 _ _ 7 blocked_row 3 (views_of shown.1) listing shown.2 _ listed_keys _ shown_run).
  - vm_compute. left.
  - lia.
  - vm_compute. reflexivity.
  - by repeat (apply Forall_cons_2; [intros d Hd; exact Hd|]).
Defined.
